(* ===== verification/_CoqProject ===== *)
-Q . S2P
Prelude.v
Bytes.v
Params.v
Kstring.v
Store.v
KstringSpec.v
Ondisk.v
OndiskSpec.v
Bio.v
BioList.v
BioSpec.v
BioProps.v
Log.v
LogProps.v
LogRecover.v
Fs.v
FsBlock.v
FsAlloc.v
FsAllocProps.v
FsFile.v
FsFileProps.v
FsTruncProps.v
Dir.v
DirSpec.v
DirProps.v
NamexProps.v
Frames.v
FramesSpec.v
Pipe.v
PipeSpec.v
Proc.v
ProcSpec.v
File.v
Sysfile.v
Kalloc.v
Clock.v
Cprintf.v
Sysproc.v
SysprocSpec.v
Exec.v
ExecSpec.v
Mkfs.v
MkfsImg.v
MkfsAppend.v
MkfsTree.v
MkfsWalk.v
MkfsProps.v
Syscall.v
FileRefsProps.v
Libstring.v
LibstringSpec.v
Libmem.v
Libmalloc.v
LibmallocSpec.v
LibmallocProps.v
Libstdio.v
LibstdioSpec.v
LibstdioRead.v
LibstdioReadSpec.v
LibstdioProps.v
Libsort.v
Libnum.v
Sh.v
ShSpec.v
ShParse.v
ShRun.v
Readline.v
ReadlineSpec.v
ReadlineEdit.v
ReadlineHist.v
ReadlineProps.v
ReadlineRun.v
Libqsort.v
Getopt.v
Fgrep.v
FgrepSpec.v
FgrepProps.v
Libvis.v
Fnmatch.v
