(* ===== verification/Prelude.v ===== *)
(** * xv6-rosco-r2: a verification of the kernel, of mkfs, of the shell, of fgrep and of parts of the C library

    xv6-rosco-r2 is a port of the xv6 kernel to a 68010 single-board computer
    with a CH375 USB block device and a memory of sixteen 64K frames.  This
    library models the C code of the kernel (src/kern), of the program that
    makes a file system image (src/tools/mkfs.c), of the shell and of fgrep
    (src/cmds/simple/sh.c, fgrep.c) and of routines of the C library (src/lib),
    and proves what they compute.

    ** How the code is modelled

    A kernel routine is a function in the monad [M] of this file: it maps a
    state to an [outcome], which is a normal return, a call of panic(), an
    access through a NULL pointer, or a loop without end.  [wp m s Q] says that
    [m] returns from [s], and that [Q] holds of the result: it is total
    correctness, so a theorem stated with [wp] says that the routine does not
    panic, does not fault and does not loop.  Loops are structural or have
    fuel; fuel is always enough in the theorems because they are stated with
    [wp], or because the fuel is a bound that the theorem proves sufficient.
    Integers are [Z], with [u8], [u16], [u32], [s16] and [s32] where the C code
    wraps around.  [hoare] is the partial form of [wp]; it is used only for
    invariants of the state, which must hold whatever the routine's result and
    which say nothing of whether it returns.  Blocks, buffers and strings are lists of bytes; structures
    that the kernel overlays on blocks are read and written field by field,
    big-endian (Bytes, Ondisk).  A pointer into an array is an index.

    The kernel is not preemptive: a system call runs until it sleeps.  A
    routine that can sleep is modelled up to its next sleep, and returns what
    is left to do; interleavings are sequences of such pieces, described by a
    step relation (PipeSpec, ProcSpec).

    ** The parts of the system and the files that model them

    - Prelude, Bytes, Params: the monad and its rules, byte arrays, the
      compile-time constants.
    - Kstring, KstringSpec: kern/string.c.
    - Store: the interface between the file system and the log: the class
      [BlockOps] of the operations (bread, brelse, log_write, begin_op, end_op)
      and the class [BlockStore] of what they promise.  The file system layers
      are written and proved against it; LogProps and FsAllocProps discharge it
      with the log on the buffer cache.
    - Ondisk, OndiskSpec: super block, disk inodes, directory entries.
    - Bio, BioList, BioSpec, BioProps: kern/bio.c and blkrw() of kern/usbblk.c.
      The doubly linked LRU list is modelled with its pointers; [content] is
      the abstract view, the block a reader sees through the cache, and every
      operation is a function on it.  What the controller stores and whether
      it completes a transfer are parameters ([device]).
    - Log, LogProps, LogRecover: kern/log.c.  A system call between
      begin_op() and end_op() applies its writes to the abstract disk; recovery
      after a crash at the commit point does the same.
    - Fs, FsBlock, FsAlloc, FsAllocProps, FsFile, FsFileProps,
      FsTruncProps: kern/fs.c, the block allocator, the inode cache, file
      content, and the end of a file (itrunc() and the last iput()).
    - Dir, DirSpec, DirProps, NamexProps: the directory layer
      and path names of kern/fs.c.  A directory is an array of entries; [walk]
      is the resolution of a path on the disk alone, which namex() refines.
    - Frames, FramesSpec: kern/frames.c.
    - Pipe, PipeSpec: kern/pipe.c; the pipe as a queue, and the stream between
      a writer and a reader under every schedule.
    - Proc, ProcSpec: the process table of kern/proc.c, its invariant, and the
      protocol of exit() and wait().
    - File, Sysfile, Sysproc, Exec: kern/file.c, sysfile.c, the system calls of
      proc.c, and exec.c, on the kernel state [kst] that holds all the parts.
      SysprocSpec and ExecSpec say what sbrk() and exec() leave in memory.
    - Syscall, FileRefsProps: the table of system calls, a process's
      life as a sequence of them, and the invariant that the reference count
      of an open file is the number of descriptors that name it.
    - Kalloc, Clock, Cprintf: kern/kalloc.c, clock.c, cprintf.c.
    - Mkfs: tools/mkfs.c, on a directory tree given as data.  MkfsImg has the
      slots that hold block numbers and their layout, MkfsAppend the append to
      a file, MkfsTree the image as a list of files and the copy of a tree,
      MkfsWalk the bitmap and the lookup of a path in the image, and
      MkfsProps the theorems.
    - Libstring, LibstringSpec, Libmem, Libsort, Libqsort, Libnum: routines of
      lib/string and lib/stdlib.
    - Getopt: lib/stdlib/getopt.c, with the options and operands that the
      arguments of a program stand for.
    - Libvis, Fnmatch: lib/gen/vis.c and unvis.c, and lib/gen/fnmatch.c with the
      tokens that a pattern stands for.
    - Libmalloc, LibmallocSpec, LibmallocProps: the allocator of
      lib/stdlib/malloc.c, with its heap as a row of slots.
    - Libstdio, LibstdioSpec, LibstdioRead, LibstdioReadSpec, LibstdioProps: the
      streams of lib/stdio, output and input, on read() and write() as
      parameters.
    - Sh, ShSpec, ShParse, ShRun: the shell.  The nodes that
      its parser makes live in a heap and point into the line; what a command
      does is a tree of system calls, whose results are the environment's.
    - Readline: lib/other/readline.c and readline_fn.c, the line editor that the
      shell reads its lines with.  The keys are the results of read(), and what
      is written is kept.  ReadlineSpec has the abstract editor, a line cut in
      two at the cursor with a list of lines for the history; ReadlineEdit and
      ReadlineHist prove its operations, ReadlineProps the decoding of the keys
      into commands, the loop and a whole line, and ReadlineRun what a terminal
      shows and the theorems.
    - Fgrep: cmds/simple/fgrep.c, with its buffer and the two bytes before it in
      memory, on getopt(); what read() returns is an argument.  FgrepSpec has the
      table of distances, the search of one string and the refill of the buffer,
      FgrepProps the reference program on the lines of a file, the choice of a
      line, the loops over lines and files, and the theorems.

    ** What the theorems show

    - The cache is transparent: reading a block gives its current content
      whatever is cached; eviction is by least recent use and writes changed
      blocks back; flushing puts everything on the device (BioProps).
    - Transactions are atomic and recovered after a crash at the commit point;
      the code does not itself force the blocks to the disk, which is stated
      as a theorem too (LogProps, LogRecover).
    - The allocators of blocks and of memory frames hand out what was free and
      nothing else, and fail only when they must; one case in which balloc()
      leaves the file system is exhibited (FsAllocProps, FramesSpec).  The last
      iput() of a file without links frees its inode and exactly the blocks of
      the file (FsTruncProps).
    - Files: readi() and writei() are the reads and writes of an array of
      bytes (FsFileProps); paths are split as a reference function does
      (DirSpec); dirlink() adds an entry (DirProps) and namei() and
      nameiparent() find what the directories on the disk say, and give every
      reference back (NamexProps).
    - The image that mkfs makes of a directory that fits is the file system that
      the kernel's path resolution and file layout read: every path leads where
      it leads on the host, to the same data, and the bitmap marks the blocks of
      the files (MkfsProps).  What fits is a computable condition on the tree:
      the number of inodes, the size of a file and the number of blocks.
    - Every system call keeps the count of references of the open files
      (FileRefsProps).
    - Pipes deliver the stream of bytes in order and do not deadlock
      (PipeSpec); no exit is missed by a waiting parent (ProcSpec).
    - Library: heapsort() and qsort() sort, the latter with a stack of
      logarithmic depth, bsearch() finds, bcopy() copies whatever the
      overlap and alignment, strtok() and strstr() and strtol() compute what
      their reference definitions say; malloc() and free() keep the heap a row
      of disjoint slots (LibmallocProps); what is written to a stream reaches
      the descriptor in order, and what is read from it is what the descriptor
      delivers, pushed back characters first (LibstdioProps); strunvis() undoes
      strvis() (Libvis); fnmatch() decides the matching of a pattern (Fnmatch).
    - Shell: the parser ends on every line and accepts the printed form of a
      command tree, which it rebuilds; its nodes are well typed; running a
      pipeline or a redirection gives each program the descriptors that the
      command says and no others (ShRun).
    - Line editor: whatever is typed, the line returned is the one that the
      commands of the keys make, inside the buffers and with the history kept;
      the screen shows the line and the cursor; TAB completes a unique name
      (ReadlineRun).
    - fgrep prints what a reference program on the lines of the files prints,
      for a command line without -f and for strings and lines within its buffers, however the files are read; what
      happens beyond the bounds is exhibited (FgrepProps).

    ** Bounds and fuel

    The scan of the buffer list has fuel NBUF, the length of the list that the
    cache invariant gives; balloc() has one round per bitmap block and one per
    bit; bsearch() has 33 rounds, enough for any 32-bit size; heapsort() has
    one round per item.  The walks of malloc() and free() have one round for
    each slot that fits the address space; the write of a line-buffered stream
    has two rounds per byte left and two more, its reads one per byte; the
    shell's parser has depth 4 * strlen + 4 and loops of one round per byte of
    the line left; nulterminate() and runcmd() descend to nodes of a smaller
    index, and have that index and one more.  history_add() has one round for
    each line of the history and one more, the line editor one round for each
    key.  quick_sort() has one round for each item of its part, and a depth that
    the theorem takes as the number of bits of the size; fgrep one round for each
    read() and each byte left, and one for each character of the command line; fnmatch() one for each character of the pattern
    and one more, and rangematch() one for each character of the bracket.  File sizes and block numbers are
    32-bit.

    ** Not modelled

    The assembler code (traps, context switch, console, SD card and CH375
    access), the saved registers of a process, the boot code, the user
    programs (cmds) other than the shell and fgrep, the width of the terminal, the host build of the file system
    (32xvfs), and the parts of the C library not named above. *)

From stdpp Require Export base list list_numbers numbers sets gmap strings.
From Stdlib Require Export ZArith Lia.

#[export] Set Default Goal Selector "!".

Declare Scope kern_scope.
Delimit Scope kern_scope with kern.
#[global] Open Scope Z_scope.
#[global] Open Scope kern_scope.

(** ** Outcomes and the kernel monad

    A kernel routine maps a state to an outcome.  [Ret] is a normal return.
    [Panic] is a call of [panic()], which prints its message and loops for
    ever (kern/cprintf.c).  [Fault] is an access through a NULL pointer.
    [Spin] is a loop that the fuel of the model did not see the end of. *)

Inductive outcome (S A : Type) : Type :=
| Ret (a : A) (s : S)
| Panic (msg : string)
| Fault (why : string)
| Spin.
Arguments Ret {S A} a s.
Arguments Panic {S A} msg.
Arguments Fault {S A} why.
Arguments Spin {S A}.

Definition M (S A : Type) : Type := S → outcome S A.

Definition ret {S A} (a : A) : M S A := λ s, Ret a s.
Definition bind {S A B} (m : M S A) (f : A → M S B) : M S B := λ s,
  match m s with
  | Ret a s' => f a s'
  | Panic msg => Panic msg
  | Fault why => Fault why
  | Spin => Spin
  end.
Definition panic {S A} (msg : string) : M S A := λ _, Panic msg.
Definition fault {S A} (why : string) : M S A := λ _, Fault why.
Definition spin {S A} : M S A := λ _, Spin.
Definition gets {S A} (f : S → A) : M S A := λ s, Ret (f s) s.
Definition modify {S} (f : S → S) : M S unit := λ s, Ret tt (f s).

Notation "'let*' x ':=' m 'in' k" := (bind m (fun x => k))
  (at level 10, x binder, m at level 100, k at level 200) : kern_scope.
Notation "m ';;' k" := (bind m (fun _ => k))
  (at level 100, k at level 200, right associativity) : kern_scope.

(** A routine of a component run inside a larger state: [get] projects the
    component's state out and [put] stores it back. *)
Definition lift {S T A} (get : T → S) (put : S → T → T) (m : M S A) : M T A := λ t,
  match m (get t) with
  | Ret a s => Ret a (put s t)
  | Panic msg => Panic msg
  | Fault why => Fault why
  | Spin => Spin
  end.

(** A C loop.  The body returns [inl a] to go round again with the loop
    variables [a], and [inr b] to leave the loop with the result [b]. *)
Fixpoint loop {S A B} (fuel : nat) (body : A → M S (A + B)) (a : A) : M S B :=
  match fuel with
  | O => spin
  | Datatypes.S fuel =>
      let* r := body a in
      match r with
      | inl a' => loop fuel body a'
      | inr b => ret b
      end
  end.

(** [for (i = i0; i < i0 + n; i++) body(i)] *)
Fixpoint for_n {S} (n : nat) (i : Z) (body : Z → M S unit) : M S unit :=
  match n with
  | O => ret tt
  | Datatypes.S n => body i ;; for_n n (i + 1) body
  end.

(** ** Total correctness

    [wp m s Q] says that [m] started in [s] returns, without a panic or a
    fault, with a result and a state that satisfy [Q]. *)
Definition wp {S A} (m : M S A) (s : S) (Q : A → S → Prop) : Prop :=
  match m s with Ret a s' => Q a s' | _ => False end.

Section wp_rules.
Context {S : Type}.
Implicit Types s : S.

Lemma wp_ret {A} (a : A) s (Q : A → S → Prop) : Q a s → wp (ret a) s Q.
Proof. done. Qed.

Lemma wp_gets {A} (f : S → A) s (Q : A → S → Prop) : Q (f s) s → wp (gets f) s Q.
Proof. done. Qed.

Lemma wp_modify (f : S → S) s (Q : unit → S → Prop) : Q tt (f s) → wp (modify f) s Q.
Proof. done. Qed.

Lemma wp_bind {A B} (m : M S A) (f : A → M S B) s (Q : B → S → Prop) :
  wp m s (λ a s', wp (f a) s' Q) → wp (bind m f) s Q.
Proof. unfold wp, bind. by destruct (m s). Qed.

Lemma wp_bind_inv {A B} (m : M S A) (f : A → M S B) s (Q : B → S → Prop) :
  wp (bind m f) s Q → wp m s (λ a s', wp (f a) s' Q).
Proof. unfold wp, bind. by destruct (m s). Qed.

Lemma wp_mono {A} (m : M S A) s (Q R : A → S → Prop) :
  wp m s Q → (∀ a s', Q a s' → R a s') → wp m s R.
Proof. unfold wp. destruct (m s); naive_solver. Qed.

Lemma wp_bind_mono {A B} (m : M S A) (f : A → M S B) s Q (R : B → S → Prop) :
  wp m s Q → (∀ a s', Q a s' → wp (f a) s' R) → wp (bind m f) s R.
Proof. intros Hm Hf. apply wp_bind. by eapply wp_mono. Qed.

Lemma wp_bind_assoc {A B C} (m : M S A) (f : A → M S B) (g : B → M S C) s (Q : C → S → Prop) :
  wp (bind (bind m f) g) s Q → wp (bind m (λ a, bind (f a) g)) s Q.
Proof. unfold wp, bind. by destruct (m s). Qed.

Lemma wp_bind_assoc3 {A B C D} (m1 : M S A) (m2 : A → M S B) (m3 : A → B → M S C) (g : C → M S D) s Q :
  wp (bind (bind m1 (λ a, bind (m2 a) (m3 a))) g) s Q →
  wp (bind m1 (λ a, bind (m2 a) (λ b, bind (m3 a b) g))) s Q.
Proof. unfold wp, bind. destruct (m1 s) as [a s1| | |]; [|done..]. by destruct (m2 a s1). Qed.

Lemma wp_outcome {A} (m : M S A) s (Q : A → S → Prop) :
  wp m s Q ↔ ∃ a s', m s = Ret a s' ∧ Q a s'.
Proof.
  unfold wp. split; [|by intros (?&?&->&?)].
  destruct (m s) eqn:E; naive_solver.
Qed.

Lemma wp_of_Ret {A} (m : M S A) s (Q : A → S → Prop) a s' :
  m s = Ret a s' → Q a s' → wp m s Q.
Proof. unfold wp. by intros ->. Qed.

Lemma wp_Ret {A} (m : M S A) s (Q : A → S → Prop) a s' : wp m s Q → m s = Ret a s' → Q a s'.
Proof. unfold wp. intros H E. by rewrite E in H. Qed.

Lemma wp_conj {A} (m : M S A) s (Q R : A → S → Prop) :
  wp m s Q → wp m s R → wp m s (λ a s', Q a s' ∧ R a s').
Proof. unfold wp. by destruct (m s). Qed.

(** [hoare P m Q]: partial correctness, for properties that every return keeps. *)
Definition hoare {A} (P : S → Prop) (m : M S A) (Q : A → S → Prop) : Prop :=
  ∀ s a s', P s → m s = Ret a s' → Q a s'.

Lemma hoare_bind {A B} P (m : M S A) R (f : A → M S B) Q :
  hoare P m R → (∀ a, hoare (R a) (f a) Q) → hoare P (bind m f) Q.
Proof.
  intros Hm Hf s b s' HP. unfold bind. destruct (m s) as [a s1| | |] eqn:E; [|done..]. by apply (Hf a), (Hm s).
Qed.

Lemma hoare_mono {A} (P P' : S → Prop) (m : M S A) (Q Q' : A → S → Prop) :
  hoare P' m Q' → (∀ s, P s → P' s) → (∀ a s, Q' a s → Q a s) → hoare P m Q.
Proof. intros Hm HP HQ s a s' H E. eauto. Qed.

(** The loop rule: [I n a s] is the invariant with at most [n] rounds to go. *)
Lemma wp_loop {A B} (body : A → M S (A + B)) (I : nat → A → S → Prop) (Q : B → S → Prop) :
  (∀ n a s, I n a s →
     wp (body a) s (λ r s',
       match r with
       | inl a' => ∃ m, (m < n)%nat ∧ I m a' s'
       | inr b => Q b s'
       end)) →
  ∀ fuel n a s, (n < fuel)%nat → I n a s → wp (loop fuel body a) s Q.
Proof.
  intros Hbody fuel. induction fuel as [|fuel IH]; intros n a s Hn HI; [lia|].
  simpl. eapply wp_bind_mono; [by apply Hbody|].
  intros [a'|b] s' Hr; [|done].
  destruct Hr as (m & Hm & HI'). apply (IH m); [lia|done].
Qed.

Lemma wp_for_n (body : Z → M S unit) (I : Z → S → Prop) :
  ∀ n i s, (∀ j s, i ≤ j < i + Z.of_nat n → I j s → wp (body j) s (λ _ s', I (j + 1) s')) →
  I i s → wp (for_n n i body) s (λ _ s', I (i + Z.of_nat n) s').
Proof.
  induction n as [|n IH]; intros i s Hbody HI; simpl.
  - apply wp_ret. by rewrite Z.add_0_r.
  - eapply wp_bind_mono; [apply Hbody; [lia|done]|]. intros [] s' HI'.
    replace (i + Z.of_nat (Datatypes.S n)) with (i + 1 + Z.of_nat n) by lia.
    apply IH; [|done]. intros. apply Hbody; [lia|done].
Qed.
End wp_rules.

Lemma wp_lift {S T A} (get : T → S) (put : S → T → T) (m : M S A) t (Q : A → T → Prop) :
  wp m (get t) (λ a s, Q a (put s t)) → wp (lift get put m) t Q.
Proof. unfold wp, lift. by destruct (m (get t)). Qed.

Lemma bind_Ret_inv {S A B} (m : M S A) (f : A → M S B) s b s' :
  bind m f s = Ret b s' → ∃ a s1, m s = Ret a s1 ∧ f a s1 = Ret b s'.
Proof. unfold bind. destruct (m s) as [a s1| | |]; [|done..]. by exists a, s1. Qed.

Lemma bind_Ret {S A B} (m : M S A) (f : A → M S B) s a s' : m s = Ret a s' → bind m f s = f a s'.
Proof. unfold bind. by intros ->. Qed.

Lemma modify_Ret {S} (f : S → S) s u s' : modify f s = Ret u s' → s' = f s.
Proof. by intros [= _ <-]. Qed.

Lemma bind_ret_l {S A B} (a : A) (f : A → M S B) s : bind (ret a) f s = f a s.
Proof. done. Qed.

Lemma bind_assoc {S A B C} (m : M S A) (f : A → M S B) (g : B → M S C) s :
  bind (bind m f) g s = bind m (λ a, bind (f a) g) s.
Proof. unfold bind. by destruct (m s). Qed.

(** The state that a run ends in. *)
Definition final {S A} (m : M S A) (s : S) : S := match m s with Ret _ s' => s' | _ => s end.
Definition returns {S A} (m : M S A) (s : S) : bool := match m s with Ret _ _ => true | _ => false end.

Lemma final_unit {S} (m : M S unit) s : returns m s = true → m s = Ret tt (final m s).
Proof. unfold returns, final. by destruct (m s) as [[] ?| | |]. Qed.

Lemma final_returns {S A} (m : M S A) s : returns m s = true → ∃ a, m s = Ret a (final m s).
Proof. unfold returns, final. destruct (m s) as [a ?| | |]; [|done..]. by exists a. Qed.

(** ** Machine integers of the target (m68k: 32-bit [int], 16-bit [short]) *)

Definition u8 (x : Z) : Z := x mod 256.
Definition u16 (x : Z) : Z := x mod 65536.
Definition u32 (x : Z) : Z := x mod 4294967296.
Definition s16 (x : Z) : Z := (x + 32768) mod 65536 - 32768.
Definition s32 (x : Z) : Z := (x + 2147483648) mod 4294967296 - 2147483648.

Lemma u8_range x : 0 ≤ u8 x < 256.
Proof. unfold u8. apply Z.mod_pos_bound. lia. Qed.
Lemma u16_range x : 0 ≤ u16 x < 65536.
Proof. unfold u16. apply Z.mod_pos_bound. lia. Qed.
Lemma u32_range x : 0 ≤ u32 x < 4294967296.
Proof. unfold u32. apply Z.mod_pos_bound. lia. Qed.
Lemma u8_small x : 0 ≤ x < 256 → u8 x = x.
Proof. apply Z.mod_small. Qed.
Lemma u16_small x : 0 ≤ x < 65536 → u16 x = x.
Proof. apply Z.mod_small. Qed.
Lemma u32_small x : 0 ≤ x < 4294967296 → u32 x = x.
Proof. apply Z.mod_small. Qed.
Lemma s16_small x : -32768 ≤ x < 32768 → s16 x = x.
Proof. intros. unfold s16. rewrite Z.mod_small; lia. Qed.
Lemma s32_small x : -2147483648 ≤ x < 2147483648 → s32 x = x.
Proof. intros. unfold s32. rewrite Z.mod_small; lia. Qed.

(** ** Function update, for arrays indexed by an unbounded integer *)

Definition upd {A} (f : Z → A) (k : Z) (v : A) : Z → A := λ i, if i =? k then v else f i.

Lemma upd_eq {A} (f : Z → A) k v : upd f k v k = v.
Proof. unfold upd. by rewrite Z.eqb_refl. Qed.
Lemma upd_ne {A} (f : Z → A) k v i : i ≠ k → upd f k v i = f i.
Proof. intros. unfold upd. by destruct (Z.eqb_spec i k). Qed.

(** ** References counted by object *)

Definition one (i : nat) : nat → Z := λ j, if decide (j = i) then 1 else 0.
Definition plus (h g : nat → Z) : nat → Z := λ i, h i + g i.
Definition minus (h g : nat → Z) : nat → Z := λ i, h i - g i.

Create HintDb kern discriminated.
Create Rewrite HintDb kern.
#[export] Hint Resolve u8_range u16_range u32_range wp_ret wp_gets wp_modify : kern.
#[export] Hint Rewrite @upd_eq : kern.
#[export] Hint Rewrite @upd_ne using (done || lia) : kern.

(** Step through the binds of a routine whose next call is a plain state access. *)
Ltac wp_step :=
  first
    [ apply wp_ret | apply wp_gets | apply wp_modify
    | apply wp_bind; wp_step ].
Ltac wp_steps := repeat (wp_step; cbn beta).

(** Membership in lists built with [::] and [++]. *)
Ltac list_in :=
  subst;
  repeat match goal with
    | H : _ ∈ _ ++ _ |- _ => apply elem_of_app in H
    | H : _ ∈ _ :: _ |- _ => apply elem_of_cons in H
    | H : _ ∈ [] |- _ => by apply not_elem_of_nil in H
    | H : _ ∨ _ |- _ => destruct H; subst
    | H : ¬ (_ ∈ _ ++ _) |- _ => apply not_elem_of_app in H as [? ?]
    | H : ¬ (_ ∈ _ :: _) |- _ => apply not_elem_of_cons in H as [? ?]
    | |- _ ∈ _ ++ _ => apply elem_of_app
    | |- _ ∈ _ :: _ => apply elem_of_cons
    | |- _ ∨ _ => (left; solve [list_in]) || right
    end;
  first [done | congruence].
