(* ===== verification/Bytes.v ===== *)
(** * Memory as the kernel sees it: byte arrays and big-endian fields

    A disk block, a buffer or a C string is a list of bytes, each a number in
    [0, 256).  The target is big-endian, so a field of a structure that the
    kernel overlays on a block (struct dinode, struct logheader, struct
    superblock, an indirect block) is read and written most significant byte
    first. *)

From S2P Require Import Prelude.

(** [byte d i] is [d[i]]. *)
Definition byte (d : list Z) (i : Z) : Z := nth (Z.to_nat i) d 0.

(** The [n] bytes at [d + off], and [memmove(d + off, bs, length bs)]. *)
Definition slice (d : list Z) (off n : Z) : list Z := take (Z.to_nat n) (drop (Z.to_nat off) d).
Definition splice (d : list Z) (off : Z) (bs : list Z) : list Z :=
  take (Z.to_nat off) d ++ bs ++ drop (Z.to_nat off + length bs) d.

Definition zlen {A} (l : list A) : Z := Z.of_nat (length l).

Lemma zlen_nonneg {A} (l : list A) : 0 ≤ zlen l.
Proof. unfold zlen. lia. Qed.

Lemma length_splice d off bs :
  0 ≤ off → off + zlen bs ≤ zlen d → length (splice d off bs) = length d.
Proof.
  unfold splice, zlen. intros. rewrite !length_app, length_take, length_drop. lia.
Qed.

Lemma zlen_splice d off bs :
  0 ≤ off → off + zlen bs ≤ zlen d → zlen (splice d off bs) = zlen d.
Proof. intros. unfold zlen at 1. by rewrite length_splice. Qed.

Lemma zlen_slice d off n :
  0 ≤ off → 0 ≤ n → off + n ≤ zlen d → zlen (slice d off n) = n.
Proof. unfold slice, zlen. intros. rewrite length_take, length_drop. lia. Qed.

Lemma nth_take_lt (l : list Z) n i : (i < n)%nat → nth i (take n l) 0 = nth i l 0.
Proof. rewrite !nth_lookup. intros. by rewrite lookup_take_lt. Qed.

Lemma nth_drop (l : list Z) n i : nth i (drop n l) 0 = nth (n + i) l 0.
Proof. rewrite !nth_lookup. by rewrite lookup_drop. Qed.

Lemma byte_slice d off n i :
  0 ≤ off → 0 ≤ i < n → byte (slice d off n) i = byte d (off + i).
Proof.
  unfold byte, slice. intros. rewrite nth_take_lt, nth_drop by lia. f_equal. lia.
Qed.

Lemma byte_splice_in d off bs i :
  0 ≤ off → off + zlen bs ≤ zlen d → off ≤ i < off + zlen bs →
  byte (splice d off bs) i = byte bs (i - off).
Proof.
  unfold byte, splice, zlen. intros.
  rewrite app_nth2; rewrite length_take; [|lia].
  rewrite app_nth1; [|lia]. f_equal. lia.
Qed.

Lemma byte_splice_out d off bs i :
  0 ≤ off → off + zlen bs ≤ zlen d → 0 ≤ i → ¬ (off ≤ i < off + zlen bs) →
  byte (splice d off bs) i = byte d i.
Proof.
  unfold byte, splice, zlen. intros.
  destruct (decide (i < off)).
  - rewrite app_nth1; [|rewrite length_take; lia]. apply nth_take_lt. lia.
  - rewrite app_nth2; rewrite length_take; [|lia].
    rewrite app_nth2; [|lia]. rewrite nth_drop. f_equal. lia.
Qed.

Lemma byte_app_l q r i : 0 ≤ i < zlen q → byte (q ++ r) i = byte q i.
Proof. unfold byte, zlen. intros. apply app_nth1. lia. Qed.
Lemma byte_app_r q r i : zlen q ≤ i → byte (q ++ r) i = byte r (i - zlen q).
Proof. unfold byte, zlen. intros. rewrite app_nth2 by lia. f_equal. lia. Qed.

Lemma zlen_app {A} (q r : list A) : zlen (q ++ r) = zlen q + zlen r.
Proof. unfold zlen. rewrite length_app. lia. Qed.

(** Two byte arrays of the same length with the same bytes are equal. *)
Lemma byte_ext d e :
  zlen d = zlen e → (∀ i, 0 ≤ i < zlen d → byte d i = byte e i) → d = e.
Proof.
  unfold zlen, byte. intros Hl Hb. apply (nth_ext _ _ 0 0); [lia|].
  intros n Hn. specialize (Hb (Z.of_nat n)). rewrite Nat2Z.id in Hb. apply Hb. lia.
Qed.

Lemma slice_splice_same d off bs n :
  0 ≤ off → off + zlen bs ≤ zlen d → n = zlen bs → slice (splice d off bs) off n = bs.
Proof.
  intros H1 H2 ->. pose proof (zlen_nonneg bs).
  apply byte_ext.
  - rewrite zlen_slice; rewrite ?zlen_splice; lia.
  - rewrite zlen_slice by (rewrite ?zlen_splice; lia). intros i Hi.
    rewrite byte_slice, byte_splice_in by lia. f_equal. lia.
Qed.

Lemma slice_splice_other d off bs off' n :
  0 ≤ off → off + zlen bs ≤ zlen d → 0 ≤ off' → 0 ≤ n → off' + n ≤ zlen d →
  off' + n ≤ off ∨ off + zlen bs ≤ off' →
  slice (splice d off bs) off' n = slice d off' n.
Proof.
  intros. apply byte_ext.
  - rewrite !zlen_slice; rewrite ?zlen_splice; lia.
  - rewrite zlen_slice by (rewrite ?zlen_splice; lia). intros i Hi.
    rewrite !byte_slice by lia. apply byte_splice_out; lia.
Qed.

Lemma slice_all d : slice d 0 (zlen d) = d.
Proof. unfold slice, zlen. rewrite Nat2Z.id. change (drop (Z.to_nat 0) d) with d. by apply take_ge. Qed.

(** ** Big-endian fields *)

Fixpoint be_enc (n : nat) (v : Z) : list Z :=
  match n with
  | O => []
  | S n => be_enc n (v / 256) ++ [v mod 256]
  end.

Definition be_dec (l : list Z) : Z := fold_left (λ a b, a * 256 + b) l 0.

Lemma length_be_enc n v : length (be_enc n v) = n.
Proof. revert v. induction n as [|n IH]; intros; simpl; [done|]. rewrite length_app, IH. simpl. lia. Qed.

Lemma zlen_be_enc n v : zlen (be_enc n v) = Z.of_nat n.
Proof. unfold zlen. by rewrite length_be_enc. Qed.

Lemma be_dec_app l b : be_dec (l ++ [b]) = be_dec l * 256 + b.
Proof. unfold be_dec. by rewrite fold_left_app. Qed.

Lemma be_dec_enc n v : be_dec (be_enc n v) = v mod 256 ^ Z.of_nat n.
Proof.
  revert v. induction n as [|n IH]; intros v.
  - simpl. by rewrite Z.mod_1_r.
  - cbn [be_enc]. rewrite be_dec_app, IH.
    rewrite Nat2Z.inj_succ, Z.pow_succ_r by lia.
    rewrite Z.rem_mul_r by lia. lia.
Qed.

Lemma be_enc_bytes n v : Forall (λ b, 0 ≤ b < 256) (be_enc n v).
Proof.
  revert v. induction n as [|n IH]; intros; simpl; [done|].
  apply Forall_app; split; [done|]. repeat constructor; apply Z.mod_pos_bound; lia.
Qed.

(** Loads and stores of an [n]-byte field at byte offset [off]. *)
Definition ldn (n : nat) (d : list Z) (off : Z) : Z := be_dec (slice d off (Z.of_nat n)).
Definition stn (n : nat) (d : list Z) (off v : Z) : list Z := splice d off (be_enc n v).

Definition ld16 := ldn 2.
Definition ld32 := ldn 4.
Definition st16 := stn 2.
Definition st32 := stn 4.

Lemma zlen_stn n d off v : 0 ≤ off → off + Z.of_nat n ≤ zlen d → zlen (stn n d off v) = zlen d.
Proof. intros. unfold stn. apply zlen_splice; rewrite ?zlen_be_enc; lia. Qed.

Lemma ldn_stn_same n d off v :
  0 ≤ off → off + Z.of_nat n ≤ zlen d → ldn n (stn n d off v) off = v mod 256 ^ Z.of_nat n.
Proof.
  intros. unfold ldn, stn.
  rewrite slice_splice_same by (rewrite ?zlen_be_enc; lia). apply be_dec_enc.
Qed.

Lemma ldn_stn_other n m d off off' v :
  0 ≤ off → off + Z.of_nat n ≤ zlen d → 0 ≤ off' → off' + Z.of_nat m ≤ zlen d →
  off' + Z.of_nat m ≤ off ∨ off + Z.of_nat n ≤ off' →
  ldn m (stn n d off v) off' = ldn m d off'.
Proof.
  intros. unfold ldn, stn. by rewrite slice_splice_other by (rewrite ?zlen_be_enc; lia).
Qed.

Lemma zlen_st16 d off v : 0 ≤ off → off + 2 ≤ zlen d → zlen (st16 d off v) = zlen d.
Proof. apply (zlen_stn 2). Qed.
Lemma zlen_st32 d off v : 0 ≤ off → off + 4 ≤ zlen d → zlen (st32 d off v) = zlen d.
Proof. apply (zlen_stn 4). Qed.

Lemma ld32_st32 d off v : 0 ≤ off → off + 4 ≤ zlen d → ld32 (st32 d off v) off = u32 v.
Proof. intros. by apply (ldn_stn_same 4). Qed.
Lemma ld16_st16 d off v : 0 ≤ off → off + 2 ≤ zlen d → ld16 (st16 d off v) off = u16 v.
Proof. intros. by apply (ldn_stn_same 2). Qed.
Lemma ld32_st32_other d off off' v :
  0 ≤ off → off + 4 ≤ zlen d → 0 ≤ off' → off' + 4 ≤ zlen d →
  off' + 4 ≤ off ∨ off + 4 ≤ off' → ld32 (st32 d off v) off' = ld32 d off'.
Proof. apply (ldn_stn_other 4 4). Qed.

Lemma be_dec_bound l : Forall (λ b, 0 ≤ b < 256) l → 0 ≤ be_dec l < 256 ^ zlen l.
Proof.
  induction l as [|b l IH] using rev_ind; intros H; [done|].
  apply Forall_app in H as [Hl Hb]. inversion_clear Hb.
  specialize (IH Hl). rewrite be_dec_app. unfold zlen in *.
  rewrite length_app, Nat2Z.inj_add, Z.pow_add_r by lia. simpl.
  change (256 ^ 1) with 256. nia.
Qed.

(** Zero-filled memory, [memset(d, 0, n)]. *)
Definition zeros (n : Z) : list Z := replicate (Z.to_nat n) 0.

Lemma zlen_zeros n : 0 ≤ n → zlen (zeros n) = n.
Proof. intros. unfold zlen, zeros. rewrite length_replicate. lia. Qed.

Lemma byte_zeros n i : byte (zeros n) i = 0.
Proof.
  unfold byte, zeros. rewrite nth_lookup.
  destruct (replicate _ _ !! _) eqn:E; [|done]. by apply lookup_replicate in E as [-> _].
Qed.

(** A byte as a [char], which is signed on the target. *)
Definition schar (c : Z) : Z := if c <? 128 then c else c - 256.

Lemma schar_byte u : 0 ≤ u < 256 → u8 (schar u) = u.
Proof. intros Hu. unfold u8, schar. destruct (Z.ltb_spec u 128); [apply Z.mod_small; lia|]. symmetry. apply (Z.mod_unique_pos _ _ (-1)); lia. Qed.

Lemma schar_eq u k : 0 ≤ u < 256 → 0 ≤ k < 128 → schar u = k → u = k.
Proof. unfold schar. intros. destruct (Z.ltb_spec u 128); lia. Qed.

#[export] Hint Rewrite zlen_be_enc : kern.
#[export] Hint Resolve zlen_nonneg : kern.
