(* ===== verification/Params.v ===== *)
(** * Compile-time parameters (include/xv6/param.h, fs.h, buf.h, stat.h, fcntl.h, errno.h) *)

From S2P Require Import Prelude.

(** include/xv6/param.h *)
Definition NOFILE : nat := 16.
Definition NFILE : nat := 100.
Definition NPROC : nat := 64.
Definition NINODE : nat := 50.
Definition NPIPE : nat := 50.
Definition PIPESIZE : Z := 512.
Definition MAXOPBLOCKS : Z := 10.
Definition LOGSIZE : Z := 100.
Definition NBUF : nat := 400.
Definition FSSIZE : Z := 9000.
Definition MAXARGS : Z := 100.

(** include/xv6/fs.h *)
Definition ROOTINO : Z := 1.
Definition BSIZE : Z := 512.
Definition NDIRECT : Z := 11.
Definition NINDIRECT : Z := BSIZE / 4.
Definition MAXFILE : Z := NDIRECT + NINDIRECT * NINDIRECT.
Definition DINODESZ : Z := 64.
Definition IPB : Z := BSIZE / DINODESZ.
Definition BPB : Z := BSIZE * 8.
Definition DIRSIZ : Z := 14.
Definition DIRENTSZ : Z := 16.

(** include/xv6/buf.h *)
Definition B_VALID : Z := 2.
Definition B_DIRTY : Z := 4.

(** include/xv6/stat.h *)
Definition T_DIR : Z := 1.
Definition T_FILE : Z := 2.
Definition T_DEV : Z := 3.
Definition T_PIPE : Z := 4.

(** include/xv6/fcntl.h *)
Definition O_RDONLY : Z := 0.
Definition O_WRONLY : Z := 1.
Definition O_RDWR : Z := 2.
Definition O_CREATE : Z := 512.
Definition O_APPEND : Z := 8.
Definition O_TRUNC : Z := 1024.

(** include/errno.h *)
Definition EPERM : Z := 1.
Definition ENOENT : Z := 2.
Definition EBADF : Z := 9.
Definition ENOMEM : Z := 12.
Definition EACCES : Z := 13.
Definition EFAULT : Z := 14.
Definition EEXIST : Z := 17.
Definition ENOTDIR : Z := 20.
Definition EISDIR : Z := 21.
Definition EINVAL : Z := 22.
Definition ENFILE : Z := 23.
Definition EMFILE : Z := 24.
Definition ENOTTY : Z := 25.
Definition EPIPE : Z := 32.
Definition EAGAIN : Z := 35.
