(* ===== verification/Kstring.v ===== *)
(** * Kernel string routines (kern/string.c)

    A [char *] argument is the list of bytes it points at; a byte past the end
    of the list reads as NUL, so a list without a zero byte is a string of that
    length. *)

From S2P Require Import Prelude Bytes.

Fixpoint memcmp (s1 s2 : list Z) (n : nat) (i : Z) : Z :=
  match n with
  | O => 0
  | S n =>
      if negb (byte s1 i =? byte s2 i) then byte s1 i - byte s2 i
      else memcmp s1 s2 n (i + 1)
  end.

(** [strncmp_from p q n i]: [n] characters left to compare, from index [i]. *)
Fixpoint strncmp_from (p q : list Z) (n : nat) (i : Z) : Z :=
  match n with
  | O => 0
  | S n =>
      if negb (byte p i =? 0) && (byte p i =? byte q i)
      then strncmp_from p q n (i + 1)
      else byte p i - byte q i
  end.
Definition strncmp (p q : list Z) (n : Z) : Z := strncmp_from p q (Z.to_nat n) 0.

(** The second loop of strncpy(), which clears the rest of the field. *)
Fixpoint zero_from (s : list Z) (n : nat) (i : Z) : list Z :=
  match n with
  | O => s
  | S n => zero_from (splice s i [0]) n (i + 1)
  end.
Fixpoint strncpy_from (s t : list Z) (n : nat) (i : Z) : list Z :=
  match n with
  | O => s
  | S n =>
      let s := splice s i [byte t i] in
      if byte t i =? 0 then zero_from s n (i + 1) else strncpy_from s t n (i + 1)
  end.
Definition strncpy (s t : list Z) (n : Z) : list Z := strncpy_from s t (Z.to_nat n) 0.

(** safestrcpy(): at most [n - 1] characters, then a NUL. *)
Fixpoint safestrcpy_from (s t : list Z) (n : nat) (i : Z) : list Z :=
  match n with
  | O => splice s i [0]
  | S n =>
      let s := splice s i [byte t i] in
      if byte t i =? 0 then splice s (i + 1) [0] else safestrcpy_from s t n (i + 1)
  end.
Definition safestrcpy (s t : list Z) (n : Z) : list Z :=
  if n <=? 0 then s else safestrcpy_from s t (Z.to_nat (n - 1)) 0.

Fixpoint strlen (s : list Z) : Z :=
  match s with
  | [] => 0
  | c :: s => if c =? 0 then 0 else 1 + strlen s
  end.
