(* ===== verification/Store.v ===== *)
(** * What kern/bio.c and kern/log.c promise to kern/fs.c

    kern/fs.c sees the disk through [bread], [brelse], [log_write] and the
    data of the buffers it holds.  [BlockOps] names those calls, [BlockStore]
    states what they do to an abstract disk; kern/fs.c is modelled over
    [BlockOps] and its theorems are proved from [BlockStore].  The buffer cache
    with the log on top is an instance (LogProps.v). *)

From S2P Require Import Prelude Bytes Params.

Definition block_ok (d : list Z) : Prop := zlen d = BSIZE ∧ Forall (λ b, 0 ≤ b < 256) d.

Lemma block_ok_zeros : block_ok (zeros BSIZE).
Proof.
  split; [by apply zlen_zeros|]. apply Forall_replicate. lia.
Qed.

(** A block of equal bytes. *)
Definition fill_block (v : Z) : list Z := replicate (Z.to_nat BSIZE) v.

Lemma block_ok_fill v : 0 ≤ v < 256 → block_ok (fill_block v).
Proof. intros. split; [reflexivity|by apply Forall_replicate]. Qed.

Lemma block_ok_splice d off bs :
  block_ok d → Forall (λ b, 0 ≤ b < 256) bs → 0 ≤ off → off + zlen bs ≤ BSIZE →
  block_ok (splice d off bs).
Proof.
  intros [Hl Hb] Hbs Ho Hoff. split; [rewrite zlen_splice; lia|].
  unfold splice. apply Forall_app; split; [by apply Forall_take|].
  apply Forall_app; split; [done|by apply Forall_drop].
Qed.

Lemma block_ok_stn n d off v :
  block_ok d → 0 ≤ off → off + Z.of_nat n ≤ BSIZE → block_ok (stn n d off v).
Proof.
  intros. apply block_ok_splice; [done|apply be_enc_bytes|done|]. by rewrite zlen_be_enc.
Qed.

Class BlockOps (S : Type) := {
  op_bread : Z → M S nat;
  op_brelse : nat → M S unit;
  op_data : S → nat → list Z;
  op_set_data : nat → list Z → M S unit;
  op_log_write : nat → M S unit;
  op_begin_op : M S unit;
  op_end_op : M S unit;
  op_bflush : M S unit;
}.

(** ** The abstract state *)

Class BlockView (S : Type) := {
  ok : S → Prop;                  (** the invariant of the store *)
  disk : S → Z → list Z;          (** the content of each block *)
  href : S → Z → Z;               (** references held to a block *)
  htot : S → Z;                   (** references held in all *)
  hold : S → nat → Z → Prop;      (** a pointer that holds a block *)
  up : S → Z → bool;              (** blocks the device can transfer *)
  logged : S → gset Z;            (** blocks of the running transaction *)
  cap : S → Z;                    (** how many blocks a transaction may log *)
  in_op : S → Z;                  (** system calls inside begin_op/end_op *)
  logarea : S → Z → Prop;         (** the blocks the log itself occupies *)
}.

Section relations.
Context {S : Type} `{BlockView S}.

(** The parts that no call of kern/fs.c changes by itself. *)
Record same_log (s s' : S) : Prop := {
  sl_up : ∀ b, up s' b = up s b;
  sl_logged : logged s' = logged s;
  sl_cap : cap s' = cap s;
  sl_in_op : in_op s' = in_op s;
  sl_logarea : ∀ b, logarea s' b ↔ logarea s b;
}.

(** One more, and one fewer, reference to block [b]. *)
Record got (s s' : S) (b : Z) : Prop := {
  got_log : same_log s s';
  got_disk : ∀ x, disk s' x = disk s x;
  got_href : ∀ x, href s' x = href s x + (if x =? b then 1 else 0);
  got_htot : htot s' = htot s + 1;
  got_hold : ∀ k x, hold s k x → hold s' k x;
}.

Record dropped (s s' : S) (b : Z) : Prop := {
  dr_log : same_log s s';
  dr_disk : ∀ x, disk s' x = disk s x;
  dr_href : ∀ x, href s' x = href s x - (if x =? b then 1 else 0);
  dr_htot : htot s' = htot s - 1;
  dr_hold : ∀ k x, hold s k x → 0 < href s' x → hold s' k x;
}.

(** Block [b] changed to [d] inside the transaction. *)
Record stored (s s' : S) (b : Z) (d : list Z) : Prop := {
  st_up : ∀ x, up s' x = up s x;
  st_logged : logged s' = {[b]} ∪ logged s;
  st_cap : cap s' = cap s;
  st_in_op : in_op s' = in_op s;
  st_logarea : ∀ x, logarea s' x ↔ logarea s x;
  st_disk : ∀ x, disk s' x = if x =? b then d else disk s x;
  st_href : ∀ x, href s' x = href s x;
  st_htot : htot s' = htot s;
  st_hold : ∀ k x, hold s k x → hold s' k x;
}.

(** A routine that gives back every buffer it takes. *)
Record balanced (s s' : S) : Prop := {
  ba_ok : ok s';
  ba_up : ∀ b, up s' b = up s b;
  ba_cap : cap s' = cap s;
  ba_in_op : in_op s' = in_op s;
  ba_logarea : ∀ b, logarea s' b ↔ logarea s b;
  ba_href : ∀ x, href s' x = href s x;
  ba_htot : htot s' = htot s;
  ba_hold : ∀ k x, hold s k x → hold s' k x;
}.
End relations.

Class BlockStore (S : Type) `{BlockOps S, BlockView S} := {
  law_disk_ok : ∀ s b, ok s → block_ok (disk s b);
  law_href : ∀ s k b, ok s → hold s k b → 0 < href s b;
  law_data : ∀ s k b, ok s → hold s k b → op_data s k = disk s b;
  law_bread : ∀ s b,
    ok s → up s b = true → htot s < Z.of_nat NBUF →
    wp (op_bread b) s (λ k s', ok s' ∧ hold s' k b ∧ got s s' b);
  law_brelse : ∀ s k b,
    ok s → hold s k b → wp (op_brelse k) s (λ _ s', ok s' ∧ dropped s s' b);
  law_write : ∀ s k b d,
    ok s → hold s k b → block_ok d → 1 ≤ in_op s → Z.of_nat (size (logged s)) < cap s →
    wp (op_set_data k d ;; op_log_write k) s (λ _ s', ok s' ∧ stored s s' b d);
  law_begin : ∀ s,
    ok s → Z.of_nat (size (logged s)) + (in_op s + 1) * MAXOPBLOCKS ≤ LOGSIZE →
    wp op_begin_op s (λ _ s', ok s' ∧ in_op s' = in_op s + 1 ∧ logged s' = logged s ∧
      (∀ b, disk s' b = disk s b) ∧ (∀ b, href s' b = href s b) ∧ htot s' = htot s ∧
      (∀ k b, hold s k b → hold s' k b) ∧ (∀ b, up s' b = up s b) ∧ cap s' = cap s ∧
      (∀ b, logarea s' b ↔ logarea s b));
  law_end : ∀ s,
    ok s → 1 ≤ in_op s → htot s + 2 ≤ Z.of_nat NBUF → (∀ b, b ∈ logged s → ¬ logarea s b) →
    (∀ b, logarea s b → up s b = true) →
    wp op_end_op s (λ _ s', ok s' ∧ in_op s' = in_op s - 1 ∧
      logged s' = (if in_op s =? 1 then ∅ else logged s) ∧
      (∀ b, ¬ logarea s b → disk s' b = disk s b) ∧ (∀ b, href s' b = href s b) ∧ htot s' = htot s ∧
      (∀ k b, hold s k b → hold s' k b) ∧ (∀ b, up s' b = up s b) ∧ cap s' = cap s ∧
      (∀ b, logarea s' b ↔ logarea s b));
}.

Section derived.
Context {S : Type} `{BlockStore S}.

#[export] Instance balanced_trans : Transitive (@balanced S _).
Proof.
  intros s1 s2 s3 [] [O U C N L R T K]. split; intros; try done.
  - by rewrite U.
  - by rewrite C.
  - by rewrite N.
  - by rewrite L.
  - by rewrite R.
  - by rewrite T.
  - auto.
Qed.

Lemma balanced_refl s : ok s → balanced s s.
Proof. by split. Qed.

(** Taking a buffer and giving it back is balanced. *)
Lemma got_dropped_balanced s s1 s2 b :
  ok s → ok s2 → got s s1 b → dropped s1 s2 b →
  balanced s s2 ∧ (∀ x, disk s2 x = disk s x) ∧ logged s2 = logged s.
Proof.
  intros Hok Hok2 [[U1 G1 C1 N1 L1] D1 R1 T1 K1] [[U2 G2 C2 N2 L2] D2 R2 T2 K2].
  split_and!; [split|..]; intros; try done.
  - by rewrite U2.
  - by rewrite C2.
  - by rewrite N2.
  - by rewrite L2.
  - rewrite R2, R1. lia.
  - rewrite T2, T1. lia.
  - apply K2; [by apply K1|]. rewrite R2, R1.
    pose proof (law_href s k x Hok ltac:(done)). lia.
  - by rewrite D2.
  - by rewrite G2.
Qed.

(** Taking a buffer, changing it inside the transaction and giving it back. *)
Lemma got_stored_dropped s s1 s2 s3 b d :
  ok s → ok s3 → got s s1 b → stored s1 s2 b d → dropped s2 s3 b →
  balanced s s3 ∧ (∀ x, disk s3 x = if x =? b then d else disk s x) ∧
  logged s3 = {[b]} ∪ logged s.
Proof.
  intros Hok Hok3 [[U1 G1 C1 N1 L1] D1 R1 T1 K1] [U2 G2 C2 N2 L2 D2 R2 T2 K2]
    [[U3 G3 C3 N3 L3] D3 R3 T3 K3].
  split_and!; [split|..]; intros; try done.
  - by rewrite U3, U2.
  - by rewrite C3, C2.
  - by rewrite N3, N2.
  - by rewrite L3, L2.
  - rewrite R3, R2, R1. lia.
  - rewrite T3, T2, T1. lia.
  - apply K3; [by apply K2, K1|]. rewrite R3, R2, R1.
    pose proof (law_href s k x Hok ltac:(done)). lia.
  - by rewrite D3, D2, D1.
  - by rewrite G3, G2, G1.
Qed.
End derived.
