(* ===== verification/KstringSpec.v ===== *)
(** * Kernel strings: what kern/string.c computes, and directory names *)

From S2P Require Import Prelude Bytes Params Store Kstring.

(** The characters of a C string, without its NUL. *)
Fixpoint cstr (s : list Z) : list Z :=
  match s with
  | [] => []
  | c :: s => if c =? 0 then [] else c :: cstr s
  end.

Lemma strlen_cstr s : strlen s = zlen (cstr s).
Proof.
  induction s as [|c s IH]; simpl; [done|]. destruct (c =? 0); [done|]. rewrite IH.
  unfold zlen. simpl. lia.
Qed.

Lemma cstr_zero s c : c ∈ cstr s → c ≠ 0.
Proof.
  induction s as [|x s IH]; simpl; [by intros ?%not_elem_of_nil|].
  destruct (Z.eqb_spec x 0); [by intros ?%not_elem_of_nil|]. intros [->|]%elem_of_cons; auto.
Qed.

Lemma cstr_app_zero u v : (∀ c, c ∈ u → c ≠ 0) → cstr (u ++ 0 :: v) = u.
Proof.
  induction u as [|c u IH]; intros H; simpl; [done|].
  destruct (Z.eqb_spec c 0) as [->|]; [by destruct (H 0); [list_in|]|].
  rewrite IH; [done|]. intros. apply H. list_in.
Qed.

Lemma cstr_nozero u : (∀ c, c ∈ u → c ≠ 0) → cstr u = u.
Proof.
  induction u as [|c u IH]; intros H; simpl; [done|].
  destruct (Z.eqb_spec c 0) as [->|]; [by destruct (H 0); [list_in|]|].
  rewrite IH; [done|]. intros. apply H. list_in.
Qed.

(** [s[i]] and the string at [s + i]. *)
Lemma cstr_drop s (i : nat) :
  (byte s (Z.of_nat i) = 0 ∧ cstr (drop i s) = []) ∨
  (byte s (Z.of_nat i) ≠ 0 ∧ (i < length s)%nat ∧
   cstr (drop i s) = byte s (Z.of_nat i) :: cstr (drop (S i) s)).
Proof.
  unfold byte. rewrite Nat2Z.id. rewrite nth_lookup.
  destruct (s !! i) as [c|] eqn:E; simpl.
  - rewrite (drop_S _ _ _ E). simpl. destruct (Z.eqb_spec c 0); [by left|right].
    split_and!; try done. by eapply lookup_lt_Some.
  - left. split; [done|]. apply lookup_ge_None in E. by rewrite drop_ge.
Qed.

Lemma strncmp_from_zero p q n i :
  strncmp_from p q n (Z.of_nat i) = 0 ↔ take n (cstr (drop i p)) = take n (cstr (drop i q)).
Proof.
  revert i. induction n as [|n IH]; intros i; cbn [strncmp_from]; [by rewrite !take_0|].
  replace (Z.of_nat i + 1) with (Z.of_nat (S i)) by lia.
  destruct (cstr_drop p i) as [[Ep ->]|(Ep & _ & ->)], (cstr_drop q i) as [[Eq ->]|(Eq & _ & ->)];
    rewrite ?Ep, ?Eq, ?take_nil, ?firstn_cons; cbn [Z.eqb negb andb].
  - by rewrite Z.sub_diag.
  - split; [lia|done].
  - rewrite (proj2 (Z.eqb_neq _ _) Ep). simpl. split; [lia|done].
  - rewrite (proj2 (Z.eqb_neq (byte p (Z.of_nat i)) 0) Ep). cbn [negb andb].
    destruct (Z.eqb_spec (byte p (Z.of_nat i)) (byte q (Z.of_nat i))) as [E|E].
    + rewrite IH, E. split; [by intros ->|by intros [=]].
    + split; [lia|by intros [=]].
Qed.

Lemma zlen_one (b : Z) : zlen [b] = 1.
Proof. done. Qed.

(** Storing one byte. *)
Lemma splice_one s (i : nat) b : (i < length s)%nat → splice s (Z.of_nat i) [b] = <[i := b]> s.
Proof.
  intros H. unfold splice. rewrite Nat2Z.id. simpl.
  rewrite insert_take_drop by done. by rewrite Nat.add_1_r.
Qed.

Lemma take_drop_insert {A} (s : list A) i b l :
  (i < length s)%nat → take i s ++ b :: l = take (S i) (<[i := b]> s) ++ l.
Proof.
  intros H. rewrite (take_S_r _ _ b) by by apply list_lookup_insert_eq.
  rewrite take_insert_ge by done. by rewrite <- app_assoc.
Qed.

Lemma zero_from_ok s n i :
  (i + n ≤ length s)%nat →
  zero_from s n (Z.of_nat i) = take i s ++ replicate n 0 ++ drop (i + n) s.
Proof.
  revert s i. induction n as [|n IH]; intros s i H; cbn [zero_from].
  - cbn [replicate app]. by rewrite Nat.add_0_r, take_drop.
  - replace (Z.of_nat i + 1) with (Z.of_nat (S i)) by lia. rewrite splice_one by lia.
    rewrite IH by (rewrite length_insert; lia).
    rewrite drop_insert_lt by lia. cbn [replicate app]. rewrite take_drop_insert by lia.
    by rewrite Nat.add_succ_r.
Qed.

(** The field that strncpy() leaves: the string, cut to [n], padded with NULs. *)
Definition field (n : nat) (u : list Z) : list Z := take n u ++ replicate (n - length u) 0.

Lemma strncpy_from_ok s t n i :
  (i + n ≤ length s)%nat →
  strncpy_from s t n (Z.of_nat i) = take i s ++ field n (cstr (drop i t)) ++ drop (i + n) s.
Proof.
  revert s i. induction n as [|n IH]; intros s i H; cbn [strncpy_from].
  - unfold field. rewrite take_0. simpl. by rewrite Nat.add_0_r, take_drop.
  - replace (Z.of_nat i + 1) with (Z.of_nat (S i)) by lia. rewrite splice_one by lia. unfold field.
    destruct (cstr_drop t i) as [[E ->]|(E & _ & ->)].
    + rewrite E. cbn [Z.eqb]. rewrite zero_from_ok by (rewrite length_insert; lia).
      rewrite drop_insert_lt by lia. cbn [take app length Nat.sub replicate].
      rewrite take_drop_insert by lia. by rewrite Nat.add_succ_r.
    + rewrite (proj2 (Z.eqb_neq _ _) E). rewrite IH by (rewrite length_insert; lia).
      unfold field. rewrite drop_insert_lt by lia. cbn [take app length Nat.sub].
      rewrite take_drop_insert by lia. by rewrite Nat.add_succ_r.
Qed.

Lemma strncpy_ok s t n :
  0 ≤ n ≤ zlen s → strncpy s t n = field (Z.to_nat n) (cstr t) ++ drop (Z.to_nat n) s.
Proof. intros H. unfold zlen in H. apply (strncpy_from_ok s t (Z.to_nat n) 0). lia. Qed.

Lemma safestrcpy_from_ok s t n i :
  (i + n < length s)%nat →
  ∃ u v, safestrcpy_from s t n (Z.of_nat i) = take i s ++ u ++ 0 :: v ∧
    u = take n (cstr (drop i t)) ∧ length (u ++ 0 :: v) = (length s - i)%nat ∧
    drop (i + n + 1) (safestrcpy_from s t n (Z.of_nat i)) = drop (i + n + 1) s.
Proof.
  revert s i. induction n as [|n IH]; intros s i H; cbn [safestrcpy_from].
  - rewrite splice_one by lia. exists [], (drop (S i) s). split_and!.
    + simpl. rewrite insert_take_drop by lia. done.
    + by rewrite take_0.
    + simpl. rewrite length_drop. lia.
    + rewrite drop_insert_lt by lia. done.
  - replace (Z.of_nat i + 1) with (Z.of_nat (S i)) by lia. rewrite (splice_one s i) by lia.
    destruct (cstr_drop t i) as [[E ->]|(E & _ & ->)].
    + rewrite E. cbn [Z.eqb]. rewrite splice_one by (rewrite length_insert; lia).
      exists [], (0 :: drop (S (S i)) s). split_and!.
      * cbn [app]. rewrite take_drop_insert by lia.
        rewrite insert_take_drop by (rewrite length_insert; lia).
        by rewrite drop_insert_lt by lia.
      * done.
      * simpl. rewrite length_drop. lia.
      * by rewrite !drop_insert_lt by lia.
    + rewrite (proj2 (Z.eqb_neq _ _) E).
      destruct (IH (<[i := byte t (Z.of_nat i)]> s) (S i)) as (u & v & E1 & E2 & E3 & E4).
      { rewrite length_insert. lia. }
      exists (byte t (Z.of_nat i) :: u), v. split_and!.
      * rewrite E1. cbn [app]. by rewrite take_drop_insert by lia.
      * by rewrite E2.
      * rewrite length_insert in E3. simpl. rewrite E3. lia.
      * replace (i + S n + 1)%nat with (S i + n + 1)%nat by lia. rewrite E4.
        by rewrite drop_insert_lt by lia.
Qed.

(** strncmp() returns 0 exactly when the two strings agree on their first
    [n] characters, or both end before that. *)
Theorem strncmp_equal p q n :
  0 ≤ n → strncmp p q n = 0 ↔ take (Z.to_nat n) (cstr p) = take (Z.to_nat n) (cstr q).
Proof. intros _. apply (strncmp_from_zero p q (Z.to_nat n) 0). Qed.

(** strncpy() fills exactly [n] bytes of the destination: the string, cut
    to [n] characters, and NULs up to [n]; there is no NUL when the string has
    [n] characters or more. *)
Theorem strncpy_pads s t n :
  0 ≤ n ≤ zlen s →
  strncpy s t n =
    take (Z.to_nat n) (cstr t) ++ replicate (Z.to_nat n - length (cstr t)) 0 ++ drop (Z.to_nat n) s.
Proof. intros H. rewrite strncpy_ok by done. unfold field. by rewrite <- app_assoc. Qed.

(** safestrcpy() leaves a NUL-terminated string of at most [n - 1]
    characters, the first ones of the source, and touches no byte from
    offset [n] on. *)
Theorem safestrcpy_terminates s t n :
  1 ≤ n ≤ zlen s →
  cstr (safestrcpy s t n) = take (Z.to_nat (n - 1)) (cstr t) ∧
  zlen (safestrcpy s t n) = zlen s ∧
  drop (Z.to_nat n) (safestrcpy s t n) = drop (Z.to_nat n) s.
Proof.
  intros H. unfold zlen in H. unfold safestrcpy. destruct (Z.leb_spec n 0); [lia|].
  destruct (safestrcpy_from_ok s t (Z.to_nat (n - 1)) 0) as (u & v & E1 & E2 & E3 & E4); [lia|].
  change (Z.of_nat 0) with 0 in *. replace (0 + Z.to_nat (n - 1) + 1)%nat with (Z.to_nat n) in E4 by lia.
  rewrite drop_0 in E2. split_and!; [..|done].
  - rewrite E1, take_0, app_nil_l. rewrite cstr_app_zero; [done|].
    intros c Hc. apply (cstr_zero t). rewrite E2 in Hc. by eapply elem_of_take in Hc as (i & Hc & _);
      eapply list_elem_of_lookup_2.
  - rewrite E1, take_0, app_nil_l. unfold zlen. rewrite E3. lia.
Qed.
