(* ===== verification/Ondisk.v ===== *)
(** * On-disk structures (include/xv6/fs.h)

    The kernel overlays these structures on the bytes of a block; the
    definitions below are the loads and stores that the overlay amounts to on
    the big-endian target. *)

From S2P Require Import Prelude Bytes Params Store.

(** struct superblock (include/xv6/fs.h) *)
Record superblock := mkSb {
  sb_size : Z;
  sb_nblocks : Z;
  sb_ninodes : Z;
  sb_nlog : Z;
  sb_logstart : Z;
  sb_inodestart : Z;
  sb_bmapstart : Z;
}.

(** The structure that a copy of the first bytes of a block yields. *)
Definition sb_of_block (d : list Z) : superblock :=
  mkSb (ld32 d 0) (ld32 d 4) (ld32 d 8) (ld32 d 12) (ld32 d 16) (ld32 d 20) (ld32 d 24).

(** In-memory inode: struct inode of include/xv6/file.h, whose last seven
    fields are a copy of the on-disk struct dinode. *)
Record inode := mkInode {
  i_dev : Z;
  i_inum : Z;
  i_ref : Z;
  i_valid : Z;
  i_type : Z;
  i_major : Z;
  i_minor : Z;
  i_nlink : Z;
  i_size : Z;
  i_mtime : Z;
  i_addrs : list Z;
}.

#[export] Instance inode_inhabited : Inhabited inode :=
  populate (mkInode 0 0 0 0 0 0 0 0 0 0 (replicate 12 0)).

(** The number of entries of [addrs]: NDIRECT + 1. *)
Definition NADDR : nat := 12.

(** The loads of [dip->addrs[i]], and [memmove(dip->addrs, ip->addrs, ...)]. *)
Definition ld_addrs (d : list Z) (off : Z) : list Z :=
  map (λ i, ld32 d (off + 4 * Z.of_nat i)) (seq 0 NADDR).
Definition enc_addrs (addrs : list Z) : list Z := mjoin (map (be_enc 4) addrs).

(** The field-by-field copy of ilock(): the dinode at byte [off] of [d]. *)
Definition get_dinode (d : list Z) (off : Z) (ip : inode) : inode :=
  mkInode (i_dev ip) (i_inum ip) (i_ref ip) (i_valid ip)
    (s16 (ld16 d off)) (s16 (ld16 d (off + 2))) (s16 (ld16 d (off + 4))) (s16 (ld16 d (off + 6)))
    (ld32 d (off + 8)) (s32 (ld32 d (off + 12))) (ld_addrs d (off + 16)).

(** The field-by-field copy of iupdate(). *)
Definition put_dinode (d : list Z) (off : Z) (ip : inode) : list Z :=
  let d := st16 d off (i_type ip) in
  let d := st16 d (off + 2) (i_major ip) in
  let d := st16 d (off + 4) (i_minor ip) in
  let d := st16 d (off + 6) (i_nlink ip) in
  let d := st32 d (off + 12) (i_mtime ip) in
  let d := st32 d (off + 8) (i_size ip) in
  splice d (off + 16) (enc_addrs (i_addrs ip)).

(** struct xvdirent: [ushort inum; char name[DIRSIZ]]. *)
Definition de_inum (de : list Z) : Z := ld16 de 0.
Definition de_name (de : list Z) : list Z := slice de 2 DIRSIZ.
Definition mk_dirent (inum : Z) (name : list Z) : list Z := be_enc 2 inum ++ name.

(** IBLOCK, BBLOCK and the byte offset of an inode in its block. *)
Definition IBLOCK (inum : Z) (sb : superblock) : Z := u32 (inum / IPB + sb_inodestart sb).
Definition BBLOCK (b : Z) (sb : superblock) : Z := u32 (b / BPB + sb_bmapstart sb).
Definition ioff (inum : Z) : Z := (inum mod IPB) * DINODESZ.
