(* ===== verification/OndiskSpec.v ===== *)
(** * On-disk inodes: iupdate() and ilock() are inverse copies *)

From S2P Require Import Prelude Bytes Params Store Ondisk.

Lemma s16_u16 x : s16 (u16 x) = s16 x.
Proof. unfold s16, u16. by rewrite Zplus_mod_idemp_l. Qed.
Lemma s32_u32 x : s32 (u32 x) = s32 x.
Proof. unfold s32, u32. by rewrite Zplus_mod_idemp_l. Qed.

Lemma ldn_splice_other n d off bs off' :
  0 ≤ off → off + zlen bs ≤ zlen d → 0 ≤ off' → off' + Z.of_nat n ≤ zlen d →
  off' + Z.of_nat n ≤ off ∨ off + zlen bs ≤ off' →
  ldn n (splice d off bs) off' = ldn n d off'.
Proof. intros. unfold ldn. rewrite slice_splice_other; [done|lia..]. Qed.

(** Loads of a field of the bytes just stored. *)
Lemma ldn_splice_in n d off bs off' :
  0 ≤ off → off + zlen bs ≤ zlen d → off ≤ off' → off' + Z.of_nat n ≤ off + zlen bs →
  ldn n (splice d off bs) off' = ldn n bs (off' - off).
Proof.
  intros. unfold ldn. f_equal. apply byte_ext.
  - rewrite !zlen_slice; rewrite ?zlen_splice; lia.
  - rewrite zlen_slice by (rewrite ?zlen_splice; lia). intros i Hi.
    rewrite !byte_slice by lia. rewrite byte_splice_in by lia. f_equal. lia.
Qed.

Lemma enc_addrs_cons x a : enc_addrs (x :: a) = be_enc 4 x ++ enc_addrs a.
Proof. done. Qed.

Lemma zlen_enc_addrs a : zlen (enc_addrs a) = 4 * zlen a.
Proof.
  induction a as [|x a IH]; [done|]. rewrite enc_addrs_cons, zlen_app, IH, zlen_be_enc.
  unfold zlen. simpl. lia.
Qed.

Lemma ld_enc_addrs a i :
  (i < length a)%nat → ld32 (enc_addrs a) (4 * Z.of_nat i) = u32 (a !!! i).
Proof.
  unfold ld32, ldn. revert i. induction a as [|x a IH]; intros i Hi; simpl in Hi; [lia|].
  rewrite enc_addrs_cons. destruct i as [|i].
  - unfold slice. change (Z.to_nat (4 * Z.of_nat 0)) with 0%nat. rewrite drop_0.
    rewrite take_app_le by (rewrite length_be_enc; done).
    rewrite take_ge by (rewrite length_be_enc; done). apply be_dec_enc.
  - change ((x :: a) !!! S i) with (a !!! i). rewrite <- (IH i) by lia. f_equal. unfold slice.
    rewrite drop_app_ge by (rewrite length_be_enc; lia). rewrite length_be_enc. do 2 f_equal. lia.
Qed.

Lemma enc_addrs_bytes a : Forall (λ b, 0 ≤ b < 256) (enc_addrs a).
Proof.
  induction a as [|x a IH]; [done|]. rewrite enc_addrs_cons.
  apply Forall_app. split; [apply be_enc_bytes|done].
Qed.

Section dinode.
Context (d : list Z) (off : Z) (x : inode).
Context (Hd : zlen d = BSIZE) (Hoff : 0 ≤ off) (Hend : off + DINODESZ ≤ BSIZE).
Context (Ha : length (i_addrs x) = NADDR).

Lemma zlen_addr_bytes : zlen (enc_addrs (i_addrs x)) = 48.
Proof using Ha. rewrite zlen_enc_addrs. unfold zlen. by rewrite Ha. Qed.

Ltac put_len :=
  unfold st16, st32;
  repeat (rewrite zlen_stn; [|unfold BSIZE, DINODESZ in *; lia|]); unfold BSIZE, DINODESZ in *; lia.

Lemma zlen_put_dinode : zlen (put_dinode d off x) = BSIZE.
Proof using Hd Hoff Hend Ha.
  unfold put_dinode. rewrite zlen_splice; [put_len|unfold DINODESZ in *; lia|].
  rewrite zlen_addr_bytes. put_len.
Qed.

(** A field that put_dinode() does not cover. *)
Lemma ldn_put_other n off' :
  0 ≤ off' → off' + Z.of_nat n ≤ BSIZE → off' + Z.of_nat n ≤ off ∨ off + DINODESZ ≤ off' →
  ldn n (put_dinode d off x) off' = ldn n d off'.
Proof using Hd Hoff Hend Ha.
  intros H1 H2 H3. unfold put_dinode, DINODESZ, BSIZE in *.
  rewrite ldn_splice_other; rewrite ?zlen_addr_bytes; try lia; try put_len.
  unfold st16, st32. repeat (rewrite ldn_stn_other; [| |put_len| |put_len|]); try lia.
Qed.

Ltac ld_field :=
  unfold put_dinode, ld16, ld32, DINODESZ, BSIZE in *;
  rewrite ldn_splice_other; rewrite ?zlen_addr_bytes; try lia; try put_len;
  unfold st16, st32;
  repeat (rewrite ldn_stn_other; [| |put_len| |put_len|]; [|lia..]);
  rewrite ldn_stn_same; [reflexivity| |put_len]; lia.

Lemma put_type : ld16 (put_dinode d off x) off = u16 (i_type x).
Proof using Hd Hoff Hend Ha. ld_field. Qed.
Lemma put_major : ld16 (put_dinode d off x) (off + 2) = u16 (i_major x).
Proof using Hd Hoff Hend Ha. ld_field. Qed.
Lemma put_minor : ld16 (put_dinode d off x) (off + 4) = u16 (i_minor x).
Proof using Hd Hoff Hend Ha. ld_field. Qed.
Lemma put_nlink : ld16 (put_dinode d off x) (off + 6) = u16 (i_nlink x).
Proof using Hd Hoff Hend Ha. ld_field. Qed.
Lemma put_size : ld32 (put_dinode d off x) (off + 8) = u32 (i_size x).
Proof using Hd Hoff Hend Ha. ld_field. Qed.
Lemma put_mtime : ld32 (put_dinode d off x) (off + 12) = u32 (i_mtime x).
Proof using Hd Hoff Hend Ha. ld_field. Qed.

Lemma put_addrs : ld_addrs (put_dinode d off x) (off + 16) = map u32 (i_addrs x).
Proof using Hd Hoff Hend Ha.
  apply list_eq. intros i. unfold ld_addrs.
  destruct (decide (i < NADDR)%nat) as [Hi|Hi].
  - rewrite list_lookup_fmap, lookup_seq_lt by done. rewrite list_lookup_fmap.
    destruct (lookup_lt_is_Some_2 (i_addrs x) i) as [a Hx]; [by rewrite Ha|]. rewrite Hx. simpl. f_equal.
    unfold put_dinode, ld32. rewrite ldn_splice_in; rewrite ?zlen_addr_bytes; unfold NADDR, DINODESZ, BSIZE in *; try lia; try put_len.
    replace (off + 16 + 4 * Z.of_nat i - (off + 16)) with (4 * Z.of_nat i) by lia.
    fold ld32. rewrite ld_enc_addrs by lia. f_equal. by apply list_lookup_total_correct.
  - rewrite !(proj2 (lookup_ge_None _ _)); [done|..]; rewrite length_map, ?length_seq; lia.
Qed.
End dinode.

(** The ranges of the C types of the fields that iupdate() copies. *)
Record dinode_ok (x : inode) : Prop := {
  do_type : -32768 ≤ i_type x < 32768;
  do_major : -32768 ≤ i_major x < 32768;
  do_minor : -32768 ≤ i_minor x < 32768;
  do_nlink : -32768 ≤ i_nlink x < 32768;
  do_size : 0 ≤ i_size x < 4294967296;
  do_mtime : -2147483648 ≤ i_mtime x < 2147483648;
  do_addrs : length (i_addrs x) = NADDR ∧ Forall (λ a, 0 ≤ a < 4294967296) (i_addrs x);
}.

Lemma map_u32_small l : Forall (λ a, 0 ≤ a < 4294967296) l → map u32 l = l.
Proof. induction 1 as [|a l Ha _ IH]; simpl; [done|]. by rewrite IH, u32_small. Qed.

Lemma ioff_range inum : 0 ≤ ioff inum ∧ ioff inum + DINODESZ ≤ BSIZE.
Proof.
  unfold ioff, IPB, DINODESZ, BSIZE. change (512 / 64) with 8.
  pose proof (Z.mod_pos_bound inum 8). lia.
Qed.

Lemma get_put_dinode d off x y :
  zlen d = BSIZE → 0 ≤ off → off + DINODESZ ≤ BSIZE → dinode_ok x →
  get_dinode (put_dinode d off x) off y =
    mkInode (i_dev y) (i_inum y) (i_ref y) (i_valid y) (i_type x) (i_major x) (i_minor x)
      (i_nlink x) (i_size x) (i_mtime x) (i_addrs x).
Proof.
  intros Hd H1 H2 [T Ma Mi Nl Sz Mt [Al Ar]]. unfold get_dinode.
  rewrite put_type, put_major, put_minor, put_nlink, put_size, put_mtime, put_addrs by done.
  rewrite !s16_u16, s32_u32, !s16_small, s32_small, u32_small, map_u32_small by done. done.
Qed.

Lemma get_put_other d inum inum' x y :
  zlen d = BSIZE → length (i_addrs x) = NADDR → inum mod IPB ≠ inum' mod IPB →
  get_dinode (put_dinode d (ioff inum) x) (ioff inum') y = get_dinode d (ioff inum') y.
Proof.
  intros Hd Ha Hne. pose proof (ioff_range inum) as [H1 H2]. pose proof (ioff_range inum') as [H3 H4].
  assert (ioff inum' + DINODESZ ≤ ioff inum ∨ ioff inum + DINODESZ ≤ ioff inum').
  { unfold ioff, DINODESZ in *. lia. }
  unfold get_dinode, ld_addrs, ld16, ld32. unfold DINODESZ in *.
  rewrite !(ldn_put_other d (ioff inum) x) by (unfold DINODESZ; lia || done).
  f_equal. apply map_ext_in. intros i Hi%in_seq. unfold NADDR in *.
  apply ldn_put_other; unfold DINODESZ; done || lia.
Qed.

Lemma block_ok_put_dinode d inum x :
  block_ok d → length (i_addrs x) = NADDR → block_ok (put_dinode d (ioff inum) x).
Proof.
  intros Hd Ha. pose proof (ioff_range inum) as [H1 H2]. unfold put_dinode, DINODESZ in *.
  apply block_ok_splice; [|apply enc_addrs_bytes|lia|rewrite zlen_addr_bytes by done; lia].
  unfold st16, st32. repeat (apply block_ok_stn; [|lia|lia]). done.
Qed.

(** What iupdate() stores in the inode block is what ilock() loads: every
    field of the inode comes back, and the other inodes that share the block
    keep theirs. *)
Theorem dinode_roundtrip d inum x y :
  block_ok d → dinode_ok x →
  let d' := put_dinode d (ioff inum) x in
  get_dinode d' (ioff inum) y =
    mkInode (i_dev y) (i_inum y) (i_ref y) (i_valid y) (i_type x) (i_major x) (i_minor x)
      (i_nlink x) (i_size x) (i_mtime x) (i_addrs x) ∧
  ∀ inum', inum mod IPB ≠ inum' mod IPB →
    get_dinode d' (ioff inum') y = get_dinode d (ioff inum') y.
Proof.
  intros [Hd _] Hx d'. pose proof (ioff_range inum) as [H1 H2]. split.
  - by apply get_put_dinode.
  - intros inum' Hne. apply get_put_other; [done|apply Hx|done].
Qed.

