(* ===== verification/Bio.v ===== *)
(** * The buffer cache (kern/bio.c) and the block device below it (kern/usbblk.c)

    [struct buf] is a record; the [prev] and [next] pointers are indices into
    the cache array, and the list head [bcache.head] is the entry after the
    [NBUF] buffers, as it is in the C structure.  The device is the CH375
    controller: what it holds and whether it completes a transfer of a given
    block are parameters of the model. *)

From S2P Require Import Prelude Bytes Params.

(** ** Data *)

Record buf := mkBuf {
  b_flags : Z;
  b_blockno : Z;
  b_refcnt : Z;
  b_prev : nat;
  b_next : nat;
  b_data : list Z;
}.

Definition HEAD : nat := NBUF.

Record device := mkDevice {
  dev_data : Z → list Z;
  dev_up : Z → bool;
}.

Record bio := mkBio {
  bdev : device;
  bcache : list buf;
}.

#[export] Instance buf_inhabited : Inhabited buf :=
  populate (mkBuf 0 0 0 0 0 (zeros BSIZE)).

Definition set_flags (v : Z) (x : buf) : buf :=
  mkBuf v (b_blockno x) (b_refcnt x) (b_prev x) (b_next x) (b_data x).
Definition set_blockno (v : Z) (x : buf) : buf :=
  mkBuf (b_flags x) v (b_refcnt x) (b_prev x) (b_next x) (b_data x).
Definition set_refcnt (v : Z) (x : buf) : buf :=
  mkBuf (b_flags x) (b_blockno x) v (b_prev x) (b_next x) (b_data x).
Definition set_prev (v : nat) (x : buf) : buf :=
  mkBuf (b_flags x) (b_blockno x) (b_refcnt x) v (b_next x) (b_data x).
Definition set_next (v : nat) (x : buf) : buf :=
  mkBuf (b_flags x) (b_blockno x) (b_refcnt x) (b_prev x) v (b_data x).
Definition set_data (v : list Z) (x : buf) : buf :=
  mkBuf (b_flags x) (b_blockno x) (b_refcnt x) (b_prev x) (b_next x) v.

Definition getb (s : bio) (b : nat) : buf := bcache s !!! b.
Definition putb (b : nat) (f : buf → buf) : M bio unit :=
  modify (λ s, mkBio (bdev s) (alter f b (bcache s))).

(** ** The device: read_block() and write_block()

    Both return 1 when the controller reports success and 0 otherwise. *)

Definition read_block (b : nat) (lba : Z) : M bio Z := λ s,
  if dev_up (bdev s) lba
  then Ret 1 (mkBio (bdev s) (alter (set_data (dev_data (bdev s) lba)) b (bcache s)))
  else Ret 0 s.

Definition write_block (b : nat) (lba : Z) : M bio Z := λ s,
  if dev_up (bdev s) lba
  then Ret 1 (mkBio (mkDevice (upd (dev_data (bdev s)) lba (b_data (getb s b))) (dev_up (bdev s)))
                    (bcache s))
  else Ret 0 s.

(** ** kern/usbblk.c: blkrw() *)

Definition blkrw (b : nat) : M bio unit :=
  let* x := gets (λ s, getb s b) in
  if Z.land (b_flags x) (Z.lor B_VALID B_DIRTY) =? B_VALID then panic "blkrw1" else
  (if negb (Z.land (b_flags x) B_DIRTY =? 0) then
     let* ok := write_block b (b_blockno x) in
     if ok =? 0 then panic "blkrw2"
     else putb b (λ x, set_flags (u8 (Z.land (b_flags x) (Z.lnot B_DIRTY))) x)
   else
     let* ok := read_block b (b_blockno x) in
     if ok =? 0 then panic "blkrw3" else ret tt) ;;
  putb b (λ x, set_flags (u8 (Z.lor (b_flags x) B_VALID)) x).

(** ** kern/bio.c *)

(** The four assignments that make [b] the first buffer of the list. *)
Definition link_front (b : nat) (bc : list buf) : list buf :=
  let bc := alter (set_next (b_next (bc !!! HEAD))) b bc in
  let bc := alter (set_prev HEAD) b bc in
  let bc := alter (set_prev b) (b_next (bc !!! HEAD)) bc in
  alter (set_next b) HEAD bc.

(** The two assignments that take [b] out of the list. *)
Definition unlink (b : nat) (bc : list buf) : list buf :=
  let bc := alter (set_prev (b_prev (bc !!! b))) (b_next (bc !!! b)) bc in
  alter (set_next (b_next (bc !!! b))) (b_prev (bc !!! b)) bc.

Definition binit : M bio unit :=
  modify (λ s,
    let bc := alter (set_prev HEAD) HEAD (bcache s) in
    let bc := alter (set_next HEAD) HEAD bc in
    mkBio (bdev s) (foldl (λ bc b, link_front b bc) bc (seq 0 NBUF))).

(** A walk of the list from [b], along [step], to the first buffer that
    satisfies [p]; [Some None] when the walk comes back to the head. *)
Fixpoint scan (fuel : nat) (step : buf → nat) (p : buf → bool) (bc : list buf) (b : nat)
    : option (option nat) :=
  if (b =? HEAD)%nat then Some None
  else match fuel with
       | O => None
       | S fuel => if p (bc !!! b) then Some (Some b)
                   else scan fuel step p bc (step (bc !!! b))
       end.

Definition walk (step : buf → nat) (p : buf → bool) : M bio (option nat) := λ s,
  match scan NBUF step p (bcache s) (step (getb s HEAD)) with
  | Some r => Ret r s
  | None => Spin
  end.

Definition recycle (b : nat) (blockno : Z) : M bio unit :=
  putb b (λ x, set_refcnt 1 (set_flags 0 (set_blockno blockno x))).

Definition bget (blockno : Z) : M bio nat :=
  let* hit := walk b_next (λ x, b_blockno x =? blockno) in
  match hit with
  | Some b => putb b (λ x, set_refcnt (u16 (b_refcnt x + 1)) x) ;; ret b
  | None =>
      let* clean := walk b_prev (λ x, (b_refcnt x =? 0) && (Z.land (b_flags x) B_DIRTY =? 0)) in
      match clean with
      | Some b => recycle b blockno ;; ret b
      | None =>
          let* dirty := walk b_prev (λ x, b_refcnt x =? 0) in
          match dirty with
          | Some b => blkrw b ;; recycle b blockno ;; ret b
          | None => panic "bget: no buffers"
          end
      end
  end.

Definition bread (blockno : Z) : M bio nat :=
  let* b := bget blockno in
  let* x := gets (λ s, getb s b) in
  (if Z.land (b_flags x) B_VALID =? 0 then blkrw b else ret tt) ;;
  ret b.

Definition bwrite (b : nat) : M bio unit :=
  putb b (λ x, set_flags (u8 (Z.lor (b_flags x) B_DIRTY)) x).

Definition brelse (b : nat) : M bio unit :=
  putb b (λ x, set_refcnt (u16 (b_refcnt x - 1)) x) ;;
  let* x := gets (λ s, getb s b) in
  if b_refcnt x =? 0
  then modify (λ s, mkBio (bdev s) (link_front b (unlink b (bcache s))))
  else ret tt.

Fixpoint bflush_from (bs : list nat) : M bio unit :=
  match bs with
  | [] => ret tt
  | b :: bs =>
      let* x := gets (λ s, getb s b) in
      (if negb (Z.land (b_flags x) B_DIRTY =? 0) then blkrw b else ret tt) ;;
      bflush_from bs
  end.
Definition bflush : M bio unit := bflush_from (seq 0 NBUF).

Arguments putb : simpl never.
