(* ===== verification/BioList.v ===== *)
(** * The doubly-linked list of the buffer cache

    The [prev]/[next] pointers of kern/bio.c as a representation of a list of
    buffer indices: what unlinking and pushing to the front do to it, what the
    walks of [bget] find, and sums over the cache. *)

From S2P Require Import Prelude Bytes Params Bio.

(** ** The doubly-linked list *)

Abbreviation nx bc x := (b_next (bc !!! x)).
Abbreviation pv bc x := (b_prev (bc !!! x)).

(** [links bc x l z]: following [next] from [x] one meets exactly [l] and then
    [z], and the [prev] pointers run back along the same path. *)
Fixpoint links (bc : list buf) (x : nat) (l : list nat) (z : nat) : Prop :=
  match l with
  | [] => nx bc x = z ∧ pv bc z = x
  | y :: l => nx bc x = y ∧ pv bc y = x ∧ links bc y l z
  end.

Lemma links_app bc x l1 y l2 z :
  links bc x (l1 ++ y :: l2) z ↔ links bc x l1 y ∧ links bc y l2 z.
Proof. revert x. induction l1 as [|u l1 IH]; intros x; simpl; [tauto|]. rewrite IH. tauto. Qed.

Lemma links_frame bc bc' x l z :
  (∀ u, u ∈ x :: l → nx bc' u = nx bc u) →
  (∀ u, u ∈ l ++ [z] → pv bc' u = pv bc u) →
  links bc x l z → links bc' x l z.
Proof.
  revert x. induction l as [|y l IH]; intros x Hn Hp; simpl.
  - intros [E1 E2]. rewrite (Hn x), (Hp z) by list_in. done.
  - intros (E1 & Hy & Hl). rewrite (Hn x), (Hp y) by list_in. split; [done|]. split; [done|].
    apply IH; [| |done]; intros u Hu; [apply Hn|apply Hp]; list_in.
Qed.

(** The end points of a path. *)
Lemma links_last bc x l z :
  links bc x l z → pv bc z = List.last l x ∧ nx bc x = List.hd z l ∧
    nx bc (List.last l x) = z.
Proof.
  revert x. induction l as [|y l IH]; intros x; simpl.
  - by intros [<- ->].
  - intros (-> & _ & Hl). destruct (IH _ Hl) as (-> & _ & H3).
    assert (match l with [] => y | _ :: _ => List.last l x end = List.last l y) as ->.
    { destruct l as [|u l]; [done|]. clear. revert u. induction l; intros; [done|]. simpl in *. auto. }
    done.
Qed.

Lemma lookup_total_alter_bc (f : buf → buf) i j (bc : list buf) :
  (i < length bc)%nat →
  (alter f i bc : list buf) !!! j = if decide (i = j) then f (bc !!! j) else bc !!! j.
Proof.
  intros Hi. case_decide as Hij; [subst|].
  - by rewrite list_lookup_total_alter_eq.
  - by rewrite list_lookup_total_alter_ne.
Qed.

(** [p] can be appended in front of a path. *)
Lemma links_snoc bc x l p z :
  links bc x (l ++ [p]) z ↔ links bc x l p ∧ nx bc p = z ∧ pv bc z = p.
Proof. rewrite links_app. simpl. tauto. Qed.

Section list_surgery.
Context (bc : list buf) (b : nat).
Context (Hlen : length bc = S NBUF).

Lemma unlink_fields u :
  (nx bc b < S NBUF)%nat → (pv bc b < S NBUF)%nat → nx bc b ≠ b → (u < S NBUF)%nat →
  nx (unlink b bc) u = (if decide (u = pv bc b) then nx bc b else nx bc u) ∧
  pv (unlink b bc) u = (if decide (u = nx bc b) then pv bc b else pv bc u).
Proof using Hlen.
  intros Hn Hp Hnb Hu. unfold unlink.
  assert (nx (alter (set_prev (pv bc b)) (nx bc b) bc : list buf) b = nx bc b) as E1.
  { rewrite lookup_total_alter_bc by lia. by case_decide. }
  assert (pv (alter (set_prev (pv bc b)) (nx bc b) bc : list buf) b = pv bc b) as E2.
  { rewrite lookup_total_alter_bc by lia. by case_decide. }
  rewrite E1, E2.
  rewrite lookup_total_alter_bc by (rewrite length_alter; lia).
  rewrite lookup_total_alter_bc by lia.
  repeat case_decide; simpl; naive_solver.
Qed.

Lemma link_front_fields u :
  (nx bc HEAD < S NBUF)%nat → b ≠ HEAD → (b < NBUF)%nat → (u < S NBUF)%nat →
  nx (link_front b bc) u =
    (if decide (u = HEAD) then b else if decide (u = b) then nx bc HEAD else nx bc u) ∧
  pv (link_front b bc) u =
    (if decide (u = nx bc HEAD) then b else if decide (u = b) then HEAD else pv bc u).
Proof using Hlen.
  intros Hn Hb Hb' Hu. unfold link_front.
  assert (nx (alter (set_prev HEAD) b (alter (set_next (nx bc HEAD)) b bc) : list buf) HEAD
          = nx bc HEAD) as E1.
  { rewrite !lookup_total_alter_bc by (rewrite ?length_alter; lia). by repeat case_decide. }
  rewrite E1.
  assert (HEAD < S NBUF)%nat by (unfold HEAD; lia).
  rewrite !lookup_total_alter_bc by (rewrite ?length_alter; lia).
  repeat case_decide; subst; simpl; done || congruence || (split; congruence).
Qed.
End list_surgery.

Lemma length_unlink b bc : length (unlink b bc) = length bc.
Proof. unfold unlink. by rewrite !length_alter. Qed.
Lemma length_link_front b bc : length (link_front b bc) = length bc.
Proof. unfold link_front. by rewrite !length_alter. Qed.

(** Taking [b] out of the list leaves the other buffers in their order. *)
Lemma links_unlink bc l1 b l2 :
  length bc = S NBUF → NoDup (HEAD :: l1 ++ b :: l2) →
  (∀ u, u ∈ l1 ++ b :: l2 → (u < NBUF)%nat) →
  links bc HEAD (l1 ++ b :: l2) HEAD → links (unlink b bc) HEAD (l1 ++ l2) HEAD.
Proof.
  intros Hlen Hnd Hlt Hl. apply links_app in Hl as [L1 L2].
  assert (∃ p, p ∈ HEAD :: l1 ∧ pv bc b = p ∧ nx bc p = b) as (p & Hp & Ep & Enp).
  { destruct l1 as [|p l1 _] using rev_ind.
    - simpl in L1. destruct L1. exists HEAD. split; [list_in|done].
    - apply links_snoc in L1 as (_ & ? & ?). exists p. split; [list_in|done]. }
  assert (∃ n, n ∈ l2 ++ [HEAD] ∧ nx bc b = n ∧ pv bc n = b) as (n & Hn & En & Epn).
  { destruct l2 as [|n l2]; simpl in L2; destruct_and! L2.
    - exists HEAD. split; [list_in|done].
    - exists n. split; [list_in|done]. }
  assert (∀ u, u ∈ HEAD :: l1 ++ b :: l2 → (u < S NBUF)%nat) as Hlt'.
  { intros u [->|Hu]%elem_of_cons; [unfold HEAD; lia|]. specialize (Hlt u Hu). lia. }
  assert (p < S NBUF)%nat by (apply Hlt'; list_in).
  assert (n < S NBUF)%nat by (apply Hlt'; list_in).
  apply NoDup_cons in Hnd as [HH Hnd]. apply NoDup_app in Hnd as (Hd1 & Hd12 & Hd2).
  apply NoDup_cons in Hd2 as [Hb2 Hd2].
  assert (n ≠ b) by (intros ->; list_in).
  assert (∀ u, (u < S NBUF)%nat →
    nx (unlink b bc) u = (if decide (u = p) then n else nx bc u) ∧
    pv (unlink b bc) u = (if decide (u = n) then p else pv bc u)) as F.
  { intros u Hu. rewrite <- Ep, <- En. apply unlink_fields; lia || congruence. }
  assert (Fp : nx (unlink b bc) p = n) by (destruct (F p) as [-> _]; [lia|]; by rewrite decide_True).
  assert (Fn : pv (unlink b bc) n = p) by (destruct (F n) as [_ ->]; [lia|]; by rewrite decide_True).
  assert (Hpre : links (unlink b bc) HEAD (l1 ++ l2) HEAD ↔
    links (unlink b bc) HEAD l1 n ∧ match l2 with [] => True | _ :: l => links (unlink b bc) n l HEAD end).
  { destruct l2 as [|n' l2']; [rewrite app_nil_r; assert (n = HEAD) as -> by list_in; tauto|].
    simpl in L2. destruct_and! L2. assert (n' = n) as -> by congruence. apply links_app. }
  apply Hpre. split.
  - destruct l1 as [|p' l1' _] using rev_ind.
    + assert (p = HEAD) as -> by list_in. done.
    + apply links_snoc in L1 as (L1 & ? & ?). assert (p' = p) as -> by congruence.
      apply links_snoc. split; [|done]. apply NoDup_app in Hd1 as (_ & Hd1 & _).
      revert L1. apply links_frame; intros u Hu; destruct (F u) as [E1 E2];
        try (apply Hlt'; list_in).
      * rewrite E1, decide_False; [done|]. intros ->. apply elem_of_cons in Hu as [->|Hu]; [list_in|].
        apply (Hd1 p Hu). list_in.
      * rewrite E2, decide_False; [done|]. intros ->. apply elem_of_app in Hn as [Hn|Hn]; [|list_in].
        apply (Hd12 n Hu). list_in.
  - destruct l2 as [|n' l2']; [done|]. simpl in L2. destruct L2 as (? & ? & L2).
    assert (n' = n) as -> by congruence. apply NoDup_cons in Hd2 as [Hn2 Hd2].
    revert L2. apply links_frame; intros u Hu; destruct (F u) as [E1 E2];
      try (apply Hlt'; list_in).
    + rewrite E1, decide_False; [done|]. intros ->. apply elem_of_cons in Hp as [->|Hp]; [list_in|].
      apply (Hd12 p Hp). list_in.
    + rewrite E2, decide_False; [done|]. intros ->. list_in.
Qed.

(** Putting [b] at the front. *)
Lemma links_link_front bc b l :
  length bc = S NBUF → NoDup (HEAD :: b :: l) → (∀ u, u ∈ b :: l → (u < NBUF)%nat) →
  links bc HEAD l HEAD → links (link_front b bc) HEAD (b :: l) HEAD.
Proof.
  intros Hlen Hnd Hlt Hl.
  apply NoDup_cons in Hnd as [HH Hnd]. apply NoDup_cons in Hnd as [Hb Hnd].
  assert (HEAD < S NBUF)%nat by (unfold HEAD; lia).
  assert (b < NBUF)%nat by (apply Hlt; list_in).
  assert (nx bc HEAD = List.hd HEAD l) as En by (destruct l; simpl in Hl; tauto).
  assert (∀ u, u ∈ HEAD :: b :: l → (u < S NBUF)%nat) as Hlt'.
  { intros u [->|Hu]%elem_of_cons; [lia|]. specialize (Hlt u Hu). lia. }
  assert (nx bc HEAD < S NBUF)%nat.
  { rewrite En. destruct l as [|y l]; [done|]. apply Hlt'. simpl. list_in. }
  assert (∀ u, u ∈ HEAD :: b :: l →
    nx (link_front b bc) u =
      (if decide (u = HEAD) then b else if decide (u = b) then nx bc HEAD else nx bc u) ∧
    pv (link_front b bc) u =
      (if decide (u = nx bc HEAD) then b else if decide (u = b) then HEAD else pv bc u)) as F.
  { intros u Hu. apply link_front_fields; auto. list_in. }
  assert (b ≠ HEAD) by list_in.
  assert (b ≠ nx bc HEAD) by (rewrite En; destruct l; simpl; list_in).
  destruct (F HEAD) as [F1 F2]; [list_in|]. destruct (F b) as [F3 F4]; [list_in|].
  destruct l as [|y l].
  - simpl in En, Hl. clear F. destruct Hl as [? ?].
    simpl. split_and!; repeat case_decide; congruence.
  - simpl in En. destruct Hl as (_ & Hy & Hl).
    destruct (F y) as [_ F6]; [list_in|]. apply NoDup_cons in Hnd as [Hyl Hnd].
    simpl. split_and!; try (repeat case_decide; congruence).
    revert Hl. apply links_frame; intros u Hu; destruct (F u) as [E1 E2]; try list_in.
    + rewrite E1, !decide_False; [done|..]; intros Eu; clear - Eu Hu Hyl Hb HH; list_in.
    + rewrite E2, !decide_False; [done|..]; intros Eu; rewrite ?En in Eu; clear - Eu Hu Hyl Hb HH; list_in.
Qed.

(** What the list surgery does not touch. *)
Definition payload (x : buf) : Z * Z * Z * list Z := (b_flags x, b_blockno x, b_refcnt x, b_data x).

Lemma payload_inj x y :
  payload x = payload y →
  b_flags x = b_flags y ∧ b_blockno x = b_blockno y ∧ b_refcnt x = b_refcnt y ∧ b_data x = b_data y.
Proof. unfold payload. by intros [= -> -> -> ->]. Qed.

Lemma payload_alter (f : buf → buf) i (bc : list buf) :
  (∀ x, payload (f x) = payload x) → map payload (alter f i bc) = map payload bc.
Proof.
  intros Hf. revert i. induction bc as [|x bc IH]; intros [|i]; simpl; try done.
  - by rewrite Hf.
  - f_equal. apply IH.
Qed.

Lemma payload_link_front b bc : map payload (link_front b bc) = map payload bc.
Proof. unfold link_front. by rewrite !payload_alter. Qed.
Lemma payload_unlink b bc : map payload (unlink b bc) = map payload bc.
Proof. unfold unlink. by rewrite !payload_alter. Qed.

Lemma payload_at bc bc' i :
  map payload bc' = map payload bc → payload (bc' !!! i) = payload (bc !!! i).
Proof.
  intros H. rewrite !list_lookup_total_alt.
  assert (payload <$> bc' !! i = payload <$> bc !! i) as E.
  { rewrite <- !list_lookup_fmap. exact (f_equal (.!! i) H). }
  destruct (bc' !! i), (bc !! i); simpl in *; congruence.
Qed.

(** ** Walking the list *)

Lemma scan_next bc p x l fuel :
  (length l ≤ fuel)%nat → HEAD ∉ l → links bc x l HEAD →
  scan fuel b_next p bc (nx bc x) = Some (find (λ i, p (bc !!! i)) l).
Proof.
  revert x fuel. induction l as [|y l IH]; intros x fuel Hf HH Hl; simpl in *.
  - destruct Hl as [-> _]. unfold scan. destruct fuel; by rewrite Nat.eqb_refl.
  - destruct Hl as (-> & _ & Hl). apply not_elem_of_cons in HH as [HH1 HH2].
    destruct fuel as [|fuel]; [lia|]. simpl.
    rewrite (proj2 (Nat.eqb_neq y HEAD)) by done.
    destruct (p _); [done|]. apply IH; [lia|done..].
Qed.

Lemma scan_prev bc p z l fuel :
  (length l ≤ fuel)%nat → HEAD ∉ l → links bc HEAD l z →
  scan fuel b_prev p bc (pv bc z) = Some (find (λ i, p (bc !!! i)) (rev l)).
Proof.
  revert z fuel. induction l as [|y l IH] using rev_ind; intros z fuel Hf HH Hl.
  - destruct Hl as [_ ->]. unfold scan. destruct fuel; by rewrite Nat.eqb_refl.
  - apply links_snoc in Hl as (Hl & _ & ->). apply not_elem_of_app in HH as [HH1 HH2].
    apply not_elem_of_cons in HH2 as [HH2 _]. rewrite length_app in Hf. simpl in Hf.
    rewrite rev_app_distr. simpl.
    destruct fuel as [|fuel]; [lia|]. simpl.
    rewrite (proj2 (Nat.eqb_neq y HEAD)) by done.
    destruct (p _); [done|]. apply IH; [lia|done..].
Qed.

(** ** Sums over the cache *)

Fixpoint sumz (f : buf → Z) (l : list buf) : Z :=
  match l with [] => 0 | x :: l => f x + sumz f l end.

Lemma sumz_alter (f : buf → Z) g i (l : list buf) :
  (i < length l)%nat → sumz f (alter g i l) = sumz f l - f (l !!! i) + f (g (l !!! i)).
Proof.
  revert i. induction l as [|x l IH]; intros [|i] Hi; simpl in *; try lia.
  change (list_alter g i l) with (alter g i l). rewrite IH by lia. lia.
Qed.

Lemma sumz_alter_same f g i (l : list buf) :
  (i < length l)%nat → f (g (l !!! i)) = f (l !!! i) → sumz f (alter g i l) = sumz f l.
Proof. intros. rewrite sumz_alter by done. lia. Qed.

Lemma sumz_ext f g (l : list buf) : (∀ x, x ∈ l → f x = g x) → sumz f l = sumz g l.
Proof.
  induction l as [|x l IH]; intros H; simpl; [done|].
  rewrite H by list_in. rewrite IH; [done|]. intros. apply H. list_in.
Qed.

Lemma sumz_nonneg f (l : list buf) : (∀ x, x ∈ l → 0 ≤ f x) → 0 ≤ sumz f l.
Proof.
  induction l as [|x l IH]; intros H; simpl; [lia|].
  specialize (H x) as H1. assert (0 ≤ f x) by (apply H1; list_in).
  assert (0 ≤ sumz f l) by (apply IH; intros; apply H; list_in). lia.
Qed.

Lemma sumz_mono f g (l : list buf) : (∀ x, x ∈ l → f x ≤ g x) → sumz f l ≤ sumz g l.
Proof.
  induction l as [|x l IH]; intros H; simpl; [done|].
  assert (f x ≤ g x) by (apply H; list_in).
  assert (sumz f l ≤ sumz g l) by (apply IH; intros; apply H; list_in). lia.
Qed.

Lemma sumz_ge f (l : list buf) i :
  (∀ x, x ∈ l → 0 ≤ f x) → (i < length l)%nat → f (l !!! i) ≤ sumz f l.
Proof.
  revert i. induction l as [|x l IH]; intros [|i] H Hi; simpl in *; try lia.
  - assert (0 ≤ sumz f l) by (apply sumz_nonneg; intros; apply H; list_in). lia.
  - assert (0 ≤ f x) by (apply H; list_in).
    assert (f (l !!! i) ≤ sumz f l) by (apply IH; [intros; apply H; list_in|lia]). lia.
Qed.

Lemma sumz_payload f bc bc' :
  (∀ x y, payload x = payload y → f x = f y) →
  map payload bc' = map payload bc → sumz f bc' = sumz f bc.
Proof.
  intros Hf. revert bc'. induction bc as [|x bc IH]; intros [|x' bc'] H; try done.
  cbn [map] in H. injection H as Hx Hl1 Hl2 Hl3 Hl. cbn [sumz]. f_equal; [apply Hf; unfold payload; congruence|by apply IH].
Qed.


Lemma sumz_count f (l : list buf) n :
  (∀ x, x ∈ l → 0 ≤ f x) → (n ≤ length l)%nat → (∀ i, (i < n)%nat → 1 ≤ f (l !!! i)) →
  Z.of_nat n ≤ sumz f l.
Proof.
  revert n. induction l as [|x l IH]; intros n H Hn H1; simpl in *; [lia|].
  destruct n as [|n].
  - assert (0 ≤ sumz f l) by (apply sumz_nonneg; intros; apply H; list_in).
    assert (0 ≤ f x) by (apply H; list_in). lia.
  - assert (Z.of_nat n ≤ sumz f l).
    { apply IH; [intros; apply H; list_in|lia|]. intros i Hi. apply (H1 (S i)). lia. }
    specialize (H1 0%nat ltac:(lia)). simpl in H1. lia.
Qed.

Lemma sumz_zero f (l : list buf) : (∀ j, (j < length l)%nat → f (l !!! j) = 0) → sumz f l = 0.
Proof.
  induction l as [|x l IH]; intros H; simpl; [done|].
  pose proof (H 0%nat ltac:(simpl; lia)) as H0. simpl in H0. rewrite H0, IH; [done|].
  intros j Hj. apply (H (S j)). simpl. lia.
Qed.

Lemma sumz_single f (l : list buf) i :
  (i < length l)%nat → (∀ j, (j < length l)%nat → j ≠ i → f (l !!! j) = 0) →
  sumz f l = f (l !!! i).
Proof.
  revert i. induction l as [|x l IH]; intros [|i] Hi H; simpl in *; try lia.
  - rewrite sumz_zero; [lia|]. intros j Hj. apply (H (S j)); lia.
  - pose proof (H 0%nat ltac:(lia) ltac:(lia)) as H0. simpl in H0. rewrite H0, (IH i); [done|lia|].
    intros j Hj Hne. apply (H (S j)); lia.
Qed.
