(* ===== verification/BioSpec.v ===== *)
(** * The buffer cache keeps a coherent copy of the disk

    The invariant of kern/bio.c, the abstract view it offers (the content of
    every block, and how often each block is referenced), and the effect of
    each operation on that view. *)

From stdpp Require Import sorting.
From S2P Require Import Prelude Bytes Params Store Bio BioList.

(** ** The invariant of the cache *)

Definition fl (s : bio) (i : nat) : Z := b_flags (getb s i).
Definition bno (s : bio) (i : nat) : Z := b_blockno (getb s i).
Definition rc (s : bio) (i : nat) : Z := b_refcnt (getb s i).
Definition dat (s : bio) (i : nat) : list Z := b_data (getb s i).

(** In list order, only the first buffer for a block can be valid. *)
Definition shadow (s : bio) (i j : nat) : Prop := bno s i = bno s j → fl s j = 0.

Record binv (s : bio) (ord : list nat) : Prop := {
  bi_len : length (bcache s) = S NBUF;
  bi_perm : ord ≡ₚ seq 0 NBUF;
  bi_links : links (bcache s) HEAD ord HEAD;
  bi_head : fl s HEAD = 0 ∧ rc s HEAD = 0;
  bi_flags : ∀ i, (i < NBUF)%nat → fl s i = 0 ∨ fl s i = B_VALID ∨ fl s i = Z.lor B_VALID B_DIRTY;
  bi_ref : ∀ i, (i < NBUF)%nat → 0 ≤ rc s i < 65536 ∧ (0 < rc s i → fl s i ≠ 0);
  bi_shadow : StronglySorted (shadow s) ord;
  bi_data : ∀ i, (i < NBUF)%nat → block_ok (dat s i);
  bi_up : ∀ i, (i < NBUF)%nat → fl s i ≠ 0 → dev_up (bdev s) (bno s i) = true;
  bi_clean : ∀ i, (i < NBUF)%nat → fl s i = B_VALID → dat s i = dev_data (bdev s) (bno s i);
  bi_dev : ∀ b, block_ok (dev_data (bdev s) b);
}.

Definition bok (s : bio) : Prop := ∃ ord, binv s ord.

(** ** The abstract view *)

(** The content of block [b], wherever its current copy is. *)
Definition content (s : bio) (b : Z) : list Z :=
  match find (λ x, (b_blockno x =? b) && negb (b_flags x =? 0)) (bcache s) with
  | Some x => b_data x
  | None => dev_data (bdev s) b
  end.

(** How many references there are to block [b], and to all blocks. *)
Definition refs (s : bio) (b : Z) : Z :=
  sumz (λ x, if b_blockno x =? b then b_refcnt x else 0) (bcache s).
Definition trefs (s : bio) : Z := sumz b_refcnt (bcache s).

(** [handle s i b]: the pointer [i] was returned by [bread(b)] and not released. *)
Definition handle (s : bio) (i : nat) (b : Z) : Prop :=
  (i < NBUF)%nat ∧ bno s i = b ∧ 0 < rc s i.

Section facts.
Context (s : bio) (ord : list nat) (I : binv s ord).

Lemma ord_lt i : i ∈ ord ↔ (i < NBUF)%nat.
Proof using I. rewrite (bi_perm _ _ I), elem_of_seq. lia. Qed.

Lemma ord_length : length ord = NBUF.
Proof using I. rewrite (Permutation_length (bi_perm _ _ I)). apply length_seq. Qed.

Lemma ord_NoDup : NoDup (HEAD :: ord).
Proof using I.
  apply NoDup_cons. split.
  - rewrite ord_lt. unfold HEAD. lia.
  - rewrite (bi_perm _ _ I). apply NoDup_seq.
Qed.

Lemma valid_unique i j :
  (i < NBUF)%nat → (j < NBUF)%nat → fl s i ≠ 0 → fl s j ≠ 0 → bno s i = bno s j → i = j.
Proof using I.
  intros Hi Hj Vi Vj E. destruct (decide (i = j)) as [|Hne]; [done|]. exfalso.
  apply ord_lt in Hj. pose proof (bi_shadow _ _ I) as Hs. pose proof Hi as Hi'.
  apply ord_lt, list_elem_of_split in Hi' as (l1 & l2 & El).
  rewrite El in Hs, Hj. apply StronglySorted_app in Hs as (H12 & _ & H2).
  apply elem_of_app in Hj as [Hj|Hj].
  - apply Vi. apply (H12 j i); [done|list_in|done].
  - apply elem_of_cons in Hj as [->|Hj]; [done|]. apply Vj.
    apply StronglySorted_cons in H2 as [H2 _]. rewrite Forall_forall in H2. by apply (H2 j Hj).
Qed.
End facts.

(** ** Updating one buffer *)

Definition updb (k : nat) (f : buf → buf) (s : bio) : bio := mkBio (bdev s) (alter f k (bcache s)).

Lemma getb_updb s k f j :
  length (bcache s) = S NBUF → (k < NBUF)%nat →
  getb (updb k f s) j = if decide (k = j) then f (getb s k) else getb s j.
Proof.
  intros Hl Hk. unfold getb, updb. simpl. rewrite lookup_total_alter_bc by lia.
  by case_decide; subst.
Qed.

Lemma SS_transfer (R R' : nat → nat → Prop) l :
  NoDup l → StronglySorted R l →
  (∀ i j, i ∈ l → j ∈ l → i ≠ j → R i j → R' i j) → StronglySorted R' l.
Proof.
  induction l as [|i l IH]; intros Hnd HS HR; [constructor|].
  apply NoDup_cons in Hnd as [Hi Hnd]. apply StronglySorted_cons in HS as [HF HS].
  apply StronglySorted_cons. split.
  - rewrite Forall_forall in *. intros j Hj. apply HR; [list_in|list_in| |by apply HF].
    by intros ->.
  - apply IH; [done|done|]. intros. apply HR; auto; list_in.
Qed.

Definition keeps_links (f : buf → buf) : Prop :=
  ∀ x, b_prev (f x) = b_prev x ∧ b_next (f x) = b_next x.

Lemma links_updb s k f x l z :
  keeps_links f → length (bcache s) = S NBUF → (k < NBUF)%nat →
  links (bcache s) x l z → links (bcache (updb k f s)) x l z.
Proof.
  intros Hf Hl Hk. apply links_frame; intros u _; unfold updb; simpl;
    rewrite lookup_total_alter_bc by lia; case_decide; subst; done || apply Hf.
Qed.

(** [k] is the first buffer of its block in the list. *)
Definition first_of (s : bio) (ord : list nat) (k : nat) (b : Z) : Prop :=
  ∃ l1 l2, ord = l1 ++ k :: l2 ∧ ∀ j, j ∈ l1 → bno s j ≠ b.

Section update.
Context (s : bio) (ord : list nat) (I : binv s ord) (k : nat) (Hk : (k < NBUF)%nat).
Context (f : buf → buf) (Hf : keeps_links f).
Let x := f (getb s k).
Let s' := updb k f s.

Lemma updb_fields j :
  fl s' j = (if decide (k = j) then b_flags x else fl s j) ∧
  bno s' j = (if decide (k = j) then b_blockno x else bno s j) ∧
  rc s' j = (if decide (k = j) then b_refcnt x else rc s j) ∧
  dat s' j = (if decide (k = j) then b_data x else dat s j).
Proof using I Hk.
  unfold fl, bno, rc, dat, s'. rewrite getb_updb by (apply I || done).
  by case_decide; subst.
Qed.

Lemma shadow_same :
  b_blockno x = bno s k → (fl s k = 0 → b_flags x = 0) → StronglySorted (shadow s') ord.
Proof using I Hk.
  intros Hb Hz. pose proof (ord_NoDup _ _ I) as [_ Hnd]%NoDup_cons.
  apply (SS_transfer (shadow s)); [done|apply I|].
  intros i j _ _ _ HR. unfold shadow.
  destruct (updb_fields i) as (_ & -> & _), (updb_fields j) as (-> & -> & _).
  unfold shadow in HR. repeat case_decide; subst; rewrite ?Hb; auto.
Qed.

Lemma shadow_first :
  first_of s ord k (b_blockno x) →
  (b_blockno x = bno s k ∨ ∀ j, j ∈ ord → bno s j ≠ b_blockno x) →
  StronglySorted (shadow s') ord.
Proof using I Hk.
  intros (l1 & l2 & El & Hfirst) Hb.
  pose proof (ord_NoDup _ _ I) as [_ Hnd]%NoDup_cons.
  pose proof (bi_shadow _ _ I) as HS. rewrite El in HS, Hnd |- *.
  apply NoDup_app in Hnd as (Hn1 & Hn12 & Hn2).
  apply NoDup_cons in Hn2 as [Hk2 Hn2].
  apply StronglySorted_app in HS as (HR & HS1 & HS2).
  apply StronglySorted_cons in HS2 as [HF HS2]. rewrite Forall_forall in HF.
  assert (∀ i, i ∈ l1 → k ≠ i) as Hk1 by (intros i Hi ->; apply (Hn12 i Hi); list_in).
  assert (∀ i, i ∈ l2 → k ≠ i) as Hk2' by (intros i Hi ->; done).
  assert (∀ i j, k ≠ i → k ≠ j → shadow s i j → shadow s' i j) as Hother.
  { intros i j Hi Hj. unfold shadow.
    destruct (updb_fields i) as (_ & -> & _), (updb_fields j) as (-> & -> & _).
    by rewrite !decide_False. }
  apply StronglySorted_app. split_and!.
  - intros i j Hi [->|Hj]%elem_of_cons.
    + unfold shadow. destruct (updb_fields i) as (_ & -> & _), (updb_fields k) as (_ & -> & _).
      specialize (Hk1 i Hi). repeat case_decide; try done. intros E. by destruct (Hfirst i Hi).
    + apply Hother; auto. apply HR; list_in.
  - eapply SS_transfer; [done|done|]. auto.
  - apply StronglySorted_cons. split; [|eapply SS_transfer; eauto].
    apply Forall_forall. intros j Hj. unfold shadow.
    destruct (updb_fields k) as (_ & -> & _), (updb_fields j) as (-> & -> & _).
    specialize (Hk2' j Hj). repeat case_decide; try done. intros E.
    destruct Hb as [Hb|Hb]; [|exfalso; apply (Hb j); [rewrite El; list_in|done]].
    apply (HF j Hj). congruence.
Qed.

Lemma binv_updb :
  (b_flags x = 0 ∨ b_flags x = B_VALID ∨ b_flags x = Z.lor B_VALID B_DIRTY) →
  0 ≤ b_refcnt x < 65536 → (0 < b_refcnt x → b_flags x ≠ 0) →
  block_ok (b_data x) →
  (b_flags x ≠ 0 → dev_up (bdev s) (b_blockno x) = true) →
  (b_flags x = B_VALID → b_data x = dev_data (bdev s) (b_blockno x)) →
  StronglySorted (shadow s') ord → binv s' ord.
Proof using I Hk Hf.
  intros Hfl Hrc Hrc' Hd Hup Hcl HS. destruct I.
  split; try done.
  - unfold s', updb. simpl. by rewrite length_alter.
  - by apply links_updb.
  - destruct (updb_fields HEAD) as (-> & _ & -> & _). unfold HEAD in *. by rewrite !decide_False by lia.
  - intros i Hi. destruct (updb_fields i) as (-> & _). case_decide; auto.
  - intros i Hi. destruct (updb_fields i) as (-> & _ & -> & _). case_decide; auto.
  - intros i Hi. destruct (updb_fields i) as (_ & _ & _ & ->). case_decide; auto.
  - intros i Hi. destruct (updb_fields i) as (-> & -> & _). case_decide; simpl; auto.
  - intros i Hi. destruct (updb_fields i) as (-> & -> & _ & ->). case_decide; simpl; auto.
Qed.
End update.

(** ** Reading the abstract view off the cache *)

Section view.
Context (s : bio) (ord : list nat) (I : binv s ord).

Lemma bcache_elem x : x ∈ bcache s → ∃ i, (i < S NBUF)%nat ∧ getb s i = x.
Proof using I.
  intros [i Hi]%list_elem_of_lookup. exists i. split.
  - apply lookup_lt_Some in Hi. by rewrite (bi_len _ _ I) in Hi.
  - unfold getb. by rewrite list_lookup_total_alt, Hi.
Qed.

Lemma getb_elem i : (i < S NBUF)%nat → getb s i ∈ bcache s.
Proof using I.
  intros Hi. rewrite <- (bi_len _ _ I) in Hi. unfold getb.
  apply list_elem_of_lookup_total. by exists i.
Qed.

(** Either a valid buffer holds the block, or the device does. *)
Lemma content_case b :
  (∃ i, (i < NBUF)%nat ∧ fl s i ≠ 0 ∧ bno s i = b ∧ content s b = dat s i) ∨
  ((∀ i, (i < NBUF)%nat → bno s i = b → fl s i = 0) ∧ content s b = dev_data (bdev s) b).
Proof using I.
  unfold content. destruct (find _ _) as [x|] eqn:E.
  - left. apply find_some in E as [Hin E]. apply andb_true_iff in E as [Eb Ef].
    apply list_elem_of_In, bcache_elem in Hin as (i & Hi & <-).
    apply Z.eqb_eq in Eb. apply negb_true_iff, Z.eqb_neq in Ef.
    exists i. split_and!; try done.
    assert (i ≠ HEAD); [|unfold HEAD in *; lia]. intros ->. by apply Ef, I.
  - right. split; [|done]. intros i Hi Eb.
    pose proof (find_none _ _ E (getb s i)) as Hn. simpl in Hn.
    apply andb_false_iff in Hn as [Hn|Hn].
    + by apply Z.eqb_neq in Hn.
    + by apply negb_false_iff, Z.eqb_eq in Hn.
    + apply list_elem_of_In, getb_elem. lia.
Qed.

Lemma content_cached i : (i < NBUF)%nat → fl s i ≠ 0 → content s (bno s i) = dat s i.
Proof using I.
  intros Hi Hf. destruct (content_case (bno s i)) as [(j & Hj & Hfj & E & ->)|[Hn _]].
  - f_equal. by eapply valid_unique.
  - by specialize (Hn i Hi eq_refl).
Qed.

Lemma content_uncached b :
  (∀ i, (i < NBUF)%nat → bno s i = b → fl s i = 0) → content s b = dev_data (bdev s) b.
Proof using I.
  intros Hn. destruct (content_case b) as [(j & Hj & Hfj & E & _)|[_ ?]]; [|done].
  by destruct Hfj; apply Hn.
Qed.

Lemma content_ok b : block_ok (content s b).
Proof using I.
  destruct (content_case b) as [(j & Hj & _ & _ & ->)|[_ ->]]; by apply I.
Qed.

Lemma rc_nonneg x : x ∈ bcache s → 0 ≤ b_refcnt x.
Proof using I.
  intros (i & Hi & <-)%bcache_elem.
  destruct (decide (i = HEAD)) as [->|].
  - destruct (bi_head _ _ I) as [_ E]. unfold rc in E. lia.
  - apply (bi_ref _ _ I). unfold HEAD in *. lia.
Qed.

Lemma rc_le_trefs i : (i < NBUF)%nat → rc s i ≤ trefs s.
Proof using I.
  intros Hi. unfold rc, trefs, getb. apply sumz_ge; [apply rc_nonneg|].
  rewrite (bi_len _ _ I). lia.
Qed.

Lemma rc_le_refs i : (i < NBUF)%nat → rc s i ≤ refs s (bno s i).
Proof using I.
  intros Hi. unfold refs.
  pose proof (sumz_ge (λ x, if b_blockno x =? bno s i then b_refcnt x else 0) (bcache s) i) as H.
  cbv beta in H. fold (getb s i) in H. change (b_blockno (getb s i)) with (bno s i) in H.
  rewrite Z.eqb_refl in H. apply H.
  - intros x Hx. destruct (_ =? _); [by apply rc_nonneg|lia].
  - rewrite (bi_len _ _ I). lia.
Qed.

(** With fewer references than buffers, some buffer is unreferenced. *)
Lemma refs_le_trefs b : 0 ≤ refs s b ≤ trefs s.
Proof using I.
  split.
  - apply sumz_nonneg. intros x Hx. pose proof (rc_nonneg x Hx). by destruct (_ =? _).
  - apply sumz_mono. intros x Hx. pose proof (rc_nonneg x Hx). destruct (_ =? _); lia.
Qed.

Lemma free_buffer : trefs s < Z.of_nat NBUF → ∃ i, (i < NBUF)%nat ∧ rc s i = 0.
Proof using I.
  intros Ht.
  destruct (decide (Exists (λ i, rc s i = 0) (seq 0 NBUF))) as [H|H].
  - apply Exists_exists in H as (i & Hi & E). exists i. apply elem_of_seq in Hi. split; [lia|done].
  - exfalso. apply Forall_Exists_neg in H.
    rewrite Forall_forall in H.
    assert (Z.of_nat NBUF ≤ trefs s); [|lia].
    apply sumz_count; [apply rc_nonneg|rewrite (bi_len _ _ I); lia|].
    intros i Hi. assert (rc s i ≠ 0) by (apply H, elem_of_seq; lia).
    pose proof (proj1 (bi_ref _ _ I i Hi)) as ?. unfold rc, getb in *. lia.
Qed.
End view.

Lemma refs_updb s ord k f b :
  binv s ord → (k < NBUF)%nat →
  refs (updb k f s) b =
    refs s b - (if bno s k =? b then rc s k else 0)
             + (if b_blockno (f (getb s k)) =? b then b_refcnt (f (getb s k)) else 0).
Proof. intros I Hk. apply sumz_alter. rewrite (bi_len _ _ I). lia. Qed.

Lemma trefs_updb s ord k f :
  binv s ord → (k < NBUF)%nat → trefs (updb k f s) = trefs s - rc s k + b_refcnt (f (getb s k)).
Proof. intros I Hk. apply sumz_alter. rewrite (bi_len _ _ I). lia. Qed.

Lemma updb_compose k f g s : updb k f (updb k g s) = updb k (f ∘ g) s.
Proof. unfold updb. simpl. by rewrite list_alter_alter_eq. Qed.

Lemma updb_ext k f g s : f (getb s k) = g (getb s k) → updb k f s = updb k g s.
Proof.
  intros E. unfold updb. f_equal. apply list_alter_ext; [|done].
  intros x Hx. unfold getb in E. rewrite list_lookup_total_alt, Hx in E. done.
Qed.

Lemma putb_eq k f s : putb k f s = Ret tt (updb k f s).
Proof. done. Qed.

(** ** Writing a dirty buffer back, and loading a buffer *)

Definition writeback (k : nat) (s : bio) : bio :=
  updb k (set_flags B_VALID)
    (mkBio (mkDevice (upd (dev_data (bdev s)) (bno s k) (dat s k)) (dev_up (bdev s))) (bcache s)).

Definition load (k : nat) (b r : Z) (s : bio) : bio :=
  updb k (λ x, mkBuf B_VALID b r (b_prev x) (b_next x) (dev_data (bdev s) b)) s.

Lemma blkrw_dirty s ord k :
  binv s ord → (k < NBUF)%nat → fl s k = Z.lor B_VALID B_DIRTY → blkrw k s = Ret tt (writeback k s).
Proof.
  intros I Hk Hf. unfold blkrw, gets, bind. unfold fl in Hf. rewrite Hf. simpl.
  unfold write_block. fold (bno s k). rewrite (bi_up _ _ I) by (done || by unfold fl; rewrite Hf). simpl.
  rewrite putb_eq. f_equal. unfold writeback.
  change (mkBio ?d (alter ?g k (bcache s))) with (updb k g (mkBio d (bcache s))).
  rewrite updb_compose. apply updb_ext. unfold getb in *. simpl. unfold compose. simpl. by rewrite Hf.
Qed.

Lemma blkrw_invalid s k :
  length (bcache s) = S NBUF → (k < NBUF)%nat → fl s k = 0 → dev_up (bdev s) (bno s k) = true →
  blkrw k s = Ret tt (load k (bno s k) (rc s k) s).
Proof.
  intros Hl Hk Hf Hup. unfold blkrw, gets, bind. unfold fl in Hf. rewrite Hf. simpl.
  unfold read_block. fold (bno s k). rewrite Hup. simpl. unfold ret. rewrite putb_eq. f_equal.
  unfold load. change (mkBio (bdev s) (alter ?f k (bcache s))) with (updb k f s).
  rewrite updb_compose. apply updb_ext. unfold compose, set_flags, set_data. simpl.
  by rewrite Hf.
Qed.

(** The parts of the abstract view that are unchanged by an operation. *)
Record same_view (s s' : bio) : Prop := {
  sv_content : ∀ b, content s' b = content s b;
  sv_refs : ∀ b, refs s' b = refs s b;
  sv_trefs : trefs s' = trefs s;
  sv_up : dev_up (bdev s') = dev_up (bdev s);
  sv_handle : ∀ i b, handle s i b → handle s' i b;
}.

#[export] Instance same_view_preorder : PreOrder same_view.
Proof.
  split.
  - intros s. by split.
  - intros s1 s2 s3 [] []. split; naive_solver congruence.
Qed.

Lemma writeback_ok s ord k :
  binv s ord → (k < NBUF)%nat → fl s k = Z.lor B_VALID B_DIRTY →
  binv (writeback k s) ord ∧ same_view s (writeback k s) ∧
  fl (writeback k s) k = B_VALID ∧ (∀ j, bno (writeback k s) j = bno s j ∧ rc (writeback k s) j = rc s j) ∧
  (∀ j, k ≠ j → fl (writeback k s) j = fl s j).
Proof.
  intros I Hk Hf.
  set (s1 := mkBio (mkDevice (upd (dev_data (bdev s)) (bno s k) (dat s k)) (dev_up (bdev s))) (bcache s)).
  assert (length (bcache s1) = S NBUF) as Hl by apply I.
  assert (∀ j, getb (writeback k s) j = if decide (k = j) then set_flags B_VALID (getb s k) else getb s j) as G.
  { intros j. unfold writeback. by rewrite getb_updb. }
  assert (∀ j, fl (writeback k s) j = if decide (k = j) then B_VALID else fl s j) as Gf.
  { intros j. unfold fl. rewrite G. by case_decide; subst. }
  assert (∀ j, bno (writeback k s) j = bno s j ∧ rc (writeback k s) j = rc s j ∧ dat (writeback k s) j = dat s j) as Gb.
  { intros j. unfold bno, rc, dat. rewrite G. by case_decide; subst. }
  assert (binv (writeback k s) ord) as I'.
  { split.
    - unfold writeback, updb. simpl. rewrite length_alter. apply I.
    - apply I.
    - unfold writeback. apply links_updb; [done|done|done|]. apply I.
    - rewrite Gf. destruct (Gb HEAD) as (_ & -> & _). unfold HEAD in *. rewrite decide_False by lia. apply I.
    - intros i Hi. rewrite Gf. case_decide; [auto|by apply I].
    - intros i Hi. rewrite Gf. destruct (Gb i) as (_ & -> & _). split; [by apply I|].
      case_decide; [done|by apply I].
    - pose proof (ord_NoDup _ _ I) as [_ Hnd]%NoDup_cons.
      apply (SS_transfer (shadow s)); [done|apply I|]. intros i j _ _ _ HR.
      unfold shadow. destruct (Gb i) as (-> & _), (Gb j) as (-> & _). rewrite Gf.
      intros E. case_decide; [|by apply HR]. subst. specialize (HR E). by rewrite Hf in HR.
    - intros i Hi. destruct (Gb i) as (_ & _ & ->). by apply I.
    - intros i Hi. rewrite Gf. destruct (Gb i) as (-> & _). simpl.
      intros Hi'. apply I; [done|]. case_decide; [|done]. subst. by rewrite Hf.
    - intros i Hi. rewrite Gf. destruct (Gb i) as (-> & _ & ->). simpl. unfold upd.
      case_decide as Hki; [subst; by rewrite Z.eqb_refl|]. intros Hv.
      destruct (Z.eqb_spec (bno s i) (bno s k)) as [E|E]; [|by apply I].
      exfalso. apply Hki. symmetry. apply (valid_unique _ _ I); [done|done|by rewrite Hv|by rewrite Hf|done].
    - intros b. simpl. unfold upd. destruct (_ =? _); by apply I. }
  split; [done|]. split; [split|].
  - intros b. destruct (content_case _ _ I' b) as [(i & Hi & Hfi & Eb & ->)|[Hn ->]].
    + destruct (Gb i) as (E1 & _ & ->). rewrite E1 in Eb. subst b. symmetry.
      apply (content_cached _ _ I); [done|]. rewrite Gf in Hfi. case_decide; [subst; by rewrite Hf|done].
    + assert (b ≠ bno s k) as Hb.
      { intros ->. specialize (Hn k Hk). rewrite Gf in Hn. case_decide; [|done].
        destruct (Gb k) as (E & _). by specialize (Hn E). }
      simpl. rewrite upd_ne by done. symmetry. apply (content_uncached _ _ I).
      intros i Hi E. specialize (Hn i Hi). rewrite Gf in Hn. destruct (Gb i) as (E1 & _).
      case_decide; [subst; congruence|]. apply Hn. congruence.
  - intros b. unfold refs. apply sumz_alter_same; [simpl; rewrite (bi_len _ _ I); lia|done].
  - apply sumz_alter_same; [simpl; rewrite (bi_len _ _ I); lia|done].
  - done.
  - intros i b (Hi & Eb & Hr). unfold handle. destruct (Gb i) as (-> & -> & _). done.
  - split; [rewrite Gf; by rewrite decide_True|]. split.
    + intros j. by destruct (Gb j) as (-> & -> & _).
    + intros j Hj. rewrite Gf. by rewrite decide_False.
Qed.

Lemma first_of_shadow s ord k :
  binv s ord → first_of s ord k (bno s k) → fl s k = 0 →
  ∀ j, (j < NBUF)%nat → bno s j = bno s k → fl s j = 0.
Proof.
  intros I (l1 & l2 & El & Hfirst) Hf j Hj E. pose proof (bi_shadow _ _ I) as HS.
  apply (ord_lt _ _ I) in Hj. rewrite El in Hj, HS.
  apply StronglySorted_app in HS as (_ & _ & HS). apply StronglySorted_cons in HS as [HF _].
  rewrite Forall_forall in HF.
  apply elem_of_app in Hj as [Hj|Hj]; [by destruct (Hfirst j Hj)|].
  apply elem_of_cons in Hj as [->|Hj]; [done|]. by apply (HF j Hj).
Qed.

Lemma load_ok s ord k b r :
  binv s ord → (k < NBUF)%nat → fl s k ≠ Z.lor B_VALID B_DIRTY → 1 ≤ r < 65536 →
  dev_up (bdev s) b = true → first_of s ord k b →
  (b = bno s k ∧ fl s k = 0 ∨ ∀ j, j ∈ ord → bno s j ≠ b) →
  binv (load k b r s) ord ∧ (∀ b', content (load k b r s) b' = content s b') ∧
  handle (load k b r s) k b ∧ (∀ i b', i ≠ k → handle s i b' → handle (load k b r s) i b').
Proof.
  intros I Hk Hf Hr Hup Hfirst Hb.
  assert (keeps_links (λ x, mkBuf B_VALID b r (b_prev x) (b_next x) (dev_data (bdev s) b))) as Hkl by done.
  pose proof (updb_fields _ _ I k Hk (λ x, mkBuf B_VALID b r (b_prev x) (b_next x) (dev_data (bdev s) b))) as F.
  simpl in F. fold (load k b r s) in F.
  assert (∀ j, (j < NBUF)%nat → bno s j = b → fl s j = 0) as Hunc.
  { intros j Hj E. destruct Hb as [[-> Hz]|Hb].
    - by eapply first_of_shadow.
    - destruct (Hb j); [by apply (ord_lt _ _ I)|done]. }
  assert (binv (load k b r s) ord) as I'.
  { apply (binv_updb _ _ I k Hk _ Hkl); simpl; auto; try lia.
    - apply I.
    - apply shadow_first; simpl; auto. destruct Hb as [[-> _]|Hb]; auto. }
  split_and!; [done|..].
  - intros b'. destruct (decide (b' = b)) as [->|Hne].
    { rewrite (content_uncached _ _ I) by done.
      destruct (F k) as (Ff & Eb & _ & Ed). destruct (decide (k = k)); [|done].
      pose proof (content_cached _ _ I' k Hk) as Hc. rewrite Ff, Eb, Ed in Hc. by apply Hc. }
    destruct (content_case _ _ I b') as [(i & Hi & Hfi & Eb & ->)|[Hn ->]].
    + destruct (F i) as (Ff & Eb' & _ & Ed). destruct (decide (k = i)) as [->|Hki].
      * rewrite (bi_clean _ _ I i Hi), Eb.
        2:{ destruct (bi_flags _ _ I i Hi) as [?|[?|?]]; congruence. }
        apply (content_uncached _ _ I'). intros j Hj E.
        destruct (F j) as (-> & Ej & _). rewrite Ej in E. case_decide; [congruence|].
        destruct (decide (fl s j = 0)) as [|Hfj]; [done|].
        assert (i = j); [|congruence]. apply (valid_unique _ _ I); auto. congruence.
      * pose proof (content_cached _ _ I' i Hi) as Hc. rewrite Ff, Eb', Ed, Eb in Hc. by apply Hc.
    + apply (content_uncached _ _ I'). intros j Hj E. destruct (F j) as (-> & Ej & _).
      rewrite Ej in E. case_decide; [congruence|]. by apply Hn.
  - unfold handle. destruct (F k) as (_ & -> & -> & _). destruct (decide (k = k)); [|done]. split_and!; [done|done|lia].
  - intros i b' Hik (Hi & Eb & Hri). unfold handle. destruct (F i) as (_ & -> & -> & _).
    destruct (decide (k = i)); [congruence|done].
Qed.

(** An update that keeps the data, the block number and validity keeps the content. *)
Lemma content_updb_same s ord k f b :
  binv s ord → binv (updb k f s) ord → (k < NBUF)%nat →
  b_blockno (f (getb s k)) = bno s k → b_data (f (getb s k)) = dat s k →
  (b_flags (f (getb s k)) = 0 ↔ fl s k = 0) →
  content (updb k f s) b = content s b.
Proof.
  intros I I' Hk Eb Ed Ef. pose proof (updb_fields _ _ I k Hk f) as F.
  destruct (content_case _ _ I b) as [(i & Hi & Hfi & <- & ->)|[Hn ->]].
  - destruct (F i) as (F1 & F2 & _ & F3).
    pose proof (content_cached _ _ I' i Hi) as Hc. rewrite F1, F2, F3 in Hc.
    case_decide; [subst|by apply Hc]. rewrite Eb, Ed in Hc. apply Hc. by rewrite Ef.
  - apply (content_uncached _ _ I'). intros j Hj. destruct (F j) as (-> & -> & _).
    case_decide; [subst|by apply Hn]. rewrite Eb. intros. apply Ef. by apply Hn.
Qed.

(** ** The walks of bget() *)

Lemma find_split {A} (f : A → bool) l :
  match find f l with
  | Some k => ∃ l1 l2, l = l1 ++ k :: l2 ∧ f k = true ∧ ∀ j, j ∈ l1 → f j = false
  | None => ∀ j, j ∈ l → f j = false
  end.
Proof.
  induction l as [|x l IH]; simpl; [by intros j ?%not_elem_of_nil|].
  destruct (f x) eqn:E.
  - exists [], l. split_and!; [done|done|]. by intros j ?%not_elem_of_nil.
  - destruct (find f l) as [k|].
    + destruct IH as (l1 & l2 & -> & ? & H). exists (x :: l1), l2. split_and!; [done|done|].
      intros j [->|Hj]%elem_of_cons; auto.
    + intros j [->|Hj]%elem_of_cons; auto.
Qed.

Lemma find_at (f : nat → bool) l1 k l2 :
  f k = true → (∀ j, j ∈ l1 → f j = false) → find f (l1 ++ k :: l2) = Some k.
Proof.
  intros Hk. induction l1 as [|x l1 IH]; intros H; simpl; [by rewrite Hk|].
  rewrite H by list_in. apply IH. intros. apply H. list_in.
Qed.

Lemma find_none_all (f : nat → bool) l : (∀ j, j ∈ l → f j = false) → find f l = None.
Proof.
  induction l as [|x l IH]; intros H; simpl; [done|].
  rewrite H by list_in. apply IH. intros. apply H. list_in.
Qed.

Ltac case_find H k :=
  match goal with
  | |- context [find ?f ?l] => pose proof (find_split f l) as H; destruct (find f l) as [k|]
  end.

Lemma walk_next s ord p : binv s ord → walk b_next p s = Ret (find (λ i, p (getb s i)) ord) s.
Proof.
  intros I. unfold walk, getb. rewrite (scan_next _ _ _ ord); [done|by rewrite (ord_length _ _ I)| |apply I].
  by pose proof (ord_NoDup _ _ I) as [? _]%NoDup_cons.
Qed.

Lemma walk_prev s ord p : binv s ord → walk b_prev p s = Ret (find (λ i, p (getb s i)) (rev ord)) s.
Proof.
  intros I. unfold walk, getb. rewrite (scan_prev _ _ _ ord); [done|by rewrite (ord_length _ _ I)| |apply I].
  by pose proof (ord_NoDup _ _ I) as [? _]%NoDup_cons.
Qed.

(** ** bread() *)

Record acquired (s s' : bio) (b : Z) : Prop := {
  aq_content : ∀ b', content s' b' = content s b';
  aq_refs : ∀ b', refs s' b' = refs s b' + (if b' =? b then 1 else 0);
  aq_trefs : trefs s' = trefs s + 1;
  aq_up : dev_up (bdev s') = dev_up (bdev s);
  aq_handle : ∀ i b', handle s i b' → handle s' i b';
}.

Lemma same_view_acquired s s1 s' b : same_view s s1 → acquired s1 s' b → acquired s s' b.
Proof.
  intros [C R T U H] [C' R' T' U' H']. split.
  - intros. by rewrite C', C.
  - intros. by rewrite R', R.
  - by rewrite T', T.
  - by rewrite U', U.
  - auto.
Qed.

(** Recycling an unreferenced buffer that is not dirty for a block that is not cached. *)
Lemma recycle_load s ord k b :
  binv s ord → (k < NBUF)%nat → rc s k = 0 → fl s k ≠ Z.lor B_VALID B_DIRTY →
  dev_up (bdev s) b = true → (∀ j, j ∈ ord → bno s j ≠ b) →
  binv (load k b 1 s) ord ∧ handle (load k b 1 s) k b ∧ acquired s (load k b 1 s) b.
Proof.
  intros I Hk Hr Hf Hup Hb.
  assert (first_of s ord k b) as Hfst.
  { assert (k ∈ ord) as (l1 & l2 & El)%list_elem_of_split by by apply (ord_lt _ _ I).
    exists l1, l2. split; [done|]. intros j Hj. apply Hb. rewrite El. list_in. }
  destruct (load_ok s ord k b 1) as (I' & Hc & Hh & Ho); auto; [lia|].
  split_and!; try done. split; try done.
  - intros b'. unfold load. rewrite (refs_updb _ _ _ _ _ I Hk). simpl. rewrite Hr.
    rewrite (Z.eqb_sym b b'). repeat destruct (_ =? _); lia.
  - unfold load. rewrite (trefs_updb _ _ _ _ I Hk). simpl. lia.
  - intros i b' Hi. apply Ho; [|done]. intros ->. destruct Hi as (_ & _ & ?). lia.
Qed.

(** A buffer that a [bget] just recycled is read in by [bread]. *)
Lemma recycle_blkrw s ord k b :
  binv s ord → (k < NBUF)%nat → dev_up (bdev s) b = true →
  (recycle k b ;; ret k) s =
    Ret k (updb k (λ x, set_refcnt 1 (set_flags 0 (set_blockno b x))) s) ∧
  blkrw k (updb k (λ x, set_refcnt 1 (set_flags 0 (set_blockno b x))) s) = Ret tt (load k b 1 s).
Proof.
  intros I Hk Hup. split; [done|].
  set (s1 := updb _ _ _).
  assert (getb s1 k = set_refcnt 1 (set_flags 0 (set_blockno b (getb s k)))) as E.
  { unfold s1. rewrite getb_updb by (apply I || done). by rewrite decide_True. }
  rewrite blkrw_invalid; unfold fl, bno, rc; rewrite ?E; try done.
  - unfold load, s1. rewrite updb_compose. f_equal.
  - unfold s1, updb. simpl. rewrite length_alter. apply I.
Qed.

(** A hit: one more reference, and a read when the buffer was never filled. *)
Lemma bread_hit s ord k l1 l2 b :
  binv s ord → ord = l1 ++ k :: l2 → (∀ j, j ∈ l1 → bno s j ≠ b) → bno s k = b →
  dev_up (bdev s) b = true → trefs s < Z.of_nat NBUF →
  wp (let* x := gets (λ s, getb s k) in
      (if Z.land (b_flags x) B_VALID =? 0 then blkrw k else ret tt) ;; ret k)
     (updb k (λ x, set_refcnt (u16 (b_refcnt x + 1)) x) s)
     (λ k s', binv s' ord ∧ handle s' k b ∧ acquired s s' b).
Proof.
  intros I El Hl1 Hb Hup Ht.
  assert (k < NBUF)%nat as Hk by (apply (ord_lt _ _ I); rewrite El; list_in).
  pose proof (rc_le_trefs _ _ I k Hk) as Hrt. destruct (bi_ref _ _ I k Hk) as [Hrr Hrv].
  assert (Z.of_nat NBUF = 400) as EN by done.
  assert (u16 (rc s k + 1) = rc s k + 1) as Eu by (apply u16_small; lia).
  set (f := λ x, set_refcnt (u16 (b_refcnt x + 1)) x).
  assert (getb (updb k f s) k = f (getb s k)) as E.
  { rewrite getb_updb by (apply I || done). by rewrite decide_True. }
  apply wp_bind, wp_gets. rewrite E. change (b_flags (f (getb s k))) with (fl s k).
  destruct (decide (fl s k = 0)) as [Hz|Hnz].
  - rewrite Hz. change (Z.land 0 B_VALID =? 0) with true. cbv iota.
    apply wp_bind. eapply wp_of_Ret; [|apply wp_ret].
    + rewrite blkrw_invalid; unfold fl, bno, rc; rewrite ?E; try done.
      * unfold updb. simpl. rewrite length_alter. apply I.
      * simpl. fold (bno s k). by rewrite Hb.
    + replace (load k _ _ _) with (load k b (rc s k + 1) s); simpl.
      2:{ unfold load. rewrite updb_compose. apply updb_ext. unfold compose. simpl.
          fold (bno s k) (rc s k). by rewrite Eu, Hb. }
      assert (first_of s ord k b) as Hfst by (exists l1, l2; done).
      destruct (load_ok s ord k b (rc s k + 1)) as (I' & Hc & Hh & Ho); auto; try lia; try (by rewrite Hz).
      split_and!; try done. split; try done.
      * intros b'. unfold load. rewrite (refs_updb _ _ _ _ _ I Hk). simpl.
        rewrite Hb, (Z.eqb_sym b b'). repeat destruct (_ =? _); lia.
      * unfold load. rewrite (trefs_updb _ _ _ _ I Hk). simpl. lia.
      * intros i b' Hi. destruct (decide (i = k)) as [->|]; [|by apply Ho].
        destruct Hi as (_ & E1 & _). congruence.
  - assert ((Z.land (fl s k) B_VALID =? 0) = false) as ->.
    { destruct (bi_flags _ _ I k Hk) as [?|[Ev|Ev]]; [done|by rewrite Ev..]. }
    apply wp_bind, wp_ret, wp_ret.
    pose proof (updb_fields _ _ I k Hk f) as F. simpl in F.
    assert (binv (updb k f s) ord) as I'.
    { apply (binv_updb _ _ I k Hk); simpl; try (by apply I); try done.
      - fold (rc s k). rewrite Eu. lia.
      - by apply shadow_same. }
    split_and!; [done|..].
    + unfold handle. destruct (F k) as (_ & -> & -> & _). destruct (decide (k = k)); [|done].
      fold (bno s k) (rc s k). rewrite Eu. split_and!; [done|done|lia].
    + split; try done.
      * intros b'. by apply (content_updb_same _ _ _ _ _ I I' Hk).
      * intros b'. rewrite (refs_updb _ _ _ _ _ I Hk). simpl. fold (bno s k) (rc s k).
        rewrite Eu, Hb, (Z.eqb_sym b b'). destruct (_ =? _); lia.
      * rewrite (trefs_updb _ _ _ _ I Hk). simpl. fold (rc s k). lia.
      * intros i b' (Hi & E1 & E2). unfold handle. destruct (F i) as (_ & -> & -> & _).
        case_decide; [subst i|done]. fold (bno s k) (rc s k). rewrite Eu. split_and!; [done|done|lia].
Qed.

Lemma wp_recycled s ord k b :
  binv s ord → (k < NBUF)%nat → dev_up (bdev s) b = true → (∀ j, j ∈ ord → bno s j ≠ b) →
  rc s k = 0 → fl s k ≠ Z.lor B_VALID B_DIRTY →
  wp (recycle k b ;; ret k) s (λ k s1,
    wp (let* x := gets (λ s, getb s k) in
        (if Z.land (b_flags x) B_VALID =? 0 then blkrw k else ret tt) ;; ret k) s1
       (λ k s', binv s' ord ∧ handle s' k b ∧ acquired s s' b)).
Proof.
  intros I Hk Hup Hmiss Hr Hf.
  destruct (recycle_blkrw s ord k b I Hk Hup) as [E1 E2].
  eapply wp_of_Ret; [exact E1|]. apply wp_bind, wp_gets.
  rewrite getb_updb by (apply I || done). destruct (decide (k = k)); [|done]. simpl.
  apply wp_bind. eapply wp_of_Ret; [exact E2|]. apply wp_ret. by apply recycle_load.
Qed.

Lemma bread_binv s ord b :
  binv s ord → dev_up (bdev s) b = true → trefs s < Z.of_nat NBUF →
  wp (bread b) s (λ k s', binv s' ord ∧ handle s' k b ∧ acquired s s' b).
Proof.
  intros I Hup Ht. unfold bread, bget. apply wp_bind, wp_bind.
  eapply wp_of_Ret; [by apply walk_next|].
  case_find Hhit k.
  { destruct Hhit as (l1 & l2 & El & Hk%Z.eqb_eq & Hl1).
    apply wp_bind. eapply wp_of_Ret; [apply putb_eq|]. apply wp_ret.
    eapply bread_hit; eauto. intros j Hj. apply Z.eqb_neq, Hl1, Hj. }
  assert (∀ j, j ∈ ord → bno s j ≠ b) as Hmiss by (intros j Hj; by apply Z.eqb_neq, Hhit).
  apply wp_bind. eapply wp_of_Ret; [by apply walk_prev|].
  case_find Hcl k.
  { destruct Hcl as (l1 & l2 & El & Hk & _). apply andb_true_iff in Hk as [Hr%Z.eqb_eq Hf%Z.eqb_eq].
    fold (rc s k) (fl s k) in Hr, Hf.
    assert (k < NBUF)%nat as Hk.
    { apply (ord_lt _ _ I). apply list_elem_of_In, in_rev, list_elem_of_In. rewrite El. list_in. }
    apply (wp_recycled s ord k b); auto. intros Ed. by rewrite Ed in Hf. }
  apply wp_bind. eapply wp_of_Ret; [by apply walk_prev|].
  case_find Hdi k.
  - destruct Hdi as (l1 & l2 & El & Hr%Z.eqb_eq & _).
    fold (rc s k) in Hr. assert (k ∈ rev ord) as Hko by (rewrite El; list_in).
    assert (k < NBUF)%nat as Hk.
    { apply (ord_lt _ _ I). by apply list_elem_of_In, in_rev, list_elem_of_In. }
    assert (fl s k = Z.lor B_VALID B_DIRTY) as Hf.
    { specialize (Hcl k Hko). simpl in Hcl. fold (rc s k) (fl s k) in Hcl. rewrite Hr in Hcl. apply Z.eqb_neq in Hcl.
      destruct (bi_flags _ _ I k Hk) as [E|[E|E]]; [by rewrite E in Hcl..|done]. }
    apply wp_bind. eapply wp_of_Ret; [by eapply blkrw_dirty|].
    destruct (writeback_ok _ _ _ I Hk Hf) as (I' & V & Hf' & Hbr & _).
    eapply wp_mono; [apply (wp_recycled (writeback k s) ord k b); auto|].
    + intros j Hj. destruct (Hbr j) as [-> _]. auto.
    + by destruct (Hbr k) as [_ ->].
    + by rewrite Hf'.
    + intros k' s1 Hw. eapply wp_mono; [exact Hw|]. intros k2 s' (? & ? & A). split_and!; try done.
      by eapply same_view_acquired.
  - exfalso. destruct (free_buffer _ _ I Ht) as (i & Hi & Hr).
    assert (i ∈ rev ord) as Hio.
    { apply list_elem_of_In. rewrite <- in_rev. by apply list_elem_of_In, (ord_lt _ _ I). }
    specialize (Hdi i Hio). simpl in Hdi. by apply Z.eqb_neq in Hdi.
Qed.

(** ** brelse() *)

Record released (s s' : bio) (b : Z) : Prop := {
  rl_content : ∀ b', content s' b' = content s b';
  rl_refs : ∀ b', refs s' b' = refs s b' - (if b' =? b then 1 else 0);
  rl_trefs : trefs s' = trefs s - 1;
  rl_up : dev_up (bdev s') = dev_up (bdev s);
  rl_handle : ∀ i b', handle s i b' → 0 < refs s' b' → handle s' i b';
}.

Lemma handle_refs s ord i b : binv s ord → handle s i b → refs s b = rc s i.
Proof.
  intros I (Hi & Eb & Hr). unfold refs.
  rewrite (sumz_single _ _ i).
  - fold (getb s i). fold (bno s i). by rewrite Eb, Z.eqb_refl.
  - rewrite (bi_len _ _ I). lia.
  - rewrite (bi_len _ _ I). intros j Hj Hne. fold (getb s j). fold (bno s j) (rc s j).
    destruct (Z.eqb_spec (bno s j) b) as [E|]; [|done].
    destruct (decide (j = HEAD)) as [->|Hh]; [apply I|].
    assert (j < NBUF)%nat as Hj' by (unfold HEAD in *; lia).
    destruct (bi_ref _ _ I j Hj') as [Hr1 Hv1]. destruct (bi_ref _ _ I i Hi) as [_ Hv2].
    destruct (decide (rc s j = 0)) as [|]; [done|].
    destruct Hne. apply (valid_unique _ _ I); auto; [apply Hv1; lia|congruence].
Qed.

(** Moving a buffer to the front of the list. *)
Lemma binv_to_front s l1 k l2 :
  binv s (l1 ++ k :: l2) → fl s k ≠ 0 →
  binv (mkBio (bdev s) (link_front k (unlink k (bcache s)))) (k :: l1 ++ l2).
Proof.
  intros I Hf. set (s' := mkBio _ _).
  assert (∀ j, payload (getb s' j) = payload (getb s j)) as P.
  { intros j. apply payload_at. unfold s'. simpl. by rewrite payload_link_front, payload_unlink. }
  assert (∀ j, fl s' j = fl s j ∧ bno s' j = bno s j ∧ rc s' j = rc s j ∧ dat s' j = dat s j) as F.
  { intros j. specialize (P j). by apply payload_inj in P. }
  pose proof (ord_NoDup _ _ I) as Hnd. pose proof (ord_lt _ _ I) as Hlt.
  assert (NoDup (HEAD :: k :: l1 ++ l2)) as Hnd'.
  { eapply NoDup_Permutation_proper; [|exact Hnd]. constructor. apply Permutation_middle. }
  assert (∀ u, u ∈ k :: l1 ++ l2 → (u < NBUF)%nat) as Hlt'.
  { intros u Hu. apply Hlt. list_in. }
  assert (k ∈ l1 ++ k :: l2) as Hk%Hlt by list_in.
  split.
  - simpl. rewrite length_link_front, length_unlink. apply I.
  - rewrite Permutation_middle. apply I.
  - simpl. apply links_link_front; [rewrite length_unlink; apply I|done|done|].
    apply links_unlink; [apply I|done| |apply I]. intros u. apply Hlt.
  - destruct (F HEAD) as (-> & _ & -> & _). apply I.
  - intros i Hi. destruct (F i) as (-> & _). by apply I.
  - intros i Hi. destruct (F i) as (-> & _ & -> & _). by apply I.
  - apply NoDup_cons in Hnd' as [_ Hnd']. pose proof (bi_shadow _ _ I) as HS.
    assert (∀ i j, shadow s i j → shadow s' i j) as Hsh.
    { intros i j. unfold shadow. by destruct (F i) as (_ & -> & _), (F j) as (-> & -> & _). }
    apply StronglySorted_app in HS as (H12 & H1 & H2).
    apply StronglySorted_cons in H2 as [HF H2]. rewrite Forall_forall in HF.
    apply NoDup_cons in Hnd' as [Hk12 Hnd'].
    apply StronglySorted_cons. split.
    + apply Forall_forall. intros j [Hj|Hj]%elem_of_app; [|by apply Hsh, HF].
      apply Hsh. intros E. exfalso. apply Hf. apply (H12 j k); [done|list_in|done].
    + eapply SS_transfer; [done| |intros i j _ _ _; apply Hsh].
      apply StronglySorted_app. split_and!; auto. intros. apply H12; list_in.
  - intros i Hi. destruct (F i) as (_ & _ & _ & ->). by apply I.
  - intros i Hi. destruct (F i) as (-> & -> & _). simpl. by apply I.
  - intros i Hi. destruct (F i) as (-> & -> & _ & ->). simpl. by apply I.
  - apply I.
Qed.

(** brelse() moves the buffer to the front of the list when nobody holds it any more. *)
Lemma brelse_binv s l1 l2 k b :
  let ord := l1 ++ k :: l2 in
  binv s ord → handle s k b →
  wp (brelse k) s (λ _ s', binv s' (if rc s k =? 1 then k :: l1 ++ l2 else ord) ∧ released s s' b).
Proof.
  intros ord I Hh. pose proof (handle_refs _ _ _ _ I Hh) as Hrefs.
  destruct Hh as (Hk & Eb & Hr).
  destruct (bi_ref _ _ I k Hk) as [Hrr Hrv]. specialize (Hrv Hr).
  assert (u16 (rc s k - 1) = rc s k - 1) as Eu by (apply u16_small; lia).
  set (f := λ x, set_refcnt (u16 (b_refcnt x - 1)) x).
  pose proof (updb_fields _ _ I k Hk f) as F. simpl in F. fold (rc s k) (fl s k) (bno s k) in F.
  rewrite Eu in F.
  assert (binv (updb k f s) ord) as I'.
  { apply (binv_updb _ _ I k Hk); simpl; try (by apply I); try done.
    - fold (rc s k). rewrite Eu. lia.
    - by apply shadow_same. }
  assert (released s (updb k f s) b) as R.
  { split; try done.
    - intros b'. by apply (content_updb_same _ _ _ _ _ I I' Hk).
    - intros b'. rewrite (refs_updb _ _ _ _ _ I Hk). simpl. fold (bno s k) (rc s k).
      rewrite Eu, Eb, (Z.eqb_sym b b'). destruct (_ =? _); lia.
    - rewrite (trefs_updb _ _ _ _ I Hk). simpl. fold (rc s k). lia.
    - intros i b' (Hi & E1 & E2). unfold handle. destruct (F i) as (_ & -> & -> & _).
      case_decide; [subst i|done]. rewrite (refs_updb _ _ _ _ _ I Hk). simpl. fold (bno s k) (rc s k).
      assert (b' = b) as -> by congruence. rewrite Eu, Eb, Z.eqb_refl, Hrefs. lia. }
  unfold brelse. apply wp_bind. eapply wp_of_Ret; [apply putb_eq|]. apply wp_bind, wp_gets.
  fold f. fold (rc (updb k f s) k).
  assert (rc (updb k f s) k = rc s k - 1) as Erc.
  { destruct (F k) as (_ & _ & -> & _). by destruct (decide (k = k)). }
  destruct (Z.eqb_spec (rc (updb k f s) k) 0) as [Hz|Hz], (Z.eqb_spec (rc s k) 1); try lia;
    [|by apply wp_ret].
  apply wp_modify.
  assert (fl (updb k f s) k ≠ 0) as Hf'.
  { destruct (F k) as (-> & _). destruct (decide (k = k)); done. }
  pose proof (binv_to_front _ _ _ _ I' Hf') as I''.
  split; [exact I''|]. set (s' := mkBio _ _) in *.
  assert (map payload (bcache s') = map payload (bcache (updb k f s))) as P.
  { unfold s'. simpl. by rewrite payload_link_front, payload_unlink. }
  assert (∀ j, fl s' j = fl (updb k f s) j ∧ bno s' j = bno (updb k f s) j ∧
               rc s' j = rc (updb k f s) j ∧ dat s' j = dat (updb k f s) j) as F'.
  { intros j. pose proof (payload_at _ _ j P) as Pj. by apply payload_inj in Pj. }
  destruct R as [RC RR RT RU RH]. split.
  - intros b'. rewrite <- RC. destruct (content_case _ _ I' b') as [(i & Hi & Hfi & <- & ->)|[Hn ->]].
    + destruct (F' i) as (F1 & <- & _ & <-). apply (content_cached _ _ I''); congruence.
    + apply (content_uncached _ _ I''). intros i Hi. destruct (F' i) as (-> & -> & _). by apply Hn.
  - intros b'. rewrite <- RR. apply sumz_payload; [|done]. intros x y (_ & E1 & E2 & _)%payload_inj. by rewrite E1, E2.
  - rewrite <- RT. apply sumz_payload; [|done]. by intros x y (_ & _ & E & _)%payload_inj.
  - done.
  - intros i b' Hh' Hpos. assert (refs s' b' = refs (updb k f s) b') as E.
    { apply sumz_payload; [|done]. intros x y (_ & E1 & E2 & _)%payload_inj. by rewrite E1, E2. }
    rewrite E in Hpos. destruct (RH _ _ Hh' Hpos) as (? & ? & ?). unfold handle.
    by destruct (F' i) as (_ & -> & -> & _).
Qed.

Lemma brelse_bok s k b :
  bok s → handle s k b → wp (brelse k) s (λ _ s', bok s' ∧ released s s' b).
Proof.
  intros [ord I] Hh.
  assert (k ∈ ord) as (l1 & l2 & ->)%list_elem_of_split by (apply (ord_lt _ _ I), Hh).
  eapply wp_mono; [by apply brelse_binv|]. intros _ s' [I' R]. split; [by eexists|done].
Qed.

(** ** Changing a block

    The kernel stores into [b->data] and then marks the buffer dirty, with
    [bwrite()] or [log_write()]; the two together change the content. *)

Definition dirty_with (d : list Z) (x : buf) : buf :=
  set_flags (u8 (Z.lor (b_flags x) B_DIRTY)) (set_data d x).

Record written (s s' : bio) (b : Z) (d : list Z) : Prop := {
  wr_content : ∀ b', content s' b' = if b' =? b then d else content s b';
  wr_refs : ∀ b', refs s' b' = refs s b';
  wr_trefs : trefs s' = trefs s;
  wr_up : dev_up (bdev s') = dev_up (bdev s);
  wr_handle : ∀ i b', handle s i b' → handle s' i b';
}.

Lemma dirty_with_ok s ord k b d :
  binv s ord → handle s k b → block_ok d →
  binv (updb k (dirty_with d) s) ord ∧ written s (updb k (dirty_with d) s) b d.
Proof.
  intros I (Hk & Eb & Hr) Hd.
  destruct (bi_ref _ _ I k Hk) as [Hrr Hrv]. specialize (Hrv Hr).
  assert (u8 (Z.lor (fl s k) B_DIRTY) = Z.lor B_VALID B_DIRTY) as Ef.
  { destruct (bi_flags _ _ I k Hk) as [E|[E|E]]; [done|by rewrite E..]. }
  pose proof (updb_fields _ _ I k Hk (dirty_with d)) as F. simpl in F.
  fold (rc s k) (fl s k) (bno s k) in F. rewrite Ef in F.
  assert (binv (updb k (dirty_with d) s) ord) as I'.
  { apply (binv_updb _ _ I k Hk); simpl; fold (fl s k); rewrite ?Ef; try (by apply I); auto; try done.
    - intros _. by apply I.
    - by apply shadow_same. }
  split; [done|]. split.
  - intros b'. destruct (Z.eqb_spec b' b) as [->|Hne].
    + pose proof (content_cached _ _ I' k Hk) as Hc. destruct (F k) as (F1 & F2 & _ & F3).
      rewrite F1, F2, F3 in Hc. destruct (decide (k = k)); [|done]. rewrite Eb in Hc. by apply Hc.
    + destruct (content_case _ _ I b') as [(i & Hi & Hfi & Eb' & ->)|[Hn ->]].
      * pose proof (content_cached _ _ I' i Hi) as Hc. destruct (F i) as (F1 & F2 & _ & F3).
        rewrite F1, F2, F3 in Hc. destruct (decide (k = i)); [subst; congruence|].
        rewrite Eb' in Hc. by apply Hc.
      * apply (content_uncached _ _ I'). intros i Hi. destruct (F i) as (-> & -> & _).
        destruct (decide (k = i)); [subst; congruence|]. by apply Hn.
  - intros b'. rewrite (refs_updb _ _ _ _ _ I Hk). simpl. fold (bno s k) (rc s k). lia.
  - rewrite (trefs_updb _ _ _ _ I Hk). simpl. fold (rc s k). lia.
  - done.
  - intros i b' (Hi & E1 & E2). unfold handle. destruct (F i) as (_ & -> & -> & _).
    case_decide; by subst.
Qed.

(** ** bflush() *)

Definition clean (s : bio) (i : nat) : Prop := fl s i ≠ Z.lor B_VALID B_DIRTY.

Lemma bflush_from_ok s ord bs :
  binv s ord → (∀ i, i ∈ bs → (i < NBUF)%nat) →
  wp (bflush_from bs) s (λ _ s',
    binv s' ord ∧ same_view s s' ∧ (∀ i, i ∈ bs → clean s' i) ∧ (∀ i, clean s i → clean s' i)).
Proof.
  revert s. induction bs as [|k bs IH]; intros s I Hlt.
  { apply wp_ret. split_and!; try done. by intros i ?%not_elem_of_nil. }
  assert (k < NBUF)%nat as Hk by (apply Hlt; list_in).
  assert (∀ i, i ∈ bs → (i < NBUF)%nat) as Hlt' by (intros; apply Hlt; list_in).
  simpl. apply wp_bind, wp_gets. fold (fl s k).
  destruct (decide (fl s k = Z.lor B_VALID B_DIRTY)) as [Hd|Hd].
  - rewrite Hd. change (negb (Z.land _ _ =? 0)) with true. cbv iota. apply wp_bind.
    eapply wp_of_Ret; [by eapply blkrw_dirty|].
    destruct (writeback_ok _ _ _ I Hk Hd) as (I' & V & Hf' & _ & Ho).
    eapply wp_mono; [by apply IH|]. intros _ s' (? & V' & Hc & Hc').
    assert (∀ i, clean s i → clean (writeback k s) i) as Hkeep.
    { intros i Hi. unfold clean. destruct (decide (k = i)) as [<-|]; [by rewrite Hf'|].
      by rewrite Ho. }
    split_and!; [done|by etransitivity| |by auto].
    intros i [->|Hi]%elem_of_cons; [|by auto]. apply Hc'. unfold clean. by rewrite Hf'.
  - assert (negb (Z.land (fl s k) B_DIRTY =? 0) = false) as ->.
    { destruct (bi_flags _ _ I k Hk) as [E|[E|E]]; [by rewrite E..|done]. }
    apply wp_bind, wp_ret. eapply wp_mono; [by apply IH|]. intros _ s' (? & V' & Hc & Hc').
    split_and!; [done|done| |done]. intros i [->|Hi]%elem_of_cons; auto.
Qed.

Lemma bflush_ok s ord :
  binv s ord →
  wp bflush s (λ _ s', binv s' ord ∧ same_view s s' ∧ ∀ b, dev_data (bdev s') b = content s b).
Proof.
  intros I. eapply wp_mono.
  { apply bflush_from_ok; [done|]. intros i Hi%elem_of_seq. lia. }
  intros _ s' (I' & V & Hc & _). split_and!; [done|done|]. intros b.
  rewrite <- (sv_content _ _ V b).
  destruct (content_case _ _ I' b) as [(i & Hi & Hfi & <- & ->)|[_ ->]]; [|done].
  symmetry. apply I'; [done|].
  destruct (bi_flags _ _ I' i Hi) as [E|[E|E]]; [done|done|].
  destruct (Hc i); [|done]. apply elem_of_seq. lia.
Qed.

(** ** binit() *)

(** The cache as the loader leaves it: zero-filled. *)
Definition bss_cache : list buf := replicate (S NBUF) inhabitant.

Lemma foldl_link_front bc n :
  length bc = S NBUF → links bc HEAD [] HEAD → (n ≤ NBUF)%nat →
  links (foldl (λ bc b, link_front b bc) bc (seq 0 n)) HEAD (rev (seq 0 n)) HEAD ∧
  length (foldl (λ bc b, link_front b bc) bc (seq 0 n)) = S NBUF ∧
  map payload (foldl (λ bc b, link_front b bc) bc (seq 0 n)) = map payload bc.
Proof.
  intros Hl Hlinks. induction n as [|n IH]; intros Hn; [done|].
  destruct IH as (L & Hlen & HP); [lia|].
  rewrite seq_S, foldl_app, rev_app_distr.
  cbn [foldl rev app Nat.add]. split; [|split].
  - apply links_link_front; [done| | |done].
    + assert (∀ u, u ∈ rev (seq 0 n) → (u < n)%nat) as Hlt.
      { intros u Hu. apply list_elem_of_In, in_rev, list_elem_of_In, elem_of_seq in Hu. lia. }
      apply NoDup_cons. split.
      { intros [E|Hu]%elem_of_cons; unfold HEAD in *; [lia|]. apply Hlt in Hu. lia. }
      apply NoDup_cons. split; [intros Hu; apply Hlt in Hu; lia|].
      apply NoDup_ListNoDup, NoDup_rev, NoDup_ListNoDup, NoDup_seq.
    + intros u [->|Hu]%elem_of_cons; [lia|].
      apply list_elem_of_In, in_rev, list_elem_of_In, elem_of_seq in Hu. lia.
  - by rewrite length_link_front.
  - by rewrite payload_link_front.
Qed.

Lemma payload_bss bc :
  map payload bc = map payload bss_cache →
  ∀ j, b_flags (bc !!! j) = 0 ∧ b_refcnt (bc !!! j) = 0 ∧ b_data (bc !!! j) = zeros BSIZE ∧
    b_blockno (bc !!! j) = 0.
Proof.
  intros P j. pose proof (payload_at bss_cache _ j P) as Pj. clear P.
  assert (bss_cache !!! j = inhabitant) as E.
  { unfold bss_cache. rewrite list_lookup_total_alt.
    destruct (_ !! j) eqn:E; [|reflexivity]. by apply lookup_replicate in E as [-> _]. }
  rewrite E in Pj. apply payload_inj in Pj as (E1 & E4 & E2 & E3).
  split; [exact E1|]. split; [exact E2|]. split; [exact E3|exact E4].
Qed.

Lemma binv_fresh d bc :
  (∀ b, block_ok (dev_data d b)) → length bc = S NBUF → links bc HEAD (rev (seq 0 NBUF)) HEAD →
  (∀ j, b_flags (bc !!! j) = 0 ∧ b_refcnt (bc !!! j) = 0 ∧ b_data (bc !!! j) = zeros BSIZE ∧ b_blockno (bc !!! j) = 0) →
  binv (mkBio d bc) (rev (seq 0 NBUF)).
Proof.
  intros Hd Hlen L F. split.
  - exact Hlen.
  - symmetry. apply Permutation_rev.
  - exact L.
  - split; apply F.
  - intros i _. left. apply F.
  - intros i _. unfold rc, getb. cbn [bcache]. destruct (F i) as (_ & -> & _). lia.
  - generalize (rev (seq 0 NBUF)). intros l. induction l as [|i l IH]; [constructor|].
    apply StronglySorted_cons. split; [|exact IH]. apply Forall_forall. intros j _ _. apply F.
  - intros i _. destruct (F i) as (_ & _ & E & _). unfold dat, getb. simpl. rewrite E. apply block_ok_zeros.
  - intros i _ Hf. destruct Hf. apply F.
  - intros i _ Hf. unfold fl, getb in Hf. cbn [bcache] in Hf.
    destruct (F i) as (Hf' & _). rewrite Hf' in Hf. discriminate Hf.
  - exact Hd.
Qed.

Lemma binit_run d : ∃ bc,
  binit (mkBio d bss_cache) = Ret tt (mkBio d bc) ∧ length bc = S NBUF ∧
  links bc HEAD (rev (seq 0 NBUF)) HEAD ∧ map payload bc = map payload bss_cache.
Proof.
  pose (bc0 := alter (set_next HEAD) HEAD (alter (set_prev HEAD) HEAD bss_cache)).
  assert (length bss_cache = S NBUF) as Hl by apply length_replicate.
  assert (length bc0 = S NBUF) as Hl0 by (unfold bc0; by rewrite !length_alter).
  assert (links bc0 HEAD [] HEAD) as L0.
  { cbn [links]. unfold bc0. assert (HEAD < S NBUF)%nat by (unfold HEAD; lia).
    rewrite !lookup_total_alter_bc by (rewrite ?length_alter; lia).
    destruct (decide (HEAD = HEAD)) as [_|[]]; [|reflexivity]. split; reflexivity. }
  destruct (foldl_link_front bc0 NBUF Hl0 L0 (le_n _)) as (L & Hlen & P).
  eexists. split; [reflexivity|]. split; [exact Hlen|]. split; [exact L|].
  etransitivity; [exact P|]. unfold bc0. by rewrite !payload_alter.
Qed.

Lemma binit_ok d :
  (∀ b, block_ok (dev_data d b)) →
  wp binit (mkBio d bss_cache) (λ _ s,
    binv s (rev (seq 0 NBUF)) ∧ bdev s = d ∧ trefs s = 0 ∧ ∀ b, content s b = dev_data d b).
Proof.
  intros Hd. destruct (binit_run d) as (bc & E & Hlen & L & P).
  eapply wp_of_Ret; [exact E|]. clear E. pose proof (payload_bss _ P) as F. clear P.
  pose proof (binv_fresh d bc Hd Hlen L F) as I.
  split; [exact I|]. split; [reflexivity|]. split.
  - apply sumz_zero. intros j _. apply F.
  - intros b. apply (content_uncached _ _ I). intros i _ _. apply F.
Qed.
