(* ===== verification/BioProps.v ===== *)
(** * The buffer cache: its theorems

    What kern/bio.c promises, stated on the model of Bio.v through the view of
    BioSpec.v ([content], [refs], [handle]). *)

From S2P Require Import Prelude Bytes Params Store Bio BioList BioSpec.

(** The cache after binit(), on a device [d]. *)
Definition booted (d : device) : bio :=
  match binit (mkBio d bss_cache) with Ret _ s => s | _ => mkBio d bss_cache end.

(** A device of zero blocks that transfers every block but those of [bad]. *)
Definition zero_device (bad : Z → bool) : device := mkDevice (λ _, zeros BSIZE) (λ b, negb (bad b)).

Lemma booted_ok d :
  (∀ b, block_ok (dev_data d b)) →
  binv (booted d) (rev (seq 0 NBUF)) ∧ bdev (booted d) = d ∧ trefs (booted d) = 0 ∧
  ∀ b, content (booted d) b = dev_data d b.
Proof.
  intros Hd. pose proof (binit_ok d Hd) as H. unfold wp in H. unfold booted.
  by destruct (binit (mkBio d bss_cache)).
Qed.

Lemma zero_booted bad :
  bok (booted (zero_device bad)) ∧ bdev (booted (zero_device bad)) = zero_device bad ∧
  trefs (booted (zero_device bad)) = 0 ∧ ∀ b, content (booted (zero_device bad)) b = zeros BSIZE.
Proof.
  destruct (booted_ok (zero_device bad)) as (I & E & T & C); [intros; apply block_ok_zeros|].
  split_and!; [by eexists|done|done|done].
Qed.

Lemma booted_fresh d :
  bdev (booted d) = d ∧ ∀ j, fl (booted d) j = 0 ∧ bno (booted d) j = 0 ∧ rc (booted d) j = 0.
Proof.
  destruct (binit_run d) as (bc & E & _ & _ & P). unfold booted. rewrite E.
  split; [done|]. intros j. destruct (payload_bss _ P j) as (E1 & E2 & _ & E4).
  split; [exact E1|]. split; [exact E4|exact E2].
Qed.

#[global] Opaque booted.

(** A buffer that bget() prefers to reuse. *)
Definition reusable (s : bio) (j : nat) : Prop := rc s j = 0 ∧ fl s j ≠ Z.lor B_VALID B_DIRTY.

Lemma booted_victim d :
  (∀ b, block_ok (dev_data d b)) →
  binv (booted d) (rev (seq 1 (NBUF - 1)) ++ 0%nat :: []) ∧ reusable (booted d) 0.
Proof.
  intros Hd. destruct (booted_ok d Hd) as (I & _). destruct (booted_fresh d) as [_ F].
  split; [exact I|]. destruct (F 0%nat) as (E1 & _ & E2). split; [exact E2|].
  rewrite E1. vm_compute. discriminate.
Qed.

(** The same cache with block [b] read into a buffer. *)
Lemma one_held b :
  ∃ s l1 l2 k, binv s (l1 ++ k :: l2) ∧ handle s k b ∧ rc s k = 1 ∧
    (∀ b, dev_up (bdev s) b = true) ∧ trefs s = 1 ∧ ∀ b, content s b = zeros BSIZE.
Proof.
  destruct (booted_ok (zero_device (λ _, false))) as (I & E & T & C); [intros; apply block_ok_zeros|].
  revert I E T C. generalize (booted (zero_device (λ _, false))) as s0. generalize (rev (seq 0 NBUF)) as ord.
  intros ord s0 I E T C.
  pose proof (bread_binv s0 _ b I) as H. rewrite E, T in H. specialize (H eq_refl eq_refl).
  apply wp_outcome in H as (k & s & _ & I1 & Hh & A).
  assert (k ∈ ord) as (l1 & l2 & ->)%list_elem_of_split by (apply (ord_lt _ _ I1), Hh).
  exists s, l1, l2, k. split_and!; try done.
  - rewrite <- (handle_refs _ _ _ _ I1 Hh), (aq_refs _ _ _ A), Z.eqb_refl.
    pose proof (refs_le_trefs _ _ I b). lia.
  - intros b'. by rewrite (aq_up _ _ _ A), E.
  - rewrite (aq_trefs _ _ _ A). lia.
  - intros b'. by rewrite (aq_content _ _ _ A), C.
Qed.

(** C3.  bread() returns a buffer that holds the block asked for and counts
    one more reference to it; its data is the content of the block, whether it
    was in the cache, had to be read, or had to push out another block; the
    content of every block and every other reference stay as they were. *)
Theorem bread_coherent s b :
  bok s → dev_up (bdev s) b = true → trefs s < Z.of_nat NBUF →
  wp (bread b) s (λ k s',
    bok s' ∧ handle s' k b ∧ b_data (getb s' k) = content s b ∧ acquired s s' b).
Proof.
  intros [ord I] Hup Ht. eapply wp_mono; [by apply bread_binv|].
  intros k s' (I' & Hh & A). split_and!; [by eexists|done| |done].
  destruct Hh as (Hk & <- & Hr). rewrite <- (aq_content _ _ _ A). symmetry.
  apply (content_cached _ _ I'); [done|]. by apply (bi_ref _ _ I').
Qed.

Lemma bread_coherent_witness :
  let s := booted (zero_device (λ _, false)) in
  wp (bread 7) s (λ k s',
    bok s' ∧ handle s' k 7 ∧ b_data (getb s' k) = content s 7 ∧ acquired s s' 7).
Proof.
  intros s. destruct (zero_booted (λ _, false)) as (B & E & T & C).
  apply (bread_coherent s 7); [exact B|unfold s; rewrite E; reflexivity|].
  unfold s. rewrite T. reflexivity.
Defined.

(** brelse() drops one reference and no content; when it was the last one
    the buffer becomes the most recently used one, so that bget() considers it
    last. *)
Theorem brelse_lru s l1 l2 k b :
  binv s (l1 ++ k :: l2) → handle s k b →
  wp (brelse k) s (λ _ s',
    binv s' (if rc s k =? 1 then k :: l1 ++ l2 else l1 ++ k :: l2) ∧ released s s' b).
Proof. apply brelse_binv. Qed.


Section miss.
Context (s : bio) (l1 l2 : list nat) (k : nat) (I : binv s (l1 ++ k :: l2)).
Context (b : Z) (Hmiss : ∀ j, (j < NBUF)%nat → bno s j ≠ b).
Context (Hlast : ∀ j, j ∈ l2 → ¬ reusable s j) (Hk : reusable s k).

Lemma victim_lt : (k < NBUF)%nat.
Proof using I. apply (ord_lt _ _ I). list_in. Qed.

(** On a miss bget() takes the last reusable buffer of the list. *)
Lemma bget_miss :
  bget b s = Ret k (updb k (λ x, set_refcnt 1 (set_flags 0 (set_blockno b x))) s).
Proof using I Hmiss Hlast Hk.
  unfold bget, bind. rewrite (walk_next _ _ _ I), find_none_all.
  2:{ intros j Hj. apply Z.eqb_neq, Hmiss. by apply (ord_lt _ _ I). }
  rewrite (walk_prev _ _ _ I).
  replace (rev (l1 ++ k :: l2)) with (rev l2 ++ k :: rev l1).
  2:{ rewrite rev_app_distr. cbn [rev]. by rewrite <- app_assoc. }
  rewrite find_at; [done|..].
  - destruct Hk as [Hr Hf]. fold (rc s k) (fl s k). rewrite Hr. simpl.
    by destruct (bi_flags _ _ I k victim_lt) as [->|[->|E]].
  - intros j Hj%list_elem_of_In%in_rev%list_elem_of_In. fold (rc s j) (fl s j).
    assert (j < NBUF)%nat as Hjn by (apply (ord_lt _ _ I); list_in).
    destruct (Z.eqb_spec (rc s j) 0) as [Hr|]; [|done]. simpl.
    specialize (Hlast j Hj). destruct (bi_flags _ _ I j Hjn) as [E|[E|E]]; [..|by rewrite E];
      destruct Hlast; split; try done; by rewrite E.
Qed.
End miss.

(** When the block is not cached, bread() gives its buffer to the new
    block: the least recently used one among those that nobody holds and that
    hold no unwritten data. *)
Theorem bread_evicts_lru s l1 k l2 b :
  binv s (l1 ++ k :: l2) → (∀ j, (j < NBUF)%nat → bno s j ≠ b) →
  reusable s k → (∀ j, j ∈ l2 → ¬ reusable s j) → dev_up (bdev s) b = true →
  bread b s = Ret k (load k b 1 s).
Proof.
  intros I Hmiss Hk Hlast Hup. pose proof (victim_lt _ _ _ _ I) as Hkn.
  unfold bread, bind. rewrite (bget_miss _ _ _ _ I _ Hmiss Hlast Hk).
  destruct (recycle_blkrw s _ k b I Hkn Hup) as [_ E]. unfold gets.
  rewrite getb_updb by (apply I || done). rewrite decide_True by done. simpl. by rewrite E.
Qed.


(** A block that the device cannot transfer stops the kernel: bread() of
    an uncached block panics instead of returning a buffer. *)
Theorem bread_device_error s l1 k l2 b :
  binv s (l1 ++ k :: l2) → (∀ j, (j < NBUF)%nat → bno s j ≠ b) →
  reusable s k → (∀ j, j ∈ l2 → ¬ reusable s j) → dev_up (bdev s) b = false →
  bread b s = Panic "blkrw3".
Proof.
  intros I Hmiss Hk Hlast Hup. pose proof (victim_lt _ _ _ _ I) as Hkn.
  unfold bread, bind. rewrite (bget_miss _ _ _ _ I _ Hmiss Hlast Hk).
  unfold gets. rewrite getb_updb by (apply I || done). rewrite decide_True by done. simpl.
  unfold blkrw, bind, gets. rewrite getb_updb by (apply I || done). rewrite decide_True by done.
  simpl. unfold read_block, updb. simpl. by rewrite Hup.
Qed.


(** A block changed with bwrite() is on the device after bflush(), and so
    is every other block as the kernel last saw it. *)
Theorem bwrite_bflush_durable s k b d :
  bok s → handle s k b → block_ok d →
  wp (putb k (set_data d) ;; bwrite k ;; bflush) s (λ _ s',
    bok s' ∧ ∀ b', dev_data (bdev s') b' = if b' =? b then d else content s b').
Proof.
  intros [ord I] Hh Hd. destruct (dirty_with_ok s ord k b d I Hh Hd) as [I' W].
  apply wp_bind. eapply wp_of_Ret; [apply putb_eq|].
  apply wp_bind. eapply wp_of_Ret; [apply putb_eq|]. rewrite updb_compose.
  change (_ ∘ _) with (dirty_with d).
  eapply wp_mono; [by apply bflush_ok|]. intros _ s' (I2 & _ & D). split; [by eexists|].
  intros b'. by rewrite D, (wr_content _ _ _ _ W).
Qed.


(** binit() turns the zeroed cache into an empty cache of NBUF buffers on
    one circular list: nothing is referenced and every block reads as the
    device has it. *)
Theorem binit_establishes d :
  (∀ b, block_ok (dev_data d b)) →
  wp binit (mkBio d bss_cache) (λ _ s,
    binv s (rev (seq 0 NBUF)) ∧ bdev s = d ∧ trefs s = 0 ∧ ∀ b, content s b = dev_data d b).
Proof. apply binit_ok. Qed.

