(* ===== verification/Log.v ===== *)
(** * The log (kern/log.c)

    The log keeps its state beside the buffer cache, in [lstate].  Block
    contents go through [bread]/[brelse] of kern/bio.c; [bdata] and
    [set_bdata] are the reads and writes of [b->data]. *)

From S2P Require Import Prelude Bytes Params Ondisk Bio.

(** ** Data *)

(** struct log, with its in-memory struct logheader *)
Record log := mkLog {
  lg_start : Z;
  lg_size : Z;
  lg_outstanding : Z;
  lg_committing : Z;
  lh_n : Z;
  lh_block : list Z;
}.

Record lstate := mkL { l_bio : bio; l_log : log }.

Definition set_outstanding (v : Z) (l : log) : log :=
  mkLog (lg_start l) (lg_size l) v (lg_committing l) (lh_n l) (lh_block l).
Definition set_committing (v : Z) (l : log) : log :=
  mkLog (lg_start l) (lg_size l) (lg_outstanding l) v (lh_n l) (lh_block l).
Definition set_lh (n : Z) (bs : list Z) (l : log) : log :=
  mkLog (lg_start l) (lg_size l) (lg_outstanding l) (lg_committing l) n bs.

Definition on_bio {A} (m : M bio A) : M lstate A := lift l_bio (λ b s, mkL b (l_log s)) m.
Definition on_log (f : log → log) : M lstate unit := modify (λ s, mkL (l_bio s) (f (l_log s))).

Definition bdata (b : nat) : M lstate (list Z) := gets (λ s, b_data (getb (l_bio s) b)).
Definition set_bdata (b : nat) (d : list Z) : M lstate unit := on_bio (putb b (set_data d)).

(** ** readsb() (kern/fs.c) *)

Definition readsb : M lstate superblock :=
  let* bp := on_bio (bread 1) in
  let* d := bdata bp in
  on_bio (brelse bp) ;;
  ret (sb_of_block d).

(** ** Transactions *)

Definition install_trans : M lstate unit :=
  let* lg := gets l_log in
  for_n (Z.to_nat (lh_n lg)) 0 (λ tail,
    let* lbuf := on_bio (bread (u32 (lg_start lg + tail + 1))) in
    let* dbuf := on_bio (bread (lh_block lg !!! Z.to_nat tail)) in
    let* d := bdata lbuf in
    set_bdata dbuf d ;;
    on_bio (bwrite dbuf) ;;
    on_bio (brelse lbuf) ;;
    on_bio (brelse dbuf)).

(** Copy the [n] block numbers of the on-disk header into [log.lh.block]. *)
Fixpoint read_blocks (d : list Z) (n : nat) (i : Z) (bs : list Z) : option (list Z) :=
  match n with
  | O => Some bs
  | S n =>
      if i <? LOGSIZE
      then read_blocks d n (i + 1) (<[Z.to_nat i := ld32 d (4 + 4 * i)]> bs)
      else None
  end.

Definition read_head : M lstate unit :=
  let* lg := gets l_log in
  let* buf := on_bio (bread (u32 (lg_start lg))) in
  let* d := bdata buf in
  let n := s32 (ld32 d 0) in
  match read_blocks d (Z.to_nat n) 0 (lh_block lg) with
  | None => fault "read_head: log.lh.block[] overrun"
  | Some bs => on_log (set_lh n bs) ;; on_bio (brelse buf)
  end.

(** Store [log.lh] over the bytes of the header block. *)
Fixpoint put_blocks (bs : list Z) (i : Z) (d : list Z) : list Z :=
  match bs with
  | [] => d
  | b :: bs => put_blocks bs (i + 1) (st32 d (4 + 4 * i) b)
  end.
Definition put_head (n : Z) (bs : list Z) (d : list Z) : list Z :=
  put_blocks (take (Z.to_nat n) bs) 0 (st32 d 0 n).

Definition write_head : M lstate unit :=
  let* lg := gets l_log in
  let* buf := on_bio (bread (u32 (lg_start lg))) in
  let* d := bdata buf in
  set_bdata buf (put_head (lh_n lg) (lh_block lg) d) ;;
  on_bio (bwrite buf) ;;
  on_bio (brelse buf).

Definition recover_from_log : M lstate unit :=
  read_head ;;
  install_trans ;;
  on_log (λ l, set_lh 0 (lh_block l) l) ;;
  write_head.

(** The guard [sizeof(struct logheader) >= BSIZE] is false: 4 + 4 * 100 < 512. *)
Definition initlog : M lstate unit :=
  if BSIZE <=? 4 + 4 * LOGSIZE then panic "initlog: too big logheader" else
  let* sb := readsb in
  on_log (λ l, mkLog (s32 (sb_logstart sb)) (s32 (sb_nlog sb)) (lg_outstanding l)
                     (lg_committing l) (lh_n l) (lh_block l)) ;;
  recover_from_log.

(** The wait loop reads nothing that its body changes: it is left at once or never. *)
Definition begin_op : M lstate unit :=
  let* lg := gets l_log in
  if negb (lg_committing lg =? 0) then spin
  else if lh_n lg + (lg_outstanding lg + 1) * MAXOPBLOCKS >? LOGSIZE then spin
  else on_log (λ l, set_outstanding (lg_outstanding l + 1) l).

Definition write_log : M lstate unit :=
  let* lg := gets l_log in
  for_n (Z.to_nat (lh_n lg)) 0 (λ tail,
    let* to := on_bio (bread (u32 (lg_start lg + tail + 1))) in
    let* from := on_bio (bread (lh_block lg !!! Z.to_nat tail)) in
    let* d := bdata from in
    set_bdata to d ;;
    on_bio (bwrite to) ;;
    on_bio (brelse from) ;;
    on_bio (brelse to)).

Definition commit : M lstate unit :=
  let* n := gets (λ s, lh_n (l_log s)) in
  if n >? 0 then
    write_log ;;
    write_head ;;
    install_trans ;;
    on_log (λ l, set_lh 0 (lh_block l) l) ;;
    write_head
  else ret tt.

Definition end_op : M lstate unit :=
  on_log (λ l, set_outstanding (lg_outstanding l - 1) l) ;;
  let* lg := gets l_log in
  if negb (lg_committing lg =? 0) then panic "log.committing" else
  if lg_outstanding lg =? 0 then
    on_log (set_committing 1) ;;
    commit ;;
    on_log (set_committing 0)
  else ret tt.

(** The index the search loop of log_write() stops at. *)
Fixpoint absorb (bs : list Z) (b : Z) : nat :=
  match bs with
  | [] => O
  | x :: bs => if x =? b then O else S (absorb bs b)
  end.

Definition log_write (b : nat) : M lstate unit :=
  let* lg := gets l_log in
  let* bno := gets (λ s, b_blockno (getb (l_bio s) b)) in
  if (lh_n lg >=? LOGSIZE) || (lh_n lg >=? lg_size lg - 1) then panic "too big a transaction" else
  if lg_outstanding lg <? 1 then panic "log_write outside of trans" else
  let i := absorb (take (Z.to_nat (lh_n lg)) (lh_block lg)) bno in
  on_log (set_lh (if Z.of_nat i =? lh_n lg then lh_n lg + 1 else lh_n lg)
                 (<[i := bno]> (lh_block lg))) ;;
  on_bio (putb b (λ x, set_flags (u8 (Z.lor (b_flags x) B_DIRTY)) x)).

Definition lflush : M lstate unit := on_bio bflush.
