(* ===== verification/LogProps.v ===== *)
(** * The log over the buffer cache implements the block store

    [lok] is the invariant of kern/log.c; the [BlockStore] instance at the end
    discharges, for kern/bio.c with kern/log.c on top, what Store.v promises
    to kern/fs.c. *)

From S2P Require Import Prelude Bytes Params Store Ondisk Bio BioList BioSpec BioProps Log.

Definition lh_list (l : log) : list Z := take (Z.to_nat (lh_n l)) (lh_block l).

Record log_ok (l : log) : Prop := {
  lo_len : length (lh_block l) = Z.to_nat LOGSIZE;
  lo_n : 0 ≤ lh_n l ≤ LOGSIZE;
  lo_fit : lh_n l ≤ lg_size l - 1;
  lo_nodup : NoDup (lh_list l);
  lo_start : 0 ≤ lg_start l;
  lo_end : lg_start l + lg_size l ≤ 2147483648;
}.

Definition lup (s : lstate) (b : Z) : bool := dev_up (bdev (l_bio s)) b.
Definition in_area (l : log) (b : Z) : Prop := lg_start l ≤ b < lg_start l + lg_size l.

Record lok (s : lstate) : Prop := {
  lok_bio : bok (l_bio s);
  lok_log : log_ok (l_log s);
  lok_up : ∀ b, b ∈ lh_list (l_log s) → lup s b = true;
}.

(** ** Lifting the buffer cache *)

Lemma lok_bio_step s b' :
  lok s → bok b' → dev_up (bdev b') = dev_up (bdev (l_bio s)) → lok (mkL b' (l_log s)).
Proof.
  intros [Hb Hl Hu] Hb' E. split; [done|done|]. intros b Hin. unfold lup. simpl. rewrite E. by apply Hu.
Qed.

Lemma l_bread s b :
  lok s → lup s b = true → trefs (l_bio s) < Z.of_nat NBUF →
  wp (on_bio (bread b)) s (λ k s',
    lok s' ∧ l_log s' = l_log s ∧ handle (l_bio s') k b ∧ acquired (l_bio s) (l_bio s') b).
Proof.
  intros Hok Hu Ht. apply wp_lift. destruct (lok_bio _ Hok) as [ord I].
  eapply wp_mono; [by eapply bread_binv|]. intros k b' (I' & Hh & A).
  split_and!; try done. apply lok_bio_step; [done|by exists ord|apply A].
Qed.

Lemma l_brelse s k b :
  lok s → handle (l_bio s) k b →
  wp (on_bio (brelse k)) s (λ _ s',
    lok s' ∧ l_log s' = l_log s ∧ released (l_bio s) (l_bio s') b).
Proof.
  intros Hok Hh. apply wp_lift.
  eapply wp_mono; [apply (brelse_bok _ _ b); [apply Hok|done]|]. intros _ b' (Hb & R).
  split_and!; try done. apply lok_bio_step; [done|done|apply R].
Qed.

Lemma l_data s k b :
  lok s → handle (l_bio s) k b → b_data (getb (l_bio s) k) = content (l_bio s) b.
Proof.
  intros Hok (Hk & Eb & Hr). destruct (lok_bio _ Hok) as [ord I].
  rewrite <- Eb. symmetry. apply (content_cached _ _ I); [done|].
  by apply (bi_ref _ _ I).
Qed.

Lemma l_bwrite s k b d :
  lok s → handle (l_bio s) k b → block_ok d →
  wp (set_bdata k d ;; on_bio (bwrite k)) s (λ _ s',
    lok s' ∧ l_log s' = l_log s ∧ written (l_bio s) (l_bio s') b d).
Proof.
  intros Hok Hh Hd. destruct (lok_bio _ Hok) as [ord I].
  eapply wp_of_Ret.
  { unfold set_bdata, on_bio, lift, bind, bwrite. cbn [l_bio l_log]. rewrite !putb_eq. cbn [l_bio l_log].
    rewrite updb_compose. reflexivity. }
  destruct (dirty_with_ok _ _ _ _ _ I Hh Hd) as [I' W]. simpl.
  split_and!; [apply lok_bio_step; [done|by exists ord|apply W]|done|exact W].
Qed.

(** A routine of the log that gives back its buffers and keeps [log] itself. *)
Record quiet (s s' : lstate) : Prop := {
  q_ok : lok s';
  q_log : l_log s' = l_log s;
  q_refs : ∀ b, refs (l_bio s') b = refs (l_bio s) b;
  q_trefs : trefs (l_bio s') = trefs (l_bio s);
  q_up : ∀ b, lup s' b = lup s b;
  q_handle : ∀ k b, handle (l_bio s) k b → handle (l_bio s') k b;
}.

Lemma quiet_refl s : lok s → quiet s s.
Proof. by split. Qed.

Lemma quiet_trans s1 s2 s3 : quiet s1 s2 → quiet s2 s3 → quiet s1 s3.
Proof.
  intros [] [O L R T U K]. split; intros; try done.
  - by rewrite L.
  - by rewrite R.
  - by rewrite T.
  - by rewrite U.
  - auto.
Qed.

Lemma handle_pos s k b : lok s → handle (l_bio s) k b → 0 < refs (l_bio s) b.
Proof.
  intros Hok Hh. destruct (lok_bio _ Hok) as [ord I]. rewrite (handle_refs _ _ _ _ I Hh). apply Hh.
Qed.

(** bread; overwrite; bwrite; brelse. *)
Lemma l_overwrite s b (f : list Z → list Z) :
  lok s → lup s b = true → trefs (l_bio s) < Z.of_nat NBUF →
  block_ok (f (content (l_bio s) b)) →
  wp (let* k := on_bio (bread b) in
      let* d := bdata k in
      set_bdata k (f d) ;; on_bio (bwrite k) ;; on_bio (brelse k)) s
     (λ _ s', quiet s s' ∧ ∀ x, content (l_bio s') x =
                if x =? b then f (content (l_bio s) b) else content (l_bio s) x).
Proof.
  intros Hok Hu Ht Hf. eapply wp_bind_mono; [by apply l_bread|].
  intros k s1 (Hok1 & L1 & Hh1 & A). apply wp_bind, wp_gets.
  rewrite (l_data _ _ b Hok1 Hh1), (aq_content _ _ _ A).
  apply wp_bind_assoc.
  eapply wp_bind_mono; [by apply (l_bwrite _ _ b)|].
  intros _ s2 (Hok2 & L2 & W). pose proof (wr_handle _ _ _ _ W _ _ Hh1) as Hh2.
  eapply wp_mono; [by apply (l_brelse _ _ b)|]. intros _ s3 (Hok3 & L3 & R).
  destruct A, W, R. split; [split|].
  - done.
  - congruence.
  - intros x. rewrite rl_refs, wr_refs, aq_refs. lia.
  - lia.
  - intros x. unfold lup. congruence.
  - intros k' x Hh. apply rl_handle; [by auto|]. rewrite rl_refs, wr_refs, aq_refs.
    pose proof (handle_pos _ _ _ Hok Hh). lia.
  - intros x. by rewrite rl_content, wr_content, aq_content.
Qed.

(** Copy block [src] over block [dst], as the loops of install_trans() and
    write_log() do; they differ in the order of the calls. *)
Lemma l_copy_tail s s2 src dst a b : lok s →
  lok s2 → l_log s2 = l_log s → handle (l_bio s2) a src → handle (l_bio s2) b dst →
  (∀ x, content (l_bio s2) x = content (l_bio s) x) →
  (∀ x, refs (l_bio s2) x = refs (l_bio s) x + (if x =? src then 1 else 0) + (if x =? dst then 1 else 0)) →
  trefs (l_bio s2) = trefs (l_bio s) + 2 → (∀ x, lup s2 x = lup s x) →
  (∀ k x, handle (l_bio s) k x → handle (l_bio s2) k x) →
  wp (let* d := bdata a in set_bdata b d ;; on_bio (bwrite b) ;;
      on_bio (brelse a) ;; on_bio (brelse b)) s2
   (λ _ s', quiet s s' ∧ ∀ x, content (l_bio s') x =
              if x =? dst then content (l_bio s) src else content (l_bio s) x).
Proof.
  intros Hok Hok2 L2 Ha Hb HC HR HT HU HH. apply wp_bind, wp_gets.
  rewrite (l_data _ _ src Hok2 Ha), HC.
  assert (block_ok (content (l_bio s) src)) as Hd.
  { destruct (lok_bio _ Hok) as [ord I]. by eapply content_ok. }
  apply wp_bind_assoc.
  eapply wp_bind_mono; [by apply (l_bwrite _ _ dst)|]. intros _ s3 (Hok3 & L3 & W).
  destruct W. eapply wp_bind_mono; [apply (l_brelse _ _ src); [done|by auto]|].
  intros _ s4 (Hok4 & L4 & R). destruct R.
  assert (handle (l_bio s4) b dst) as Hb4.
  { apply rl_handle; [by auto|]. rewrite rl_refs, wr_refs, HR.
    pose proof (handle_pos _ _ _ Hok2 Hb) as Hp. rewrite HR in Hp. rewrite Z.eqb_refl in *.
    destruct (Z.eqb_spec dst src); [|lia]. subst.
    destruct (lok_bio _ Hok) as [ord I]. unfold refs.
    pose proof (sumz_nonneg (λ x, if b_blockno x =? src then b_refcnt x else 0) (bcache (l_bio s))) as Hn.
    cut (0 ≤ refs (l_bio s) src); [unfold refs; lia|]. apply Hn. intros x Hx.
    destruct (_ =? _); [by eapply rc_nonneg|lia]. }
  eapply wp_mono; [by apply (l_brelse _ _ dst)|]. intros _ s5 (Hok5 & L5 & R). destruct R as [C5 R5 T5 U5 H5].
  split; [split|].
  - done.
  - congruence.
  - intros x. rewrite R5, rl_refs, wr_refs, HR. lia.
  - lia.
  - intros x. rewrite <- HU. unfold lup. congruence.
  - intros k x Hh. pose proof (handle_pos _ _ _ Hok Hh) as Hp. apply H5; [apply rl_handle|].
    + by auto.
    + rewrite rl_refs, wr_refs, HR. destruct (_ =? src), (_ =? dst); lia.
    + rewrite R5, rl_refs, wr_refs, HR. lia.
  - intros x. by rewrite C5, rl_content, wr_content, HC.
Qed.

Lemma l_copy (install : bool) s src dst :
  lok s → lup s src = true → lup s dst = true → trefs (l_bio s) + 2 ≤ Z.of_nat NBUF →
  wp (if install then
        let* a := on_bio (bread src) in let* b := on_bio (bread dst) in
        let* d := bdata a in set_bdata b d ;; on_bio (bwrite b) ;;
        on_bio (brelse a) ;; on_bio (brelse b)
      else
        let* b := on_bio (bread dst) in let* a := on_bio (bread src) in
        let* d := bdata a in set_bdata b d ;; on_bio (bwrite b) ;;
        on_bio (brelse a) ;; on_bio (brelse b)) s
     (λ _ s', quiet s s' ∧ ∀ x, content (l_bio s') x =
                if x =? dst then content (l_bio s) src else content (l_bio s) x).
Proof.
  intros Hok Hu Hv Ht.
  destruct install.
  - eapply wp_bind_mono; [apply l_bread; [done|done|lia]|]. intros a s1 (Hok1 & L1 & Ha & A1).
    destruct A1 as [C1 R1 T1 U1 H1].
    eapply wp_bind_mono; [apply l_bread; [done|unfold lup in *; congruence|lia]|].
    intros b s2 (Hok2 & L2 & Hb & A2). destruct A2 as [C2 R2 T2 U2 H2].
    apply (l_copy_tail s s2 src dst a b Hok); auto; try congruence; try lia.
    + intros x. by rewrite R2, R1.
    + intros x. unfold lup. congruence.
  - eapply wp_bind_mono; [apply l_bread; [done|done|lia]|]. intros b s1 (Hok1 & L1 & Hb & A1).
    destruct A1 as [C1 R1 T1 U1 H1].
    eapply wp_bind_mono; [apply l_bread; [done|unfold lup in *; congruence|lia]|].
    intros a s2 (Hok2 & L2 & Ha & A2). destruct A2 as [C2 R2 T2 U2 H2].
    apply (l_copy_tail s s2 src dst a b Hok); auto; try congruence; try lia.
    + intros x. rewrite R2, R1. lia.
    + intros x. unfold lup. congruence.
Qed.

(** ** Committing a transaction *)

Lemma put_blocks_ok bs i d :
  block_ok d → 0 ≤ i → i + zlen bs ≤ LOGSIZE → block_ok (put_blocks bs i d).
Proof.
  revert i d. induction bs as [|b bs IH]; intros i d Hd Hi Hl; [done|]. simpl.
  unfold zlen in *. simpl in Hl. unfold LOGSIZE in *.
  apply IH; [|lia..]. apply (block_ok_stn 4); [done|lia|unfold BSIZE; lia].
Qed.

Lemma put_head_ok n bs d : block_ok d → n ≤ LOGSIZE → block_ok (put_head n bs d).
Proof.
  intros Hd Hn. apply put_blocks_ok; [by apply (block_ok_stn 4)|done|].
  unfold zlen. rewrite length_take. unfold LOGSIZE in *. lia.
Qed.

Lemma put_blocks_ld0 bs i d :
  zlen d = BSIZE → 0 ≤ i → i + zlen bs ≤ LOGSIZE → ld32 (put_blocks bs i d) 0 = ld32 d 0.
Proof.
  revert i d. induction bs as [|b bs IH]; intros i d Hd Hi Hl; [done|]. simpl.
  unfold zlen in Hl. simpl in Hl. unfold LOGSIZE, BSIZE in *.
  rewrite IH; unfold zlen in *.
  - apply ld32_st32_other; unfold zlen; lia.
  - unfold st32. pose proof (zlen_stn 4 d (4 + 4 * i) b) as E. unfold zlen in E. rewrite E; lia.
  - lia.
  - unfold LOGSIZE. lia.
Qed.

Lemma put_head_n n bs d :
  block_ok d → 0 ≤ n ≤ LOGSIZE → ld32 (put_head n bs d) 0 = n.
Proof.
  intros [Hd _] Hn. unfold put_head. unfold LOGSIZE, BSIZE in *.
  rewrite put_blocks_ld0.
  - rewrite ld32_st32 by lia. apply u32_small. lia.
  - rewrite zlen_st32; unfold BSIZE; lia.
  - lia.
  - unfold zlen. rewrite length_take. unfold LOGSIZE. lia.
Qed.

(** What the loops of a commit rely on. *)
Record committable (s : lstate) : Prop := {
  co_ok : lok s;
  co_out : ∀ b, b ∈ lh_list (l_log s) → ¬ in_area (l_log s) b;
  co_up : ∀ b, in_area (l_log s) b → lup s b = true;
  co_room : trefs (l_bio s) + 2 ≤ Z.of_nat NBUF;
}.

Lemma quiet_committable s s' : committable s → quiet s s' → committable s'.
Proof.
  intros [] []. split; [done|..].
  - by rewrite q_log0.
  - intros b. by rewrite q_log0, q_up0; apply co_up0.
  - lia.
Qed.

Lemma lh_list_at l j :
  log_ok l → 0 ≤ j < lh_n l → lh_list l !! Z.to_nat j = Some (lh_block l !!! Z.to_nat j).
Proof.
  intros [Hlen Hn _ _ _ _] Hj. unfold lh_list, LOGSIZE in *. rewrite lookup_take_lt by lia.
  apply list_lookup_lookup_total_lt. lia.
Qed.

Lemma log_block_in_area l j : log_ok l → 0 ≤ j < lh_n l → in_area l (u32 (lg_start l + j + 1)).
Proof. intros [] Hj. unfold in_area. rewrite u32_small; lia. Qed.

Lemma log_block_small l j : log_ok l → 0 ≤ j < lh_n l → u32 (lg_start l + j + 1) = lg_start l + j + 1.
Proof. intros [] Hj. apply u32_small. lia. Qed.

Lemma write_log_ok s :
  committable s →
  wp write_log s (λ _ s', quiet s s' ∧
    (∀ j, 0 ≤ j < lh_n (l_log s) →
       content (l_bio s') (lg_start (l_log s) + j + 1) = content (l_bio s) (lh_block (l_log s) !!! Z.to_nat j)) ∧
    (∀ x, ¬ (lg_start (l_log s) + 1 ≤ x < lg_start (l_log s) + 1 + lh_n (l_log s)) →
       content (l_bio s') x = content (l_bio s) x)).
Proof.
  intros Hc. pose proof (lok_log _ (co_ok _ Hc)) as Hlo. set (lg := l_log s) in *.
  unfold write_log. apply wp_bind, wp_gets. fold lg.
  eapply wp_mono.
  { apply (wp_for_n _ (λ i s', quiet s s' ∧
      (∀ j, 0 ≤ j < i → content (l_bio s') (lg_start lg + j + 1) = content (l_bio s) (lh_block lg !!! Z.to_nat j)) ∧
      (∀ x, ¬ (lg_start lg + 1 ≤ x < lg_start lg + 1 + i) → content (l_bio s') x = content (l_bio s) x))).
    - intros i s1 Hi (Q & HC1 & HC2). rewrite Z2Nat.id in Hi by apply Hlo.
      pose proof (quiet_committable _ _ Hc Q) as Hc1.
      assert (lh_list lg !! Z.to_nat i = Some (lh_block lg !!! Z.to_nat i)) as Hl by (apply lh_list_at; [done|lia]).
      apply list_elem_of_lookup_2 in Hl. rewrite log_block_small by (done || lia).
      eapply wp_mono.
      { apply (l_copy false); [apply Hc1|..|apply Hc1].
        - apply (lok_up _ (co_ok _ Hc1)). by rewrite (q_log _ _ Q).
        - apply (co_up _ Hc1). rewrite (q_log _ _ Q). fold lg. rewrite <- (log_block_small lg i) by (done || lia).
          apply log_block_in_area; [done|lia]. }
      intros _ s2 (Q2 & HC). split_and!; [by eapply quiet_trans|..].
      + intros j Hj. rewrite HC. destruct (Z.eqb_spec (lg_start lg + j + 1) (lg_start lg + i + 1)) as [E|E].
        * replace j with i by lia. apply HC2. intros Hx. apply (co_out _ Hc _ Hl).
          pose proof (lo_fit _ Hlo). unfold in_area. fold lg. lia.
        * apply HC1. lia.
      + intros x Hx. rewrite HC. rewrite (proj2 (Z.eqb_neq _ _)) by lia. apply HC2. lia.
    - split_and!; [apply quiet_refl, Hc|lia|done]. }
  intros _ s' (Q & HC1 & HC2). rewrite Z.add_0_l, Z2Nat.id in HC1, HC2 by apply Hlo. done.
Qed.

Lemma install_trans_ok s :
  committable s →
  wp install_trans s (λ _ s', quiet s s' ∧
    (∀ j, 0 ≤ j < lh_n (l_log s) →
       content (l_bio s') (lh_block (l_log s) !!! Z.to_nat j) = content (l_bio s) (lg_start (l_log s) + j + 1)) ∧
    (∀ x, x ∉ lh_list (l_log s) → content (l_bio s') x = content (l_bio s) x)).
Proof.
  intros Hc. pose proof (lok_log _ (co_ok _ Hc)) as Hlo. set (lg := l_log s) in *.
  unfold install_trans. apply wp_bind, wp_gets. fold lg.
  eapply wp_mono.
  { apply (wp_for_n _ (λ i s', quiet s s' ∧
      (∀ j, 0 ≤ j < i → content (l_bio s') (lh_block lg !!! Z.to_nat j) = content (l_bio s) (lg_start lg + j + 1)) ∧
      (∀ x, x ∉ lh_list lg → content (l_bio s') x = content (l_bio s) x))).
    - intros i s1 Hi (Q & HC1 & HC2). rewrite Z2Nat.id in Hi by apply Hlo.
      pose proof (quiet_committable _ _ Hc Q) as Hc1.
      assert (lh_list lg !! Z.to_nat i = Some (lh_block lg !!! Z.to_nat i)) as Hl by (apply lh_list_at; [done|lia]).
      pose proof (list_elem_of_lookup_2 _ _ _ Hl) as Hin. rewrite log_block_small by (done || lia).
      assert (in_area lg (lg_start lg + i + 1)) as Ha.
      { rewrite <- (log_block_small lg i) by (done || lia). apply log_block_in_area; [done|lia]. }
      eapply wp_mono.
      { apply (l_copy true); [apply Hc1|..|apply Hc1].
        - apply (co_up _ Hc1). by rewrite (q_log _ _ Q).
        - apply (lok_up _ (co_ok _ Hc1)). by rewrite (q_log _ _ Q). }
      intros _ s2 (Q2 & HC).
      assert (content (l_bio s1) (lg_start lg + i + 1) = content (l_bio s) (lg_start lg + i + 1)) as E1.
      { apply HC2. intros Hx. by apply (co_out _ Hc _ Hx). }
      split_and!; [by eapply quiet_trans|..].
      + intros j Hj. rewrite HC. destruct (Z.eqb_spec (lh_block lg !!! Z.to_nat j) (lh_block lg !!! Z.to_nat i)) as [E|E].
        * assert (lh_list lg !! Z.to_nat j = Some (lh_block lg !!! Z.to_nat i)) as Hl'.
          { rewrite <- E. apply lh_list_at; [done|lia]. }
          pose proof (proj1 (NoDup_alt _) (lo_nodup _ Hlo) _ _ _ Hl' Hl) as E'.
          replace j with i by lia. done.
        * apply HC1. assert (j ≠ i) by (intros ->; done). lia.
      + intros x Hx. rewrite HC. rewrite (proj2 (Z.eqb_neq _ _)) by (intros ->; done). by apply HC2.
    - split_and!; [apply quiet_refl, Hc|lia|done]. }
  intros _ s' (Q & HC1 & HC2). rewrite Z.add_0_l, Z2Nat.id in HC1 by apply Hlo. done.
Qed.

Lemma write_head_ok s :
  committable s →
  wp write_head s (λ _ s', quiet s s' ∧ ∀ x, content (l_bio s') x =
    if x =? lg_start (l_log s)
    then put_head (lh_n (l_log s)) (lh_block (l_log s)) (content (l_bio s) (lg_start (l_log s)))
    else content (l_bio s) x).
Proof.
  intros Hc. pose proof (lok_log _ (co_ok _ Hc)) as Hlo.
  unfold write_head. apply wp_bind, wp_gets.
  assert (u32 (lg_start (l_log s)) = lg_start (l_log s)) as ->.
  { apply u32_small. destruct Hlo. lia. }
  apply l_overwrite.
  - apply Hc.
  - apply (co_up _ Hc). unfold in_area. destruct Hlo. lia.
  - pose proof (co_room _ Hc). lia.
  - apply put_head_ok; [|apply Hlo]. destruct (lok_bio _ (co_ok _ Hc)) as [ord I]. by eapply content_ok.
Qed.

(** Changing only the counters of [log]. *)
Lemma log_ok_counters l o c :
  log_ok l → log_ok (mkLog (lg_start l) (lg_size l) o c (lh_n l) (lh_block l)).
Proof. by intros []. Qed.

Lemma lok_counters s o c :
  lok s → lok (mkL (l_bio s) (mkLog (lg_start (l_log s)) (lg_size (l_log s)) o c
                                    (lh_n (l_log s)) (lh_block (l_log s)))).
Proof. intros [Hb Hl Hu]. split; [done|by apply log_ok_counters|done]. Qed.

Lemma committable_counters s o c :
  committable s →
  committable (mkL (l_bio s) (mkLog (lg_start (l_log s)) (lg_size (l_log s)) o c
                                    (lh_n (l_log s)) (lh_block (l_log s)))).
Proof. intros []. split; [by apply lok_counters|done..]. Qed.

(** Forgetting the transaction. *)
Lemma committable_clear s :
  committable s → committable (mkL (l_bio s) (set_lh 0 (lh_block (l_log s)) (l_log s))).
Proof.
  intros [[Hb Hl Hu] Ho Hup Hr]. destruct Hl. split; try done.
  - split; [done| |].
    + split; simpl; try done; lia || apply NoDup_nil_2.
    + by intros b ?%not_elem_of_nil.
  - by intros b ?%not_elem_of_nil.
Qed.

Record committed (s s' : lstate) : Prop := {
  cm_ok : lok s';
  cm_log : l_log s' = set_lh 0 (lh_block (l_log s)) (l_log s);
  cm_refs : ∀ b, refs (l_bio s') b = refs (l_bio s) b;
  cm_trefs : trefs (l_bio s') = trefs (l_bio s);
  cm_up : ∀ b, lup s' b = lup s b;
  cm_handle : ∀ k b, handle (l_bio s) k b → handle (l_bio s') k b;
  cm_content : ∀ x, ¬ in_area (l_log s) x → content (l_bio s') x = content (l_bio s) x;
}.

Lemma commit_ok s :
  committable s →
  wp commit s (λ _ s', committed s s' ∧
    (0 < lh_n (l_log s) → ld32 (content (l_bio s') (lg_start (l_log s))) 0 = 0)).
Proof.
  intros Hc. pose proof (lok_log _ (co_ok _ Hc)) as Hlo. set (lg := l_log s) in *.
  unfold commit. apply wp_bind, wp_gets. fold lg.
  destruct (Z.gtb_spec (lh_n lg) 0) as [Hn|Hn].
  - eapply wp_bind_mono; [by apply write_log_ok|]. intros _ s1 (Q1 & C1 & D1). fold lg in C1, D1.
    pose proof (quiet_committable _ _ Hc Q1) as Hc1.
    eapply wp_bind_mono; [by apply write_head_ok|]. intros _ s2 (Q2 & C2).
    pose proof (quiet_committable _ _ Hc1 Q2) as Hc2. rewrite (q_log _ _ Q1) in C2. fold lg in C2.
    eapply wp_bind_mono; [by apply install_trans_ok|]. intros _ s3 (Q3 & C3 & D3).
    pose proof (quiet_committable _ _ Hc2 Q3) as Hc3.
    pose proof (quiet_trans _ _ _ (quiet_trans _ _ _ Q1 Q2) Q3) as Q.
    rewrite (q_log _ _ Q2), (q_log _ _ Q1) in C3, D3. fold lg in C3, D3.
    apply wp_bind, wp_modify. pose proof (committable_clear _ Hc3) as Hc4.
    rewrite (q_log _ _ Q) in *. fold lg in Hc4 |- *.
    eapply wp_mono; [by apply write_head_ok|]. intros _ s4 (Q4 & C4). simpl in C4.
    destruct Q, Q4. simpl in *. split; [split|].
    + done.
    + done.
    + intros b. by rewrite q_refs1.
    + congruence.
    + intros b. by rewrite q_up1, <- q_up0.
    + auto.
    + intros x Hx. fold lg in Hx. rewrite C4.
      rewrite (proj2 (Z.eqb_neq _ _)) by (intros ->; apply Hx; unfold in_area; destruct Hlo; lia).
      destruct (decide (x ∈ lh_list lg)) as [Hin|Hnin].
      * apply list_elem_of_lookup in Hin as [i Hi].
        assert (i < length (lh_list lg))%nat as Hlt by by eapply lookup_lt_Some.
        unfold lh_list in Hlt. rewrite length_take in Hlt.
        assert (0 ≤ Z.of_nat i < lh_n lg) as Hi' by lia.
        pose proof (lh_list_at lg _ Hlo Hi') as Hi2. rewrite Nat2Z.id in Hi2.
        rewrite Hi in Hi2. injection Hi2 as ->.
        pose proof (C3 _ Hi') as E3. rewrite Nat2Z.id in E3. rewrite E3, C2.
        rewrite (proj2 (Z.eqb_neq _ _)) by lia. rewrite C1 by done. by rewrite Nat2Z.id.
      * rewrite D3 by done. rewrite C2.
        rewrite (proj2 (Z.eqb_neq _ _)) by (intros ->; apply Hx; unfold in_area; destruct Hlo; lia).
        apply D1. intros Hx'. apply Hx. unfold in_area. destruct Hlo. lia.
    + intros _. rewrite C4, Z.eqb_refl. apply put_head_n; [|unfold LOGSIZE; lia].
      destruct (lok_bio _ (co_ok _ Hc3)) as [ord I]. by eapply content_ok.
  - apply wp_ret. assert (lh_n lg = 0) as E by (destruct Hlo; lia).
    split; [|intros; lia]. split; try done; [apply Hc|]. fold lg. destruct lg. simpl in *. by subst.
Qed.

Lemma begin_op_ok s :
  lg_committing (l_log s) = 0 →
  lh_n (l_log s) + (lg_outstanding (l_log s) + 1) * MAXOPBLOCKS ≤ LOGSIZE →
  begin_op s = Ret tt (mkL (l_bio s) (set_outstanding (lg_outstanding (l_log s) + 1) (l_log s))).
Proof.
  intros Hc Hn. unfold begin_op, gets, bind. rewrite Hc. simpl.
  destruct (Z.gtb_spec (lh_n (l_log s) + (lg_outstanding (l_log s) + 1) * MAXOPBLOCKS) LOGSIZE); [lia|done].
Qed.

Lemma end_op_ok s :
  committable s → lg_committing (l_log s) = 0 →
  wp end_op s (λ _ s',
    lg_committing (l_log s') = 0 ∧ lg_outstanding (l_log s') = lg_outstanding (l_log s) - 1 ∧
    lg_start (l_log s') = lg_start (l_log s) ∧ lg_size (l_log s') = lg_size (l_log s) ∧
    lh_list (l_log s') = (if lg_outstanding (l_log s) =? 1 then [] else lh_list (l_log s)) ∧
    lok s' ∧ (∀ b, refs (l_bio s') b = refs (l_bio s) b) ∧ trefs (l_bio s') = trefs (l_bio s) ∧
    (∀ b, lup s' b = lup s b) ∧ (∀ k b, handle (l_bio s) k b → handle (l_bio s') k b) ∧
    (∀ x, ¬ in_area (l_log s) x → content (l_bio s') x = content (l_bio s) x)).
Proof.
  intros Hc Hcm. unfold end_op. apply wp_bind, wp_modify, wp_bind, wp_gets. simpl. rewrite Hcm. simpl.
  destruct (Z.eqb_spec (lg_outstanding (l_log s) - 1) 0) as [E|E].
  - rewrite (proj2 (Z.eqb_eq _ _)) by lia.
    apply wp_bind, wp_modify. unfold set_outstanding, set_committing; simpl.
    eapply wp_bind_mono; [apply commit_ok; by apply committable_counters|].
    intros _ s1 ([] & _). simpl in *. apply wp_modify. simpl. rewrite cm_log0. simpl.
    split_and!; try done. split; [apply cm_ok0| |].
    + pose proof (lok_log _ cm_ok0) as Hl. rewrite cm_log0 in Hl. by destruct Hl.
    + by intros b ?%not_elem_of_nil.
  - rewrite (proj2 (Z.eqb_neq _ _)) by lia. apply wp_ret. simpl.
    split_and!; try done. apply (lok_counters _ _ _ (co_ok _ Hc)).
Qed.

(** ** log_write() *)

Lemma absorb_spec bs b :
  (absorb bs b < length bs)%nat ∧ bs !! absorb bs b = Some b ∨
  absorb bs b = length bs ∧ b ∉ bs.
Proof.
  induction bs as [|x bs IH]; simpl; [right; split; [done|by apply not_elem_of_nil]|].
  destruct (Z.eqb_spec x b) as [->|Hne]; [left; split; [lia|done]|].
  destruct IH as [[Hlt Hl]|[-> Hn]]; [left; simpl; split; [lia|done]|right].
  split; [done|]. apply not_elem_of_cons. auto.
Qed.

Lemma log_write_list l b :
  log_ok l → lh_n l < LOGSIZE → lh_n l < lg_size l - 1 →
  let i := absorb (lh_list l) b in
  let l' := set_lh (if Z.of_nat i =? lh_n l then lh_n l + 1 else lh_n l) (<[i := b]> (lh_block l)) l in
  log_ok l' ∧ (lh_list l' = lh_list l ∧ b ∈ lh_list l ∨ lh_list l' = lh_list l ++ [b] ∧ b ∉ lh_list l).
Proof.
  intros Hlo Hn1 Hn2 i l'. destruct Hlo.
  assert (length (lh_list l) = Z.to_nat (lh_n l)) as Hlen.
  { unfold lh_list. rewrite length_take, lo_len0. unfold LOGSIZE in *. lia. }
  destruct (absorb_spec (lh_list l) b) as [[Hlt Hl]|[Hi Hnin]]; fold i in Hlt || fold i in Hi.
  - fold i in Hl. assert (l' = l) as ->.
    { unfold l'. rewrite (proj2 (Z.eqb_neq _ _)) by lia.
      rewrite list_insert_id; [by destruct l|].
      unfold lh_list in Hl. by rewrite lookup_take_lt in Hl by lia. }
    split; [by split|]. left. split; [done|]. by eapply list_elem_of_lookup_2.
  - assert (Z.of_nat i = lh_n l) as Ei by lia.
    assert (lh_list l' = lh_list l ++ [b]) as El.
    { unfold l', lh_list at 1. simpl. rewrite (proj2 (Z.eqb_eq _ _)) by done.
      replace (Z.to_nat (lh_n l + 1)) with (S i) by lia.
      rewrite (take_S_r _ _ b).
      - f_equal. unfold lh_list. replace i with (Z.to_nat (lh_n l)) at 1 by lia.
        rewrite take_insert_ge; [done|lia].
      - apply list_lookup_insert_eq. rewrite lo_len0. unfold LOGSIZE in *. lia. }
    split; [split|by right].
    + simpl. by rewrite length_insert.
    + simpl. rewrite (proj2 (Z.eqb_eq _ _)) by done. lia.
    + simpl. rewrite (proj2 (Z.eqb_eq _ _)) by done. lia.
    + rewrite El. apply NoDup_app. split_and!; [done| |apply NoDup_singleton].
      intros x Hx Hx'. list_in.
    + done.
    + done.
Qed.

Lemma log_write_ok s k b d :
  lok s → handle (l_bio s) k b → block_ok d → 1 ≤ lg_outstanding (l_log s) →
  lh_n (l_log s) < LOGSIZE → lh_n (l_log s) < lg_size (l_log s) - 1 →
  wp (set_bdata k d ;; log_write k) s (λ _ s',
    lok s' ∧ written (l_bio s) (l_bio s') b d ∧
    lg_start (l_log s') = lg_start (l_log s) ∧ lg_size (l_log s') = lg_size (l_log s) ∧
    lg_outstanding (l_log s') = lg_outstanding (l_log s) ∧
    lg_committing (l_log s') = lg_committing (l_log s) ∧
    (lh_list (l_log s') = lh_list (l_log s) ∧ b ∈ lh_list (l_log s) ∨
     lh_list (l_log s') = lh_list (l_log s) ++ [b] ∧ b ∉ lh_list (l_log s))).
Proof.
  intros Hok Hh Hd Ho Hn1 Hn2. pose proof Hh as (Hk & Eb & Hr).
  destruct (lok_bio _ Hok) as [ord I].
  destruct (log_write_list (l_log s) b (lok_log _ Hok) Hn1 Hn2) as [Hlo' Hll].
  apply wp_bind. eapply (wp_of_Ret _ _ _ tt (mkL (updb k (set_data d) (l_bio s)) (l_log s))); [done|].
  unfold log_write. apply wp_bind, wp_gets, wp_bind, wp_gets. cbn [l_bio l_log].
  rewrite getb_updb by (apply I || done).
  destruct (decide (k = k)) as [_|[]]; [|done]. cbn [set_data b_blockno]. fold (bno (l_bio s) k). rewrite Eb.
  destruct (Z.geb_spec (lh_n (l_log s)) LOGSIZE); [lia|].
  destruct (Z.geb_spec (lh_n (l_log s)) (lg_size (l_log s) - 1)); [lia|]. cbn [orb].
  destruct (Z.ltb_spec (lg_outstanding (l_log s)) 1); [lia|].
  apply wp_bind, wp_modify. cbn [l_bio l_log]. apply wp_lift. cbn [l_bio l_log].
  eapply wp_of_Ret; [rewrite putb_eq, updb_compose; reflexivity|].
  destruct (dirty_with_ok _ _ _ _ _ I Hh Hd) as [I' W].
  cbn [l_bio l_log]. fold (lh_list (l_log s)).
  split_and!; try done. split.
  - exists ord. exact I'.
  - exact Hlo'.
  - intros x Hx. unfold lup. cbn [l_bio]. change (bdev (updb k ?f ?t)) with (bdev t).
    cbn [l_log] in Hx.
    assert (x ∈ lh_list (l_log s) ∨ x = b) as [Hin| ->].
    { destruct Hll as [[E _]|[E _]]; rewrite E in Hx; [by left|].
      apply elem_of_app in Hx as [?|Hx]; [by left|right; list_in]. }
    + by apply (lok_up _ Hok).
    + rewrite <- Eb. apply (bi_up _ _ I); [done|]. by apply (bi_ref _ _ I).
Qed.

(** ** The instance *)

#[export] Instance log_ops : BlockOps lstate := {
  op_bread b := on_bio (bread b);
  op_brelse k := on_bio (brelse k);
  op_data s k := b_data (getb (l_bio s) k);
  op_set_data k d := set_bdata k d;
  op_log_write k := log_write k;
  op_begin_op := begin_op;
  op_end_op := end_op;
  op_bflush := lflush;
}.

#[export] Instance log_view : BlockView lstate := {
  ok s := lok s ∧ lg_committing (l_log s) = 0;
  disk s := content (l_bio s);
  href s := refs (l_bio s);
  htot s := trefs (l_bio s);
  hold s := handle (l_bio s);
  up s := lup s;
  logged s := list_to_set (lh_list (l_log s));
  cap s := Z.min LOGSIZE (lg_size (l_log s) - 1);
  in_op s := lg_outstanding (l_log s);
  logarea s := in_area (l_log s);
}.

Lemma size_logged s : lok s → Z.of_nat (size (logged s)) = lh_n (l_log s).
Proof.
  intros Hok. destruct (lok_log _ Hok). simpl. rewrite size_list_to_set by done.
  unfold lh_list. rewrite length_take, lo_len0. unfold LOGSIZE in *. lia.
Qed.

#[export] Instance log_store : BlockStore lstate.
Proof.
  split.
  - intros s b [Hok _]. destruct (lok_bio _ Hok) as [ord I]. by eapply content_ok.
  - intros s k b [Hok _]. by apply handle_pos.
  - intros s k b [Hok _]. by apply l_data.
  - intros s b [Hok Hc] Hu Ht. eapply wp_mono; [by apply l_bread|].
    intros k s' (Hok' & L & Hh & []). simpl. rewrite L. split_and!; try done.
    split; try done. split; try done; simpl; rewrite ?L; try done. intros x. unfold lup. congruence.
  - intros s k b [Hok Hc] Hh. eapply wp_mono; [by apply (l_brelse _ _ b)|].
    intros _ s' (Hok' & L & []). simpl. rewrite L. split_and!; try done.
    split; try done. split; try done; simpl; rewrite ?L; try done. intros x. unfold lup. congruence.
  - intros s k b d [Hok Hc] Hh Hd Ho Hcap. pose proof (size_logged s Hok) as Hsz.
    rewrite Hsz in Hcap. simpl in Hcap, Ho.
    eapply wp_mono; [apply (log_write_ok _ _ b); auto; lia|].
    intros _ s' (Hok' & [] & L1 & L2 & L3 & L4 & L5). simpl. split_and!; [done|congruence|].
    split; simpl; try done; try congruence.
    + intros x. unfold lup. congruence.
    + destruct L5 as [[-> Hin]|[-> _]]; [set_solver|]. rewrite list_to_set_app_L. set_solver.
    + intros x. unfold in_area. by rewrite L1, L2.
  - intros s [Hok Hc] Hn. rewrite (size_logged s Hok) in Hn. simpl in *.
    eapply wp_of_Ret; [by apply begin_op_ok|]. simpl. split_and!; try done.
    by apply (lok_counters _ _ _ Hok).
  - intros s [Hok Hc] Ho Ht Hout Hup. simpl in *.
    eapply wp_mono; [apply end_op_ok; [|done]|].
    + split; try done. intros b Hb. apply Hout. by apply elem_of_list_to_set.
    + intros _ s' (H1 & H2 & H3 & H4 & H5 & H6 & H7 & H8 & H9 & H10 & H11).
      split_and!; try done.
      * rewrite H5. by destruct (_ =? _).
      * by rewrite H4.
      * intros b. unfold in_area. by rewrite H3, H4.
Qed.

(** * The log: its theorems

    Transactions, commit and recovery of kern/log.c. *)

(** ** The typical use of log_write()

    The sequence that the comment above log_write() gives: read the block,
    change its data, log it, release it. *)
Section update.
Context {S : Type} `{BlockStore S}.

Definition update_block (b : Z) (d : list Z) : M S unit :=
  let* k := op_bread b in
  op_set_data k d ;;
  op_log_write k ;;
  op_brelse k.

Lemma update_block_ok s b d :
  ok s → up s b = true → htot s < Z.of_nat NBUF → block_ok d → 1 ≤ in_op s →
  Z.of_nat (size (logged s)) < cap s →
  wp (update_block b d) s (λ _ s',
    balanced s s' ∧ (∀ x, disk s' x = if x =? b then d else disk s x) ∧
    logged s' = {[b]} ∪ logged s).
Proof.
  intros Hok Hu Ht Hd Hi Hc. unfold update_block.
  eapply wp_bind_mono; [by apply law_bread|]. intros k s1 (Hok1 & Hh & G).
  apply wp_bind_assoc. eapply wp_bind_mono.
  { apply (law_write s1 k b d); try done.
    - by rewrite (sl_in_op _ _ (got_log _ _ _ G)).
    - by rewrite (sl_logged _ _ (got_log _ _ _ G)), (sl_cap _ _ (got_log _ _ _ G)). }
  intros _ s2 [Hok2 St]. eapply wp_mono; [apply (law_brelse s2 k b); [done|by apply St]|].
  intros _ s3 [Hok3 D]. by eapply got_stored_dropped.
Qed.

Fixpoint update_blocks (ws : list (Z * list Z)) : M S unit :=
  match ws with
  | [] => ret tt
  | (b, d) :: ws => update_block b d ;; update_blocks ws
  end.

(** The disk that the writes [ws] lead to, in order. *)
Definition apply_writes (D : Z → list Z) (ws : list (Z * list Z)) : Z → list Z :=
  foldl (λ D '(b, d), upd D b d) D ws.

Lemma apply_writes_ext D D' ws b :
  (∀ x, D x = D' x) → apply_writes D ws b = apply_writes D' ws b.
Proof.
  revert D D'. induction ws as [|[b' d] ws IH]; intros D D' E; simpl; [done|].
  apply IH. intros x. unfold upd. by rewrite E.
Qed.

Definition loggable (s : S) (w : Z * list Z) : Prop :=
  up s w.1 = true ∧ ¬ logarea s w.1 ∧ block_ok w.2.

Lemma loggable_frame s s' ws :
  (∀ b, up s' b = up s b) → (∀ b, logarea s' b ↔ logarea s b) →
  Forall (loggable s) ws → Forall (loggable s') ws.
Proof.
  intros U L Hws. eapply Forall_impl; [exact Hws|]. intros [b d] (Hu & Hl & Hd).
  split_and!; [by rewrite U|by rewrite L|done].
Qed.

Lemma update_blocks_ok ws s :
  ok s → Forall (loggable s) ws → htot s < Z.of_nat NBUF → 1 ≤ in_op s →
  Z.of_nat (size (logged s)) + zlen ws ≤ cap s →
  wp (update_blocks ws) s (λ _ s',
    balanced s s' ∧ (∀ x, disk s' x = apply_writes (disk s) ws x) ∧
    logged s' = list_to_set (map fst ws) ∪ logged s).
Proof.
  revert s. induction ws as [|[b d] ws IH]; intros s Hok Hws Ht Hi Hc.
  { apply wp_ret. split_and!; [by apply balanced_refl|done|clear; set_solver]. }
  apply Forall_cons in Hws as [[Hu [Hl Hd]] Hws]. simpl in *. unfold zlen in *. simpl in *.
  eapply wp_bind_mono; [apply update_block_ok; auto; lia|].
  intros _ s1 (B1 & D1 & L1). eapply wp_mono.
  { apply IH.
    - apply B1.
    - eapply loggable_frame; [apply B1..|done].
    - by rewrite (ba_htot _ _ B1).
    - by rewrite (ba_in_op _ _ B1).
    - rewrite L1, (ba_cap _ _ B1). pose proof (size_union_alt {[b]} (logged s)) as E.
      assert (size (logged s ∖ {[b]}) ≤ size (logged s))%nat by apply subseteq_size, subseteq_difference_l, reflexivity.
      rewrite size_singleton in E. lia. }
  intros _ s2 (B2 & D2 & L2). split_and!; [by etrans| |rewrite L2, L1; clear; set_solver].
  intros x. rewrite D2. apply apply_writes_ext. intros y. rewrite D1. done.
Qed.
End update.

(** ** Transactions *)

(** A log with nothing in it and no system call in progress. *)
Record idle (s : lstate) : Prop := {
  id_ok : ok s;
  id_n : lh_n (l_log s) = 0;
  id_outstanding : lg_outstanding (l_log s) = 0;
  id_room : trefs (l_bio s) + 2 ≤ Z.of_nat NBUF;
  id_area : ∀ b, in_area (l_log s) b → lup s b = true;
}.

(** C2.  A system call that changes at most MAXOPBLOCKS blocks between begin_op()
    and end_op() returns, its changes are what every later bread() sees, in
    the order they were made, nothing else outside the log area changes, and
    the log is empty again. *)
Theorem transaction_applies s ws :
  idle s → Forall (loggable s) ws → zlen ws ≤ MAXOPBLOCKS → MAXOPBLOCKS < lg_size (l_log s) →
  wp (begin_op ;; update_blocks ws ;; end_op) s (λ _ s',
    idle s' ∧ ∀ b, ¬ in_area (l_log s) b →
      content (l_bio s') b = apply_writes (content (l_bio s)) ws b).
Proof.
  intros [Hok Hn Ho Hr Ha] Hws Hlen Hsz. pose proof (size_logged s (proj1 Hok)) as Hz.
  change begin_op with (op_begin_op (S:=lstate)). change end_op with (op_end_op (S:=lstate)).
  eapply wp_bind_mono; [apply law_begin; [done|]|].
  { rewrite Hz. simpl. rewrite Hn, Ho. unfold MAXOPBLOCKS, LOGSIZE in *. lia. }
  intros _ s1 (Hok1 & I1 & L1 & D1 & R1 & T1 & H1 & U1 & C1 & A1).
  pose proof (loggable_frame _ _ _ U1 A1 Hws) as Hws1.
  eapply wp_bind_mono.
  { apply update_blocks_ok; [done|done| | |].
    - simpl in T1 |- *. lia.
    - rewrite I1. simpl. lia.
    - rewrite L1, C1, Hz, Hn. simpl. unfold MAXOPBLOCKS, LOGSIZE in *. lia. }
  intros _ s2 (B2 & D2 & L2). destruct B2 as [Hok2 U2 C2 I2 A2 R2 T2 H2].
  assert (logged s = ∅) as L0 by (apply leibniz_equiv, size_empty_inv; lia).
  eapply wp_mono; [apply law_end; [done|rewrite I2, I1; simpl; lia| | |]|].
  - rewrite T2, T1. exact Hr.
  - intros b. rewrite A2, L2, L1, L0. intros Hb.
    apply elem_of_union in Hb as [Hb|Hb]; [|by apply elem_of_empty in Hb].
    apply elem_of_list_to_set, list_elem_of_fmap in Hb as (w & -> & Hw).
    rewrite Forall_forall in Hws1. by apply Hws1.
  - intros b. rewrite U2, U1, A2, A1. apply Ha.
  - intros _ s3 (Hok3 & I3 & L3 & D3 & R3 & T3 & H3 & U3 & C3 & A3).
    assert (in_op s2 = 1) as E1 by (rewrite I2, I1; simpl; lia). rewrite E1 in L3, I3. simpl in L3, I3.
    split.
    + split; [done| |done| |].
      * rewrite <- (size_logged s3 (proj1 Hok3)). simpl. rewrite L3. by rewrite size_empty.
      * simpl in T1, T2, T3. lia.
      * intros b Hb. change (up s3 b = true). rewrite U3, U2, U1. apply Ha, A1, A2, A3, Hb.
    + intros b Hb. change (disk s3 b = apply_writes (disk s) ws b). rewrite D3 by (rewrite A2, A1; done). rewrite D2.
      by apply apply_writes_ext.
Qed.

(** A log area of [size] blocks at [start], freshly initialised. *)
Definition empty_log (start size : Z) : log := mkLog start size 0 0 0 (replicate (Z.to_nat LOGSIZE) 0).
Definition fresh_lstate (start size : Z) : lstate :=
  mkL (booted (zero_device (λ _, false))) (empty_log start size).

Lemma lh_list_0 l : lh_n l = 0 → lh_list l = [].
Proof. unfold lh_list. by intros ->. Qed.

Lemma empty_log_ok start size :
  0 ≤ start → 1 ≤ size → start + size ≤ 2147483648 → log_ok (empty_log start size).
Proof.
  intros. split; simpl; try done; try lia. apply NoDup_nil_2.
Qed.

Lemma fresh_idle start size :
  0 ≤ start → 1 ≤ size → start + size ≤ 2147483648 → idle (fresh_lstate start size).
Proof.
  intros. destruct (zero_booted (λ _, false)) as (B & E & T & C). split; [|reflexivity|reflexivity|..].
  - split; [|reflexivity]. split; [exact B|by apply empty_log_ok|].
    intros b Hb. by apply not_elem_of_nil in Hb.
  - simpl. rewrite T. discriminate.
  - intros b _. unfold lup. simpl. by rewrite E.
Qed.

Lemma transaction_applies_witness :
  let s := fresh_lstate 2 30 in
  let ws := [(50, fill_block 1); (60, fill_block 2); (50, fill_block 3)] in
  wp (begin_op ;; update_blocks ws ;; end_op) s (λ _ s',
    idle s' ∧ ∀ b, ¬ in_area (l_log s) b →
      content (l_bio s') b = apply_writes (content (l_bio s)) ws b).
Proof.
  intros s ws.
  destruct (zero_booted (λ _, false)) as (B & E & T & C).
  apply (transaction_applies s ws); [by apply fresh_idle| |discriminate|reflexivity].
  unfold ws. repeat (apply Forall_cons; split); [..|apply Forall_nil; exact I];
    (split; [simpl; unfold lup; simpl; rewrite E; reflexivity|]);
    (split; [unfold logarea; simpl; unfold in_area; simpl; lia|apply block_ok_fill; lia]).
Defined.

(** begin_op() lets a system call in exactly when the log is not being
    committed and has room for MAXOPBLOCKS blocks of this call and of every
    call already inside; otherwise it waits, and since nothing else runs while
    it waits, for ever. *)
Theorem begin_op_admission s :
  (lg_committing (l_log s) = 0 ∧
   lh_n (l_log s) + (lg_outstanding (l_log s) + 1) * MAXOPBLOCKS ≤ LOGSIZE ∧
   begin_op s = Ret tt (mkL (l_bio s) (set_outstanding (lg_outstanding (l_log s) + 1) (l_log s)))) ∨
  ((lg_committing (l_log s) ≠ 0 ∨
    LOGSIZE < lh_n (l_log s) + (lg_outstanding (l_log s) + 1) * MAXOPBLOCKS) ∧
   begin_op s = Spin).
Proof.
  unfold begin_op, bind, gets. destruct (Z.eqb_spec (lg_committing (l_log s)) 0) as [E|E]; simpl.
  - destruct (Z.gtb_spec (lh_n (l_log s) + (lg_outstanding (l_log s) + 1) * MAXOPBLOCKS) LOGSIZE);
      [right|left]; auto with lia.
  - right. auto.
Qed.

(** log_write() refuses a block outside a transaction, and one that the
    log has no room for, by a panic that leaves nothing half recorded. *)
Theorem log_write_guards s k :
  (log_write k s = Panic "too big a transaction" ↔
    LOGSIZE ≤ lh_n (l_log s) ∨ lg_size (l_log s) - 1 ≤ lh_n (l_log s)) ∧
  (log_write k s = Panic "log_write outside of trans" ↔
    lh_n (l_log s) < LOGSIZE ∧ lh_n (l_log s) < lg_size (l_log s) - 1 ∧ lg_outstanding (l_log s) < 1).
Proof.
  unfold log_write, bind, gets. rewrite !Z.geb_leb.
  destruct (Z.leb_spec LOGSIZE (lh_n (l_log s))), (Z.leb_spec (lg_size (l_log s) - 1) (lh_n (l_log s)));
    simpl; try (split; [split; [auto|done]|split; [done|lia]]).
  destruct (Z.ltb_spec (lg_outstanding (l_log s)) 1); (split; (split; [done||auto|done||lia])).
Qed.

(** log_write() of a changed buffer makes the change the content of its
    block and records the block once: a block that the transaction already has
    is absorbed, a new one is appended, and the list stays duplicate free and
    within the log. *)
Theorem log_write_absorbs s k b d :
  lok s → handle (l_bio s) k b → block_ok d → 1 ≤ lg_outstanding (l_log s) →
  lh_n (l_log s) < LOGSIZE → lh_n (l_log s) < lg_size (l_log s) - 1 →
  wp (set_bdata k d ;; log_write k) s (λ _ s',
    lok s' ∧ written (l_bio s) (l_bio s') b d ∧ NoDup (lh_list (l_log s')) ∧
    lh_n (l_log s') ≤ lg_size (l_log s') - 1 ∧
    lh_list (l_log s') =
      if decide (b ∈ lh_list (l_log s)) then lh_list (l_log s) else lh_list (l_log s) ++ [b]).
Proof.
  intros Hok Hh Hd Ho H1 H2. eapply wp_mono; [by apply (log_write_ok _ _ b)|].
  intros _ s' (Hok' & W & _ & _ & _ & _ & L). pose proof (lok_log _ Hok') as [].
  split_and!; try done. destruct L as [[-> Hin]|[-> Hin]]; by case_decide.
Qed.

