(* ===== verification/LogRecover.v ===== *)
(** * Recovery from the log

    read_head() reads back what write_head() stored, and initlog() after a
    crash redoes a transaction whose header reached the disk. *)

From S2P Require Import Prelude Bytes Params Store Ondisk Bio BioList BioSpec BioProps Log LogProps.

(** ** The header block *)

(** The block numbers that the header [d] lists. *)
Definition hdr_block (d : list Z) (i : nat) : Z := ld32 d (4 + 4 * Z.of_nat i).
Definition hdr_blocks (d : list Z) (n : nat) : list Z := map (hdr_block d) (seq 0 n).

Lemma read_blocks_from d n i bs :
  length bs = Z.to_nat LOGSIZE → (i + n ≤ Z.to_nat LOGSIZE)%nat →
  read_blocks d n (Z.of_nat i) bs = Some (take i bs ++ map (hdr_block d) (seq i n) ++ drop (i + n) bs).
Proof.
  revert i bs. induction n as [|n IH]; intros i bs Hl Hn; simpl.
  - by rewrite Nat.add_0_r, take_drop.
  - assert (Z.to_nat LOGSIZE = 100%nat) as E by done.
    destruct (Z.ltb_spec (Z.of_nat i) LOGSIZE) as [_|]; [|unfold LOGSIZE in *; lia].
    rewrite Nat2Z.id. fold (hdr_block d i). replace (Z.of_nat i + 1) with (Z.of_nat (S i)) by lia.
    rewrite IH by (rewrite ?length_insert; lia). f_equal.
    rewrite drop_insert_lt, (take_S_r _ _ (hdr_block d i)), take_insert_ge by
      (lia || (apply list_lookup_insert_eq; lia)).
    rewrite <- app_assoc. cbn [app]. by rewrite Nat.add_succ_r.
Qed.

Lemma read_blocks_ok d n bs :
  length bs = Z.to_nat LOGSIZE → (n ≤ Z.to_nat LOGSIZE)%nat →
  ∃ bs', read_blocks d n 0 bs = Some bs' ∧ length bs' = Z.to_nat LOGSIZE ∧ take n bs' = hdr_blocks d n.
Proof.
  intros Hl Hn. exists (hdr_blocks d n ++ drop n bs). split_and!.
  - exact (read_blocks_from d n 0 bs Hl Hn).
  - unfold hdr_blocks. rewrite length_app, length_map, length_seq, length_drop. lia.
  - unfold hdr_blocks. rewrite take_app_length'; [done|]. by rewrite length_map, length_seq.
Qed.

Lemma hdr_block_put_blocks_before bs i d j :
  zlen d = BSIZE → (j < i)%nat → (i + length bs ≤ Z.to_nat LOGSIZE)%nat →
  hdr_block (put_blocks bs (Z.of_nat i) d) j = hdr_block d j.
Proof.
  assert (Z.to_nat LOGSIZE = 100%nat) as E by done.
  revert i d. induction bs as [|b bs IH]; intros i d Hd Hj Hl; simpl in *; [done|].
  replace (Z.of_nat i + 1) with (Z.of_nat (S i)) by lia. unfold BSIZE in *.
  rewrite IH; [|rewrite zlen_st32; lia..|lia|lia].
  unfold hdr_block. rewrite ld32_st32_other; lia.
Qed.

Lemma hdr_block_put_blocks bs i d j b :
  zlen d = BSIZE → (i + length bs ≤ Z.to_nat LOGSIZE)%nat → bs !! j = Some b →
  hdr_block (put_blocks bs (Z.of_nat i) d) (i + j) = u32 b.
Proof.
  assert (Z.to_nat LOGSIZE = 100%nat) as E by done.
  revert i d j. induction bs as [|b' bs IH]; intros i d j Hd Hl Hj; simpl in *; [done|].
  replace (Z.of_nat i + 1) with (Z.of_nat (S i)) by lia. unfold BSIZE in *.
  assert (zlen (st32 d (4 + 4 * Z.of_nat i) b') = 512) as Hd' by (rewrite zlen_st32; lia).
  destruct j as [|j].
  - injection Hj as ->. rewrite Nat.add_0_r, hdr_block_put_blocks_before by (done || lia).
    unfold hdr_block. rewrite ld32_st32; [done|lia..].
  - simpl in Hj. rewrite <- Nat.add_succ_comm. apply IH; [done|lia|done].
Qed.

(** write_head() then read_head(): the list of blocks comes back. *)
Lemma hdr_blocks_put_head n bs d :
  zlen d = BSIZE → 0 ≤ n ≤ LOGSIZE → length bs = Z.to_nat LOGSIZE →
  (∀ b, b ∈ take (Z.to_nat n) bs → 0 ≤ b < 4294967296) →
  hdr_blocks (put_head n bs d) (Z.to_nat n) = take (Z.to_nat n) bs.
Proof.
  assert (Z.to_nat LOGSIZE = 100%nat) as E by done. unfold LOGSIZE in *.
  intros Hd Hn Hl Hb. apply list_eq. intros i.
  destruct (decide (i < Z.to_nat n)%nat) as [Hi|Hi].
  - destruct (take (Z.to_nat n) bs !! i) as [b|] eqn:Eb.
    2:{ apply lookup_ge_None in Eb. rewrite length_take in Eb. lia. }
    unfold hdr_blocks. rewrite list_lookup_fmap, lookup_seq_lt by done. simpl. f_equal.
    unfold put_head. rewrite (hdr_block_put_blocks _ 0 _ i b); [|..|done].
    + apply u32_small, Hb. by eapply list_elem_of_lookup_2.
    + rewrite zlen_st32; unfold BSIZE in *; lia.
    + rewrite length_take. unfold LOGSIZE. lia.
  - rewrite !(proj2 (lookup_ge_None _ _)); [done|..].
    + rewrite length_take. lia.
    + unfold hdr_blocks. rewrite length_map, length_seq. lia.
Qed.

(** ** recover_from_log() *)

(** A disk whose log header lists [n] blocks that recovery can install. *)
Record recoverable (s : lstate) (n : Z) : Prop := {
  re_ok : lok s;
  re_n : ld32 (content (l_bio s) (lg_start (l_log s))) 0 = n;
  re_range : 0 ≤ n ≤ LOGSIZE ∧ n ≤ lg_size (l_log s) - 1;
  re_nodup : NoDup (hdr_blocks (content (l_bio s) (lg_start (l_log s))) (Z.to_nat n));
  re_out : ∀ b, b ∈ hdr_blocks (content (l_bio s) (lg_start (l_log s))) (Z.to_nat n) →
    ¬ in_area (l_log s) b ∧ lup s b = true;
  re_area : ∀ b, in_area (l_log s) b → lup s b = true;
  re_room : trefs (l_bio s) + 2 ≤ Z.of_nat NBUF;
}.

Lemma start_in_area l : log_ok l → in_area l (lg_start l).
Proof. intros []. unfold in_area. lia. Qed.

(** read_head(): the in-memory header becomes the one on disk. *)
Lemma read_head_ok s n :
  recoverable s n →
  wp read_head s (λ _ s', committable s' ∧
    (∃ bs, l_log s' = set_lh n bs (l_log s) ∧
       take (Z.to_nat n) bs = hdr_blocks (content (l_bio s) (lg_start (l_log s))) (Z.to_nat n)) ∧
    (∀ b, content (l_bio s') b = content (l_bio s) b) ∧
    trefs (l_bio s') = trefs (l_bio s) ∧ (∀ b, lup s' b = lup s b)).
Proof.
  intros [Hok Hn [Hr1 Hr2] Hnd Hout Harea Hroom]. pose proof (lok_log _ Hok) as Hlo.
  set (lg := l_log s) in *. set (d := content (l_bio s) (lg_start lg)) in *.
  assert (s32 n = n) as En by (apply s32_small; unfold LOGSIZE in *; lia).
  unfold read_head. apply wp_bind, wp_gets. fold lg.
  assert (u32 (lg_start lg) = lg_start lg) as -> by (apply u32_small; destruct Hlo; lia).
  eapply wp_bind_mono; [apply l_bread; [done|by apply Harea, start_in_area|lia]|].
  intros k s1 (Hok1 & L1 & Hh & A). apply wp_bind, wp_gets.
  rewrite (l_data s1 k (lg_start lg)) by done. rewrite (aq_content _ _ _ A). fold d. rewrite Hn, En.
  destruct (read_blocks_ok d (Z.to_nat n) (lh_block lg)) as (bs & -> & Hbl & Htk);
    [apply Hlo|unfold LOGSIZE in *; lia|].
  apply wp_bind, wp_modify. cbn [l_bio l_log]. rewrite L1. fold lg.
  set (s2 := mkL (l_bio s1) (set_lh n bs lg)).
  assert (∀ b, lup s2 b = lup s b) as U2 by (intros b; unfold lup; simpl; by rewrite (aq_up _ _ _ A)).
  assert (lok s2) as Hok2.
  { split; [apply Hok1| |].
    - destruct Hlo. split; simpl; try done. unfold lh_list. simpl. by rewrite Htk.
    - intros b. unfold lh_list. simpl. rewrite Htk, U2. intros Hb. by apply Hout. }
  eapply wp_mono; [by apply (l_brelse s2 k (lg_start lg))|].
  intros _ s3 (Hok3 & L3 & R). simpl in L3.
  assert (∀ b, lup s3 b = lup s b) as U3.
  { intros b. rewrite <- U2. unfold lup. by rewrite (rl_up _ _ _ R). }
  assert (trefs (l_bio s3) = trefs (l_bio s)) as T3.
  { rewrite (rl_trefs _ _ _ R). simpl. rewrite (aq_trefs _ _ _ A). lia. }
  split_and!; try done.
  - split; [done|..].
    + rewrite L3. unfold lh_list. simpl. rewrite Htk. intros b Hb. by apply (Hout b).
    + rewrite L3. intros b Hb. rewrite U3. by apply Harea.
    + lia.
  - by exists bs.
  - intros b. rewrite (rl_content _ _ _ R). apply (aq_content _ _ _ A).
Qed.

Lemma hdr_lookup d n i : (i < n)%nat → hdr_blocks d n !! i = Some (hdr_block d i).
Proof. intros. unfold hdr_blocks. by rewrite list_lookup_fmap, lookup_seq_lt. Qed.

Lemma recover_ok s n :
  recoverable s n →
  let d := content (l_bio s) (lg_start (l_log s)) in
  wp recover_from_log s (λ _ s',
    (∃ bs, l_log s' = set_lh 0 bs (l_log s)) ∧ committable s' ∧
    (∀ b, lup s' b = lup s b) ∧ trefs (l_bio s') = trefs (l_bio s) ∧
    ld32 (content (l_bio s') (lg_start (l_log s))) 0 = 0 ∧
    (∀ i, 0 ≤ i < n →
       content (l_bio s') (hdr_block d (Z.to_nat i)) = content (l_bio s) (lg_start (l_log s) + i + 1)) ∧
    (∀ x, x ∉ hdr_blocks d (Z.to_nat n) → x ≠ lg_start (l_log s) →
       content (l_bio s') x = content (l_bio s) x)).
Proof.
  intros Hre d. unfold recover_from_log.
  eapply wp_bind_mono; [by apply read_head_ok|]. intros _ s1 (Hc1 & (bs & L1 & Htk) & C1 & T1 & U1).
  fold d in Htk. pose proof (re_range _ _ Hre) as [Hr1 Hr2].
  assert (lh_list (l_log s1) = hdr_blocks d (Z.to_nat n)) as Hlist by (rewrite L1; exact Htk).
  eapply wp_bind_mono; [by apply install_trans_ok|]. intros _ s2 (Q2 & C2 & D2).
  rewrite Hlist in D2. rewrite L1 in C2. simpl in C2.
  apply wp_bind, wp_modify. pose proof (committable_clear _ (quiet_committable _ _ Hc1 Q2)) as Hc3.
  eapply wp_mono; [by apply write_head_ok|]. intros _ s4 (Q4 & C4). simpl in C4.
  pose proof (quiet_committable _ _ Hc3 Q4) as Hc4.
  assert (lg_start (l_log s2) = lg_start (l_log s)) as Es by (rewrite (q_log _ _ Q2), L1; done).
  rewrite Es in C4. pose proof (start_in_area _ (lok_log _ (re_ok _ _ Hre))) as Hstart.
  split_and!; try done.
  - rewrite (q_log _ _ Q4). simpl. rewrite (q_log _ _ Q2), L1. by exists bs.
  - intros b. rewrite (q_up _ _ Q4). rewrite <- U1, <- (q_up _ _ Q2). done.
  - rewrite (q_trefs _ _ Q4). simpl. by rewrite (q_trefs _ _ Q2).
  - rewrite C4, Z.eqb_refl. apply put_head_n; [|unfold LOGSIZE; lia].
    destruct (lok_bio _ (q_ok _ _ Q2)) as [ord I]. by eapply content_ok.
  - intros i Hi. assert (hdr_block d (Z.to_nat i) ∈ hdr_blocks d (Z.to_nat n)) as Hin.
    { eapply list_elem_of_lookup_2, hdr_lookup. lia. }
    rewrite C4, (proj2 (Z.eqb_neq _ _)).
    2:{ intros E. rewrite E in Hin. by apply (re_out _ _ Hre) in Hin as []. }
    rewrite <- C1, <- C2 by done. f_equal.
    assert (take (Z.to_nat n) bs !! Z.to_nat i = Some (hdr_block d (Z.to_nat i))) as E.
    { rewrite Htk. apply hdr_lookup. lia. }
    rewrite lookup_take_lt in E by lia. symmetry. by apply list_lookup_total_correct.
  - intros x Hx Hne. rewrite C4, (proj2 (Z.eqb_neq _ _)) by done. by rewrite D2, C1.
Qed.

(** ** Crashes *)

(** Power is lost and the machine boots again: the device keeps its blocks,
    the cache is initialised by binit() and [log] is zero. *)
Definition crash (s : lstate) : lstate := mkL (booted (bdev (l_bio s))) (empty_log 0 0).

Lemma readsb_ok s :
  bok (l_bio s) → lup s 1 = true → trefs (l_bio s) < Z.of_nat NBUF →
  wp readsb s (λ sb s', sb = sb_of_block (content (l_bio s) 1) ∧ l_log s' = l_log s ∧
    bok (l_bio s') ∧ (∀ b, content (l_bio s') b = content (l_bio s) b) ∧
    trefs (l_bio s') = trefs (l_bio s) ∧ (∀ b, lup s' b = lup s b)).
Proof.
  intros [ord I] Hu Ht. unfold readsb. apply wp_bind, wp_lift.
  eapply wp_mono; [by apply (bread_binv _ ord)|]. intros k b1 (I1 & Hh & A).
  apply wp_bind, wp_gets. cbn [l_bio].
  assert (b_data (getb b1 k) = content (l_bio s) 1) as ->.
  { rewrite <- (aq_content _ _ _ A). pose proof Hh as (Hk & E & Hr). rewrite <- E. symmetry.
    apply (content_cached _ _ I1); [done|]. by apply (bi_ref _ _ I1). }
  apply wp_bind, wp_lift. eapply wp_mono; [apply (brelse_bok _ _ 1); [by exists ord|done]|].
  intros _ b2 (Hb2 & R). apply wp_ret. simpl. split_and!; try done.
  - intros b. by rewrite (rl_content _ _ _ R), (aq_content _ _ _ A).
  - rewrite (rl_trefs _ _ _ R). simpl. rewrite (aq_trefs _ _ _ A). lia.
  - intros b. unfold lup. simpl. rewrite (rl_up _ _ _ R). simpl. by rewrite (aq_up _ _ _ A).
Qed.

Lemma lok_empty b start size :
  bok b → 0 ≤ start → 1 ≤ size → start + size ≤ 2147483648 → lok (mkL b (empty_log start size)).
Proof.
  intros. split; [done|by apply empty_log_ok|]. intros x Hx. by apply not_elem_of_nil in Hx.
Qed.

(** initlog() on a disk whose super block describes the log. *)
Lemma initlog_ok s start size n :
  bok (l_bio s) → lup s 1 = true → trefs (l_bio s) + 2 ≤ Z.of_nat NBUF →
  sb_logstart (sb_of_block (content (l_bio s) 1)) = start →
  sb_nlog (sb_of_block (content (l_bio s) 1)) = size →
  0 ≤ start < 2147483648 → 0 ≤ size < 2147483648 →
  let l := mkLog start size (lg_outstanding (l_log s)) (lg_committing (l_log s))
                 (lh_n (l_log s)) (lh_block (l_log s)) in
  recoverable (mkL (l_bio s) l) n →
  wp initlog s (λ _ s',
    (∃ bs, l_log s' = set_lh 0 bs l) ∧ committable s' ∧
    (∀ i, 0 ≤ i < n →
       content (l_bio s') (hdr_block (content (l_bio s) start) (Z.to_nat i)) = content (l_bio s) (start + i + 1)) ∧
    (∀ x, x ∉ hdr_blocks (content (l_bio s) start) (Z.to_nat n) → x ≠ start →
       content (l_bio s') x = content (l_bio s) x)).
Proof.
  intros Hb Hu Ht E1 E2 Hs1 Hs2 l Hre. unfold initlog. simpl.
  eapply wp_bind_mono; [apply readsb_ok; [done|done|lia]|].
  intros sb s1 (-> & L1 & Hb1 & C1 & T1 & U1). apply wp_bind, wp_modify.
  rewrite E1, E2, L1, !s32_small by lia. fold l. set (s2 := mkL (l_bio s1) l).
  assert (recoverable s2 n) as Hre2.
  { destruct Hre as [[Hb0 Hl0 Hu0] Hn Hr Hnd Hout Har Hroom]. simpl in *.
    split; simpl; rewrite ?C1; try done.
    - split; [done|done|]. intros b Hin. unfold s2, lup. simpl. fold (lup s1 b).
      rewrite U1. by apply Hu0.
    - intros b Hin. destruct (Hout b Hin). split; [done|].
      unfold s2, lup. simpl. fold (lup s1 b). by rewrite U1.
    - intros b Hin. unfold s2, lup. simpl. fold (lup s1 b). rewrite U1. by apply Har.
    - lia. }
  eapply wp_mono; [by apply recover_ok|]. simpl.
  intros _ s' (L & Hc & U & T & _ & Hi & Hx). rewrite C1 in Hi, Hx.
  split_and!; [exact L|exact Hc|..].
  - intros i Hin. by rewrite Hi, C1.
  - intros x H1 H2. by rewrite Hx, C1.
Qed.

Lemma lflush_ok s :
  lok s → wp lflush s (λ _ s', l_log s' = l_log s ∧ dev_up (bdev (l_bio s')) = dev_up (bdev (l_bio s)) ∧
    ∀ b, dev_data (bdev (l_bio s')) b = content (l_bio s) b).
Proof.
  intros Hok. destruct (lok_bio _ Hok) as [ord I]. unfold lflush. apply wp_lift.
  eapply wp_mono; [by apply (bflush_ok _ ord)|]. intros _ b' (_ & V & D).
  split_and!; [done|apply V|exact D].
Qed.

(** The content of the disk at the commit point: the log area holds the
    transaction and the header lists it. *)
Lemma commit_point_ok s :
  committable s →
  wp (write_log ;; write_head ;; lflush) s (λ _ s',
    let D := dev_data (bdev (l_bio s')) in
    let lg := l_log s in
    (∀ b, dev_up (bdev (l_bio s')) b = lup s b) ∧
    (∀ j, 0 ≤ j < lh_n lg → D (lg_start lg + j + 1) = content (l_bio s) (lh_block lg !!! Z.to_nat j)) ∧
    (∃ d, block_ok d ∧ D (lg_start lg) = put_head (lh_n lg) (lh_block lg) d) ∧
    (∀ x, ¬ in_area lg x → D x = content (l_bio s) x) ∧ (∀ x, block_ok (D x))).
Proof.
  intros Hc. pose proof (lok_log _ (co_ok _ Hc)) as Hlo. set (lg := l_log s) in *.
  eapply wp_bind_mono; [by apply write_log_ok|]. intros _ s1 (Q1 & C1 & D1). fold lg in C1, D1.
  pose proof (quiet_committable _ _ Hc Q1) as Hc1.
  eapply wp_bind_mono; [by apply write_head_ok|]. intros _ s2 (Q2 & C2).
  rewrite (q_log _ _ Q1) in C2. fold lg in C2.
  eapply wp_mono; [apply lflush_ok; apply Q2|]. intros _ s3 (L3 & U3 & D3).
  assert (∀ x, block_ok (content (l_bio s2) x)) as Hbk.
  { intros x. destruct (lok_bio _ (q_ok _ _ Q2)) as [ord I]. by eapply content_ok. }
  split_and!.
  - intros b. rewrite U3. fold (lup s2 b). by rewrite (q_up _ _ Q2), (q_up _ _ Q1).
  - intros j Hj. rewrite D3, C2, (proj2 (Z.eqb_neq _ _)) by lia. by apply C1.
  - exists (content (l_bio s1) (lg_start lg)). split; [|by rewrite D3, C2, Z.eqb_refl].
    destruct (lok_bio _ (q_ok _ _ Q1)) as [ord I]. by eapply content_ok.
  - intros x Hx. rewrite D3, C2, (proj2 (Z.eqb_neq _ _)).
    2:{ intros ->. by apply Hx, start_in_area. }
    apply D1. intros ?. apply Hx. unfold in_area. destruct Hlo. lia.
  - intros x. rewrite D3. apply Hbk.
Qed.


(** A disk with a super block (30 log blocks from block 2) and data in block 50. *)
Definition sb_device : device :=
  mkDevice (λ b, if b =? 1 then st32 (st32 (zeros BSIZE) 16 2) 12 30
                 else if b =? 50 then fill_block 9 else zeros BSIZE) (λ _, true).

Lemma sb_device_ok b : block_ok (dev_data sb_device b).
Proof.
  unfold sb_device, dev_data. destruct (_ =? 1); [|destruct (_ =? 50)].
  - apply (block_ok_stn 4); [apply (block_ok_stn 4); [apply block_ok_zeros|..]|..]; unfold BSIZE; lia.
  - apply block_ok_fill. lia.
  - apply block_ok_zeros.
Qed.


(** A system call that changes one block. *)
Definition lazy_commit : M lstate unit := begin_op ;; update_blocks [(50, fill_block 7)] ;; end_op.

