(* ===== verification/Fs.v ===== *)
(** * Blocks and inodes (kern/fs.c)

    The allocators, the inode cache, and file content.  A [struct inode *] is
    an index into [icache.inode]. *)

From S2P Require Import Prelude Bytes Params Store Ondisk.

Record fsst (S : Type) := mkFs {
  f_store : S;
  f_sb : superblock;
  f_lastballoc : Z;
  f_lastbi : Z;
  f_icache : list inode;
  f_epoch : Z;
}.
Arguments mkFs {S}.
Arguments f_store {S}.
Arguments f_sb {S}.
Arguments f_lastballoc {S}.
Arguments f_lastbi {S}.
Arguments f_icache {S}.
Arguments f_epoch {S}.

Definition set_type (v : Z) (ip : inode) : inode :=
  mkInode (i_dev ip) (i_inum ip) (i_ref ip) (i_valid ip) v (i_major ip) (i_minor ip) (i_nlink ip)
    (i_size ip) (i_mtime ip) (i_addrs ip).
Definition set_majmin (v w : Z) (ip : inode) : inode :=
  mkInode (i_dev ip) (i_inum ip) (i_ref ip) (i_valid ip) (i_type ip) v w (i_nlink ip)
    (i_size ip) (i_mtime ip) (i_addrs ip).
Definition set_nlink (v : Z) (ip : inode) : inode :=
  mkInode (i_dev ip) (i_inum ip) (i_ref ip) (i_valid ip) (i_type ip) (i_major ip) (i_minor ip) v
    (i_size ip) (i_mtime ip) (i_addrs ip).
Definition set_size (v : Z) (ip : inode) : inode :=
  mkInode (i_dev ip) (i_inum ip) (i_ref ip) (i_valid ip) (i_type ip) (i_major ip) (i_minor ip) (i_nlink ip)
    v (i_mtime ip) (i_addrs ip).
Definition set_mtime (v : Z) (ip : inode) : inode :=
  mkInode (i_dev ip) (i_inum ip) (i_ref ip) (i_valid ip) (i_type ip) (i_major ip) (i_minor ip) (i_nlink ip)
    (i_size ip) v (i_addrs ip).
Definition set_addrs (v : list Z) (ip : inode) : inode :=
  mkInode (i_dev ip) (i_inum ip) (i_ref ip) (i_valid ip) (i_type ip) (i_major ip) (i_minor ip) (i_nlink ip)
    (i_size ip) (i_mtime ip) v.
Definition set_ref (v : Z) (ip : inode) : inode :=
  mkInode (i_dev ip) (i_inum ip) v (i_valid ip) (i_type ip) (i_major ip) (i_minor ip) (i_nlink ip)
    (i_size ip) (i_mtime ip) (i_addrs ip).
Definition set_valid (v : Z) (ip : inode) : inode :=
  mkInode (i_dev ip) (i_inum ip) (i_ref ip) v (i_type ip) (i_major ip) (i_minor ip) (i_nlink ip)
    (i_size ip) (i_mtime ip) (i_addrs ip).
Definition set_inum (v : Z) (ip : inode) : inode :=
  mkInode (i_dev ip) v (i_ref ip) (i_valid ip) (i_type ip) (i_major ip) (i_minor ip) (i_nlink ip)
    (i_size ip) (i_mtime ip) (i_addrs ip).

Section fs.
Context {S : Type} `{BlockOps S}.
Abbreviation fs := (fsst S).

Definition with_store (x : S) (s : fs) : fs :=
  mkFs x (f_sb s) (f_lastballoc s) (f_lastbi s) (f_icache s) (f_epoch s).
Definition with_icache (x : list inode) (s : fs) : fs :=
  mkFs (f_store s) (f_sb s) (f_lastballoc s) (f_lastbi s) x (f_epoch s).

Definition on_store {A} (m : M S A) : M fs A := lift f_store with_store m.
Definition bread (b : Z) : M fs nat := on_store (op_bread b).
Definition brelse (bp : nat) : M fs unit := on_store (op_brelse bp).
Definition bdata (bp : nat) : M fs (list Z) := gets (λ s, op_data (f_store s) bp).
Definition set_bdata (bp : nat) (d : list Z) : M fs unit := on_store (op_set_data bp d).
Definition log_write (bp : nat) : M fs unit := on_store (op_log_write bp).
Definition begin_op : M fs unit := on_store op_begin_op.
Definition end_op : M fs unit := on_store op_end_op.

Definition getip (s : fs) (ip : nat) : inode := f_icache s !!! ip.
Definition inode_at (ip : nat) : M fs inode := gets (λ s, getip s ip).
Definition upd_inode (ip : nat) (f : inode → inode) : M fs unit :=
  modify (λ s, with_icache (alter f ip (f_icache s)) s).

(** ** The super block *)

Definition readsb : M fs superblock :=
  let* bp := bread 1 in
  let* d := bdata bp in
  brelse bp ;;
  ret (sb_of_block d).

Definition iinit : M fs unit :=
  let* sb := readsb in
  modify (λ s, mkFs (f_store s) sb (f_lastballoc s) (f_lastbi s) (f_icache s) (f_epoch s)).

(** ** Blocks *)

Definition bzero (bno : Z) : M fs unit :=
  let* bp := bread bno in
  set_bdata bp (zeros BSIZE) ;;
  log_write bp ;;
  brelse bp.

(** [bp->data[bi/8] |= m], [&= ~m] *)
Definition set_bit (d : list Z) (bi : Z) : list Z :=
  splice d (bi / 8) [u8 (Z.lor (byte d (bi / 8)) (u8 (Z.shiftl 1 (bi mod 8))))].
Definition clear_bit (d : list Z) (bi : Z) : list Z :=
  splice d (bi / 8) [u8 (Z.land (byte d (bi / 8)) (u8 (Z.lnot (Z.shiftl 1 (bi mod 8)))))].
Definition bit_clear (d : list Z) (bi : Z) : bool :=
  Z.land (byte d (bi / 8)) (Z.shiftl 1 (bi mod 8)) =? 0.

(** The inner loop of balloc(): the index of a free bit of the bitmap block
    [bp] that covers the blocks from [b], scanning round from [lastbi]. *)
Definition balloc_scan (size b lastbi : Z) (bp : nat) : M fs (option Z) :=
  loop (Z.to_nat BPB + 1) (λ bi,
    let* d := bdata bp in
    if negb (byte d (bi / 8) =? 255) && bit_clear d bi then ret (inr (Some bi))
    else
      let bi := u32 (bi + 1) in
      let bi := if (bi >=? BPB) || (u32 (b + bi) >=? size) then 0 else bi in
      if bi =? lastbi then ret (inr None) else ret (inl bi)) lastbi.

Definition balloc : M fs Z :=
  let* sb := gets f_sb in
  let* last := gets f_lastballoc in
  let* r := loop (Z.to_nat (sb_size sb / BPB) + 2) (λ b,
    let* bp := bread (BBLOCK b sb) in
    let* lastbi := gets f_lastbi in
    let* found := balloc_scan (sb_size sb) b lastbi bp in
    match found with
    | Some bi =>
        let* d := bdata bp in
        set_bdata bp (set_bit d bi) ;;
        log_write bp ;;
        brelse bp ;;
        bzero (u32 (b + bi)) ;;
        modify (λ s, mkFs (f_store s) (f_sb s) b bi (f_icache s) (f_epoch s)) ;;
        ret (inr (Some (u32 (b + bi))))
    | None =>
        brelse bp ;;
        let b := u32 (b + BPB) in
        let b := if b >=? sb_size sb then 0 else b in
        if b =? last then ret (inr None) else ret (inl b)
    end) last in
  match r with
  | Some b => ret b
  | None => panic "balloc: out of blocks"
  end.

Definition bfree (b : Z) : M fs unit :=
  let* sb := gets f_sb in
  let* bp := bread (BBLOCK b sb) in
  let bi := b mod BPB in
  let* d := bdata bp in
  if bit_clear d bi then panic "freeing free block" else
  set_bdata bp (clear_bit d bi) ;;
  log_write bp ;;
  brelse bp.

(** ** Inodes *)

(** The search of iget(): the entry that caches [inum], and the first free one. *)
Fixpoint iget_scan (l : list inode) (i : nat) (inum : Z) (empty : option nat)
    : option nat * option nat :=
  match l with
  | [] => (None, empty)
  | ip :: l =>
      if (i_ref ip >? 0) && (i_inum ip =? inum) then (Some i, empty)
      else iget_scan l (Datatypes.S i) inum
             (match empty with
              | None => if i_ref ip =? 0 then Some i else None
              | Some e => Some e
              end)
  end.

Definition iget (inum : Z) : M fs nat :=
  let* l := gets f_icache in
  match iget_scan l 0 inum None with
  | (Some i, _) => upd_inode i (λ ip, set_ref (i_ref ip + 1) ip) ;; ret i
  | (None, None) => panic "iget: no inodes"
  | (None, Some i) => upd_inode i (λ ip, set_valid 0 (set_ref 1 (set_inum inum ip))) ;; ret i
  end.

Definition idup (ip : nat) : M fs nat :=
  upd_inode ip (λ x, set_ref (i_ref x + 1) x) ;; ret ip.

(** ialloc(): the loop over the inode numbers, and what it does to a free one. *)
Definition new_dinode (d : list Z) (off type mtime : Z) : list Z :=
  st32 (st16 (splice d off (zeros DINODESZ)) off type) (off + 12) mtime.

Definition ialloc (type : Z) : M fs nat :=
  let* sb := gets f_sb in
  let* r := loop (Z.to_nat (sb_ninodes sb) + 1) (λ inum,
    if inum <? sb_ninodes sb then
      let* bp := bread (IBLOCK inum sb) in
      let* d := bdata bp in
      if s16 (ld16 d (ioff inum)) =? 0 then
        let* now := gets f_epoch in
        set_bdata bp (new_dinode d (ioff inum) type (s32 now)) ;;
        log_write bp ;;
        brelse bp ;;
        let* ip := iget inum in
        ret (inr (Some ip))
      else
        brelse bp ;; ret (inl (u32 (inum + 1)))
    else ret (inr None)) 1 in
  match r with
  | Some ip => ret ip
  | None => panic "ialloc: no inodes"
  end.

Definition iupdate (ip : nat) : M fs unit :=
  let* sb := gets f_sb in
  let* x := inode_at ip in
  let* bp := bread (IBLOCK (i_inum x) sb) in
  let* d := bdata bp in
  set_bdata bp (put_dinode d (ioff (i_inum x)) x) ;;
  log_write bp ;;
  brelse bp.

Definition ilock (ip : nat) : M fs unit :=
  let* x := inode_at ip in
  if i_ref x <? 1 then panic "ilock" else
  if i_valid x =? 0 then
    let* sb := gets f_sb in
    let* bp := bread (IBLOCK (i_inum x) sb) in
    let* d := bdata bp in
    upd_inode ip (get_dinode d (ioff (i_inum x))) ;;
    brelse bp ;;
    upd_inode ip (set_valid 1) ;;
    let* x := inode_at ip in
    if i_type x =? 0 then panic "ilock: no type" else ret tt
  else ret tt.

Definition iunlock (ip : nat) : M fs unit :=
  let* x := inode_at ip in
  if i_ref x <? 1 then panic "iunlock" else ret tt.

(** ** Inode content *)

(** The [uint] at index [i] of an indirect block. *)
Definition ld_ptr (d : list Z) (i : Z) : Z := ld32 d (4 * i).
Definition st_ptr (d : list Z) (i v : Z) : list Z := st32 d (4 * i) v.

(** Load entry [i] of the indirect block [addr], allocating the block it
    points to if there is none. *)
Definition bmap_step (addr i : Z) : M fs Z :=
  let* bp := bread addr in
  let* d := bdata bp in
  let* a :=
    (if ld_ptr d i =? 0 then
       let* a := balloc in
       let* d := bdata bp in
       set_bdata bp (st_ptr d i a) ;;
       log_write bp ;;
       ret a
     else ret (ld_ptr d i)) in
  brelse bp ;;
  ret a.

(** Entry [i] of [ip->addrs], allocated if it is 0. *)
Definition bmap_addr (ip : nat) (i : nat) : M fs Z :=
  let* x := inode_at ip in
  if (i_addrs x !!! i) =? 0 then
    let* a := balloc in
    upd_inode ip (λ x, set_addrs (<[i := a]> (i_addrs x)) x) ;;
    ret a
  else ret (i_addrs x !!! i).

Definition bmap (ip : nat) (bn : Z) : M fs Z :=
  if bn <? NDIRECT then bmap_addr ip (Z.to_nat bn)
  else
    let bn := bn - NDIRECT in
    if bn <? NINDIRECT * NINDIRECT then
      let* addr := bmap_addr ip (Z.to_nat NDIRECT) in
      let* addr := bmap_step addr (bn / NINDIRECT) in
      bmap_step addr (bn mod NINDIRECT)
    else panic "bmap: out of range".

(** The loop of itrunc() over the entries of a second-level indirect block. *)
Definition itrunc_leaf (bp2 : nat) : M fs unit :=
  for_n (Z.to_nat NINDIRECT) 0 (λ y,
    let* a2 := bdata bp2 in
    if ld_ptr a2 y =? 0 then ret tt else bfree (ld_ptr a2 y)).

Definition itrunc_direct (ip : nat) : M fs unit :=
  for_n (Z.to_nat NDIRECT) 0 (λ i,
    let* x := inode_at ip in
    let a := i_addrs x !!! Z.to_nat i in
    if a =? 0 then ret tt else
    bfree a ;; upd_inode ip (λ x, set_addrs (<[Z.to_nat i := 0]> (i_addrs x)) x)).

Definition itrunc_indirect (ip : nat) (top : Z) : M fs unit :=
  let* bp := bread top in
  for_n (Z.to_nat NINDIRECT) 0 (λ j,
    let* a := bdata bp in
    if ld_ptr a j =? 0 then ret tt else
    let* bp2 := bread (ld_ptr a j) in
    itrunc_leaf bp2 ;;
    brelse bp2 ;;
    let* a := bdata bp in
    bfree (ld_ptr a j)) ;;
  brelse bp ;;
  let* x := inode_at ip in
  bfree (i_addrs x !!! Z.to_nat NDIRECT) ;;
  upd_inode ip (λ x, set_addrs (<[Z.to_nat NDIRECT := 0]> (i_addrs x)) x).

Definition itrunc (ip : nat) : M fs unit :=
  itrunc_direct ip ;;
  let* x := inode_at ip in
  let top := i_addrs x !!! Z.to_nat NDIRECT in
  (if top =? 0 then ret tt else itrunc_indirect ip top) ;;
  upd_inode ip (set_size 0) ;;
  iupdate ip.

Definition iput (ip : nat) : M fs unit :=
  let* x := inode_at ip in
  (if negb (i_valid x =? 0) && (i_nlink x =? 0) then
     if i_ref x =? 1 then
       itrunc ip ;;
       upd_inode ip (set_type 0) ;;
       iupdate ip ;;
       upd_inode ip (set_valid 0)
     else ret tt
   else ret tt) ;;
  upd_inode ip (λ x, set_ref (i_ref x - 1) x).

Definition iunlockput (ip : nat) : M fs unit := iunlock ip ;; iput ip.

(** The fields of struct xvstat that stati() fills in. *)
Record xvstat := mkStat { st_type : Z; st_ino : Z; st_nlink : Z; st_mtime : Z; st_size : Z }.
Definition stati (ip : nat) : M fs xvstat :=
  let* x := inode_at ip in
  ret (mkStat (i_type x) (i_inum x) (i_nlink x) (i_mtime x) (i_size x)).

(** readi(): the result, and the bytes stored at [dst]. *)
Definition readi (ip : nat) (off n : Z) : M fs (Z * list Z) :=
  let* x := inode_at ip in
  if (off >? i_size x) || (u32 (off + n) <? off) then ret (-1, []) else
  let n := if u32 (off + n) >? i_size x then i_size x - off else n in
  let* dst := loop (Z.to_nat n + 1) (λ '(tot, off, dst),
    if tot <? n then
      let* addr := bmap ip (off / BSIZE) in
      let* bp := bread addr in
      let m := Z.min (n - tot) (BSIZE - off mod BSIZE) in
      let* d := bdata bp in
      brelse bp ;;
      ret (inl (tot + m, off + m, dst ++ slice d (off mod BSIZE) m))
    else ret (inr dst)) (0, off, []) in
  ret (s32 n, dst).

Definition writei (ip : nat) (src : list Z) (off n : Z) : M fs Z :=
  let* x := inode_at ip in
  if (off >? i_size x) || (u32 (off + n) <? off) then ret (-1) else
  if u32 (off + n) >? MAXFILE * BSIZE then ret (-1) else
  let* off := loop (Z.to_nat n + 1) (λ '(tot, off),
    if tot <? n then
      let* addr := bmap ip (off / BSIZE) in
      let* bp := bread addr in
      let m := Z.min (n - tot) (BSIZE - off mod BSIZE) in
      let* d := bdata bp in
      set_bdata bp (splice d (off mod BSIZE) (slice src tot m)) ;;
      log_write bp ;;
      brelse bp ;;
      ret (inl (tot + m, off + m))
    else ret (inr off)) (0, off) in
  let* x := inode_at ip in
  (if (n >? 0) && (off >? i_size x) then
     let* now := gets f_epoch in
     upd_inode ip (λ x, set_mtime (s32 now) (set_size off x)) ;;
     iupdate ip
   else ret tt) ;;
  ret (s32 n).
End fs.
