(* ===== verification/FsBlock.v ===== *)
(** * The block allocator (balloc, bfree, bzero of kern/fs.c)

    Proved over the interface [BlockStore]: these theorems hold for any store
    that keeps the promises of Store.v. *)

From S2P Require Import Prelude Bytes Params Store Ondisk Fs.

(** ** Bits of a bitmap block *)

(** Bit [bi] of the bitmap [d] is set. *)
Definition bit (d : list Z) (bi : Z) : bool := Z.testbit (byte d (bi / 8)) (bi mod 8).

Lemma byte_range d i : block_ok d → 0 ≤ byte d i < 256.
Proof.
  intros [_ Hb]. unfold byte. rewrite nth_lookup. destruct (d !! Z.to_nat i) as [x|] eqn:E; simpl; [|lia].
  rewrite Forall_forall in Hb. apply Hb. by eapply list_elem_of_lookup_2.
Qed.

Lemma bi_index bi : 0 ≤ bi < BPB → 0 ≤ bi / 8 < BSIZE ∧ 0 ≤ bi mod 8 < 8.
Proof.
  unfold BPB, BSIZE. intros H. split; [|apply Z.mod_pos_bound; lia].
  split; [apply Z.div_pos; lia|apply Z.div_lt_upper_bound; lia].
Qed.

Lemma bit_clear_bit d bi : bit_clear d bi = negb (bit d bi).
Proof.
  unfold bit_clear, bit. pose proof (Z.mod_pos_bound bi 8 ltac:(lia)) as Hm.
  set (x := byte d (bi / 8)). set (k := bi mod 8) in *.
  assert (Z.land x (Z.shiftl 1 k) = if Z.testbit x k then Z.shiftl 1 k else 0) as ->.
  { apply Z.bits_inj'. intros n Hn. rewrite Z.land_spec, Z.shiftl_1_l, Z.pow2_bits_eqb by lia.
    destruct (Z.eqb_spec k n) as [<-|Hne].
    - rewrite andb_true_r. destruct (Z.testbit x k); [|by rewrite Z.bits_0].
      by rewrite Z.pow2_bits_true by lia.
    - rewrite andb_false_r. destruct (Z.testbit x k); [|by rewrite Z.bits_0].
      by rewrite Z.pow2_bits_false by lia. }
  destruct (Z.testbit x k); [|done]. simpl. apply Z.eqb_neq. rewrite Z.shiftl_1_l.
  apply Z.pow_nonzero; lia.
Qed.

(** A byte with all bits set has no clear bit: the shortcut of balloc(). *)
Lemma full_byte_no_clear d bi : byte d (bi / 8) = 255 → bit_clear d bi = false.
Proof.
  intros E. rewrite bit_clear_bit. unfold bit. rewrite E.
  change 255 with (Z.ones 8). pose proof (Z.mod_pos_bound bi 8 ltac:(lia)).
  by rewrite Z.ones_spec_low by lia.
Qed.

Section bits.
Context (d : list Z) (Hd : block_ok d) (bi : Z) (Hbi : 0 ≤ bi < BPB).

Lemma bit_splice v j :
  0 ≤ j < BPB → bit (splice d (bi / 8) [v]) j =
    if j / 8 =? bi / 8 then Z.testbit v (j mod 8) else bit d j.
Proof using Hd Hbi.
  intros Hj. pose proof (bi_index _ Hbi) as [H1 _]. pose proof (bi_index _ Hj) as [H2 _].
  destruct Hd as [Hl _]. unfold bit. destruct (Z.eqb_spec (j / 8) (bi / 8)) as [E|E].
  - rewrite byte_splice_in by (change (zlen [v]) with 1; lia). by rewrite E, Z.sub_diag.
  - by rewrite byte_splice_out by (change (zlen [v]) with 1; lia).
Qed.

Lemma u8_testbit x k : 0 ≤ k < 8 → Z.testbit (u8 x) k = Z.testbit x k.
Proof. intros. unfold u8. change 256 with (2 ^ 8). by rewrite Z.mod_pow2_bits_low by lia. Qed.

Lemma same_bit j : 0 ≤ j < BPB → (j / 8 = bi / 8 ∧ j mod 8 = bi mod 8 ↔ j = bi).
Proof using.
  intros Hj. pose proof (Z.div_mod j 8 ltac:(lia)). pose proof (Z.div_mod bi 8 ltac:(lia)). split; [lia|by intros ->].
Qed.

Lemma bit_set_bit j : 0 ≤ j < BPB → bit (set_bit d bi) j = (j =? bi) || bit d j.
Proof using Hd Hbi.
  intros Hj. unfold set_bit. rewrite bit_splice by done. pose proof (same_bit j Hj) as Hs.
  pose proof (bi_index _ Hj) as [_ Hm]. pose proof (bi_index _ Hbi) as [_ Hm'].
  destruct (Z.eqb_spec (j / 8) (bi / 8)) as [E|E].
  - rewrite u8_testbit, Z.lor_spec, u8_testbit, Z.shiftl_1_l, Z.pow2_bits_eqb by lia.
    unfold bit. rewrite E, orb_comm. f_equal.
    destruct (Z.eqb_spec (bi mod 8) (j mod 8)), (Z.eqb_spec j bi); try done; naive_solver lia.
  - destruct (Z.eqb_spec j bi) as [->|]; done.
Qed.

Lemma bit_clear_bit_at j : 0 ≤ j < BPB → bit (clear_bit d bi) j = negb (j =? bi) && bit d j.
Proof using Hd Hbi.
  intros Hj. unfold clear_bit. rewrite bit_splice by done. pose proof (same_bit j Hj) as Hs.
  pose proof (bi_index _ Hj) as [_ Hm]. pose proof (bi_index _ Hbi) as [_ Hm'].
  destruct (Z.eqb_spec (j / 8) (bi / 8)) as [E|E].
  - rewrite u8_testbit, Z.land_spec, u8_testbit, Z.lnot_spec, Z.shiftl_1_l, Z.pow2_bits_eqb by lia.
    unfold bit. rewrite E, andb_comm. f_equal. f_equal.
    destruct (Z.eqb_spec (bi mod 8) (j mod 8)), (Z.eqb_spec j bi); try done; naive_solver lia.
  - destruct (Z.eqb_spec j bi) as [->|]; done.
Qed.

Lemma block_ok_byte v : block_ok (splice d (bi / 8) [u8 v]).
Proof using Hd Hbi.
  pose proof (bi_index _ Hbi) as [H1 _].
  apply block_ok_splice; [done| |lia|change (zlen [u8 v]) with 1; lia].
  repeat constructor; apply u8_range.
Qed.
End bits.

(** ** The store below kern/fs.c *)

Section store.
Context {S : Type} `{BlockStore S}.
Implicit Types s : fsst S.

Lemma wp_on_store {A} (m : M S A) s (Q : A → fsst S → Prop) :
  wp m (f_store s) (λ a x, Q a (with_store x s)) → wp (on_store m) s Q.
Proof. apply wp_lift. Qed.

Lemma with_store_store x y s : with_store x (with_store y s) = with_store x s.
Proof. done. Qed.
Lemma with_store_self s : with_store (f_store s) s = s.
Proof. by destruct s. Qed.

Lemma on_store_bind {A B} (m : M S A) (f : A → M S B) s :
  bind (on_store m) (λ a, on_store (f a)) s = on_store (bind m f) s.
Proof.
  unfold bind, on_store, lift. destruct (m (f_store s)) as [a x| | |]; [|done..].
  change (f_store (with_store x s)) with x. by destruct (f a x).
Qed.

(** Room for a routine that holds at most [k] buffers at a time and logs only
    blocks of [R] and at most [n] others. *)
Record room (s : fsst S) (k : Z) (R : gset Z) (n : Z) : Prop := {
  rm_ok : ok (f_store s);
  rm_bufs : htot (f_store s) + k ≤ Z.of_nat NBUF;
  rm_op : 1 ≤ in_op (f_store s);
  rm_log : Z.of_nat (size (logged (f_store s) ∪ R)) + n < cap (f_store s);
}.

(** Taking a buffer: [k] then holds block [b]. *)
Lemma fs_bread s b :
  ok (f_store s) → up (f_store s) b = true → htot (f_store s) < Z.of_nat NBUF →
  wp (bread b) s (λ k s', ∃ x, s' = with_store x s ∧ ok x ∧ hold x k b ∧ got (f_store s) x b).
Proof.
  intros. apply wp_on_store. eapply wp_mono; [by apply law_bread|].
  intros k x (? & ? & ?). by exists x.
Qed.

Lemma fs_brelse s k b :
  ok (f_store s) → hold (f_store s) k b →
  wp (brelse k) s (λ _ s', ∃ x, s' = with_store x s ∧ ok x ∧ dropped (f_store s) x b).
Proof.
  intros. apply wp_on_store. eapply wp_mono; [by apply (law_brelse _ _ b)|].
  intros _ x (? & ?). by exists x.
Qed.

Lemma fs_write s k b d :
  ok (f_store s) → hold (f_store s) k b → block_ok d → 1 ≤ in_op (f_store s) →
  Z.of_nat (size (logged (f_store s))) < cap (f_store s) →
  wp (set_bdata k d ;; log_write k) s (λ _ s', ∃ x, s' = with_store x s ∧ ok x ∧ stored (f_store s) x b d).
Proof.
  intros. unfold wp, set_bdata, log_write.
  rewrite (on_store_bind (op_set_data k d) (λ _, op_log_write k)).
  apply (wp_on_store (op_set_data k d ;; op_log_write k)). eapply wp_mono; [by apply (law_write _ _ b)|].
  intros _ x (? & ?). by exists x.
Qed.

Lemma wp_bdata s k b (Q : list Z → fsst S → Prop) :
  ok (f_store s) → hold (f_store s) k b → Q (disk (f_store s) b) s → wp (bdata k) s Q.
Proof. intros Hok Hh HQ. apply wp_gets. by rewrite (law_data _ _ b). Qed.

(** The effect of a routine on the store: it gives its buffers back, changes
    the disk to [D] and logs blocks of [R] only. *)
Record effect (x y : S) (D : Z → list Z) (R : gset Z) : Prop := {
  ef_bal : balanced x y;
  ef_disk : ∀ b, disk y b = D b;
  ef_log : logged x ⊆ logged y ∧ logged y ⊆ logged x ∪ R;
}.

Lemma room_step s x D R R' k n :
  room s k R n → effect (f_store s) x D R' → R' ⊆ R → room (with_store x s) k R n.
Proof.
  intros [Hok Hb Ho Hl] [[O U C N L Rr T K] _ [_ Hs]] HR. split; simpl; [done|lia|lia|].
  rewrite C. eapply Z.le_lt_trans; [|exact Hl]. apply Z.add_le_mono_r, inj_le, subseteq_size. set_solver.
Qed.

(** One of the [n] other blocks becomes known. *)
Lemma room_extend s b R k n : room s k R n → room s k (R ∪ {[b]}) (n - 1).
Proof.
  intros [Hok Hb Ho Hl]. split; [done..|]. rewrite union_assoc_L.
  pose proof (size_union_alt (logged (f_store s) ∪ R) {[b]}) as E.
  assert (size ({[b]} ∖ (logged (f_store s) ∪ R)) ≤ 1)%nat.
  { rewrite <- (size_singleton (C:=gset Z) b). apply subseteq_size. set_solver. }
  lia.
Qed.

Lemma room_weaken s k R n k' R' n' : room s k R n → k' ≤ k → R' ⊆ R → n' ≤ n → room s k' R' n'.
Proof.
  intros [Hok Hb Ho Hl] ? HR ?. split; [done|lia|done|].
  assert (size (logged (f_store s) ∪ R') ≤ size (logged (f_store s) ∪ R))%nat
    by (apply subseteq_size; set_solver). lia.
Qed.

Lemma effect_trans x y z D E R R' :
  effect x y D R → effect y z E R' → effect x z E (R ∪ R').
Proof.
  intros [B1 D1 [L1 L2]] [B2 D2 [L3 L4]]. split; [by etrans|done|]. split; set_solver.
Qed.

Lemma effect_weaken x y D E R R' :
  effect x y D R → (∀ b, D b = E b) → R ⊆ R' → effect x y E R'.
Proof. intros [B1 D1 [L1 L2]] HE HR. split; [done|by intros; rewrite D1|]. split; set_solver. Qed.

Lemma effect_refl x : ok x → effect x x (disk x) ∅.
Proof. intros. split; [by apply balanced_refl|done|]. split; set_solver. Qed.

(** Reading a block: bread, look at the data, brelse. *)
Lemma fs_read_done s x k b :
  ok (f_store s) → ok x → hold x k b → got (f_store s) x b →
  wp (brelse k) (with_store x s) (λ _ s', ∃ y, s' = with_store y s ∧ effect (f_store s) y (disk (f_store s)) ∅).
Proof.
  intros Hok Hx Hh G. eapply wp_mono; [by apply (fs_brelse _ _ b)|].
  intros _ s' (y & -> & Hy & Dr). exists y. split; [done|].
  destruct (got_dropped_balanced _ _ _ b Hok Hy G Dr) as (B & D & L).
  split; [done|done|]. rewrite L. set_solver.
Qed.

(** Changing a block inside the transaction and releasing it. *)
Lemma fs_write_done s x k b d m R n :
  room s m R n → 0 ≤ n → b ∈ R → ok x → hold x k b → got (f_store s) x b → block_ok d →
  wp (set_bdata k d ;; log_write k ;; brelse k) (with_store x s) (λ _ s', ∃ y, s' = with_store y s ∧
    effect (f_store s) y (λ c, if c =? b then d else disk (f_store s) c) {[b]}).
Proof.
  intros [Hok Hb Ho Hl] Hn HbR Hx Hh G Hd. apply wp_bind_assoc.
  eapply wp_bind_mono.
  { apply (fs_write _ _ b d); [done|done|done|..]; simpl.
    - by rewrite (sl_in_op _ _ (got_log _ _ _ G)).
    - rewrite (sl_logged _ _ (got_log _ _ _ G)), (sl_cap _ _ (got_log _ _ _ G)).
      assert (size (logged (f_store s)) ≤ size (logged (f_store s) ∪ R))%nat
        by (apply subseteq_size; set_solver). lia. }
  intros _ s2 (y & -> & Hy & St). simpl in St. rewrite with_store_store.
  eapply wp_mono; [apply (fs_brelse _ _ b); [done|by apply St]|].
  intros _ s3 (z & -> & Hz & Dr). simpl in Dr. exists z. split; [done|].
  destruct (got_stored_dropped _ _ _ _ b d Hok Hz G St Dr) as (B & D & L).
  split; [done|done|]. rewrite L. set_solver.
Qed.

(** bread, compute the new data from the old, log and release. *)
Lemma fs_update s b (f : list Z → list Z) R n :
  room s 1 R n → 0 ≤ n → b ∈ R → up (f_store s) b = true → block_ok (f (disk (f_store s) b)) →
  wp (let* bp := bread b in
      let* d := bdata bp in
      set_bdata bp (f d) ;; log_write bp ;; brelse bp) s
    (λ _ s', ∃ y, s' = with_store y s ∧
      effect (f_store s) y (λ c, if c =? b then f (disk (f_store s) b) else disk (f_store s) c) {[b]}).
Proof.
  intros Hr Hn HbR Hu Hf. pose proof (rm_ok _ _ _ _ Hr) as Hok. pose proof (rm_bufs _ _ _ _ Hr).
  eapply wp_bind_mono; [apply fs_bread; [done|done|lia]|].
  intros k s1 (x & -> & Hx & Hh & G). apply wp_bind. apply (wp_bdata _ _ b); [done|done|].
  simpl. rewrite (got_disk _ _ _ G). by eapply fs_write_done.
Qed.

Lemma bzero_ok s b R n :
  room s 1 R n → 0 ≤ n → b ∈ R → up (f_store s) b = true →
  wp (bzero b) s (λ _ s', ∃ y, s' = with_store y s ∧
    effect (f_store s) y (λ c, if c =? b then zeros BSIZE else disk (f_store s) c) {[b]}).
Proof.
  intros Hr Hn HbR Hu. pose proof (rm_ok _ _ _ _ Hr) as Hok. pose proof (rm_bufs _ _ _ _ Hr).
  unfold bzero. eapply wp_bind_mono; [apply fs_bread; [done|done|lia]|].
  intros k s1 (x & -> & Hx & Hh & G). eapply fs_write_done; try done. apply block_ok_zeros.
Qed.
End store.
