(* ===== verification/FsAlloc.v ===== *)
(** * Allocating and freeing blocks (balloc and bfree of kern/fs.c) *)

From S2P Require Import Prelude Bytes Params Store Ondisk Fs FsBlock.

(** The ranges of the super block that the arithmetic relies on. *)
Record sb_ok (sb : superblock) : Prop := {
  sb_size_ok : 0 < sb_size sb < 2147483648;
  sb_bmap_ok : 0 ≤ sb_bmapstart sb < 2147483648;
}.

(** Block [b] is marked in use in the bitmap of the disk [D]. *)
Definition in_use (sb : superblock) (D : Z → list Z) (b : Z) : bool :=
  bit (D (BBLOCK b sb)) (b mod BPB).

Section bitmap.
Context (sb : superblock) (Hsb : sb_ok sb).

Lemma BBLOCK_eq b : 0 ≤ b < 2147483648 → BBLOCK b sb = b / BPB + sb_bmapstart sb.
Proof using Hsb.
  intros Hb. unfold BBLOCK. apply u32_small. destruct Hsb as [_ H2]. unfold BPB, BSIZE.
  pose proof (Z.div_pos b (512 * 8) ltac:(lia) ltac:(lia)).
  pose proof (Z.div_le_upper_bound b (512 * 8) 2147483648 ltac:(lia) ltac:(lia)). lia.
Qed.

Lemma same_block b c :
  0 ≤ b < 2147483648 → 0 ≤ c < 2147483648 →
  BBLOCK b sb = BBLOCK c sb → b mod BPB = c mod BPB → b = c.
Proof using Hsb.
  intros Hb Hc E1 E2. rewrite !BBLOCK_eq in E1 by done.
  pose proof (Z.div_mod b BPB ltac:(done)). pose proof (Z.div_mod c BPB ltac:(done)). nia.
Qed.

Lemma mod_BPB b : 0 ≤ b mod BPB < BPB.
Proof using. apply Z.mod_pos_bound. done. Qed.

(** Changing the bit of [b] in its bitmap block. *)
Lemma in_use_update D b d' c v :
  0 ≤ b < 2147483648 → 0 ≤ c < 2147483648 →
  (∀ j, 0 ≤ j < BPB → bit d' j = if j =? b mod BPB then v else bit (D (BBLOCK b sb)) j) →
  in_use sb (λ x, if x =? BBLOCK b sb then d' else D x) c = if c =? b then v else in_use sb D c.
Proof using Hsb.
  intros Hb Hc Hd'. unfold in_use. destruct (Z.eqb_spec (BBLOCK c sb) (BBLOCK b sb)) as [E|E].
  - rewrite Hd' by apply mod_BPB. rewrite E. destruct (Z.eqb_spec (c mod BPB) (b mod BPB)) as [Em|Em].
    + assert (c = b) as -> by by apply same_block. by rewrite Z.eqb_refl.
    + destruct (Z.eqb_spec c b) as [->|]; done.
  - destruct (Z.eqb_spec c b) as [->|]; done.
Qed.
End bitmap.

Section alloc.
Context {S : Type} `{BlockStore S}.
Implicit Types s : fsst S.

Lemma bfree_ok s b R n :
  room s 1 R n → 0 ≤ n → sb_ok (f_sb s) → 0 ≤ b < 2147483648 →
  BBLOCK b (f_sb s) ∈ R → up (f_store s) (BBLOCK b (f_sb s)) = true →
  in_use (f_sb s) (disk (f_store s)) b = true →
  wp (bfree b) s (λ _ s', ∃ y D, s' = with_store y s ∧ effect (f_store s) y D {[BBLOCK b (f_sb s)]} ∧
    (∀ x, x ≠ BBLOCK b (f_sb s) → D x = disk (f_store s) x) ∧
    ∀ c, 0 ≤ c < 2147483648 →
      in_use (f_sb s) D c = if c =? b then false else in_use (f_sb s) (disk (f_store s)) c).
Proof.
  intros Hr Hn Hsb Hb HbR Hu Huse. unfold bfree. apply wp_bind, wp_gets.
  pose proof (rm_ok _ _ _ _ Hr) as Hok. pose proof (rm_bufs _ _ _ _ Hr).
  set (bb := BBLOCK b (f_sb s)) in *. pose proof (law_disk_ok _ bb Hok) as Hd.
  eapply wp_bind_mono; [apply fs_bread; [done|done|lia]|].
  intros k s1 (x & -> & Hx & Hh & G). apply wp_bind. apply (wp_bdata _ _ bb); [done|done|].
  simpl. rewrite (got_disk _ _ _ G). rewrite bit_clear_bit.
  unfold in_use in Huse. fold bb in Huse. rewrite Huse. simpl.
  eapply wp_mono; [apply (fs_write_done _ _ _ bb _ 1 R n); try done|].
  { by apply block_ok_byte, mod_BPB. }
  intros _ s' (y & -> & E). eexists y, _. split_and!; [done|exact E|..].
  - intros c Hc. cbv beta. by rewrite (proj2 (Z.eqb_neq c bb)).
  - intros c Hc. apply in_use_update; [done|done|done|]. intros j Hj. fold bb.
    rewrite bit_clear_bit_at by (done || apply mod_BPB). by destruct (j =? b mod BPB).
Qed.

(** ** The scan of one bitmap block

    [N] is the number of blocks that the bitmap block really describes; the
    scan starts at [lastbi], wraps at [N] and stops when it is back. *)
Lemma balloc_scan_ok s b lastbi bp bb N :
  ok (f_store s) → hold (f_store s) bp bb → 0 ≤ b → b + BPB < 4294967296 →
  N = Z.min BPB (sb_size (f_sb s) - b) → 0 ≤ lastbi < N →
  wp (balloc_scan (sb_size (f_sb s)) b lastbi bp) s (λ r s', s' = s ∧
    match r with
    | Some bi => 0 ≤ bi < N ∧ bit (disk (f_store s) bb) bi = false
    | None => ∀ bi, 0 ≤ bi < N → bit (disk (f_store s) bb) bi = true
    end).
Proof.
  intros Hok Hh Hb Hw HN Hl. set (d := disk (f_store s) bb). assert (BPB = 4096) as EB by done.
  unfold balloc_scan.
  apply (wp_loop _ (λ n bi s', s' = s ∧ 0 ≤ bi < N ∧
    (lastbi ≤ bi ∧ Z.of_nat n = N - 1 - (bi - lastbi) ∧
       (∀ j, lastbi ≤ j < bi → bit d j = true) ∨
     bi < lastbi ∧ Z.of_nat n = lastbi - 1 - bi ∧
       (∀ j, lastbi ≤ j < N → bit d j = true) ∧ (∀ j, 0 ≤ j < bi → bit d j = true))) _)
    with (n := Z.to_nat (N - 1)).
  - intros n bi s' (-> & Hbi & Hinv). apply wp_bind. apply (wp_bdata _ _ bb); [done|done|]. fold d.
    assert (negb (byte d (bi / 8) =? 255) && bit_clear d bi = negb (bit d bi)) as ->.
    { destruct (Z.eqb_spec (byte d (bi / 8)) 255) as [E|E]; simpl.
      - rewrite <- bit_clear_bit. symmetry. by apply full_byte_no_clear.
      - apply bit_clear_bit. }
    destruct (bit d bi) eqn:Ebit; simpl; [|by apply wp_ret].
    rewrite (u32_small (bi + 1)), (u32_small (b + (bi + 1))) by lia. rewrite !Z.geb_leb.
    assert ((BPB <=? bi + 1) || (sb_size (f_sb s) <=? b + (bi + 1)) = (N <=? bi + 1)) as ->.
    { destruct (Z.leb_spec BPB (bi + 1)), (Z.leb_spec (sb_size (f_sb s)) (b + (bi + 1))),
        (Z.leb_spec N (bi + 1)); simpl; done || lia. }
    destruct (Z.leb_spec N (bi + 1)) as [Hwrap|Hnext].
    + destruct (Z.eqb_spec 0 lastbi) as [E0|E0].
      * apply wp_ret. split; [done|]. intros j Hj.
        destruct Hinv as [(_ & _ & Hset)|(? & _)]; [|lia].
        destruct (decide (j = bi)) as [->|]; [done|]. apply Hset. lia.
      * apply wp_ret. destruct Hinv as [(Hge & Hn & Hset)|(Hlt & _)]; [|lia].
        exists (Z.to_nat (lastbi - 1)). split; [lia|]. split_and!; [done|lia|lia|]. right.
        split_and!; [lia|lia| |intros; lia]. intros j Hj.
        destruct (decide (j = bi)) as [->|]; [done|]. apply Hset. lia.
    + destruct (Z.eqb_spec (bi + 1) lastbi) as [E1|E1].
      * apply wp_ret. split; [done|]. destruct Hinv as [(Hge & _)|(Hlt & Hn & Hset & Hset0)]; [lia|].
        intros j Hj. destruct (decide (j = bi)) as [->|]; [done|].
        destruct (decide (lastbi ≤ j)); [apply Hset; lia|]. apply Hset0. lia.
      * apply wp_ret. destruct Hinv as [(Hge & Hn & Hset)|(Hlt & Hn & Hset & Hset0)].
        -- exists (Z.to_nat (N - 1 - (bi + 1 - lastbi))). split; [lia|]. split_and!; [done|lia|lia|]. left.
           split_and!; [lia|lia|]. intros j Hj. destruct (decide (j = bi)) as [->|]; [done|]. apply Hset. lia.
        -- exists (Z.to_nat (lastbi - 1 - (bi + 1))). split; [lia|]. split_and!; [done|lia|lia|]. right.
           split_and!; [lia|lia|done|]. intros j Hj. destruct (decide (j = bi)) as [->|]; [done|].
           apply Hset0. lia.
  - lia.
  - split_and!; [done|lia|lia|]. left. split_and!; [lia|lia|]. intros; lia.
Qed.

(** Where balloc() stands: [lastballoc] is the first block of a bitmap block
    and [lastbi] an index of it that the file system has. *)
Record cursor_ok (s : fsst S) : Prop := {
  cu_sb : sb_ok (f_sb s);
  cu_base : f_lastballoc s mod BPB = 0;
  cu_range : 0 ≤ f_lastballoc s ∧ 0 ≤ f_lastbi s < BPB ∧ f_lastballoc s + f_lastbi s < sb_size (f_sb s);
}.

(** The blocks that the bitmap block under the cursor describes. *)
Definition in_group (s : fsst S) (b : Z) : Prop :=
  f_lastballoc s ≤ b < Z.min (f_lastballoc s + BPB) (sb_size (f_sb s)).

Lemma in_group_bitmap s b :
  cursor_ok s → in_group s b →
  BBLOCK b (f_sb s) = BBLOCK (f_lastballoc s) (f_sb s) ∧ b mod BPB = b - f_lastballoc s ∧
  0 ≤ b < 2147483648.
Proof.
  intros [Hsb Hb0 (Hc1 & Hc2 & Hc3)] Hg. unfold in_group in Hg. pose proof (sb_size_ok _ Hsb).
  assert (BPB = 4096) as EB by done.
  pose proof (Z.div_mod (f_lastballoc s) BPB ltac:(done)) as E. rewrite Hb0 in E.
  set (q := f_lastballoc s / BPB) in *.
  assert (b / BPB = q) as Eq by (symmetry; apply (Z.div_unique _ _ _ (b - f_lastballoc s)); lia).
  rewrite !BBLOCK_eq by (done || lia). fold q. rewrite Eq. split_and!; [done| |lia|lia].
  symmetry. apply (Z.mod_unique _ _ q); lia.
Qed.

(** The state after balloc() took block [b]. *)
Definition after_balloc (s : fsst S) (y : S) (b : Z) : fsst S :=
  mkFs y (f_sb s) (f_lastballoc s) (b - f_lastballoc s) (f_icache s) (f_epoch s).

Record balloced (s : fsst S) (y : S) (D : Z → list Z) (b : Z) : Prop := {
  bl_group : in_group s b;
  bl_free : in_use (f_sb s) (disk (f_store s)) b = false;
  bl_effect : effect (f_store s) y D {[BBLOCK b (f_sb s); b]};
  bl_zero : D b = zeros BSIZE;
  bl_other : ∀ x, x ≠ b → x ≠ BBLOCK b (f_sb s) → D x = disk (f_store s) x;
  bl_bits : ∀ c, 0 ≤ c < sb_size (f_sb s) →
    in_use (f_sb s) D c = (c =? b) || in_use (f_sb s) (disk (f_store s)) c;
}.

(** The blocks of the bitmap are themselves marked in use. *)
Definition bitmap_in_use (s : fsst S) : Prop :=
  ∀ c, 0 ≤ c < sb_size (f_sb s) → in_use (f_sb s) (disk (f_store s)) (BBLOCK c (f_sb s)) = true.

Lemma balloc_take {A} s x bp bi R n (k : unit → M (fsst S) A) (Q : A → fsst S → Prop) :
  let b0 := f_lastballoc s in let bb := BBLOCK b0 (f_sb s) in
  room s 1 R n → 1 ≤ n → cursor_ok s → bitmap_in_use s → bb ∈ R →
  (∀ b, 0 ≤ b < sb_size (f_sb s) → up (f_store s) b = true) →
  ok x → hold x bp bb → got (f_store s) x bb →
  in_group s (b0 + bi) → bit (disk (f_store s) bb) bi = false →
  (∀ y D, balloced s y D (b0 + bi) → wp (k tt) (with_store y s) Q) →
  wp (let* d := bdata bp in
      set_bdata bp (set_bit d bi) ;;
      log_write bp ;;
      brelse bp ;;
      let* u := bzero (u32 (b0 + bi)) in k u) (with_store x s) Q.
Proof.
  intros b0 bb Hr Hn Hcu Hbm HbR Hup Hx Hh G Hg Hbit Hk.
  destruct (in_group_bitmap s (b0 + bi) Hcu Hg) as (Ebb & Emod & Hrange). fold b0 bb in Ebb, Emod.
  replace (b0 + bi - b0) with bi in Emod by lia.
  assert (0 ≤ bi < BPB) as Hbi by (rewrite <- Emod; apply mod_BPB).
  pose proof (rm_ok _ _ _ _ Hr) as Hok. pose proof (law_disk_ok _ bb Hok) as Hd.
  pose proof (cu_sb _ Hcu) as Hsb.
  assert (in_use (f_sb s) (disk (f_store s)) (b0 + bi) = false) as Hfree.
  { unfold in_use. by rewrite Ebb, Emod. }
  assert (b0 + bi ≠ bb) as Hne.
  { rewrite <- Ebb. intros E. specialize (Hbm (b0 + bi)). rewrite <- E in Hbm.
    rewrite Hfree in Hbm. unfold in_group in Hg. discriminate Hbm. lia. }
  rewrite u32_small by lia.
  apply wp_bind. apply (wp_bdata _ _ bb); [done|done|]. simpl. rewrite (got_disk _ _ _ G).
  apply wp_bind_assoc3.
  eapply wp_bind_mono; [apply (fs_write_done s x bp bb _ 1 R n); try done; [lia|by apply block_ok_byte]|].
  intros _ s2 (y & -> & E1).
  pose proof (room_step _ _ _ _ _ _ _ Hr E1 ltac:(set_solver)) as Hr1.
  eapply wp_bind_mono; [apply (bzero_ok _ (b0 + bi) (R ∪ {[b0 + bi]}) (n - 1)); [by apply room_extend|lia|set_solver|]|].
  { simpl. destruct E1 as [[_ U _ _ _ _ _ _] _ _]. rewrite U. apply Hup. unfold in_group in Hg. lia. }
  intros [] s3 (z & -> & E2). simpl in E2. rewrite with_store_store.
  apply (Hk z (λ c, if c =? b0 + bi then zeros BSIZE else disk y c)). split.
  - done.
  - done.
  - rewrite Ebb. eapply effect_trans; [exact E1|exact E2].
  - by rewrite Z.eqb_refl.
  - intros c Hc1 Hc2. rewrite Ebb in Hc2. rewrite (proj2 (Z.eqb_neq c _)) by done.
    rewrite (ef_disk _ _ _ _ E1). by rewrite (proj2 (Z.eqb_neq c _)).
  - intros c Hc. pose proof (sb_size_ok _ Hsb).
    assert (in_use (f_sb s) (λ c, if c =? b0 + bi then zeros BSIZE else disk y c) c =
            in_use (f_sb s) (disk y) c) as ->.
    { unfold in_use. destruct (Z.eqb_spec (BBLOCK c (f_sb s)) (b0 + bi)) as [Ec|]; [|done].
      specialize (Hbm c Hc). rewrite Ec in Hbm. congruence. }
    unfold in_use at 1. rewrite (ef_disk _ _ _ _ E1). cbv beta.
    transitivity (if c =? b0 + bi then true else in_use (f_sb s) (disk (f_store s)) c); [|by destruct (_ =? _)].
    rewrite <- (in_use_update (f_sb s) Hsb (disk (f_store s)) (b0 + bi)
      (set_bit (disk (f_store s) bb) bi) c true); [|lia|lia|].
    + unfold in_use. by rewrite Ebb.
    + intros j Hj. rewrite Ebb, Emod, bit_set_bit by done. by destruct (j =? bi).
Qed.

(** balloc() when the bitmap block under the cursor has a free block. *)
Lemma balloc_ok s R n :
  room s 1 R n → 1 ≤ n → cursor_ok s → bitmap_in_use s → BBLOCK (f_lastballoc s) (f_sb s) ∈ R →
  up (f_store s) (BBLOCK (f_lastballoc s) (f_sb s)) = true →
  (∀ b, 0 ≤ b < sb_size (f_sb s) → up (f_store s) b = true) →
  (∃ b, in_group s b ∧ in_use (f_sb s) (disk (f_store s)) b = false) →
  wp balloc s (λ b s', ∃ y D, s' = after_balloc s y b ∧ balloced s y D b).
Proof.
  intros Hr Hn Hcu Hbm HbR Hub Hup (f & Hfg & Hff). unfold balloc.
  apply wp_bind, wp_gets, wp_bind, wp_gets. set (b0 := f_lastballoc s) in *.
  set (bb := BBLOCK b0 (f_sb s)) in *. pose proof (rm_ok _ _ _ _ Hr) as Hok. pose proof (rm_bufs _ _ _ _ Hr).
  pose proof Hcu as [Hsb _ (Hc1 & Hc2 & Hc3)]. fold b0 in Hc1, Hc3.
  pose proof (sb_size_ok _ Hsb) as Hsz. assert (BPB = 4096) as EB by done.
  apply wp_bind. rewrite Nat.add_succ_r. cbn [loop]. apply wp_bind.
  fold bb. eapply wp_bind_mono; [apply fs_bread; [done|done|lia]|].
  intros bp s1 (x & -> & Hx & Hh & G). apply wp_bind, wp_gets. simpl f_lastbi.
  eapply wp_bind_mono.
  { apply (balloc_scan_ok (with_store x s) b0 (f_lastbi s) bp bb (Z.min BPB (sb_size (f_sb s) - b0)));
      simpl; done || lia. }
  intros r s2 [-> Hr2]. simpl in Hr2. rewrite (got_disk _ _ _ G) in Hr2.
  destruct r as [bi|].
  - destruct Hr2 as [Hbi Hbit].
    assert (in_group s (b0 + bi)) as Hg by (unfold in_group; fold b0; lia).
    apply (balloc_take s x bp bi R n); try done. intros y D HB.
    apply wp_bind, wp_modify, wp_ret, wp_ret. rewrite u32_small by (unfold in_group in Hg; lia).
    exists y, D. split; [|exact HB]. unfold after_balloc. simpl. f_equal. lia.
  - exfalso. destruct (in_group_bitmap s f Hcu Hfg) as (Ef1 & Ef2 & _).
    unfold in_use in Hff. fold b0 bb in Ef1, Ef2. rewrite Ef1, Ef2, Hr2 in Hff; [done|].
    unfold in_group in Hfg. fold b0 in Hfg. lia.
Qed.

(** balloc() on a file system of one bitmap block with no free block. *)
Lemma balloc_none s :
  ok (f_store s) → htot (f_store s) < Z.of_nat NBUF → cursor_ok s → f_lastballoc s = 0 →
  sb_size (f_sb s) ≤ BPB → up (f_store s) (BBLOCK 0 (f_sb s)) = true →
  (∀ b, 0 ≤ b < sb_size (f_sb s) → in_use (f_sb s) (disk (f_store s)) b = true) →
  balloc s = Panic "balloc: out of blocks".
Proof.
  intros Hok Ht Hcu E0 Hsz Hub Huse. set (bb := BBLOCK 0 (f_sb s)) in *.
  pose proof Hcu as [Hsb _ (Hc1 & Hc2 & Hc3)]. pose proof (sb_size_ok _ Hsb) as Hss.
  assert (BPB = 4096) as EB by done. rewrite E0 in Hc3.
  unfold balloc. rewrite (bind_Ret (gets f_sb) _ s (f_sb s) s), (bind_Ret (gets f_lastballoc) _ s 0 s) by
    (done || unfold gets; by rewrite E0).
  rewrite Nat.add_succ_r. cbn [loop].
  pose proof (fs_bread s bb Hok Hub Ht) as Hr.
  apply wp_outcome in Hr as (bp & s1 & Er & x & -> & Hx & Hh & G).
  pose proof (balloc_scan_ok (with_store x s) 0 (f_lastbi s) bp bb (Z.min BPB (sb_size (f_sb s) - 0))
    Hx Hh ltac:(lia) ltac:(lia) eq_refl ltac:(lia)) as Hs.
  apply wp_outcome in Hs as (r & s2 & Es & -> & Hr2). simpl in Hr2. rewrite (got_disk _ _ _ G) in Hr2.
  destruct r as [bi|].
  { destruct Hr2 as [Hbi Hf]. exfalso. assert (in_group s bi) as Hg by (unfold in_group; lia).
    destruct (in_group_bitmap s bi Hcu Hg) as (E1 & E2 & _). rewrite E0 in E1, E2.
    specialize (Huse bi ltac:(lia)). unfold in_use in Huse. rewrite E1, E2 in Huse.
    replace (bi - 0) with bi in Huse by lia. unfold bb in Hf. congruence. }
  pose proof (fs_brelse (with_store x s) bp bb Hx Hh) as Hb.
  apply wp_outcome in Hb as ([] & s3 & Eb & y & -> & _).
  unfold bind at 1. rewrite !bind_assoc.
  rewrite (bind_Ret _ _ _ _ _ Er), !bind_assoc, (bind_Ret (gets f_lastbi) _ _ (f_lastbi s) (with_store x s)) by done.
  rewrite !bind_assoc, (bind_Ret _ _ _ _ _ Es), !bind_assoc, (bind_Ret _ _ _ _ _ Eb).
  rewrite u32_small by lia. rewrite (proj2 (Z.geb_le (0 + BPB) _)) by lia. done.
Qed.
End alloc.
