(* ===== verification/FsAllocProps.v ===== *)
(** * The block allocator: its theorems, and the real store below it *)

From S2P Require Import Prelude Bytes Params Store Ondisk Bio BioList BioSpec BioProps Log LogProps Fs FsBlock FsAlloc.

(** ** A running kernel

    The store of Log.v on a device [d], inside one system call, with nothing
    cached; its log has [size] blocks from block 2. *)
Definition open_lstate (d : device) (size : Z) : lstate :=
  mkL (booted d) (mkLog 2 size 1 0 0 (replicate (Z.to_nat LOGSIZE) 0)).

Lemma open_lstate_ok d size :
  (∀ b, block_ok (dev_data d b)) → 1 ≤ size < 1000 →
  let x := open_lstate d size in
  ok x ∧ (∀ b, disk x b = dev_data d b) ∧ htot x = 0 ∧ logged x = ∅ ∧ in_op x = 1 ∧
  cap x = Z.min LOGSIZE (size - 1) ∧ ∀ b, up x b = dev_up d b.
Proof.
  intros Hd Hs x. destruct (booted_ok d Hd) as (I & E & T & C).
  split; [|split; [exact C|split; [exact T|]]]; clear T C.
  - split; [|reflexivity]. split; [by eexists| |].
    + apply (log_ok_counters (empty_log 2 size) 1 0), empty_log_ok; lia.
    + intros b Hb. rewrite lh_list_0 in Hb by reflexivity. by apply not_elem_of_nil in Hb.
  - split; [reflexivity|]. split; [reflexivity|]. split; [reflexivity|].
    intros b. unfold x. simpl. unfold lup. simpl. by rewrite E.
Qed.

(** A file system on it. *)
Definition open_fs (d : device) (sb : superblock) (last lastbi : Z) : fsst lstate :=
  mkFs (open_lstate d 30) sb last lastbi (replicate NINODE inhabitant) 0.

Lemma open_fs_room d sb last lastbi R n :
  (∀ b, block_ok (dev_data d b)) → Z.of_nat (size R) + n < 29 → 
  room (open_fs d sb last lastbi) 3 R n.
Proof.
  intros Hd Hn. destruct (open_lstate_ok d 30 Hd ltac:(lia)) as (O & _ & T & L & I & C & _).
  split; unfold open_fs, f_store.
  - exact O.
  - rewrite T. vm_compute. discriminate.
  - rewrite I. lia.
  - rewrite L, C, union_empty_l_L. unfold LOGSIZE. lia.
Qed.

(** A device of one bitmap block, block 40: its first 60 blocks are in use. *)
Definition small_device : device :=
  mkDevice (λ b, if b =? 40 then replicate 7 255 ++ 15 :: replicate 504 0 else fill_block 1) (λ _, true).
Definition small_sb : superblock := mkSb 1000 900 64 30 2 32 40.

Lemma small_device_ok b : block_ok (dev_data small_device b).
Proof.
  unfold small_device, dev_data. destruct (_ =? _); [|apply block_ok_fill; lia].
  split; [reflexivity|]. apply Forall_app. split; [apply Forall_replicate; lia|].
  apply Forall_cons. split; [lia|]. apply Forall_replicate. lia.
Qed.

Lemma small_sb_ok : sb_ok small_sb.
Proof. split; simpl; lia. Qed.

Lemma small_bit b : 0 ≤ b < 1000 → in_use small_sb (dev_data small_device) b = (b <? 60).
Proof.
  intros Hb. assert (Forall (λ b, in_use small_sb (dev_data small_device) b = (b <? 60)) (seqZ 0 1000)) as F.
  { apply (bool_decide_unpack _). vm_compute. exact I. }
  rewrite Forall_forall in F. apply F, elem_of_seqZ. lia.
Qed.

Section claims.
Context {S : Type} `{BlockStore S}.


(** On a file system of one bitmap block, balloc() with every block in use
    panics: it goes once round the bitmap and stops. *)
Theorem balloc_exhausted (s : fsst S) :
  ok (f_store s) → htot (f_store s) < Z.of_nat NBUF → cursor_ok s → f_lastballoc s = 0 →
  sb_size (f_sb s) ≤ BPB → up (f_store s) (BBLOCK 0 (f_sb s)) = true →
  (∀ b, 0 ≤ b < sb_size (f_sb s) → in_use (f_sb s) (disk (f_store s)) b = true) →
  balloc s = Panic "balloc: out of blocks".
Proof. apply balloc_none. Qed.

(** bfree() of a block in use clears the bit of that block and of no other. *)
Theorem bfree_frees (s : fsst S) b R n :
  room s 1 R n → 0 ≤ n → sb_ok (f_sb s) → 0 ≤ b < 2147483648 →
  BBLOCK b (f_sb s) ∈ R → up (f_store s) (BBLOCK b (f_sb s)) = true →
  in_use (f_sb s) (disk (f_store s)) b = true →
  wp (bfree b) s (λ _ s', ∃ y D, s' = with_store y s ∧ effect (f_store s) y D {[BBLOCK b (f_sb s)]} ∧
    (∀ x, x ≠ BBLOCK b (f_sb s) → D x = disk (f_store s) x) ∧
    ∀ c, 0 ≤ c < 2147483648 →
      in_use (f_sb s) D c = if c =? b then false else in_use (f_sb s) (disk (f_store s)) c).
Proof. apply bfree_ok. Qed.
End claims.

(** ** Witnesses *)

Lemma open_fs_disk d sb last lastbi b :
  (∀ b, block_ok (dev_data d b)) → disk (f_store (open_fs d sb last lastbi)) b = dev_data d b.
Proof. intros Hd. by destruct (open_lstate_ok d 30 Hd ltac:(lia)) as (_ & C & _). Qed.

Lemma in_use_ext sb D E b : (∀ x, D x = E x) → in_use sb D b = in_use sb E b.
Proof. intros HE. unfold in_use. by rewrite HE. Qed.

Lemma small_in_use last lastbi b :
  0 ≤ b < 1000 → in_use small_sb (disk (f_store (open_fs small_device small_sb last lastbi))) b = (b <? 60).
Proof.
  intros Hb. rewrite <- small_bit by done. apply in_use_ext. intros x.
  apply open_fs_disk, small_device_ok.
Qed.

Lemma small_bitmap b : 0 ≤ b < 1000 → BBLOCK b small_sb = 40.
Proof.
  intros Hb. rewrite BBLOCK_eq by (apply small_sb_ok || lia). rewrite Z.div_small by (unfold BPB, BSIZE; lia).
  reflexivity.
Qed.

Lemma small_cursor lastbi : 0 ≤ lastbi < 1000 → cursor_ok (open_fs small_device small_sb 0 lastbi).
Proof.
  intros Hl. split; [exact small_sb_ok|reflexivity|]. simpl. unfold BPB, BSIZE. lia.
Qed.

Lemma small_up b : up (f_store (open_fs small_device small_sb 0 0)) b = true.
Proof. by destruct (open_lstate_ok small_device 30 small_device_ok ltac:(lia)) as (_ & _ & _ & _ & _ & _ & U). Qed.




(** ** A file system of more than one bitmap block

    9000 blocks need three bitmap blocks, of which the last describes only 808
    blocks.  Here the first two are full. *)
Definition big_device : device :=
  mkDevice (λ b, if (b =? 128) || (b =? 129) then fill_block 255
                 else if b =? 130 then 255 :: replicate 511 0 else zeros BSIZE) (λ _, true).
Definition big_sb : superblock := mkSb 9000 8869 200 100 2 102 128.

