(* ===== verification/FsFile.v ===== *)
(** * File content: bmap, readi and writei of kern/fs.c

    An inode and the disk determine the block that holds each block of the
    file, and so the bytes of the file. *)

From S2P Require Import Prelude Bytes Params Store Ondisk Fs FsBlock.

(** ** The abstract file *)

(** The blocks on the way to block [bn] of a file: the block itself comes last,
    after the two levels of indirect blocks if it has them. *)
Definition path (D : Z → list Z) (addrs : list Z) (bn : Z) : list Z :=
  if bn <? NDIRECT then [addrs !!! Z.to_nat bn]
  else
    let k := bn - NDIRECT in
    let top := addrs !!! Z.to_nat NDIRECT in
    let mid := ld_ptr (D top) (k / NINDIRECT) in
    [top; mid; ld_ptr (D mid) (k mod NINDIRECT)].

Definition leaf (D : Z → list Z) (addrs : list Z) (bn : Z) : Z := List.last (path D addrs bn) 0.

(** Byte [i] of the file, and [n] bytes from [off]. *)
Definition fbyte (D : Z → list Z) (addrs : list Z) (i : Z) : Z :=
  byte (D (leaf D addrs (i / BSIZE))) (i mod BSIZE).
Definition fslice (D : Z → list Z) (addrs : list Z) (off n : Z) : list Z :=
  map (fbyte D addrs) (seqZ off n).

Lemma path_ext D E addrs bn : (∀ b, D b = E b) → path D addrs bn = path E addrs bn.
Proof. intros HE. unfold path. by rewrite !HE. Qed.
Lemma leaf_ext D E addrs bn : (∀ b, D b = E b) → leaf D addrs bn = leaf E addrs bn.
Proof. intros HE. unfold leaf. by rewrite (path_ext D E). Qed.
Lemma fbyte_ext D E addrs i : (∀ b, D b = E b) → fbyte D addrs i = fbyte E addrs i.
Proof. intros HE. unfold fbyte. by rewrite (leaf_ext D E), HE. Qed.
Lemma fslice_ext D E addrs off n : (∀ b, D b = E b) → fslice D addrs off n = fslice E addrs off n.
Proof. intros HE. unfold fslice. apply map_ext. intros. by apply fbyte_ext. Qed.

Lemma fslice_app D addrs off n m :
  0 ≤ n → 0 ≤ m → fslice D addrs off (n + m) = fslice D addrs off n ++ fslice D addrs (off + n) m.
Proof. intros. unfold fslice. rewrite seqZ_app by done. apply map_app. Qed.

Lemma zlen_fslice D addrs off n : 0 ≤ n → zlen (fslice D addrs off n) = n.
Proof. intros. unfold zlen, fslice. rewrite length_map, length_seqZ. lia. Qed.

Lemma byte_fslice D addrs off n i :
  0 ≤ i < n → byte (fslice D addrs off n) i = fbyte D addrs (off + i).
Proof.
  intros Hi. unfold byte, fslice. rewrite nth_lookup, list_lookup_fmap, lookup_seqZ_lt by lia.
  simpl. f_equal. lia.
Qed.

(** The part of a file that one block holds. *)
Lemma in_block off m i :
  0 ≤ off → 0 ≤ i < m → m ≤ BSIZE - off mod BSIZE →
  (off + i) / BSIZE = off / BSIZE ∧ (off + i) mod BSIZE = off mod BSIZE + i.
Proof.
  unfold BSIZE. intros Ho Hi Hm. pose proof (Z.div_mod off 512 ltac:(lia)) as E.
  pose proof (Z.mod_pos_bound off 512 ltac:(lia)) as Hb.
  assert ((off + i) / 512 = off / 512) as Eq
    by (symmetry; apply (Z.div_unique _ _ _ (off mod 512 + i)); lia).
  split; [done|]. symmetry. apply (Z.mod_unique _ _ (off / 512)); lia.
Qed.

Lemma fslice_block D addrs off m :
  0 ≤ off → 0 ≤ m ≤ BSIZE - off mod BSIZE → zlen (D (leaf D addrs (off / BSIZE))) = BSIZE →
  fslice D addrs off m = slice (D (leaf D addrs (off / BSIZE))) (off mod BSIZE) m.
Proof.
  intros Ho Hm Hl. pose proof (Z.mod_pos_bound off BSIZE ltac:(done)).
  apply byte_ext.
  - rewrite zlen_fslice, zlen_slice by lia. done.
  - rewrite zlen_fslice by lia. intros i Hi. rewrite byte_fslice, byte_slice by lia.
    unfold fbyte. destruct (in_block off m i) as [-> ->]; [lia..|done].
Qed.

Section file.
Context {S : Type} `{BlockStore S}.
Implicit Types s : fsst S.

(** Block [bn] is in the file, on blocks that the device has. *)
Record mapped (x : S) (addrs : list Z) (bn : Z) : Prop := {
  mp_range : 0 ≤ bn < MAXFILE;
  mp_path : ∀ b, b ∈ path (disk x) addrs bn → b ≠ 0 ∧ up x b = true;
}.

Lemma mapped_effect x y addrs bn R :
  effect x y (disk x) R → mapped x addrs bn → mapped y addrs bn.
Proof.
  intros [[_ U _ _ _ _ _ _] D _] [Hr Hp]. split; [done|]. intros b.
  rewrite (path_ext _ (disk x)) by done. rewrite U. apply Hp.
Qed.

Lemma effect_seq x y z R R' : effect x y (disk x) R → effect y z (disk y) R' → effect x z (disk x) (R ∪ R').
Proof.
  intros E1 E2. eapply effect_weaken; [by eapply effect_trans| |done].
  intros b. apply (ef_disk _ _ _ _ E1).
Qed.

(** An entry of an indirect block that is there. *)
Lemma bmap_step_mapped s addr i :
  ok (f_store s) → up (f_store s) addr = true → htot (f_store s) < Z.of_nat NBUF →
  ld_ptr (disk (f_store s) addr) i ≠ 0 →
  wp (bmap_step addr i) s (λ a s', a = ld_ptr (disk (f_store s) addr) i ∧
    ∃ y, s' = with_store y s ∧ effect (f_store s) y (disk (f_store s)) ∅).
Proof.
  intros Hok Hu Ht Hne. unfold bmap_step.
  eapply wp_bind_mono; [by apply fs_bread|]. intros k s1 (x & -> & Hx & Hh & G).
  apply wp_bind. apply (wp_bdata _ _ addr); [done|done|]. simpl. rewrite (got_disk _ _ _ G).
  rewrite (proj2 (Z.eqb_neq _ _) Hne). apply wp_bind, wp_ret.
  eapply wp_bind_mono; [by apply (fs_read_done s x k addr)|]. intros _ s2 (y & -> & E).
  apply wp_ret. split; [done|]. by exists y.
Qed.

(** bmap() of a block that is there only reads. *)
Lemma bmap_mapped s ip bn :
  ok (f_store s) → htot (f_store s) < Z.of_nat NBUF →
  mapped (f_store s) (i_addrs (getip s ip)) bn →
  wp (bmap ip bn) s (λ a s', a = leaf (disk (f_store s)) (i_addrs (getip s ip)) bn ∧
    ∃ y, s' = with_store y s ∧ effect (f_store s) y (disk (f_store s)) ∅).
Proof.
  intros Hok Ht [[Hr1 Hr2] Hp]. unfold bmap, leaf, path in *.
  set (addrs := i_addrs (getip s ip)) in *.
  assert (∀ i, addrs !!! i ≠ 0 →
    wp (bmap_addr ip i) s (λ a s', a = addrs !!! i ∧ s' = s)) as Haddr.
  { intros i Hi. unfold bmap_addr. apply wp_bind, wp_gets. fold addrs.
    rewrite (proj2 (Z.eqb_neq _ _) Hi). by apply wp_ret. }
  destruct (Z.ltb_spec bn NDIRECT) as [Hd|Hd].
  - destruct (Hp (addrs !!! Z.to_nat bn)) as [Hne _]; [list_in|].
    eapply wp_mono; [by apply Haddr|]. intros a s' [-> ->]. split; [done|].
    exists (f_store s). rewrite with_store_self. split; [done|by apply effect_refl].
  - destruct (Z.ltb_spec (bn - NDIRECT) (NINDIRECT * NINDIRECT)) as [Hk|]; [|unfold MAXFILE in *; lia].
    set (k := bn - NDIRECT) in *. set (top := addrs !!! Z.to_nat NDIRECT) in *.
    set (mid := ld_ptr (disk (f_store s) top) (k / NINDIRECT)) in *.
    destruct (Hp top) as [Hn1 Hu1]; [list_in|]. destruct (Hp mid) as [Hn2 Hu2]; [list_in|].
    destruct (Hp (ld_ptr (disk (f_store s) mid) (k mod NINDIRECT))) as [Hn3 _]; [list_in|].
    eapply wp_bind_mono; [by apply Haddr|]. intros a s1 [-> ->]. fold top.
    eapply wp_bind_mono; [by apply bmap_step_mapped|]. intros a s1 (-> & y & -> & E1). fold mid.
    pose proof E1 as [[O U _ _ _ _ T _] D _].
    eapply wp_mono; [apply bmap_step_mapped; simpl; [done|by rewrite U|by rewrite T|by rewrite D]|].
    intros a s2 (-> & z & -> & E2). simpl in E2. simpl. rewrite D. split; [done|].
    exists z. split; [done|]. eapply effect_weaken; [by eapply effect_seq|done|set_solver].
Qed.

(** Reading the part of a file that is on one block. *)
Lemma read_one s ip off m {A} (k : list Z → M (fsst S) A) (Q : A → fsst S → Prop) :
  let addrs := i_addrs (getip s ip) in
  ok (f_store s) → htot (f_store s) < Z.of_nat NBUF → 0 ≤ off →
  mapped (f_store s) addrs (off / BSIZE) → 0 ≤ m ≤ BSIZE - off mod BSIZE →
  (∀ y, effect (f_store s) y (disk (f_store s)) ∅ →
     wp (k (fslice (disk (f_store s)) addrs off m)) (with_store y s) Q) →
  wp (let* addr := bmap ip (off / BSIZE) in
      let* bp := bread addr in
      let* d := bdata bp in
      brelse bp ;;
      k (slice d (off mod BSIZE) m)) s Q.
Proof.
  intros addrs Hok Ht Ho Hm Hlen Hk.
  eapply wp_bind_mono; [by apply bmap_mapped|]. intros a s1 (-> & y & -> & E1). fold addrs.
  pose proof E1 as [[O U _ _ _ _ T _] D _].
  set (b := leaf (disk (f_store s)) addrs (off / BSIZE)).
  assert (up (f_store s) b = true) as Hu.
  { apply (mp_path _ _ _ Hm). unfold b, leaf, path. destruct (_ <? _); list_in. }
  eapply wp_bind_mono; [apply fs_bread; simpl; [done|by rewrite U|by rewrite T]|].
  intros bp s2 (x & -> & Hx & Hh & G). simpl in G. rewrite with_store_store.
  apply wp_bind. apply (wp_bdata _ _ b); [done|done|]. simpl. rewrite (got_disk _ _ _ G), D.
  unfold b at 1. rewrite <- (fslice_block (disk (f_store s)) addrs off m); [|done|done|by apply law_disk_ok].
  eapply wp_bind_mono; [by apply (fs_read_done (with_store y s) x bp b)|].
  intros _ s3 (z & -> & E2). simpl in E2. rewrite with_store_store. apply Hk.
  eapply effect_weaken; [by eapply effect_seq|done|set_solver].
Qed.

Lemma readi_ok s ip off n :
  let x := getip s ip in
  ok (f_store s) → htot (f_store s) < Z.of_nat NBUF → 0 ≤ off ≤ i_size x → 0 ≤ n →
  off + n < 4294967296 → i_size x < 2147483648 →
  (∀ bn, 0 ≤ bn * BSIZE < i_size x → mapped (f_store s) (i_addrs x) bn) →
  wp (readi ip off n) s (λ r s', ∃ y, s' = with_store y s ∧ effect (f_store s) y (disk (f_store s)) ∅ ∧
    let m := Z.min n (i_size x - off) in
    r = (m, fslice (disk (f_store s)) (i_addrs x) off m)).
Proof.
  intros x Hok Ht Ho Hn Hw Hsz Hmap. unfold readi. apply wp_bind, wp_gets. fold x.
  rewrite (u32_small (off + n)) by lia. rewrite !Z.gtb_ltb.
  destruct (Z.ltb_spec (i_size x) off); [lia|]. destruct (Z.ltb_spec (off + n) off); [lia|]. simpl.
  set (m := if i_size x <? off + n then i_size x - off else n).
  assert (m = Z.min n (i_size x - off)) as Em by (unfold m; destruct (Z.ltb_spec (i_size x) (off + n)); lia).
  rewrite <- Em. assert (0 ≤ m ∧ off + m ≤ i_size x) as Hm by lia. clearbody m.
  set (D := disk (f_store s)). eapply wp_bind_mono.
  { apply (wp_loop _ (λ r '(tot, off', dst) s', ∃ y, s' = with_store y s ∧ effect (f_store s) y D ∅ ∧
      0 ≤ tot ≤ m ∧ off' = off + tot ∧ dst = fslice D (i_addrs x) off tot ∧ r = Z.to_nat (m - tot))
      (λ dst s', ∃ y, s' = with_store y s ∧ effect (f_store s) y D ∅ ∧ dst = fslice D (i_addrs x) off m)
      ) with (n := Z.to_nat m).
    - intros r [[tot off'] dst] s' (y & -> & E & Ht1 & -> & -> & ->).
      destruct (Z.ltb_spec tot m) as [Hlt|Hge].
      2:{ assert (tot = m) as -> by lia. apply wp_ret. by exists y. }
      pose proof E as [[O U _ _ _ _ T _] Dy _].
      set (q := Z.min (m - tot) (BSIZE - (off + tot) mod BSIZE)).
      pose proof (Z.mod_pos_bound (off + tot) BSIZE ltac:(done)) as Hb.
      apply (read_one (with_store y s) ip (off + tot) q
               (λ bs, ret (inl (tot + q, off + tot + q, fslice D (i_addrs x) off tot ++ bs)))); simpl.
      + done.
      + by rewrite T.
      + lia.
      + change (getip (with_store y s) ip) with x. apply (mapped_effect _ _ _ _ ∅ E), Hmap.
        pose proof (Z.div_mod (off + tot) BSIZE ltac:(done)). unfold BSIZE in *.
        pose proof (Z.div_pos (off + tot) 512). lia.
      + lia.
      + change (getip (with_store y s) ip) with x. intros z E2. apply wp_ret.
        exists (Z.to_nat (m - (tot + q))). split; [lia|]. exists z. split; [done|]. split_and!; try lia.
        * eapply effect_weaken; [by eapply effect_trans| |set_solver]. intros b. by rewrite Dy.
        * rewrite fslice_app by lia. f_equal. by apply fslice_ext.
    - lia.
    - exists (f_store s). rewrite with_store_self. split_and!; try done; try lia.
      by apply effect_refl. }
  intros dst s' (y & -> & E & ->). apply wp_ret. exists y. split; [done|]. split; [done|].
  by rewrite s32_small by lia.
Qed.
End file.
