(* ===== verification/FsFileProps.v ===== *)
(** * writei(): changing a file *)

From S2P Require Import Prelude Bytes Params Store Ondisk OndiskSpec Bio BioSpec BioProps Log LogProps Fs FsBlock FsAlloc FsAllocProps FsFile.

(** The first [nb] blocks of a file are on distinct blocks of the disk, none of
    which is one of its indirect blocks. *)
Record wf_blocks (D : Z → list Z) (addrs : list Z) (nb : Z) : Prop := {
  wb_inj : ∀ i j, 0 ≤ i < nb → 0 ≤ j < nb → leaf D addrs i = leaf D addrs j → i = j;
  wb_ind : ∀ i j, 0 ≤ i < nb → 0 ≤ j < nb → leaf D addrs i ∉ removelast (path D addrs j);
}.

(** Changing blocks that are not indirect blocks of a file keeps its map. *)
Lemma path_frame D E addrs bn :
  (∀ b, b ∈ removelast (path D addrs bn) → E b = D b) → path E addrs bn = path D addrs bn.
Proof.
  unfold path. destruct (bn <? NDIRECT); [done|]. simpl. intros Hf.
  rewrite (Hf (addrs !!! Z.to_nat NDIRECT)) by list_in.
  by rewrite (Hf (ld_ptr (D (addrs !!! Z.to_nat NDIRECT)) ((bn - NDIRECT) / NINDIRECT))) by list_in.
Qed.

(** [D'] is [D] with [bs] written at offset [off] of the file. *)
Record wrote (D D' : Z → list Z) (addrs : list Z) (nb off : Z) (bs : list Z) : Prop := {
  wr_path : ∀ j, 0 ≤ j < nb → path D' addrs j = path D addrs j;
  wr_bytes : ∀ i, 0 ≤ i < nb * BSIZE → fbyte D' addrs i =
    if (off <=? i) && (i <? off + zlen bs) then byte bs (i - off) else fbyte D addrs i;
  wr_blocks : ∀ c, (∀ j, 0 ≤ j < nb → off / BSIZE ≤ j → j * BSIZE < off + zlen bs → c ≠ leaf D addrs j) →
    D' c = D c;
}.

Lemma wrote_nil D addrs nb off : wrote D D addrs nb off [].
Proof.
  split; [done| |done]. intros i Hi. change (zlen []) with 0.
  destruct (Z.leb_spec off i), (Z.ltb_spec i (off + 0)); simpl; done || lia.
Qed.

Lemma block_index i nb : 0 ≤ i < nb * BSIZE → 0 ≤ i / BSIZE < nb.
Proof.
  unfold BSIZE. intros Hi. split; [apply Z.div_pos; lia|]. apply Z.div_lt_upper_bound; lia.
Qed.

(** One round of the loop: the bytes of one block. *)
Lemma wrote_snoc D D' addrs nb off bs m cs :
  wf_blocks D addrs nb → wrote D D' addrs nb off bs →
  0 ≤ off → (∀ b, zlen (D' b) = BSIZE) →
  let off' := off + zlen bs in
  let b := leaf D addrs (off' / BSIZE) in
  zlen cs = m → 0 < m ≤ BSIZE - off' mod BSIZE → off' + m ≤ nb * BSIZE →
  wrote D (λ c, if c =? b then splice (D' b) (off' mod BSIZE) cs else D' c) addrs nb off (bs ++ cs).
Proof.
  intros [Hinj Hind] [Hp Hb Hc] Ho Hl off' b Hcs Hm Hfit.
  pose proof (zlen_nonneg bs) as Hbs. pose proof (Z.mod_pos_bound off' BSIZE ltac:(done)) as Hmod.
  assert (0 ≤ off' / BSIZE < nb) as Hbn by (apply block_index; lia).
  set (E := λ c, if c =? b then splice (D' b) (off' mod BSIZE) cs else D' c).
  assert (∀ j, 0 ≤ j < nb → path E addrs j = path D addrs j) as HpE.
  { intros j Hj. rewrite <- Hp by done. apply path_frame. intros c Hin. unfold E.
    destruct (Z.eqb_spec c b) as [->|]; [|done]. rewrite Hp in Hin by done. by apply Hind in Hin. }
  assert (∀ j, 0 ≤ j < nb → leaf E addrs j = leaf D addrs j) as HlE by (intros; unfold leaf; by rewrite HpE).
  assert (∀ j, 0 ≤ j < nb → leaf D' addrs j = leaf D addrs j) as HlD' by (intros; unfold leaf; by rewrite Hp).
  split; [done|..].
  - intros i Hi. pose proof (block_index _ _ Hi) as Hib. rewrite zlen_app, Hcs.
    specialize (Hb i Hi). unfold fbyte in *. rewrite HlE, (HlD' (i / BSIZE)) in * by done.
    unfold E. destruct (Z.eqb_spec (leaf D addrs (i / BSIZE)) b) as [Eb|Eb].
    + apply Hinj in Eb; [|done|done]. rewrite Eb in Hb. fold b in Hb.
      pose proof (Z.div_mod i BSIZE ltac:(done)) as Ei. pose proof (Z.div_mod off' BSIZE ltac:(done)) as Eo.
      pose proof (Z.mod_pos_bound i BSIZE ltac:(done)) as Him. rewrite Eb in Ei |- *. fold b.
      destruct (decide (off' ≤ i < off' + m)) as [Hin|Hout].
      * rewrite byte_splice_in by (rewrite ?Hl, ?Hcs; lia).
        destruct (Z.leb_spec off i), (Z.ltb_spec i (off + (zlen bs + m))); try lia. simpl.
        rewrite byte_app_r by lia. f_equal. lia.
      * rewrite byte_splice_out by (rewrite ?Hl, ?Hcs; lia). rewrite Hb.
        destruct (Z.leb_spec off i), (Z.ltb_spec i (off + zlen bs)), (Z.ltb_spec i (off + (zlen bs + m)));
          simpl; try lia; [|done..]. rewrite byte_app_l by lia. done.
    + rewrite Hb. assert (¬ (off' ≤ i < off' + m)) as Hout.
      { intros Hin. apply Eb. unfold b. f_equal.
        destruct (in_block off' m (i - off')) as [Ed _]; [lia..|].
        by replace (off' + (i - off')) with i in Ed by lia. }
      destruct (Z.leb_spec off i), (Z.ltb_spec i (off + zlen bs)), (Z.ltb_spec i (off + (zlen bs + m)));
        simpl; try lia; [|done..]. rewrite byte_app_l by lia. done.
  - intros c Hne. unfold E. rewrite zlen_app, Hcs in Hne. rewrite (proj2 (Z.eqb_neq c b)).
    + apply Hc. intros j Hj1 Hj2 Hj3. apply Hne; try done. lia.
    + apply Hne; [done|apply Z.div_le_mono; [done|lia]|].
      pose proof (Z.div_mod off' BSIZE ltac:(done)). lia.
Qed.

Section write.
Context {S : Type} `{BlockStore S}.
Implicit Types s : fsst S.

Lemma Forall_slice (P : Z → Prop) l off n : Forall P l → Forall P (slice l off n).
Proof. intros. unfold slice. by apply Forall_take, Forall_drop. Qed.

(** Writing the part of a file that is on one block. *)
Lemma write_one s ip off cs R n {A} (k : M (fsst S) A) (Q : A → fsst S → Prop) :
  let addrs := i_addrs (getip s ip) in
  let b := leaf (disk (f_store s)) addrs (off / BSIZE) in
  room s 1 R n → 0 ≤ n → 0 ≤ off → mapped (f_store s) addrs (off / BSIZE) → b ∈ R →
  Forall (λ c, 0 ≤ c < 256) cs → zlen cs ≤ BSIZE - off mod BSIZE →
  (∀ y, effect (f_store s) y (λ c, if c =? b then splice (disk (f_store s) b) (off mod BSIZE) cs
                                   else disk (f_store s) c) {[b]} →
     wp k (with_store y s) Q) →
  wp (let* addr := bmap ip (off / BSIZE) in
      let* bp := bread addr in
      let* d := bdata bp in
      set_bdata bp (splice d (off mod BSIZE) cs) ;;
      log_write bp ;;
      brelse bp ;;
      k) s Q.
Proof.
  intros addrs b Hr Hn Ho Hm HbR Hcs Hlen Hk. pose proof (rm_ok _ _ _ _ Hr) as Hok.
  pose proof (rm_bufs _ _ _ _ Hr).
  eapply wp_bind_mono; [apply bmap_mapped; [done|lia|done]|]. intros a s1 (-> & y & -> & E1). fold addrs b.
  pose proof E1 as [[O U _ _ _ _ T _] D _].
  assert (up (f_store s) b = true) as Hu.
  { apply (mp_path _ _ _ Hm). unfold b, leaf, path. destruct (_ <? _); list_in. }
  pose proof (room_step _ _ _ _ _ _ _ Hr E1 ltac:(set_solver)) as Hr1.
  eapply wp_bind_mono; [apply fs_bread; simpl; [done|by rewrite U|lia]|].
  intros bp s2 (x & -> & Hx & Hh & G). simpl in G. rewrite with_store_store.
  apply wp_bind. apply (wp_bdata _ _ b); [done|done|]. simpl. rewrite (got_disk _ _ _ G), D.
  apply wp_bind_assoc3. pose proof (Z.mod_pos_bound off BSIZE ltac:(done)).
  eapply wp_bind_mono; [apply (fs_write_done (with_store y s) x bp b _ 1 R n); try done|].
  { apply block_ok_splice; [by apply law_disk_ok|done|lia|lia]. }
  intros _ s3 (z & -> & E2). simpl in E2. rewrite with_store_store. apply Hk.
  eapply effect_weaken; [by eapply effect_trans| |set_solver].
  intros c. cbv beta. by rewrite D.
Qed.

(** iupdate(): the in-core inode goes to its place in the inode block. *)
Lemma iupdate_ok s ip R n :
  let x := getip s ip in
  let ib := IBLOCK (i_inum x) (f_sb s) in
  room s 1 R n → 0 ≤ n → ib ∈ R → up (f_store s) ib = true → length (i_addrs x) = NADDR →
  wp (iupdate ip) s (λ _ s', ∃ y, s' = with_store y s ∧
    effect (f_store s) y (λ c, if c =? ib then put_dinode (disk (f_store s) ib) (ioff (i_inum x)) x
                               else disk (f_store s) c) {[ib]}).
Proof.
  intros x ib Hr Hn HR Hu Ha. unfold iupdate. apply wp_bind, wp_gets, wp_bind, wp_gets. fold x ib.
  apply (fs_update s ib (λ d, put_dinode d (ioff (i_inum x)) x) R n); try done.
  pose proof (law_disk_ok _ ib (rm_ok _ _ _ _ Hr)) as Hd. by apply block_ok_put_dinode.
Qed.

(** What writei() needs: the blocks it touches are there and may be logged. *)
Record writable (s : fsst S) (ip : nat) (nb : Z) (R : gset Z) (n : Z) : Prop := {
  wa_room : room s 1 R n;
  wa_n : 0 ≤ n;
  wa_mapped : ∀ bn, 0 ≤ bn < nb → mapped (f_store s) (i_addrs (getip s ip)) bn;
  wa_wf : wf_blocks (disk (f_store s)) (i_addrs (getip s ip)) nb;
}.

Lemma fbyte_leaf D D' addrs i : path D' addrs (i / BSIZE) = path D addrs (i / BSIZE) →
  leaf D' addrs (i / BSIZE) = leaf D addrs (i / BSIZE).
Proof. unfold leaf. by intros ->. Qed.

(** The loop of writei(). *)
Lemma writei_loop_ok s ip src off n nb R r :
  let addrs := i_addrs (getip s ip) in
  let D := disk (f_store s) in
  writable s ip nb R r → 0 ≤ off → 0 ≤ n ≤ zlen src → off + n ≤ nb * BSIZE →
  Forall (λ c, 0 ≤ c < 256) src →
  (∀ j, 0 ≤ j < nb → off / BSIZE ≤ j → j * BSIZE < off + n → leaf D addrs j ∈ R) →
  wp (loop (Z.to_nat n + 1) (λ '(tot, off),
    if tot <? n then
      let* addr := bmap ip (off / BSIZE) in
      let* bp := bread addr in
      let m := Z.min (n - tot) (BSIZE - off mod BSIZE) in
      let* d := bdata bp in
      set_bdata bp (splice d (off mod BSIZE) (slice src tot m)) ;;
      log_write bp ;;
      brelse bp ;;
      ret (inl (tot + m, off + m))
    else ret (inr off)) (0, off)) s
   (λ r s', r = off + n ∧ ∃ y D', s' = with_store y s ∧ effect (f_store s) y D' R ∧
      wrote D D' addrs nb off (slice src 0 n)).
Proof.
  intros addrs D [Hr Hr0 Hmap Hwf] Ho Hn Hfit Hsrc HR.
  apply (wp_loop _ (λ k '(tot, off') s', ∃ y D', s' = with_store y s ∧ effect (f_store s) y D' R ∧
      0 ≤ tot ≤ n ∧ off' = off + tot ∧ k = Z.to_nat (n - tot) ∧
      wrote D D' addrs nb off (slice src 0 tot))) with (n := Z.to_nat n).
  2:{ lia. }
  2:{ exists (f_store s), D. rewrite with_store_self. split_and!; try done; try lia.
      - eapply effect_weaken; [apply effect_refl, Hr|done|set_solver].
      - apply wrote_nil. }
  intros k [tot off'] s' (y & D' & -> & E & Ht & -> & -> & W).
  destruct (Z.ltb_spec tot n) as [Hlt|Hge].
  2:{ assert (tot = n) as -> by lia. apply wp_ret. split; [done|]. by exists y, D'. }
  pose proof E as [[O U _ _ _ _ T _] Dy _].
  set (m := Z.min (n - tot) (BSIZE - (off + tot) mod BSIZE)).
  pose proof (Z.mod_pos_bound (off + tot) BSIZE ltac:(done)) as Hb.
  assert (zlen (slice src 0 tot) = tot) as Ezt by (apply zlen_slice; lia).
  assert (zlen (slice src tot m) = m) as Ezm by (apply zlen_slice; lia).
  assert (0 ≤ (off + tot) / BSIZE < nb) as Hbn by (apply block_index; lia).
  assert (leaf (disk y) addrs ((off + tot) / BSIZE) = leaf D addrs ((off + tot) / BSIZE)) as El.
  { rewrite (leaf_ext (disk y) D') by done. unfold leaf. by rewrite (wr_path _ _ _ _ _ _ W). }
  apply (write_one (with_store y s) ip (off + tot) (slice src tot m) R r); simpl.
  - by eapply room_step.
  - done.
  - lia.
  - change (getip (with_store y s) ip) with (getip s ip). fold addrs.
    split; [by apply Hmap|]. intros b. rewrite (path_ext (disk y) D') by done.
    rewrite (wr_path _ _ _ _ _ _ W) by done. rewrite U. by apply (mp_path _ _ _ (Hmap _ Hbn)).
  - change (getip (with_store y s) ip) with (getip s ip). fold addrs. rewrite El.
    apply HR; [done|apply Z.div_le_mono; [done|lia]|].
    pose proof (Z.div_mod (off + tot) BSIZE ltac:(done)). lia.
  - by apply Forall_slice.
  - rewrite Ezm. lia.
  - change (getip (with_store y s) ip) with (getip s ip). fold addrs. rewrite El.
    intros z E2. apply wp_ret. exists (Z.to_nat (n - (tot + m))). split; [lia|].
    set (b := leaf D addrs ((off + tot) / BSIZE)) in *.
    exists z, (λ c, if c =? b then splice (D' b) ((off + tot) mod BSIZE) (slice src tot m) else D' c).
    assert (b ∈ R) as HbR.
    { apply HR; [done|apply Z.div_le_mono; [done|lia]|].
      pose proof (Z.div_mod (off + tot) BSIZE ltac:(done)). lia. }
    split_and!; try done; try lia.
    + eapply effect_weaken; [by eapply effect_trans| |set_solver].
      intros c. cbv beta. by rewrite !Dy.
    + replace (slice src 0 (tot + m)) with (slice src 0 tot ++ slice src tot m).
      2:{ unfold slice. change (Z.to_nat 0) with 0%nat. rewrite !drop_0.
          replace (Z.to_nat (tot + m)) with (Z.to_nat tot + Z.to_nat m)%nat by lia.
          by rewrite <- take_take_drop. }
      pose proof (wrote_snoc D D' addrs nb off (slice src 0 tot) m (slice src tot m)) as Hs.
      rewrite Ezt in Hs. apply Hs; try done; try lia.
      intros c. rewrite <- Dy. by apply law_disk_ok.
Qed.

(** The inode that writei() leaves in core. *)
Definition grown (s : fsst S) (off n : Z) (x : inode) : inode :=
  if (n >? 0) && (off + n >? i_size x) then set_mtime (s32 (f_epoch s)) (set_size (off + n) x) else x.

(** [D'] is [D] with [bs] written at offset [off] of the file, up to the inode block [ib]. *)
Record updated (D D' : Z → list Z) (addrs : list Z) (nb off : Z) (bs : list Z) (ib : Z) : Prop := {
  up_path : ∀ j, 0 ≤ j < nb → path D' addrs j = path D addrs j;
  up_bytes : ∀ i, 0 ≤ i < nb * BSIZE → fbyte D' addrs i =
    if (off <=? i) && (i <? off + zlen bs) then byte bs (i - off) else fbyte D addrs i;
  up_blocks : ∀ c, c ≠ ib →
    (∀ j, 0 ≤ j < nb → off / BSIZE ≤ j → j * BSIZE < off + zlen bs → c ≠ leaf D addrs j) → D' c = D c;
}.

Lemma updated_of_wrote D D1 D' addrs nb off bs ib :
  wrote D D1 addrs nb off bs → (∀ c, c ≠ ib → D' c = D1 c) →
  (∀ j, 0 ≤ j < nb → ib ∉ path D addrs j) → updated D D' addrs nb off bs ib.
Proof.
  intros [Hp Hb Hc] HD Hib.
  assert (∀ j, 0 ≤ j < nb → path D' addrs j = path D addrs j) as HpD'.
  { intros j Hj. rewrite <- Hp by done. apply path_frame. intros b Hin. apply HD. intros ->.
    apply (Hib j Hj). rewrite <- Hp by done. revert Hin. unfold path. destruct (_ <? _); simpl; intros; list_in. }
  split; [done| |].
  - intros i Hi. rewrite <- Hb by done. pose proof (block_index _ _ Hi) as Hj. unfold fbyte, leaf.
    rewrite HpD', Hp by done. rewrite HD; [done|]. intros E. apply (Hib _ Hj). rewrite <- E.
    unfold path. destruct (_ <? _); simpl; list_in.
  - intros c Hne Hleaf. rewrite HD by done. by apply Hc.
Qed.

(** writei() of blocks that are there. *)
Lemma writei_ok s ip src off n nb R r :
  let x := getip s ip in
  let D := disk (f_store s) in
  let ib := IBLOCK (i_inum x) (f_sb s) in
  writable s ip nb R r → (ip < length (f_icache s))%nat →
  0 ≤ off ≤ i_size x → 0 ≤ n ≤ zlen src → off + n ≤ nb * BSIZE → nb ≤ MAXFILE →
  Forall (λ c, 0 ≤ c < 256) src →
  (∀ j, 0 ≤ j < nb → off / BSIZE ≤ j → j * BSIZE < off + n → leaf D (i_addrs x) j ∈ R) →
  ib ∈ R → up (f_store s) ib = true → length (i_addrs x) = NADDR →
  (∀ j, 0 ≤ j < nb → ib ∉ path D (i_addrs x) j) →
  wp (writei ip src off n) s (λ m s', m = n ∧ ∃ y D',
    s' = with_icache (alter (grown s off n) ip (f_icache s)) (with_store y s) ∧
    effect (f_store s) y D' R ∧ updated D D' (i_addrs x) nb off (slice src 0 n) ib).
Proof.
  intros x D ib Hwa Hip Ho Hn Hfit Hnb Hsrc HR HibR Hub Ha Hout.
  assert (MAXFILE * BSIZE = 8394240) as EM by done.
  assert (nb * BSIZE ≤ 8394240) as Hbig.
  { rewrite <- EM. apply Z.mul_le_mono_nonneg_r; [done|exact Hnb]. }
  unfold writei. apply wp_bind, wp_gets. fold x.
  rewrite (u32_small (off + n)) by lia. rewrite EM, !Z.gtb_ltb.
  destruct (Z.ltb_spec (i_size x) off); [lia|]. destruct (Z.ltb_spec (off + n) off); [lia|]. simpl.
  destruct (Z.ltb_spec 8394240 (off + n)); [lia|].
  eapply wp_bind_mono; [by eapply (writei_loop_ok s ip src off n nb R r); try done; lia|].
  intros off' s1 (-> & y & D1 & -> & E & W). apply wp_bind, wp_gets.
  change (getip (with_store y s) ip) with x. rewrite s32_small by lia. rewrite (Z.gtb_ltb (off + n)).
  destruct ((0 <? n) && (i_size x <? off + n)) eqn:Eg.
  - assert (alter (grown s off n) ip (f_icache s) =
            alter (λ x, set_mtime (s32 (f_epoch s)) (set_size (off + n) x)) ip (f_icache s)) as Eal.
    { apply list_alter_ext; [|done]. intros z Hz. unfold grown. rewrite !Z.gtb_ltb.
      assert (z = x) as -> by (unfold x, getip; symmetry; by apply list_lookup_total_correct).
      by rewrite Eg. }
    rewrite Eal. set (g := λ x, set_mtime (s32 (f_epoch s)) (set_size (off + n) x)).
    apply wp_bind, wp_bind, wp_gets, wp_bind, wp_modify. simpl. fold g.
    set (s2 := with_icache (alter g ip (f_icache s)) (with_store y s)).
    assert (getip s2 ip = g x) as Eg2 by (unfold getip; simpl; by rewrite list_lookup_total_alter_eq).
    pose proof (iupdate_ok s2 ip R r) as Hiu. rewrite Eg2 in Hiu. simpl in Hiu. fold ib in Hiu.
    pose proof (room_step _ _ _ _ _ _ _ (wa_room _ _ _ _ _ Hwa) E ltac:(done)) as Hr1.
    pose proof E as [[O U C N L Rr T K] Dy _].
    eapply wp_mono; [apply Hiu; try done|].
    { by destruct Hr1. }
    { apply Hwa. }
    { by rewrite U. }
    intros _ s3 (z & -> & E2). apply wp_ret. split; [done|].
    eexists z, _. split_and!; [done|eapply effect_weaken; [by eapply effect_trans|done|set_solver]|].
    apply (updated_of_wrote _ D1); [done| |done].
    intros c Hc. cbv beta. rewrite (proj2 (Z.eqb_neq c ib)) by done. apply Dy.
  - assert (alter (grown s off n) ip (f_icache s) = f_icache s) as Eal.
    { rewrite (list_alter_ext _ id _ (f_icache s)); [by apply list_alter_id| |done].
      intros z Hz. unfold grown. rewrite !Z.gtb_ltb.
      assert (z = x) as -> by (unfold x, getip; symmetry; by apply list_lookup_total_correct).
      by rewrite Eg. }
    rewrite Eal. apply wp_bind, wp_ret, wp_ret. split; [done|].
    exists y, D1. split_and!; [by destruct s|done|]. by apply (updated_of_wrote _ D1).
Qed.
End write.

(** * Files are byte arrays: the theorems on readi() and writei() *)

Section claims.
Context {S : Type} `{BlockStore S}.
Implicit Types s : fsst S.

(** readi() of a file whose blocks are all there returns the bytes of the
    file from [off], as many as asked for and as the file has, and changes
    neither the disk nor the transaction. *)
Theorem readi_reads s ip off n :
  let x := getip s ip in
  ok (f_store s) → htot (f_store s) < Z.of_nat NBUF → 0 ≤ off ≤ i_size x → 0 ≤ n →
  off + n < 4294967296 → i_size x < 2147483648 →
  (∀ bn, 0 ≤ bn * BSIZE < i_size x → mapped (f_store s) (i_addrs x) bn) →
  wp (readi ip off n) s (λ r s', ∃ y, s' = with_store y s ∧ effect (f_store s) y (disk (f_store s)) ∅ ∧
    let m := Z.min n (i_size x - off) in
    r = (m, fslice (disk (f_store s)) (i_addrs x) off m)).
Proof. apply readi_ok. Qed.

(** readi() and writei() from beyond the end of the file, or with an offset
    that wraps around 2^32, and writei() past the largest file, return -1 and
    change nothing. *)
Theorem file_range_checked s ip src off n :
  let x := getip s ip in
  0 ≤ off < 4294967296 → 0 ≤ n < 4294967296 →
  (i_size x < off ∨ 4294967296 ≤ off + n → readi ip off n s = Ret (-1, []) s) ∧
  (i_size x < off ∨ 4294967296 ≤ off + n ∨ MAXFILE * BSIZE < off + n → writei ip src off n s = Ret (-1) s).
Proof.
  intros x Ho Hn.
  assert (4294967296 ≤ off + n → u32 (off + n) = off + n - 4294967296) as Ew.
  { intros Hw. unfold u32. rewrite <- (Z_mod_plus_full _ (-1)). rewrite Z.mod_small; lia. }
  assert (i_size x < off ∨ 4294967296 ≤ off + n →
          (off >? i_size x) || (u32 (off + n) <? off) = true) as Hg.
  { intros [Hs|Hw]; [by rewrite (proj2 (Z.gtb_lt off (i_size x)) Hs)|]. apply orb_true_iff. right.
    apply Z.ltb_lt. rewrite Ew by done. lia. }
  split.
  - intros Hc. unfold readi, bind, inode_at, gets. fold x. by rewrite Hg.
  - intros Hc. unfold writei, bind, inode_at, gets. fold x.
    destruct ((off >? i_size x) || (u32 (off + n) <? off)) eqn:E; [done|].
    destruct Hc as [Hc|[Hc|Hc]]; [discriminate (Hg (or_introl Hc))|discriminate (Hg (or_intror Hc))|].
    destruct (decide (4294967296 ≤ off + n)) as [Hw|]; [discriminate (Hg (or_intror Hw))|].
    rewrite u32_small by lia. by rewrite (proj2 (Z.gtb_lt (off + n) (MAXFILE * BSIZE)) Hc).
Qed.

(** writei() inside the blocks of a file changes exactly the bytes it was
    asked to, to the bytes it was given, and returns their number; the size
    grows if the write goes past it, and then the inode is written back. *)
Theorem writei_writes s ip src off n nb R r :
  let x := getip s ip in
  let D := disk (f_store s) in
  let ib := IBLOCK (i_inum x) (f_sb s) in
  writable s ip nb R r → (ip < length (f_icache s))%nat →
  0 ≤ off ≤ i_size x → 0 ≤ n ≤ zlen src → off + n ≤ nb * BSIZE → nb ≤ MAXFILE →
  Forall (λ c, 0 ≤ c < 256) src →
  (∀ j, 0 ≤ j < nb → off / BSIZE ≤ j → j * BSIZE < off + n → leaf D (i_addrs x) j ∈ R) →
  ib ∈ R → up (f_store s) ib = true → length (i_addrs x) = NADDR →
  (∀ j, 0 ≤ j < nb → ib ∉ path D (i_addrs x) j) →
  wp (writei ip src off n) s (λ m s', m = n ∧ ∃ y D',
    s' = with_icache (alter (grown s off n) ip (f_icache s)) (with_store y s) ∧
    effect (f_store s) y D' R ∧ updated D D' (i_addrs x) nb off (slice src 0 n) ib).
Proof. apply writei_ok. Qed.


(** bmap() of a block beyond the largest file panics. *)
Theorem bmap_out_of_range s ip bn : MAXFILE ≤ bn → bmap ip bn s = Panic "bmap: out of range".
Proof.
  unfold MAXFILE. intros Hb. assert (0 ≤ NINDIRECT * NINDIRECT) by done. unfold bmap.
  destruct (Z.ltb_spec bn NDIRECT); [lia|].
  destruct (Z.ltb_spec (bn - NDIRECT) (NINDIRECT * NINDIRECT)); [lia|done].
Qed.
End claims.

(** ** Witnesses: a file of 600 bytes on blocks 100 and 101 *)

Definition small_file : inode := mkInode 0 9 1 1 T_FILE 0 0 1 600 0 (100 :: 101 :: replicate 10 0).
Definition file_fs : fsst lstate :=
  mkFs (open_lstate small_device 30) small_sb 0 0 (small_file :: replicate 49 inhabitant) 5.

Lemma small_leaf D bn : 0 ≤ bn < 2 → path D (i_addrs small_file) bn = [100 + bn].
Proof. intros Hb. assert (bn = 0 ∨ bn = 1) as [-> | ->] by lia; done. Qed.

Lemma file_fs_mapped bn : 0 ≤ bn < 2 → mapped (f_store file_fs) (i_addrs (getip file_fs 0)) bn.
Proof.
  intros Hb. split.
  - assert (MAXFILE = 16395) as -> by reflexivity. lia.
  - change (i_addrs (getip file_fs 0)) with (i_addrs small_file). rewrite small_leaf by done.
    intros b ->%list_elem_of_singleton. split; [lia|].
    by destruct (open_lstate_ok small_device 30 small_device_ok ltac:(lia)) as (_ & _ & _ & _ & _ & _ & ->).
Qed.

Lemma file_fs_writable : writable file_fs 0 2 {[100; 101; 33]} 0.
Proof.
  split; [|lia|exact file_fs_mapped|].
  - destruct (open_fs_room small_device small_sb 0 0 {[100; 101; 33]} 0) as [H1 H2 H3 H4];
      [exact small_device_ok|vm_compute; reflexivity|].
    split; [exact H1| |exact H3|exact H4].
    eapply Z.le_trans; [|exact H2]. apply Z.add_le_mono_l. lia.
  - change (i_addrs (getip file_fs 0)) with (i_addrs small_file).
    split; intros i j Hi Hj; unfold leaf; rewrite !small_leaf by done; simpl; [lia|].
    apply not_elem_of_nil.
Qed.





