(* ===== verification/FsTruncProps.v ===== *)
(** * Giving back the blocks of a file (itrunc and iput of kern/fs.c)

    [fblocks D addrs] are the blocks of a file on the disk [D], in the order in
    which itrunc() frees them: the direct blocks, each second-level block after
    the blocks it points to, and the top block of the tree last. *)

From S2P Require Import Prelude Bytes Params Store Ondisk OndiskSpec Bio BioSpec BioProps Log LogProps Fs FsBlock FsAlloc FsAllocProps FsFile FsFileProps.

(** The lists [F 0], ..., [F (n-1)] one after the other. *)
Definition flat (F : Z → list Z) (n : Z) : list Z := mjoin (F <$> seqZ 0 n).

Definition nonzero (p : Z) : list Z := if p =? 0 then [] else [p].

Definition leaves (D : Z → list Z) (a : Z) : list Z := flat (λ y, nonzero (ld_ptr (D a) y)) NINDIRECT.
Definition branch (D : Z → list Z) (a : Z) : list Z := if a =? 0 then [] else leaves D a ++ [a].
Definition branches (D : Z → list Z) (top : Z) : list Z := flat (λ j, branch D (ld_ptr (D top) j)) NINDIRECT.
Definition fblocks (D : Z → list Z) (addrs : list Z) : list Z :=
  flat (λ i, nonzero (addrs !!! Z.to_nat i)) NDIRECT ++
  (let top := addrs !!! Z.to_nat NDIRECT in if top =? 0 then [] else branches D top ++ [top]).

Lemma flat_snoc F n : 0 ≤ n → flat F (n + 1) = flat F n ++ F n.
Proof.
  intros. unfold flat. rewrite seqZ_app by lia. simpl. rewrite fmap_app, join_app.
  replace (seqZ (0 + n) 1) with [n] by (unfold seqZ; simpl; f_equal; lia). simpl. by rewrite app_nil_r.
Qed.

Lemma flat_split F j n : 0 ≤ j < n → ∃ tl, flat F n = flat F j ++ F j ++ tl.
Proof.
  intros. exists (mjoin (F <$> seqZ (j + 1) (n - (j + 1)))).
  rewrite app_assoc, <- flat_snoc by lia. unfold flat. rewrite <- join_app, <- fmap_app. do 2 f_equal.
  replace n with ((j + 1) + (n - (j + 1))) at 1 by lia. rewrite seqZ_app by lia. done.
Qed.

Lemma flat_ext F G n : (∀ j, 0 ≤ j < n → F j = G j) → flat F n = flat G n.
Proof.
  intros E. unfold flat. f_equal. apply list_fmap_ext. intros i j Hj. apply lookup_seqZ in Hj. apply E. lia.
Qed.

Lemma flat_in F j n b : 0 ≤ j < n → b ∈ F j → b ∈ flat F n.
Proof. intros Hj Hb. destruct (flat_split F j n Hj) as [tl ->]. set_solver. Qed.

Lemma flat_prefix_in F j n b : 0 ≤ j < n → b ∈ flat F j → b ∈ flat F n.
Proof. intros Hj Hb. destruct (flat_split F j n Hj) as [tl ->]. set_solver. Qed.

Lemma branch_root D a : a ≠ 0 → a ∈ branch D a.
Proof. intros Ha. unfold branch. rewrite (proj2 (Z.eqb_neq a 0) Ha). apply elem_of_app. right. by left. Qed.

(** The tree depends on its own blocks only. *)
Lemma branches_ext D E top : E top = D top → (∀ b, b ∈ branches D top → E b = D b) → branches E top = branches D top.
Proof.
  intros Ht HD. unfold branches in *. rewrite Ht. apply flat_ext. intros j Hj. unfold branch, leaves.
  destruct (Z.eqb_spec (ld_ptr (D top) j) 0) as [|Ha]; [done|]. rewrite HD; [done|].
  apply (flat_in (λ j, branch D (ld_ptr (D top) j)) j); [done|by apply branch_root].
Qed.

Section trunc.
Context {S : Type} `{BlockStore S} (sb : superblock) (R : gset Z).
Implicit Types (s : fsst S) (y : S) (bs : list Z).

(** The blocks [bs] can be freed one after the other. *)
Record freeable y bs : Prop := {
  fr_each : ∀ b, b ∈ bs → 0 ≤ b < 2147483648 ∧ BBLOCK b sb ∈ R ∧ up y (BBLOCK b sb) = true ∧ in_use sb (disk y) b = true;
  fr_distinct : NoDup bs;
}.

(** The blocks [bs] have been freed, and nothing else has changed. *)
Record freed y y' bs : Prop := {
  fd_effect : effect y y' (disk y') R;
  fd_same : ∀ x, (∀ b, b ∈ bs → x ≠ BBLOCK b sb) → disk y' x = disk y x;
  fd_bits : ∀ c, 0 ≤ c < 2147483648 → in_use sb (disk y') c = in_use sb (disk y) c && negb (bool_decide (c ∈ bs));
}.

Lemma freed_refl y : ok y → freed y y [].
Proof.
  intros Hy. split; [|done|].
  - eapply effect_weaken; [by apply effect_refl|done|set_solver].
  - intros c Hc. by rewrite bool_decide_false, andb_true_r by set_solver.
Qed.


Lemma freed_trans y1 y2 y3 bs bs' : freed y1 y2 bs → freed y2 y3 bs' → freed y1 y3 (bs ++ bs').
Proof.
  intros [E1 S1 B1] [E2 S2 B2]. split.
  - eapply effect_weaken; [by eapply effect_trans|done|set_solver].
  - intros x Hx. rewrite S2, S1; [done|..]; intros b Hb; apply Hx; set_solver.
  - intros c Hc. rewrite B2, B1 by done. rewrite <- andb_assoc. f_equal.
    rewrite (bool_decide_ext (c ∈ bs ++ bs') (c ∈ bs ∨ c ∈ bs')) by apply elem_of_app.
    by rewrite bool_decide_or, negb_orb.
Qed.

Lemma freeable_prefix y bs bs' : freeable y (bs ++ bs') → freeable y bs.
Proof. intros [F N]. apply NoDup_app in N as (N & _ & _). split; [|done]. intros b Hb. apply F. set_solver. Qed.

Lemma freeable_freed y y' bs bs' : freeable y (bs ++ bs') → freed y y' bs → freeable y' bs'.
Proof.
  intros [F N] [E _ B]. apply NoDup_app in N as (_ & Hd & N). split; [|done]. intros b Hb.
  destruct (F b) as (A1 & A2 & A3 & A4); [set_solver|]. split_and!; [lia|lia|done|..].
  - by rewrite (ba_up _ _ (ef_bal _ _ _ _ E)).
  - rewrite B, A4 by done. simpl. by rewrite bool_decide_false by (intros ?; by eapply Hd).
Qed.

Lemma room_freed s s' k n bs : room s k R n → freed (f_store s) (f_store s') bs → room s' k R n.
Proof.
  intros Hr [E _ _]. pose proof (room_step _ _ _ _ _ _ _ Hr E ltac:(done)) as [? ? ? ?]. by split.
Qed.

(** One block. *)
Lemma bfree_freed s b k n : room s k R n → 1 ≤ k → 0 ≤ n → sb_ok sb → f_sb s = sb → freeable (f_store s) [b] →
  wp (bfree b) s (λ _ s', s' = with_store (f_store s') s ∧ freed (f_store s) (f_store s') [b]).
Proof.
  intros Hr Hk Hn Hsb Esb [F _]. destruct (F b) as (A1 & A2 & A3 & A4); [set_solver|].
  eapply wp_mono; [apply (bfree_ok s b R n); rewrite ?Esb; try done|].
  { eapply room_weaken; [done|lia|done|lia]. }
  rewrite Esb. intros _ s' (y & D & -> & E & Hs & Hb). split; [done|]. simpl.
  pose proof (ef_disk _ _ _ _ E) as HD. split.
  - eapply effect_weaken; [exact E|by intros|set_solver].
  - intros x Hx. rewrite HD. apply Hs, Hx. set_solver.
  - intros c Hc. unfold in_use at 1. rewrite HD. fold (in_use sb D c). rewrite Hb by done.
    destruct (Z.eqb_spec c b) as [->|Hne].
    + rewrite bool_decide_true by set_solver. by rewrite andb_false_r.
    + rewrite bool_decide_false by set_solver. by rewrite andb_true_r.
Qed.

(** A loop whose round [j] frees the blocks [F j]; [I] is what else it keeps. *)
Lemma for_frees s (I : Z → fsst S → Prop) F n body k m :
  0 ≤ n → room s k R m → freeable (f_store s) (flat F n) → I 0 s →
  (∀ j s', 0 ≤ j < n → I j s' → room s' k R m → freed (f_store s) (f_store s') (flat F j) → freeable (f_store s') (F j) →
     wp (body j) s' (λ _ s'', I (j + 1) s'' ∧ freed (f_store s') (f_store s'') (F j))) →
  wp (for_n (Z.to_nat n) 0 body) s (λ _ s', I n s' ∧ freed (f_store s) (f_store s') (flat F n)).
Proof.
  intros Hn Hr Hf HI Hbody.
  eapply wp_mono; [apply (wp_for_n body (λ j s', I j s' ∧ freed (f_store s) (f_store s') (flat F j)))|].
  - rewrite Z2Nat.id by done. intros j s' Hj [HIj Hfj]. destruct (flat_split F j n) as [tl E]; [lia|].
    rewrite E in Hf. eapply wp_mono; [apply Hbody; try done; [by eapply room_freed|]|].
    + eapply freeable_prefix, freeable_freed; [|exact Hfj]. exact Hf.
    + intros _ s'' [HI' Hf']. split; [done|]. rewrite flat_snoc by lia. by eapply freed_trans.
  - split; [done|]. apply freed_refl, Hr.
  - cbv beta. rewrite Z2Nat.id by done. by intros _ s'.
Qed.

Definition clear_of bs bs' : Prop := ∀ b c, b ∈ bs → c ∈ bs' → b ≠ BBLOCK c sb.

(** Taking a buffer, a routine with the effect [E], and giving the buffer back. *)
Lemma got_effect_dropped y0 y1 y2 y3 b D :
  ok y0 → ok y3 → got y0 y1 b → effect y1 y2 D R → dropped y2 y3 b → effect y0 y3 D R.
Proof.
  intros Hok Hok3 [[U1 G1 C1 N1 L1] D1 R1 T1 K1] [[O2 U2 C2 N2 L2 R2 T2 K2] D2 [G2 G2']]
    [[U3 G3 C3 N3 L3] D3 R3 T3 K3].
  split; [split|..]; intros; try done.
  - by rewrite U3, U2.
  - by rewrite C3, C2.
  - by rewrite N3, N2.
  - by rewrite L3, L2.
  - rewrite R3, R2, R1. lia.
  - rewrite T3, T2, T1. lia.
  - apply K3; [by apply K2, K1|]. rewrite R3, R2, R1. pose proof (law_href y0 k x Hok ltac:(done)). lia.
  - by rewrite D3.
  - rewrite G3. rewrite <- G1. split; [done|]. by rewrite G1 in *.
Qed.

Lemma room_got s y b k n : room s k R n → ok y → got (f_store s) y b → room (with_store y s) (k - 1) R n.
Proof.
  intros [? ? ? ?] Hy G. split; simpl; [done|rewrite (got_htot _ _ _ G); lia|..].
  - by rewrite (sl_in_op _ _ (got_log _ _ _ G)).
  - by rewrite (sl_logged _ _ (got_log _ _ _ G)), (sl_cap _ _ (got_log _ _ _ G)).
Qed.

Lemma freeable_got y y' b bs : freeable y bs → got y y' b → freeable y' bs.
Proof.
  intros [F N] G. split; [|done]. intros c Hc. destruct (F c Hc) as (A1 & A2 & A3 & A4).
  split_and!; [lia|lia|done|by rewrite (sl_up _ _ (got_log _ _ _ G))|]. unfold in_use. by rewrite (got_disk _ _ _ G).
Qed.

Lemma freed_got_dropped y0 y1 y2 y3 b bs :
  ok y0 → ok y3 → got y0 y1 b → freed y1 y2 bs → dropped y2 y3 b → freed y0 y3 bs.
Proof.
  intros Hok Hok3 G Hfd Dr. pose proof (got_effect_dropped _ _ _ _ _ _ Hok Hok3 G (fd_effect _ _ _ Hfd) Dr) as E.
  split; [eapply effect_weaken; [exact E| |done]; intros x; by rewrite (dr_disk _ _ _ Dr)|..].
  - intros x Hx. by rewrite (dr_disk _ _ _ Dr), (fd_same _ _ _ Hfd), (got_disk _ _ _ G).
  - intros c Hc. unfold in_use. rewrite (dr_disk _ _ _ Dr). fold (in_use sb (disk y2) c).
    rewrite (fd_bits _ _ _ Hfd) by done. unfold in_use. by rewrite (got_disk _ _ _ G).
Qed.

Lemma held_same y y' k a bs : ok y → hold y k a → freed y y' bs → (∀ c, c ∈ bs → a ≠ BBLOCK c sb) →
  ok y' ∧ hold y' k a ∧ disk y' a = disk y a.
Proof.
  intros Hok Hh [[[O _ _ _ _ _ _ K] _ _] Hs _] Hne. split_and!; [done|by apply K|by apply Hs].
Qed.

(** The blocks of a second-level block that is held in [bp2]. *)
Lemma itrunc_leaf_ok s bp2 a k n :
  room s k R n → 1 ≤ k → 0 ≤ n → sb_ok sb → f_sb s = sb → hold (f_store s) bp2 a →
  freeable (f_store s) (leaves (disk (f_store s)) a) →
  (∀ c, c ∈ leaves (disk (f_store s)) a → a ≠ BBLOCK c sb) →
  wp (itrunc_leaf bp2) s (λ _ s', s' = with_store (f_store s') s ∧
    freed (f_store s) (f_store s') (leaves (disk (f_store s)) a)).
Proof.
  intros Hr Hk Hn Hsb Esb Hh Hf Hcl. unfold itrunc_leaf.
  apply (for_frees s (λ _ s', s' = with_store (f_store s') s) _ _ _ k n); [done|done|done|by rewrite with_store_self|].
  intros j s' Hj Es' Hr' Hfd Hfj.
  destruct (held_same _ _ bp2 a _ (rm_ok _ _ _ _ Hr) Hh Hfd) as (Hok' & Hh' & Hd').
  { intros c Hc. apply Hcl. by eapply flat_prefix_in. }
  apply wp_bind. apply (wp_bdata _ _ a); [done|done|]. rewrite Hd'.
  unfold nonzero in Hfj |- *. destruct (Z.eqb_spec (ld_ptr (disk (f_store s) a) j) 0) as [E|E].
  - apply wp_ret. split; [done|by apply freed_refl].
  - eapply wp_mono; [apply (bfree_freed s' _ k n); try done|].
    + by rewrite Es'.
    + intros _ s'' [Es'' Hfd'']. split; [|done]. rewrite Es'', Es'. by rewrite with_store_store.
Qed.

(** The second-level blocks, with the top block held in [bp]. *)
Lemma itrunc_mid_ok s bp top j k n :
  let D := disk (f_store s) in
  let a := ld_ptr (D top) j in
  room s k R n → 2 ≤ k → 0 ≤ n → sb_ok sb → f_sb s = sb → hold (f_store s) bp top →
  freeable (f_store s) (branch D a) → (∀ c, c ∈ branch D a → top ≠ BBLOCK c sb ∧ a ≠ BBLOCK c sb) →
  (a ≠ 0 → up (f_store s) a = true) →
  wp (let* d := bdata bp in
      if ld_ptr d j =? 0 then ret tt else
      let* bp2 := bread (ld_ptr d j) in
      itrunc_leaf bp2 ;;
      brelse bp2 ;;
      let* d := bdata bp in
      bfree (ld_ptr d j)) s
   (λ _ s', s' = with_store (f_store s') s ∧ freed (f_store s) (f_store s') (branch D a)).
Proof.
  intros D a Hr Hk Hn Hsb Esb Hh Hf Hcl Hup. pose proof (rm_ok _ _ _ _ Hr) as Hok. pose proof (rm_bufs _ _ _ _ Hr).
  apply wp_bind. apply (wp_bdata _ _ top); [done|done|]. fold D a. unfold branch in *.
  destruct (Z.eqb_spec a 0) as [E|E].
  { apply wp_ret. rewrite with_store_self. split; [done|by apply freed_refl]. }
  assert (∀ c, c ∈ leaves D a → top ≠ BBLOCK c sb ∧ a ≠ BBLOCK c sb) as Hcl1.
  { intros c Hc. apply Hcl, elem_of_app. auto. }
  eapply wp_bind_mono; [apply fs_bread; [done|by apply Hup|lia]|].
  intros bp2 s1 (y1 & -> & Hok1 & Hh1 & G1).
  assert (leaves (disk y1) a = leaves D a) as El by (unfold leaves; by rewrite (got_disk _ _ _ G1)).
  pose proof (room_got _ _ _ _ _ Hr Hok1 G1) as Hr1.
  pose proof (freeable_got _ _ _ _ (freeable_prefix _ _ _ Hf) G1) as Hf1.
  eapply wp_bind_mono; [apply (itrunc_leaf_ok (with_store y1 s) bp2 a (k - 1) n); simpl; rewrite ?El; try done; [lia|]|].
  { intros c Hc. by apply Hcl1. }
  simpl. rewrite El. intros _ s2 [Es2 Hfd2]. rewrite with_store_store in Es2.
  destruct (held_same _ _ bp2 a _ Hok1 Hh1 Hfd2) as (Hok2 & Hh2 & Hd2); [intros c Hc; by apply Hcl1|].
  eapply wp_bind_mono; [by apply (fs_brelse _ _ a)|]. intros _ s3 (y3 & -> & Hok3 & Dr3).
  pose proof (freed_got_dropped _ _ _ _ _ _ Hok Hok3 G1 Hfd2 Dr3) as Hfd3.
  destruct (held_same _ _ bp top _ Hok Hh Hfd3) as (_ & Hh3 & Hd3); [intros c Hc; by apply Hcl1|].
  apply wp_bind. apply (wp_bdata _ _ top); [done|done|]. simpl. rewrite Hd3. fold D a.
  rewrite Es2, with_store_store.
  eapply wp_mono; [apply (bfree_freed (with_store y3 s) a k n); try done; [by eapply room_freed|lia|]|].
  { by eapply freeable_freed. }
  intros _ s4 [Es4 Hfd4]. split; [by rewrite Es4, with_store_store|]. by eapply freed_trans.
Qed.

(** The whole tree under the top block, and the top block itself. *)
Lemma itrunc_tree_ok s bp top k n :
  let D := disk (f_store s) in
  room s k R n → 2 ≤ k → 0 ≤ n → sb_ok sb → f_sb s = sb → hold (f_store s) bp top →
  freeable (f_store s) (branches D top) → clear_of (top :: branches D top) (branches D top) →
  (∀ b, b ∈ branches D top → up (f_store s) b = true) →
  wp (for_n (Z.to_nat NINDIRECT) 0 (λ j,
        let* d := bdata bp in
        if ld_ptr d j =? 0 then ret tt else
        let* bp2 := bread (ld_ptr d j) in
        itrunc_leaf bp2 ;;
        brelse bp2 ;;
        let* d := bdata bp in
        bfree (ld_ptr d j))) s
   (λ _ s', s' = with_store (f_store s') s ∧ freed (f_store s) (f_store s') (branches D top)).
Proof.
  intros D Hr Hk Hn Hsb Esb Hh Hf Hcl Hup.
  apply (for_frees s (λ _ s', s' = with_store (f_store s') s) _ _ _ k n); [done|done|done|by rewrite with_store_self|].
  intros j s' Hj Es' Hr' Hfd Hfj.
  assert (∀ c, c ∈ flat (λ j, branch D (ld_ptr (D top) j)) j → c ∈ branches D top) as Hin
    by (intros c; by apply flat_prefix_in).
  assert (∀ c, c ∈ branch D (ld_ptr (D top) j) → c ∈ branches D top) as Hinj 
    by (intros c; by apply (flat_in (λ j, branch D (ld_ptr (D top) j)) j)).
  destruct (held_same _ _ bp top _ (rm_ok _ _ _ _ Hr) Hh Hfd) as (Hok' & Hh' & Hd').
  { intros c Hc. apply Hcl; [by left|by apply Hin]. }
  fold D in Hd'. set (a := ld_ptr (D top) j) in *.
  assert (branch (disk (f_store s')) a = branch D a) as Ebr.
  { unfold branch, leaves. destruct (Z.eqb_spec a 0) as [|Ha]; [done|]. rewrite (fd_same _ _ _ Hfd); [done|].
    intros c Hc. apply Hcl; [|by apply Hin]. right. apply Hinj. unfold branch. rewrite (proj2 (Z.eqb_neq a 0) Ha).
    apply elem_of_app. right. by left. }
  assert (a ≠ 0 → a ∈ branch D a) as Ha.
  { intros Ha. unfold branch. rewrite (proj2 (Z.eqb_neq a 0) Ha). apply elem_of_app. right. by left. }
  pose proof (itrunc_mid_ok s' bp top j k n) as Hmid. cbv zeta in Hmid. rewrite Hd' in Hmid. fold a in Hmid. rewrite Ebr in Hmid.
  eapply wp_mono; [apply Hmid; try done|].
  - by rewrite Es'.
  - intros c Hc. split; [apply Hcl; [by left|by apply Hinj]|]. apply Hcl; [|by apply Hinj]. right. apply Hinj, Ha.
    intros E. unfold branch in Hc. rewrite E in Hc. by apply not_elem_of_nil in Hc.
  - intros Hne. rewrite (ba_up _ _ (ef_bal _ _ _ _ (fd_effect _ _ _ Hfd))). by apply Hup, Hinj, Ha.
  - intros _ s'' [Es'' Hfd'']. split; [|done]. rewrite Es'', Es'. by rewrite with_store_store.
Qed.

(** ** The inode *)

(** The store has become [y], and inode [ip] has been changed by [f]. *)
Definition with_inode s y ip (f : inode → inode) : fsst S := with_icache (alter f ip (f_icache s)) (with_store y s).

Lemma getip_with_inode s y ip f : (ip < length (f_icache s))%nat → getip (with_inode s y ip f) ip = f (getip s ip).
Proof. intros. unfold getip, with_inode. simpl. by rewrite list_lookup_total_alter_eq. Qed.

Lemma with_inode_upd s y ip f g :
  with_icache (alter g ip (f_icache (with_inode s y ip f))) (with_inode s y ip f) = with_inode s y ip (λ x, g (f x)).
Proof. unfold with_inode, with_icache. simpl. f_equal. apply list_alter_alter_eq. Qed.

Lemma with_inode_ext s y ip f g : f (getip s ip) = g (getip s ip) → with_inode s y ip f = with_inode s y ip g.
Proof.
  intros E. unfold with_inode, with_icache. f_equal. apply list_alter_ext; [|done]. intros x Hx.
  unfold getip in E. by rewrite (list_lookup_total_correct _ _ _ Hx) in E.
Qed.

Lemma with_inode_id s y ip f : f (getip s ip) = getip s ip → with_inode s y ip f = with_store y s.
Proof.
  intros E. rewrite (with_inode_ext s y ip f id) by done. unfold with_inode, with_icache. simpl.
  by rewrite list_alter_id.
Qed.

(** The first [j] addresses set to zero. *)
Definition zap (j : Z) (addrs : list Z) : list Z := replicate (Z.to_nat j) 0 ++ drop (Z.to_nat j) addrs.

Lemma zap_lookup j addrs : 0 ≤ j → (Z.to_nat j < length addrs)%nat → zap j addrs !!! Z.to_nat j = addrs !!! Z.to_nat j.
Proof.
  intros Hj Hl. unfold zap. rewrite lookup_total_app_r; rewrite length_replicate; [|lia].
  rewrite Nat.sub_diag. rewrite !list_lookup_total_alt, lookup_drop. by rewrite Nat.add_0_r.
Qed.

Lemma zap_insert j addrs : 0 ≤ j → (Z.to_nat j < length addrs)%nat → <[Z.to_nat j := 0]> (zap j addrs) = zap (j + 1) addrs.
Proof.
  intros Hj Hl. unfold zap. rewrite insert_app_r_alt by (by rewrite length_replicate).
  rewrite length_replicate, Nat.sub_diag. replace (Z.to_nat (j + 1)) with (Datatypes.S (Z.to_nat j)) by lia.
  destruct (drop (Z.to_nat j) addrs) as [|a l] eqn:E.
  { apply (f_equal length) in E. rewrite length_drop in E. simpl in E. lia. }
  simpl insert. rewrite replicate_S_end, <- app_assoc. simpl. do 2 f_equal.
  rewrite <- (Nat.add_1_r (Z.to_nat j)), <- drop_drop, E. done.
Qed.

Lemma zap_step j addrs : 0 ≤ j → (Z.to_nat j < length addrs)%nat → addrs !!! Z.to_nat j = 0 → zap (j + 1) addrs = zap j addrs.
Proof.
  intros Hj Hl E. rewrite <- zap_insert by done. apply list_insert_id.
  rewrite <- (zap_lookup j addrs) in E by done. rewrite <- E. apply list_lookup_lookup_total_lt.
  unfold zap. rewrite length_app, length_replicate, length_drop. lia.
Qed.

Lemma itrunc_direct_ok s ip k n :
  let addrs := i_addrs (getip s ip) in
  let bs := flat (λ i, nonzero (addrs !!! Z.to_nat i)) NDIRECT in
  room s k R n → 1 ≤ k → 0 ≤ n → sb_ok sb → f_sb s = sb → (ip < length (f_icache s))%nat →
  length addrs = NADDR → freeable (f_store s) bs →
  wp (itrunc_direct ip) s (λ _ s', s' = with_inode s (f_store s') ip (set_addrs (zap NDIRECT addrs)) ∧
    freed (f_store s) (f_store s') bs).
Proof.
  intros addrs bs Hr Hk Hn Hsb Esb Hip Ha Hf. unfold itrunc_direct.
  apply (for_frees s (λ j s', s' = with_inode s (f_store s') ip (set_addrs (zap j addrs))) _ _ _ k n); [done|done|done|..].
  { rewrite with_inode_id; [by rewrite with_store_self|]. unfold zap. simpl. by destruct (getip s ip). }
  intros j s' Hj Es' Hr' Hfd Hfj. assert (Z.to_nat j < length addrs)%nat as Hlt by (rewrite Ha; unfold NDIRECT, NADDR in *; lia).
  apply wp_bind, wp_gets. rewrite Es', getip_with_inode by done. simpl. rewrite zap_lookup by (done || lia).
  rewrite <- Es'. unfold nonzero in Hfj |- *. destruct (Z.eqb_spec (addrs !!! Z.to_nat j) 0) as [E|E].
  - apply wp_ret. split; [|by apply freed_refl, Hr']. by rewrite zap_step by (done || lia).
  - eapply wp_bind_mono; [apply (bfree_freed s' _ k n); try done; by rewrite Es'|].
    intros _ s'' [Es'' Hfd'']. apply wp_modify. split; [|done].
    assert (s'' = with_inode s (f_store s'') ip (set_addrs (zap j addrs))) as E2 by (rewrite Es'', Es' at 1; done).
    rewrite E2 at 1 2. rewrite with_inode_upd. apply with_inode_ext. simpl. by rewrite zap_insert by (done || lia).
Qed.

(** The file occupies the blocks [fblocks], apart from each other and from the bitmap. *)
Record file_ok s ip : Prop := {
  fo_ip : (ip < length (f_icache s))%nat;
  fo_addrs : length (i_addrs (getip s ip)) = NADDR;
  fo_free : freeable (f_store s) (fblocks (disk (f_store s)) (i_addrs (getip s ip)));
  fo_clear : clear_of (fblocks (disk (f_store s)) (i_addrs (getip s ip))) (fblocks (disk (f_store s)) (i_addrs (getip s ip)));
  fo_up : ∀ b, b ∈ fblocks (disk (f_store s)) (i_addrs (getip s ip)) → up (f_store s) b = true;
}.

Lemma itrunc_indirect_ok s ip top k n :
  let D := disk (f_store s) in
  let bs := branches D top ++ [top] in
  room s k R n → 3 ≤ k → 0 ≤ n → sb_ok sb → f_sb s = sb → (ip < length (f_icache s))%nat →
  i_addrs (getip s ip) !!! Z.to_nat NDIRECT = top →
  freeable (f_store s) bs → clear_of bs bs → (∀ b, b ∈ bs → up (f_store s) b = true) →
  wp (itrunc_indirect ip top) s (λ _ s',
    s' = with_inode s (f_store s') ip (λ x, set_addrs (<[Z.to_nat NDIRECT := 0]> (i_addrs x)) x) ∧
    freed (f_store s) (f_store s') bs).
Proof.
  intros D bs Hr Hk Hn Hsb Esb Hip Htop Hf Hcl Hup. unfold itrunc_indirect.
  pose proof (rm_ok _ _ _ _ Hr) as Hok. pose proof (rm_bufs _ _ _ _ Hr).
  assert (top ∈ bs) as Hin by (apply elem_of_app; right; by left).
  assert (∀ b, b ∈ branches D top → b ∈ bs) as Hsub by (intros; apply elem_of_app; by left).
  eapply wp_bind_mono; [apply fs_bread; [done|by apply Hup|lia]|]. intros bp s1 (y1 & -> & Hok1 & Hh1 & G1).
  assert (branches (disk y1) top = branches D top) as Eb.
  { apply branches_ext; intros; apply (got_disk _ _ _ G1). }
  pose proof (itrunc_tree_ok (with_store y1 s) bp top (k - 1) n) as Htree. cbv zeta in Htree.
  change (f_store (with_store y1 s)) with y1 in Htree. rewrite Eb in Htree.
  eapply wp_bind_mono; [apply Htree; try done|].
  - by eapply room_got.
  - lia.
  - by eapply freeable_got; [eapply freeable_prefix|].
  - intros b c Hb Hc. apply Hcl; [|by apply Hsub]. apply elem_of_cons in Hb as [->|Hb]; [done|by apply Hsub].
  - intros b Hb. rewrite (sl_up _ _ (got_log _ _ _ G1)). by apply Hup, Hsub.
  - intros _ s2 [Es2 Hfd2]. rewrite with_store_store in Es2.
    destruct (held_same _ _ bp top _ Hok1 Hh1 Hfd2) as (Hok2 & Hh2 & _); [intros c Hc; apply Hcl; auto|].
    eapply wp_bind_mono; [by apply (fs_brelse _ _ top)|]. intros _ s3 (y3 & -> & Hok3 & Dr3).
    pose proof (freed_got_dropped _ _ _ _ _ _ Hok Hok3 G1 Hfd2 Dr3) as Hfd3.
    rewrite Es2, with_store_store. apply wp_bind, wp_gets. change (getip (with_store y3 s) ip) with (getip s ip). rewrite Htop.
    eapply wp_bind_mono; [apply (bfree_freed (with_store y3 s) top k n); try done; [by eapply room_freed|lia|by eapply freeable_freed]|].
    intros _ s4 [Es4 Hfd4]. rewrite with_store_store in Es4. apply wp_modify. split; [by rewrite Es4|]. by eapply freed_trans.
Qed.

(** ** itrunc() *)

Definition truncated (x : inode) : inode := set_size 0 (set_addrs (replicate NADDR 0) x).

Lemma zap_all addrs : length addrs = NADDR → zap (NDIRECT + 1) addrs = replicate NADDR 0.
Proof.
  intros Hl. unfold zap. change (Z.to_nat (NDIRECT + 1)) with NADDR. by rewrite drop_ge, app_nil_r by lia.
Qed.

(** All of itrunc() but the last iupdate(). *)
Lemma itrunc_blocks_ok s ip k n :
  let bs := fblocks (disk (f_store s)) (i_addrs (getip s ip)) in
  room s k R n → 3 ≤ k → 0 ≤ n → sb_ok sb → f_sb s = sb → file_ok s ip →
  wp (itrunc_direct ip ;;
      let* x := inode_at ip in
      let top := i_addrs x !!! Z.to_nat NDIRECT in
      if top =? 0 then ret tt else itrunc_indirect ip top) s
   (λ _ s', s' = with_inode s (f_store s') ip (set_addrs (replicate NADDR 0)) ∧ freed (f_store s) (f_store s') bs).
Proof.
  intros bs Hr Hk Hn Hsb Esb [Hip Ha Hf Hcl Hup]. fold bs in Hf, Hcl, Hup. set (D := disk (f_store s)) in *.
  set (addrs := i_addrs (getip s ip)) in *. set (top := addrs !!! Z.to_nat NDIRECT) in *.
  assert (Z.to_nat NDIRECT < length addrs)%nat as Hlt by (rewrite Ha; unfold NDIRECT, NADDR; lia).
  set (tl := if top =? 0 then [] else branches D top ++ [top]).
  assert (bs = flat (λ i, nonzero (addrs !!! Z.to_nat i)) NDIRECT ++ tl) as Ebs by done. clearbody bs. subst bs.
  eapply wp_bind_mono; [apply (itrunc_direct_ok s ip k n); try done; [lia|by eapply freeable_prefix]|].
  fold addrs. intros _ s1 [Es1 Hfd1]. apply wp_bind, wp_gets.
  assert (i_addrs (getip s1 ip) = zap NDIRECT addrs) as Eg by (rewrite Es1; by rewrite getip_with_inode).
  rewrite Eg, zap_lookup by done. fold top. cbv zeta. destruct (Z.eqb_spec top 0) as [E|E].
  - assert (tl = []) as -> by done.
    apply wp_ret. cbv beta. rewrite app_nil_r. split; [|done]. rewrite <- (zap_all addrs), zap_step by done. done.
  - assert (tl = branches D top ++ [top]) as Etl by done. clearbody tl.
    assert (∀ b, b ∈ tl → b ∈ flat (λ i, nonzero (addrs !!! Z.to_nat i)) NDIRECT ++ tl) as Hin
      by (intros; apply elem_of_app; by right).
    assert (∀ b, b ∈ tl → disk (f_store s1) b = D b) as Hsame.
    { intros b Hb. apply (fd_same _ _ _ Hfd1). intros c Hc. apply Hcl; [by apply Hin|apply elem_of_app; by left]. }
    assert (branches (disk (f_store s1)) top = branches D top) as Ebr.
    { apply branches_ext; [|intros b Hb]; apply Hsame; rewrite Etl; apply elem_of_app; [right; by left|by left]. }
    pose proof (itrunc_indirect_ok s1 ip top k n) as Hind. cbv zeta in Hind. rewrite Ebr, <- Etl in Hind.
    eapply wp_mono; [apply Hind; try done|].
    + by eapply room_freed.
    + by rewrite Es1.
    + rewrite Es1. unfold with_inode. simpl. by rewrite length_alter.
    + by rewrite Eg, zap_lookup.
    + by eapply freeable_freed.
    + intros b c Hb Hc. apply Hcl; by apply Hin.
    + intros b Hb. rewrite (ba_up _ _ (ef_bal _ _ _ _ (fd_effect _ _ _ Hfd1))). by apply Hup, Hin.
    + intros _ s2 [Es2 Hfd2]. split; [|by eapply freed_trans].
      assert (s2 = with_inode s (f_store s2) ip (λ x, set_addrs (<[Z.to_nat NDIRECT := 0]> (zap NDIRECT addrs)) x)) as E2.
      { rewrite Es2. rewrite Es1 at 1. unfold with_inode, with_icache, with_store. simpl. f_equal. apply list_alter_alter_eq. }
      rewrite E2 at 1. apply with_inode_ext. rewrite zap_insert by done. by rewrite zap_all.
Qed.

Section inode_block.
Context (inum : Z).
Local Notation "'ib'" := (IBLOCK inum sb).

(** iupdate() of an inode that has been changed by [f]. *)
Lemma iupdate_inode s s0 y ip f k n :
  s = with_inode s0 y ip f → (ip < length (f_icache s0))%nat → i_inum (f (getip s0 ip)) = inum → f_sb s0 = sb →
  room s k R n → 1 ≤ k → 0 ≤ n → ib ∈ R → up y ib = true → length (i_addrs (f (getip s0 ip))) = NADDR →
  wp (iupdate ip) s (λ _ s', ∃ y', s' = with_inode s0 y' ip f ∧
    effect y y' (λ c, if c =? ib then put_dinode (disk y ib) (ioff inum) (f (getip s0 ip)) else disk y c) {[ib]}).
Proof.
  intros -> Hip Hin Esb Hr Hk Hn HR Hu Ha.
  pose proof (iupdate_ok (with_inode s0 y ip f) ip R n) as Hiu. cbv zeta in Hiu.
  rewrite getip_with_inode, Hin in Hiu by done. change (f_sb (with_inode s0 y ip f)) with (f_sb s0) in Hiu.
  rewrite Esb in Hiu. simpl f_store in Hiu.
  eapply wp_mono; [apply Hiu; try done|].
  - eapply room_weaken; [done|lia|done|lia].
  - intros _ s' (y' & -> & E). by exists y'.
Qed.

Definition inode_at_disk (D : Z → list Z) (i : Z) (z : inode) : inode := get_dinode (D (IBLOCK i sb)) (ioff i) z.

Lemma itrunc_ok s ip k n :
  let bs := fblocks (disk (f_store s)) (i_addrs (getip s ip)) in
  room s k R n → 3 ≤ k → 0 ≤ n → sb_ok sb → f_sb s = sb → file_ok s ip → i_inum (getip s ip) = inum →
  ib ∈ R → up (f_store s) ib = true →
  wp (itrunc ip) s (λ _ s', ∃ y1 y, s' = with_inode s y ip truncated ∧ freed (f_store s) y1 bs ∧
    effect y1 y (λ c, if c =? ib then put_dinode (disk y1 ib) (ioff inum) (truncated (getip s ip)) else disk y1 c) {[ib]}).
Proof.
  intros bs Hr Hk Hn Hsb Esb Hfo Hin HR Hu. pose proof (fo_ip _ _ Hfo) as Hip. unfold itrunc. apply wp_bind_assoc3.
  eapply wp_bind_mono; [by apply (itrunc_blocks_ok s ip k n)|]. intros _ s1 [Es1 Hfd1].
  apply wp_bind, wp_modify.
  assert (with_icache (alter (set_size 0) ip (f_icache s1)) s1 = with_inode s (f_store s1) ip truncated) as E2.
  { rewrite Es1 at 1 2. by rewrite with_inode_upd. }
  eapply wp_mono; [apply (iupdate_inode _ s (f_store s1) ip truncated k n E2); try done|].
  - rewrite E2. pose proof (room_freed _ _ _ _ _ Hr Hfd1) as [? ? ? ?]. by split.
  - lia.
  - by rewrite (ba_up _ _ (ef_bal _ _ _ _ (fd_effect _ _ _ Hfd1))).
  - intros _ s' (y' & -> & E). by exists (f_store s1), y'.
Qed.

(** ** iput() of the last reference to an inode without links *)

Definition gone (x : inode) : inode := set_ref (i_ref x - 1) (set_valid 0 (set_type 0 (truncated x))).

(** Blocks freed, then the inode block rewritten twice. *)
Lemma freed_updates y0 y1 y2 y3 bs d d' :
  freed y0 y1 bs → ib ∈ R →
  effect y1 y2 (λ c, if c =? ib then d else disk y1 c) {[ib]} →
  effect y2 y3 (λ c, if c =? ib then d' else disk y2 c) {[ib]} →
  effect y0 y3 (disk y3) R ∧ disk y2 ib = d ∧ disk y3 ib = d' ∧
  (∀ b, b ≠ ib → (∀ c, c ∈ bs → b ≠ BBLOCK c sb) → disk y3 b = disk y0 b) ∧
  (∀ c, 0 ≤ c < 2147483648 → BBLOCK c sb ≠ ib →
     in_use sb (disk y3) c = in_use sb (disk y0) c && negb (bool_decide (c ∈ bs))).
Proof.
  intros [E1 S1 B1] HR E2 E3. pose proof (ef_disk _ _ _ _ E2) as D2. pose proof (ef_disk _ _ _ _ E3) as D3.
  assert (∀ b, b ≠ ib → disk y3 b = disk y1 b) as Hne.
  { intros b Hb. by rewrite D3, (proj2 (Z.eqb_neq b ib) Hb), D2, (proj2 (Z.eqb_neq b ib) Hb). }
  split_and!.
  - eapply effect_weaken; [eapply effect_trans; [exact E1|eapply effect_trans; [exact E2|exact E3]]|by intros|set_solver].
  - by rewrite D2, Z.eqb_refl.
  - by rewrite D3, Z.eqb_refl.
  - intros b Hb Hbs. by rewrite Hne, S1.
  - intros c Hc Hb. unfold in_use at 1. rewrite Hne by done. by apply B1.
Qed.

Lemma dinode_ok_truncated x : dinode_ok x → dinode_ok (truncated x) ∧ dinode_ok (set_type 0 (truncated x)).
Proof.
  assert (Forall (λ a, 0 ≤ a < 4294967296) (replicate NADDR 0)) by (by apply Forall_replicate).
  intros []. split; split; simpl; try lia; by split.
Qed.

Lemma iput_ok s ip k n :
  let x := getip s ip in
  let D := disk (f_store s) in
  let bs := fblocks D (i_addrs x) in
  room s k R n → 3 ≤ k → 0 ≤ n → sb_ok sb → f_sb s = sb → file_ok s ip → dinode_ok x → i_inum x = inum →
  ib ∈ R → up (f_store s) ib = true → (∀ c, c ∈ bs → ib ≠ BBLOCK c sb) →
  i_valid x ≠ 0 → i_nlink x = 0 → i_ref x = 1 →
  wp (iput ip) s (λ _ s', ∃ y, s' = with_inode s y ip gone ∧ effect (f_store s) y (disk y) R ∧
    (∀ c, 0 ≤ c < 2147483648 → BBLOCK c sb ≠ ib → in_use sb (disk y) c = in_use sb D c && negb (bool_decide (c ∈ bs))) ∧
    (∀ b, b ≠ ib → (∀ c, c ∈ bs → b ≠ BBLOCK c sb) → disk y b = D b) ∧
    (∀ z, i_type (inode_at_disk (disk y) inum z) = 0) ∧
    (∀ i z, IBLOCK i sb = ib → inum mod IPB ≠ i mod IPB → inode_at_disk (disk y) i z = inode_at_disk D i z)).
Proof.
  intros x D bs Hr Hk Hn Hsb Esb Hfo Hdi Hin HR Hu Hib Hv Hnl Href. unfold iput.
  pose proof (fo_ip _ _ Hfo) as Hip. pose proof (fo_addrs _ _ Hfo) as Ha.
  apply wp_bind, wp_gets. fold x. rewrite Hnl, Href, (proj2 (Z.eqb_neq _ 0) Hv). cbn [negb andb Z.eqb Pos.eqb].
  apply wp_bind. eapply wp_bind_mono; [by apply (itrunc_ok s ip k n)|].
  intros _ s1 (y1 & y2 & -> & Hfd & E2). apply wp_bind, wp_modify. rewrite with_inode_upd.
  eapply wp_bind_mono; [apply (iupdate_inode _ s y2 ip (λ x, set_type 0 (truncated x)) k n eq_refl); try done|].
  - assert (room (with_store y1 s) k R n) as Hr1 by (eapply room_freed; [exact Hr|exact Hfd]).
    pose proof (room_step _ _ _ _ _ _ _ Hr1 E2 ltac:(set_solver)) as [? ? ? ?]. by split.
  - lia.
  - by rewrite (ba_up _ _ (ef_bal _ _ _ _ E2)), (ba_up _ _ (ef_bal _ _ _ _ (fd_effect _ _ _ Hfd))).
  - fold x in E2 |- *. intros _ s2 (y3 & -> & E3). apply wp_modify. rewrite with_inode_upd. apply wp_modify. rewrite with_inode_upd.
    destruct (freed_updates _ _ _ _ _ _ _ Hfd HR E2 E3) as (F1 & F2 & F3 & F4 & F5). fold D bs in F4, F5.
    destruct (dinode_ok_truncated x Hdi) as [Ht1 Ht2].
    assert (block_ok (disk y1 ib)) as Hb1 by apply law_disk_ok, (ba_ok _ _ (ef_bal _ _ _ _ (fd_effect _ _ _ Hfd))).
    assert (block_ok (disk y2 ib)) as Hb2 by apply law_disk_ok, (ba_ok _ _ (ef_bal _ _ _ _ E2)).
    exists y3. split_and!; [done|done|done|done|..].
    + intros z. unfold inode_at_disk. rewrite F3. by rewrite (proj1 (dinode_roundtrip _ inum _ z Hb2 Ht2)).
    + intros i z Hi Hne. unfold inode_at_disk. rewrite Hi, F3.
      rewrite (proj2 (dinode_roundtrip _ inum _ z Hb2 Ht2) i Hne), F2.
      rewrite (proj2 (dinode_roundtrip _ inum _ z Hb1 Ht1) i Hne). by rewrite (fd_same _ _ _ Hfd) by apply Hib.
Qed.
End inode_block.
End trunc.

(** * Theorem on the end of a file, with a sample file of two levels *)

Section claims.
Context {S : Type} `{BlockStore S}.

(** C32.  iput() of the last reference to an inode that no directory links to
    gives back every block of the file, the data blocks and the two levels of
    indirect blocks, and no other block, marks the inode free on the disk, and
    changes neither the other inodes of its block nor any other block. *)
Theorem iput_frees (s : fsst S) ip R n :
  let x := getip s ip in
  let sb := f_sb s in
  let D := disk (f_store s) in
  let bs := fblocks D (i_addrs x) in
  let ib := IBLOCK (i_inum x) sb in
  room s 3 R n → 0 ≤ n → sb_ok sb → file_ok sb R s ip → dinode_ok x →
  ib ∈ R → up (f_store s) ib = true → (∀ c, c ∈ bs → ib ≠ BBLOCK c sb) →
  i_valid x ≠ 0 → i_nlink x = 0 → i_ref x = 1 →
  wp (iput ip) s (λ _ s', ∃ y, s' = with_inode s y ip gone ∧ effect (f_store s) y (disk y) R ∧
    (∀ c, 0 ≤ c < 2147483648 → BBLOCK c sb ≠ ib → in_use sb (disk y) c = in_use sb D c && negb (bool_decide (c ∈ bs))) ∧
    (∀ b, b ≠ ib → (∀ c, c ∈ bs → b ≠ BBLOCK c sb) → disk y b = D b) ∧
    (∀ z, i_type (inode_at_disk sb (disk y) (i_inum x) z) = 0) ∧
    (∀ i z, IBLOCK i sb = ib → i_inum x mod IPB ≠ i mod IPB → inode_at_disk sb (disk y) i z = inode_at_disk sb D i z)).
Proof. intros. by apply (iput_ok sb R (i_inum x) s ip 3 n). Qed.
End claims.

(** ** An unlinked file: blocks 54 and 55, and 52 and 53 under 51 under 50 *)

Definition ptr_block (l : list Z) : list Z := flat_map (be_enc 4) l ++ replicate (512 - 4 * length l) 0.

Definition dead_device : device :=
  mkDevice (λ b, if b =? 40 then replicate 7 255 ++ 15 :: replicate 504 0
                 else if b =? 50 then ptr_block [0; 51] else if b =? 51 then ptr_block [52; 0; 53]
                 else fill_block 1) (λ _, true).

Definition dead_file : inode := mkInode 0 9 1 1 T_FILE 0 0 0 20000 0 (54 :: 0 :: 55 :: replicate 8 0 ++ [50]).
Definition dead_fs : fsst lstate :=
  mkFs (open_lstate dead_device 30) small_sb 0 0 (dead_file :: replicate 49 inhabitant) 5.

Lemma dead_device_ok b : block_ok (dev_data dead_device b).
Proof.
  assert (∀ d, forallb (λ c, (0 <=? c) && (c <? 256)) d = true → zlen d = BSIZE → block_ok d) as Hd.
  { intros d Hf Hl. split; [done|]. rewrite forallb_forall in Hf. apply Forall_forall. intros c Hc%list_elem_of_In.
    specialize (Hf c Hc). lia. }
  unfold dead_device, dev_data. destruct (b =? 40); [by apply Hd|]. destruct (b =? 50); [by apply Hd|].
  destruct (b =? 51); [by apply Hd|]. apply block_ok_fill. lia.
Qed.

Lemma dead_disk b : disk (f_store dead_fs) b = dev_data dead_device b.
Proof. by destruct (open_lstate_ok dead_device 30 dead_device_ok ltac:(lia)) as (_ & C & _). Qed.

Lemma dead_up b : up (f_store dead_fs) b = true.
Proof. by destruct (open_lstate_ok dead_device 30 dead_device_ok ltac:(lia)) as (_ & _ & _ & _ & _ & _ & U). Qed.

Lemma dead_blocks : fblocks (disk (f_store dead_fs)) (i_addrs dead_file) = [54; 55; 52; 53; 51; 50].
Proof.
  unfold fblocks. rewrite (branches_ext (dev_data dead_device)); [vm_compute; reflexivity|intros; apply dead_disk..].
Qed.

Lemma dead_room : room dead_fs 3 {[40; 33]} 0.
Proof.
  destruct (open_fs_room dead_device small_sb 0 0 {[40; 33]} 0) as [H1 H2 H3 H4];
    [exact dead_device_ok|vm_compute; reflexivity|]. by split.
Qed.

Lemma dead_in_use b : 50 ≤ b < 60 → in_use small_sb (disk (f_store dead_fs)) b = true.
Proof.
  intros Hb. rewrite (in_use_ext _ _ (dev_data dead_device)) by exact dead_disk.
  assert (forallb (in_use small_sb (dev_data dead_device)) (seqZ 50 10) = true) as F by (vm_compute; reflexivity).
  rewrite forallb_forall in F. apply F. apply list_elem_of_In, elem_of_seqZ. lia.
Qed.

Lemma dead_range b : b ∈ [54; 55; 52; 53; 51; 50] → 50 ≤ b < 60.
Proof. intros Hb. repeat (apply elem_of_cons in Hb as [->|Hb]; [lia|]). by apply not_elem_of_nil in Hb. Qed.

Lemma dead_file_ok : file_ok small_sb {[40; 33]} dead_fs 0.
Proof.
  split; change (getip dead_fs 0) with dead_file; rewrite ?dead_blocks.
  - simpl. lia.
  - reflexivity.
  - split.
    + intros b Hb%dead_range. rewrite small_bitmap by lia. split_and!; [lia|lia|set_solver|apply dead_up|by apply dead_in_use].
    + by apply (bool_decide_unpack _).
  - intros b c Hb%dead_range Hc%dead_range. rewrite small_bitmap by lia. lia.
  - intros b _. apply dead_up.
Qed.

Lemma dead_ib : IBLOCK (i_inum dead_file) small_sb = 33.
Proof. reflexivity. Qed.

Lemma iput_frees_witness :
  wp (iput 0) dead_fs (λ _ s', ∃ y, s' = with_inode dead_fs y 0 gone ∧
    (∀ c, 0 ≤ c < 1000 → in_use small_sb (disk y) c =
       in_use small_sb (disk (f_store dead_fs)) c && negb (bool_decide (c ∈ [54; 55; 52; 53; 51; 50]))) ∧
    ∀ z, i_type (inode_at_disk small_sb (disk y) 9 z) = 0).
Proof.
  pose proof (iput_frees dead_fs 0 {[40; 33]} 0) as T. cbv zeta in T.
  change (getip dead_fs 0) with dead_file in T. change (f_sb dead_fs) with small_sb in T. rewrite dead_blocks, dead_ib in T.
  eapply wp_mono; [apply T|].
  - exact dead_room.
  - lia.
  - exact small_sb_ok.
  - exact dead_file_ok.
  - split; simpl; unfold T_FILE; try lia. split; [reflexivity|]. repeat (constructor; [lia|]). constructor.
  - set_solver.
  - apply dead_up.
  - intros c Hc%dead_range. rewrite small_bitmap by lia. lia.
  - simpl. lia.
  - reflexivity.
  - reflexivity.
  - intros _ s' (y & E & _ & Hb & _ & Ht & _). exists y. split; [exact E|]. split; [|exact Ht].
    intros c Hc. apply Hb; [lia|]. rewrite small_bitmap by lia. lia.
Defined.
