(* ===== verification/Dir.v ===== *)
(** * Directories and path names (kern/fs.c)

    A path is a list of characters; its end, or a NUL, terminates it.  A name
    buffer is the [char name[DIRSIZ]] of the caller. *)

From S2P Require Import Prelude Bytes Params Kstring Store Ondisk Fs.

Definition SLASH : Z := 47.

Definition namecmp (s t : list Z) : Z := strncmp s t DIRSIZ.

(** ** skipelem() *)

(** [*path == 0] *)
Definition at_end (path : list Z) : bool :=
  match path with [] => true | c :: _ => c =? 0 end.

(** [while( *path == '/') path++;] *)
Fixpoint skip_slashes (path : list Z) : list Z :=
  match path with
  | [] => []
  | c :: p => if c =? SLASH then skip_slashes p else path
  end.

(** [while( *path != '/' && *path != 0) path++;]: the characters passed over, and the rest. *)
Fixpoint span_elem (path : list Z) : list Z * list Z :=
  match path with
  | [] => ([], [])
  | c :: p =>
      if (c =? SLASH) || (c =? 0) then ([], path)
      else let '(e, rest) := span_elem p in (c :: e, rest)
  end.

Definition skipelem (path name : list Z) : option (list Z * list Z) :=
  let path := skip_slashes path in
  if at_end path then None
  else
    let '(s, rest) := span_elem path in
    let name :=
      if zlen s >=? DIRSIZ then splice name 0 (slice s 0 DIRSIZ)
      else splice (splice name 0 s) (zlen s) [0] in
    Some (skip_slashes rest, name).

Section dir.
Context {S : Type} `{BlockOps S}.
Abbreviation fs := (fsst S).

(** ** dirlookup() and dirlink() *)

(** The entry found, as the inode [iget] returned and the offset of the entry. *)
Definition dirlookup (dp : nat) (name : list Z) : M fs (option (nat * Z)) :=
  let* x := inode_at dp in
  if negb (i_type x =? T_DIR) then panic "dirlookup not DIR" else
  loop (Z.to_nat (i_size x / DIRENTSZ) + 2) (λ off,
    let* x := inode_at dp in
    if off <? i_size x then
      let* r := readi dp off DIRENTSZ in
      let '(n, de) := r in
      if negb (n =? DIRENTSZ) then panic "dirlookup read" else
      if de_inum de =? 0 then ret (inl (u32 (off + DIRENTSZ)))
      else if namecmp name (de_name de) =? 0 then
        let* ip := iget (de_inum de) in
        ret (inr (Some (ip, off)))
      else ret (inl (u32 (off + DIRENTSZ)))
    else ret (inr None)) 0.

(** The second loop of dirlink(): the offset of the first free entry, or the end. *)
Definition dirlink_slot (dp : nat) : M fs Z :=
  let* x := inode_at dp in
  loop (Z.to_nat (i_size x / DIRENTSZ) + 2) (λ off,
    let* x := inode_at dp in
    if off <? i_size x then
      let* r := readi dp off DIRENTSZ in
      let '(n, de) := r in
      if negb (n =? DIRENTSZ) then panic "dirlink read" else
      if de_inum de =? 0 then ret (inr off)
      else ret (inl (u32 (off + DIRENTSZ)))
    else ret (inr off)) 0.

Definition dirlink (dp : nat) (name : list Z) (inum : Z) : M fs Z :=
  let* r := dirlookup dp name in
  match r with
  | Some (ip, _) => iput ip ;; ret (-1)
  | None =>
      let* off := dirlink_slot dp in
      let de := mk_dirent (u16 inum) (strncpy (zeros DIRSIZ) name DIRSIZ) in
      let* n := writei dp de off DIRENTSZ in
      if negb (n =? DIRENTSZ) then panic "dirlink" else ret 0
  end.

(** ** namex() *)

Definition namex (cwd : option nat) (path : list Z) (nameiparent : bool) (name : list Z)
    : M fs (option nat * list Z) :=
  let* ip :=
    match path with
    | c :: _ =>
        if c =? SLASH then iget ROOTINO
        else match cwd with Some d => idup d | None => fault "idup(NULL)" end
    | [] => match cwd with Some d => idup d | None => fault "idup(NULL)" end
    end in
  loop (length path + 1) (λ '(ip, path, name),
    match skipelem path name with
    | None =>
        if nameiparent then iput ip ;; ret (inr (None, name))
        else ret (inr (Some ip, name))
    | Some (path, name) =>
        ilock ip ;;
        let* x := inode_at ip in
        if negb (i_type x =? T_DIR) then iunlockput ip ;; ret (inr (None, name)) else
        if nameiparent && at_end path then iunlock ip ;; ret (inr (Some ip, name)) else
        let* next := dirlookup ip name in
        match next with
        | None => iunlockput ip ;; ret (inr (None, name))
        | Some (next, _) => iunlockput ip ;; ret (inl (next, path, name))
        end
    end) (ip, path, name).

Definition namei (cwd : option nat) (path : list Z) : M fs (option nat) :=
  let* r := namex cwd path false (zeros DIRSIZ) in ret (fst r).
Definition nameiparent (cwd : option nat) (path name : list Z) : M fs (option nat * list Z) :=
  namex cwd path true name.
End dir.
