(* ===== verification/DirSpec.v ===== *)
(** * Path names and directory entries *)

From S2P Require Import Prelude Bytes Params Kstring KstringSpec Store Ondisk Fs Dir.

(** ** The elements of a path

    [parts] cuts a string at every slash; the elements of a path are the parts
    that are not empty. *)
Fixpoint parts (s : list Z) : list (list Z) :=
  match s with
  | [] => [[]]
  | c :: s =>
      if c =? SLASH then [] :: parts s
      else match parts s with
           | e :: es => (c :: e) :: es
           | [] => [[c]]
           end
  end.
Definition elems (path : list Z) : list (list Z) := filter (λ e, e ≠ []) (parts (cstr path)).

Lemma parts_nonempty s : parts s ≠ [].
Proof. destruct s as [|c s]; simpl; [done|]. destruct (_ =? _); [done|]. by destruct (parts s). Qed.

Lemma parts_end e : SLASH ∉ e → parts e = [e].
Proof.
  induction e as [|c e IH]; intros H; simpl; [done|].
  apply not_elem_of_cons in H as [Hc He]. destruct (Z.eqb_spec c SLASH) as [->|]; [done|].
  by rewrite IH.
Qed.

Lemma parts_slash e s : SLASH ∉ e → parts (e ++ SLASH :: s) = e :: parts s.
Proof.
  induction e as [|c e IH]; intros H; simpl; [done|].
  apply not_elem_of_cons in H as [Hc He]. destruct (Z.eqb_spec c SLASH) as [->|]; [done|].
  by rewrite IH.
Qed.

Lemma elems_slash p : elems (SLASH :: p) = elems p.
Proof. done. Qed.

Lemma elems_skip p : elems (skip_slashes p) = elems p.
Proof.
  induction p as [|c p IH]; simpl; [done|]. destruct (Z.eqb_spec c SLASH) as [->|]; [|done].
  by rewrite IH, elems_slash.
Qed.

Lemma skip_slashes_head p : (match skip_slashes p with c :: _ => c ≠ SLASH | [] => True end).
Proof. induction p as [|c p IH]; simpl; [done|]. by destruct (Z.eqb_spec c SLASH). Qed.

Lemma span_elem_ok p e rest :
  span_elem p = (e, rest) →
  p = e ++ rest ∧ (SLASH ∉ e) ∧ (∀ c, c ∈ e → c ≠ 0) ∧
  match rest with c :: _ => c = SLASH ∨ c = 0 | [] => True end.
Proof.
  revert e rest. induction p as [|c p IH]; intros e rest; simpl.
  - intros [= <- <-]. split_and!; try done; [by apply not_elem_of_nil|by intros ? ?%not_elem_of_nil].
  - destruct (Z.eqb_spec c SLASH) as [->|H1]; simpl.
    { intros [= <- <-]. split_and!; try done; [by apply not_elem_of_nil|by intros ? ?%not_elem_of_nil|by left]. }
    destruct (Z.eqb_spec c 0) as [->|H2].
    { intros [= <- <-]. split_and!; try done; [by apply not_elem_of_nil|by intros ? ?%not_elem_of_nil|by right]. }
    destruct (span_elem p) as [e' r'] eqn:E. intros [= <- <-].
    destruct (IH _ _ eq_refl) as (-> & Hs & Hz & Hr). split_and!; try done.
    + apply not_elem_of_cons. done.
    + intros x [->|Hx]%elem_of_cons; auto.
Qed.

Lemma cstr_app e rest : (∀ c, c ∈ e → c ≠ 0) → cstr (e ++ rest) = e ++ cstr rest.
Proof.
  induction e as [|c e IH]; intros H; simpl; [done|].
  rewrite (proj2 (Z.eqb_neq c 0)) by (apply H; list_in). rewrite IH; [done|]. intros. apply H. list_in.
Qed.

Lemma elems_span e rest :
  e ≠ [] → SLASH ∉ e → (∀ c, c ∈ e → c ≠ 0) →
  match rest with c :: _ => c = SLASH ∨ c = 0 | [] => True end →
  elems (e ++ rest) = e :: elems rest.
Proof.
  intros Hne Hs Hz Hr. unfold elems. rewrite cstr_app by done.
  destruct rest as [|c rest]; [|destruct Hr as [-> | ->]]; simpl.
  - rewrite app_nil_r, parts_end by done. by rewrite filter_cons_True.
  - rewrite parts_slash by done. by rewrite filter_cons_True.
  - rewrite app_nil_r, parts_end by done. by rewrite filter_cons_True.
Qed.

(** The name buffer that skipelem() fills. *)
Lemma name_buffer e name :
  zlen name = DIRSIZ → (∀ c, c ∈ e → c ≠ 0) →
  let name' := if zlen e >=? DIRSIZ then splice name 0 (slice e 0 DIRSIZ)
               else splice (splice name 0 e) (zlen e) [0] in
  cstr name' = take (Z.to_nat DIRSIZ) e ∧ zlen name' = DIRSIZ.
Proof.
  intros Hn Hz name'. unfold name'. assert (Z.to_nat DIRSIZ = 14%nat) as E14 by done.
  pose proof (zlen_nonneg e). destruct (Z.geb_spec (zlen e) DIRSIZ) as [Hge|Hlt].
  - assert (zlen (slice e 0 DIRSIZ) = DIRSIZ) as El by (apply zlen_slice; unfold DIRSIZ in *; lia).
    assert (splice name 0 (slice e 0 DIRSIZ) = take 14 e) as ->.
    { unfold splice. rewrite take_0, app_nil_l. rewrite drop_ge; [by rewrite app_nil_r|].
      unfold zlen in *. lia. }
    split; [|by rewrite <- El].
    apply cstr_nozero. intros c (i & Hi & _)%elem_of_take. apply Hz. by eapply list_elem_of_lookup_2.
  - assert (zlen (splice name 0 e) = DIRSIZ) as El by (rewrite zlen_splice; lia).
    split; [|rewrite zlen_splice; rewrite ?zlen_one, ?El; lia].
    rewrite take_ge by (unfold zlen, DIRSIZ in *; lia).
    assert (splice (splice name 0 e) (zlen e) [0] = e ++ 0 :: drop (length e + 1) (splice name 0 e)) as ->.
    { unfold splice at 1. unfold zlen. rewrite Nat2Z.id. simpl.
      unfold splice at 1. rewrite take_0, app_nil_l, take_app_length. done. }
    by apply cstr_app_zero.
Qed.

(** skipelem() takes the elements of a path one at a time: it fails exactly
    when the path has no element left; otherwise the name buffer holds the
    first element, cut to DIRSIZ characters, and the path it returns has
    exactly the remaining elements and does not start with a slash. *)
Theorem skipelem_elems path name :
  zlen name = DIRSIZ →
  match skipelem path name with
  | None => elems path = []
  | Some (rest, name') =>
      ∃ e, elems path = e :: elems rest ∧ cstr name' = take (Z.to_nat DIRSIZ) e ∧
           zlen name' = DIRSIZ ∧ (at_end rest = true ↔ elems rest = [])
  end.
Proof.
  intros Hn. unfold skipelem. rewrite <- (elems_skip path).
  pose proof (skip_slashes_head path) as Hh. generalize dependent (skip_slashes path). intros p Hh.
  destruct (at_end p) eqn:Ea.
  { destruct p as [|c p]; [done|]. simpl in Ea. apply Z.eqb_eq in Ea as ->. done. }
  destruct (span_elem p) as [e rest] eqn:E. destruct (span_elem_ok _ _ _ E) as (-> & Hs & Hz & Hr).
  assert (e ≠ []) as Hne.
  { intros ->. simpl in *. destruct rest as [|c rest]; [done|]. simpl in *.
    apply Z.eqb_neq in Ea. by destruct Hr. }
  exists e. rewrite elems_skip. split_and!.
  - by apply elems_span.
  - by apply name_buffer.
  - by apply name_buffer.
  - rewrite <- (elems_skip rest). pose proof (skip_slashes_head rest) as Hh'.
    destruct (skip_slashes rest) as [|c p]; [done|]. simpl. destruct (Z.eqb_spec c 0) as [->|Hc]; [done|].
    split; [done|]. unfold elems. simpl. rewrite (proj2 (Z.eqb_neq c 0) Hc). simpl.
    rewrite (proj2 (Z.eqb_neq c SLASH) Hh'). by destruct (parts (cstr p)).
Qed.


(** ** Directory entries *)

Lemma cstr_field n u : (∀ c, c ∈ u → c ≠ 0) → cstr (field n u) = take n u.
Proof.
  intros Hu. unfold field. assert (∀ c, c ∈ take n u → c ≠ 0) as Ht.
  { intros c (i & Hi & _)%elem_of_take. apply Hu. by eapply list_elem_of_lookup_2. }
  destruct (n - length u)%nat as [|m]; simpl; [rewrite app_nil_r; by apply cstr_nozero|].
  by apply cstr_app_zero.
Qed.

Lemma length_field n u : length (field n u) = n.
Proof. unfold field. rewrite length_app, length_take, length_replicate. lia. Qed.

(** The bytes that dirlink() writes for an entry, read back by dirlookup(). *)
Lemma dirent_roundtrip inum name :
  let de := mk_dirent (u16 inum) (strncpy (zeros DIRSIZ) name DIRSIZ) in
  zlen de = DIRENTSZ ∧ de_inum de = u16 inum ∧ de_name de = field (Z.to_nat DIRSIZ) (cstr name).
Proof.
  intros de. unfold de. rewrite strncpy_ok by (vm_compute; split; discriminate).
  rewrite (drop_ge (zeros DIRSIZ)) by (vm_compute; lia). rewrite app_nil_r.
  set (f := field (Z.to_nat DIRSIZ) (cstr name)). assert (length f = 14%nat) as Hf by apply length_field.
  unfold mk_dirent, de_inum, de_name, slice. split_and!.
  - rewrite zlen_app, zlen_be_enc. unfold zlen. rewrite Hf. done.
  - unfold ld16, ldn, slice. change (Z.to_nat 0) with 0%nat. rewrite drop_0, take_app_le by (rewrite length_be_enc; done).
    rewrite take_ge by (rewrite length_be_enc; done). rewrite be_dec_enc.
    apply Z.mod_small, u16_range.
  - rewrite drop_app_ge by (rewrite length_be_enc; done). rewrite length_be_enc.
    change (Z.to_nat 2 - 2)%nat with 0%nat. rewrite drop_0. apply take_ge. rewrite Hf. done.
Qed.

(** The entry that dirlink() writes for a name is the entry that
    dirlookup() looks for: the inode number comes back, and namecmp() accepts a
    name exactly when it agrees with the linked one on the first DIRSIZ
    characters. *)
Theorem dirent_found inum name name' :
  0 < inum < 65536 →
  let de := mk_dirent (u16 inum) (strncpy (zeros DIRSIZ) name DIRSIZ) in
  de_inum de = inum ∧
  (namecmp name' (de_name de) = 0 ↔
   take (Z.to_nat DIRSIZ) (cstr name') = take (Z.to_nat DIRSIZ) (cstr name)).
Proof.
  intros Hi de. destruct (dirent_roundtrip inum name) as (_ & E1 & E2). fold de in E1, E2.
  split; [rewrite E1; apply u16_small; lia|].
  rewrite E2. unfold namecmp, strncmp. change 0 with (Z.of_nat 0) at 1. rewrite strncmp_from_zero, !drop_0.
  rewrite cstr_field by apply cstr_zero. by rewrite take_take, Nat.min_id.
Qed.

