(* ===== verification/DirProps.v ===== *)
(** * Directories as files: iget(), dirlookup() and dirlink() of kern/fs.c

    A directory is a file whose bytes are a list of entries.  The routines are
    described on that list: dirlookup() is [list_find], dirlink() fills the
    first free entry or appends one. *)

From S2P Require Import Prelude Bytes Params Kstring Store KstringSpec Ondisk OndiskSpec Bio BioSpec BioProps Log LogProps Fs FsBlock FsAlloc FsAllocProps FsFile FsFileProps Dir DirSpec.

(** ** The inode cache *)

(** An entry in use for inode [inum]. *)
Definition caches (inum : Z) (x : inode) : Prop := 0 < i_ref x ∧ i_inum x = inum.

(** No count is negative, and an inode is in one entry only. *)
Record icache_ok (l : list inode) : Prop := {
  ic_ref : ∀ i x, l !! i = Some x → 0 ≤ i_ref x;
  ic_once : ∀ i j x y inum, l !! i = Some x → l !! j = Some y → caches inum x → caches inum y → i = j;
}.

(** iget() finds the inode cached, or an entry to put it in. *)
Definition iget_room (l : list inode) (inum : Z) : Prop :=
  ∃ i x, l !! i = Some x ∧ (caches inum x ∨ i_ref x = 0).

Lemma iget_scan_spec inum l i empty :
  match iget_scan l i inum empty with
  | (Some k, _) => ∃ j x, k = (i + j)%nat ∧ l !! j = Some x ∧ caches inum x
  | (None, e) => (∀ j x, l !! j = Some x → ¬ caches inum x) ∧
      match empty with
      | Some _ => e = empty
      | None => match e with
                | Some k => ∃ j x, k = (i + j)%nat ∧ l !! j = Some x ∧ i_ref x = 0
                | None => ∀ j x, l !! j = Some x → i_ref x ≠ 0
                end
      end
  end.
Proof.
  revert i empty. induction l as [|y l IH]; intros i empty; simpl.
  - split; [by intros|]. by destruct empty.
  - destruct ((i_ref y >? 0) && (i_inum y =? inum)) eqn:Ec.
    + apply andb_true_iff in Ec as [Hr%Z.gtb_lt He%Z.eqb_eq]. exists 0%nat, y. split; [lia|]. done.
    + assert (¬ caches inum y) as Hno.
      { intros [Hr He]. apply Z.gtb_lt in Hr. rewrite Hr in Ec. simpl in Ec. by apply Z.eqb_neq in Ec. }
      set (e := match empty with None => if i_ref y =? 0 then Some i else None | Some e => Some e end).
      specialize (IH (Datatypes.S i) e).
      destruct (iget_scan l (Datatypes.S i) inum e) as [[k|] e'].
      * destruct IH as (j & x & -> & Hx & Hc). exists (Datatypes.S j), x. split; [lia|done].
      * destruct IH as [Hall He]. split; [by intros [|j] x Hx; [simplify_eq/=|eauto]|].
        unfold e in He. destruct empty as [e0|]; [done|].
        destruct (Z.eqb_spec (i_ref y) 0) as [E0|E0].
        -- subst e'. exists 0%nat, y. split; [lia|done].
        -- destruct e' as [k|].
           ++ destruct He as (j & x & -> & Hx & H0). exists (Datatypes.S j), x. split; [lia|done].
           ++ by intros [|j] x Hx; [simplify_eq/=|eauto].
Qed.

(** What iget() does to the entry it returns. *)
Definition got_inode (inum : Z) (x : inode) : inode :=
  if (i_ref x >? 0) && (i_inum x =? inum) then set_ref (i_ref x + 1) x
  else set_valid 0 (set_ref 1 (set_inum inum x)).

Section iget.
Context {S : Type}.
Implicit Types s : fsst S.

Lemma iget_ok s inum :
  iget_room (f_icache s) inum →
  ∃ ip x, iget inum s = Ret ip (with_icache (alter (got_inode inum) ip (f_icache s)) s) ∧
    f_icache s !! ip = Some x ∧
    (caches inum x ∨ i_ref x = 0 ∧ ∀ j y, f_icache s !! j = Some y → ¬ caches inum y).
Proof.
  intros (i0 & x0 & Hx0 & Hroom). unfold iget, bind, gets, upd_inode, modify, ret.
  pose proof (iget_scan_spec inum (f_icache s) 0 None) as Hs.
  assert (∀ f ip x, f_icache s !! ip = Some x → f x = got_inode inum x →
    with_icache (alter f ip (f_icache s)) s = with_icache (alter (got_inode inum) ip (f_icache s)) s) as Halt.
  { intros f ip x Hx E. f_equal. apply list_alter_ext; [|done]. intros y Hy. by simplify_eq. }
  destruct (iget_scan (f_icache s) 0 inum None) as [[k|] e].
  - destruct Hs as (j & x & -> & Hx & Hc). exists j, x. split_and!; [|done|by left].
    f_equal. apply (Halt _ _ _ Hx). unfold got_inode. destruct Hc as [Hr He].
    by rewrite (proj2 (Z.gtb_lt _ _) Hr), (proj2 (Z.eqb_eq _ _) He).
  - destruct Hs as [Hall He]. destruct e as [k|].
    + destruct He as (j & x & -> & Hx & H0). exists j, x. split_and!; [|done|by right].
      f_equal. apply (Halt _ _ _ Hx). unfold got_inode. by rewrite H0.
    + destruct Hroom as [Hc|H0]; [by destruct (Hall _ _ Hx0)|]. by destruct (He _ _ Hx0).
Qed.
End iget.

Lemma got_inode_caches inum x : 0 ≤ i_ref x → caches inum (got_inode inum x).
Proof.
  intros Hr. unfold got_inode, caches. destruct ((i_ref x >? 0) && (i_inum x =? inum)) eqn:E; simpl; [|lia].
  apply andb_true_iff in E as [_ He%Z.eqb_eq]. split; [lia|done].
Qed.

(** iget() keeps the cache in order. *)
Lemma icache_ok_got l inum ip x :
  icache_ok l → l !! ip = Some x →
  caches inum x ∨ i_ref x = 0 ∧ (∀ j y, l !! j = Some y → ¬ caches inum y) →
  icache_ok (alter (got_inode inum) ip l).
Proof.
  intros [Hr Ho] Hx Hcase. pose proof (got_inode_caches inum x (Hr _ _ Hx)) as [Hg1 Hg2]. split.
  - intros i y Hy. rewrite list_lookup_alter in Hy. destruct (decide (ip = i)) as [<-|]; [|eauto].
    rewrite Hx in Hy. simplify_eq/=. lia.
  - assert (∀ j y num, ip ≠ j → l !! j = Some y → caches num (got_inode inum x) → ¬ caches num y) as Hone.
    { intros j y num Hne Hy [_ Hn] Hc. assert (num = inum) as -> by congruence.
      destruct Hcase as [Hcx|[_ Hall]]; [|by destruct (Hall _ _ Hy)]. destruct Hne. eauto. }
    intros i j y z num Hy Hz Hcy Hcz. rewrite list_lookup_alter in Hy, Hz.
    destruct (decide (ip = i)) as [<-|], (decide (ip = j)) as [<-|]; [done| | |eauto];
      rewrite Hx in *; simplify_eq/=; exfalso; by eapply Hone.
Qed.

Lemma icache_ok_same l f dp :
  (∀ x, i_ref (f x) = i_ref x ∧ i_inum (f x) = i_inum x) →
  (icache_ok l → icache_ok (alter f dp l)) ∧ (∀ inum, iget_room l inum → iget_room (alter f dp l) inum).
Proof.
  intros Hf.
  assert (∀ i y, alter f dp l !! i = Some y → ∃ x, l !! i = Some x ∧ i_ref y = i_ref x ∧ i_inum y = i_inum x) as Hinv.
  { intros i y. rewrite list_lookup_alter. destruct (decide (dp = i)) as [<-|]; [|by eauto].
    intros (x & Hx & ->)%fmap_Some. exists x. split; [done|apply Hf]. }
  split.
  - intros [Hr Ho]. split.
    + intros i y (x & Hx & -> & _)%Hinv. eauto.
    + intros i j y z inum (x & Hx & Er & En)%Hinv (w & Hw & Er' & En')%Hinv Hc Hc'.
      apply (Ho i j x w inum); unfold caches in *; [done|done|by rewrite <- Er, <- En|by rewrite <- Er', <- En'].
  - intros inum (i & x & Hx & Hc). exists i. rewrite list_lookup_alter.
    destruct (decide (dp = i)) as [<-|]; [|by exists x]. rewrite Hx. exists (f x). split; [done|]. unfold caches in *.
    by destruct (Hf x) as [-> ->].
Qed.

(** ** The entries of a directory *)

Definition dentry (D : Z → list Z) (addrs : list Z) (k : Z) : list Z :=
  fslice D addrs (k * DIRENTSZ) DIRENTSZ.
Definition dentries (D : Z → list Z) (addrs : list Z) (size : Z) : list (list Z) :=
  dentry D addrs <$> seqZ 0 (size / DIRENTSZ).

(** The entry dirlookup() looks for, and the entry dirlink() can use. *)
Definition entry_named (name de : list Z) : Prop := de_inum de ≠ 0 ∧ namecmp name (de_name de) = 0.
Definition entry_free (de : list Z) : Prop := de_inum de = 0.
#[global] Instance entry_named_dec name de : Decision (entry_named name de).
Proof. unfold entry_named. apply _. Defined.
#[global] Instance entry_free_dec de : Decision (entry_free de).
Proof. unfold entry_free. apply _. Defined.

(** Names that agree on the first DIRSIZ characters are looked up alike. *)
Lemma entry_named_alike name name' de :
  take (Z.to_nat DIRSIZ) (cstr name') = take (Z.to_nat DIRSIZ) (cstr name) →
  entry_named name' de ↔ entry_named name de.
Proof.
  intros E. unfold entry_named, namecmp. rewrite !strncmp_equal by done. by rewrite E.
Qed.

Lemma dentries_lookup D addrs size k :
  0 ≤ k < size / DIRENTSZ → dentries D addrs size !! Z.to_nat k = Some (dentry D addrs k).
Proof.
  intros Hk. unfold dentries. rewrite list_lookup_fmap, lookup_seqZ_lt by lia. simpl. do 2 f_equal. lia.
Qed.

Lemma length_dentries D addrs size : length (dentries D addrs size) = Z.to_nat (size / DIRENTSZ).
Proof. unfold dentries. by rewrite length_fmap, length_seqZ. Qed.

Lemma dentries_ext D E addrs size : (∀ b, D b = E b) → dentries D addrs size = dentries E addrs size.
Proof. intros HE. unfold dentries, dentry. apply list_fmap_ext. intros. by apply fslice_ext. Qed.

(** Where a search that has passed [k] entries is. *)
Lemma list_find_here {A} (P : A → Prop) `{∀ x, Decision (P x)} (l : list A) k x :
  l !! k = Some x → P x → (∀ j y, (j < k)%nat → l !! j = Some y → ¬ P y) → list_find P l = Some (k, x).
Proof. intros Hx HP Hno. apply list_find_Some. split_and!; [done|done|eauto]. Qed.

Lemma list_find_nowhere {A} (P : A → Prop) `{∀ x, Decision (P x)} (l : list A) :
  (∀ j y, l !! j = Some y → ¬ P y) → list_find P l = None.
Proof. intros Hno. apply list_find_None, Forall_lookup. eauto. Qed.

(** The list of entries after dirlink(). *)
Definition link_entry (l : list (list Z)) (de : list Z) : list (list Z) :=
  match list_find entry_free l with
  | Some (k, _) => <[k := de]> l
  | None => l ++ [de]
  end.

Lemma dentry_updated D D' addrs nb q de ib k :
  updated D D' addrs nb (q * DIRENTSZ) de ib → zlen de = DIRENTSZ →
  0 ≤ k → (k + 1) * DIRENTSZ ≤ nb * BSIZE →
  dentry D' addrs k = if k =? q then de else dentry D addrs k.
Proof.
  intros [_ Hb _] Hz Hk Hfit. unfold dentry, DIRENTSZ in *. apply byte_ext.
  - destruct (_ =? _); rewrite ?zlen_fslice by lia; lia.
  - rewrite zlen_fslice by lia. intros i Hi. rewrite byte_fslice, Hb, Hz by lia.
    destruct (Z.leb_spec (q * 16) (k * 16 + i)), (Z.ltb_spec (k * 16 + i) (q * 16 + 16)), (Z.eqb_spec k q);
      simpl; try lia; rewrite ?byte_fslice by lia; [|done..]. f_equal. lia.
Qed.

Lemma dentries_set D D' addrs nb q de ib size :
  updated D D' addrs nb (q * DIRENTSZ) de ib → zlen de = DIRENTSZ → size ≤ nb * BSIZE →
  0 ≤ q < size / DIRENTSZ → dentries D' addrs size = <[Z.to_nat q := de]> (dentries D addrs size).
Proof.
  intros Hu Hz Hfit Hq. apply list_eq. intros j.
  destruct (decide (j < Z.to_nat (size / DIRENTSZ))%nat) as [Hj|Hj].
  2:{ rewrite !lookup_ge_None_2; rewrite ?length_insert, ?length_dentries; [done|lia..]. }
  replace j with (Z.to_nat (Z.of_nat j)) by lia. set (k := Z.of_nat j).
  rewrite dentries_lookup by lia. rewrite (dentry_updated D D' _ _ _ _ _ _ Hu Hz); [|lia|].
  2:{ pose proof (Z.mul_div_le size DIRENTSZ ltac:(done)). unfold DIRENTSZ in *. lia. }
  destruct (Z.eqb_spec k q) as [->|Hne].
  - rewrite list_lookup_insert_eq; [done|]. rewrite length_dentries. lia.
  - rewrite list_lookup_insert_ne by lia. by rewrite dentries_lookup by lia.
Qed.

Lemma dentries_snoc D D' addrs nb de ib size :
  updated D D' addrs nb size de ib → zlen de = DIRENTSZ → size + DIRENTSZ ≤ nb * BSIZE →
  0 ≤ size → size mod DIRENTSZ = 0 →
  dentries D' addrs (size + DIRENTSZ) = dentries D addrs size ++ [de].
Proof.
  intros Hu Hz Hfit H0 Hm. pose proof (Z.div_mod size DIRENTSZ ltac:(done)) as Edm.
  set (q := size / DIRENTSZ) in *. assert (size = q * DIRENTSZ) as Es by lia.
  assert (0 ≤ q) as Hq by (unfold q, DIRENTSZ; apply Z.div_pos; lia).
  assert ((size + DIRENTSZ) / DIRENTSZ = q + 1) as Eq by (rewrite Es; unfold DIRENTSZ; by rewrite <- Z.mul_succ_l, Z.div_mul).
  rewrite Es in Hu. unfold dentries. fold q. rewrite Eq, seqZ_app by lia. rewrite fmap_app. f_equal.
  - apply list_fmap_ext. intros i k Hk. apply lookup_seqZ in Hk as [-> Hk].
    rewrite (dentry_updated D D' _ _ _ _ _ _ Hu Hz); [|lia|unfold DIRENTSZ in *; lia].
    by rewrite (proj2 (Z.eqb_neq _ _)) by lia.
  - change (seqZ (0 + q) 1) with [0 + q]. simpl. f_equal.
    rewrite (dentry_updated D D' _ _ _ _ _ _ Hu Hz); [|lia|unfold DIRENTSZ in *; lia].
    by rewrite Z.eqb_refl.
Qed.

Lemma updated_ext D E D' addrs nb off bs ib :
  (∀ b, D b = E b) → updated D D' addrs nb off bs ib → updated E D' addrs nb off bs ib.
Proof.
  intros HE [Hp Hb Hc].
  assert (∀ j, path D addrs j = path E addrs j) as Ep by (intros; by apply path_ext).
  split.
  - intros j Hj. by rewrite <- Ep, Hp.
  - intros i Hi. by rewrite <- (fbyte_ext D E), Hb.
  - intros c Hi Hl. rewrite <- HE. apply Hc; [done|]. intros j. unfold leaf. rewrite Ep. apply Hl.
Qed.

(** A new entry is found under its name, whatever free entry it took; a search
    for a name it does not have finds what it found before. *)
Lemma link_entry_find name de l :
  list_find (entry_named name) l = None → entry_named name de →
  ∃ k, list_find (entry_named name) (link_entry l de) = Some (k, de).
Proof.
  intros Hno%list_find_None Hde. rewrite Forall_lookup in Hno. unfold link_entry.
  destruct (list_find entry_free l) as [[k x]|] eqn:Ef.
  - apply list_find_Some in Ef as (Hx & _ & _). exists k. apply list_find_here; [|done|].
    + apply list_lookup_insert_eq. by eapply lookup_lt_Some.
    + intros j y Hj Hy. rewrite list_lookup_insert_ne in Hy by lia. eauto.
  - exists (length l). apply list_find_here; [by apply list_lookup_middle|done|].
    intros j y Hj Hy. rewrite lookup_app_l in Hy by done. eauto.
Qed.

Lemma link_entry_other name de l k x :
  ¬ entry_named name de → list_find (entry_named name) l = Some (k, x) →
  list_find (entry_named name) (link_entry l de) = Some (k, x).
Proof.
  intros Hde (Hx & Hn & Hbefore)%list_find_Some. pose proof (lookup_lt_Some _ _ _ Hx) as Hlt. unfold link_entry.
  destruct (list_find entry_free l) as [[q z]|] eqn:Ef.
  - apply list_find_Some in Ef as (Hz & Hfree & _).
    assert (q ≠ k) as Hne by (intros ->; simplify_eq; by destruct Hn).
    apply list_find_here; [by rewrite list_lookup_insert_ne|done|].
    intros j y Hj Hy. destruct (decide (q = j)) as [->|].
    + rewrite list_lookup_insert_eq in Hy by lia. by simplify_eq.
    + rewrite list_lookup_insert_ne in Hy by done. eauto.
  - apply list_find_here; [by rewrite lookup_app_l|done|].
    intros j y Hj Hy. rewrite lookup_app_l in Hy by lia. eauto.
Qed.

Section dirfile.
Context {S : Type} `{BlockStore S}.
Implicit Types s : fsst S.

(** A locked directory whose blocks are all there. *)
Record is_dir s (dp : nat) : Prop := {
  id_ok : ok (f_store s);
  id_bufs : htot (f_store s) < Z.of_nat NBUF;
  id_type : i_type (getip s dp) = T_DIR;
  id_size : 0 ≤ i_size (getip s dp) < 2147483648;
  id_whole : i_size (getip s dp) mod DIRENTSZ = 0;
  id_mapped : ∀ bn, 0 ≤ bn * BSIZE < i_size (getip s dp) →
    mapped (f_store s) (i_addrs (getip s dp)) bn;
}.

Definition entries s (dp : nat) : list (list Z) :=
  dentries (disk (f_store s)) (i_addrs (getip s dp)) (i_size (getip s dp)).

Lemma is_dir_effect s dp y :
  is_dir s dp → effect (f_store s) y (disk (f_store s)) ∅ → is_dir (with_store y s) dp.
Proof.
  intros [O B T Z W M] E. pose proof E as [[O' U _ _ _ _ T' _] D _].
  split; try done; simpl; [by rewrite T'|].
  intros bn Hbn. eapply mapped_effect; [done|by apply M].
Qed.

(** One entry, as the loops of dirlookup() and dirlink() read it. *)
Lemma readi_entry s dp k :
  is_dir s dp → 0 ≤ k → k * DIRENTSZ < i_size (getip s dp) →
  wp (readi dp (k * DIRENTSZ) DIRENTSZ) s (λ r s', ∃ y, s' = with_store y s ∧
    effect (f_store s) y (disk (f_store s)) ∅ ∧ entries s dp !! Z.to_nat k = Some r.2 ∧ r.1 = DIRENTSZ).
Proof.
  intros Hd Hk Hlt. pose proof Hd as [O B T [Z0 Z1] W M]. unfold DIRENTSZ in *.
  pose proof (Z.div_mod (i_size (getip s dp)) 16 ltac:(lia)) as Edm.
  eapply wp_mono; [apply readi_ok; try done; lia|].
  intros r s' (y & -> & E & ->). exists y. split; [done|]. split; [done|].
  replace (Z.min 16 _) with 16 by lia. split; [|done]. simpl.
  unfold entries. rewrite dentries_lookup; [done|unfold DIRENTSZ; lia].
Qed.

(** The loop that dirlookup() and dirlink() share: look at each entry in turn,
    until [P] holds of one, which [found] deals with. *)
Lemma scan_entries {A} s dp (P : list Z → Prop) `{∀ de, Decision (P de)}
    (body : Z → M (fsst S) (Z + A)) (Q : A → fsst S → Prop) :
  is_dir s dp →
  (∀ y k de, effect (f_store s) y (disk (f_store s)) ∅ → entries s dp !! Z.to_nat k = Some de →
     0 ≤ k → k * DIRENTSZ < i_size (getip s dp) →
     (P de → list_find P (entries s dp) = Some (Z.to_nat k, de)) →
     wp (body (k * DIRENTSZ)) (with_store y s) (λ r s', if decide (P de) then ∃ a, r = inr a ∧ Q a s'
       else ∃ z, r = inl (u32 (k * DIRENTSZ + DIRENTSZ)) ∧ s' = with_store z s ∧
            effect (f_store s) z (disk (f_store s)) ∅)) →
  (∀ y, effect (f_store s) y (disk (f_store s)) ∅ → list_find P (entries s dp) = None →
     wp (body (i_size (getip s dp))) (with_store y s) (λ r s', ∃ a, r = inr a ∧ Q a s')) →
  wp (loop (Z.to_nat (i_size (getip s dp) / DIRENTSZ) + 2) body 0) s Q.
Proof.
  intros Hd Hin Hend. pose proof Hd as [O B T [Z0 Z1] W Hm].
  set (sz := i_size (getip s dp)) in *. set (nk := sz / DIRENTSZ).
  assert (sz = nk * DIRENTSZ) as Esz.
  { pose proof (Z.div_mod sz DIRENTSZ ltac:(done)). unfold nk. lia. }
  assert (0 ≤ nk) by (unfold nk, DIRENTSZ; apply Z.div_pos; lia).
  apply (wp_loop body (λ r off s', ∃ k y, off = k * DIRENTSZ ∧ 0 ≤ k ≤ nk ∧ r = Z.to_nat (nk - k) ∧
     s' = with_store y s ∧ effect (f_store s) y (disk (f_store s)) ∅ ∧
     ∀ j de, (j < Z.to_nat k)%nat → entries s dp !! j = Some de → ¬ P de) Q) with (n := Z.to_nat nk).
  2:{ lia. }
  2:{ exists 0, (f_store s). rewrite with_store_self. split_and!; try done; try lia. by apply effect_refl. }
  intros r off s' (k & y & -> & Hk & -> & -> & E & Hno).
  destruct (decide (k = nk)) as [->|Hne].
  - rewrite <- Esz. eapply wp_mono; [apply (Hend y E)|].
    + apply list_find_nowhere. intros j de Hj. apply (Hno j de); [|done].
      apply lookup_lt_Some in Hj. unfold entries in Hj. rewrite length_dentries in Hj. unfold nk, sz. lia.
    + by intros r s' (a & -> & HQ).
  - assert (entries s dp !! Z.to_nat k = Some (dentry (disk (f_store s)) (i_addrs (getip s dp)) k)) as Hde
      by (apply dentries_lookup; unfold nk, sz in *; lia).
    eapply wp_mono; [apply (Hin y k _ E Hde); [lia|unfold DIRENTSZ in *; lia|]|].
    + intros HP. by apply list_find_here.
    + intros r s'. destruct (decide (P _)) as [HP|HP]; [by intros (a & -> & HQ)|].
      intros (z & -> & -> & E'). exists (Z.to_nat (nk - (k + 1))). split; [lia|].
      exists (k + 1), z. split_and!; try done; try lia.
      * rewrite u32_small; unfold DIRENTSZ in *; lia.
      * intros j de Hj Hl. destruct (decide (j = Z.to_nat k)) as [->|]; [by simplify_eq|].
        apply (Hno j de); [lia|done].
Qed.

(** dirlookup() is a search of the list of entries for the name. *)
Lemma dirlookup_ok s dp name :
  is_dir s dp →
  (∀ k de, list_find (entry_named name) (entries s dp) = Some (k, de) → iget_room (f_icache s) (de_inum de)) →
  wp (dirlookup dp name) s (λ r s', ∃ y, effect (f_store s) y (disk (f_store s)) ∅ ∧
    match list_find (entry_named name) (entries s dp) with
    | None => r = None ∧ s' = with_store y s
    | Some (k, de) => ∃ ip x, r = Some (ip, Z.of_nat k * DIRENTSZ) ∧ f_icache s !! ip = Some x ∧
        (caches (de_inum de) x ∨ i_ref x = 0 ∧ ∀ j z, f_icache s !! j = Some z → ¬ caches (de_inum de) z) ∧
        s' = with_icache (alter (got_inode (de_inum de)) ip (f_icache s)) (with_store y s)
    end).
Proof.
  intros Hd Hroom. unfold dirlookup. apply wp_bind, wp_gets. rewrite (id_type _ _ Hd). simpl.
  apply (scan_entries s dp (entry_named name)); [done|..].
  - intros y k de E Hde Hk Hlt Hfind. apply wp_bind, wp_gets.
    change (getip (with_store y s) dp) with (getip s dp). rewrite (proj2 (Z.ltb_lt _ _) Hlt).
    eapply wp_bind_mono; [apply (readi_entry (with_store y s) dp k); [by apply is_dir_effect|done|done]|].
    intros [n de'] s' (z & -> & E2 & Hde' & Hn). simpl in Hde', Hn. subst n. simpl.
    assert (entries (with_store y s) dp = entries s dp) as Een by (apply dentries_ext; apply E).
    rewrite Een, Hde in Hde'. injection Hde' as <-.
    assert (effect (f_store s) z (disk (f_store s)) ∅) as Ez
      by (eapply effect_weaken; [by eapply effect_seq|done|set_solver]).
    destruct (Z.eqb_spec (de_inum de) 0) as [E0|E0].
    { apply wp_ret. rewrite decide_False by (by intros [? _]). by exists z. }
    destruct (Z.eqb_spec (namecmp name (de_name de)) 0) as [E1|E1].
    + assert (entry_named name de) as Hen by done.
      specialize (Hfind Hen). destruct (iget_ok (with_store z s) (de_inum de)) as (ip & x & Eg & Hx & Hc).
      { simpl. by eapply Hroom. }
      apply wp_bind, (wp_of_Ret _ _ _ _ _ Eg), wp_ret. rewrite decide_True by done. eexists. split; [done|]. exists z. split; [done|].
      rewrite Hfind. exists ip, x. split_and!; try done. do 3 f_equal. lia.
    + apply wp_ret. rewrite decide_False by (by intros [_ ?]). by exists z.
  - intros y E Hno. apply wp_bind, wp_gets. change (getip (with_store y s) dp) with (getip s dp).
    rewrite Z.ltb_irrefl. apply wp_ret. eexists. split; [done|]. exists y. by rewrite Hno.
Qed.

Lemma dirlink_slot_ok s dp :
  is_dir s dp →
  wp (dirlink_slot dp) s (λ off s', ∃ y, s' = with_store y s ∧ effect (f_store s) y (disk (f_store s)) ∅ ∧
    off = match list_find entry_free (entries s dp) with
          | None => i_size (getip s dp)
          | Some (k, _) => Z.of_nat k * DIRENTSZ
          end).
Proof.
  intros Hd. unfold dirlink_slot. apply wp_bind, wp_gets.
  apply (scan_entries s dp entry_free); [done|..].
  - intros y k de E Hde Hk Hlt Hfind. apply wp_bind, wp_gets.
    change (getip (with_store y s) dp) with (getip s dp). rewrite (proj2 (Z.ltb_lt _ _) Hlt).
    eapply wp_bind_mono; [apply (readi_entry (with_store y s) dp k); [by apply is_dir_effect|done|done]|].
    intros [n de'] s' (z & -> & E2 & Hde' & Hn). simpl in Hde', Hn. subst n. simpl.
    assert (entries (with_store y s) dp = entries s dp) as Een by (apply dentries_ext; apply E).
    rewrite Een, Hde in Hde'. injection Hde' as <-.
    assert (effect (f_store s) z (disk (f_store s)) ∅) as Ez
      by (eapply effect_weaken; [by eapply effect_seq|done|set_solver]).
    destruct (Z.eqb_spec (de_inum de) 0) as [E0|E0].
    + apply wp_ret. rewrite decide_True by done. eexists. split; [done|]. exists z.
      rewrite (Hfind E0). split_and!; [done|done|]. by rewrite Z2Nat.id.
    + apply wp_ret. rewrite decide_False by done. by exists z.
  - intros y E Hno. apply wp_bind, wp_gets. change (getip (with_store y s) dp) with (getip s dp).
    rewrite Z.ltb_irrefl. apply wp_ret. eexists. split; [done|]. exists y. by rewrite Hno.
Qed.

(** Where dirlink() puts a new entry. *)
Definition slot s (dp : nat) : Z :=
  match list_find entry_free (entries s dp) with
  | None => i_size (getip s dp)
  | Some (k, _) => Z.of_nat k * DIRENTSZ
  end.

(** The directory can take one more entry without a new block: its first [nb]
    blocks are there, and the log has room for the block of the entry and the
    block of the inode. *)
Record can_link s (dp : nat) (nb : Z) (R : gset Z) (r : Z) : Prop := {
  cl_dir : is_dir s dp;
  cl_write : writable s dp nb R r;
  cl_ip : (dp < length (f_icache s))%nat;
  cl_fit : i_size (getip s dp) + DIRENTSZ ≤ nb * BSIZE;
  cl_nb : nb ≤ MAXFILE;
  cl_leaf : ∀ j, 0 ≤ j < nb → slot s dp / BSIZE ≤ j → j * BSIZE < slot s dp + DIRENTSZ →
    leaf (disk (f_store s)) (i_addrs (getip s dp)) j ∈ R;
  cl_inode : IBLOCK (i_inum (getip s dp)) (f_sb s) ∈ R;
  cl_up : up (f_store s) (IBLOCK (i_inum (getip s dp)) (f_sb s)) = true;
  cl_addrs : length (i_addrs (getip s dp)) = NADDR;
  cl_apart : ∀ j, 0 ≤ j < nb →
    IBLOCK (i_inum (getip s dp)) (f_sb s) ∉ path (disk (f_store s)) (i_addrs (getip s dp)) j;
}.

Lemma can_link_effect s dp nb R r y :
  can_link s dp nb R r → effect (f_store s) y (disk (f_store s)) ∅ → can_link (with_store y s) dp nb R r.
Proof.
  intros [Hd [Hr Hn Hm Hw] Hip Hfit Hnb Hl Hi Hu Ha Hp] E. pose proof E as [[_ U _ _ _ _ _ _] D _].
  assert (∀ j, path (disk y) (i_addrs (getip s dp)) j = path (disk (f_store s)) (i_addrs (getip s dp)) j) as Ep
    by (intros; by apply path_ext).
  assert (entries (with_store y s) dp = entries s dp) as Een by (by apply dentries_ext).
  split; try done; simpl.
  - by apply is_dir_effect.
  - split; [eapply room_step; [done|done|set_solver]|done|intros; eapply mapped_effect; [done|by apply Hm]|].
    destruct Hw as [W1 W2]. split; intros i j Hi' Hj; simpl; unfold leaf; rewrite !Ep; [by apply W1|by apply W2].
  - unfold slot, leaf. rewrite Een. intros j. rewrite Ep. by apply Hl.
  - by rewrite U.
  - intros j Hj. change (getip (with_store y s) dp) with (getip s dp). rewrite Ep. by apply Hp.
Qed.

Lemma slot_range s dp : is_dir s dp → 0 ≤ slot s dp ≤ i_size (getip s dp) ∧
  (list_find entry_free (entries s dp) ≠ None → slot s dp + DIRENTSZ ≤ i_size (getip s dp)).
Proof.
  intros [_ _ _ [Z0 _] W _]. unfold slot. destruct (list_find _ _) as [[k de]|] eqn:Ef; [|done].
  apply list_find_Some in Ef as (Hk%lookup_lt_Some & _). unfold entries in Hk. rewrite length_dentries in Hk.
  pose proof (Z.mul_div_le (i_size (getip s dp)) DIRENTSZ ltac:(done)). unfold DIRENTSZ in *. lia.
Qed.

(** What the write of the entry does to the list. *)
Lemma entries_written s dp nb R r y D' de :
  can_link s dp nb R r → zlen de = DIRENTSZ → effect (f_store s) y D' R →
  updated (disk (f_store s)) D' (i_addrs (getip s dp)) nb (slot s dp) de (IBLOCK (i_inum (getip s dp)) (f_sb s)) →
  let s' := with_icache (alter (grown s (slot s dp) DIRENTSZ) dp (f_icache s)) (with_store y s) in
  is_dir s' dp ∧ entries s' dp = link_entry (entries s dp) de.
Proof.
  intros Hcl Hz E Hu s'. pose proof Hcl as [Hd [Hr Hn Hm Hw] Hip Hfit Hnb Hl Hi Hup Ha Hp].
  pose proof E as [[O U _ _ _ _ T _] D _]. pose proof Hd as [Ok Hb Ht [Z0 Z1] W _].
  set (x := getip s dp) in *. set (off := slot s dp) in *.
  destruct (slot_range s dp Hd) as [Hoff Hfree]. fold off x in Hoff, Hfree.
  assert (getip s' dp = grown s off DIRENTSZ x) as Eg by (unfold getip; simpl; by rewrite list_lookup_total_alter_eq).
  assert (i_addrs (getip s' dp) = i_addrs x) as Ea by (rewrite Eg; unfold grown; by destruct (_ && _)).
  assert (i_size (getip s' dp) = Z.max (i_size x) (off + DIRENTSZ)) as Es.
  { rewrite Eg. unfold grown, DIRENTSZ. rewrite !Z.gtb_ltb. destruct (Z.ltb_spec (i_size x) (off + 16)); simpl; lia. }
  assert (i_type (getip s' dp) = T_DIR) as Ety by (rewrite Eg; unfold grown; by destruct (_ && _)).
  assert (nb * BSIZE ≤ 8394240) as Hbig.
  { change 8394240 with (MAXFILE * BSIZE). apply Z.mul_le_mono_nonneg_r; [done|exact Hnb]. }
  assert (dentries D' (i_addrs x) (Z.max (i_size x) (off + DIRENTSZ)) = link_entry (entries s dp) de) as Hent.
  { unfold link_entry. unfold off, slot in *. fold x in Hu, Hfree |- *.
    destruct (list_find entry_free (entries s dp)) as [[k z]|] eqn:Ef.
    - specialize (Hfree ltac:(done)). rewrite Z.max_l by lia.
      rewrite (dentries_set (disk (f_store s)) D' _ nb (Z.of_nat k) de _ _ Hu Hz); [by rewrite Nat2Z.id|unfold DIRENTSZ in *; lia|].
      split; [lia|]. apply list_find_Some in Ef as (Hk%lookup_lt_Some & _). unfold entries in Hk.
      rewrite length_dentries in Hk. fold x in Hk. lia.
    - rewrite Z.max_r by (unfold DIRENTSZ; lia). by apply (dentries_snoc _ _ _ nb de (IBLOCK (i_inum x) (f_sb s))). }
  split.
  - split; rewrite ?Es, ?Ea, ?Ety; simpl; try done.
    + by rewrite T.
    + unfold DIRENTSZ in *. lia.
    + unfold off, slot in *. fold x in Hfree |- *. destruct (list_find _ _) as [[k z]|].
      * specialize (Hfree ltac:(done)). by rewrite Z.max_l by lia.
      * rewrite Z.max_r by (unfold DIRENTSZ; lia). unfold DIRENTSZ in *. by rewrite Z.add_mod, W by lia.
    + intros bn Hbn. assert (0 ≤ bn < nb) as Hbn' by (unfold DIRENTSZ, BSIZE in *; lia).
      split; [unfold MAXFILE in *; lia|]. intros b. rewrite (path_ext _ D') by done.
      rewrite (up_path _ _ _ _ _ _ _ Hu), U by done. by apply (mp_path _ _ _ (Hm bn Hbn')).
  - unfold entries at 1. rewrite Es, Ea. simpl. rewrite (dentries_ext _ D') by done. exact Hent.
Qed.

Lemma write_entry s dp nb R r de :
  can_link s dp nb R r → zlen de = DIRENTSZ → Forall (λ c, 0 ≤ c < 256) de →
  wp (writei dp de (slot s dp) DIRENTSZ) s (λ m s', m = DIRENTSZ ∧ ∃ y D',
    s' = with_icache (alter (grown s (slot s dp) DIRENTSZ) dp (f_icache s)) (with_store y s) ∧
    effect (f_store s) y D' R ∧ updated (disk (f_store s)) D' (i_addrs (getip s dp)) nb (slot s dp) de
      (IBLOCK (i_inum (getip s dp)) (f_sb s))).
Proof.
  intros [Hd Hw Hip Hfit Hnb Hl Hi Hu Ha Hp] Hz Hb. destruct (slot_range s dp Hd) as [Hoff _].
  assert (slice de 0 DIRENTSZ = de) as Esl by (rewrite <- Hz; apply slice_all).
  pose proof (writei_ok s dp de (slot s dp) DIRENTSZ nb R r) as Hwp. rewrite Esl in Hwp.
  apply Hwp; try done; unfold DIRENTSZ in *; lia.
Qed.

(** The entry dirlink() writes. *)
Definition new_entry (inum : Z) (name : list Z) : list Z :=
  mk_dirent (u16 inum) (strncpy (zeros DIRSIZ) name DIRSIZ).

Lemma cstr_incl n c : c ∈ cstr n → c ∈ n.
Proof.
  induction n as [|x n IH]; simpl; [done|]. destruct (_ =? _); [by intros ?%not_elem_of_nil|].
  rewrite !elem_of_cons. naive_solver.
Qed.

Lemma new_entry_bytes inum name :
  Forall (λ c, 0 ≤ c < 256) name → Forall (λ c, 0 ≤ c < 256) (new_entry inum name).
Proof.
  intros Hn. unfold new_entry, mk_dirent. rewrite strncpy_ok by (vm_compute; split; discriminate).
  rewrite (drop_ge (zeros DIRSIZ)) by (vm_compute; lia). rewrite app_nil_r.
  apply Forall_app. split; [apply be_enc_bytes|]. unfold field. apply Forall_app. split.
  - apply Forall_take, Forall_forall. intros c Hc. rewrite Forall_forall in Hn. apply Hn. by apply cstr_incl.
  - apply Forall_replicate. lia.
Qed.

Lemma dirlink_ok s dp nb R r name inum :
  can_link s dp nb R r → list_find (entry_named name) (entries s dp) = None →
  Forall (λ c, 0 ≤ c < 256) name →
  wp (dirlink dp name inum) s (λ res s', res = 0 ∧ is_dir s' dp ∧
    entries s' dp = link_entry (entries s dp) (new_entry inum name) ∧
    (∃ y D', s' = with_icache (alter (grown s (slot s dp) DIRENTSZ) dp (f_icache s)) (with_store y s) ∧
      effect (f_store s) y D' R ∧
      updated (disk (f_store s)) D' (i_addrs (getip s dp)) nb (slot s dp) (new_entry inum name)
        (IBLOCK (i_inum (getip s dp)) (f_sb s)))).
Proof.
  intros Hcl Hno Hname. pose proof (cl_dir _ _ _ _ _ Hcl) as Hd. unfold dirlink.
  eapply wp_bind_mono; [apply dirlookup_ok; [done|by rewrite Hno]|].
  intros res s1 (y & E1 & Hr). rewrite Hno in Hr. destruct Hr as [-> ->].
  eapply wp_bind_mono; [apply dirlink_slot_ok; by apply is_dir_effect|].
  intros off s2 (z & -> & E2 & ->). rewrite with_store_store. simpl in E2.
  assert (effect (f_store s) z (disk (f_store s)) ∅) as Ez
    by (eapply effect_weaken; [by eapply effect_seq|done|set_solver]).
  assert (entries (with_store y s) dp = entries s dp) as Een by (apply dentries_ext, E1).
  rewrite Een. change (getip (with_store y s) dp) with (getip s dp). fold (slot s dp). fold (new_entry inum name).
  destruct (dirent_roundtrip inum name) as (Hz & _). fold (new_entry inum name) in Hz.
  pose proof (can_link_effect _ _ _ _ _ _ Hcl Ez) as Hcz.
  assert (slot (with_store z s) dp = slot s dp) as Esl.
  { unfold slot. assert (entries (with_store z s) dp = entries s dp) as -> by (apply dentries_ext, Ez). done. }
  rewrite <- Esl. eapply wp_bind_mono; [by apply (write_entry _ _ _ _ _ _ Hcz Hz), new_entry_bytes|].
  intros m s3 (-> & y3 & D' & -> & E3 & Hu). simpl in E3. rewrite Z.eqb_refl. apply wp_ret. split; [done|].
  rewrite Esl in Hu |- *. apply (updated_ext _ (disk (f_store s))) in Hu; [|apply Ez].
  assert (effect (f_store s) y3 D' R) as Ey.
  { eapply effect_weaken; [by eapply effect_trans|done|set_solver]. }
  destruct (entries_written s dp nb R r y3 D' _ Hcl Hz Ey Hu) as [Hd' He']. rewrite with_store_store.
  split; [exact Hd'|]. split; [exact He'|]. by exists y3, D'.
Qed.

(** Giving back at once what iget() returned: an inode that was in use is as it
    was, and the blocks of the file stay. *)
Lemma iput_got s inum ip x :
  f_icache s !! ip = Some x → caches inum x ∨ i_ref x = 0 →
  ∃ l, iput ip (with_icache (alter (got_inode inum) ip (f_icache s)) s) = Ret tt (with_icache l s) ∧
    length l = length (f_icache s) ∧ ∀ i z, f_icache s !! i = Some z → 0 < i_ref z → l !! i = Some z.
Proof.
  intros Hx Hc. unfold iput, bind, inode_at, gets, upd_inode, modify.
  assert (getip (with_icache (alter (got_inode inum) ip (f_icache s)) s) ip = got_inode inum x) as ->.
  { unfold getip. simpl. rewrite list_lookup_total_alter_eq by (by eapply lookup_lt_Some).
    f_equal. by apply list_lookup_total_correct. }
  set (g := λ x, set_ref (i_ref x - 1) x).
  assert (∀ i z, f_icache s !! i = Some z → 0 < i_ref z →
    alter g ip (alter (got_inode inum) ip (f_icache s)) !! i = Some z) as Hkeep.
  { intros i z Hz Hr. rewrite list_lookup_alter. destruct (decide (ip = i)) as [<-|]; [|by rewrite list_lookup_alter_ne].
    rewrite list_lookup_alter_eq. simplify_eq. rewrite Hx. simpl. destruct Hc as [[_ Hc]|Hc]; [|lia]. unfold got_inode.
    rewrite (proj2 (Z.gtb_lt _ _) Hr), (proj2 (Z.eqb_eq _ _) Hc). simpl. destruct x. unfold g, set_ref. simpl.
    do 2 f_equal. lia. }
  eexists. split; [|split; [|exact Hkeep]]; [|by rewrite !length_alter].
  unfold got_inode at 1 2 3. destruct ((i_ref x >? 0) && (i_inum x =? inum)) eqn:E.
  - apply andb_true_iff in E as [Hr%Z.gtb_lt _]. cbn [i_valid i_nlink i_ref set_ref].
    rewrite (proj2 (Z.eqb_neq (i_ref x + 1) 1)) by lia. by destruct (_ && _).
  - done.
Qed.

(** dirlink() of a name that is there. *)
Lemma dirlink_exists_ok s dp name inum k de :
  is_dir s dp → list_find (entry_named name) (entries s dp) = Some (k, de) →
  iget_room (f_icache s) (de_inum de) →
  wp (dirlink dp name inum) s (λ r s', r = -1 ∧ ∃ y l, s' = with_icache l (with_store y s) ∧
    effect (f_store s) y (disk (f_store s)) ∅ ∧ length l = length (f_icache s) ∧
    ∀ i z, f_icache s !! i = Some z → 0 < i_ref z → l !! i = Some z).
Proof.
  intros Hd Hf Hroom. unfold dirlink.
  eapply wp_bind_mono; [apply dirlookup_ok; [done|by rewrite Hf; intros ?? [= <- <-]]|].
  intros r s1 (y & E & Hr). rewrite Hf in Hr. destruct Hr as (ip & x & -> & Hx & Hc & ->).
  destruct (iput_got (with_store y s) (de_inum de) ip x) as (l & El & Hl & Hk); [done|naive_solver|].
  apply wp_bind, (wp_of_Ret _ _ _ _ _ El), wp_ret. split; [done|]. by exists y, l.
Qed.
End dirfile.

(** * The theorems on directories: lookup, link, and one after the other *)

Lemma entry_named_new inum name name' :
  0 < inum < 65536 →
  entry_named name' (new_entry inum name) ↔
  take (Z.to_nat DIRSIZ) (cstr name') = take (Z.to_nat DIRSIZ) (cstr name).
Proof.
  intros Hi. destruct (dirent_found inum name name' Hi) as [E Hn]. unfold entry_named, new_entry.
  rewrite E, Hn. split; [by intros [_ ?]|]. intros. split; [lia|done].
Qed.

Section claims.
Context {S : Type} `{BlockStore S}.
Implicit Types s : fsst S.

(** dirlookup() searches the entries of the directory in order: without an
    entry of that name it returns NULL and changes nothing; otherwise it
    returns the in-core inode of the first such entry, with one more
    reference, and the offset of the entry.  Each inode stays in at most one
    entry of the cache. *)
Theorem dirlookup_first s dp name :
  is_dir s dp → icache_ok (f_icache s) →
  (∀ k de, list_find (entry_named name) (entries s dp) = Some (k, de) → iget_room (f_icache s) (de_inum de)) →
  wp (dirlookup dp name) s (λ r s', icache_ok (f_icache s') ∧
    (∀ b, disk (f_store s') b = disk (f_store s) b) ∧
    match list_find (entry_named name) (entries s dp) with
    | None => r = None ∧ f_icache s' = f_icache s
    | Some (k, de) => ∃ ip x, r = Some (ip, Z.of_nat k * DIRENTSZ) ∧
        f_icache s !! ip = Some x ∧ getip s' ip = got_inode (de_inum de) x ∧
        caches (de_inum de) (getip s' ip) ∧ ∀ i, i ≠ ip → f_icache s' !! i = f_icache s !! i
    end).
Proof.
  intros Hd Hic Hroom. eapply wp_mono; [by apply dirlookup_ok|]. intros r s' (y & E & Hr).
  destruct (list_find _ _) as [[k de]|]; [|by destruct Hr as [-> ->]; split; [|split; [apply E|]]].
  destruct Hr as (ip & x & -> & Hx & Hc & ->). simpl. split; [by eapply icache_ok_got|]. split; [apply E|].
  exists ip, x. assert (getip (with_icache (alter (got_inode (de_inum de)) ip (f_icache s)) (with_store y s)) ip =
    got_inode (de_inum de) x) as Eg.
  { unfold getip. simpl. apply list_lookup_total_correct. by rewrite list_lookup_alter_eq, Hx. }
  split_and!; [done|done|exact Eg| |intros i Hi; by rewrite list_lookup_alter_ne].
  rewrite Eg. by apply got_inode_caches, (ic_ref _ Hic ip).
Qed.


(** dirlookup() after dirlink() finds the inode that was linked. *)
Theorem dirlink_dirlookup s dp nb R r name inum :
  can_link s dp nb R r → list_find (entry_named name) (entries s dp) = None →
  Forall (λ c, 0 ≤ c < 256) name → 0 < inum < 65536 →
  icache_ok (f_icache s) → iget_room (f_icache s) inum →
  wp (dirlink dp name inum ;; dirlookup dp name) s (λ res s', ∃ ip off, res = Some (ip, off) ∧
    caches inum (getip s' ip) ∧ icache_ok (f_icache s')).
Proof.
  intros Hcl Hno Hb Hi Hic Hroom. eapply wp_bind_mono; [by eapply dirlink_ok|].
  intros res s' (-> & Hd' & He & y & D' & -> & E & Hu).
  destruct (dirent_roundtrip inum name) as (_ & En & _). fold (new_entry inum name) in En.
  rewrite u16_small in En by lia.
  destruct (link_entry_find name (new_entry inum name) (entries s dp) Hno) as [k Hk];
    [by apply entry_named_new|]. rewrite <- He in Hk.
  destruct (icache_ok_same (f_icache s) (grown s (slot s dp) DIRENTSZ) dp) as [Hic' Hroom'].
  { intros x. unfold grown. by destruct (_ && _). }
  specialize (Hic' Hic). specialize (Hroom' _ Hroom).
  eapply wp_mono; [apply dirlookup_ok; [exact Hd'|]|].
  - rewrite Hk. intros ?? [= <- <-]. by rewrite En.
  - rewrite Hk, En. intros r0 s2 (z & _ & ip & x & -> & Hx & Hc & ->).
    exists ip, (Z.of_nat k * DIRENTSZ). split; [done|]. simpl. split; [|by eapply icache_ok_got].
    unfold getip. simpl. rewrite (list_lookup_total_correct _ _ (got_inode inum x)).
    + by apply got_inode_caches, (ic_ref _ Hic' ip).
    + simpl in Hx. by rewrite list_lookup_alter_eq, Hx.
Qed.

(** dirlink() of a name that is there already returns -1 and changes neither
    the disk nor any inode in use: the inode it looked up is given back. *)
Theorem dirlink_exists s dp name inum k de :
  is_dir s dp → list_find (entry_named name) (entries s dp) = Some (k, de) →
  iget_room (f_icache s) (de_inum de) →
  wp (dirlink dp name inum) s (λ r s', r = -1 ∧ ∃ y l, s' = with_icache l (with_store y s) ∧
    effect (f_store s) y (disk (f_store s)) ∅ ∧ length l = length (f_icache s) ∧
    ∀ i z, f_icache s !! i = Some z → 0 < i_ref z → l !! i = Some z).
Proof. apply dirlink_exists_ok. Qed.
End claims.

(** ** Witnesses: a directory with "." and ".." on block 100 *)

Definition dot : list Z := [46; 0].
Definition dotdot : list Z := [46; 46; 0].
Definition ls : list Z := [108; 115; 0].
Definition dir_block : list Z := new_entry 9 dot ++ new_entry 1 dotdot ++ replicate 480 0.
Definition dir_device : device := mkDevice (λ b, if b =? 100 then dir_block else fill_block 1) (λ _, true).
Definition dir_inode : inode := mkInode 0 9 1 1 T_DIR 0 0 1 32 0 (100 :: replicate 11 0).
Definition dir_fs : fsst lstate :=
  mkFs (open_lstate dir_device 30) small_sb 0 0 (dir_inode :: replicate 49 inhabitant) 5.

Lemma dir_device_ok b : block_ok (dev_data dir_device b).
Proof.
  unfold dir_device, dev_data. destruct (_ =? _); [|apply block_ok_fill; lia].
  split; [reflexivity|]. apply Forall_app. split; [apply new_entry_bytes|apply Forall_app; split].
  - repeat constructor; lia.
  - apply new_entry_bytes. repeat constructor; lia.
  - apply Forall_replicate. lia.
Qed.

Lemma dir_fs_disk b : disk (f_store dir_fs) b = dev_data dir_device b.
Proof. by destruct (open_lstate_ok dir_device 30 dir_device_ok ltac:(lia)) as (_ & C & _). Qed.

Lemma dir_fs_mapped bn : 0 ≤ bn < 1 → mapped (f_store dir_fs) (i_addrs (getip dir_fs 0)) bn.
Proof.
  intros Hb. assert (bn = 0) as -> by lia. split; [vm_compute; split; [discriminate|reflexivity]|].
  intros b ->%list_elem_of_singleton. split; [discriminate|].
  by destruct (open_lstate_ok dir_device 30 dir_device_ok ltac:(lia)) as (_ & _ & _ & _ & _ & _ & ->).
Qed.

Lemma dir_fs_is_dir : is_dir dir_fs 0.
Proof.
  destruct (open_lstate_ok dir_device 30 dir_device_ok ltac:(lia)) as (O & _ & T & _).
  split; [exact O| |reflexivity|split; [discriminate|reflexivity]|reflexivity|].
  - change (f_store dir_fs) with (open_lstate dir_device 30). rewrite T. reflexivity.
  - change (i_size (getip dir_fs 0)) with 32. intros bn Hbn. apply dir_fs_mapped. unfold BSIZE in Hbn. lia.
Qed.

Lemma dir_fs_entries : entries dir_fs 0 = [new_entry 9 dot; new_entry 1 dotdot].
Proof.
  unfold entries. rewrite (dentries_ext _ (dev_data dir_device)) by apply dir_fs_disk. reflexivity.
Qed.

Lemma dir_fs_slot : slot dir_fs 0 = 32.
Proof. unfold slot. rewrite dir_fs_entries. reflexivity. Qed.

Lemma dir_fs_can_link : can_link dir_fs 0 1 {[100; 33]} 0.
Proof.
  split; [exact dir_fs_is_dir| | | | |rewrite dir_fs_slot|set_solver| |reflexivity|].
  - split; [|lia|exact dir_fs_mapped|].
    + destruct (open_fs_room dir_device small_sb 0 0 {[100; 33]} 0) as [H1 H2 H3 H4];
        [exact dir_device_ok|vm_compute; reflexivity|].
      split; [exact H1| |exact H3|exact H4]. eapply Z.le_trans; [|exact H2]. apply Z.add_le_mono_l. lia.
    + split; intros i j Hi Hj; assert (i = 0) as -> by lia; assert (j = 0) as -> by lia; [done|].
      apply not_elem_of_nil.
  - simpl. lia.
  - vm_compute. discriminate.
  - vm_compute. discriminate.
  - intros j Hj _ _. assert (j = 0) as -> by lia. set_solver.
  - by destruct (open_lstate_ok dir_device 30 dir_device_ok ltac:(lia)) as (_ & _ & _ & _ & _ & _ & ->).
  - intros j Hj. assert (j = 0) as -> by lia. change (IBLOCK _ _) with 33. set_solver.
Qed.

Lemma dir_fs_icache : icache_ok (f_icache dir_fs).
Proof.
  split.
  - intros [|i] x Hx; [by injection Hx as <-|]. apply lookup_replicate in Hx as [-> _]. done.
  - intros [|i] [|j] x y inum Hx Hy Hcx Hcy; [done|..]; exfalso.
    + apply lookup_replicate in Hy as [-> _]. by destruct Hcy.
    + apply lookup_replicate in Hx as [-> _]. by destruct Hcx.
    + apply lookup_replicate in Hx as [-> _]. by destruct Hcx.
Qed.

Lemma dir_fs_room inum : iget_room (f_icache dir_fs) inum.
Proof. exists 1%nat, inhabitant. split; [reflexivity|]. by right. Qed.




