(* ===== verification/NamexProps.v ===== *)
(** * Path name resolution: namex() on a tree of directories

    The disk determines a tree: the inodes, and the list of entries of each
    directory.  [walk] follows the elements of a path in that tree.  namex()
    does it on the inode cache, with ilock() and iunlockput() on each directory
    of the way; the references it takes and gives back are counted. *)

From S2P Require Import Prelude Bytes Params Kstring Store KstringSpec Ondisk OndiskSpec Bio BioSpec BioProps Log LogProps Fs FsBlock FsAlloc FsAllocProps FsFile FsFileProps Dir DirSpec DirProps.

(** ** The tree on the disk *)

(** Inode [inum] as the disk has it. *)
Definition din (D : Z → list Z) (sb : superblock) (inum : Z) : inode :=
  get_dinode (D (IBLOCK inum sb)) (ioff inum) inhabitant.

Definition dir_entries (D : Z → list Z) (sb : superblock) (inum : Z) : list (list Z) :=
  dentries D (i_addrs (din D sb inum)) (i_size (din D sb inum)).

(** The inode number that a directory has for a name. *)
Definition dir_find (D : Z → list Z) (sb : superblock) (inum : Z) (name : list Z) : option Z :=
  (λ p, de_inum p.2) <$> list_find (entry_named name) (dir_entries D sb inum).

(** The inode that a list of path elements leads to from [inum]: the last one,
    or the directory of the last element if [parent] is set. *)
Fixpoint walk (D : Z → list Z) (sb : superblock) (parent : bool) (inum : Z) (es : list (list Z)) : option Z :=
  match es with
  | [] => if parent then None else Some inum
  | e :: es =>
      if negb (i_type (din D sb inum) =? T_DIR) then None
      else if parent && bool_decide (es = []) then Some inum
      else match dir_find D sb inum e with
           | None => None
           | Some next => walk D sb parent next es
           end
  end.

Lemma walk_ext D E sb parent inum es : (∀ b, D b = E b) → walk D sb parent inum es = walk E sb parent inum es.
Proof.
  intros HE. revert inum. induction es as [|e es IH]; intros inum; [done|]. cbn [walk].
  assert (din D sb inum = din E sb inum) as Ei by (unfold din; by rewrite HE).
  assert (dir_find D sb inum e = dir_find E sb inum e) as ->
    by (unfold dir_find, dir_entries; by rewrite Ei, (dentries_ext D E)).
  rewrite Ei. destruct (_ =? _); [|done]. simpl. destruct (parent && _); [done|].
  by destruct (dir_find E sb inum e).
Qed.

(** An in-core inode that agrees with the disk. *)
Definition synced (D : Z → list Z) (sb : superblock) (x : inode) : Prop :=
  get_dinode (D (IBLOCK (i_inum x) sb)) (ioff (i_inum x)) x = x.

Lemma synced_fields D sb x :
  synced D sb x → i_type x = i_type (din D sb (i_inum x)) ∧ i_size x = i_size (din D sb (i_inum x)) ∧
  i_nlink x = i_nlink (din D sb (i_inum x)) ∧ i_addrs x = i_addrs (din D sb (i_inum x)).
Proof. unfold synced. intros E. rewrite <- E at 1 3 5 7. done. Qed.

Lemma synced_ref D sb v x : synced D sb x → synced D sb (set_ref v x).
Proof. unfold synced. intros E. exact (f_equal (set_ref v) E). Qed.

(** A reference given back keeps the cache in order. *)
Lemma icache_ok_drop l ip :
  icache_ok l → (∀ x, l !! ip = Some x → 1 ≤ i_ref x) →
  icache_ok (alter (λ x, set_ref (i_ref x - 1) x) ip l).
Proof.
  intros [Hr Ho] Hp.
  assert (∀ i y, alter (λ x, set_ref (i_ref x - 1) x) ip l !! i = Some y →
    ∃ x, l !! i = Some x ∧ 0 ≤ i_ref y ≤ i_ref x ∧ i_inum y = i_inum x) as Hinv.
  { intros i y. rewrite list_lookup_alter. destruct (decide (ip = i)) as [<-|].
    - intros (x & Hx & ->)%fmap_Some. exists x. specialize (Hp _ Hx). cbn. split_and!; [done|lia|lia|done].
    - intros Hy. exists y. split_and!; [done|eauto|done|done]. }
  split.
  - intros i y (x & _ & ? & _)%Hinv. lia.
  - intros i j y z num (x & Hx & Ly & Ny)%Hinv (w & Hw & Lz & Nz)%Hinv [Py Ey] [Pz Ez].
    apply (Ho i j x w num); [done|done|split; [lia|congruence]|split; [lia|congruence]].
Qed.

Section namex.
Context {S : Type} `{BlockStore S}.
Implicit Types s : fsst S.

(** Inode [inum] is in order: it can be loaded, is linked, and if it is a
    directory its entries can be read. *)
Record inode_good (x : S) (sb : superblock) (inum : Z) : Prop := {
  ig_up : up x (IBLOCK inum sb) = true;
  ig_type : i_type (din (disk x) sb inum) ≠ 0;
  ig_nlink : i_nlink (din (disk x) sb inum) ≠ 0;
  ig_dir : i_type (din (disk x) sb inum) = T_DIR →
    0 ≤ i_size (din (disk x) sb inum) < 2147483648 ∧
    i_size (din (disk x) sb inum) mod DIRENTSZ = 0 ∧
    ∀ bn, 0 ≤ bn * BSIZE < i_size (din (disk x) sb inum) → mapped x (i_addrs (din (disk x) sb inum)) bn;
}.

(** [s] differs from [s0] in the cached blocks and inodes only, holds the
    references [h] more, and what it has loaded agrees with the disk. *)
Record at_work s0 (h : nat → Z) s : Prop := {
  aw_state : ∃ y l, s = with_icache l (with_store y s0) ∧ effect (f_store s0) y (disk (f_store s0)) ∅;
  aw_ok : icache_ok (f_icache s);
  aw_sync : ∀ i x, f_icache s !! i = Some x → 0 < i_ref x → i_valid x ≠ 0 →
    synced (disk (f_store s0)) (f_sb s0) x;
  aw_len : length (f_icache s) = length (f_icache s0);
  aw_refs : ∀ i x0 x, f_icache s0 !! i = Some x0 → f_icache s !! i = Some x →
    i_ref x = i_ref x0 + h i ∧ (0 < i_ref x0 → i_inum x = i_inum x0);
}.

Lemma at_work_ext s0 h g s : (∀ i, h i = g i) → at_work s0 h s → at_work s0 g s.
Proof. intros E [A B C D F]. split; try done. intros i x0 x. rewrite <- E. apply F. Qed.

Lemma at_work_lookup s0 h s ip : at_work s0 h s → (ip < length (f_icache s0))%nat →
  f_icache s !! ip = Some (getip s ip).
Proof.
  intros Hw Hip. unfold getip. apply list_lookup_lookup_total_lt. by rewrite (aw_len _ _ _ Hw).
Qed.

(** Changing one entry, and the cached blocks. *)
Lemma at_work_alter s0 h g s y f ip x :
  at_work s0 h s → effect (f_store s) y (disk (f_store s)) ∅ → f_icache s !! ip = Some x →
  icache_ok (alter f ip (f_icache s)) →
  (0 < i_ref (f x) → i_valid (f x) ≠ 0 → synced (disk (f_store s0)) (f_sb s0) (f x)) →
  (∀ i, i ≠ ip → g i = h i) →
  i_ref (f x) = i_ref x + (g ip - h ip) → (0 < i_ref x - h ip → i_inum (f x) = i_inum x) →
  at_work s0 g (with_icache (alter f ip (f_icache s)) (with_store y s)).
Proof.
  intros [(y0 & l0 & -> & E0) Hic Hsy Hlen Hrefs] E Hx Hic' Hs Hg Hr Hn. simpl in *. split; simpl.
  - exists y, (alter f ip l0). split; [done|].
    eapply effect_weaken; [by eapply effect_seq|done|set_solver].
  - done.
  - intros i z. rewrite list_lookup_alter. destruct (decide (ip = i)) as [<-|]; [|by apply Hsy].
    rewrite Hx. intros [= <-]. done.
  - by rewrite length_alter.
  - intros i x0 z Hx0. rewrite list_lookup_alter. destruct (decide (ip = i)) as [<-|].
    + rewrite Hx. intros [= <-]. destruct (Hrefs _ _ _ Hx0 Hx) as [E1 E2]. rewrite Hr, E1. split; [lia|].
      intros Hp. rewrite Hn by lia. auto.
    + rewrite Hg by done. by apply Hrefs.
Qed.

(** iget(), as an effect on the count. *)
Lemma at_work_got s0 h s y inum ip x :
  at_work s0 h s → effect (f_store s) y (disk (f_store s)) ∅ → f_icache s !! ip = Some x →
  caches inum x ∨ i_ref x = 0 ∧ (∀ j z, f_icache s !! j = Some z → ¬ caches inum z) →
  0 ≤ h ip →
  let s' := with_icache (alter (got_inode inum) ip (f_icache s)) (with_store y s) in
  at_work s0 (plus h (one ip)) s' ∧ caches inum (getip s' ip).
Proof.
  intros Hw E Hx Hc Hh s'. pose proof (ic_ref _ (aw_ok _ _ _ Hw) _ _ Hx) as Hr.
  assert (getip s' ip = got_inode inum x) as Eg.
  { unfold getip. simpl. apply list_lookup_total_correct. by rewrite list_lookup_alter_eq, Hx. }
  split; [|rewrite Eg; by apply got_inode_caches].
  eapply (at_work_alter s0 h); [done|done|done| | | | |].
  - eapply icache_ok_got; [apply Hw|done|done].
  - unfold got_inode. destruct ((i_ref x >? 0) && (i_inum x =? inum)) eqn:Ec; [|done].
    apply andb_true_iff in Ec as [Hp%Z.gtb_lt _]. simpl. intros _ Hv.
    apply synced_ref. by eapply aw_sync.
  - intros i Hi. unfold plus, one. rewrite decide_False by done. lia.
  - unfold plus, one. rewrite decide_True by done. unfold got_inode.
    destruct ((i_ref x >? 0) && (i_inum x =? inum)) eqn:Ec; simpl; [lia|].
    destruct Hc as [[Hp He]|[H0' _]]; [|lia].
    rewrite (proj2 (Z.gtb_lt _ _) Hp), (proj2 (Z.eqb_eq _ _) He) in Ec. done.
  - unfold got_inode. destruct ((i_ref x >? 0) && (i_inum x =? inum)) eqn:Ec; [done|].
    destruct Hc as [[Hp He]|[H0' _]]; [|lia]. intros _. simpl. done.
Qed.

Lemma at_work_room s0 h s inum a b :
  at_work s0 h s → a ≠ b → (∃ x y, f_icache s0 !! a = Some x ∧ f_icache s0 !! b = Some y ∧
    i_ref x = 0 ∧ i_ref y = 0) → h a = 0 ∨ h b = 0 → iget_room (f_icache s) inum.
Proof.
  intros Hw Hne (x & y & Hx & Hy & Ex & Ey) Hab.
  assert (∀ i z, f_icache s0 !! i = Some z → i_ref z = 0 → h i = 0 → iget_room (f_icache s) inum) as Hg.
  { intros i z Hz Er Hh. pose proof (at_work_lookup _ _ _ i Hw (lookup_lt_Some _ _ _ Hz)) as Hl.
    exists i, (getip s i). split; [done|]. right. destruct (aw_refs _ _ _ Hw _ _ _ Hz Hl) as [-> _]. lia. }
  destruct Hab; eauto.
Qed.

Lemma at_work_disk s0 h s : at_work s0 h s →
  f_sb s = f_sb s0 ∧ f_epoch s = f_epoch s0 ∧ ok (f_store s) ∧ htot (f_store s) = htot (f_store s0) ∧
  (∀ b, up (f_store s) b = up (f_store s0) b) ∧ (∀ b, disk (f_store s) b = disk (f_store s0) b).
Proof. intros [(y & l & -> & [[O U _ _ _ _ T _] D _]) _ _ _ _]. by split_and!. Qed.

Lemma getip_alter s f ip x y :
  f_icache s !! ip = Some x → getip (with_icache (alter f ip (f_icache s)) (with_store y s)) ip = f x.
Proof. intros Hx. unfold getip. simpl. apply list_lookup_total_correct. by rewrite list_lookup_alter_eq, Hx. Qed.

Lemma ilock_at_work s0 h s ip inum :
  at_work s0 h s → htot (f_store s0) < Z.of_nat NBUF → (ip < length (f_icache s0))%nat →
  caches inum (getip s ip) → inode_good (f_store s0) (f_sb s0) inum →
  wp (ilock ip) s (λ _ s', at_work s0 h s' ∧ caches inum (getip s' ip) ∧ i_valid (getip s' ip) ≠ 0).
Proof.
  intros Hw Hb Hip [Hr Hn] Hg. pose proof (at_work_lookup _ _ _ _ Hw Hip) as Hx.
  destruct (at_work_disk _ _ _ Hw) as (Esb & _ & Hok & Eh & Eu & Ed).
  unfold ilock. apply wp_bind, wp_gets. set (x := getip s ip) in *.
  destruct (Z.ltb_spec (i_ref x) 1); [lia|]. destruct (Z.eqb_spec (i_valid x) 0) as [Hv|Hv].
  2:{ apply wp_ret. by split_and!. }
  apply wp_bind, wp_gets. rewrite Esb, Hn.
  eapply wp_bind_mono; [apply fs_bread; [done|rewrite Eu; apply Hg|by rewrite Eh]|].
  intros k s1 (z & -> & Hz & Hh & G). apply wp_bind. eapply wp_bdata; [done|done|]. simpl.
  rewrite (got_disk _ _ _ G), Ed. apply wp_bind, wp_modify. simpl.
  set (d := disk (f_store s0) (IBLOCK inum (f_sb s0))).
  set (s1 := with_icache (alter (get_dinode d (ioff inum)) ip (f_icache s)) s).
  change (with_icache _ (with_store z s)) with (with_store z s1).
  eapply wp_bind_mono; [by apply (fs_read_done s1 z k (IBLOCK inum (f_sb s0)))|].
  intros _ s2 (y & -> & E). simpl in E. apply wp_bind, wp_modify.
  set (f := λ x, set_valid 1 (get_dinode d (ioff inum) x)).
  assert (with_icache (alter (set_valid 1) ip (f_icache (with_store y s1))) (with_store y s1) =
    with_icache (alter f ip (f_icache s)) (with_store y s)) as ->.
  { unfold s1, with_icache, with_store. simpl. by rewrite list_alter_alter_eq. }
  apply wp_bind, wp_gets. rewrite (getip_alter s f ip x y Hx). cbn [f set_valid i_type].
  assert (i_type (get_dinode d (ioff inum) x) = i_type (din (disk (f_store s0)) (f_sb s0) inum)) as -> by done.
  rewrite (proj2 (Z.eqb_neq _ _) (ig_type _ _ _ Hg)). apply wp_ret.
  rewrite (getip_alter s f ip x y Hx). split; [|done].
  eapply (at_work_alter s0 h); [done|done|done| | | |cbn; lia|done].
  - apply icache_ok_same; [done|apply Hw].
  - intros _ _. unfold synced. cbn [f i_inum set_valid get_dinode]. by rewrite Hn.
  - done.
Qed.

Lemma iput_at_work s0 h s ip inum :
  at_work s0 h s → icache_ok (f_icache s0) → (ip < length (f_icache s0))%nat →
  caches inum (getip s ip) → inode_good (f_store s0) (f_sb s0) inum → 1 ≤ h ip →
  wp (iput ip) s (λ _ s', at_work s0 (minus h (one ip)) s' ∧
    ∀ j num, caches num (getip s j) → j ≠ ip ∨ 2 ≤ h ip → caches num (getip s' j)).
Proof.
  intros Hw Hic0 Hip [Hr Hn] Hg Hh. pose proof (at_work_lookup _ _ _ _ Hw Hip) as Hx.
  destruct (lookup_lt_is_Some_2 _ _ Hip) as [x0 Hx0].
  destruct (aw_refs _ _ _ Hw _ _ _ Hx0 Hx) as [Er Ei]. pose proof (ic_ref _ Hic0 _ _ Hx0) as Hr0.
  assert (negb (i_valid (getip s ip) =? 0) && (i_nlink (getip s ip) =? 0) = false) as Hkeep.
  { destruct (Z.eqb_spec (i_valid (getip s ip)) 0) as [|Hv]; [done|].
    destruct (synced_fields _ _ _ (aw_sync _ _ _ Hw _ _ Hx Hr Hv)) as (_ & _ & En & _).
    rewrite En, Hn. apply Z.eqb_neq, Hg. }
  unfold iput. apply wp_bind, wp_gets. rewrite Hkeep.
  apply wp_bind, wp_ret. apply wp_modify. set (f := λ x, set_ref (i_ref x - 1) x).
  assert (with_icache (alter f ip (f_icache s)) s = with_icache (alter f ip (f_icache s)) (with_store (f_store s) s)) as ->
    by (by rewrite with_store_self).
  destruct (at_work_disk _ _ _ Hw) as (_ & _ & Hok & _).
  split.
  - eapply (at_work_alter s0 h); [done|by apply effect_refl|done| | | | |done].
    + apply icache_ok_drop; [apply Hw|]. rewrite Hx. intros ? [= <-]. lia.
    + intros _ Hv. by apply synced_ref, (aw_sync _ _ _ Hw _ _ Hx).
    + intros i Hi. unfold minus, one. rewrite decide_False by done. lia.
    + unfold minus, one. rewrite decide_True by done. cbn. lia.
  - intros j num Hc Hcase. destruct (decide (j = ip)) as [->|Hne].
    + rewrite (getip_alter s f ip _ _ Hx). destruct Hcase as [|H2]; [done|]. destruct Hc as [? ?].
      split; [cbn; lia|done].
    + unfold getip in *. simpl. by rewrite list_lookup_total_alter_ne.
Qed.

Lemma iunlockput_at_work s0 h s ip inum :
  at_work s0 h s → icache_ok (f_icache s0) → (ip < length (f_icache s0))%nat →
  caches inum (getip s ip) → inode_good (f_store s0) (f_sb s0) inum → 1 ≤ h ip →
  wp (iunlockput ip) s (λ _ s', at_work s0 (minus h (one ip)) s' ∧
    ∀ j num, caches num (getip s j) → j ≠ ip ∨ 2 ≤ h ip → caches num (getip s' j)).
Proof.
  intros Hw Hic Hip Hc Hg Hh. unfold iunlockput, iunlock. apply wp_bind, wp_bind, wp_gets.
  destruct (Z.ltb_spec (i_ref (getip s ip)) 1); [by destruct Hc; lia|]. apply wp_ret.
  by eapply iput_at_work.
Qed.

(** A locked directory can be searched. *)
Lemma at_work_is_dir s0 h s ip inum :
  at_work s0 h s → htot (f_store s0) < Z.of_nat NBUF → (ip < length (f_icache s0))%nat →
  caches inum (getip s ip) → i_valid (getip s ip) ≠ 0 → inode_good (f_store s0) (f_sb s0) inum →
  i_type (getip s ip) = i_type (din (disk (f_store s0)) (f_sb s0) inum) ∧
  (i_type (getip s ip) = T_DIR → is_dir s ip ∧ entries s ip = dir_entries (disk (f_store s0)) (f_sb s0) inum).
Proof.
  intros Hw Hb Hip [Hr Hn] Hv Hg. pose proof (at_work_lookup _ _ _ _ Hw Hip) as Hx.
  destruct (at_work_disk _ _ _ Hw) as (Esb & _ & Hok & Eh & Eu & Ed).
  destruct (synced_fields _ _ _ (aw_sync _ _ _ Hw _ _ Hx Hr Hv)) as (Et & Es & _ & Ea). rewrite Hn in *.
  split; [done|]. intros Hd. rewrite Et in Hd. destruct (ig_dir _ _ _ Hg Hd) as (Hsz & Hm & Hmap).
  split.
  - split; [done|by rewrite Eh|by rewrite Et|by rewrite Es|by rewrite Es|].
    rewrite Es, Ea. intros bn Hbn. destruct (Hmap bn Hbn) as [H1' H2']. split; [done|].
    intros b. rewrite (path_ext _ (disk (f_store s0))), Eu by done. apply H2'.
  - unfold entries, dir_entries. rewrite Es, Ea. by apply dentries_ext.
Qed.
End namex.

Lemma skip_slashes_length p : (length (skip_slashes p) ≤ length p)%nat.
Proof. induction p as [|c p IH]; simpl; [lia|]. destruct (_ =? _); simpl; lia. Qed.

Lemma skipelem_shorter path name rest name' :
  skipelem path name = Some (rest, name') → (length rest < length path)%nat.
Proof.
  unfold skipelem. pose proof (skip_slashes_length path) as Hl. pose proof (skip_slashes_head path) as Hh.
  destruct (skip_slashes path) as [|c p] eqn:Ep; [done|]. simpl. destruct (Z.eqb_spec c 0); [done|].
  rewrite (proj2 (Z.eqb_neq c SLASH)) by done. simpl.
  destruct (span_elem p) as [e r] eqn:E. destruct (span_elem_ok _ _ _ E) as (-> & _).
  intros [= <- _]. pose proof (skip_slashes_length r). simpl in Hl. rewrite length_app in Hl. lia.
Qed.

(** The name buffer finds what the element it was filled from finds. *)
Lemma entry_named_buffer name e de :
  cstr name = take (Z.to_nat DIRSIZ) e → (∀ c, c ∈ e → c ≠ 0) →
  entry_named name de ↔ entry_named e de.
Proof.
  intros En He. apply entry_named_alike. rewrite En, take_take, Nat.min_id. by rewrite (cstr_nozero e).
Qed.

Lemma parts_incl l e c : e ∈ parts l → c ∈ e → c ∈ l.
Proof.
  revert e. induction l as [|d l IH]; intros e; simpl.
  - intros ->%list_elem_of_singleton. done.
  - pose proof (parts_nonempty l) as Hne. destruct (d =? SLASH).
    + intros [->|He]%elem_of_cons Hc; [by apply not_elem_of_nil in Hc|]. right. eauto.
    + destruct (parts l) as [|p ps]; [done|]. intros [->|He]%elem_of_cons Hc.
      * apply elem_of_cons in Hc as [->|Hc]; [by left|]. right. apply (IH p); [by left|done].
      * right. apply (IH e); [by right|done].
Qed.

Lemma elems_nozero path e c : e ∈ elems path → c ∈ e → c ≠ 0.
Proof. intros [_ He]%list_elem_of_filter Hc. apply (cstr_zero path). by eapply parts_incl. Qed.

(** ** namex() *)

Section resolve.
Context {S : Type} `{BlockStore S}.
Implicit Types s : fsst S.

(** What the resolution of paths needs: a tree [G] of inodes in order, an inode
    cache in order with two entries to spare, and a buffer. *)
Record tree s (G : Z → Prop) : Prop := {
  tr_work : at_work s (λ _, 0) s;
  tr_bufs : htot (f_store s) < Z.of_nat NBUF;
  tr_spare : ∃ a b x y, a ≠ b ∧ f_icache s !! a = Some x ∧ f_icache s !! b = Some y ∧ i_ref x = 0 ∧ i_ref y = 0;
  tr_good : ∀ inum, G inum → inode_good (f_store s) (f_sb s) inum;
  tr_closed : ∀ inum name next, G inum → i_type (din (disk (f_store s)) (f_sb s) inum) = T_DIR →
    dir_find (disk (f_store s)) (f_sb s) inum name = Some next → G next;
}.

(** The result of namex() for a path that leads to [t]. *)
Definition resolved s0 (parent : bool) (es : list (list Z)) (t : option Z)
    (r : option nat * list Z) s : Prop :=
  match t with
  | None => r.1 = None ∧ at_work s0 (λ _, 0) s
  | Some target => ∃ ip, r.1 = Some ip ∧ at_work s0 (one ip) s ∧ (ip < length (f_icache s0))%nat ∧
      caches target (getip s ip) ∧
      (parent = true → ∃ e, last es = Some e ∧ cstr r.2 = take (Z.to_nat DIRSIZ) e)
  end.

(** One directory on the way. *)
Lemma lookup_step s0 G s ip inum name e :
  tree s0 G → G inum → at_work s0 (one ip) s → (ip < length (f_icache s0))%nat →
  caches inum (getip s ip) → i_valid (getip s ip) ≠ 0 → i_type (getip s ip) = T_DIR →
  cstr name = take (Z.to_nat DIRSIZ) e → (∀ c, c ∈ e → c ≠ 0) →
  wp (dirlookup ip name) s (λ r s', caches inum (getip s' ip) ∧
    match dir_find (disk (f_store s0)) (f_sb s0) inum e with
    | None => r = None ∧ at_work s0 (one ip) s'
    | Some num => ∃ next off, r = Some (next, off) ∧ at_work s0 (plus (one ip) (one next)) s' ∧
        (next < length (f_icache s0))%nat ∧ caches num (getip s' next)
    end).
Proof.
  intros [Hw0 Hb Hsp Hgood _] HG Hw Hip Hc Hv Ht En He.
  destruct (at_work_is_dir _ _ _ _ _ Hw Hb Hip Hc Hv (Hgood _ HG)) as [_ Hd]. destruct (Hd Ht) as [Hdir Een].
  assert (list_find (entry_named name) (entries s ip) =
          list_find (entry_named e) (dir_entries (disk (f_store s0)) (f_sb s0) inum)) as Ef.
  { rewrite Een. apply list_find_ext. intros de. by apply entry_named_buffer. }
  destruct Hsp as (a & b & x & y & Hab & Hx & Hy & Rx & Ry).
  assert (∀ num, iget_room (f_icache s) num) as Hroom.
  { intros num. apply (at_work_room s0 (one ip) s num a b Hw Hab); [by exists x, y|].
    unfold one. destruct (decide (a = ip)) as [->|]; [|by left]. right. by rewrite decide_False. }
  eapply wp_mono; [apply dirlookup_ok; [done|by intros]|].
  intros r s' (z & E & Hr). rewrite Ef in Hr. unfold dir_find.
  destruct (list_find (entry_named e) _) as [[k de]|]; simpl.
  - destruct Hr as (next & w & -> & Hwx & Hcase & ->). 
    assert (0 ≤ one ip next) as Hone by (unfold one; destruct (decide _); lia).
    destruct (at_work_got s0 (one ip) s z (de_inum de) next w Hw E Hwx Hcase Hone) as [Hw' Hc'].
    split.
    + destruct (decide (next = ip)) as [->|Hne].
      * rewrite (getip_alter _ _ _ _ _ Hwx). pose proof (at_work_lookup _ _ _ _ Hw Hip) as Hl.
        assert (w = getip s ip) as -> by congruence. destruct Hcase as [Hcw|[H0' _]]; [|by destruct Hc; lia].
        destruct Hc as [Hr' Hn]. destruct Hcw as [_ Hn']. unfold got_inode.
        rewrite (proj2 (Z.gtb_lt _ _) Hr'), (proj2 (Z.eqb_eq _ _) Hn'). split; [cbn; lia|done].
      * unfold getip in *. simpl. by rewrite list_lookup_total_alter_ne.
    + exists next, (Z.of_nat k * DIRENTSZ). split_and!; [done|done| |done].
      apply lookup_lt_Some in Hwx. by rewrite (aw_len _ _ _ Hw) in Hwx.
  - destruct Hr as [-> ->]. split; [done|]. split; [done|].
    destruct Hw as [(y0 & l0 & -> & E0) A B C F]. split; try done. exists z, l0. split; [done|].
    eapply effect_weaken; [by eapply effect_seq|done|set_solver].
Qed.

(** One round of the loop of namex(). *)
Lemma namex_round s0 G parent ip path name inum s :
  tree s0 G → G inum → at_work s0 (one ip) s → (ip < length (f_icache s0))%nat →
  caches inum (getip s ip) → zlen name = DIRSIZ →
  let D := disk (f_store s0) in
  wp (match skipelem path name with
      | None =>
          if parent : bool then iput ip ;; ret (inr (None, name))
          else ret (inr (Some ip, name))
      | Some (path, name) =>
          ilock ip ;;
          let* x := inode_at ip in
          if negb (i_type x =? T_DIR) then iunlockput ip ;; ret (inr (None, name)) else
          if parent && at_end path then iunlock ip ;; ret (inr (Some ip, name)) else
          let* next := dirlookup ip name in
          match next with
          | None => iunlockput ip ;; ret (inr (None, name))
          | Some (next, _) => iunlockput ip ;; ret (inl (next, path, name))
          end
      end) s (λ r s',
    match r with
    | inr res => resolved s0 parent (elems path) (walk D (f_sb s0) parent inum (elems path)) res s'
    | inl (next, rest, name') => ∃ num, (length rest < length path)%nat ∧ G num ∧ at_work s0 (one next) s' ∧
        (next < length (f_icache s0))%nat ∧ caches num (getip s' next) ∧ zlen name' = DIRSIZ ∧
        walk D (f_sb s0) parent inum (elems path) = walk D (f_sb s0) parent num (elems rest) ∧
        (parent = true → last (elems path) = last (elems rest))
    end).
Proof.
  intros Htr HG Hw Hip Hc Hn D. pose proof Htr as [Hw0 Hb _ Hgood Hclosed].
  pose proof (Hgood _ HG) as Hg. pose proof (aw_ok _ _ _ Hw0) as Hic.
  assert (∀ i, minus (one ip) (one ip) i = 0) as Hm0 by (intros i; unfold minus; lia).
  pose proof (skipelem_elems path name Hn) as Hsk.
  destruct (skipelem path name) as [[rest name']|] eqn:Esk.
  2:{ rewrite Hsk. simpl. destruct parent.
      - eapply wp_bind_mono; [eapply (iput_at_work s0 (one ip)); try done; unfold one; rewrite decide_True by done; lia|].
        intros _ s1 [Hw1 _]. apply wp_ret. split; [done|]. by eapply at_work_ext.
      - apply wp_ret. exists ip. by split_and!. }
  destruct Hsk as (e & Ee & En & Hn' & Hend). rewrite Ee. cbn [walk].
  assert (∀ c, c ∈ e → c ≠ 0) as He by (intros c; apply (elems_nozero path); rewrite Ee; by left).
  eapply wp_bind_mono; [by apply (ilock_at_work s0 (one ip))|]. intros _ s1 (Hw1 & Hc1 & Hv1).
  destruct (at_work_is_dir _ _ _ _ _ Hw1 Hb Hip Hc1 Hv1 Hg) as [Et _].
  assert (∀ s h, at_work s0 h s → caches inum (getip s ip) → h ip = 1 ∨ h ip = 2 →
    wp (iunlockput ip) s (λ _ s', at_work s0 (minus h (one ip)) s' ∧
      ∀ j num, caches num (getip s j) → j ≠ ip ∨ 2 ≤ h ip → caches num (getip s' j))) as Hput.
  { intros s' h Hw' Hc' Hh. eapply iunlockput_at_work; try done. lia. }
  assert (one ip ip = 1) as Hone by (unfold one; by rewrite decide_True).
  apply wp_bind, wp_gets. rewrite Et. fold D.
  destruct (Z.eqb_spec (i_type (din D (f_sb s0) inum)) T_DIR) as [Hty|Hty]; cbn [negb].
  2:{ eapply wp_bind_mono; [apply (Hput s1 (one ip)); [done|done|by left]|]. intros _ s2 [Hw2 _].
      apply wp_ret. split; [done|]. by eapply at_work_ext. }
  assert (bool_decide (elems rest = []) = at_end rest) as Ebd.
  { destruct (at_end rest); [apply bool_decide_true; by apply Hend|]. apply bool_decide_false.
    intros Hnil. by apply Hend in Hnil. }
  rewrite Ebd. destruct (parent && at_end rest) eqn:Epe.
  { apply andb_true_iff in Epe as [-> Hae]. apply Hend in Hae. unfold iunlock. apply wp_bind, wp_bind, wp_gets.
    destruct (Z.ltb_spec (i_ref (getip s1 ip)) 1); [by destruct Hc1; lia|]. apply wp_ret, wp_ret.
    exists ip. split_and!; try done. intros _. exists e. by rewrite Hae. }
  eapply wp_bind_mono; [by apply (lookup_step s0 G s1 ip inum name' e); [..|rewrite Et|done|done]|].
  intros r s2 [Hc2 Hr]. fold D in Hr. destruct (dir_find D (f_sb s0) inum e) as [num|] eqn:Ed.
  - destruct Hr as (next & off & -> & Hw2 & Hnext & Hcn).
    eapply wp_bind_mono; [apply (Hput s2 (plus (one ip) (one next))); [done|done|]|].
    { unfold plus, one. rewrite decide_True by done. destruct (decide _); lia. }
    intros _ s3 [Hw3 Hk]. apply wp_ret. exists num. split_and!.
    + by eapply skipelem_shorter.
    + by eapply Hclosed.
    + eapply at_work_ext; [|done]. intros i. unfold minus, plus. lia.
    + done.
    + apply Hk; [done|]. destruct (decide (next = ip)) as [->|]; [|by left]. right. unfold plus. lia.
    + done.
    + done.
    + intros ->. simpl in Epe. destruct (elems rest) as [|e' es]; [|done].
      rewrite <- Ebd in Epe. by rewrite bool_decide_true in Epe.
  - destruct Hr as [-> Hw2]. eapply wp_bind_mono; [apply (Hput s2 (one ip)); [done|done|by left]|].
    intros _ s3 [Hw3 _]. apply wp_ret. split; [done|]. by eapply at_work_ext.
Qed.

(** The inode a path starts from: the root, or the current directory [d]. *)
Definition start_inum (path : list Z) (d : Z) : Z :=
  match path with c :: _ => if c =? SLASH then ROOTINO else d | [] => d end.

Lemma namex_start s0 G path cwd d :
  tree s0 G → G ROOTINO → (cwd < length (f_icache s0))%nat → caches d (getip s0 cwd) →
  wp (match path with
      | c :: _ => if c =? SLASH then iget ROOTINO else idup cwd
      | [] => idup cwd
      end) s0 (λ ip s, at_work s0 (one ip) s ∧ (ip < length (f_icache s0))%nat ∧
        caches (start_inum path d) (getip s ip)).
Proof.
  intros [Hw _ Hsp _ _] _ Hcwd Hc. destruct (at_work_disk _ _ _ Hw) as (_ & _ & Hok & _).
  assert (∀ num ip x, f_icache s0 !! ip = Some x →
    caches num x ∨ i_ref x = 0 ∧ (∀ j z, f_icache s0 !! j = Some z → ¬ caches num z) →
    let s := with_icache (alter (got_inode num) ip (f_icache s0)) s0 in
    at_work s0 (one ip) s ∧ (ip < length (f_icache s0))%nat ∧ caches num (getip s ip)) as Hgot.
  { intros num ip x Hx Hcase s.
    destruct (at_work_got s0 (λ _, 0) s0 (f_store s0) num ip x Hw (effect_refl _ Hok) Hx Hcase ltac:(done)) as [H1' H2'].
    rewrite with_store_self in H1', H2'. split_and!; [|by eapply lookup_lt_Some|done].
    eapply at_work_ext; [|exact H1']. done. }
  assert (wp (idup cwd) s0 (λ ip s, at_work s0 (one ip) s ∧ (ip < length (f_icache s0))%nat ∧
    caches d (getip s ip))) as Hdup.
  { unfold idup. apply wp_bind, wp_modify, wp_ret. pose proof (at_work_lookup _ _ _ _ Hw Hcwd) as Hx.
    replace (alter (λ x, set_ref (i_ref x + 1) x) cwd (f_icache s0)) with (alter (got_inode d) cwd (f_icache s0)).
    - apply (Hgot d cwd _ Hx). by left.
    - apply list_alter_ext; [|done]. intros x Hx'. assert (x = getip s0 cwd) as -> by congruence.
      destruct Hc as [Hr Hn]. unfold got_inode. by rewrite (proj2 (Z.gtb_lt _ _) Hr), (proj2 (Z.eqb_eq _ _) Hn). }
  unfold start_inum. destruct path as [|c path]; [done|]. destruct (c =? SLASH); [|done].
  destruct Hsp as (a & b & x & y & Hab & Hx & Hy & Rx & Ry).
  destruct (iget_ok s0 ROOTINO) as (ip & z & E & Hz & Hcase); [exists a, x; split; [done|by right]|].
  eapply wp_of_Ret; [exact E|]. by apply (Hgot ROOTINO ip z).
Qed.

Lemma namex_ok s0 G parent path name cwd d :
  tree s0 G → G ROOTINO → (cwd < length (f_icache s0))%nat → caches d (getip s0 cwd) → G d →
  zlen name = DIRSIZ →
  wp (namex (Some cwd) path parent name) s0
    (resolved s0 parent (elems path)
       (walk (disk (f_store s0)) (f_sb s0) parent (start_inum path d) (elems path))).
Proof.
  intros Htr HR Hcwd Hc Hd Hn. unfold namex.
  eapply wp_bind_mono; [by apply (namex_start s0 G path cwd d)|].
  intros ip s (Hw & Hip & Hcs). assert (G (start_inum path d)) as HG.
  { unfold start_inum. destruct path as [|c p]; [done|]. by destruct (_ =? _). }
  set (inum := start_inum path d) in *. set (D := disk (f_store s0)).
  apply (wp_loop _ (λ r '(ip, p, name) s, ∃ num, r = length p ∧ G num ∧ at_work s0 (one ip) s ∧
      (ip < length (f_icache s0))%nat ∧ caches num (getip s ip) ∧ zlen name = DIRSIZ ∧
      walk D (f_sb s0) parent inum (elems path) = walk D (f_sb s0) parent num (elems p) ∧
      (parent = true → last (elems path) = last (elems p)))) with (n := length path).
  2: lia.
  2: by exists inum.
  intros r [[ip' p] name'] s' (num & -> & HG' & Hw' & Hip' & Hc' & Hn' & Ew & El).
  eapply wp_mono; [by apply (namex_round s0 G parent ip' p name' num s')|].
  intros [[[next rest] name2]|res] s2.
  - intros (num2 & Hlen & HG2 & Hw2 & Hip2 & Hc2 & Hn2 & Ew2 & El2). exists (length rest). split; [done|].
    exists num2. fold D in Ew2. rewrite Ew, Ew2. split_and!; try done. intros Hp. by rewrite El, El2.
  - rewrite Ew. fold D. unfold resolved. destruct (walk D (f_sb s0) parent num (elems p)) as [t|]; [|done].
    intros (ip2 & E & Hw2 & Hip2 & Hc2 & Hnm). exists ip2. split_and!; try done.
    intros Hp. rewrite El by done. by apply Hnm.
Qed.
End resolve.

(** * The theorems on path names: namei() and nameiparent() *)

Section claims.
Context {S : Type} `{BlockStore S}.
Implicit Types s : fsst S.

(** C8.  namei() resolves a path as the tree on the disk says: it follows the
    elements of the path from the root, or from the current directory, and
    returns the inode they lead to, with one more reference; where an element
    is missing or not in a directory it returns NULL.  The disk does not
    change, and every other reference it took on the way is given back. *)
Theorem namei_resolves s G path cwd d :
  tree s G → G ROOTINO → (cwd < length (f_icache s))%nat → caches d (getip s cwd) → G d →
  wp (namei (Some cwd) path) s (λ r s',
    (∀ b, disk (f_store s') b = disk (f_store s) b) ∧ icache_ok (f_icache s') ∧
    match walk (disk (f_store s)) (f_sb s) false (start_inum path d) (elems path) with
    | None => r = None ∧ at_work s (λ _, 0) s'
    | Some target => ∃ ip, r = Some ip ∧ caches target (getip s' ip) ∧ at_work s (one ip) s'
    end).
Proof.
  intros Htr HR Hcwd Hc Hd. unfold namei.
  eapply wp_bind_mono; [by apply (namex_ok s G false path (zeros DIRSIZ) cwd d)|].
  intros r s' Hr. apply wp_ret. unfold resolved in Hr.
  destruct (walk _ _ _ _ _) as [t|].
  - destruct Hr as (ip & E & Hw & _ & Hct & _). destruct (at_work_disk _ _ _ Hw) as (_ & _ & _ & _ & _ & Ed).
    split; [exact Ed|]. split; [apply Hw|]. exists ip. by split_and!.
  - destruct Hr as [E Hw]. destruct (at_work_disk _ _ _ Hw) as (_ & _ & _ & _ & _ & Ed).
    split; [exact Ed|]. split; [apply Hw|done].
Qed.

(** nameiparent() returns the directory that the last element of the path is
    looked up in, with the element, cut to DIRSIZ characters, in the name
    buffer; it fails for a path without elements, and when an element before
    the last is missing or not a directory. *)
Theorem nameiparent_resolves s G path name cwd d :
  tree s G → G ROOTINO → (cwd < length (f_icache s))%nat → caches d (getip s cwd) → G d →
  zlen name = DIRSIZ →
  wp (nameiparent (Some cwd) path name) s (λ r s',
    (∀ b, disk (f_store s') b = disk (f_store s) b) ∧
    match walk (disk (f_store s)) (f_sb s) true (start_inum path d) (elems path) with
    | None => r.1 = None ∧ at_work s (λ _, 0) s'
    | Some dir => ∃ ip e, r.1 = Some ip ∧ caches dir (getip s' ip) ∧ at_work s (one ip) s' ∧
        last (elems path) = Some e ∧ cstr r.2 = take (Z.to_nat DIRSIZ) e
    end).
Proof.
  intros Htr HR Hcwd Hc Hd Hn. unfold nameiparent.
  eapply wp_mono; [by apply (namex_ok s G true path name cwd d)|].
  intros r s' Hr. unfold resolved in Hr.
  destruct (walk _ _ _ _ _) as [t|].
  - destruct Hr as (ip & E & Hw & _ & Hct & Hl). destruct (at_work_disk _ _ _ Hw) as (_ & _ & _ & _ & _ & Ed).
    split; [exact Ed|]. destruct (Hl eq_refl) as (e & El & En). exists ip, e. by split_and!.
  - destruct Hr as [E Hw]. destruct (at_work_disk _ _ _ Hw) as (_ & _ & _ & _ & _ & Ed). done.
Qed.
End claims.

(** ** Witnesses: a root directory (inode 1) with a file "ls" (inode 2) *)

Definition root_inode : inode := mkInode 0 1 1 0 T_DIR 0 0 1 48 0 (100 :: replicate 11 0).
Definition ls_inode : inode := mkInode 0 2 0 0 T_FILE 0 0 1 0 0 (replicate 12 0).
Definition ls_name : list Z := [108; 115; 0].
Definition tree_data (b : Z) : list Z :=
  if b =? 32 then put_dinode (put_dinode (zeros BSIZE) 64 root_inode) 128 ls_inode
  else if b =? 100 then new_entry 1 [46; 0] ++ new_entry 1 [46; 46; 0] ++ new_entry 2 ls_name ++ replicate 464 0
  else fill_block 1.
Definition tree_device : device := mkDevice tree_data (λ _, true).
Definition tree_fs : fsst lstate :=
  mkFs (open_lstate tree_device 30) small_sb 0 0 (root_inode :: replicate 49 inhabitant) 5.
Definition tree_inums (i : Z) : Prop := i = 1 ∨ i = 2.

Lemma tree_device_ok b : block_ok (dev_data tree_device b).
Proof.
  unfold tree_device, dev_data, tree_data. destruct (b =? 32).
  { split; [reflexivity|]. apply (bool_decide_unpack _). vm_compute. exact I. }
  destruct (b =? 100); [|apply block_ok_fill; lia].
  split; [reflexivity|]. apply (bool_decide_unpack _). vm_compute. exact I.
Qed.

Lemma tree_fs_facts :
  ok (f_store tree_fs) ∧ (∀ b, disk (f_store tree_fs) b = tree_data b) ∧ htot (f_store tree_fs) = 0 ∧
  (∀ b, up (f_store tree_fs) b = true).
Proof.
  destruct (open_lstate_ok tree_device 30 tree_device_ok ltac:(lia)) as (O & C & T & _ & _ & _ & U).
  exact (conj O (conj C (conj T U))).
Qed.

Lemma tree_din inum : din (disk (f_store tree_fs)) small_sb inum = din tree_data small_sb inum.
Proof. unfold din. by rewrite (proj1 (proj2 tree_fs_facts)). Qed.

Lemma tree_good inum : tree_inums inum → inode_good (f_store tree_fs) small_sb inum.
Proof.
  destruct tree_fs_facts as (_ & C & _ & U).
  intros [-> | ->]; (split; [apply U|rewrite tree_din; vm_compute; discriminate..|]); rewrite tree_din.
  - intros _. split; [vm_compute; split; [discriminate|reflexivity]|]. split; [reflexivity|].
    change (i_size (din tree_data small_sb 1)) with 48. intros bn Hbn.
    assert (bn = 0) as -> by (unfold BSIZE in Hbn; lia). split; [vm_compute; split; [discriminate|reflexivity]|].
    change (path (disk (f_store tree_fs)) (i_addrs (din tree_data small_sb 1)) 0) with [100].
    intros b ->%list_elem_of_singleton. split; [discriminate|apply U].
  - intros Hf. vm_compute in Hf. discriminate.
Qed.

Lemma tree_entries : dir_entries (disk (f_store tree_fs)) small_sb 1 =
  [new_entry 1 [46; 0]; new_entry 1 [46; 46; 0]; new_entry 2 ls_name].
Proof.
  unfold dir_entries. rewrite tree_din, (dentries_ext _ tree_data) by apply tree_fs_facts. reflexivity.
Qed.

Lemma tree_fs_tree : tree tree_fs tree_inums.
Proof.
  destruct tree_fs_facts as (O & C & T & U). split.
  - split.
    + exists (f_store tree_fs), (f_icache tree_fs). split; [reflexivity|]. apply effect_refl, O.
    + split.
      * intros [|i] x Hx; [by injection Hx as <-|]. apply lookup_replicate in Hx as [-> _]. done.
      * intros [|i] [|j] x y inum Hx Hy Hcx Hcy; [done|..]; exfalso;
          try (apply lookup_replicate in Hy as [-> _]; by destruct Hcy).
        apply lookup_replicate in Hx as [-> _]. by destruct Hcx.
    + intros [|i] x Hx Hr Hv; [by injection Hx as <-|]. by apply lookup_replicate in Hx as [-> _].
    + reflexivity.
    + intros i x0 x Hx0 Hx. assert (x0 = x) as -> by congruence. split; [lia|done].
  - rewrite T. reflexivity.
  - exists 1%nat, 2%nat, inhabitant, inhabitant. split; [discriminate|]. repeat split; reflexivity.
  - exact tree_good.
  - intros inum name next [-> | ->].
    + intros _. unfold dir_find. change (f_sb tree_fs) with small_sb. rewrite tree_entries.
      intros ([k de] & (Hk & _ & _)%list_find_Some & ->)%fmap_Some. simpl.
      destruct k as [|[|[|k]]]; simpl in Hk; [injection Hk as <-; by left|injection Hk as <-; by left|
        injection Hk as <-; by right|discriminate].
    + change (f_sb tree_fs) with small_sb. rewrite tree_din. vm_compute. discriminate.
Qed.

(** "/ls", and "ls/x" where ls is not a directory. *)
Lemma namei_resolves_witness :
  wp (namei (Some 0%nat) [47; 108; 115; 0]) tree_fs (λ r s', ∃ ip, r = Some ip ∧ caches 2 (getip s' ip)) ∧
  wp (namei (Some 0%nat) [108; 115; 47; 120; 0]) tree_fs (λ r s', r = None).
Proof.
  destruct tree_fs_facts as (O & C & T & U). split.
  - eapply wp_mono.
    + apply (namei_resolves tree_fs tree_inums [47; 108; 115; 0] 0 1 tree_fs_tree);
        [by left|simpl; lia|by split|by left].
    + intros r s' (_ & _ & Hr). assert (walk (disk (f_store tree_fs)) (f_sb tree_fs) false
        (start_inum [47; 108; 115; 0] 1) (elems [47; 108; 115; 0]) = Some 2) as E.
      { rewrite (walk_ext _ tree_data) by exact C. change (f_sb tree_fs) with small_sb. vm_compute. reflexivity. }
      rewrite E in Hr. destruct Hr as (ip & -> & Hc & _). exists ip. split; [reflexivity|exact Hc].
  - eapply wp_mono.
    + apply (namei_resolves tree_fs tree_inums [108; 115; 47; 120; 0] 0 1 tree_fs_tree);
        [by left|simpl; lia|by split|by left].
    + intros r s' (_ & _ & Hr). assert (walk (disk (f_store tree_fs)) (f_sb tree_fs) false
        (start_inum [108; 115; 47; 120; 0] 1) (elems [108; 115; 47; 120; 0]) = None) as E.
      { rewrite (walk_ext _ tree_data) by exact C. change (f_sb tree_fs) with small_sb. vm_compute. reflexivity. }
      rewrite E in Hr. destruct Hr as [Hr _]. exact Hr.
Defined.

