(* ===== verification/Frames.v ===== *)
(** * Memory frames (kern/frames.c)

    Expansion RAM is sixteen 64K frames; [flist[i]] is the process that owns
    frame [i], or 0. *)

From S2P Require Import Prelude Params.

Definition NFRAME : nat := 16.
Definition FREE : Z := 0.

Definition finit : list Z := replicate NFRAME FREE.

Definition freeframes (pid : Z) (flist : list Z) : list Z :=
  map (λ p, if p =? pid then FREE else p) flist.

(** The loop of the one-frame case: the first free frame. *)
Fixpoint first_free (flist : list Z) (i : nat) : option nat :=
  match flist with
  | [] => None
  | p :: l => if p =? FREE then Some i else first_free l (S i)
  end.

(** The state of the loop that looks for the biggest run: the best run so far
    and the run being counted ([rs_potstart = -1]: none). *)
Record runs := mkRuns { rs_maxstart : Z; rs_maxnum : Z; rs_potstart : Z; rs_potnum : Z }.

(** "If we were recording a potential run, we have hit the end of the run." *)
Definition end_run (r : runs) : runs :=
  if negb (rs_potstart r =? -1) then
    if rs_potnum r >? rs_maxnum r
    then mkRuns (rs_potstart r) (rs_potnum r) (-1) (rs_potnum r)
    else mkRuns (rs_maxstart r) (rs_maxnum r) (-1) (rs_potnum r)
  else r.

(** One round, for frame [i], whose owner is [p]. *)
Definition run_step (r : runs) (i : nat) (p : Z) : runs :=
  if p =? FREE then
    if rs_potstart r =? -1 then mkRuns (rs_maxstart r) (rs_maxnum r) (Z.of_nat i) 1
    else
      let r := mkRuns (rs_maxstart r) (rs_maxnum r) (rs_potstart r) (rs_potnum r + 1) in
      if (i <? NFRAME - 1)%nat then r else end_run r
  else end_run r.

Fixpoint run_loop (r : runs) (i : nat) (flist : list Z) : runs :=
  match flist with
  | [] => r
  | p :: l => run_loop (run_step r i p) (S i) l
  end.

Fixpoint claim (pid : Z) (n : nat) (start : nat) (flist : list Z) : list Z :=
  match n with
  | O => flist
  | S n => claim pid n (S start) (<[start := pid]> flist)
  end.

(** The result and the new list; the list is the old one when the result is -1. *)
Definition allocframes (pid nframes : Z) (flist : list Z) : Z * list Z :=
  let blist := flist in
  let flist := freeframes pid flist in
  if nframes =? 1 then
    match first_free flist 0 with
    | Some i => (Z.of_nat i, <[i := pid]> flist)
    | None => (-1, blist)
    end
  else
    let r := run_loop (mkRuns (-1) 0 (-1) 0) 0 flist in
    if rs_maxnum r >=? nframes
    then (rs_maxstart r, claim pid (Z.to_nat nframes) (Z.to_nat (rs_maxstart r)) flist)
    else (-1, blist).
