(* ===== verification/FramesSpec.v ===== *)
(** * Frames: the allocator is sound and complete

    [allocframes] finds a run of free frames exactly when there is one, and
    hands out frames that nobody else owns. *)

From S2P Require Import Prelude Params Frames.

(** Frames [a .. a+k-1] of [l] are free. *)
Definition free_run (l : list Z) (a k : nat) : Prop :=
  ∀ j, (a ≤ j < a + k)%nat → l !! j = Some FREE.

Lemma free_run_sub l a k b m :
  free_run l a k → (a ≤ b)%nat → (b + m ≤ a + k)%nat → free_run l b m.
Proof. intros H ? ? j Hj. apply H. lia. Qed.

Lemma free_run_snoc l a i : free_run l a (i - a) → (a ≤ i)%nat → l !! i = Some FREE → free_run l a (S i - a).
Proof.
  intros H Ha Hi j Hj. destruct (decide (j = i)) as [->|]; [done|]. apply H. lia.
Qed.

(** The invariant of the loop that looks for the biggest run, after [i] frames. *)
Record rinv (l : list Z) (i : nat) (r : runs) : Prop := {
  ri_max : 0 ≤ rs_maxnum r ∧ (0 < rs_maxnum r → ∃ a k, rs_maxstart r = Z.of_nat a ∧
    rs_maxnum r = Z.of_nat k ∧ (a + k ≤ i)%nat ∧ free_run l a k);
  ri_pot : rs_potstart r = -1 ∨ ∃ s, rs_potstart r = Z.of_nat s ∧ (s < i)%nat ∧
    rs_potnum r = Z.of_nat (i - s) ∧ free_run l s (i - s) ∧
    ∀ a, (a < s)%nat → ¬ free_run l a (s - a);
  ri_edge : rs_potstart r = -1 → (i < NFRAME)%nat → ∀ a, (a < i)%nat → ¬ free_run l a (i - a);
  ri_best : ∀ a k, (a + k ≤ i)%nat → (0 < k)%nat → free_run l a k →
    Z.of_nat k ≤ rs_maxnum r ∨ ∃ s, rs_potstart r = Z.of_nat s ∧ (s ≤ a)%nat;
}.

(** The end of a run that is [n] frames long, after [i'] frames. *)
Lemma end_run_ok l i' r s n :
  rs_potstart r = Z.of_nat s → rs_potnum r = Z.of_nat n → (0 < n)%nat → (s + n ≤ i')%nat → free_run l s n →
  0 ≤ rs_maxnum r → (0 < rs_maxnum r → ∃ a k, rs_maxstart r = Z.of_nat a ∧
    rs_maxnum r = Z.of_nat k ∧ (a + k ≤ i')%nat ∧ free_run l a k) →
  ((i' < NFRAME)%nat → ∀ a, (a < i')%nat → ¬ free_run l a (i' - a)) →
  (∀ a k, (a + k ≤ i')%nat → (0 < k)%nat → free_run l a k →
     Z.of_nat k ≤ rs_maxnum r ∨ Z.of_nat k ≤ Z.of_nat n) →
  rinv l i' (end_run r).
Proof.
  intros Es En Hn Hsn Hrun Hm1 Hm2 Hedge Hbest. unfold end_run. rewrite Es.
  destruct (Z.eqb_spec (Z.of_nat s) (-1)); [lia|]. simpl. rewrite En.
  destruct (Z.gtb_spec (Z.of_nat n) (rs_maxnum r)); split; cbn [rs_maxstart rs_maxnum rs_potstart rs_potnum]; auto; try lia.
  - split; [lia|]. intros _. by exists s, n.
  - intros a k H1 H2 H3. destruct (Hbest a k H1 H2 H3); left; lia.
  - intros a k H1 H2 H3. destruct (Hbest a k H1 H2 H3); left; lia.
Qed.

Lemma run_step_ok l i r p :
  length l = NFRAME → rinv l i r → l !! i = Some p → rinv l (S i) (run_step r i p).
Proof.
  intros Hl [[Hm1 Hm2] Hpot Hedge Hbest] Hi.
  assert (i < NFRAME)%nat as Hlt by (rewrite <- Hl; by eapply lookup_lt_Some).
  assert (0 < rs_maxnum r → ∃ a k, rs_maxstart r = Z.of_nat a ∧
    rs_maxnum r = Z.of_nat k ∧ (a + k ≤ S i)%nat ∧ free_run l a k) as Hm2'.
  { intros H. destruct (Hm2 H) as (a & k & ? & ? & ? & ?). exists a, k. split_and!; try done. lia. }
  unfold run_step. destruct (Z.eqb_spec p FREE) as [->|Hne].
  - destruct Hpot as [Ep|(s & Es & Hs & En & Hrun & Hleft)].
    + rewrite Ep. cbn [Z.eqb Pos.eqb]. split; cbn [rs_maxstart rs_maxnum rs_potstart rs_potnum]; try done.
      * right. exists i. split_and!; [done|lia|lia| |].
        -- intros j Hj. by assert (j = i) as -> by lia.
        -- intros a Ha. by apply Hedge.
      * lia.
      * intros a k H1 H2 H3. destruct (decide (a + k ≤ i)%nat) as [Hle|Hgt].
        -- destruct (Hbest a k Hle H2 H3) as [?|(s & Hs & _)]; [by left|]. rewrite Ep in Hs. lia.
        -- right. exists i. split; [done|]. destruct (decide (i ≤ a)%nat); [done|].
           exfalso. apply (Hedge Ep Hlt a); [lia|]. eapply free_run_sub; [done|lia|lia].
    + rewrite Es. destruct (Z.eqb_spec (Z.of_nat s) (-1)); [lia|].
      assert (rs_potnum r + 1 = Z.of_nat (S i - s)) as En' by lia.
      assert (free_run l s (S i - s)) as Hrun' by (apply free_run_snoc; [done|lia|done]).
      destruct (Nat.ltb_spec i (NFRAME - 1)).
      * split; cbn [rs_maxstart rs_maxnum rs_potstart rs_potnum].
        -- by split.
        -- right. exists s. split_and!; try done. lia.
        -- intros. lia.
        -- intros a k H1 H2 H3. destruct (decide (a + k ≤ i)%nat) as [Hle|Hgt].
           ++ destruct (Hbest a k Hle H2 H3) as [?|(s' & Hs' & Hsa)]; [by left|].
              right. exists s'. rewrite <- Hs'. done.
           ++ right. exists s. split; [done|]. destruct (decide (s ≤ a)%nat); [done|].
              exfalso. apply (Hleft a); [lia|]. eapply free_run_sub; [done|lia|lia].
      * apply (end_run_ok l (S i) _ s (S i - s)); cbn [rs_maxstart rs_maxnum rs_potstart rs_potnum]; auto; try lia.
        intros a k H1 H2 H3. destruct (decide (a + k ≤ i)%nat) as [Hle|Hgt].
        -- destruct (Hbest a k Hle H2 H3) as [?|(s' & Hs' & Hsa)]; [by left|]. right. lia.
        -- right. destruct (decide (s ≤ a)%nat); [lia|].
           exfalso. apply (Hleft a); [lia|]. eapply free_run_sub; [done|lia|lia].
  - assert (∀ a k, (a ≤ i < a + k)%nat → ¬ free_run l a k) as Hno.
    { intros a k Hin H. specialize (H i Hin). rewrite Hi in H. congruence. }
    assert (∀ a k, (a + k ≤ S i)%nat → (0 < k)%nat → free_run l a k → (a + k ≤ i)%nat) as Hshort.
    { intros a k H1 H2 H3. destruct (decide (a + k ≤ i)%nat); [done|].
      exfalso. apply (Hno a k); [lia|done]. }
    destruct Hpot as [Ep|(s & Es & Hs & En & Hrun & Hleft)].
    + unfold end_run. rewrite Ep. cbn [Z.eqb negb]. split.
      * by split.
      * by left.
      * intros _ _ a Ha. apply Hno. lia.
      * intros a k H1 H2 H3. apply (Hbest a k); auto.
    + apply (end_run_ok l (S i) r s (i - s)); auto; try lia.
      * intros _ a Ha. apply Hno. lia.
      * intros a k H1 H2 H3. specialize (Hshort a k H1 H2 H3).
        destruct (Hbest a k Hshort H2 H3) as [?|(s' & Hs' & Hsa)]; [by left|]. right. lia.
Qed.

Lemma run_loop_ok l i r :
  length l = NFRAME → (i ≤ NFRAME)%nat → rinv l i r → rinv l NFRAME (run_loop r i (drop i l)).
Proof.
  intros Hl Hi. remember (NFRAME - i)%nat as n eqn:En. revert i r Hi En.
  induction n as [|n IH]; intros i r Hi En I.
  - rewrite drop_ge by lia. assert (i = NFRAME) as -> by lia. done.
  - destruct (lookup_lt_is_Some_2 l i) as [p Hp]; [lia|].
    rewrite (drop_S _ _ _ Hp). cbn [run_loop]. apply IH; [lia|lia|]. by apply run_step_ok.
Qed.

(** After the last frame a run of two frames or more has been counted. *)
Lemma run_step_last r p :
  rs_potstart (run_step r (NFRAME - 1) p) = -1 ∨
  rs_potstart (run_step r (NFRAME - 1) p) = Z.of_nat (NFRAME - 1).
Proof.
  assert (∀ r, rs_potstart (end_run r) = -1) as He.
  { intros r'. unfold end_run. destruct (Z.eqb_spec (rs_potstart r') (-1)); [done|].
    simpl. by destruct (_ >? _). }
  unfold run_step. destruct (p =? FREE); [|left; apply He].
  destruct (rs_potstart r =? -1); [by right|]. left. apply He.
Qed.

Lemma run_loop_last r l :
  length l = NFRAME →
  rs_potstart (run_loop r 0 l) = -1 ∨ rs_potstart (run_loop r 0 l) = Z.of_nat (NFRAME - 1).
Proof.
  intros Hl. do 16 (destruct l as [|? l]; [discriminate Hl|]). destruct l; [|discriminate Hl].
  cbn [run_loop]. apply run_step_last.
Qed.

Definition start_runs : runs := mkRuns (-1) 0 (-1) 0.

Lemma biggest_run l :
  length l = NFRAME →
  let r := run_loop start_runs 0 l in
  (0 < rs_maxnum r → ∃ a k, rs_maxstart r = Z.of_nat a ∧ rs_maxnum r = Z.of_nat k ∧
     (a + k ≤ NFRAME)%nat ∧ free_run l a k) ∧
  (∀ a k, (a + k ≤ NFRAME)%nat → (2 ≤ k)%nat → free_run l a k → Z.of_nat k ≤ rs_maxnum r).
Proof.
  intros Hl r. assert (rinv l NFRAME r) as [Hm Hpot _ Hbest].
  { unfold r. change l with (drop 0 l) at 2. apply run_loop_ok; [done|lia|].
    split; simpl; try done; [by left|lia|lia]. }
  split; [apply Hm|]. intros a k H1 H2 H3.
  destruct (Hbest a k H1 ltac:(lia) H3) as [?|(s & Hs & Hsa)]; [done|].
  destruct (run_loop_last start_runs l Hl) as [E|E]; fold r in E; [lia|].
  unfold NFRAME in *. lia.
Qed.

Lemma claim_lookup pid n start l j :
  (start + n ≤ length l)%nat →
  claim pid n start l !! j =
    if decide (start ≤ j < start + n)%nat then Some pid else l !! j.
Proof.
  revert start l. induction n as [|n IH]; intros start l Hl; simpl.
  - rewrite decide_False by lia. done.
  - rewrite IH by (rewrite length_insert; lia).
    destruct (decide (start = j)) as [->|Hne].
    + rewrite decide_False, decide_True by lia. apply list_lookup_insert_eq. lia.
    + rewrite list_lookup_insert_ne by done.
      destruct (decide (S start ≤ j < S start + n)%nat), (decide (start ≤ j < start + S n)%nat); done || lia.
Qed.

Lemma first_free_some l i k :
  first_free l i = Some k →
  ∃ j, k = (i + j)%nat ∧ l !! j = Some FREE ∧ ∀ j', (j' < j)%nat → l !! j' ≠ Some FREE.
Proof.
  revert i. induction l as [|p l IH]; intros i; simpl; [done|].
  destruct (Z.eqb_spec p FREE) as [->|Hne].
  - intros [= <-]. exists O. split_and!; [lia|done|lia].
  - intros (j & -> & Hj & Hlt)%IH. exists (S j). split_and!; [lia|done|].
    intros [|j'] Hj'; simpl; [congruence|]. apply Hlt. lia.
Qed.

Lemma first_free_none l i : first_free l i = None → ∀ j, l !! j ≠ Some FREE.
Proof.
  revert i. induction l as [|p l IH]; intros i; simpl; [done|].
  destruct (Z.eqb_spec p FREE) as [->|Hne]; [done|]. intros H [|j]; simpl; [congruence|]. by eapply IH.
Qed.

Lemma freeframes_lookup pid l j :
  freeframes pid l !! j = (λ p, if p =? pid then FREE else p) <$> l !! j.
Proof. apply list_lookup_fmap. Qed.

(** A successful allocframes(). *)
Lemma allocframes_run pid nframes flist r flist' :
  length flist = NFRAME → 1 ≤ nframes → allocframes pid nframes flist = (r, flist') → r ≠ -1 →
  0 ≤ r ∧ r + nframes ≤ Z.of_nat NFRAME ∧
  (∀ j, r ≤ Z.of_nat j < r + nframes → flist !! j = Some FREE ∨ flist !! j = Some pid) ∧
  (∀ j, flist' !! j =
     if decide (r ≤ Z.of_nat j < r + nframes) then Some pid
     else (λ p, if p =? pid then FREE else p) <$> flist !! j).
Proof.
  intros Hl Hn H Hr. set (fl := freeframes pid flist).
  assert (length fl = NFRAME) as Hfl by (unfold fl, freeframes; by rewrite length_map).
  assert (∀ j, fl !! j = Some FREE → flist !! j = Some FREE ∨ flist !! j = Some pid) as Hown.
  { intros j. unfold fl. rewrite freeframes_lookup. destruct (flist !! j) as [p|]; [|done]. simpl.
    destruct (Z.eqb_spec p pid) as [->|]; auto. }
  unfold allocframes in H. fold fl in H. destruct (Z.eqb_spec nframes 1) as [->|Hn1].
  - destruct (first_free fl 0) as [i|] eqn:Ef; injection H as <- <-; [|done].
    apply first_free_some in Ef as (j & -> & Hj & _). simpl.
    assert (j < length fl)%nat by by eapply lookup_lt_Some.
    split_and!; [lia|lia| |].
    + intros j' Hj'. assert (j' = j) as -> by lia. auto.
    + intros j'. rewrite <- (freeframes_lookup pid). fold fl. case_decide.
      * assert (j' = j) as -> by lia. by apply list_lookup_insert_eq.
      * apply list_lookup_insert_ne. lia.
  - fold start_runs in H. destruct (biggest_run fl Hfl) as [Hmax _].
    set (rr := run_loop start_runs 0 fl) in *.
    destruct (Z.geb_spec (rs_maxnum rr) nframes); injection H as <- <-; [|done].
    destruct (Hmax ltac:(lia)) as (a & k & Ea & Ek & Hak & Hrun). rewrite Ea, Ek in *.
    rewrite Nat2Z.id. split_and!; [lia|lia| |].
    + intros j Hj. apply Hown, Hrun. lia.
    + intros j. rewrite claim_lookup by lia. rewrite <- (freeframes_lookup pid). fold fl.
      destruct (decide (a ≤ j < a + Z.to_nat nframes)%nat), (decide (Z.of_nat a ≤ Z.of_nat j < Z.of_nat a + nframes)); done || lia.
Qed.

(** C35.  allocframes() that succeeds returns a run of [nframes] frames inside the
    memory that were free or the caller's own; afterwards exactly these frames
    belong to [pid], and no other process lost or gained a frame. *)
Theorem allocframes_sound pid nframes flist r flist' :
  length flist = NFRAME → 1 ≤ nframes → allocframes pid nframes flist = (r, flist') → r ≠ -1 →
  0 ≤ r ∧ r + nframes ≤ Z.of_nat NFRAME ∧
  (∀ j, r ≤ Z.of_nat j < r + nframes → flist !! j = Some FREE ∨ flist !! j = Some pid) ∧
  (∀ j, flist' !! j =
     if decide (r ≤ Z.of_nat j < r + nframes) then Some pid
     else (λ p, if p =? pid then FREE else p) <$> flist !! j).
Proof. apply allocframes_run. Qed.

(** A failed allocframes(). *)
Lemma allocframes_fail pid nframes flist flist' :
  length flist = NFRAME → 1 ≤ nframes → allocframes pid nframes flist = (-1, flist') →
  flist' = flist ∧
  ∀ a, (a + Z.to_nat nframes ≤ NFRAME)%nat → ¬ free_run (freeframes pid flist) a (Z.to_nat nframes).
Proof.
  intros Hl Hn H. set (fl := freeframes pid flist) in *.
  assert (length fl = NFRAME) as Hfl by (unfold fl, freeframes; by rewrite length_map).
  unfold allocframes in H. fold fl in H. destruct (Z.eqb_spec nframes 1) as [->|Hn1].
  - destruct (first_free fl 0) as [i|] eqn:Ef; injection H as H; [lia|subst flist'].
    split; [done|]. intros a _ Hrun. apply (first_free_none fl 0 Ef a), Hrun. lia.
  - fold start_runs in H. destruct (biggest_run fl Hfl) as [Hmax Hbest].
    set (rr := run_loop start_runs 0 fl) in *.
    destruct (Z.geb_spec (rs_maxnum rr) nframes) as [Hge|Hlt]; injection H as H.
    + destruct (Hmax ltac:(lia)) as (a & k & Ea & _). lia.
    + subst flist'. split; [done|]. intros a Ha Hrun.
      specialize (Hbest a _ Ha ltac:(lia) Hrun). lia.
Qed.

(** C36.  allocframes() fails only when, with the frames of [pid] itself given
    back, there is no run of [nframes] free frames; it then leaves the list as
    it was. *)
Theorem allocframes_complete pid nframes flist flist' :
  length flist = NFRAME → 1 ≤ nframes → allocframes pid nframes flist = (-1, flist') →
  flist' = flist ∧
  ∀ a, (a + Z.to_nat nframes ≤ NFRAME)%nat → ¬ free_run (freeframes pid flist) a (Z.to_nat nframes).
Proof. apply allocframes_fail. Qed.

(** Processes 1 and 2 own frames; process 1 runs a bigger program. *)
Definition some_frames : list Z := [1; 1; 0; 0; 2; 0; 0; 0; 0; 0; 0; 0; 0; 0; 0; 0].

Lemma allocframes_sound_witness :
  let '(r, l) := allocframes 1 12 (replicate 2 1 ++ replicate 14 0) in
  0 ≤ r ∧ r + 12 ≤ Z.of_nat NFRAME ∧ l !! 3%nat = Some 1.
Proof.
  destruct (allocframes_sound 1 12 (replicate 2 1 ++ replicate 14 0) 0 (replicate 12 1 ++ replicate 4 0))
    as (H1 & H2 & _ & H4); [reflexivity|lia|vm_compute; reflexivity|lia|].
  vm_compute. split_and!; [discriminate|discriminate|reflexivity].
Defined.

Lemma allocframes_complete_witness :
  some_frames = some_frames ∧
  ∀ a, (a + 12 ≤ NFRAME)%nat → ¬ free_run (freeframes 1 some_frames) a 12.
Proof. apply (allocframes_complete 1 12); [reflexivity|lia|vm_compute; reflexivity]. Defined.
