(* ===== verification/Pipe.v ===== *)
(** * Pipes (kern/pipe.c)

    The kernel runs a system call without preemption until it sleeps, so each
    routine is modelled up to its next [sleep]: it returns [Done] with its
    result, or [Sleeps] with the rest of the call, to be run again after a
    [wakeup].  Both routines return the channels they wake, in order. *)

From S2P Require Import Prelude Bytes Params.

(** The channels processes sleep on: [&p->nread] and [&p->nwrite] of pipe [p],
    and a [struct proc *]. *)
Inductive chan :=
| ChRead (p : nat)
| ChWrite (p : nat)
| ChProc (p : nat).

#[export] Instance chan_eq_dec : EqDecision chan.
Proof. solve_decision. Defined.

Record pipe := mkPipe {
  p_data : list Z;
  p_isfree : Z;
  p_nread : Z;
  p_nwrite : Z;
  p_readopen : Z;
  p_writeopen : Z;
}.

Definition PFREE : Z := 0.
Definition PUSED : Z := 1.

#[export] Instance pipe_inhabited : Inhabited pipe :=
  populate (mkPipe (zeros PIPESIZE) PFREE 0 0 0 0).

Definition set_isfree (v : Z) (p : pipe) : pipe :=
  mkPipe (p_data p) v (p_nread p) (p_nwrite p) (p_readopen p) (p_writeopen p).

Definition pipeinit (plist : list pipe) : list pipe := map (set_isfree PFREE) plist.

Fixpoint palloc_from (plist : list pipe) (i : nat) : option nat :=
  match plist with
  | [] => None
  | p :: l => if p_isfree p =? PFREE then Some i else palloc_from l (S i)
  end.

Definition palloc (plist : list pipe) : option nat * list pipe :=
  match palloc_from plist 0 with
  | Some i => (Some i, alter (set_isfree PUSED) i plist)
  | None => (None, plist)
  end.

Definition pfree (i : nat) : M (list pipe) unit := λ plist,
  if negb (p_isfree (plist !!! i) =? PUSED) then Panic "pfree: pipe not in use"
  else Ret tt (alter (set_isfree PFREE) i plist).

(** The pipe as pipealloc() initialises it. *)
Definition fresh_pipe (p : pipe) : pipe := mkPipe (p_data p) (p_isfree p) 0 0 1 1.

Definition close_end (writable : bool) (p : pipe) : pipe :=
  if writable then mkPipe (p_data p) (p_isfree p) (p_nread p) (p_nwrite p) (p_readopen p) 0
  else mkPipe (p_data p) (p_isfree p) (p_nread p) (p_nwrite p) 0 (p_writeopen p).

Definition pipeclose (i : nat) (writable : bool) : M (list pipe) chan :=
  modify (alter (close_end writable) i) ;;
  let* p := gets (λ l : list pipe, l !!! i) in
  (if (p_readopen p =? 0) && (p_writeopen p =? 0) then pfree i else ret tt) ;;
  ret (if writable then ChRead i else ChWrite i).

(** ** Reading and writing *)

Inductive step_result :=
| Done (r : Z) (out : list Z)
| Sleeps (c : chan) (rest : list Z).

Definition full (p : pipe) : bool := p_nwrite p =? u32 (p_nread p + PIPESIZE).
Definition empty (p : pipe) : bool := p_nread p =? p_nwrite p.

Definition put_byte (b : Z) (p : pipe) : pipe :=
  mkPipe (splice (p_data p) (p_nwrite p mod PIPESIZE) [b]) (p_isfree p) (p_nread p)
    (u32 (p_nwrite p + 1)) (p_readopen p) (p_writeopen p).
Definition get_byte (p : pipe) : Z * pipe :=
  (byte (p_data p) (p_nread p mod PIPESIZE),
   mkPipe (p_data p) (p_isfree p) (u32 (p_nread p + 1)) (p_nwrite p) (p_readopen p) (p_writeopen p)).

(** pipewrite() with [addr] left to write, out of [n] bytes in all, up to its next sleep. *)
Fixpoint pipewrite (i : nat) (killed : bool) (n : Z) (addr : list Z) (p : pipe)
    : step_result * list chan * pipe :=
  match addr with
  | [] => (Done n [], [ChRead i], p)
  | b :: rest =>
      if full p then
        if (p_readopen p =? 0) || killed then (Done (-1) [], [], p)
        else (Sleeps (ChWrite i) addr, [ChRead i], p)
      else pipewrite i killed n rest (put_byte b p)
  end.

(** The copy loop of piperead(): at most [n] bytes. *)
Fixpoint piperead_copy (n : nat) (p : pipe) : list Z * pipe :=
  match n with
  | O => ([], p)
  | S n =>
      if empty p then ([], p)
      else let '(b, p) := get_byte p in
           let '(bs, p) := piperead_copy n p in (b :: bs, p)
  end.

Definition piperead (i : nat) (killed : bool) (n : Z) (p : pipe)
    : step_result * list chan * pipe :=
  if empty p && negb (p_writeopen p =? 0) then
    if killed then (Done EPIPE [], [], p) else (Sleeps (ChRead i) [], [], p)
  else
    let '(bs, p) := piperead_copy (Z.to_nat n) p in
    (Done (zlen bs) bs, [ChWrite i], p).
