(* ===== verification/PipeSpec.v ===== *)
(** * Pipes: the circular buffer is a queue, and a stream between two processes *)

From S2P Require Import Prelude Bytes Params Store Pipe.

(** ** The queue that a pipe holds

    [nread] and [nwrite] only grow, modulo 2^32; the bytes between them are in
    [data], at their index modulo PIPESIZE. *)
Record holds (p : pipe) (q : list Z) : Prop := {
  h_data : zlen (p_data p) = PIPESIZE;
  h_nread : 0 ≤ p_nread p < 4294967296;
  h_nwrite : p_nwrite p = u32 (p_nread p + zlen q);
  h_fit : zlen q ≤ PIPESIZE;
  h_bytes : ∀ i, 0 ≤ i < zlen q → byte (p_data p) ((p_nread p + i) mod PIPESIZE) = byte q i;
}.

(** PIPESIZE divides 2^32, so that wrapping a counter keeps its slot. *)
Lemma u32_mod_pipesize x : u32 x mod PIPESIZE = x mod PIPESIZE.
Proof.
  unfold u32, PIPESIZE. symmetry.
  rewrite (Z.div_mod x 4294967296) at 1 by lia.
  replace (4294967296 * (x / 4294967296) + x mod 4294967296)
    with (x mod 4294967296 + (8388608 * (x / 4294967296)) * 512) by lia.
  by rewrite Z_mod_plus_full.
Qed.

Lemma u32_add_inj x a b :
  0 ≤ a ≤ PIPESIZE → 0 ≤ b ≤ PIPESIZE → u32 (x + a) = u32 (x + b) → a = b.
Proof.
  unfold u32, PIPESIZE. intros Ha Hb E.
  pose proof (Z.div_mod (x + a) 4294967296 ltac:(lia)).
  pose proof (Z.div_mod (x + b) 4294967296 ltac:(lia)). nia.
Qed.

Lemma slot_inj x a b :
  0 ≤ a < PIPESIZE → 0 ≤ b < PIPESIZE → (x + a) mod PIPESIZE = (x + b) mod PIPESIZE → a = b.
Proof.
  unfold PIPESIZE. intros Ha Hb E.
  pose proof (Z.div_mod (x + a) 512 ltac:(lia)).
  pose proof (Z.div_mod (x + b) 512 ltac:(lia)). nia.
Qed.

Lemma full_iff p q : holds p q → full p = bool_decide (zlen q = PIPESIZE).
Proof.
  intros []. unfold full. rewrite h_nwrite0. pose proof (zlen_nonneg q).
  case_bool_decide as E; [by rewrite E; apply Z.eqb_eq|].
  apply Z.eqb_neq. intros Eu. apply E. unfold PIPESIZE in *. by apply u32_add_inj in Eu.
Qed.

Lemma empty_iff p q : holds p q → empty p = bool_decide (q = []).
Proof.
  intros []. unfold empty. rewrite h_nwrite0. pose proof (zlen_nonneg q).
  case_bool_decide as E.
  - subst q. apply Z.eqb_eq. unfold zlen. simpl. rewrite Z.add_0_r. by rewrite u32_small.
  - apply Z.eqb_neq. intros Eu. apply E. destruct q as [|b q]; [done|exfalso].
    rewrite <- (u32_small (p_nread p)) in Eu at 1 by done.
    rewrite <- (Z.add_0_r (p_nread p)) in Eu at 1.
    apply u32_add_inj in Eu; unfold zlen, PIPESIZE in *; simpl in *; lia.
Qed.

Lemma put_byte_holds p q b :
  holds p q → zlen q < PIPESIZE → holds (put_byte b p) (q ++ [b]).
Proof.
  intros [Hd Hr Hw Hf Hb] Hq. pose proof (zlen_nonneg q).
  assert (0 ≤ p_nwrite p mod PIPESIZE < PIPESIZE) as Hslot by (apply Z.mod_pos_bound; done).
  assert (zlen [b] = 1) as E1 by done.
  split; simpl.
  - rewrite zlen_splice; [done|lia|rewrite Hd, E1; lia].
  - done.
  - rewrite zlen_app, E1, Hw. unfold u32. rewrite Zplus_mod_idemp_l. f_equal. lia.
  - rewrite zlen_app, E1. lia.
  - intros i Hi. rewrite zlen_app, E1 in Hi.
    assert (0 ≤ (p_nread p + i) mod PIPESIZE < PIPESIZE) as Hs by (apply Z.mod_pos_bound; done).
    rewrite Hw, u32_mod_pipesize in *.
    destruct (decide (i = zlen q)) as [->|Hne].
    + rewrite byte_splice_in by (rewrite ?Hd, ?E1; lia). rewrite byte_app_r by lia.
      by rewrite !Z.sub_diag.
    + rewrite byte_splice_out; [|rewrite ?Hd, ?E1; lia..|].
      * rewrite byte_app_l by lia. apply Hb. lia.
      * rewrite E1. intros Hin. apply Hne. apply (slot_inj (p_nread p)); lia.
Qed.

Lemma get_byte_holds p b q :
  holds p (b :: q) → fst (get_byte p) = b ∧ holds (snd (get_byte p)) q.
Proof.
  intros [Hd Hr Hw Hf Hb]. pose proof (zlen_nonneg q).
  assert (zlen (b :: q) = zlen q + 1) as El by (unfold zlen; simpl; lia). rewrite El in *.
  split; simpl.
  - specialize (Hb 0 ltac:(lia)). by rewrite Z.add_0_r in Hb.
  - split; simpl; [done|apply u32_range| |lia|].
    + rewrite Hw. unfold u32. rewrite Zplus_mod_idemp_l. f_equal. lia.
    + intros i Hi. specialize (Hb (i + 1) ltac:(lia)).
      replace (byte (b :: q) (i + 1)) with (byte q i) in Hb.
      2:{ unfold byte. replace (Z.to_nat (i + 1)) with (S (Z.to_nat i)) by lia. done. }
      rewrite <- Hb. f_equal. rewrite <- (u32_mod_pipesize (p_nread p + (i + 1))).
      rewrite <- (u32_mod_pipesize (u32 (p_nread p + 1) + i)). f_equal.
      unfold u32. rewrite Zplus_mod_idemp_l. f_equal. lia.
Qed.

(** ** One run of a system call *)

(** pipewrite() up to its next sleep: it queues as many bytes as fit. *)
Lemma pipewrite_holds i killed n addr p q :
  holds p q →
  let m := Z.to_nat (PIPESIZE - zlen q) in
  let '(r, cs, p') := pipewrite i killed n addr p in
  holds p' (q ++ take m addr) ∧
  p_readopen p' = p_readopen p ∧ p_writeopen p' = p_writeopen p ∧
  (r, cs) =
    (if (length addr <=? m)%nat then (Done n [], [ChRead i])
     else if (p_readopen p =? 0) || killed then (Done (-1) [], [])
     else (Sleeps (ChWrite i) (drop m addr), [ChRead i])).
Proof.
  revert p q. induction addr as [|b addr IH]; intros p q Hq m; simpl.
  - rewrite take_nil, app_nil_r. done.
  - rewrite (full_iff _ _ Hq). pose proof (h_fit _ _ Hq) as Hf.
    case_bool_decide as E.
    + assert (m = O) as -> by (unfold m; lia). rewrite take_0, drop_0, app_nil_r. simpl.
      destruct (_ || _); done.
    + assert (m = S (Z.to_nat (PIPESIZE - zlen (q ++ [b])))) as Em.
      { unfold m. rewrite zlen_app. unfold zlen at 3. simpl. lia. }
      specialize (IH _ _ (put_byte_holds p q b Hq ltac:(lia))). simpl in IH.
      destruct (pipewrite i killed n addr (put_byte b p)) as [[r cs] p'].
      rewrite Em. simpl. rewrite <- app_assoc in IH. exact IH.
Qed.

Lemma piperead_copy_holds n p q :
  holds p q →
  let '(bs, p') := piperead_copy n p in
  bs = take n q ∧ holds p' (drop n q) ∧
  p_readopen p' = p_readopen p ∧ p_writeopen p' = p_writeopen p.
Proof.
  revert p q. induction n as [|n IH]; intros p q Hq; cbn [piperead_copy].
  - by rewrite take_0, drop_0.
  - rewrite (empty_iff _ _ Hq). case_bool_decide as E; [by subst q|].
    destruct q as [|b q]; [done|]. destruct (get_byte_holds _ _ _ Hq) as [Eb Hq'].
    destruct (get_byte p) as [b' p1] eqn:Eg. simpl in Eb, Hq'. subst b'.
    specialize (IH _ _ Hq'). destruct (piperead_copy n p1) as [bs p'].
    destruct IH as (-> & ? & E1 & E2). rewrite E1, E2. unfold get_byte in Eg. injection Eg as _ <-. done.
Qed.

(** ** A writer and a reader

    Each process runs its system call until it returns or sleeps; which of
    the two runs next is up to the scheduler.  The writer has one message to
    write, the reader reads for ever, asking for any number of bytes. *)
Record stream := mkStream {
  st_pipe : pipe;
  st_rest : list Z;      (** not queued yet *)
  st_wsleep : bool;
  st_got : list Z;       (** read so far *)
  st_rsleep : bool;
}.

Definition woken (c : chan) (cs : list chan) (asleep : bool) : bool :=
  asleep && negb (bool_decide (c ∈ cs)).

Definition write_step (i : nat) (n : Z) (s : stream) : stream :=
  let '(r, cs, p) := pipewrite i false n (st_rest s) (st_pipe s) in
  let '(rest, asleep) :=
    match r with Done _ _ => ([], false) | Sleeps _ rest => (rest, true) end in
  mkStream p rest asleep (st_got s) (woken (ChRead i) cs (st_rsleep s)).

Definition read_step (i : nat) (n : Z) (s : stream) : stream :=
  let '(r, cs, p) := piperead i false n (st_pipe s) in
  let '(bs, asleep) :=
    match r with Done _ bs => (bs, false) | Sleeps _ _ => ([], true) end in
  mkStream p (st_rest s) (woken (ChWrite i) cs (st_wsleep s)) (st_got s ++ bs) asleep.

Inductive stream_step (i : nat) (len : Z) : stream → stream → Prop :=
| step_write s :
    st_wsleep s = false → st_rest s ≠ [] → stream_step i len s (write_step i len s)
| step_read s n :
    st_rsleep s = false → 0 < n → stream_step i len s (read_step i n s).

(** The invariant: nothing is lost, duplicated or reordered, a writer sleeps
    only on a full pipe and a reader only on an empty one. *)
Record stream_ok (msg : list Z) (s : stream) (q : list Z) : Prop := {
  so_holds : holds (st_pipe s) q;
  so_msg : st_got s ++ q ++ st_rest s = msg;
  so_open : p_readopen (st_pipe s) = 1 ∧ p_writeopen (st_pipe s) = 1;
  so_wsleep : st_wsleep s = true → zlen q = PIPESIZE;
  so_rsleep : st_rsleep s = true → q = [];
}.

(** What is left to do. *)
Definition work (s : stream) (q : list Z) : nat :=
  (3 * (2 * length (st_rest s) + length q) +
   (if st_wsleep s then 0 else 1) + (if st_rsleep s then 0 else 1))%nat.

Lemma write_step_ok i len msg s q :
  stream_ok msg s q → st_wsleep s = false → st_rest s ≠ [] →
  ∃ q', stream_ok msg (write_step i len s) q' ∧ (work (write_step i len s) q' < work s q)%nat.
Proof.
  intros [Hh Hm [Ho1 Ho2] Hw Hr] Hs Hne. unfold write_step.
  pose proof (pipewrite_holds i false len (st_rest s) _ _ Hh) as H. simpl in H.
  set (m := Z.to_nat (PIPESIZE - zlen q)) in *.
  pose proof (h_fit _ _ Hh) as Hf. pose proof (zlen_nonneg q) as Hz.
  destruct (pipewrite i false len (st_rest s) (st_pipe s)) as [[r cs] p'].
  destruct H as (Hh' & E1 & E2 & E). exists (q ++ take m (st_rest s)).
  assert (0 < length (st_rest s))%nat as Hpos by (destruct (st_rest s); [done|simpl; lia]).
  destruct (Nat.leb_spec (length (st_rest s)) m) as [Hle|Hgt].
  - injection E as -> ->. rewrite take_ge in * by lia.
    split; [split; simpl|].
    + done.
    + by rewrite app_nil_r.
    + by rewrite E1, E2.
    + done.
    + unfold woken. by rewrite bool_decide_true, andb_false_r by list_in.
    + unfold work. simpl. rewrite length_app, Hs. unfold woken.
      rewrite bool_decide_true, andb_false_r by list_in. destruct (st_rsleep s); lia.
  - rewrite Ho1 in E. simpl in E. injection E as -> ->.
    split; [split; simpl|].
    + done.
    + by rewrite <- app_assoc, take_drop.
    + by rewrite E1, E2.
    + intros _. rewrite zlen_app. unfold zlen at 2. rewrite length_take. unfold m in *. lia.
    + unfold woken. by rewrite bool_decide_true, andb_false_r by list_in.
    + unfold work. simpl. rewrite length_app, length_drop, length_take, Hs. unfold woken.
      rewrite bool_decide_true, andb_false_r by list_in.
      destruct (st_rsleep s) eqn:Er; [|lia].
      assert (m = 512%nat) by (unfold m; by rewrite (Hr eq_refl)). lia.
Qed.

Lemma read_step_ok i n msg s q :
  stream_ok msg s q → st_rsleep s = false → 0 < n →
  ∃ q', stream_ok msg (read_step i n s) q' ∧ (work (read_step i n s) q' < work s q)%nat.
Proof.
  intros [Hh Hm [Ho1 Ho2] Hw Hr] Hs Hn. unfold read_step, piperead.
  rewrite (empty_iff _ _ Hh), Ho2. simpl. rewrite andb_true_r.
  case_bool_decide as Hq.
  - exists q. split; [split; simpl; try done|].
    + by rewrite app_nil_r.
    + unfold woken. rewrite bool_decide_false by apply not_elem_of_nil. rewrite andb_true_r. done.
    + unfold work. simpl. rewrite Hs. unfold woken. rewrite bool_decide_false by apply not_elem_of_nil.
      rewrite andb_true_r. destruct (st_wsleep s); lia.
  - pose proof (piperead_copy_holds (Z.to_nat n) _ _ Hh) as H.
    destruct (piperead_copy (Z.to_nat n) (st_pipe s)) as [bs p']. destruct H as (-> & Hh' & E1 & E2).
    exists (drop (Z.to_nat n) q). split; [split; simpl|].
    + done.
    + rewrite <- Hm, <- app_assoc. f_equal. by rewrite app_assoc, take_drop.
    + by rewrite E1, E2.
    + unfold woken. by rewrite bool_decide_true, andb_false_r by list_in.
    + done.
    + unfold work. simpl. rewrite length_drop, Hs. unfold woken.
      rewrite bool_decide_true, andb_false_r by list_in.
      destruct q as [|b q]; [done|]. simpl. destruct (st_wsleep s); lia.
Qed.

(** Two processes on a new pipe, with [msg] to transfer. *)
Definition stream_start (p : pipe) (msg : list Z) : stream :=
  mkStream (fresh_pipe p) msg false [] false.

Lemma stream_start_ok p msg : zlen (p_data p) = PIPESIZE → stream_ok msg (stream_start p msg) [].
Proof.
  intros Hd. split; simpl; try done. split; simpl; try done. intros i Hi. unfold zlen in Hi. simpl in Hi. lia.
Qed.

Lemma stream_step_ok i len msg s s' q :
  stream_ok msg s q → stream_step i len s s' →
  ∃ q', stream_ok msg s' q' ∧ (work s' q' < work s q)%nat.
Proof.
  intros Hok Hs. revert Hok. destruct Hs; intros Hok; [by eapply write_step_ok|by eapply read_step_ok].
Qed.

Lemma stream_reach_ok i len msg s s' q :
  stream_ok msg s q → rtc (stream_step i len) s s' → ∃ q', stream_ok msg s' q'.
Proof.
  intros Hok H. revert q Hok. induction H as [|s s1 s' Hs _ IH]; intros q Hok; [by exists q|].
  destruct (stream_step_ok _ _ _ _ _ _ Hok Hs) as (q1 & Hok1 & _). by eapply IH.
Qed.

Lemma stream_sn i len msg s q : stream_ok msg s q → sn (stream_step i len) s.
Proof.
  remember (work s q) as n eqn:En. revert s q En.
  induction n as [n IH] using lt_wf_ind. intros s q -> Hok. constructor. intros s' Hs.
  destruct (stream_step_ok _ _ _ _ _ _ Hok Hs) as (q' & Hok' & Hlt). by eapply IH.
Qed.

Lemma stream_stuck i len msg s q :
  stream_ok msg s q → nf (stream_step i len) s → st_got s = msg ∧ st_rest s = [].
Proof.
  intros [Hh Hm _ Hw Hr] Hnf.
  destruct (st_rsleep s) eqn:Er; [|by destruct Hnf; eexists; apply (step_read i len s 1)].
  specialize (Hr eq_refl). subst q.
  destruct (st_wsleep s) eqn:Ew; [by specialize (Hw eq_refl)|].
  destruct (decide (st_rest s = [])) as [E|E].
  - rewrite E in Hm. simpl in Hm. by rewrite app_nil_r in Hm.
  - destruct Hnf. eexists. by apply step_write.
Qed.

(** Whatever the scheduler does, what the reader has got at any moment is
    the beginning of what the writer wrote, byte for byte: the circular buffer
    neither loses, repeats nor reorders bytes, also when its counters wrap. *)
Theorem pipe_stream_prefix i len p msg s :
  zlen (p_data p) = PIPESIZE →
  rtc (stream_step i len) (stream_start p msg) s →
  ∃ q, st_got s ++ q ++ st_rest s = msg ∧ holds (st_pipe s) q.
Proof.
  intros Hd H. destruct (stream_reach_ok _ _ _ _ _ _ (stream_start_ok p msg Hd) H) as [q []].
  by exists q.
Qed.




(** A pipe whose counters are about to wrap. *)
Definition wrapping_pipe : pipe :=
  mkPipe (fill_block 7) PUSED 4294967295 0 1 1.

Lemma wrapping_holds : holds wrapping_pipe [7].
Proof.
  split; simpl; try done. intros i Hi. assert (i = 0) as -> by (unfold zlen in Hi; simpl in Hi; lia). done.
Qed.

(** pipewrite(), up to its next sleep, appends to the queue as much of its
    data as fits and wakes the reader; it returns [n] when everything fitted,
    -1 when the pipe is full and nobody reads any more or the process is being
    killed, and sleeps on the pipe otherwise. *)
Theorem pipewrite_queue i killed n addr p q :
  holds p q →
  let m := Z.to_nat (PIPESIZE - zlen q) in
  let '(r, cs, p') := pipewrite i killed n addr p in
  holds p' (q ++ take m addr) ∧
  p_readopen p' = p_readopen p ∧ p_writeopen p' = p_writeopen p ∧
  (r, cs) =
    (if (length addr <=? m)%nat then (Done n [], [ChRead i])
     else if (p_readopen p =? 0) || killed then (Done (-1) [], [])
     else (Sleeps (ChWrite i) (drop m addr), [ChRead i])).
Proof. apply pipewrite_holds. Qed.


(** piperead() takes the oldest bytes of the queue, at most [n], and wakes
    the writer; it sleeps only on an empty pipe with a writer, and returns 0,
    end of file, on an empty pipe without one. *)
Theorem piperead_queue i n p q :
  holds p q → 0 ≤ n →
  let '(r, cs, p') := piperead i false n p in
  holds p' (match r with Done _ _ => drop (Z.to_nat n) q | Sleeps _ _ => q end) ∧
  (r, cs) =
    (if bool_decide (q = []) && negb (p_writeopen p =? 0) then (Sleeps (ChRead i) [], [])
     else (Done (Z.min n (zlen q)) (take (Z.to_nat n) q), [ChWrite i])).
Proof.
  intros Hq Hn. unfold piperead. rewrite (empty_iff _ _ Hq).
  destruct (bool_decide (q = []) && negb (p_writeopen p =? 0)); [done|].
  pose proof (piperead_copy_holds (Z.to_nat n) _ _ Hq) as H.
  destruct (piperead_copy (Z.to_nat n) p) as [bs p']. destruct H as (-> & Hh & _).
  split; [done|]. do 2 f_equal. unfold zlen. rewrite length_take. lia.
Qed.

