(* ===== verification/Proc.v ===== *)
(** * Processes (kern/proc.c)

    The process table, the states of a process, and the part of each routine
    that works on the table alone.  [struct proc *] is an index into
    [ptable.proc].  The saved registers ([struct context]) and the address
    space copy are the business of the assembler code and are not kept. *)

From S2P Require Import Prelude Bytes Params Kstring Pipe.

Inductive procstate := UNUSED | EMBRYO | SLEEPING | RUNNABLE | RUNNING | ZOMBIE.

#[export] Instance procstate_eq_dec : EqDecision procstate.
Proof. solve_decision. Defined.

Record proc := mkProc {
  pr_basereg : Z;
  pr_nframes : Z;
  pr_state : procstate;
  pr_pid : Z;
  pr_parent : option nat;
  pr_curbrk : Z;
  pr_bssend : Z;
  pr_chan : option chan;
  pr_killed : Z;
  pr_exitstatus : Z;
  pr_ofile : list (option nat);
  pr_cwd : option nat;
  pr_name : list Z;
}.

#[export] Instance proc_inhabited : Inhabited proc :=
  populate (mkProc 0 0 UNUSED 0 None 0 0 None 0 0 (replicate NOFILE None) None (zeros 16)).

Definition set_state (v : procstate) (p : proc) : proc :=
  mkProc (pr_basereg p) (pr_nframes p) v (pr_pid p) (pr_parent p) (pr_curbrk p) (pr_bssend p)
    (pr_chan p) (pr_killed p) (pr_exitstatus p) (pr_ofile p) (pr_cwd p) (pr_name p).
Definition set_pid (v : Z) (p : proc) : proc :=
  mkProc (pr_basereg p) (pr_nframes p) (pr_state p) v (pr_parent p) (pr_curbrk p) (pr_bssend p)
    (pr_chan p) (pr_killed p) (pr_exitstatus p) (pr_ofile p) (pr_cwd p) (pr_name p).
Definition set_parent (v : option nat) (p : proc) : proc :=
  mkProc (pr_basereg p) (pr_nframes p) (pr_state p) (pr_pid p) v (pr_curbrk p) (pr_bssend p)
    (pr_chan p) (pr_killed p) (pr_exitstatus p) (pr_ofile p) (pr_cwd p) (pr_name p).
Definition set_curbrk (v : Z) (p : proc) : proc :=
  mkProc (pr_basereg p) (pr_nframes p) (pr_state p) (pr_pid p) (pr_parent p) v (pr_bssend p)
    (pr_chan p) (pr_killed p) (pr_exitstatus p) (pr_ofile p) (pr_cwd p) (pr_name p).
Definition set_chan (v : option chan) (p : proc) : proc :=
  mkProc (pr_basereg p) (pr_nframes p) (pr_state p) (pr_pid p) (pr_parent p) (pr_curbrk p) (pr_bssend p)
    v (pr_killed p) (pr_exitstatus p) (pr_ofile p) (pr_cwd p) (pr_name p).
Definition set_killed (v : Z) (p : proc) : proc :=
  mkProc (pr_basereg p) (pr_nframes p) (pr_state p) (pr_pid p) (pr_parent p) (pr_curbrk p) (pr_bssend p)
    (pr_chan p) v (pr_exitstatus p) (pr_ofile p) (pr_cwd p) (pr_name p).
Definition set_exitstatus (v : Z) (p : proc) : proc :=
  mkProc (pr_basereg p) (pr_nframes p) (pr_state p) (pr_pid p) (pr_parent p) (pr_curbrk p) (pr_bssend p)
    (pr_chan p) (pr_killed p) v (pr_ofile p) (pr_cwd p) (pr_name p).
Definition set_ofile (v : list (option nat)) (p : proc) : proc :=
  mkProc (pr_basereg p) (pr_nframes p) (pr_state p) (pr_pid p) (pr_parent p) (pr_curbrk p) (pr_bssend p)
    (pr_chan p) (pr_killed p) (pr_exitstatus p) v (pr_cwd p) (pr_name p).
Definition set_cwd (v : option nat) (p : proc) : proc :=
  mkProc (pr_basereg p) (pr_nframes p) (pr_state p) (pr_pid p) (pr_parent p) (pr_curbrk p) (pr_bssend p)
    (pr_chan p) (pr_killed p) (pr_exitstatus p) (pr_ofile p) v (pr_name p).
Definition set_pname (v : list Z) (p : proc) : proc :=
  mkProc (pr_basereg p) (pr_nframes p) (pr_state p) (pr_pid p) (pr_parent p) (pr_curbrk p) (pr_bssend p)
    (pr_chan p) (pr_killed p) (pr_exitstatus p) (pr_ofile p) (pr_cwd p) v.

(** [ptable], [nextpid], [initproc] and [proc], the process that is running. *)
Record ptable := mkPt {
  pt_procs : list proc;
  pt_nextpid : Z;
  pt_init : option nat;
  pt_cur : option nat;
}.

Definition upd_proc (p : nat) (f : proc → proc) (t : ptable) : ptable :=
  mkPt (alter f p (pt_procs t)) (pt_nextpid t) (pt_init t) (pt_cur t).
Definition map_procs (f : proc → proc) (t : ptable) : ptable :=
  mkPt (map f (pt_procs t)) (pt_nextpid t) (pt_init t) (pt_cur t).
Definition getp (t : ptable) (p : nat) : proc := pt_procs t !!! p.

Definition pinit (t : ptable) : ptable :=
  mkPt (map (set_state UNUSED) (pt_procs t)) (pt_nextpid t) (pt_init t) None.

(** The first entry that satisfies [f]. *)
Fixpoint first_proc (f : proc → bool) (l : list proc) (i : nat) : option nat :=
  match l with
  | [] => None
  | p :: l => if f p then Some i else first_proc f l (S i)
  end.

Definition is_state (st : procstate) (p : proc) : bool := bool_decide (pr_state p = st).

Definition allocproc : M ptable (option nat) := λ t,
  match first_proc (is_state UNUSED) (pt_procs t) 0 with
  | None => Ret None t
  | Some p =>
      let t' := upd_proc p (λ x, set_pid (pt_nextpid t) (set_state EMBRYO x)) t in
      Ret (Some p) (mkPt (pt_procs t') (s32 (pt_nextpid t + 1)) (pt_init t') (pt_cur t'))
  end.

(** scheduler(): the first runnable process becomes the current one.  With no
    runnable process the search repeats, on a table that nothing changes. *)
Definition scheduler : M ptable unit := λ t,
  match first_proc (is_state RUNNABLE) (pt_procs t) 0 with
  | None => Spin
  | Some p =>
      let t' := upd_proc p (set_state RUNNING) t in
      Ret tt (mkPt (pt_procs t') (pt_nextpid t') (pt_init t') (Some p))
  end.

(** sleep(), up to the switch to another process. *)
Definition sleep (c : chan) : M ptable unit :=
  let* cur := gets pt_cur in
  match cur with
  | None => panic "sleep"
  | Some p =>
      modify (upd_proc p (λ x, set_state SLEEPING (set_chan (Some c) x))) ;;
      scheduler
  end.

(** What sleep() does when the process runs again. *)
Definition after_sleep (p : nat) : M ptable unit := modify (upd_proc p (set_chan None)).

Definition wakeup1 (c : chan) (t : ptable) : ptable :=
  map_procs (λ p, if is_state SLEEPING p && bool_decide (pr_chan p = Some c)
                  then set_state RUNNABLE p else p) t.
Definition wakeup (c : chan) : M ptable unit := modify (wakeup1 c).

(** [wakeup1(q)] for a process pointer that may be NULL: no sleeper has a NULL channel. *)
Definition wakeup_proc (q : option nat) (t : ptable) : ptable :=
  match q with Some q => wakeup1 (ChProc q) t | None => t end.

Definition kill (pid : Z) : M ptable Z := λ t,
  match first_proc (λ p, pr_pid p =? pid) (pt_procs t) 0 with
  | None => Ret (-1) t
  | Some p =>
      Ret 0 (upd_proc p (λ x, let x := set_killed 1 x in
                              if is_state SLEEPING x then set_state RUNNABLE x else x) t)
  end.

(** The loop of sys_exit() that passes the children of [me] to init. *)
Fixpoint reparent (me : nat) (n : nat) (i : nat) (t : ptable) : ptable :=
  match n with
  | O => t
  | S n =>
      reparent me n (S i)
        (if bool_decide (pr_parent (getp t i) = Some me) then
           let t := upd_proc i (set_parent (pt_init t)) t in
           if is_state ZOMBIE (getp t i) then wakeup_proc (pt_init t) t else t
         else t)
  end.

(** sys_exit() after the files are closed and the frames freed. *)
Definition exit_tail (me : nat) : M ptable unit :=
  modify (upd_proc me (set_cwd None)) ;;
  modify (λ t, wakeup_proc (pr_parent (getp t me)) t) ;;
  modify (reparent me NPROC 0) ;;
  modify (upd_proc me (set_state ZOMBIE)) ;;
  scheduler.

(** One scan of sys_wait(): a zombie child reaped ([Some] of its pid and
    status), no children ([None] of -1), or children but none dead. *)
Inductive wait_result :=
| Reaped (pid status : Z)
| NoKids
| MustSleep.

Definition reap (p : nat) : M ptable wait_result :=
  let* x := gets (λ t, getp t p) in
  modify (upd_proc p (λ x, set_killed 0
    (set_pname (splice (pr_name x) 0 [0]) (set_parent None (set_pid 0 (set_state UNUSED x)))))) ;;
  ret (Reaped (pr_pid x) (Z.lor (pr_exitstatus x) (if pr_killed x =? 0 then 0 else 256))).

Definition is_child (me : nat) (p : proc) : bool := bool_decide (pr_parent p = Some me).

Definition wait_scan (me : nat) : M ptable wait_result :=
  let* t := gets (λ t, t) in
  match first_proc (λ p, is_child me p && is_state ZOMBIE p) (pt_procs t) 0 with
  | Some p => reap p
  | None =>
      match first_proc (is_child me) (pt_procs t) 0 with
      | Some _ => ret MustSleep
      | None => ret NoKids
      end
  end.

(** The table part of sys_fork(): the new entry for child [np] of [me]. *)
Definition fork_entry (me np : nat) (basereg : Z) (t : ptable) : ptable :=
  let par := getp t me in
  upd_proc np (λ x,
    mkProc basereg (pr_nframes par) RUNNABLE (pr_pid x) (Some me) (pr_curbrk x) (pr_bssend x)
      None 0 (pr_exitstatus x) (pr_ofile x) (pr_cwd x)
      (safestrcpy (pr_name x) (pr_name par) 16)) t.
