(* ===== verification/ProcSpec.v ===== *)
(** * The process table: invariant and wait/exit protocol

    [pstep] is one uninterrupted piece of kernel code of the current process,
    as far as it changes the process table: the kernel is not preemptive, so a
    process keeps the processor until it sleeps or exits.  [pt_ok] is the
    invariant of all tables reached from the one that userinit() leaves. *)

From S2P Require Import Prelude Bytes Params Kstring Pipe Proc.

Abbreviation procs_at t i := (pt_procs t !! i).

(** A process that is neither gone nor being made. *)
Definition live (p : proc) : Prop :=
  pr_state p = SLEEPING ∨ pr_state p = RUNNABLE ∨ pr_state p = RUNNING.

(** Process [r] is asleep in sys_wait(). *)
Definition in_wait (r : nat) (p : proc) : Prop :=
  pr_state p = SLEEPING ∧ pr_chan p = Some (ChProc r).

(** The shape of the process tree, and what a process asleep in wait() may rely on. *)
Record tree_ok (t : ptable) : Prop := {
  ok_len : length (pt_procs t) = NPROC;
  ok_init : ∃ r p, pt_init t = Some r ∧ procs_at t r = Some p ∧ live p ∧ pr_parent p = None;
  ok_parent : ∀ i p r, procs_at t i = Some p → pr_parent p = Some r →
    r ≠ i ∧ pr_state p ≠ UNUSED ∧ ∃ q, procs_at t r = Some q ∧ live q;
  ok_orphan : ∀ i p, procs_at t i = Some p → pr_state p ≠ UNUSED →
    pt_init t = Some i ∨ pr_parent p ≠ None;
  ok_chan : ∀ i p q, procs_at t i = Some p → in_wait q p → q = i;
  ok_kids : ∀ r p, procs_at t r = Some p → in_wait r p →
    (∃ i c, procs_at t i = Some c ∧ pr_parent c = Some r);
  ok_awake : ∀ r p i c, procs_at t r = Some p → in_wait r p →
    procs_at t i = Some c → pr_parent c = Some r → pr_state c ≠ ZOMBIE;
}.

Definition none_running (t : ptable) : Prop :=
  ∀ i p, procs_at t i = Some p → pr_state p ≠ RUNNING.

(** The current process runs, alone.  (Before its first sleep init is current but marked runnable.) *)
Definition cur_ok (t : ptable) : Prop :=
  ∃ me p, pt_cur t = Some me ∧ procs_at t me = Some p ∧
    (pr_state p = RUNNING ∨ (pr_state p = RUNNABLE ∧ pt_init t = Some me)) ∧
    ∀ i q, procs_at t i = Some q → pr_state q = RUNNING → i = me.

Definition pt_ok (t : ptable) : Prop := tree_ok t ∧ cur_ok t.

(** The channels that pipewrite() and piperead() sleep on. *)
Definition is_pipe_chan (c : chan) : Prop := ∀ r, c ≠ ChProc r.

(** The current process, past the end of its last sleep(). *)
Definition ready (t : ptable) (me : nat) : Prop :=
  pt_cur t = Some me ∧ pr_chan (getp t me) = None.

Inductive pstep : ptable → ptable → Prop :=
| st_resume t t' me :
    pt_cur t = Some me → after_sleep me t = Ret tt t' → pstep t t'
| st_data t me f :
    ready t me →
    (∀ p, pr_state (f p) = pr_state p ∧ pr_parent (f p) = pr_parent p ∧ pr_chan (f p) = pr_chan p) →
    pstep t (upd_proc me f t)
| st_fork t t1 me np basereg :
    ready t me → allocproc t = Ret (Some np) t1 → pstep t (fork_entry me np basereg t1)
| st_fork_nomem t t1 me np :
    ready t me → allocproc t = Ret (Some np) t1 → pstep t (upd_proc np (set_state UNUSED) t1)
| st_wakeup t t' me c :
    ready t me → wakeup c t = Ret tt t' → pstep t t'
| st_kill t t' me pid r :
    ready t me → kill pid t = Ret r t' → pstep t t'
| st_sleep t t' me c :
    ready t me → is_pipe_chan c → sleep c t = Ret tt t' → pstep t t'
| st_exit t t' me :
    ready t me → pt_init t ≠ Some me → exit_tail me t = Ret tt t' → pstep t t'
| st_reap t t' me pid status :
    ready t me → wait_scan me t = Ret (Reaped pid status) t' → pstep t t'
| st_wait t t1 t' me :
    ready t me → wait_scan me t = Ret MustSleep t1 → sleep (ChProc me) t1 = Ret tt t' →
    pstep t t'.

(** The table that pinit() and userinit() make of the zeroed one; [cwd] is the root directory. *)
Definition boot_table (cwd : option nat) : ptable :=
  let t := pinit (mkPt (replicate NPROC inhabitant) 1 None None) in
  match allocproc t with
  | Ret (Some p) t =>
      upd_proc p (λ x, set_state RUNNABLE (set_cwd cwd x))
        (mkPt (pt_procs t) (pt_nextpid t) (Some p) (Some p))
  | _ => t
  end.

Definition reachable (t : ptable) : Prop := ∃ cwd, rtc pstep (boot_table cwd) t.

(** ** Pointwise views of the operations *)

Lemma upd_proc_at f k t i :
  procs_at (upd_proc k f t) i = (if decide (i = k) then f else id) <$> procs_at t i.
Proof.
  unfold upd_proc. simpl. rewrite list_lookup_alter.
  destruct (decide (k = i)) as [->|?], (decide (i = _)) as [?|?]; try congruence.
  by destruct (_ !! i).
Qed.

Lemma getp_at t i p : procs_at t i = Some p → getp t i = p.
Proof. intros E. unfold getp. by apply list_lookup_total_correct. Qed.

(** What wakeup1 does to one entry. *)
Definition wake (c : chan) (p : proc) : proc :=
  if is_state SLEEPING p && bool_decide (pr_chan p = Some c) then set_state RUNNABLE p else p.

Lemma wakeup1_at c t i : procs_at (wakeup1 c t) i = wake c <$> procs_at t i.
Proof. unfold wakeup1, map_procs. simpl. by rewrite list_lookup_fmap. Qed.

Lemma is_state_true st p : is_state st p = true ↔ pr_state p = st.
Proof. unfold is_state. by rewrite bool_decide_eq_true. Qed.

Lemma wake_cases c p :
  (wake c p = set_state RUNNABLE p ∧ pr_state p = SLEEPING ∧ pr_chan p = Some c) ∨
  (wake c p = p ∧ ¬ (pr_state p = SLEEPING ∧ pr_chan p = Some c)).
Proof.
  unfold wake. destruct (is_state SLEEPING p) eqn:E1; simpl.
  - apply is_state_true in E1. destruct (bool_decide_reflect (pr_chan p = Some c)); naive_solver.
  - right. split; [done|]. intros [H _]. apply is_state_true in H. congruence.
Qed.

Lemma wake_keeps c p :
  pr_parent (wake c p) = pr_parent p ∧ pr_chan (wake c p) = pr_chan p ∧
  (pr_state (wake c p) = pr_state p ∨ (pr_state p = SLEEPING ∧ pr_state (wake c p) = RUNNABLE)).
Proof. destruct (wake_cases c p) as [(->&?&?)|(->&?)]; naive_solver. Qed.

Lemma first_proc_spec f l i k :
  first_proc f l i = Some k →
  ∃ p, (i ≤ k)%nat ∧ l !! (k - i)%nat = Some p ∧ f p = true ∧
    ∀ j q, (j < k - i)%nat → l !! j = Some q → f q = false.
Proof.
  revert i. induction l as [|p l IH]; intros i; simpl; [done|].
  destruct (f p) eqn:Ef.
  - intros [= <-]. exists p. replace (i - i)%nat with O by lia. naive_solver lia.
  - intros H. destruct (IH _ H) as (q & Hle & Hl & Hf & Hmin).
    exists q. replace (k - i)%nat with (S (k - S i)) by lia.
    split_and!; [lia|done|done|]. intros [|j] q' Hj; simpl; [by intros [= <-]|].
    apply Hmin. lia.
Qed.

Lemma first_proc_none f l i : first_proc f l i = None → ∀ j q, l !! j = Some q → f q = false.
Proof.
  revert i. induction l as [|p l IH]; intros i; simpl; [done|].
  destruct (f p) eqn:Ef; [done|]. intros H [|j] q; simpl; [by intros [= <-]|]. by apply (IH (S i)).
Qed.

Lemma first_proc_at f t k :
  first_proc f (pt_procs t) 0 = Some k → ∃ p, procs_at t k = Some p ∧ f p = true.
Proof.
  intros H. destruct (first_proc_spec _ _ _ _ H) as (p & _ & Hl & Hf & _).
  rewrite Nat.sub_0_r in Hl. eauto.
Qed.

Lemma live_not_unused p : live p → pr_state p ≠ UNUSED.
Proof. unfold live. naive_solver congruence. Qed.

(** ** Steps that keep the tree *)

(** A change of one entry that neither ends a process nor puts it to sleep in wait(). *)
Definition calm_entry (p p' : proc) : Prop :=
  pr_parent p' = pr_parent p ∧
  (pr_state p' = pr_state p ∨ (live p ∧ live p')) ∧
  (∀ q, in_wait q p' → in_wait q p).

Definition calm (t t' : ptable) : Prop :=
  pt_init t' = pt_init t ∧ Forall2 calm_entry (pt_procs t) (pt_procs t').

Lemma calm_entry_refl p : calm_entry p p.
Proof. split_and!; auto. Qed.

Lemma calm_entry_live p p' : calm_entry p p' → live p ↔ live p'.
Proof. intros (_ & [E|[? ?]] & _); [unfold live; by rewrite E|tauto]. Qed.

Lemma calm_entry_state p p' st :
  calm_entry p p' → (st = UNUSED ∨ st = ZOMBIE) → pr_state p' = st ↔ pr_state p = st.
Proof.
  intros (_ & [->|[L L']] & _) Hst; [done|]. unfold live in *.
  destruct Hst; subst; naive_solver congruence.
Qed.

Lemma tree_ok_calm t t' : calm t t' → tree_ok t → tree_ok t'.
Proof.
  intros [Hi HF] [len init par zom ch kids awake].
  assert (∀ i p', procs_at t' i = Some p' → ∃ p, procs_at t i = Some p ∧ calm_entry p p') as B
    by (intros; by eapply Forall2_lookup_r).
  assert (∀ i p, procs_at t i = Some p → ∃ p', procs_at t' i = Some p' ∧ calm_entry p p') as A
    by (intros; by eapply Forall2_lookup_l).
  split.
  - by rewrite <- (Forall2_length _ _ _ HF).
  - destruct init as (r & p & Hr & Hp & L & N). destruct (A _ _ Hp) as (p' & Hp' & C).
    exists r, p'. rewrite Hi. split_and!; [done|done|by apply (calm_entry_live _ _ C)|].
    by rewrite (proj1 C).
  - intros i p' r Hp' Hr. destruct (B _ _ Hp') as (p & Hp & C). rewrite (proj1 C) in Hr.
    destruct (par _ _ _ Hp Hr) as (Hne & Hu & q & Hq & L). destruct (A _ _ Hq) as (q' & Hq' & Cq).
    split; [done|]. split; [rewrite (calm_entry_state _ _ _ C); auto|].
    exists q'. split; [done|]. by apply (calm_entry_live _ _ Cq).
  - intros i p' Hp' Hz. destruct (B _ _ Hp') as (p & Hp & C). rewrite (proj1 C), Hi.
    apply (zom i p Hp). contradict Hz. by apply (calm_entry_state _ _ UNUSED C); auto.
  - intros i p' q Hp' W. destruct (B _ _ Hp') as (p & Hp & C). apply (ch i p q Hp), C, W.
  - intros r p' Hp' W. destruct (B _ _ Hp') as (p & Hp & C).
    destruct (kids r p Hp) as (i & c & Hc & Hr); [by apply C|].
    destruct (A _ _ Hc) as (c' & Hc' & Cc). exists i, c'. by rewrite (proj1 Cc).
  - intros r p' i c' Hp' W Hc' Hr Hz. destruct (B _ _ Hp') as (p & Hp & C), (B _ _ Hc') as (c & Hc & Cc).
    rewrite (proj1 Cc) in Hr. apply (awake r p i c Hp); [by apply C|done|done|].
    by apply (calm_entry_state _ _ ZOMBIE Cc); auto.
Qed.

Lemma calm_upd k f t :
  (∀ p, procs_at t k = Some p → calm_entry p (f p)) → calm t (upd_proc k f t).
Proof.
  intros Hf. split; [done|]. apply Forall2_same_length_lookup_2.
  { unfold upd_proc. simpl. by rewrite length_alter. }
  intros i p p' Hp Hp'. rewrite upd_proc_at, Hp in Hp'. simpl in Hp'. injection Hp' as <-.
  case_decide; subst; [by apply Hf|apply calm_entry_refl].
Qed.

Lemma calm_map f t : (∀ p, calm_entry p (f p)) → calm t (map_procs f t).
Proof.
  intros Hf. split; [done|]. unfold map_procs. simpl. induction (pt_procs t); simpl; auto.
Qed.

Lemma calm_wake c p : calm_entry p (wake c p).
Proof.
  destruct (wake_cases c p) as [(->&?&?)|(->&?)]; [|apply calm_entry_refl].
  split_and!; [done|right; unfold live; simpl; tauto|]. by intros q [??].
Qed.

Lemma calm_wakeup1 c t : calm t (wakeup1 c t).
Proof. apply calm_map, calm_wake. Qed.

Lemma calm_set_state st p : live p → st = RUNNABLE ∨ st = RUNNING → calm_entry p (set_state st p).
Proof.
  intros L Hst. split_and!; [done|right; split; [done|unfold live; simpl; tauto]|].
  intros q [E _]. simpl in E. destruct Hst; congruence.
Qed.

(** ** The scheduler *)

Lemma scheduler_ok t t' :
  scheduler t = Ret tt t' → none_running t → tree_ok t → pt_ok t'.
Proof.
  unfold scheduler. destruct (first_proc _ _ _) as [k|] eqn:E; [|done]. intros [= <-] Hn Ht.
  destruct (first_proc_at _ _ _ E) as (p & Hp & Hs%is_state_true).
  assert (live p) by (unfold live; tauto).
  split.
  - eapply tree_ok_calm; [|exact Ht].
    apply (calm_upd k (set_state RUNNING) t). intros q Hq. rewrite Hp in Hq. injection Hq as <-.
    apply calm_set_state; auto.
  - exists k, (set_state RUNNING p). split_and!; [done| |by left|].
    + change (procs_at (upd_proc k (set_state RUNNING) t) k = Some (set_state RUNNING p)).
      rewrite upd_proc_at, Hp. by rewrite decide_True.
    + intros i q Hq Hr. change (procs_at (upd_proc k (set_state RUNNING) t) i = Some q) in Hq.
      rewrite upd_proc_at in Hq. destruct (procs_at t i) as [x|] eqn:Ex; [|done].
      simpl in Hq. injection Hq as <-. case_decide; [done|]. by destruct (Hn i x Ex).
Qed.

(** Who runs, when the current process stops running. *)
Lemma none_running_upd t me f :
  cur_ok t → pt_cur t = Some me → (∀ p, pr_state (f p) ≠ RUNNING) → none_running (upd_proc me f t).
Proof.
  intros (me' & p & Hc & Hp & _ & Honly) Hc' Hf i q Hq. rewrite Hc in Hc'. injection Hc' as ->.
  rewrite upd_proc_at in Hq. destruct (procs_at t i) as [x|] eqn:Ex; [|done].
  simpl in Hq. injection Hq as <-. case_decide; [apply Hf|]. intros Hr.
  by specialize (Honly _ _ Ex Hr).
Qed.

Lemma cur_live t me : cur_ok t → pt_cur t = Some me → ∃ p, procs_at t me = Some p ∧ live p ∧
  (pr_state p = RUNNING ∨ pr_state p = RUNNABLE).
Proof.
  intros (me' & p & Hc & Hp & Hs & _) Hc'. rewrite Hc in Hc'. injection Hc' as ->.
  exists p. unfold live. naive_solver.
Qed.

(** A calm step of the current process that wakes nobody into RUNNING. *)
Lemma cur_ok_calm t t' :
  pt_cur t' = pt_cur t → pt_init t' = pt_init t →
  (∀ i p', procs_at t' i = Some p' → ∃ p, procs_at t i = Some p ∧
     (pr_state p' = pr_state p ∨ (pr_state p' ≠ RUNNING ∧ pt_cur t ≠ Some i))) →
  (∀ i p, procs_at t i = Some p → is_Some (procs_at t' i)) →
  cur_ok t → cur_ok t'.
Proof.
  intros Ec Ei Hp' Hsome (me & p & Hc & Hp & Hs & Honly).
  destruct (Hsome _ _ Hp) as [p' Ep']. destruct (Hp' _ _ Ep') as (p0 & Hp0 & [E|[_ Hne]]); [|done].
  rewrite Hp in Hp0. injection Hp0 as <-.
  exists me, p'. rewrite Ec, Ei, E. split_and!; [done|done|done|].
  intros i q Hq Hr. destruct (Hp' _ _ Hq) as (q0 & Hq0 & [Eq|[Hn _]]); [|done].
  apply (Honly i q0 Hq0). congruence.
Qed.

(** ** Each step keeps the invariant *)

Lemma upd_proc_some t k f i p' :
  procs_at (upd_proc k f t) i = Some p' →
  ∃ p, procs_at t i = Some p ∧ ((i = k ∧ p' = f p) ∨ (i ≠ k ∧ p' = p)).
Proof.
  rewrite upd_proc_at. destruct (procs_at t i) as [p|]; [|done]. simpl.
  intros [= <-]. exists p. case_decide; auto.
Qed.

Lemma upd_proc_is_some t k f i p : procs_at t i = Some p → is_Some (procs_at (upd_proc k f t) i).
Proof. intros E. rewrite upd_proc_at, E. by eexists. Qed.

(** A change of one entry that keeps its state. *)
Lemma pt_ok_upd t k f :
  (∀ p, procs_at t k = Some p → calm_entry p (f p) ∧
    (pr_state (f p) = pr_state p ∨ (pr_state (f p) ≠ RUNNING ∧ pt_cur t ≠ Some k))) →
  pt_ok t → pt_ok (upd_proc k f t).
Proof.
  intros Hf [Ht Hc]. split.
  - eapply tree_ok_calm; [|exact Ht]. apply calm_upd. intros. by apply Hf.
  - apply (cur_ok_calm t); [done|done| | |exact Hc].
    + intros i p' Hp'. destruct (upd_proc_some _ _ _ _ _ Hp') as (p & Hp & [[-> ->]|[Hne ->]]); [|eauto].
      exists p. split; [done|]. by apply Hf.
    + intros. by eapply upd_proc_is_some.
Qed.

Lemma cur_not_sleeping t i p :
  cur_ok t → procs_at t i = Some p → pr_state p = SLEEPING → pt_cur t ≠ Some i.
Proof.
  intros Hc Hp Hs Hi. destruct (cur_live t i Hc Hi) as (p0 & Hp0 & _ & H). rewrite Hp in Hp0.
  injection Hp0 as <-. destruct H; congruence.
Qed.

Lemma wakeup1_ok c t : pt_ok t → pt_ok (wakeup1 c t).
Proof.
  intros [Ht Hc]. split; [eapply tree_ok_calm; [apply calm_wakeup1|done]|].
  apply (cur_ok_calm t); [done|done| | |exact Hc].
  - intros i p'. rewrite wakeup1_at. destruct (procs_at t i) as [p|] eqn:E; [|done].
    intros [= <-]. exists p. split; [done|].
    destruct (wake_cases c p) as [(->&Hs&_)|(->&_)]; [|auto]. right.
    split; [done|]. by eapply cur_not_sleeping.
  - intros i p E. rewrite wakeup1_at, E. by eexists.
Qed.

Lemma kill_ok pid t r t' : kill pid t = Ret r t' → pt_ok t → pt_ok t'.
Proof.
  unfold kill. destruct (first_proc _ _ _) as [k|] eqn:E; [|by intros [= _ <-]].
  intros [= _ <-] Hok. apply pt_ok_upd; [|done]. intros p Hp.
  destruct (is_state SLEEPING (set_killed 1 p)) eqn:Es.
  - apply is_state_true in Es. simpl in Es. split.
    + apply (calm_set_state RUNNABLE (set_killed 1 p)); [left; done|by left].
    + right. split; [done|]. eapply cur_not_sleeping; [apply Hok|done|done].
  - split; [|by left]. split_and!; [done|by left|]. by intros q [??].
Qed.

Lemma allocproc_at t np t1 :
  allocproc t = Ret (Some np) t1 →
  ∃ x, procs_at t np = Some x ∧ pr_state x = UNUSED ∧ pt_cur t1 = pt_cur t ∧ pt_init t1 = pt_init t ∧
    pt_procs t1 = pt_procs (upd_proc np (λ x, set_pid (pt_nextpid t) (set_state EMBRYO x)) t).
Proof.
  unfold allocproc. destruct (first_proc _ _ _) as [k|] eqn:E; [|done]. intros [= <- <-].
  destruct (first_proc_at _ _ _ E) as (x & Hx & Hs%is_state_true). by exists x.
Qed.

Lemma list_alter_twice {A} (f g : A → A) i (l : list A) :
  alter f i (alter g i l) = alter (λ x, f (g x)) i l.
Proof.
  apply list_eq. intros j. rewrite !list_lookup_alter. case_decide; subst; [|done]. rewrite decide_True by done.
  by destruct (l !! j).
Qed.

(** The table after a fork that failed for lack of memory differs in pids only. *)
Lemma fork_nomem_ok t np t1 :
  allocproc t = Ret (Some np) t1 → pt_ok t → pt_ok (upd_proc np (set_state UNUSED) t1).
Proof.
  intros H Hok. destruct (allocproc_at _ _ _ H) as (x & Hx & Hs & Ec & Ei & Ep).
  assert (pt_ok (upd_proc np (λ x, set_pid (pt_nextpid t) (set_state UNUSED x)) t)) as [Hok1 Hok2].
  { apply pt_ok_upd; [|done]. intros p Hp. rewrite Hx in Hp. injection Hp as <-. simpl.
    split; [|by left]. split_and!; [done|by left|]. by intros q [??]. }
  assert (pt_procs (upd_proc np (set_state UNUSED) t1) =
    pt_procs (upd_proc np (λ x, set_pid (pt_nextpid t) (set_state UNUSED x)) t)) as E.
  { simpl. rewrite Ep. simpl. by rewrite list_alter_twice. }
  split.
  - destruct Hok1. split; rewrite ?E; try done; change (pt_init (upd_proc np (set_state UNUSED) t1)) with (pt_init t1); by rewrite Ei.
  - destruct Hok2 as (me & p & ?). exists me, p. rewrite E. simpl. by rewrite Ec, Ei.
Qed.

Lemma sleep_eq c t me :
  pt_cur t = Some me →
  sleep c t = scheduler (upd_proc me (λ x, set_state SLEEPING (set_chan (Some c) x)) t).
Proof. intros E. unfold sleep, bind, gets. by rewrite E. Qed.

Lemma sleep_pipe_ok t t' me c :
  pt_cur t = Some me → is_pipe_chan c → sleep c t = Ret tt t' → pt_ok t → pt_ok t'.
Proof.
  intros Hme Hc. rewrite (sleep_eq _ _ _ Hme). intros Hsch [Ht Hcur].
  destruct (cur_live _ _ Hcur Hme) as (p & Hp & L & _).
  eapply scheduler_ok; [exact Hsch|by apply none_running_upd|].
  eapply tree_ok_calm; [|exact Ht]. apply calm_upd. intros q Hq. rewrite Hp in Hq. injection Hq as <-.
  split_and!; [done|right; split; [done|by left]|]. intros q [_ [= E]]. by destruct (Hc q).
Qed.

(** Going to sleep in wait(): there are children and none of them is dead. *)
Lemma sleep_wait_ok t t' me :
  pt_cur t = Some me → sleep (ChProc me) t = Ret tt t' →
  (∃ i c, procs_at t i = Some c ∧ pr_parent c = Some me) →
  (∀ i c, procs_at t i = Some c → pr_parent c = Some me → pr_state c ≠ ZOMBIE) →
  pt_ok t → pt_ok t'.
Proof.
  intros Hme. rewrite (sleep_eq _ _ _ Hme). intros Hsch Hkid Hdead [Ht Hcur].
  destruct (cur_live _ _ Hcur Hme) as (p & Hp & L & _).
  eapply scheduler_ok; [exact Hsch|by apply none_running_upd|].
  set (f := λ x, set_state SLEEPING (set_chan (Some (ChProc me)) x)).
  assert (∀ i c, procs_at t i = Some c → ∃ c', procs_at (upd_proc me f t) i = Some c' ∧
    pr_parent c' = pr_parent c ∧ (live c → live c')) as A.
  { intros i c Hc. rewrite upd_proc_at, Hc. case_decide; eexists; (split; [done|]); simpl; [|done].
    split; [done|]. by left. }
  assert (∀ i c, procs_at (upd_proc me f t) i = Some c → pr_state c = ZOMBIE →
    procs_at t i = Some c) as Z.
  { intros i c Hc. destruct (upd_proc_some _ _ _ _ _ Hc) as (c0 & H0 & [[-> ->]|[_ ->]]); done. }
  destruct Ht as [len init par zom ch kids awake]. split.
  - unfold upd_proc. simpl. by rewrite length_alter.
  - destruct init as (r & q & Hr & Hq & Lq & N). destruct (A _ _ Hq) as (q' & Hq' & E & L').
    exists r, q'. rewrite E. auto.
  - intros i c r Hc Hr. destruct (upd_proc_some _ _ _ _ _ Hc) as (c0 & H0 & Hcase).
    assert (pr_parent c0 = Some r) as Hr0 by (destruct Hcase as [[_ ->]|[_ ->]]; done).
    destruct (par _ _ _ H0 Hr0) as (Hne & Hu & q & Hq & Lq). destruct (A _ _ Hq) as (q' & Hq' & _ & L').
    split; [done|]. split; [|eauto]. by destruct Hcase as [[_ ->]|[_ ->]].
  - intros i c Hc Hz. destruct (upd_proc_some _ _ _ _ _ Hc) as (c0 & H0 & [[-> ->]|[_ ->]]).
    + apply (zom me c0 H0). rewrite Hp in H0. injection H0 as <-. unfold live in L. naive_solver congruence.
    + by apply (zom i c0).
  - intros i c q Hc W. destruct (upd_proc_some _ _ _ _ _ Hc) as (c0 & H0 & [[-> ->]|[_ ->]]).
    + destruct W as [_ W]. simpl in W. congruence.
    + by apply (ch i c0).
  - intros r c Hc W. destruct (upd_proc_some _ _ _ _ _ Hc) as (c0 & H0 & Hcase).
    assert (∃ i c, procs_at t i = Some c ∧ pr_parent c = Some r) as (i & k & Hk & Hr).
    { destruct Hcase as [[-> ->]|[_ ->]]; [done|]. by apply (kids r c0). }
    destruct (A _ _ Hk) as (k' & Hk' & E & _). exists i, k'. by rewrite E.
  - intros r c i k Hc W Hk Hr Hz. specialize (Z _ _ Hk Hz).
    destruct (upd_proc_some _ _ _ _ _ Hc) as (c0 & H0 & [[-> ->]|[_ ->]]).
    + by apply (Hdead i k).
    + by apply (awake r c0 i k).
Qed.

(** A new child of the live process [me] in the unused entry [np]. *)
Lemma tree_ok_fork t t' me np p x y :
  tree_ok t → pt_init t' = pt_init t → length (pt_procs t') = length (pt_procs t) →
  (∀ i, i ≠ np → procs_at t' i = procs_at t i) →
  procs_at t me = Some p → live p → pr_state p ≠ SLEEPING →
  procs_at t np = Some x → pr_state x = UNUSED →
  procs_at t' np = Some y → pr_state y = RUNNABLE → pr_parent y = Some me → pr_chan y = None →
  tree_ok t'.
Proof.
  intros [len init par zom ch kids awake] Ei El Hsame Hp Lp Hns Hx Ux Hy Sy Py Cy.
  assert (∀ i q, procs_at t i = Some q → live q → procs_at t' i = Some q) as Keep.
  { intros i q Hq Lq. rewrite Hsame; [done|]. intros ->. rewrite Hx in Hq. injection Hq as <-.
    unfold live in Lq. naive_solver congruence. }
  assert (∀ i q, procs_at t' i = Some q → (i = np ∧ q = y) ∨ (i ≠ np ∧ procs_at t i = Some q)) as Old.
  { intros i q Hq. destruct (decide (i = np)) as [->|Hne]; [left; by simplify_eq|].
    rewrite Hsame in Hq; auto. }
  split.
  - by rewrite El.
  - destruct init as (r & q & Hr & Hq & Lq & N). exists r, q. rewrite Ei. auto.
  - intros i q r Hq Hr. destruct (Old _ _ Hq) as [[-> ->]|[Hne Hq0]].
    + rewrite Py in Hr. injection Hr as <-. split; [|split; [congruence|eauto]].
      intros ->. rewrite Hp in Hx. injection Hx as <-. unfold live in Lp. naive_solver congruence.
    + destruct (par _ _ _ Hq0 Hr) as (? & Hu & k & Hk & Lk). eauto 10.
  - intros i q Hq Hz. rewrite Ei.
    destruct (Old _ _ Hq) as [[-> ->]|[_ Hq0]]; [right; congruence|]. by apply (zom i).
  - intros i q r Hq W. destruct (Old _ _ Hq) as [[-> ->]|[_ Hq0]]; [destruct W; congruence|].
    by apply (ch i q).
  - intros r q Hq W. destruct (Old _ _ Hq) as [[-> ->]|[_ Hq0]]; [destruct W; congruence|].
    destruct (kids _ _ Hq0 W) as (i & c & Hc & Hr). exists i, c. split; [|done].
    rewrite Hsame; [done|]. intros ->. destruct (par _ _ _ Hc Hr) as (_ & Hu & _). congruence.
  - intros r q i c Hq W Hc Hr. destruct (Old _ _ Hq) as [[-> ->]|[_ Hq0]]; [destruct W; congruence|].
    destruct (Old _ _ Hc) as [[-> ->]|[_ Hc0]]; [congruence|]. by apply (awake r q i c).
Qed.

Lemma fork_ok t np t1 me basereg :
  ready t me → allocproc t = Ret (Some np) t1 → pt_ok t → pt_ok (fork_entry me np basereg t1).
Proof.
  intros [Hme _] Ha [Ht Hc]. destruct (allocproc_at _ _ _ Ha) as (x & Hx & Hs & Ec & Ei & Ep).
  destruct (cur_live _ _ Hc Hme) as (p & Hp & Lp & Sp).
  unfold fork_entry. set (f := λ x0, mkProc _ _ RUNNABLE _ _ _ _ _ _ _ _ _ _).
  assert (∀ i, i ≠ np → procs_at (upd_proc np f t1) i = procs_at t i) as Hsame.
  { intros i Hne. rewrite upd_proc_at, Ep, upd_proc_at, !(decide_False (P := i = np)) by done.
    by destruct (procs_at t i). }
  assert (procs_at (upd_proc np f t1) np =
    Some (f (set_pid (pt_nextpid t) (set_state EMBRYO x)))) as Hnp.
  { by rewrite upd_proc_at, Ep, upd_proc_at, !(decide_True (P := np = np)), Hx by done. }
  assert (length (pt_procs (upd_proc np f t1)) = length (pt_procs t)) as El.
  { simpl. rewrite length_alter, Ep. simpl. by rewrite length_alter. }
  split.
  - eapply (tree_ok_fork t (upd_proc np f t1) me np p x _ Ht Ei El Hsame Hp Lp); [naive_solver congruence|done|done|exact Hnp|done..].
  - apply (cur_ok_calm t); [exact Ec|exact Ei| | |done].
    + intros i q Hq. destruct (decide (i = np)) as [->|Hne].
      * exists x. split; [done|]. right. rewrite Hnp in Hq. injection Hq as <-. split; [done|].
        rewrite Hme. intros [= ->]. rewrite Hx in Hp. injection Hp as <-. naive_solver congruence.
      * rewrite Hsame in Hq by done. eauto.
    + intros i q Hq. destruct (decide (i = np)) as [->|Hne]; [by rewrite Hnp|].
      rewrite Hsame by done. by eexists.
Qed.

(** The entry of a reaped child of [me], which is not asleep. *)
Lemma tree_ok_reap t me k f p x :
  tree_ok t → procs_at t me = Some p → pr_state p ≠ SLEEPING →
  procs_at t k = Some x → pr_state x = ZOMBIE → pr_parent x = Some me →
  (∀ q, pr_state (f q) = UNUSED ∧ pr_parent (f q) = None) →
  tree_ok (upd_proc k f t).
Proof.
  intros [len init par zom ch kids awake] Hp Hns Hx Zx Px Hf.
  assert (∀ i q, procs_at t i = Some q → pr_state q ≠ ZOMBIE →
    procs_at (upd_proc k f t) i = Some q) as Keep.
  { intros i q Hq Nz. rewrite upd_proc_at, Hq, decide_False; [done|]. intros ->. congruence. }
  assert (∀ q, live q → pr_state q ≠ ZOMBIE) as LZ by (unfold live; naive_solver congruence).
  assert (∀ i q, procs_at (upd_proc k f t) i = Some q → pr_parent q ≠ None ∨ pr_state q ≠ UNUSED →
    i ≠ k ∧ procs_at t i = Some q) as Old.
  { intros i q Hq Hn. destruct (upd_proc_some _ _ _ _ _ Hq) as (q0 & H0 & [[-> ->]|[? ->]]); [|done].
    destruct (Hf q0). naive_solver congruence. }
  split.
  - simpl. by rewrite length_alter.
  - destruct init as (r & q & Hr & Hq & Lq & N). exists r, q.
    split_and!; [done|by apply Keep; [|apply LZ]|done|done].
  - intros i q r Hq Hr. destruct (Old i q Hq) as [_ Hq0]; [left; congruence|].
    destruct (par _ _ _ Hq0 Hr) as (Hne & Hu & c & Hc & Lc).
    split; [done|]. split; [done|]. exists c. split; [|done]. by apply Keep; [|apply LZ].
  - intros i q Hq Hz. destruct (Old i q Hq) as [_ Hq0]; [by right|]. by apply (zom i).
  - intros i q r Hq W. destruct (Old i q Hq) as [_ Hq0]; [right; destruct W; congruence|]. by apply (ch i q).
  - intros r q Hq W. destruct (Old r q Hq) as [_ Hq0]; [right; destruct W; congruence|].
    destruct (kids _ _ Hq0 W) as (i & c & Hc & Hr). exists i, c. split; [|done].
    apply Keep; [done|]. by apply (awake r q i c).
  - intros r q i c Hq W Hc Hr. destruct (Old r q Hq) as [_ Hq0]; [right; destruct W; congruence|].
    destruct (Old i c Hc) as [_ Hc0]; [left; congruence|]. by apply (awake r q i c).
Qed.

Lemma is_child_true me p : is_child me p = true ↔ pr_parent p = Some me.
Proof. unfold is_child. by rewrite bool_decide_eq_true. Qed.

(** What a scan of wait() means. *)
Lemma wait_scan_cases me t r t' :
  wait_scan me t = Ret r t' →
  match r with
  | Reaped pid status => ∃ k x, procs_at t k = Some x ∧ pr_parent x = Some me ∧ pr_state x = ZOMBIE ∧
      pid = pr_pid x ∧ status = Z.lor (pr_exitstatus x) (if pr_killed x =? 0 then 0 else 256) ∧
      reap k t = Ret r t'
  | MustSleep => t' = t ∧ (∃ i c, procs_at t i = Some c ∧ pr_parent c = Some me) ∧
      ∀ i c, procs_at t i = Some c → pr_parent c = Some me → pr_state c ≠ ZOMBIE
  | NoKids => t' = t ∧ ∀ i c, procs_at t i = Some c → pr_parent c ≠ Some me
  end.
Proof.
  unfold wait_scan. unfold bind at 1, gets at 1. cbv beta.
  destruct (first_proc (λ p, is_child me p && _) _ _) as [k|] eqn:E1.
  - destruct (first_proc_at _ _ _ E1) as (x & Hx & [H1%is_child_true H2%is_state_true]%andb_prop).
    intros H. pose proof H as H'. unfold reap, bind, gets, modify, ret in H. injection H as <- <-.
    exists k, x. rewrite (getp_at _ _ _ Hx) in *. auto 10.
  - pose proof (first_proc_none _ _ _ E1) as N1.
    destruct (first_proc (is_child me) _ _) as [k|] eqn:E2; intros [= <- <-]; (split; [done|]).
    + destruct (first_proc_at _ _ _ E2) as (x & Hx & H1%is_child_true). split; [eauto|].
      intros i c Hc Hpar%is_child_true Hz%is_state_true. specialize (N1 _ _ Hc). cbv beta in N1. by rewrite Hpar, Hz in N1.
    + intros i c Hc Hpar%is_child_true. pose proof (first_proc_none _ _ _ E2 _ _ Hc). congruence.
Qed.

Lemma reap_ok t me k x r t' :
  ready t me → procs_at t k = Some x → pr_parent x = Some me → pr_state x = ZOMBIE →
  reap k t = Ret r t' → pt_ok t → pt_ok t'.
Proof.
  intros [Hme _] Hx Px Zx Hr [Ht Hc]. unfold reap, bind, gets, modify, ret in Hr. injection Hr as _ <-.
  destruct (cur_live _ _ Hc Hme) as (p & Hp & _ & Sp). split.
  - eapply tree_ok_reap; [done|exact Hp|naive_solver congruence|exact Hx|done|done|done].
  - apply (cur_ok_calm t); [done|done| | |done].
    + intros i q Hq. destruct (upd_proc_some _ _ _ _ _ Hq) as (q0 & H0 & [[-> ->]|[_ ->]]); [|eauto].
      exists q0. split; [done|]. right. split; [done|]. rewrite Hme. intros [= ->].
      rewrite Hx in Hp. injection Hp as <-. naive_solver congruence.
    + intros. by eapply upd_proc_is_some.
Qed.

(** ** exit() *)

(** The table that sys_exit() hands to the scheduler. *)
Definition exit_mark (me : nat) (t : ptable) : ptable :=
  let t := upd_proc me (set_cwd None) t in
  let t := wakeup_proc (pr_parent (getp t me)) t in
  upd_proc me (set_state ZOMBIE) (reparent me NPROC 0 t).

Lemma exit_tail_mark me t : exit_tail me t = scheduler (exit_mark me t).
Proof. done. Qed.

Definition adopt (me init : nat) (p : proc) : proc :=
  if is_child me p then set_parent (Some init) p else p.
Definition wake_if (b : bool) (c : chan) (p : proc) : proc := if b then wake c p else p.
Definition dead_child (me : nat) (p : proc) : bool := is_child me p && is_state ZOMBIE p.

Lemma wake_wake_if b c p : wake_if b c (wake c p) = wake c p.
Proof.
  destruct b; [|done]. simpl. destruct (wake_cases c p) as [(->&?&?)|(->&?)].
  - by destruct (wake_cases c (set_state RUNNABLE p)) as [(_&?&_)|(->&?)].
  - by destruct (wake_cases c p) as [(?&?)|(->&?)].
Qed.

Lemma adopt_wake me init c p : adopt me init (wake c p) = wake c (adopt me init p).
Proof.
  unfold adopt, is_child. destruct (wake_keeps c p) as (->&_&_).
  case_bool_decide; [|done]. unfold wake, is_state. simpl. by destruct (_ && _).
Qed.

Lemma alter_mid {A} (f : A → A) (l1 l2 : list A) x :
  alter f (length l1) (l1 ++ x :: l2) = l1 ++ f x :: l2.
Proof. induction l1; simpl; [done|]. by f_equal. Qed.

Lemma reparent_procs me init : ∀ n l1 l2 t,
  length l2 = n → pt_init t = Some init → pt_procs t = l1 ++ l2 →
  pt_procs (reparent me n (length l1) t) =
    map (wake_if (existsb (dead_child me) l2) (ChProc init)) (l1 ++ map (adopt me init) l2) ∧
  pt_init (reparent me n (length l1) t) = Some init ∧
  pt_cur (reparent me n (length l1) t) = pt_cur t.
Proof.
  induction n as [|n IH]; intros l1 l2 t El Hi Ep.
  { apply length_zero_iff_nil in El as ->. simpl. rewrite map_id. auto. }
  destruct l2 as [|p l2]; [done|]. injection El as El. simpl.
  assert (getp t (length l1) = p) as ->.
  { apply getp_at. rewrite Ep. by apply list_lookup_middle. }
  change (bool_decide (pr_parent p = Some me)) with (is_child me p).
  unfold dead_child at 1, adopt at 1. destruct (is_child me p) eqn:Ec; simpl.
  - rewrite Hi. set (t1 := upd_proc (length l1) (set_parent (Some init)) t).
    assert (pt_procs t1 = l1 ++ set_parent (Some init) p :: l2) as Ep1
      by (unfold t1; simpl; by rewrite Ep, alter_mid).
    assert (getp t1 (length l1) = set_parent (Some init) p) as ->
      by (apply getp_at; rewrite Ep1; by apply list_lookup_middle).
    change (is_state ZOMBIE (set_parent (Some init) p)) with (is_state ZOMBIE p).
    destruct (is_state ZOMBIE p); simpl.
    + set (w := wake (ChProc init)).
      destruct (IH (map w (l1 ++ [set_parent (Some init) p])) (map w l2)
        (wakeup1 (ChProc init) t1)) as (E1 & E2 & E3).
      * by rewrite length_map.
      * done.
      * change (map w (pt_procs t1) = map w (l1 ++ [set_parent (Some init) p]) ++ map w l2).
        by rewrite Ep1, <- map_app, <- app_assoc.
      * rewrite length_map, length_app in E1, E2, E3. simpl in E1, E2, E3.
        rewrite Nat.add_1_r in E1, E2, E3. split; [|done]. rewrite E1.
        clear. rewrite !map_app. simpl. rewrite !map_map, <- app_assoc. simpl. f_equal.
        -- apply map_ext. intros x. apply wake_wake_if.
        -- f_equal; [apply wake_wake_if|]. apply map_ext. intros x. subst w. rewrite adopt_wake.
           apply wake_wake_if.
    + destruct (IH (l1 ++ [set_parent (Some init) p]) l2 t1) as (E1 & E2 & E3); [done|done| |].
      * by rewrite Ep1, <- app_assoc.
      * rewrite length_app, Nat.add_1_r in E1, E2, E3. split; [|done].
        rewrite E1, <- app_assoc. done.
  - destruct (IH (l1 ++ [p]) l2 t) as (E1 & E2 & E3); [done|done| |].
    + by rewrite Ep, <- app_assoc.
    + rewrite length_app, Nat.add_1_r in E1, E2, E3. split; [|done]. rewrite E1, <- app_assoc. done.
Qed.

(** What becomes of the entry [p] at [i]; [b]: some child of [me] is dead already. *)
Definition exit_entry (me init : nat) (b : bool) (i : nat) (p : proc) : proc :=
  let p := wake_if b (ChProc init) (adopt me init p) in
  if decide (i = me) then set_state ZOMBIE p else p.

Lemma exit_entry_facts me init b i p :
  let p' := exit_entry me init b i p in
  pr_parent p' = (if is_child me p then Some init else pr_parent p) ∧
  (i = me → pr_state p' = ZOMBIE) ∧
  (i ≠ me → pr_state p' = pr_state p ∨ (live p ∧ pr_state p' = RUNNABLE)) ∧
  (∀ q, in_wait q p' → i ≠ me ∧ in_wait q p ∧ (b = true → q ≠ init)).
Proof.
  assert (∀ p, pr_state (adopt me init p) = pr_state p ∧ pr_chan (adopt me init p) = pr_chan p ∧
    pr_parent (adopt me init p) = (if is_child me p then Some init else pr_parent p)) as Ha.
  { intros x. unfold adopt. by destruct (is_child me x). }
  destruct (Ha p) as (As & Ac & Ap). unfold exit_entry, wake_if. unfold live.
  destruct b; [destruct (wake_cases (ChProc init) (adopt me init p)) as [(->&Hs&Hw)|(->&Hn)]|];
    unfold in_wait in *; rewrite ?As, ?Ac in *;
    (split_and!; [case_decide; simpl; try done; by rewrite ?As, ?Ac, ?Ap
                 |intros ->; by rewrite decide_True by done
                 |intros; rewrite decide_False by done; simpl; rewrite ?As; tauto
                 |intros q; case_decide; simpl; rewrite ?As, ?Ac; intros [? ?]; split_and!; try done; intros; congruence || (intros ->; tauto)]).
Qed.

Lemma tree_ok_exit t t' me init p :
  tree_ok t → pt_init t = Some init → init ≠ me → procs_at t me = Some p → live p →
  (∀ r q, pr_parent p = Some r → procs_at t r = Some q → ¬ in_wait r q) →
  pt_init t' = Some init →
  (∀ i, procs_at t' i =
    exit_entry me init (existsb (dead_child me) (pt_procs t)) i <$> procs_at t i) →
  length (pt_procs t') = length (pt_procs t) →
  tree_ok t'.
Proof.
  set (b := existsb _ _).
  intros [len ini par orp ch kids awake] Hi Hne Hp Lp Hquiet Hi' Hat El.
  assert (∀ i c, procs_at t i = Some c → live c → i ≠ me →
    ∃ c', procs_at t' i = Some c' ∧ live c') as KeepLive.
  { intros i c Hc Lc Hn. rewrite Hat, Hc. eexists. split; [done|].
    destruct (exit_entry_facts me init b i c) as (_ & _ & H & _). destruct (H Hn) as [E|[_ E]];
      unfold live in *; rewrite E; tauto. }
  assert (∀ i c', procs_at t' i = Some c' →
    ∃ c, procs_at t i = Some c ∧ c' = exit_entry me init b i c) as Old.
  { intros i c'. rewrite Hat. destruct (procs_at t i) as [c|]; [|done]. intros [= <-]. eauto. }
  destruct ini as (r0 & pi & Hr0 & Hpi & Li & Ni). rewrite Hi in Hr0. injection Hr0 as <-.
  assert (is_child me pi = false) as Nci.
  { destruct (is_child me pi) eqn:E; [|done]. apply is_child_true in E. congruence. }
  split.
  - by rewrite El.
  - destruct (KeepLive _ _ Hpi Li Hne) as (pi' & Hpi' & Li'). exists init, pi'.
    split_and!; [done|done|done|]. destruct (Old _ _ Hpi') as (c & Hc & ->). simplify_eq.
    destruct (exit_entry_facts me init b init pi) as (-> & _). by rewrite Nci.
  - intros i c' r Hc' Hr. destruct (Old _ _ Hc') as (c & Hc & ->).
    destruct (exit_entry_facts me init b i c) as (Ep & E1 & E2 & _).
    assert (pr_state c ≠ UNUSED → pr_state (exit_entry me init b i c) ≠ UNUSED) as NU.
    { intros Hu. destruct (decide (i = me)) as [->|Hn]; [by rewrite E1|].
      destruct (E2 Hn) as [->|[_ ->]]; done. }
    rewrite Ep in Hr. destruct (is_child me c) eqn:Eme.
    + injection Hr as <-. apply is_child_true in Eme. destruct (par _ _ _ Hc Eme) as (_ & Hu & _).
      split; [intros <-; simplify_eq|]. split; [auto|]. by apply (KeepLive init pi).
    + destruct (par _ _ _ Hc Hr) as (Hri & Hu & q & Hq & Lq). split; [done|]. split; [auto|].
      apply (KeepLive r q); [done..|]. intros ->. apply is_child_true in Hr. congruence.
  - intros i c' Hc' Hu. rewrite Hi'. destruct (Old _ _ Hc') as (c & Hc & ->).
    destruct (exit_entry_facts me init b i c) as (-> & E1 & E2 & _).
    destruct (is_child me c); [by right|]. rewrite <- Hi. apply (orp i c Hc). intros Eu.
    destruct (decide (i = me)) as [->|Hn].
    + simplify_eq. unfold live in Lp. naive_solver congruence.
    + destruct (E2 Hn) as [E|[L _]]; [congruence|]. unfold live in L. naive_solver congruence.
  - intros i c' q Hc' W. destruct (Old _ _ Hc') as (c & Hc & ->).
    apply exit_entry_facts in W as (_ & W & _). by apply (ch i c).
  - intros r c' Hc' W. destruct (Old _ _ Hc') as (c & Hc & ->).
    apply exit_entry_facts in W as (Hrm & W & _). destruct (kids _ _ Hc W) as (i & k & Hk & Hr).
    exists i, (exit_entry me init b i k). rewrite Hat, Hk. split; [done|].
    destruct (exit_entry_facts me init b i k) as (-> & _). destruct (is_child me k) eqn:E; [|done].
    apply is_child_true in E. congruence.
  - intros r c' i k' Hc' W Hk' Hr Hz. destruct (Old _ _ Hc') as (c & Hc & ->), (Old _ _ Hk') as (k & Hk & ->).
    apply exit_entry_facts in W as (Hrm & W & Hb).
    destruct (exit_entry_facts me init b i k) as (Ep & E1 & E2 & _). rewrite Ep in Hr.
    assert (i ≠ me → pr_state k = ZOMBIE) as Zk.
    { intros Hn. destruct (E2 Hn) as [E|[_ E]]; congruence. }
    destruct (is_child me k) eqn:Ek.
    + injection Hr as <-. pose proof Ek as Ek'. apply is_child_true in Ek'.
      destruct (par _ _ _ Hk Ek') as (Hmi & _).
      apply Hb; [|done]. unfold b. apply existsb_exists. exists k. split.
      * by apply list_elem_of_In, (list_elem_of_lookup_2 _ i).
      * unfold dead_child. rewrite Ek. simpl. apply is_state_true, Zk. congruence.
    + destruct (decide (i = me)) as [->|Hn].
      * simplify_eq. by apply (Hquiet r c).
      * by apply (awake r c i k); auto.
Qed.

Lemma pt_init_wakeup_proc q t : pt_init (wakeup_proc q t) = pt_init t.
Proof. by destruct q. Qed.
Lemma pt_cur_wakeup_proc q t : pt_cur (wakeup_proc q t) = pt_cur t.
Proof. by destruct q. Qed.
Lemma calm_wakeup_proc q t : calm t (wakeup_proc q t).
Proof.
  destruct q as [r|]; [apply calm_wakeup1|]. split; [done|]. apply Forall2_same_length_lookup_2; [done|].
  simpl. intros i x y Hx Hy. rewrite Hx in Hy. injection Hy as <-. apply calm_entry_refl.
Qed.

Lemma wakeup_proc_some r t : wakeup_proc (Some r) t = wakeup1 (ChProc r) t.
Proof. done. Qed.

(** After wakeup1(parent) the parent is not asleep in wait(). *)
Lemma wakeup_proc_awake r t q : procs_at (wakeup_proc (Some r) t) r = Some q → ¬ in_wait r q.
Proof.
  rewrite wakeup_proc_some, wakeup1_at. destruct (procs_at t r) as [x|]; [|done]. intros [= <-] [E1 E2].
  destruct (wake_cases (ChProc r) x) as [(E&_&_)|(E&Hn)]; rewrite E in E1, E2; [done|by apply Hn].
Qed.

(** The table handed to the scheduler, entry by entry. *)
(** After the table of exit() no process runs: the one that did is dead. *)
Lemma none_running_exit t te me init b r :
  cur_ok t → pt_cur t = Some me →
  (∀ i, procs_at te i = exit_entry me init b i <$> procs_at (wakeup_proc r (upd_proc me (set_cwd None) t)) i) →
  none_running te.
Proof.
  intros Hc Hme Hat i q Hq. rewrite Hat in Hq. set (t1 := upd_proc me (set_cwd None) t) in *.
  destruct (procs_at (wakeup_proc r t1) i) as [x|] eqn:Ex; [|done].
  injection Hq as <-. destruct (exit_entry_facts me init b i x) as (_ & E1 & E3 & _).
  destruct (decide (i = me)) as [->|Hn]; [by rewrite E1|]. destruct (E3 Hn) as [E|[_ E]]; rewrite E; [|done]. intros Hr.
  destruct (calm_wakeup_proc r t1) as [_ HF]. destruct (Forall2_lookup_r _ _ _ _ _ HF Ex) as (x1 & Hx1 & _).
  assert (∃ x0, procs_at t i = Some x0 ∧ pr_state x0 = RUNNING) as (x0 & Hx0 & Hr0).
  { unfold t1 in *. destruct (upd_proc_some _ _ _ _ _ Hx1) as (x0 & Hx0 & Hcase).
    exists x0. split; [done|]. destruct Hcase as [[-> _]|[_ ->]]; [done|].
    destruct r as [r|]; [|unfold wakeup_proc in Ex; congruence].
    rewrite wakeup_proc_some, wakeup1_at, Hx1 in Ex. injection Ex as <-.
    destruct (wake_keeps (ChProc r) x0) as (_ & _ & [<-|[_ E']]); [done|congruence]. }
  destruct Hc as (me' & pm & Hm & _ & _ & Honly). specialize (Honly _ _ Hx0 Hr0). congruence.
Qed.

Lemma exit_table_ok t te n me :
  pt_ok t → pt_cur t = Some me → pt_init t ≠ Some me → n = length (pt_procs t) →
  te = (let t := upd_proc me (set_cwd None) t in
        let t := wakeup_proc (pr_parent (getp t me)) t in
        upd_proc me (set_state ZOMBIE) (reparent me n 0 t)) →
  tree_ok te ∧ none_running te ∧
  ∃ p, procs_at t me = Some p ∧ pr_parent p ≠ None ∧
    ∃ q, procs_at te me = Some q ∧ pr_state q = ZOMBIE ∧ pr_parent q = pr_parent p ∧
      pr_pid q = pr_pid p ∧ pr_exitstatus q = pr_exitstatus p ∧ pr_killed q = pr_killed p.
Proof.
  cbv zeta. intros [Ht Hc] Hme Hninit Hlen Em. destruct (cur_live _ _ Hc Hme) as (p & Hp & Lp & Sp).
  destruct (ok_init _ Ht) as (init & pi & Hi & Hpi & _).
  set (t1 := upd_proc me (set_cwd None) t).
  assert (procs_at t1 me = Some (set_cwd None p)) as Hp1
    by (unfold t1; by rewrite upd_proc_at, Hp, decide_True).
  set (t2 := wakeup_proc (pr_parent p) t1).
  assert (calm t1 t2) as C2 by apply calm_wakeup_proc.
  assert (tree_ok t2) as Ht2.
  { eapply tree_ok_calm; [exact C2|]. eapply tree_ok_calm; [|exact Ht]. apply calm_upd.
    intros q _. split_and!; [done|by left|]. by intros ? [??]. }
  assert (∃ p2, procs_at t2 me = Some p2 ∧ p2 = set_cwd None p) as (p2 & Hp2 & E2).
  { unfold t2. destruct (pr_parent p) as [r|]; [|eauto]. rewrite wakeup_proc_some, wakeup1_at, Hp1. simpl.
    eexists. split; [done|]. destruct (wake_cases (ChProc r) (set_cwd None p)) as [(_&E&_)|(->&_)]; [|done].
    simpl in E. naive_solver congruence. }
  fold t1 in Em. rewrite (getp_at _ _ _ Hp1) in Em.
  change (pr_parent (set_cwd None p)) with (pr_parent p) in Em. fold t2 in Em.
  assert (length (pt_procs t2) = n) as El2.
  { rewrite Hlen. destruct C2 as [_ HF]. rewrite <- (Forall2_length _ _ _ HF). unfold t1. simpl.
    by rewrite length_alter. }
  destruct (reparent_procs me init n [] (pt_procs t2) t2) as (Er & Ei & Ecur);
    [done|unfold t2; by rewrite pt_init_wakeup_proc|done|].
  rewrite app_nil_l in Er. change (length (@nil proc)) with O in Er, Ei, Ecur.
  set (t3 := reparent me n 0 t2) in *. clearbody t3.
  assert (∀ i, procs_at (te) i =
    exit_entry me init (existsb (dead_child me) (pt_procs t2)) i <$> procs_at t2 i) as Hat.
  { intros i. rewrite Em, upd_proc_at, Er, !list_lookup_fmap. unfold exit_entry.
    destruct (procs_at t2 i); simpl; [|done]. by case_decide. }
  assert (length (pt_procs (te)) = length (pt_procs t2)) as El.
  { rewrite Em. simpl. by rewrite length_alter, Er, !length_map. }
  assert (live p2) as Lp2 by (by subst p2).
  assert (pr_parent p ≠ None) as Npar.
  { destruct (ok_orphan _ Ht me p Hp); [by apply live_not_unused|congruence|done]. }
  split_and!.
  - eapply (tree_ok_exit t2 _ me init p2 Ht2); try done.
    + unfold t2. by rewrite pt_init_wakeup_proc.
    + congruence.
    + intros r q Hr Hq. subst p2. unfold t2 in Hq. simpl in Hr. rewrite Hr in Hq.
      by eapply wakeup_proc_awake.
    + by rewrite Em.
  - by eapply none_running_exit.
  - exists p. split; [done|]. split; [done|]. rewrite Hat, Hp2. eexists. split; [done|].
    subst p2. assert (is_child me (set_cwd None p) = false) as Nc.
    { destruct (is_child _ _) eqn:E; [|done]. apply is_child_true in E.
      by destruct (ok_parent _ Ht me p me Hp E). }
    unfold exit_entry, adopt, wake_if. rewrite Nc, decide_True by done.
    destruct (existsb _ _); [|done].
    destruct (wake_cases (ChProc init) (set_cwd None p)) as [(->&_&_)|(->&_)]; done.
Qed.

Lemma exit_mark_ok t me :
  pt_ok t → pt_cur t = Some me → pt_init t ≠ Some me →
  tree_ok (exit_mark me t) ∧ none_running (exit_mark me t) ∧
  ∃ p, procs_at t me = Some p ∧ pr_parent p ≠ None ∧
    ∃ q, procs_at (exit_mark me t) me = Some q ∧ pr_state q = ZOMBIE ∧ pr_parent q = pr_parent p ∧
      pr_pid q = pr_pid p ∧ pr_exitstatus q = pr_exitstatus p ∧ pr_killed q = pr_killed p.
Proof.
  intros Hok Hme Hni. apply (exit_table_ok t (exit_mark me t) NPROC me Hok Hme Hni).
  - symmetry. exact (ok_len _ (proj1 Hok)).
  - exact eq_refl.
Qed.

(** ** The invariant *)

Lemma boot_ok cwd : pt_ok (boot_table cwd).
Proof.
  assert (∀ i p, procs_at (boot_table cwd) i = Some p → i ≠ O →
    pr_state p = UNUSED ∧ pr_parent p = None ∧ pr_chan p = None) as Rest.
  { intros i p Hp Hi. assert (p ∈ drop 1 (pt_procs (boot_table cwd))) as Hin.
    { apply (list_elem_of_lookup_2 _ (i - 1)). rewrite lookup_drop.
      by replace (1 + (i - 1))%nat with i by lia. }
    clear Hp. revert p Hin. apply Forall_forall. vm_compute. repeat (constructor; [done|]). constructor. }
  assert (∃ p0, procs_at (boot_table cwd) O = Some p0 ∧ pr_state p0 = RUNNABLE ∧
    pr_parent p0 = None ∧ pr_chan p0 = None) as (p0 & H0 & S0 & P0 & C0) by (by eexists).
  assert (∀ i p, procs_at (boot_table cwd) i = Some p → pr_parent p = None ∧ pr_chan p = None) as All.
  { intros i p Hp. destruct (decide (i = O)) as [->|Hn]; [|by apply (Rest i p)].
    rewrite H0 in Hp. by injection Hp as <-. }
  split; [split|].
  - reflexivity.
  - exists O, p0. split_and!; [reflexivity|exact H0|right; left; exact S0|exact P0].
  - intros i p r Hp Hr. destruct (All i p Hp). congruence.
  - intros i p Hp Hu. destruct (decide (i = O)) as [->|Hn]; [by left|]. by destruct (Rest i p Hp Hn).
  - intros i p q Hp [_ W]. destruct (All i p Hp). congruence.
  - intros r p Hp [_ W]. destruct (All r p Hp). congruence.
  - intros r p i c Hp [_ W]. destruct (All r p Hp). congruence.
  - exists O, p0. split_and!; [done|done|by right|]. intros i q Hq Hr.
    destruct (decide (i = O)) as [->|Hn]; [done|]. destruct (Rest i q Hq Hn). congruence.
Qed.

Lemma pstep_ok t t' : pstep t t' → pt_ok t → pt_ok t'.
Proof.
  intros Hstep Hok. destruct Hstep.
  - injection H0 as <-. apply pt_ok_upd; [|done]. intros p Hp.
    split; [|by left]. split_and!; [done|by left|]. by intros q [_ ?].
  - apply pt_ok_upd; [|done]. intros p Hp. destruct (H0 p) as (E1 & E2 & E3).
    split; [|by left]. split_and!; [done|by left|]. intros q [??]. split; congruence.
  - by eapply fork_ok.
  - by eapply fork_nomem_ok.
  - injection H0 as <-. by apply wakeup1_ok.
  - by eapply kill_ok.
  - destruct H. by eapply sleep_pipe_ok.
  - destruct H. rewrite exit_tail_mark in H1. destruct (exit_mark_ok t me Hok) as (T & N & _); [done|done|].
    by eapply scheduler_ok.
  - destruct (wait_scan_cases _ _ _ _ H0) as (k & x & Hx & Px & Zx & _ & _ & Hr). by eapply reap_ok.
  - destruct (wait_scan_cases _ _ _ _ H0) as (-> & Hkid & Hdead). destruct H. by eapply sleep_wait_ok.
Qed.

Lemma reachable_ok t : reachable t → pt_ok t.
Proof.
  intros (cwd & Hr). revert Hr. generalize (boot_ok cwd). generalize (boot_table cwd).
  intros t0 H0 Hr. induction Hr as [|t0 t1 t2 Hs Hr IH]; [done|]. apply IH. by eapply pstep_ok.
Qed.

(** C5.  Whatever the processes do, at most one process is running and it is the
    current one; every dead process has a parent that is alive and so will be
    reaped; and a process asleep in sys_wait() has a child that is still alive
    and no dead one: the wakeup of an exit is never lost. *)
Theorem ptable_invariant t :
  reachable t →
  (∃ me, pt_cur t = Some me ∧ ∀ i p, procs_at t i = Some p → pr_state p = RUNNING → i = me) ∧
  (∀ i p, procs_at t i = Some p → pr_state p = ZOMBIE →
     ∃ r q, pr_parent p = Some r ∧ procs_at t r = Some q ∧ live q) ∧
  (∀ r p, procs_at t r = Some p → in_wait r p →
     (∃ i c, procs_at t i = Some c ∧ pr_parent c = Some r ∧ pr_state c ≠ UNUSED ∧ pr_state c ≠ ZOMBIE) ∧
     ∀ i c, procs_at t i = Some c → pr_parent c = Some r → pr_state c ≠ ZOMBIE).
Proof.
  intros [Ht (me & pm & Hme & _ & _ & Honly)]%reachable_ok. split_and!.
  - eauto.
  - intros i p Hp Hz. destruct (pr_parent p) as [r|] eqn:Hr.
    + destruct (ok_parent _ Ht _ _ _ Hp Hr) as (_ & _ & q & Hq & L). eauto.
    + destruct (ok_orphan _ Ht i p Hp) as [Hi|?]; [congruence| |done].
      destruct (ok_init _ Ht) as (r & q & Hr' & Hq & L & _). rewrite Hi in Hr'. injection Hr' as <-.
      rewrite Hp in Hq. injection Hq as <-. unfold live in L. naive_solver congruence.
  - intros r p Hp W. split; [|intros; by eapply (ok_awake _ Ht r p)].
    destruct (ok_kids _ Ht r p Hp W) as (i & c & Hc & Hr). exists i, c.
    destruct (ok_parent _ Ht _ _ _ Hc Hr) as (_ & Hu & _). split_and!; [done..|].
    by apply (ok_awake _ Ht r p i c).
Qed.

(** init has forked and waits for its child, which runs. *)
Definition fork_wait_table : ptable :=
  match allocproc (boot_table None) with
  | Ret (Some np) t =>
      match sleep (ChProc 0) (fork_entry 0 np 1 t) with Ret _ t => t | _ => t end
  | _ => boot_table None
  end.

Lemma fork_wait_reachable : reachable fork_wait_table.
Proof.
  exists None. eapply rtc_l.
  { apply (st_fork _ (match allocproc (boot_table None) with Ret _ t => t | _ => boot_table None end) 0 1 1).
    - split; reflexivity.
    - vm_compute. reflexivity. }
  eapply rtc_l; [|apply rtc_refl].
  eapply (st_wait _ _ _ 0).
  - split; reflexivity.
  - vm_compute. reflexivity.
  - vm_compute. reflexivity.
Qed.

Lemma ptable_invariant_witness :
  in_wait 0 (getp fork_wait_table 0) ∧
  ∀ i c, procs_at fork_wait_table i = Some c → pr_parent c = Some O → pr_state c ≠ ZOMBIE.
Proof.
  assert (in_wait 0 (getp fork_wait_table 0)) as W by (split; vm_compute; reflexivity).
  split; [exact W|].
  refine (proj2 (proj2 (proj2 (ptable_invariant fork_wait_table fork_wait_reachable)) O _ _ W)).
  vm_compute. reflexivity.
Defined.

Lemma scheduler_entry t t' i p :
  scheduler t = Ret tt t' → procs_at t i = Some p →
  ∃ p', procs_at t' i = Some p' ∧ pr_parent p' = pr_parent p ∧ pr_pid p' = pr_pid p ∧
    pr_exitstatus p' = pr_exitstatus p ∧ pr_killed p' = pr_killed p ∧
    (pr_state p ≠ RUNNABLE → pr_state p' = pr_state p).
Proof.
  unfold scheduler. destruct (first_proc _ _ _) as [k|] eqn:E; [|done]. intros [= <-] Hp.
  destruct (first_proc_at _ _ _ E) as (x & Hx & Hs%is_state_true).
  change (∃ p', procs_at (upd_proc k (set_state RUNNING) t) i = Some p' ∧ pr_parent p' = pr_parent p ∧
    pr_pid p' = pr_pid p ∧ pr_exitstatus p' = pr_exitstatus p ∧ pr_killed p' = pr_killed p ∧
    (pr_state p ≠ RUNNABLE → pr_state p' = pr_state p)).
  rewrite upd_proc_at, Hp. eexists. split; [done|]. case_decide; [|done]. subst. simplify_eq. naive_solver.
Qed.

(** C7.  When a process has exited, sys_wait() of its parent does not sleep: it
    reaps a child, and the one that exited if no other is dead, returning its
    pid and its exit status, with bit 8 set when it was killed, and giving its
    entry back. *)
Theorem exit_then_wait t me r t1 :
  reachable t → ready t me → pt_init t ≠ Some me → pr_parent (getp t me) = Some r →
  exit_tail me t = Ret tt t1 →
  ∃ pid status t2, wait_scan r t1 = Ret (Reaped pid status) t2 ∧
    ((∀ i c, i ≠ me → procs_at t1 i = Some c → pr_parent c = Some r → pr_state c ≠ ZOMBIE) →
     pid = pr_pid (getp t me) ∧
     status = Z.lor (pr_exitstatus (getp t me)) (if pr_killed (getp t me) =? 0 then 0 else 256) ∧
     pr_state (getp t2 me) = UNUSED ∧ pr_parent (getp t2 me) = None).
Proof.
  intros Hreach [Hme _] Hni Hpar Hex. pose proof (reachable_ok _ Hreach) as Hok.
  rewrite exit_tail_mark in Hex.
  destruct (exit_mark_ok t me Hok Hme Hni) as (_ & _ & p & Hp & _ & q & Hq & Zq & Pq & Iq & Sq & Kq).
  rewrite (getp_at _ _ _ Hp) in *.
  destruct (scheduler_entry _ _ _ _ Hex Hq) as (z & Hz & Pz & Iz & Sz & Kz & Stz).
  assert (pr_state z = ZOMBIE) as Zz by (rewrite Stz; congruence).
  assert (pr_parent z = Some r) as Pz' by congruence.
  assert (∃ res t2, wait_scan r t1 = Ret res t2) as (res & t2 & Hw).
  { unfold wait_scan, reap, bind, gets, modify, ret.
    destruct (first_proc _ _ _); [eauto|]. destruct (first_proc _ _ _); eauto. }
  pose proof (wait_scan_cases _ _ _ _ Hw) as Hcase. destruct res as [pid status| |].
  - destruct Hcase as (k & x & Hx & Px & Zx & -> & -> & Hr). eexists _, _, t2. split; [done|].
    intros Honly. destruct (decide (k = me)) as [->|Hn]; [|by destruct (Honly k x Hn Hx Px)].
    rewrite Hz in Hx. injection Hx as <-. split_and!; [congruence|by rewrite Sz, Kz, Sq, Kq|..];
      unfold reap, bind, gets, modify, ret in Hr; injection Hr as _ _ <-;
      erewrite getp_at by (rewrite upd_proc_at, Hz, decide_True by done; reflexivity); done.
  - destruct Hcase as [_ Hnone]. by destruct (Hnone me z Hz).
  - destruct Hcase as (_ & _ & Hdead). by destruct (Hdead me z Hz Pz').
Qed.

Lemma exit_then_wait_witness :
  ∃ pid status t1 t2, exit_tail 1 fork_wait_table = Ret tt t1 ∧ wait_scan 0 t1 = Ret (Reaped pid status) t2.
Proof.
  assert (∃ t1, exit_tail 1 fork_wait_table = Ret tt t1) as [t1 H1].
  { eexists. vm_compute. reflexivity. }
  destruct (exit_then_wait fork_wait_table 1 0 t1) as (pid & status & t2 & Hw & _).
  - exact fork_wait_reachable.
  - split; vm_compute; reflexivity.
  - vm_compute. discriminate.
  - vm_compute. reflexivity.
  - exact H1.
  - exists pid, status, t1, t2. split; [exact H1|exact Hw].
Defined.
