(* ===== verification/File.v ===== *)
(** * The kernel state and file descriptors (kern/file.c, kern/pipe.c)

    The open file table on top of inodes and pipes.  A [struct file *] is an
    index into [ftable.file]. *)

From S2P Require Import Prelude Bytes Params Store Ondisk Fs Dir Pipe Proc.

Inductive ftype := FD_NONE | FD_PIPE | FD_INODE | FD_CONSOLE.

#[export] Instance ftype_eq_dec : EqDecision ftype.
Proof. solve_decision. Defined.

Record file := mkFile {
  fi_type : ftype;
  fi_ref : Z;
  fi_readable : Z;
  fi_writable : Z;
  fi_pipe : option nat;
  fi_ip : option nat;
  fi_off : Z;
}.

#[export] Instance file_inhabited : Inhabited file := populate (mkFile FD_NONE 0 0 0 None None 0).

Definition set_fref (v : Z) (f : file) : file :=
  mkFile (fi_type f) v (fi_readable f) (fi_writable f) (fi_pipe f) (fi_ip f) (fi_off f).
Definition set_foff (v : Z) (f : file) : file :=
  mkFile (fi_type f) (fi_ref f) (fi_readable f) (fi_writable f) (fi_pipe f) (fi_ip f) v.
Definition set_ftype (v : ftype) (f : file) : file :=
  mkFile v (fi_ref f) (fi_readable f) (fi_writable f) (fi_pipe f) (fi_ip f) (fi_off f).

(** The whole kernel.  [k_out] is what was sent to the console and [k_in] what
    the terminal will send; [k_past_seekbuf] is the memory that follows the
    buffer of sys_lseek(); [k_ram] is the expansion RAM, by byte, that the
    frames of kern/frames.c divide. *)
Record kst (S : Type) := mkK {
  k_fs : fsst S;
  k_files : list file;
  k_pipes : list pipe;
  k_pt : ptable;
  k_flist : list Z;
  k_errno : Z;
  k_out : list Z;
  k_in : list Z;
  k_echo : Z;
  k_crnl : Z;
  k_past_seekbuf : list Z;
  k_ram : Z → Z;
}.
Arguments mkK {S}.
Arguments k_fs {S}.
Arguments k_files {S}.
Arguments k_pipes {S}.
Arguments k_pt {S}.
Arguments k_flist {S}.
Arguments k_errno {S}.
Arguments k_out {S}.
Arguments k_in {S}.
Arguments k_echo {S}.
Arguments k_crnl {S}.
Arguments k_past_seekbuf {S}.
Arguments k_ram {S}.

Section file.
Context {S : Type} `{BlockOps S}.
Abbreviation K := (kst S).

Definition with_fs (x : fsst S) (k : K) : K :=
  mkK x (k_files k) (k_pipes k) (k_pt k) (k_flist k) (k_errno k) (k_out k) (k_in k) (k_echo k) (k_crnl k) (k_past_seekbuf k) (k_ram k).
Definition with_files (x : list file) (k : K) : K :=
  mkK (k_fs k) x (k_pipes k) (k_pt k) (k_flist k) (k_errno k) (k_out k) (k_in k) (k_echo k) (k_crnl k) (k_past_seekbuf k) (k_ram k).
Definition with_pipes (x : list pipe) (k : K) : K :=
  mkK (k_fs k) (k_files k) x (k_pt k) (k_flist k) (k_errno k) (k_out k) (k_in k) (k_echo k) (k_crnl k) (k_past_seekbuf k) (k_ram k).
Definition with_pt (x : ptable) (k : K) : K :=
  mkK (k_fs k) (k_files k) (k_pipes k) x (k_flist k) (k_errno k) (k_out k) (k_in k) (k_echo k) (k_crnl k) (k_past_seekbuf k) (k_ram k).
Definition with_flist (x : list Z) (k : K) : K :=
  mkK (k_fs k) (k_files k) (k_pipes k) (k_pt k) x (k_errno k) (k_out k) (k_in k) (k_echo k) (k_crnl k) (k_past_seekbuf k) (k_ram k).
Definition with_errno (x : Z) (k : K) : K :=
  mkK (k_fs k) (k_files k) (k_pipes k) (k_pt k) (k_flist k) x (k_out k) (k_in k) (k_echo k) (k_crnl k) (k_past_seekbuf k) (k_ram k).
Definition with_out (x : list Z) (k : K) : K :=
  mkK (k_fs k) (k_files k) (k_pipes k) (k_pt k) (k_flist k) (k_errno k) x (k_in k) (k_echo k) (k_crnl k) (k_past_seekbuf k) (k_ram k).
Definition with_in (x : list Z) (k : K) : K :=
  mkK (k_fs k) (k_files k) (k_pipes k) (k_pt k) (k_flist k) (k_errno k) (k_out k) x (k_echo k) (k_crnl k) (k_past_seekbuf k) (k_ram k).
Definition with_tty (e c : Z) (k : K) : K :=
  mkK (k_fs k) (k_files k) (k_pipes k) (k_pt k) (k_flist k) (k_errno k) (k_out k) (k_in k) e c (k_past_seekbuf k) (k_ram k).

Definition with_ram (x : Z → Z) (k : K) : K :=
  mkK (k_fs k) (k_files k) (k_pipes k) (k_pt k) (k_flist k) (k_errno k) (k_out k) (k_in k) (k_echo k) (k_crnl k) (k_past_seekbuf k) x.

Definition on_fs {A} (m : M (fsst S) A) : M K A := lift k_fs with_fs m.
Definition on_pt {A} (m : M ptable A) : M K A := lift k_pt with_pt m.
Definition on_pipes {A} (m : M (list pipe) A) : M K A := lift k_pipes with_pipes m.

Definition set_errno (err : Z) : M K unit := modify (with_errno err).
Definition file_at (f : nat) : M K file := gets (λ k, k_files k !!! f).
Definition upd_file (f : nat) (g : file → file) : M K unit :=
  modify (λ k, with_files (alter g f (k_files k)) k).

(** [f->ip] where the code follows the pointer. *)
Definition deref_ip (f : file) : M K nat :=
  match fi_type f, fi_ip f with
  | FD_INODE, Some ip => ret ip
  | FD_INODE, None => fault "f->ip is NULL"
  | FD_CONSOLE, _ => fault "f->ip is NULL"
  | _, _ => fault "f->ip is stale"
  end.

(** ** kern/file.c *)

Fixpoint free_file (l : list file) (i : nat) : option nat :=
  match l with
  | [] => None
  | f :: l => if fi_ref f =? 0 then Some i else free_file l (Datatypes.S i)
  end.

Definition filealloc : M K (option nat) :=
  let* l := gets k_files in
  match free_file l 0 with
  | Some f => upd_file f (set_fref 1) ;; ret (Some f)
  | None => ret None
  end.

Definition filedup (f : nat) : M K nat :=
  let* x := file_at f in
  if fi_ref x <? 1 then panic "filedup" else
  upd_file f (set_fref (fi_ref x + 1)) ;; ret f.

Definition fileclose (f : nat) : M K unit :=
  let* x := file_at f in
  if fi_ref x <? 1 then panic "fileclose" else
  upd_file f (set_fref (fi_ref x - 1)) ;;
  if fi_ref x - 1 >? 0 then ret tt else
  upd_file f (λ x, set_ftype FD_NONE (set_fref 0 x)) ;;
  match fi_type x with
  | FD_PIPE =>
      match fi_pipe x with
      | Some p =>
          let* c := on_pipes (pipeclose p (negb (fi_writable x =? 0))) in
          on_pt (wakeup c)
      | None => fault "pipeclose(NULL)"
      end
  | FD_INODE =>
      match fi_ip x with
      | Some ip => on_fs (begin_op ;; iput ip ;; end_op)
      | None => fault "iput(NULL)"
      end
  | _ => ret tt
  end.

Definition filestat (f : nat) : M K (option xvstat) :=
  let* x := file_at f in
  match fi_type x with
  | FD_INODE =>
      let* ip := deref_ip x in
      on_fs (ilock ip) ;;
      let* st := on_fs (stati ip) in
      on_fs (iunlock ip) ;;
      ret (Some st)
  | FD_PIPE => ret (Some (mkStat T_PIPE 0 0 0 PIPESIZE))
  | _ => set_errno ENOENT ;; ret None
  end.

(** ** Pipes at the level of the kernel: run, wake, and sleep if need be *)

Definition is_killed : M K bool :=
  let* cur := gets (λ k, pt_cur (k_pt k)) in
  match cur with
  | Some p => gets (λ k, negb (pr_killed (getp (k_pt k) p) =? 0))
  | None => fault "proc is NULL"
  end.

Fixpoint wakeups (cs : list chan) : M K unit :=
  match cs with
  | [] => ret tt
  | c :: cs => on_pt (wakeup c) ;; wakeups cs
  end.

Definition run_pipe (p : nat) (f : bool → pipe → step_result * list chan * pipe) : M K step_result :=
  let* killed := is_killed in
  let* x := gets (λ k, k_pipes k !!! p) in
  let '(r, cs, x') := f killed x in
  modify (λ k, with_pipes (<[p := x']> (k_pipes k)) k) ;;
  wakeups cs ;;
  match r with
  | Done _ _ => ret r
  | Sleeps c _ => on_pt (sleep c) ;; ret r
  end.

(** ** Reading and writing *)

Definition fileread (f : nat) (n : Z) : M K step_result :=
  let* x := file_at f in
  if fi_readable x =? 0 then ret (Done (-1) []) else
  match fi_type x with
  | FD_PIPE =>
      match fi_pipe x with
      | Some p => run_pipe p (λ killed, piperead p killed n)
      | None => fault "piperead(NULL)"
      end
  | FD_INODE =>
      let* ip := deref_ip x in
      on_fs (ilock ip) ;;
      let* r := on_fs (readi ip (fi_off x) n) in
      (if fst r >? 0 then upd_file f (set_foff (u32 (fi_off x + fst r))) else ret tt) ;;
      on_fs (iunlock ip) ;;
      ret (Done (fst r) (snd r))
  | _ => panic "fileread"
  end.

(** [((MAXOPBLOCKS-1-1-2) / 2) * 512] *)
Definition MAXWRITE : Z := ((MAXOPBLOCKS - 1 - 1 - 2) / 2) * 512.

(** One round of the loop of filewrite(): the result of writei(). *)
Definition filewrite_chunk (f ip : nat) (addr : list Z) (n1 : Z) : M K Z :=
  on_fs begin_op ;;
  on_fs (ilock ip) ;;
  let* x := file_at f in
  let* r := on_fs (writei ip addr (fi_off x) n1) in
  (if r >? 0 then upd_file f (set_foff (u32 (fi_off x + r))) else ret tt) ;;
  on_fs (iunlock ip) ;;
  on_fs end_op ;;
  ret r.

Definition filewrite (f : nat) (addr : list Z) (n : Z) : M K step_result :=
  let* x := file_at f in
  if fi_writable x =? 0 then ret (Done (-1) []) else
  match fi_type x with
  | FD_PIPE =>
      match fi_pipe x with
      | Some p => run_pipe p (λ killed, pipewrite p killed n (slice addr 0 n))
      | None => fault "pipewrite(NULL)"
      end
  | FD_INODE =>
      let* ip := deref_ip x in
      let* i := loop (Z.to_nat n + 1) (λ i,
        if i <? n then
          let n1 := if n - i >? MAXWRITE then MAXWRITE else n - i in
          let* r := filewrite_chunk f ip (drop (Z.to_nat i) addr) n1 in
          if r <? 0 then ret (inr i) else
          if negb (r =? n1) then panic "short filewrite" else
          ret (inl (i + r))
        else ret (inr i)) 0 in
      ret (Done (if i =? n then n else -1) [])
  | _ => panic "filewrite"
  end.

(** ** pipealloc() (kern/pipe.c) *)

Definition pipealloc : M K (option (nat * nat)) :=
  let* f0 := filealloc in
  match f0 with
  | None => set_errno ENFILE ;; ret None
  | Some f0 =>
      let* f1 := filealloc in
      match f1 with
      | None => fileclose f0 ;; set_errno ENFILE ;; ret None
      | Some f1 =>
          let* p := gets (λ k, palloc (k_pipes k)) in
          match p with
          | (None, _) => fileclose f0 ;; fileclose f1 ;; set_errno ENFILE ;; ret None
          | (Some p, plist) =>
              modify (with_pipes (alter fresh_pipe p plist)) ;;
              upd_file f0 (λ x, mkFile FD_PIPE (fi_ref x) 1 0 (Some p) (fi_ip x) (fi_off x)) ;;
              upd_file f1 (λ x, mkFile FD_PIPE (fi_ref x) 0 1 (Some p) (fi_ip x) (fi_off x)) ;;
              ret (Some (f0, f1))
          end
      end
  end.
End file.
