(* ===== verification/Sysfile.v ===== *)
(** * File-system system calls (kern/sysfile.c)

    A path argument is [None] for a NULL pointer.  A call that fills a user
    buffer returns the bytes with its result. *)

From S2P Require Import Prelude Bytes Params Kstring Store Ondisk Fs Dir Pipe Proc File.

Section sysfile.
Context {S : Type} `{BlockOps S}.
Abbreviation K := (kst S).

(** ** Descriptors *)

(** The current process. *)
Definition curproc : M K nat :=
  let* cur := gets (λ k, pt_cur (k_pt k)) in
  match cur with Some p => ret p | None => fault "proc is NULL" end.
Definition set_cur (f : proc → proc) : M K unit :=
  let* p := curproc in on_pt (modify (upd_proc p f)).
Definition cur_ofile : M K (list (option nat)) :=
  let* p := curproc in gets (λ k, pr_ofile (getp (k_pt k) p)).
Definition cur_cwd : M K (option nat) :=
  let* p := curproc in gets (λ k, pr_cwd (getp (k_pt k) p)).
Definition set_fd (fd : nat) (f : option nat) : M K unit :=
  set_cur (λ p, set_ofile (<[fd := f]> (pr_ofile p)) p).

Definition argfd (fd : Z) : M K (option nat) :=
  if (fd <? 0) || (fd >=? Z.of_nat NOFILE) then set_errno EBADF ;; ret None else
  let* l := cur_ofile in
  match l !!! Z.to_nat fd with
  | Some f => ret (Some f)
  | None => set_errno EBADF ;; ret None
  end.

Fixpoint free_fd (l : list (option nat)) (i : nat) : option nat :=
  match l with
  | [] => None
  | None :: _ => Some i
  | Some _ :: l => free_fd l (Datatypes.S i)
  end.

Definition fdalloc (f : nat) : M K Z :=
  let* l := cur_ofile in
  match free_fd l 0 with
  | Some fd => set_fd fd (Some f) ;; ret (Z.of_nat fd)
  | None => set_errno EMFILE ;; ret (-1)
  end.

Definition sys_dup (fd : Z) : M K Z :=
  set_errno 0 ;;
  let* f := argfd fd in
  match f with
  | None => ret (-1)
  | Some f =>
      let* fd := fdalloc f in
      if fd <? 0 then ret (-1) else filedup f ;; ret fd
  end.

(** ** The console *)

Definition consputc (c : Z) : M K unit := modify (λ k, with_out (k_out k ++ [c]) k).

Definition consgetc : M K Z :=
  let* inp := gets k_in in
  match inp with
  | [] => spin
  | c :: rest =>
      modify (with_in rest) ;;
      let* crnl := gets k_crnl in
      let* echo := gets k_echo in
      let c := if (crnl =? 1) && (c =? 13) then 10 else c in
      (if echo =? 1 then consputc c else ret tt) ;;
      ret c
  end.

Fixpoint consputs (bs : list Z) : M K unit :=
  match bs with
  | [] => ret tt
  | b :: bs => consputc b ;; consputs bs
  end.

Definition sys_read (fd : Z) (p : bool) (n : Z) : M K step_result :=
  set_errno 0 ;;
  let* f := argfd fd in
  match f with
  | None => ret (Done (-1) [])
  | Some f =>
      if (n <? 0) || negb p then ret (Done (-1) []) else
      let* x := file_at f in
      if bool_decide (fi_type x = FD_CONSOLE) then let* c := consgetc in ret (Done 1 [c])
      else fileread f n
  end.

Definition sys_write (fd : Z) (p : option (list Z)) (n : Z) : M K step_result :=
  set_errno 0 ;;
  let* f := argfd fd in
  match f, p with
  | Some f, Some bs =>
      if n <? 0 then ret (Done (-1) []) else
      let* x := file_at f in
      if bool_decide (fi_type x = FD_CONSOLE) then consputs (slice bs 0 n) ;; ret (Done n [])
      else filewrite f bs n
  | _, _ => ret (Done (-1) [])
  end.

Definition sys_close (fd : Z) : M K Z :=
  set_errno 0 ;;
  let* f := argfd fd in
  match f with
  | None => ret (-1)
  | Some f => set_fd (Z.to_nat fd) None ;; fileclose f ;; ret 0
  end.

(** The result and, on success, the structure filled in; of the console only the type is set. *)
Definition sys_fstat (fd : Z) (st : bool) : M K (Z * option xvstat) :=
  set_errno 0 ;;
  let* f := argfd fd in
  match f with
  | None => ret (-1, None)
  | Some f =>
      if negb st then ret (-1, None) else
      let* x := file_at f in
      if bool_decide (fi_type x = FD_CONSOLE) then ret (0, Some (mkStat T_DEV 0 0 0 0))
      else
        let* r := filestat f in
        match r with Some st => ret (0, Some st) | None => ret (-1, None) end
  end.

(** ** Links *)

(** A system call that fails inside a transaction. *)
Definition fail_op (err : Z) : M K Z := on_fs end_op ;; set_errno err ;; ret (-1).

Definition link_bad (ip : nat) : M K Z :=
  on_fs (ilock ip ;; upd_inode ip (λ x, set_nlink (s16 (i_nlink x - 1)) x) ;; iupdate ip ;; iunlockput ip) ;;
  fail_op EEXIST.

Definition sys_link (old new : option (list Z)) : M K Z :=
  set_errno 0 ;;
  match old, new with
  | Some old, Some new =>
      let* cwd := cur_cwd in
      on_fs begin_op ;;
      let* r := on_fs (namei cwd old) in
      match r with
      | None => fail_op ENOENT
      | Some ip =>
          on_fs (ilock ip) ;;
          let* x := on_fs (inode_at ip) in
          if i_type x =? T_DIR then on_fs (iunlockput ip) ;; fail_op EPERM else
          on_fs (upd_inode ip (λ x, set_nlink (s16 (i_nlink x + 1)) x) ;; iupdate ip ;; iunlock ip) ;;
          let* r := on_fs (nameiparent cwd new (zeros DIRSIZ)) in
          match r with
          | (None, _) => link_bad ip
          | (Some dp, name) =>
              on_fs (ilock dp) ;;
              let* x := on_fs (inode_at ip) in
              let* r := on_fs (dirlink dp name (i_inum x)) in
              if r <? 0 then on_fs (iunlockput dp) ;; link_bad ip
              else on_fs (iunlockput dp ;; iput ip ;; end_op) ;; ret 0
          end
      end
  | _, _ => set_errno ENOENT ;; ret (-1)
  end.

Definition isdirempty (dp : nat) : M (fsst S) bool :=
  let* x := inode_at dp in
  loop (Z.to_nat (i_size x / DIRENTSZ) + 2) (λ off,
    let* x := inode_at dp in
    if off <? i_size x then
      let* r := readi dp off DIRENTSZ in
      let '(n, de) := r in
      if negb (n =? DIRENTSZ) then panic "isdirempty: readi" else
      if negb (de_inum de =? 0) then ret (inr false) else ret (inl (u32 (off + DIRENTSZ)))
    else ret (inr true)) (2 * DIRENTSZ).

Definition DOT : list Z := [46].
Definition DOTDOT : list Z := [46; 46].

Definition unlink_bad (dp : nat) : M K Z := on_fs (iunlockput dp) ;; fail_op EPERM.

(** sys_unlink() once the entry [ip], at offset [off] of [dp], may go. *)
Definition unlink_entry (dp ip : nat) (off : Z) : M (fsst S) unit :=
  let* n := writei dp (zeros DIRENTSZ) off DIRENTSZ in
  if negb (n =? DIRENTSZ) then panic "unlink: writei" else
  let* x := inode_at ip in
  (if i_type x =? T_DIR
   then upd_inode dp (λ x, set_nlink (s16 (i_nlink x - 1)) x) ;; iupdate dp
   else ret tt) ;;
  iunlockput dp ;;
  upd_inode ip (λ x, set_nlink (s16 (i_nlink x - 1)) x) ;;
  iupdate ip ;;
  iunlockput ip.

Definition sys_unlink (path : option (list Z)) : M K Z :=
  set_errno 0 ;;
  match path with
  | None => set_errno ENOENT ;; ret (-1)
  | Some path =>
      let* cwd := cur_cwd in
      on_fs begin_op ;;
      let* r := on_fs (nameiparent cwd path (zeros DIRSIZ)) in
      match r with
      | (None, _) => fail_op EPERM
      | (Some dp, name) =>
          on_fs (ilock dp) ;;
          if (namecmp name DOT =? 0) || (namecmp name DOTDOT =? 0) then unlink_bad dp else
          let* r := on_fs (dirlookup dp name) in
          match r with
          | None => unlink_bad dp
          | Some (ip, off) =>
              on_fs (ilock ip) ;;
              let* x := on_fs (inode_at ip) in
              if i_nlink x <? 1 then panic "unlink: nlink < 1" else
              let* busy :=
                (if i_type x =? T_DIR
                 then let* e := on_fs (isdirempty ip) in ret (negb e) else ret false) in
              if busy : bool then on_fs (iunlockput ip) ;; unlink_bad dp else
              on_fs (unlink_entry dp ip off ;; end_op) ;; ret 0
          end
      end
  end.

(** create(): the new entry, once the parent [dp] is known not to have it. *)
Definition create_new (dp : nat) (name : list Z) (type major minor : Z) : M (fsst S) nat :=
  let* ip := ialloc type in
  ilock ip ;;
  upd_inode ip (λ x, set_nlink 1 (set_majmin major minor x)) ;;
  iupdate ip ;;
  (if type =? T_DIR then
     upd_inode dp (λ x, set_nlink (s16 (i_nlink x + 1)) x) ;;
     iupdate dp ;;
     let* xi := inode_at ip in
     let* xd := inode_at dp in
     let* r := dirlink ip DOT (i_inum xi) in
     if r <? 0 then panic "create dots" else
     let* r := dirlink ip DOTDOT (i_inum xd) in
     if r <? 0 then panic "create dots" else ret tt
   else ret tt) ;;
  let* xi := inode_at ip in
  let* r := dirlink dp name (i_inum xi) in
  if r <? 0 then panic "create: dirlink" else
  iunlockput dp ;;
  ret ip.

Definition create (cwd : option nat) (path : list Z) (type major minor : Z) : M (fsst S) (option nat) :=
  let* r := nameiparent cwd path (zeros DIRSIZ) in
  match r with
  | (None, _) => ret None
  | (Some dp, name) =>
      ilock dp ;;
      let* r := dirlookup dp name in
      match r with
      | Some (ip, _) =>
          iunlockput dp ;;
          ilock ip ;;
          let* x := inode_at ip in
          if (type =? T_FILE) && (i_type x =? T_FILE) then ret (Some ip)
          else iunlockput ip ;; ret None
      | None =>
          let* ip := create_new dp name type major minor in ret (Some ip)
      end
  end.

(** ** open() *)

Definition TTY : list Z := [47; 116; 116; 121].

(** [(f = filealloc()) == 0 || (fd = fdalloc(f)) < 0], and the release of [f] when it fails. *)
Definition open_fd : M K (option (nat * Z)) :=
  let* f := filealloc in
  match f with
  | None => ret None
  | Some f =>
      let* fd := fdalloc f in
      if fd <? 0 then fileclose f ;; ret None else ret (Some (f, fd))
  end.

(** The assignments at the end of sys_open(). *)
Definition open_file (f : nat) (fd : Z) (type : ftype) (ip : option nat) (omode : Z) : M K Z :=
  upd_file f (λ x, mkFile type (fi_ref x)
    (if Z.land omode O_WRONLY =? 0 then 1 else 0)
    (if negb (Z.land omode O_WRONLY =? 0) || negb (Z.land omode O_RDWR =? 0) then 1 else 0)
    (fi_pipe x) ip 0) ;;
  (if negb (Z.land omode O_APPEND =? 0) then
     let* x := file_at f in
     let* ip := deref_ip x in
     let* i := on_fs (inode_at ip) in
     upd_file f (set_foff (i_size i))
   else ret tt) ;;
  ret fd.

(** The inode that open() works on, locked, or the error. *)
Definition open_inode (cwd : option nat) (path : list Z) (omode : Z) : M K (nat + Z) :=
  if negb (Z.land omode O_CREATE =? 0) then
    let* r := on_fs (create cwd path T_FILE 0 0) in
    match r with Some ip => ret (inl ip) | None => ret (inr EEXIST) end
  else
    let* r := on_fs (namei cwd path) in
    match r with
    | None => ret (inr ENOENT)
    | Some ip =>
        on_fs (ilock ip) ;;
        let* x := on_fs (inode_at ip) in
        if (i_type x =? T_DIR) && negb (omode =? O_RDONLY)
        then on_fs (iunlockput ip) ;; ret (inr EISDIR)
        else ret (inl ip)
    end.

Definition sys_open (path : option (list Z)) (omode : Z) : M K Z :=
  set_errno 0 ;;
  match path with
  | None => set_errno ENOENT ;; ret (-1)
  | Some path =>
      if omode <? 0 then set_errno ENOENT ;; ret (-1) else
      let* cwd := cur_cwd in
      on_fs begin_op ;;
      if strncmp path TTY 4 =? 0 then
        let* r := open_fd in
        match r with
        | None => fail_op EACCES
        | Some (f, fd) => on_fs end_op ;; open_file f fd FD_CONSOLE None omode
        end
      else
        let* r := open_inode cwd path omode in
        match r with
        | inr err => fail_op err
        | inl ip =>
            let* r := open_fd in
            match r with
            | None => on_fs (iunlockput ip) ;; fail_op EACCES
            | Some (f, fd) =>
                (if negb (Z.land omode O_TRUNC =? 0) then on_fs (itrunc ip) else ret tt) ;;
                on_fs (iunlock ip ;; end_op) ;;
                open_file f fd FD_INODE (Some ip) omode
            end
        end
  end.

(** ** Directories *)

Definition sys_mkdir (path : option (list Z)) : M K Z :=
  let* cwd := cur_cwd in
  on_fs begin_op ;;
  set_errno 0 ;;
  match path with
  | None => fail_op EINVAL
  | Some path =>
      let* r := on_fs (create cwd path T_DIR 0 0) in
      match r with
      | None => fail_op EINVAL
      | Some ip => on_fs (iunlockput ip ;; end_op) ;; ret 0
      end
  end.

Definition ichdir (ip : nat) : M K Z :=
  on_fs (ilock ip) ;;
  let* x := on_fs (inode_at ip) in
  if negb (i_type x =? T_DIR) then on_fs (iunlockput ip) ;; fail_op ENOTDIR else
  on_fs (iunlock ip) ;;
  let* cwd := cur_cwd in
  match cwd with
  | None => fault "iput(NULL)"
  | Some d => on_fs (iput d ;; end_op) ;; set_cur (set_cwd (Some ip)) ;; ret 0
  end.

Definition sys_chdir (path : option (list Z)) : M K Z :=
  let* cwd := cur_cwd in
  on_fs begin_op ;;
  set_errno 0 ;;
  match path with
  | None => fail_op EINVAL
  | Some path =>
      let* r := on_fs (namei cwd path) in
      match r with None => fail_op EINVAL | Some ip => ichdir ip end
  end.

(** [ichdir(f->ip)] with no begin_op(): a NULL [f->ip] panics in ilock(). *)
Definition sys_fchdir (fd : Z) : M K Z :=
  set_errno 0 ;;
  let* f := argfd fd in
  match f with
  | None => set_errno EBADF ;; ret (-1)
  | Some f =>
      let* x := file_at f in
      match fi_ip x with
      | None => panic "ilock"
      | Some ip => ichdir ip
      end
  end.

(** ** pipe() *)

Definition sys_pipe (fd : bool) : M K (Z * option (Z * Z)) :=
  if negb fd then set_errno EINVAL ;; ret (-1, None) else
  let* r := pipealloc in
  match r with
  | None => set_errno EMFILE ;; ret (-1, None)
  | Some (rf, wf) =>
      let* fd0 := fdalloc rf in
      let* fd1 := (if fd0 <? 0 then ret (-1) else fdalloc wf) in
      if (fd0 <? 0) || (fd1 <? 0) then
        (if fd0 >=? 0 then set_fd (Z.to_nat fd0) None else ret tt) ;;
        fileclose rf ;;
        fileclose wf ;;
        set_errno ENFILE ;;
        ret (-1, None)
      else ret (0, Some (fd0, fd1))
  end.

(** ** lseek() *)

Definition SBUFSIZE : Z := 512.
Definition SEEK_SET : Z := 0.
Definition SEEK_CUR : Z := 1.
Definition SEEK_END : Z := 2.

(** The loop that extends the file: each round writes [zerosize] bytes, of
    which only the first SBUFSIZE come from [seekbuf]. *)
Definition lseek_extend (f : nat) (zerosize : Z) : M K unit :=
  let* past := gets k_past_seekbuf in
  loop (Z.to_nat zerosize + 1) (λ zerosize,
    if zerosize >? 0 then
      filewrite f (zeros SBUFSIZE ++ past) zerosize ;;
      ret (inl (zerosize - SBUFSIZE))
    else ret (inr tt)) zerosize.

Definition sys_lseek (fd offset base : Z) : M K Z :=
  set_errno 0 ;;
  let* f := argfd fd in
  match f with
  | None => set_errno EINVAL ;; ret (-1)
  | Some f =>
      if base <? 0 then set_errno EINVAL ;; ret (-1) else
      let* x := file_at f in
      let* newoff :=
        (if base =? SEEK_SET then ret offset
         else if base =? SEEK_CUR then ret (s32 (fi_off x + offset))
         else if base =? SEEK_END then
           let* ip := deref_ip x in
           let* i := on_fs (inode_at ip) in
           ret (s32 (i_size i + offset))
         else ret 0) in
      if newoff <? 0 then set_errno EINVAL ;; ret (-1) else
      let* ip := deref_ip x in
      let* i := on_fs (inode_at ip) in
      (if u32 newoff >? i_size i then lseek_extend f (s32 (newoff - i_size i)) else ret tt) ;;
      upd_file f (set_foff (u32 newoff)) ;;
      ret newoff
  end.

(** ** ioctl(), utime(), sync() *)

Definition TCGETA : Z := 21509.
Definition TCSETA : Z := 21510.
Definition ECHO : Z := 8.
Definition ICANON : Z := 256.

(** [arg] is the [c_lflag] of the structure, [None] for a NULL pointer; the
    result carries the [c_lflag] that TCGETA stores. *)
Definition sys_ioctl (fd op : Z) (arg : option Z) : M K (Z * option Z) :=
  set_errno 0 ;;
  let* f := argfd fd in
  match f with
  | None => set_errno EINVAL ;; ret (-1, None)
  | Some f =>
      let* x := file_at f in
      if negb (bool_decide (fi_type x = FD_CONSOLE)) then set_errno ENOTTY ;; ret (-1, None) else
      if op =? TCGETA then
        match arg with
        | None => ret (-1, None)
        | Some _ =>
            let* e := gets k_echo in
            let* c := gets k_crnl in
            ret (0, Some (Z.lor (if e =? 1 then ECHO else 0) (if c =? 1 then ICANON else 0)))
        end
      else if op =? TCSETA then
        match arg with
        | None => ret (-1, None)
        | Some fl =>
            modify (with_tty (if Z.land fl ECHO =? 0 then 0 else 1)
                             (if Z.land fl ICANON =? 0 then 0 else 1)) ;;
            ret (0, None)
        end
      else set_errno EINVAL ;; ret (-1, None)
  end.

Definition sys_utime (path : option (list Z)) (timbuf : option Z) : M K Z :=
  set_errno 0 ;;
  match path, timbuf with
  | Some path, Some modtime =>
      let* cwd := cur_cwd in
      on_fs begin_op ;;
      let* r := on_fs (namei cwd path) in
      match r with
      | None => fail_op ENOENT
      | Some ip =>
          on_fs (ilock ip ;; upd_inode ip (set_mtime (s32 modtime)) ;; iupdate ip ;; iunlock ip ;; end_op) ;;
          ret 0
      end
  | _, _ => set_errno EACCES ;; ret (-1)
  end.

Definition sys_sync : M K unit := on_fs (begin_op ;; on_store op_bflush ;; end_op).
End sysfile.
