(* ===== verification/Kalloc.v ===== *)
(** * The kernel's brk (kern/kalloc.c)

    The state is [curbrk]; the end of the kernel's bss and the stack pointer
    are arguments.  Addresses are compared as 32-bit unsigned numbers. *)

From S2P Require Import Prelude.

(** The result of kbrk(), and [curbrk] after it. *)
Definition kbrk (bssend cursp addr curbrk : Z) : Z * Z :=
  let addr := if Z.odd addr then u32 (addr + 1) else addr in
  if (addr <? bssend) || (addr >? u32 (cursp - 256)) then (-1, curbrk) else (0, addr).

(** The result of ksbrk() is the old value; [None] is the pointer -1. *)
Definition ksbrk (bssend cursp increment curbrk : Z) : option Z * Z :=
  let '(r, curbrk') := kbrk bssend cursp (u32 (curbrk + increment)) curbrk in
  if r =? -1 then (None, curbrk') else (Some curbrk, curbrk').

(** ksbrk() that succeeds hands out a region of at least [increment] bytes
    that starts at the old brk, ends below the stack by 256 bytes or more, and
    leaves the brk word aligned; one that fails changes nothing. *)
Theorem ksbrk_region bssend cursp increment curbrk :
  0 ≤ bssend ≤ curbrk → 0 ≤ increment → curbrk + increment + 1 < 4294967296 →
  256 ≤ cursp < 4294967296 →
  match ksbrk bssend cursp increment curbrk with
  | (Some p, curbrk') =>
      p = curbrk ∧ curbrk + increment ≤ curbrk' ≤ curbrk + increment + 1 ∧
      curbrk' ≤ cursp - 256 ∧ Z.even curbrk' = true
  | (None, curbrk') =>
      curbrk' = curbrk ∧ cursp - 256 < curbrk + increment + 1
  end.
Proof.
  intros Hb Hi Hw Hs. unfold ksbrk, kbrk.
  rewrite (u32_small (curbrk + increment)), (u32_small (cursp - 256)) by lia.
  destruct (Z.odd (curbrk + increment)) eqn:Eo.
  - rewrite u32_small by lia.
    assert (Z.even (curbrk + increment + 1) = true) as He.
    { rewrite Z.even_add, <- Z.negb_odd, Eo. done. }
    destruct (Z.ltb_spec (curbrk + increment + 1) bssend); [lia|].
    destruct (Z.gtb_spec (curbrk + increment + 1) (cursp - 256)); simpl; split_and!; done || lia.
  - assert (Z.even (curbrk + increment) = true) as He by (by rewrite <- Z.negb_odd, Eo).
    destruct (Z.ltb_spec (curbrk + increment) bssend); [lia|].
    destruct (Z.gtb_spec (curbrk + increment) (cursp - 256)); simpl; split_and!; done || lia.
Qed.
