(* ===== verification/Clock.v ===== *)
(** * The clock (kern/clock.c)

    [epoch_time] is advanced by the timer interrupt; a routine that looks at it
    more than once gets the successive values as an argument. *)

From S2P Require Import Prelude.

(** The result, and what is stored through [tloc] when it is not NULL. *)
Definition sys_time (tloc : bool) (epoch_time : Z) : Z * option Z :=
  (epoch_time, if tloc then Some epoch_time else None).

Definition sys_stime (time epoch_time : Z) : Z := time.

(** The loop of sys_sleep(): [readings] are the values of [epoch_time] that the
    test of the loop sees, one after the other; the result is the number of
    times the test failed, [None] when the readings end first. *)
Fixpoint sleep_loop (newtime : Z) (readings : list Z) : option nat :=
  match readings with
  | [] => None
  | t :: l => if t <? newtime then S <$> sleep_loop newtime l else Some O
  end.
Definition sys_sleep (n now : Z) (readings : list Z) : option nat :=
  sleep_loop (s32 (now + s32 n)) readings.
