(* ===== verification/Cprintf.v ===== *)
(** * Formatted output (kern/cprintf.c)

    The model returns the characters that the calls of [consputc] print, in
    order.  The variable arguments are a list: an argument is the word on the
    stack, or the string that the word points to ([None] for NULL). *)

From S2P Require Import Prelude Bytes.

Inductive arg :=
| AWord (x : Z)
| AStr (s : option (list Z)).

(** [digits[d]] *)
Definition digit (d : Z) : Z := if d <? 10 then 48 + d else 87 + d.

(** The do-while loop of printint(): the digits, last one first.  [buf] has
    room for 16 of them; a 32-bit number has at most 10 (base 10). *)
Fixpoint printint_loop (fuel : nat) (x base : Z) : list Z :=
  match fuel with
  | O => []
  | S fuel =>
      digit (x mod base) ::
        (if negb (x / base =? 0) then printint_loop fuel (x / base) base else [])
  end.

(** [x] is the 32-bit [uint] that the digits are taken from. *)
Definition printint (xx base : Z) (sign : bool) : list Z :=
  let neg := sign && (s32 xx <? 0) in
  let x := if neg then u32 (- xx) else u32 xx in
  let buf := printint_loop 16 x base in
  let buf := if neg then buf ++ [45] else buf in
  rev buf.

Definition null_string : list Z := [40; 110; 117; 108; 108; 41].

(** The characters before the NUL. *)
Fixpoint puts_chars (s : list Z) : list Z :=
  match s with
  | [] => []
  | c :: s => if c =? 0 then [] else c :: puts_chars s
  end.

Definition word_of (a : arg) : Z := match a with AWord x => x | AStr _ => 0 end.
Definition string_of (a : arg) : list Z :=
  match a with
  | AStr (Some s) => puts_chars s
  | AStr None => null_string
  | AWord _ => null_string
  end.

(** One conversion, for the character [c] after the percent sign: what it
    prints and whether it takes an argument. *)
Definition convert (c : Z) (a : arg) : list Z * bool :=
  if c =? 99 then ([u8 (word_of a)], true)
  else if c =? 100 then (printint (word_of a) 10 true, true)
  else if (c =? 120) || (c =? 112) then (printint (word_of a) 16 false, true)
  else if c =? 115 then (string_of a, true)
  else if c =? 37 then ([37], false)
  else ([37; c], false).

Fixpoint cprintf_from (fmt : list Z) (args : list arg) : list Z :=
  match fmt with
  | [] => []
  | c :: fmt =>
      if c =? 0 then []
      else if negb (c =? 37) then c :: cprintf_from fmt args
      else
        match fmt with
        | [] => []
        | c :: fmt =>
            if c =? 0 then []
            else
              let '(out, takes) := convert c (hd (AWord 0) args) in
              out ++ cprintf_from fmt (if takes then tl args else args)
        end
  end.

(** [None] is the panic of a NULL format. *)
Definition cprintf (fmt : option (list Z)) (args : list arg) : option (list Z) :=
  match fmt with Some fmt => Some (cprintf_from fmt args) | None => None end.

(** What panic() prints before it stops. *)
Definition panic_message (s : list Z) : list Z :=
  cprintf_from ([112; 97; 110; 105; 99; 58; 32; 37; 115; 10] : list Z) [AStr (Some s)].

(** ** The digits of a number *)

(** The value of a digit, and of a string of digits. *)
Definition undigit (c : Z) : Z := if c <? 58 then c - 48 else c - 87.
Definition value (base : Z) (ds : list Z) : Z := fold_left (λ v c, v * base + undigit c) ds 0.

Lemma undigit_digit d : 0 ≤ d < 16 → undigit (digit d) = d.
Proof.
  intros H. unfold undigit, digit. destruct (Z.ltb_spec d 10).
  - destruct (Z.ltb_spec (48 + d) 58); lia.
  - destruct (Z.ltb_spec (87 + d) 58); lia.
Qed.

Lemma value_snoc base ds c : value base (ds ++ [c]) = value base ds * base + undigit c.
Proof. unfold value. by rewrite fold_left_app. Qed.

Lemma printint_loop_value base fuel x :
  2 ≤ base ≤ 16 → 0 ≤ x < base ^ Z.of_nat fuel → (0 < fuel)%nat →
  value base (rev (printint_loop fuel x base)) = x ∧ printint_loop fuel x base ≠ [].
Proof.
  intros Hb. revert x. induction fuel as [|fuel IH]; intros x Hx Hf; [lia|].
  cbn [printint_loop]. pose proof (Z.div_mod x base ltac:(lia)) as E.
  pose proof (Z.mod_pos_bound x base ltac:(lia)) as Hm. split; [|done].
  cbn [rev]. rewrite value_snoc, undigit_digit by lia.
  destruct (Z.eqb_spec (x / base) 0) as [E0|E0]; simpl.
  - unfold value. simpl. lia.
  - destruct (decide (fuel = 0%nat)) as [->|Hne].
    + change (base ^ Z.of_nat 1) with (base ^ 1) in Hx. rewrite Z.pow_1_r in Hx.
      rewrite Z.div_small in E0 by lia. done.
    + destruct (IH (x / base)) as [-> _]; [|lia|lia].
      rewrite Nat2Z.inj_succ, Z.pow_succ_r in Hx by lia.
      split; [apply Z.div_pos; lia|]. apply Z.div_lt_upper_bound; lia.
Qed.

(** The magnitude of a negative [int]. *)
Lemma u32_neg x : -2147483648 ≤ x < 4294967296 → s32 x < 0 → u32 (- x) = - s32 x.
Proof.
  intros Hx Hs. unfold s32, u32 in *.
  destruct (decide (x < 2147483648)).
  - rewrite (Z.mod_small (x + _)) in * by lia. rewrite Z.mod_small by lia. lia.
  - assert ((x + 2147483648) mod 4294967296 = x - 2147483648) as E.
    { rewrite <- (Z_mod_plus_full (x + 2147483648) (-1)). rewrite Z.mod_small; lia. }
    rewrite E in *. rewrite <- (Z_mod_plus_full (- x) 1), Z.mod_small; lia.
Qed.

(** printint() prints a 32-bit number so that its digits, read back in the
    same base, give the number; a negative number printed signed gets a minus
    sign and the digits of its magnitude, -2^31 included. *)
Theorem printint_reads_back xx base sign :
  base = 10 ∨ base = 16 → -2147483648 ≤ xx < 4294967296 →
  ∃ ds, ds ≠ [] ∧
    printint xx base sign = (if sign && (s32 xx <? 0) then 45 :: ds else ds) ∧
    value base ds = (if sign && (s32 xx <? 0) then - s32 xx else u32 xx).
Proof.
  intros Hb Hx. unfold printint.
  set (x := if sign && (s32 xx <? 0) then u32 (- xx) else u32 xx).
  assert (0 ≤ x < base ^ Z.of_nat 16) as Hr.
  { assert (0 ≤ x < 4294967296) by (unfold x; destruct (_ && _); apply u32_range).
    assert (4294967296 ≤ base ^ Z.of_nat 16) by (destruct Hb as [-> | ->]; apply Z.leb_le; reflexivity). lia. }
  assert (2 ≤ base ≤ 16) as Hb' by (destruct Hb; lia).
  destruct (printint_loop_value base 16 x Hb' Hr) as [Hv Hne]; [lia|].
  revert Hv Hne. generalize (printint_loop 16 x base). intros l Hv Hne. exists (rev l). split_and!.
  - intros E. apply Hne. by rewrite <- (rev_involutive l), E.
  - destruct (sign && (s32 xx <? 0)); [|done]. by rewrite rev_app_distr.
  - rewrite Hv. unfold x. destruct (sign && (s32 xx <? 0)) eqn:Es; [|done].
    apply andb_true_iff in Es as [_ Es%Z.ltb_lt]. by apply u32_neg.
Qed.

