(* ===== verification/Sysproc.v ===== *)
(** * Process system calls (kern/proc.c)

    fork, exit, wait and brk on the kernel state.  A call that gives up the
    processor is modelled up to the switch; the process that is current
    afterwards is the one the scheduler chose.  The stack pointer that getsp()
    reads is an argument. *)

From S2P Require Import Prelude Bytes Params Kstring Store Ondisk Fs Dir Frames Pipe Proc File Sysfile.

(** Expansion RAM starts at this address in the address space of a process. *)
Definition RAMBASE : Z := 1048576.

(** memmove() within the expansion RAM. *)
Definition ram_copy (dst src n : Z) (ram : Z → Z) : Z → Z :=
  λ a, if (dst <=? a) && (a <? dst + n) then ram (a - dst + src) else ram a.

(** copyaddrspace(): the text, data and bss of the parent up to its brk, and its
    stack from the stack pointer [copysp] up. *)
Definition copyaddrspace (basereg curbrk np_basereg np_nframes copysp : Z) (ram : Z → Z) : Z → Z :=
  let srctxt := Z.shiftl basereg 16 in
  let dsttxt := Z.shiftl np_basereg 16 in
  let txtcnt := u32 (curbrk - RAMBASE) in
  let srcstk := Z.shiftl basereg 16 + copysp - RAMBASE in
  let dststk := Z.shiftl np_basereg 16 + copysp - RAMBASE in
  let stkcnt := u32 (RAMBASE + Z.shiftl np_nframes 16 - copysp) in
  ram_copy dststk srcstk stkcnt (ram_copy dsttxt srctxt txtcnt ram).

Section sysproc.
Context {S : Type} `{BlockOps S}.
Abbreviation K := (kst S).

(** The first process: it is current, with the root as its directory, and marked runnable. *)
Definition userinit : M K unit :=
  let* p := on_pt allocproc in
  match p with
  | None => fault "userinit: no process"
  | Some p =>
      on_pt (modify (λ t, mkPt (pt_procs t) (pt_nextpid t) (Some p) (Some p))) ;;
      let* cwd := on_fs (namei None [SLASH]) in
      on_pt (modify (upd_proc p (λ x, set_state RUNNABLE (set_cwd cwd x))))
  end.

(** The loop of sys_exit() that closes the files: [n] descriptors from [fd]. *)
Fixpoint close_all (n : nat) (fd : nat) : M K unit :=
  match n with
  | O => ret tt
  | Datatypes.S n =>
      let* l := cur_ofile in
      (match l !!! fd with
       | Some f => fileclose f ;; set_fd fd None
       | None => ret tt
       end) ;;
      close_all n (Datatypes.S fd)
  end.

Definition sys_exit (exitvalue : Z) : M K unit :=
  set_cur (set_exitstatus exitvalue) ;;
  let* me := curproc in
  let* init := gets (λ k, pt_init (k_pt k)) in
  if bool_decide (Some me = init) then panic "init exiting" else
  close_all NOFILE 0 ;;
  let* pid := gets (λ k, pr_pid (getp (k_pt k) me)) in
  modify (λ k, with_flist (freeframes pid (k_flist k)) k) ;;
  on_pt (exit_tail me).

(** sys_wait(), up to its next sleep. *)
Definition sys_wait : M K wait_result :=
  let* me := curproc in
  let* r := on_pt (wait_scan me) in
  match r with
  | MustSleep => on_pt (sleep (ChProc me)) ;; ret r
  | _ => ret r
  end.

(** The loop of sys_fork() that passes on the open files. *)
Fixpoint dup_all (n : nat) (fd : nat) (np : nat) : M K unit :=
  match n with
  | O => ret tt
  | Datatypes.S n =>
      let* l := cur_ofile in
      (match l !!! fd with
       | Some f =>
           let* f := filedup f in
           on_pt (modify (upd_proc np (λ x, set_ofile (<[fd := Some f]> (pr_ofile x)) x)))
       | None => ret tt
       end) ;;
      dup_all n (Datatypes.S fd) np
  end.

Definition sys_fork (copysp : Z) : M K Z :=
  let* np := on_pt allocproc in
  match np with
  | None => set_errno EAGAIN ;; ret (-1)
  | Some np =>
      let* me := curproc in
      let* par := gets (λ k, getp (k_pt k) me) in
      let* pid := gets (λ k, pr_pid (getp (k_pt k) np)) in
      let* r := gets (λ k, allocframes pid (pr_nframes par) (k_flist k)) in
      let '(basereg, flist) := r in
      modify (with_flist flist) ;;
      if basereg =? -1 then
        on_pt (modify (upd_proc np (set_state UNUSED))) ;;
        set_errno ENOMEM ;; ret (-1)
      else
        on_pt (modify (fork_entry me np basereg)) ;;
        dup_all NOFILE 0 np ;;
        let* cwd := (match pr_cwd par with
                     | Some d => on_fs (idup d)
                     | None => fault "idup(NULL)"
                     end) in
        on_pt (modify (upd_proc np (set_cwd (Some cwd)))) ;;
        modify (λ k, with_ram (copyaddrspace (pr_basereg par) (pr_curbrk par) basereg (pr_nframes par) copysp (k_ram k)) k) ;;
        ret pid
  end.

Definition sys_brk (cursp addr : Z) : M K Z :=
  let* me := curproc in
  let* p := gets (λ k, getp (k_pt k) me) in
  if (addr <? pr_bssend p) || (addr >? u32 (cursp - 256)) then set_errno ENOMEM ;; ret (-1)
  else set_cur (set_curbrk addr) ;; ret 0.

Definition sys_sbrk (cursp increment : Z) : M K Z :=
  let* me := curproc in
  let* p := gets (λ k, getp (k_pt k) me) in
  let* r := sys_brk cursp (u32 (pr_curbrk p + increment)) in
  ret (if r =? -1 then -1 else pr_curbrk p).

Definition sys_getpid : M K Z :=
  let* me := curproc in gets (λ k, pr_pid (getp (k_pt k) me)).
End sysproc.
