(* ===== verification/SysprocSpec.v ===== *)
(** * fork(): memory, descriptors and the process table together *)

From S2P Require Import Prelude Bytes Params Kstring Store Ondisk Fs Dir Frames FramesSpec Pipe Proc ProcSpec File Sysfile Sysproc Bio Log LogProps FsAllocProps.

(** ** The copy of the address space *)

(** Address [a] of a process whose frames start at [br], in the expansion RAM. *)
Definition phys (br a : Z) : Z := Z.shiftl br 16 + a - RAMBASE.

Lemma phys_eq br a : phys br a = br * 65536 + a - RAMBASE.
Proof. unfold phys. rewrite Z.shiftl_mul_pow2 by lia. done. Qed.

Lemma ram_copy_at dst src n ram a :
  ram_copy dst src n ram a = if decide (dst ≤ a < dst + n) then ram (a - dst + src) else ram a.
Proof.
  unfold ram_copy. destruct (Z.leb_spec dst a), (Z.ltb_spec a (dst + n)), (decide (dst ≤ a < dst + n));
    simpl; done || lia.
Qed.

(** The frames [b, b + n) as an area of the RAM. *)
Definition in_frames (b n x : Z) : Prop := b * 65536 ≤ x < (b + n) * 65536.

Section copy.
Variables (br cbr n brk sp : Z).
Hypothesis Hn : 0 ≤ n ≤ 16.
Hypothesis Hbr : 0 ≤ br ∧ br + n ≤ 16.
Hypothesis Hcbr : 0 ≤ cbr ∧ cbr + n ≤ 16.
Hypothesis Hdisj : br + n ≤ cbr ∨ cbr + n ≤ br.
Hypothesis Hbrk : RAMBASE ≤ brk ≤ sp.
Hypothesis Hsp : sp ≤ RAMBASE + n * 65536.

Lemma copyaddrspace_ok ram :
  let ram' := copyaddrspace br brk cbr n sp ram in
  (∀ a, RAMBASE ≤ a < brk ∨ sp ≤ a < RAMBASE + n * 65536 → ram' (phys cbr a) = ram (phys br a)) ∧
  (∀ x, ¬ in_frames cbr n x → ram' x = ram x).
Proof.
  unfold copyaddrspace, RAMBASE in *. cbv zeta. rewrite !Z.shiftl_mul_pow2 by lia.
  change (2 ^ 16) with 65536. rewrite !u32_small by lia. unfold in_frames. split.
  - intros a Ha. rewrite !phys_eq. unfold RAMBASE. rewrite !ram_copy_at.
    destruct (decide (sp ≤ a)).
    + rewrite decide_True by lia. rewrite decide_False by lia. f_equal. lia.
    + rewrite decide_False by lia. rewrite decide_True by lia. f_equal. lia.
  - intros x Hx. rewrite !ram_copy_at. rewrite !decide_False by lia. done.
Qed.
End copy.

(** ** The descriptors *)

Section fork.
Context {S : Type} `{BlockOps S}.
Abbreviation K := (kst S).
Implicit Types k : K.

(** How many of the descriptors [l] are open on file [f]. *)
Definition fd_count (l : list (option nat)) (f : nat) : Z :=
  Z.of_nat (length (filter (λ o, o = Some f) l)).

Lemma fd_count_cons o l f : fd_count (o :: l) f = (if decide (o = Some f) then 1 else 0) + fd_count l f.
Proof. unfold fd_count. rewrite filter_cons. case_decide; simpl length; lia. Qed.

(** The descriptors of the child: those of the parent, and what its entry held elsewhere. *)
Definition inherit (l old : list (option nat)) : list (option nat) :=
  zip_with (λ o x, match o with Some f => Some f | None => x end) l old.

Definition add_refs (l : list (option nat)) (f : nat) (x : file) : file :=
  set_fref (fi_ref x + fd_count l f) x.

(** What the loop over the descriptors from [fd] does to the kernel. *)
Definition after_dup (l : list (option nat)) (np : nat) (ofile : list (option nat)) (k : K) : K :=
  with_files (imap (add_refs l) (k_files k)) (with_pt (upd_proc np (set_ofile ofile) (k_pt k)) k).

Lemma alter_ext_list {A} (f g : A → A) i (l : list A) :
  (∀ x, l !! i = Some x → f x = g x) → alter f i l = alter g i l.
Proof.
  intros Hfg. apply list_eq. intros j. rewrite !list_lookup_alter. case_decide; [subst|done].
  destruct (l !! j) eqn:E; [|done]. simpl. by rewrite Hfg.
Qed.

Lemma alter_id_list {A} (f : A → A) i (l : list A) :
  (∀ x, l !! i = Some x → f x = x) → alter f i l = l.
Proof. intros Hf. rewrite (alter_ext_list f id) by done. by apply list_alter_id. Qed.

Lemma cur_ofile_at k me p :
  pt_cur (k_pt k) = Some me → procs_at (k_pt k) me = Some p → cur_ofile k = Ret (pr_ofile p) k.
Proof. intros Hc Hp. unfold cur_ofile, curproc, bind, gets, ret. by rewrite Hc, (getp_at _ _ _ Hp). Qed.

Lemma filedup_at k f x :
  k_files k !! f = Some x → 1 ≤ fi_ref x →
  filedup f k = Ret f (with_files (alter (set_fref (fi_ref x + 1)) f (k_files k)) k).
Proof.
  intros Hf Hr. unfold filedup, file_at, bind, gets, upd_file, modify, ret.
  rewrite (list_lookup_total_correct _ _ _ Hf). destruct (Z.ltb_spec (fi_ref x) 1); [lia|done].
Qed.

Lemma imap_add_refs_none files : imap (add_refs []) files = files.
Proof.
  apply list_eq. intros i. rewrite list_lookup_imap. destruct (files !! i) as [x|]; [|done]. simpl.
  unfold add_refs, fd_count. simpl. rewrite Z.add_0_r. by destruct x.
Qed.

Lemma imap_add_refs_skip l files : imap (add_refs (None :: l)) files = imap (add_refs l) files.
Proof.
  apply imap_ext. intros i x _. unfold add_refs. by rewrite fd_count_cons, decide_False.
Qed.

Lemma imap_add_refs_some l f files :
  imap (add_refs (Some f :: l)) files = imap (add_refs l) (alter (λ x, set_fref (fi_ref x + 1) x) f files).
Proof.
  apply list_eq. intros i. rewrite !list_lookup_imap, list_lookup_alter.
  destruct (decide (f = i)) as [->|Hne].
  - destruct (files !! i) as [x|]; [|done]. simpl. unfold add_refs. rewrite fd_count_cons, decide_True by done.
    unfold set_fref. simpl. do 2 f_equal. lia.
  - destruct (files !! i) as [x|]; [|done]. simpl. unfold add_refs.
    by rewrite fd_count_cons, decide_False by congruence.
Qed.

Definition fds_ok (l : list (option nat)) (files : list file) : Prop :=
  ∀ f, Some f ∈ l → ∃ x, files !! f = Some x ∧ 1 ≤ fi_ref x.

Lemma fds_ok_tail o l files : fds_ok (o :: l) files → fds_ok l files.
Proof. intros Hok f Hf. apply Hok. by right. Qed.

Lemma fds_ok_alter f l files :
  fds_ok l files → fds_ok l (alter (λ x, set_fref (fi_ref x + 1) x) f files).
Proof.
  intros Hok g Hg. destruct (Hok g Hg) as (x & Hx & Hr). rewrite list_lookup_alter.
  destruct (decide (f = g)) as [->|]; rewrite Hx; eexists; (split; [done|]); simpl; lia.
Qed.

Lemma dup_all_ok me np p : ∀ l pre x old k,
  np ≠ me → pt_cur (k_pt k) = Some me → procs_at (k_pt k) me = Some p → pr_ofile p = pre ++ l →
  procs_at (k_pt k) np = Some x → pr_ofile x = old → length old = length (pre ++ l) →
  fds_ok l (k_files k) →
  dup_all (length l) (length pre) np k =
    Ret tt (after_dup l np (take (length pre) old ++ inherit l (drop (length pre) old)) k).
Proof.
  induction l as [|o l IH]; intros pre x old k Hne Hc Hp Hl Hx Hold Hlen Hok.
  - cbn [length dup_all]. unfold ret, after_dup. f_equal. rewrite imap_add_refs_none.
    unfold inherit. rewrite app_nil_r in Hlen. cbn [zip_with]. rewrite app_nil_r, take_ge by lia.
    destruct k as [? ? ? t ? ? ? ? ? ? ? ?]. unfold with_files, with_pt. cbn. f_equal.
    destruct t as [procs ? ? ?]. unfold upd_proc. cbn. f_equal. symmetry. apply alter_id_list.
    intros y Hy. cbn in Hx. rewrite Hx in Hy. injection Hy as <-. subst old. by destruct x.
  - cbn [length dup_all]. unfold bind at 1. rewrite (cur_ofile_at k me p Hc Hp).
    assert (pr_ofile p !!! length pre = o) as Ho.
    { rewrite Hl. apply list_lookup_total_correct. by apply list_lookup_middle. }
    rewrite Ho. assert (pr_ofile p = (pre ++ [o]) ++ l) as Hl' by (by rewrite Hl, <- app_assoc).
    assert (length (pre ++ [o]) = Datatypes.S (length pre)) as El by (rewrite length_app; simpl; lia).
    assert (length pre < length old)%nat as Hlt by (rewrite Hlen, length_app; simpl; lia).
    destruct (lookup_lt_is_Some_2 old (length pre) Hlt) as [y Hy].
    destruct o as [f|].
    + destruct (Hok f) as (xf & Hf & Hr); [by left|]. unfold bind at 1 2. rewrite (filedup_at k f xf Hf Hr).
      unfold on_pt, lift, modify.
      set (k1 := with_pt _ _).
      assert (procs_at (k_pt k1) np = Some (set_ofile (<[length pre := Some f]> old) x)) as Hx1.
      { unfold k1, with_pt, with_files. cbn [k_pt]. rewrite upd_proc_at, Hx, decide_True by done. simpl. by rewrite Hold. }
      rewrite <- El. rewrite (IH (pre ++ [Some f]) (set_ofile (<[length pre := Some f]> old) x)
        (<[length pre := Some f]> old) k1).
      * assert (take (length (pre ++ [Some f])) (<[length pre := Some f]> old) ++
          inherit l (drop (length (pre ++ [Some f])) (<[length pre := Some f]> old)) =
          take (length pre) old ++ inherit (Some f :: l) (drop (length pre) old)) as ->.
        { rewrite El, (drop_insert_lt old), take_insert_lt, (take_S_r _ _ _ Hy), (drop_S _ _ _ Hy) by lia.
          rewrite insert_app_r_alt by (rewrite length_take; lia). rewrite length_take.
          replace (length pre - _)%nat with O by lia. simpl. by rewrite <- app_assoc. }
        f_equal. unfold after_dup, k1, with_files, with_pt. cbn. f_equal.
        -- rewrite imap_add_refs_some. f_equal. apply alter_ext_list. intros z Hz. rewrite Hf in Hz. by injection Hz as <-.
        -- unfold upd_proc. cbn. f_equal. rewrite list_alter_twice. by apply alter_ext_list.
      * done.
      * done.
      * unfold k1, with_pt, with_files. cbn [k_pt]. rewrite upd_proc_at, Hp, decide_False by done. done.
      * done.
      * done.
      * done.
      * rewrite length_insert. by rewrite <- app_assoc.
      * unfold k1. cbn. apply fds_ok_tail in Hok. erewrite (alter_ext_list _ (λ x, set_fref (fi_ref x + 1) x));
          [by apply fds_ok_alter|]. intros z Hz. rewrite Hf in Hz. by injection Hz as <-.
    + unfold bind at 1, ret. rewrite <- El. rewrite (IH (pre ++ [None]) x old k); try done.
      * unfold after_dup. rewrite imap_add_refs_skip. do 4 f_equal. rewrite El.
        rewrite (take_S_r _ _ _ Hy), <- app_assoc, (drop_S _ _ _ Hy). done.
      * by rewrite <- app_assoc.
      * by apply fds_ok_tail in Hok.
Qed.

(** ** fork() *)

(** The frames from [br] on belong to [pid]. *)
Definition owns (flist : list Z) (pid br n : Z) : Prop :=
  0 ≤ br ∧ ∀ j, br ≤ Z.of_nat j < br + n → flist !! j = Some pid.

(** Two processes do not share frames. *)
Lemma runs_disjoint pid pid' br n flist br' flist' :
  length flist = NFRAME → 1 ≤ n → owns flist pid br n → pid ≠ FREE → pid ≠ pid' →
  allocframes pid' n flist = (br', flist') → br' ≠ -1 →
  (br + n ≤ Z.of_nat NFRAME) ∧ (0 ≤ br' ∧ br' + n ≤ Z.of_nat NFRAME) ∧ (br + n ≤ br' ∨ br' + n ≤ br).
Proof.
  intros Hlen Hn [Hbr Hown] Hf Hp Ha Hr.
  destruct (allocframes_run _ _ _ _ _ Hlen Hn Ha Hr) as (H0 & Hend & Hfree & _).
  split_and!; [|done|done|].
  - specialize (Hown (Z.to_nat (br + n - 1)) ltac:(lia)). apply lookup_lt_Some in Hown. lia.
  - destruct (decide (br + n ≤ br')); [by left|]. destruct (decide (br' + n ≤ br)); [by right|].
    exfalso. set (j := Z.to_nat (Z.max br br')).
    specialize (Hown j ltac:(lia)). destruct (Hfree j ltac:(lia)) as [E|E]; congruence.
Qed.

(** What sys_fork() needs: a free entry [np], memory for the child, and a
    parent [me] in good order. *)
Record can_fork (k : K) (me np : nat) (p x : proc) (d : nat) (br : Z) (fl : list Z) : Prop := {
  cf_cur : pt_cur (k_pt k) = Some me;
  cf_parent : procs_at (k_pt k) me = Some p;
  cf_used : pr_state p ≠ UNUSED;
  cf_free : first_proc (is_state UNUSED) (pt_procs (k_pt k)) 0 = Some np;
  cf_child : procs_at (k_pt k) np = Some x;
  cf_cwd : pr_cwd p = Some d;
  cf_fds : length (pr_ofile p) = NOFILE ∧ length (pr_ofile x) = NOFILE;
  cf_files : fds_ok (pr_ofile p) (k_files k);
  cf_flist : length (k_flist k) = NFRAME;
  cf_size : 1 ≤ pr_nframes p;
  cf_alloc : allocframes (pt_nextpid (k_pt k)) (pr_nframes p) (k_flist k) = (br, fl) ∧ br ≠ -1;
  cf_pid : pr_pid p ≠ FREE ∧ pr_pid p ≠ pt_nextpid (k_pt k);
  cf_owns : owns (k_flist k) (pr_pid p) (pr_basereg p) (pr_nframes p);
}.

Lemma sys_fork_run k me np p x d br fl sp :
  can_fork k me np p x d br fl →
  ∃ k', sys_fork sp k = Ret (pt_nextpid (k_pt k)) k' ∧
    (∃ c, procs_at (k_pt k') np = Some c ∧
      pr_state c = RUNNABLE ∧ pr_parent c = Some me ∧ pr_pid c = pt_nextpid (k_pt k) ∧
      pr_basereg c = br ∧ pr_nframes c = pr_nframes p ∧ pr_killed c = 0 ∧
      pr_ofile c = inherit (pr_ofile p) (pr_ofile x) ∧ pr_cwd c = Some d ∧ pr_curbrk c = pr_curbrk x) ∧
    (∀ i, i ≠ np → procs_at (k_pt k') i = procs_at (k_pt k) i) ∧
    k_files k' = imap (add_refs (pr_ofile p)) (k_files k) ∧ k_flist k' = fl ∧
    f_icache (k_fs k') = alter (λ ip, set_ref (i_ref ip + 1) ip) d (f_icache (k_fs k)) ∧
    k_ram k' = copyaddrspace (pr_basereg p) (pr_curbrk p) br (pr_nframes p) sp (k_ram k).
Proof.
  intros [Hc Hp Hu Hfree Hx Hd [Hl1 Hl2] Hfd Hfl Hn [Ha Hbr] [Hp0 Hpn] Hown].
  assert (np ≠ me) as Hne.
  { intros ->. destruct (first_proc_at _ _ _ Hfree) as (y & Hy & Hs%is_state_true). simplify_eq. }
  unfold sys_fork. set (t1 := mkPt (pt_procs (upd_proc np (λ y, set_pid (pt_nextpid (k_pt k)) (set_state EMBRYO y)) (k_pt k)))
    (s32 (pt_nextpid (k_pt k) + 1)) (pt_init (k_pt k)) (pt_cur (k_pt k))).
  assert (allocproc (k_pt k) = Ret (Some np) t1) as Halloc by (unfold allocproc; by rewrite Hfree).
  unfold bind at 1. unfold on_pt at 1, lift at 1. rewrite Halloc.
  assert (∀ i, procs_at t1 i = procs_at (upd_proc np (λ y, set_pid (pt_nextpid (k_pt k)) (set_state EMBRYO y)) (k_pt k)) i) as Ht1 by done.
  assert (procs_at t1 me = Some p) as Hp1 by (rewrite Ht1, upd_proc_at, Hp, decide_False by done; done).
  set (x1 := set_pid (pt_nextpid (k_pt k)) (set_state EMBRYO x)).
  assert (procs_at t1 np = Some x1) as Hx1 by (rewrite Ht1, upd_proc_at, Hx, decide_True by done; done).
  set (k1 := with_pt t1 k).
  assert (curproc k1 = Ret me k1) as Hcur by (unfold curproc, bind, gets, ret, k1; cbn; by rewrite Hc).
  unfold bind at 1. rewrite Hcur. unfold bind at 1 2 3, gets.
  change (k_pt k1) with t1. rewrite (getp_at _ _ _ Hp1), (getp_at _ _ _ Hx1).
  change (pr_pid x1) with (pt_nextpid (k_pt k)). change (k_flist k1) with (k_flist k). rewrite Ha.
  unfold bind at 1, modify at 1. rewrite (proj2 (Z.eqb_neq br (-1)) Hbr).
  unfold bind at 1, on_pt at 1, lift at 1, modify at 1.
  set (k2 := with_pt _ _).
  set (c := mkProc br (pr_nframes p) RUNNABLE (pr_pid x1) (Some me) (pr_curbrk x1) (pr_bssend x1) None 0
    (pr_exitstatus x1) (pr_ofile x1) (pr_cwd x1) (safestrcpy (pr_name x1) (pr_name p) 16)).
  assert (∀ i, i ≠ np → procs_at (k_pt k2) i = procs_at (k_pt k) i) as Hk2o.
  { intros i Hi. unfold k2, with_pt. cbn [k_pt]. unfold fork_entry. change (k_pt (with_flist fl k1)) with t1.
    rewrite upd_proc_at, Ht1, upd_proc_at, !(decide_False (P := i = np)) by done. by destruct (procs_at (k_pt k) i). }
  assert (procs_at (k_pt k2) np = Some c) as Hk2n.
  { unfold k2, with_pt. cbn [k_pt]. unfold fork_entry. change (k_pt (with_flist fl k1)) with t1.
    rewrite upd_proc_at, Hx1, decide_True by done. cbn. by rewrite (getp_at _ _ _ Hp1). }
  assert (pt_cur (k_pt k2) = Some me) as Hk2c by exact Hc.
  unfold bind at 1.
  pose proof (dup_all_ok me np p (pr_ofile p) [] c (pr_ofile x) k2 Hne Hk2c) as Hdup.
  cbn [length app] in Hdup. rewrite Hl1 in Hdup. rewrite Hdup; [| |done|exact Hk2n|done|by rewrite Hl2|exact Hfd].
  2: { rewrite Hk2o by done. exact Hp. }
  cbn [take drop app]. rewrite Hd. unfold bind, on_fs, on_pt, lift, modify, ret, idup.
  unfold after_dup, with_ram, with_fs, with_files, with_pt, upd_inode, modify.
  cbn [k_fs k_files k_pipes k_pt k_flist k_errno k_out k_in k_echo k_crnl k_past_seekbuf k_ram].
  eexists. split; [reflexivity|].
  cbn [k_fs k_files k_pipes k_pt k_flist k_errno k_out k_in k_echo k_crnl k_past_seekbuf k_ram].
  split_and!; [| |done..].
  - eexists. rewrite !upd_proc_at, !decide_True by done. rewrite Hk2n. by split_and!.
  - intros i Hi. rewrite !upd_proc_at, !decide_False, Hk2o by done. by destruct (procs_at (k_pt k) i).
Qed.
End fork.

Section claims.
Context {S : Type} `{BlockOps S}.
Abbreviation K := (kst S).

(** C20.  fork() makes a runnable child with the pid it returns, in frames that no
    other process owns: the child's text, data, bss (up to the parent's brk)
    and stack (from the stack pointer up) hold the same bytes at the same
    addresses as the parent's, no other byte of memory changes, every open
    file of the parent is shared and counted, and the other processes are as
    they were.  The child's own brk is not set: it is what the entry held. *)
Theorem fork_child (k : K) me np p x d br fl sp :
  can_fork k me np p x d br fl →
  RAMBASE ≤ pr_curbrk p ≤ sp → sp ≤ RAMBASE + pr_nframes p * 65536 →
  ∃ k' c, sys_fork sp k = Ret (pt_nextpid (k_pt k)) k' ∧
    procs_at (k_pt k') np = Some c ∧ pr_state c = RUNNABLE ∧ pr_parent c = Some me ∧
    pr_pid c = pt_nextpid (k_pt k) ∧ pr_basereg c = br ∧
    pr_ofile c = inherit (pr_ofile p) (pr_ofile x) ∧ pr_cwd c = Some d ∧ pr_curbrk c = pr_curbrk x ∧
    k_files k' = imap (add_refs (pr_ofile p)) (k_files k) ∧
    (∀ i, i ≠ np → procs_at (k_pt k') i = procs_at (k_pt k) i) ∧
    (∀ a, RAMBASE ≤ a < pr_curbrk p ∨ sp ≤ a < RAMBASE + pr_nframes p * 65536 →
       k_ram k' (phys br a) = k_ram k (phys (pr_basereg p) a)) ∧
    (∀ y, ¬ in_frames br (pr_nframes p) y → k_ram k' y = k_ram k y) ∧
    (∀ y, in_frames br (pr_nframes p) y → ¬ in_frames (pr_basereg p) (pr_nframes p) y).
Proof.
  intros Hcf Hbrk Hsp. destruct (sys_fork_run k me np p x d br fl sp Hcf)
    as (k' & E & (c & Hc & C1 & C2 & C3 & C4 & C5 & C6 & C7 & C8 & C9) & Hoth & Hfiles & Hfl & Hic & Hram).
  destruct Hcf as [_ _ _ _ _ _ _ _ Hlen Hn [Ha Hbr] [Hp0 Hpn] Hown].
  destruct (runs_disjoint _ _ _ _ _ _ _ Hlen Hn Hown Hp0 Hpn Ha Hbr) as (Hend & [H0 Hend'] & Hdisj).
  pose proof (proj1 Hown). change (Z.of_nat NFRAME) with 16 in *.
  destruct (copyaddrspace_ok (pr_basereg p) br (pr_nframes p) (pr_curbrk p) sp) with (ram := k_ram k)
    as (Hcopy & Hsame); [lia..|].
  exists k', c. rewrite Hram. split_and!; try done. intros y. unfold in_frames. lia.
Qed.

(** C22.  When fork() fails it returns -1 and says why: EAGAIN when the process
    table is full, and then nothing else has changed; ENOMEM when there is not
    enough memory, and then the entry is given back and neither memory, files
    nor frames have changed. *)
Theorem fork_errors (k : K) me p sp :
  pt_cur (k_pt k) = Some me → procs_at (k_pt k) me = Some p → pr_state p ≠ UNUSED →
  length (k_flist k) = NFRAME → 1 ≤ pr_nframes p →
  match first_proc (is_state UNUSED) (pt_procs (k_pt k)) 0 with
  | None => sys_fork sp k = Ret (-1) (with_errno EAGAIN k)
  | Some np =>
      fst (allocframes (pt_nextpid (k_pt k)) (pr_nframes p) (k_flist k)) = -1 →
      ∃ k', sys_fork sp k = Ret (-1) k' ∧ k_errno k' = ENOMEM ∧
        is_state UNUSED (getp (k_pt k') np) = true ∧
        (∀ i, i ≠ np → procs_at (k_pt k') i = procs_at (k_pt k) i) ∧
        k_files k' = k_files k ∧ k_flist k' = k_flist k ∧ k_ram k' = k_ram k ∧ k_fs k' = k_fs k
  end.
Proof.
  intros Hc Hp Hu Hlen Hn. destruct (first_proc _ _ _) as [np|] eqn:Hf.
  - destruct (allocframes _ _ _) as [br fl] eqn:Ha. simpl. intros ->.
    destruct (first_proc_at _ _ _ Hf) as (x & Hx & Hs%is_state_true).
    assert (np ≠ me) as Hne by (intros ->; simplify_eq).
    destruct (allocframes_fail _ _ _ _ Hlen Hn Ha) as [-> _].
    set (f := λ y, set_pid (pt_nextpid (k_pt k)) (set_state EMBRYO y)).
    set (t1 := mkPt (pt_procs (upd_proc np f (k_pt k))) (s32 (pt_nextpid (k_pt k) + 1))
      (pt_init (k_pt k)) (pt_cur (k_pt k))).
    assert (∀ i, procs_at t1 i = procs_at (upd_proc np f (k_pt k)) i) as Ht1 by done.
    assert (procs_at t1 me = Some p) as Hp1 by (rewrite Ht1, upd_proc_at, Hp, decide_False by done; done).
    assert (procs_at t1 np = Some (f x)) as Hx1 by (rewrite Ht1, upd_proc_at, Hx, decide_True by done; done).
    assert (sys_fork sp k = Ret (-1) (with_errno ENOMEM (with_pt (upd_proc np (set_state UNUSED) t1)
      (with_flist (k_flist k) (with_pt t1 k))))) as ->.
    { assert (allocproc (k_pt k) = Ret (Some np) t1) as Halloc by (unfold allocproc; by rewrite Hf).
      unfold sys_fork. unfold bind at 1, on_pt at 1, lift at 1. rewrite Halloc.
      assert (curproc (with_pt t1 k) = Ret me (with_pt t1 k)) as Hcur
        by (unfold curproc, bind, gets, ret; cbn; by rewrite Hc).
      unfold bind at 1. rewrite Hcur. unfold bind at 1 2 3, gets, ret.
      cbn [k_pt with_pt k_flist]. rewrite (getp_at _ _ _ Hp1), (getp_at _ _ _ Hx1).
      change (pr_pid (f x)) with (pt_nextpid (k_pt k)). by rewrite Ha. }
    eexists. split; [reflexivity|]. unfold with_errno, with_pt, with_flist.
    cbn [k_fs k_files k_pt k_flist k_errno k_ram].
    split_and!; try done.
    + apply is_state_true. erewrite getp_at by (rewrite upd_proc_at, Hx1, decide_True by done; reflexivity). done.
    + intros i Hi. rewrite upd_proc_at, Ht1, upd_proc_at, !(decide_False (P := i = np)) by done.
      by destruct (procs_at (k_pt k) i).
  - unfold sys_fork, bind, on_pt, lift, allocproc. rewrite Hf. cbn. by destruct k.
Qed.
End claims.

(** A kernel with a process of two frames, one file open twice. *)
Definition parent_proc : proc :=
  mkProc 0 2 RUNNING 1 None (RAMBASE + 5000) (RAMBASE + 4000) None 0 0
    (Some 3%nat :: None :: Some 3%nat :: replicate 13 None) (Some 7%nat) (zeros 16).
Definition fork_kernel : kst lstate :=
  mkK (open_fs small_device small_sb 0 0)
    (replicate 3 inhabitant ++ mkFile FD_CONSOLE 2 1 1 None None 0 :: replicate 96 inhabitant)
    [] (mkPt (parent_proc :: replicate 63 inhabitant) 2 (Some O) (Some O))
    (1 :: 1 :: replicate 14 0) 0 [] [] 0 0 [] (λ a, a mod 251).

Lemma fork_kernel_can_fork :
  can_fork fork_kernel 0 1 parent_proc inhabitant 7 2 (1 :: 1 :: 2 :: 2 :: replicate 12 0).
Proof.
  split; try reflexivity; try discriminate.
  - split; reflexivity.
  - intros f Hf. assert (f = 3%nat) as ->.
    { change (Some f ∈ Some 3%nat :: None :: Some 3%nat :: replicate 13 None) in Hf.
      apply elem_of_cons in Hf as [[=]|Hf]; [done|]. apply elem_of_cons in Hf as [?|Hf]; [done|].
      apply elem_of_cons in Hf as [[=]|Hf]; [done|]. by apply elem_of_replicate_inv in Hf. }
    exists (mkFile FD_CONSOLE 2 1 1 None None 0). split; [reflexivity|done].
  - split; [vm_compute; reflexivity|done].
  - split; vm_compute; discriminate.
  - split; [done|]. intros j Hj. simpl in Hj. destruct j as [|[|j]]; [reflexivity|reflexivity|lia].
Qed.

Lemma fork_child_witness :
  ∃ k' c, sys_fork (RAMBASE + 130000) fork_kernel = Ret 2 k' ∧ procs_at (k_pt k') 1%nat = Some c ∧
    pr_basereg c = 2 ∧ k_ram k' (phys 2 (RAMBASE + 4999)) = 4999 mod 251.
Proof.
  destruct (fork_child fork_kernel 0 1 parent_proc inhabitant 7 2 _ (RAMBASE + 130000) fork_kernel_can_fork)
    as (k' & c & E & Hc & _ & _ & _ & Hb & _ & _ & _ & _ & _ & Hram & _).
  - vm_compute. split; discriminate.
  - vm_compute. discriminate.
  - exists k', c. split; [exact E|]. split; [exact Hc|]. split; [exact Hb|].
    rewrite Hram by (left; vm_compute; split; [discriminate|reflexivity]). reflexivity.
Defined.

(** The same kernel with all the memory taken. *)
Definition full_kernel : kst lstate := with_flist (1 :: 1 :: replicate 14 5) fork_kernel.

Lemma fork_errors_witness :
  ∃ k', sys_fork (RAMBASE + 130000) full_kernel = Ret (-1) k' ∧ k_errno k' = ENOMEM.
Proof.
  destruct (fork_errors full_kernel 0 parent_proc (RAMBASE + 130000)) as (k' & E & He & _).
  - reflexivity.
  - reflexivity.
  - discriminate.
  - reflexivity.
  - simpl. lia.
  - vm_compute. reflexivity.
  - exists k'. split; [exact E|exact He].
Defined.
