(* ===== verification/Exec.v ===== *)
(** * exec() (kern/exec.c)

    The arguments are the strings that [argv] points to, up to its NULL
    pointer.  Address [a] of a process whose base register is [br] is byte
    [(br << 16) + a - RAMBASE] of the expansion RAM. *)

From S2P Require Import Prelude Bytes Params Kstring Store Ondisk Fs Dir Frames Pipe Proc File Sysfile Kalloc Sysproc.

Definition AOUT_MAGIC : Z := 24594.
Definition AOUTSZ : Z := 20.
Definition START_ADDR : Z := 1048576.

(** The fields of struct aout (include/a.out.h) that exec uses. *)
Definition a_magic (h : list Z) : Z := ld16 h 0.
Definition a_bss_end (h : list Z) : Z := ld32 h 12.
Definition a_total_size (h : list Z) : Z := ld32 h 16.

(** A store of bytes at an address of the process. *)
Definition ram_store (br addr : Z) (bs : list Z) (ram : Z → Z) : Z → Z :=
  let base := Z.shiftl br 16 + addr - RAMBASE in
  λ a, if (base <=? a) && (a <? base + zlen bs) then byte bs (a - base) else ram a.

(** The characters of a string and its NUL, as memmove() of [strlen + 1] bytes copies them. *)
Definition string_bytes (s : list Z) : list Z := take (Z.to_nat (strlen s)) s ++ [0].

(** The loop that pushes the strings, last one first.  The result is the stack
    pointer, the addresses in argument order, and the memory. *)
Fixpoint push_strings (br : Z) (args : list (list Z)) (ptr : Z) (ram : Z → Z)
    : Z * list Z * (Z → Z) :=
  match args with
  | [] => (ptr, [], ram)
  | s :: args =>
      let '(ptr, ptrs, ram) := push_strings br args ptr ram in
      let ptr := ptr - zlen (string_bytes s) in
      (ptr, ptr :: ptrs, ram_store br ptr (string_bytes s) ram)
  end.

(** The loop that stores the argument pointers. *)
Fixpoint store_ptrs (br ptr : Z) (ptrs : list Z) (ram : Z → Z) : Z * (Z → Z) :=
  match ptrs with
  | [] => (ptr, ram)
  | p :: ptrs => store_ptrs br (ptr + 4) ptrs (ram_store br ptr (be_enc 4 p) ram)
  end.

(** The stack of the new program, below [top]: argc, a pointer to the argv
    array, the array with its NULL, then the strings. *)
Definition exec_stack (br top : Z) (args : list (list Z)) (ram : Z → Z) : Z * (Z → Z) :=
  let argc := zlen args in
  let '(ptr, ptrs, ram) := push_strings br args top ram in
  let ptr := ptr - (4 + argc * 4) in
  let ptr := ptr - 2 * 4 in
  let ptr := Z.land ptr 4294967294 in
  let low := ptr in
  let ram := ram_store br ptr (be_enc 4 argc) ram in
  let ptr := ptr + 4 in
  let ram := ram_store br ptr (be_enc 4 (ptr + 4)) ram in
  let '(ptr, ram) := store_ptrs br (ptr + 4) ptrs ram in
  (low, ram_store br ptr (be_enc 4 0) ram).

(** How exec ends: back in the caller, or in the new program with this stack pointer. *)
Inductive exec_result := ExecFailed | ExecJump (sp : Z).

Section exec.
Context {S : Type} `{BlockOps S}.
Abbreviation K := (kst S).

Definition exec_fail (err : Z) : M K exec_result := set_errno err ;; ret ExecFailed.

(** The loop that loads the program at START_ADDR, 512 bytes at a time. *)
Definition load_program (fd br : Z) (size : Z) : M K unit :=
  loop (Z.to_nat size + 2) (λ ptr,
    let* r := sys_read fd true 512 in
    match r with
    | Done cnt bs =>
        if cnt <=? 0 then ret (inr tt)
        else modify (λ k, with_ram (ram_store br ptr bs (k_ram k)) k) ;; ret (inl (ptr + cnt))
    | Sleeps _ _ => fault "exec: the program is a pipe"
    end) START_ADDR.

(** exec once the header [h] of the program, open as [fd], is known to be good.
    [kmem] is the kernel's brk: end of bss, stack pointer and current value;
    [size] bounds the size of the program file. *)
Definition exec_image (fd : Z) (pathname h : list Z) (args : list (list Z))
    (kmem : Z * Z * Z) (size : Z) : M K exec_result :=
  let nframes := Z.shiftr (u32 (a_total_size h + 65535)) 16 in
  let* me := curproc in
  let* pid := gets (λ k, pr_pid (getp (k_pt k) me)) in
  let* r := gets (λ k, allocframes pid nframes (k_flist k)) in
  let '(basereg, flist) := r in
  modify (with_flist flist) ;;
  if basereg =? -1 then exec_fail ENOMEM else
  set_cur (λ p, mkProc basereg nframes (pr_state p) (pr_pid p) (pr_parent p) (a_bss_end h) (a_bss_end h)
    (pr_chan p) (pr_killed p) (pr_exitstatus p) (pr_ofile p) (pr_cwd p)
    (safestrcpy (pr_name p) pathname 16)) ;;
  let '(kbss, ksp, kcur) := kmem in
  let cnt := fold_left (λ n s, n + strlen s + 1) args 0 in
  match fst (ksbrk kbss ksp cnt kcur) with
  | None => panic "exec"
  | Some _ =>
      let top := START_ADDR + Z.land (a_total_size h) 4294967294 in
      let* ram := gets k_ram in
      let '(low, ram) := exec_stack basereg top args ram in
      modify (with_ram ram) ;;
      sys_lseek fd 0 SEEK_SET ;;
      load_program fd basereg size ;;
      sys_close fd ;;
      ret (ExecJump low)
  end.

Definition sys_exec (pathname : list Z) (args : list (list Z)) (kmem : Z * Z * Z) (size : Z)
    : M K exec_result :=
  set_errno 0 ;;
  if (zlen args <? 1) || (zlen args >? MAXARGS) then exec_fail EFAULT else
  let* fd := sys_open (Some pathname) O_RDONLY in
  if fd =? -1 then exec_fail ENOENT else
  let* r := sys_read fd true AOUTSZ in
  match r with
  | Done cnt h =>
      if negb (cnt =? AOUTSZ) then exec_fail EINVAL else
      if negb (a_magic h =? AOUT_MAGIC) then exec_fail EINVAL else
      exec_image fd pathname h args kmem size
  | Sleeps _ _ => fault "exec: the program is a pipe"
  end.
End exec.
