(* ===== verification/ExecSpec.v ===== *)
(** * The stack that exec() builds for a new program *)

From S2P Require Import Prelude Bytes Params Kstring KstringSpec Store Ondisk Fs Dir Frames FramesSpec Pipe Proc ProcSpec File Sysfile Sysproc SysprocSpec Exec.

(** ** Stores in the address space of a process *)

(** The bytes of the program at its addresses [a], [a + 1], ... are [bs]. *)
Definition holds_at (br a : Z) (bs : list Z) (ram : Z → Z) : Prop :=
  ∀ j, 0 ≤ j < zlen bs → ram (phys br (a + j)) = byte bs j.

(** Nothing outside the addresses [lo, hi) of the process differs. *)
Definition only_in (br lo hi : Z) (ram ram' : Z → Z) : Prop :=
  ∀ x, ¬ (phys br lo ≤ x < phys br hi) → ram' x = ram x.

Lemma ram_store_only br a bs ram : only_in br a (a + zlen bs) ram (ram_store br a bs ram).
Proof.
  intros x Hx. unfold ram_store. fold (phys br a). rewrite !phys_eq in *.
  destruct (Z.leb_spec (br * 65536 + a - RAMBASE) x),
    (Z.ltb_spec x (br * 65536 + a - RAMBASE + zlen bs)); simpl; done || lia.
Qed.

Lemma ram_store_holds br a bs ram : holds_at br a bs (ram_store br a bs ram).
Proof.
  intros j Hj. unfold ram_store. fold (phys br a). rewrite !phys_eq.
  destruct (Z.leb_spec (br * 65536 + a - RAMBASE) (br * 65536 + (a + j) - RAMBASE)),
    (Z.ltb_spec (br * 65536 + (a + j) - RAMBASE) (br * 65536 + a - RAMBASE + zlen bs)); simpl; try lia.
  f_equal. lia.
Qed.

Lemma only_in_refl br lo hi ram : only_in br lo hi ram ram.
Proof. done. Qed.

Lemma only_in_trans br lo hi lo1 hi1 lo2 hi2 ram ram1 ram2 :
  only_in br lo1 hi1 ram ram1 → only_in br lo2 hi2 ram1 ram2 →
  lo ≤ lo1 → hi1 ≤ hi → lo ≤ lo2 → hi2 ≤ hi → only_in br lo hi ram ram2.
Proof.
  intros H1 H2 ? ? ? ? x Hx. rewrite !phys_eq in Hx.
  rewrite H2, H1; [done|rewrite !phys_eq; lia|rewrite !phys_eq; lia].
Qed.

Lemma holds_at_keep br a bs lo hi ram ram' :
  holds_at br a bs ram → only_in br lo hi ram ram' → a + zlen bs ≤ lo ∨ hi ≤ a → holds_at br a bs ram'.
Proof.
  intros Hh Ho Hd j Hj. rewrite Ho; [by apply Hh|]. rewrite !phys_eq. lia.
Qed.

(** ** The strings *)

Lemma string_bytes_cstr s : string_bytes s = cstr s ++ [0].
Proof.
  unfold string_bytes. f_equal. rewrite strlen_cstr. unfold zlen. rewrite Nat2Z.id.
  induction s as [|c s IH]; simpl; [done|]. destruct (_ =? _); simpl; [done|]. by rewrite IH.
Qed.

Definition strings_size (args : list (list Z)) : Z :=
  foldr (λ s n, zlen (string_bytes s) + n) 0 args.

Lemma strings_size_nonneg args : 0 ≤ strings_size args.
Proof. induction args as [|s args IH]; simpl; [lia|]. pose proof (zlen_nonneg (string_bytes s)). lia. Qed.

Lemma push_strings_ok br : ∀ args ptr ram ptr' ptrs ram',
  push_strings br args ptr ram = (ptr', ptrs, ram') →
  ptr' = ptr - strings_size args ∧ length ptrs = length args ∧ only_in br ptr' ptr ram ram' ∧
  ∀ i s, args !! i = Some s → ∃ p, ptrs !! i = Some p ∧ ptr' ≤ p ∧ p + zlen (string_bytes s) ≤ ptr ∧
    holds_at br p (string_bytes s) ram'.
Proof.
  induction args as [|s args IH]; intros ptr ram ptr' ptrs ram'; simpl.
  - intros [= <- <- <-]. split_and!; [lia|done|apply only_in_refl|done].
  - destruct (push_strings br args ptr ram) as [[ptr1 ptrs1] ram1] eqn:E. intros [= <- <- <-].
    destruct (IH _ _ _ _ _ E) as (-> & Hlen & Hout & Hin). pose proof (zlen_nonneg (string_bytes s)).
    pose proof (strings_size_nonneg args).
    set (q := ptr - strings_size args - zlen (string_bytes s)).
    pose proof (ram_store_only br q (string_bytes s) ram1) as Hst.
    split_and!; [lia|simpl; lia| |].
    + eapply only_in_trans; [exact Hout|exact Hst|lia..].
    + intros [|i] s' Hs'; simpl in *.
      * injection Hs' as <-. exists q. split_and!; [done|lia|lia|apply ram_store_holds].
      * destruct (Hin i s' Hs') as (p & Hp & H1 & H2 & H3). exists p. split_and!; [done|lia|lia|].
        eapply holds_at_keep; [exact H3|exact Hst|]. right. unfold q. lia.
Qed.

Lemma store_ptrs_ok br : ∀ ptrs ptr ram ptr' ram',
  store_ptrs br ptr ptrs ram = (ptr', ram') →
  ptr' = ptr + 4 * zlen ptrs ∧ only_in br ptr ptr' ram ram' ∧
  ∀ i p, ptrs !! i = Some p → holds_at br (ptr + 4 * Z.of_nat i) (be_enc 4 p) ram'.
Proof.
  induction ptrs as [|p ptrs IH]; intros ptr ram ptr' ram'; cbn [store_ptrs].
  - intros [= <- <-]. unfold zlen. simpl. split_and!; [lia|apply only_in_refl|done].
  - intros E. destruct (IH _ _ _ _ E) as (-> & Hout & Hin).
    pose proof (ram_store_only br ptr (be_enc 4 p) ram) as Hst. rewrite zlen_be_enc in Hst.
    pose proof (zlen_nonneg ptrs).
    assert (zlen (p :: ptrs) = zlen ptrs + 1) as -> by (unfold zlen; simpl; lia).
    split_and!; [lia|eapply only_in_trans; [exact Hst|exact Hout|lia..]|].
    intros [|i] q Hq; cbn in Hq.
    + injection Hq as <-. rewrite Z.mul_0_r, Z.add_0_r.
      eapply holds_at_keep; [apply ram_store_holds|exact Hout|]. rewrite zlen_be_enc. left. lia.
    + replace (ptr + 4 * Z.of_nat (Datatypes.S i)) with (ptr + 4 + 4 * Z.of_nat i) by lia. by apply Hin.
Qed.

(** ** The whole stack *)

(** The 32-bit word at an address of the process. *)
Definition ldw (br a : Z) (ram : Z → Z) : Z :=
  be_dec [ram (phys br a); ram (phys br (a + 1)); ram (phys br (a + 2)); ram (phys br (a + 3))].

Lemma ldw_holds br a v ram : 0 ≤ v < 4294967296 → holds_at br a (be_enc 4 v) ram → ldw br a ram = v.
Proof.
  intros Hv Hh. unfold ldw.
  assert (∀ j, 0 ≤ j < 4 → ram (phys br (a + j)) = byte (be_enc 4 v) j) as Hb
    by (intros; apply Hh; rewrite zlen_be_enc; lia).
  pose proof (Hb 0 ltac:(lia)) as H0. rewrite Z.add_0_r in H0. rewrite H0, !Hb by lia.
  transitivity (be_dec (be_enc 4 v)); [|rewrite be_dec_enc; by apply Z.mod_small]. f_equal.
Qed.

Lemma land_even x : 0 ≤ x < 4294967296 → Z.land x 4294967294 = x - x mod 2.
Proof.
  intros Hx. assert (Z.land x 4294967294 = Z.shiftl (Z.shiftr x 1) 1) as ->.
  { apply Z.bits_inj'. intros n Hn. rewrite Z.land_spec.
    destruct (Z.eq_dec n 0) as [->|].
    - rewrite Z.shiftl_spec_low by lia. by rewrite andb_false_r.
    - rewrite Z.shiftl_spec, Z.shiftr_spec by lia. replace (n - 1 + 1) with n by lia.
      destruct (Z.ltb_spec n 32).
      + replace (Z.testbit 4294967294 n) with true; [by rewrite andb_true_r|].
        change 4294967294 with (Z.shiftl (Z.ones 31) 1). rewrite Z.shiftl_spec by lia.
        rewrite Z.ones_spec_low by lia. done.
      + rewrite (Z.bits_above_log2 x n); [done|lia|].
        destruct (Z.eq_dec x 0) as [->|]; [simpl; lia|]. apply Z.log2_lt_pow2; [lia|].
        apply Z.lt_le_trans with (2 ^ 32); [lia|]. apply Z.pow_le_mono_r; lia. }
  rewrite Z.shiftl_mul_pow2, Z.shiftr_div_pow2 by lia. change (2 ^ 1) with 2.
  pose proof (Z.div_mod x 2 ltac:(lia)). lia.
Qed.


