(* ===== verification/Mkfs.v ===== *)
(** * Making a file system image (tools/mkfs.c)

    The image is a map from block numbers to blocks; reads and writes of the
    image file succeed (wsect() and rsect() exit otherwise).  The tool is built
    with BIG_ENDIAN_CPU, so xint() and xshort() store big-endian fields, as the
    kernel reads them.  A failed assert() is a panic.  The host directory that
    is copied is a tree; its order is the order readdir() returns. *)

From S2P Require Import Prelude Bytes Params Kstring Store Ondisk.

Definition NINODES : Z := 200.
Definition nbitmap : Z := FSSIZE / (BSIZE * 8) + 1.
Definition ninodeblocks : Z := NINODES / IPB + 1.
Definition nlog : Z := LOGSIZE.
Definition nmeta : Z := 2 + nlog + ninodeblocks + nbitmap.
Definition nblocks : Z := FSSIZE - nmeta.

(** [nativesb] *)
Definition nativesb : superblock :=
  mkSb FSSIZE nblocks NINODES nlog 2 (2 + nlog) (2 + nlog + ninodeblocks).

Record mkfs := mkMkfs {
  m_img : Z → list Z;
  m_freeinode : Z;
  m_freeblock : Z;
}.

Definition assert (b : bool) : M mkfs unit := if b then ret tt else panic "assertion failed".

Definition wsect (sec : Z) (buf : list Z) : M mkfs unit :=
  modify (λ s, mkMkfs (upd (m_img s) sec buf) (m_freeinode s) (m_freeblock s)).
Definition rsect (sec : Z) : M mkfs (list Z) := gets (λ s, m_img s sec).

Definition winode (inum : Z) (ip : inode) : M mkfs unit :=
  let bn := IBLOCK inum nativesb in
  let* buf := rsect bn in
  wsect bn (put_dinode buf (ioff inum) ip).

Definition rinode (inum : Z) : M mkfs inode :=
  let bn := IBLOCK inum nativesb in
  let* buf := rsect bn in
  ret (get_dinode buf (ioff inum) inhabitant).

Definition ialloc (type mtime : Z) : M mkfs Z :=
  let* inum := gets m_freeinode in
  modify (λ s, mkMkfs (m_img s) (u32 (m_freeinode s + 1)) (m_freeblock s)) ;;
  let* free := gets m_freeinode in
  assert (free <? NINODES) ;;
  winode inum (mkInode 0 0 0 0 type 0 0 1 0 mtime (replicate NADDR 0)) ;;
  ret inum.

(** [buf[i/8] |= 1 << (i%8)] for [i < used] *)
Fixpoint mark_used (n : nat) (i : Z) (buf : list Z) : list Z :=
  match n with
  | O => buf
  | S n => mark_used n (i + 1) (splice buf (i / 8) [u8 (Z.lor (byte buf (i / 8)) (Z.shiftl 1 (i mod 8)))])
  end.

Definition balloc (used : Z) : M mkfs unit :=
  assert (used <? nblocks) ;;
  loop (Z.to_nat (used / (BSIZE * 8)) + 1) (λ '(blocknum, used),
    if used >=? BSIZE * 8 then
      wsect blocknum (fill_block 255) ;; ret (inl (blocknum + 1, used - BSIZE * 8))
    else
      wsect blocknum (mark_used (Z.to_nat used) 0 (zeros BSIZE)) ;; ret (inr tt))
    (sb_bmapstart nativesb, used).

(** [freeblock++] *)
Definition next_block : M mkfs Z :=
  let* b := gets m_freeblock in
  modify (λ s, mkMkfs (m_img s) (m_freeinode s) (u32 (m_freeblock s + 1))) ;;
  ret b.

(** Entry [i] of the indirect block [sec], given a block if it has none. *)
Definition indirect_entry (sec i : Z) : M mkfs Z :=
  let* ind := rsect sec in
  if ld32 ind (4 * i) =? 0 then
    let* b := next_block in
    wsect sec (st32 ind (4 * i) b) ;; ret b
  else ret (ld32 ind (4 * i)).

(** Entry [i] of [din.addrs], given a block if it has none. *)
Definition direct_entry (din : inode) (i : nat) : M mkfs (Z * inode) :=
  if (i_addrs din !!! i) =? 0 then
    let* b := next_block in
    ret (b, mkInode 0 0 0 0 (i_type din) (i_major din) (i_minor din) (i_nlink din) (i_size din)
              (i_mtime din) (<[i := b]> (i_addrs din)))
  else ret (i_addrs din !!! i, din).

(** The block for block [fbn] of the file. *)
Definition file_block (din : inode) (fbn : Z) : M mkfs (Z * inode) :=
  if fbn <? NDIRECT then direct_entry din (Z.to_nat fbn)
  else
    let* r := direct_entry din (Z.to_nat NDIRECT) in
    let '(top, din) := r in
    let* ind2 := indirect_entry top ((fbn - NDIRECT) / NINDIRECT) in
    let* x := indirect_entry ind2 ((fbn - NDIRECT) mod NINDIRECT) in
    ret (x, din).

Definition iappend (inum : Z) (p : list Z) : M mkfs unit :=
  let* din := rinode inum in
  let* r := loop (length p + 1) (λ '(din, off, p),
    if zlen p >? 0 then
      let fbn := off / BSIZE in
      assert (fbn <? MAXFILE) ;;
      let* r := file_block din fbn in
      let '(x, din) := r in
      let n1 := Z.min (zlen p) ((fbn + 1) * BSIZE - off) in
      let* buf := rsect x in
      wsect x (splice buf (off - fbn * BSIZE) (slice p 0 n1)) ;;
      ret (inl (din, off + n1, drop (Z.to_nat n1) p))
    else ret (inr (din, off))) (din, i_size din, p) in
  let '(din, off) := r in
  let* free := gets m_freeblock in
  assert (free <? FSSIZE) ;;
  winode inum (mkInode 0 0 0 0 (i_type din) (i_major din) (i_minor din) (i_nlink din) off
                 (i_mtime din) (i_addrs din)).

Definition dappend (dirino : Z) (name : list Z) (fileino : Z) : M mkfs unit :=
  iappend dirino (mk_dirent (u16 fileino) (strncpy (zeros DIRSIZ) name DIRSIZ)).

(** The loop of fappend(): the data comes in blocks of BSIZE bytes. *)
Fixpoint append_data (fuel : nat) (inum : Z) (data : list Z) : M mkfs unit :=
  match fuel with
  | O => ret tt
  | S fuel =>
      if zlen data >? 0 then
        iappend inum (slice data 0 BSIZE) ;;
        append_data fuel inum (drop (Z.to_nat BSIZE) data)
      else ret tt
  end.

Definition fappend (dirino : Z) (name : list Z) (mtime : Z) (data : list Z) : M mkfs unit :=
  let* inum := ialloc T_FILE mtime in
  dappend dirino name inum ;;
  append_data (length data) inum data.

Definition makdir (dirino : Z) (newdir : list Z) (mtime : Z) : M mkfs Z :=
  let* ino := ialloc T_DIR mtime in
  dappend ino [46] ino ;;
  dappend ino [46; 46] dirino ;;
  dappend dirino newdir ino ;;
  ret ino.

(** A directory of the host: its regular files and subdirectories. *)
Inductive hostfile :=
| HFile (name : list Z) (mtime : Z) (data : list Z)
| HDir (name : list Z) (mtime : Z) (entries : list hostfile).

Fixpoint add_entry (dirino : Z) (e : hostfile) : M mkfs unit :=
  match e with
  | HFile name mtime data => fappend dirino name mtime data
  | HDir name mtime entries =>
      let* ino := makdir dirino name mtime in
      (fix add_all (l : list hostfile) : M mkfs unit :=
         match l with
         | [] => ret tt
         | e :: l => add_entry ino e ;; add_all l
         end) entries
  end.
Fixpoint add_directory (dirino : Z) (entries : list hostfile) : M mkfs unit :=
  match entries with
  | [] => ret tt
  | e :: l => add_entry dirino e ;; add_directory dirino l
  end.

(** [memmove(buf, &sb, sizeof(sb))] into a zero block *)
Definition put_sb (sb : superblock) : list Z :=
  let d := st32 (zeros BSIZE) 0 (sb_size sb) in
  let d := st32 d 4 (sb_nblocks sb) in
  let d := st32 d 8 (sb_ninodes sb) in
  let d := st32 d 12 (sb_nlog sb) in
  let d := st32 d 16 (sb_logstart sb) in
  let d := st32 d 20 (sb_inodestart sb) in
  st32 d 24 (sb_bmapstart sb).

(** The size that main() gives the root directory in the end. *)
Definition round_root (off : Z) : Z := (off / BSIZE + 1) * BSIZE.

Definition mkfs_main (entries : list hostfile) : M mkfs unit :=
  modify (λ s, mkMkfs (λ _, zeros BSIZE) (m_freeinode s) nmeta) ;;
  wsect 1 (put_sb nativesb) ;;
  let* rootino := ialloc T_DIR 0 in
  assert (rootino =? ROOTINO) ;;
  dappend rootino [46] rootino ;;
  dappend rootino [46; 46] rootino ;;
  add_directory rootino entries ;;
  let* din := rinode rootino in
  winode rootino (mkInode 0 0 0 0 (i_type din) (i_major din) (i_minor din) (i_nlink din)
                    (round_root (i_size din)) (i_mtime din) (i_addrs din)) ;;
  let* free := gets m_freeblock in
  balloc free.

Definition mkfs_start : mkfs := mkMkfs (λ _, zeros BSIZE) 1 0.
