(* ===== verification/MkfsImg.v ===== *)
(** * The blocks of the image that mkfs makes

    A file's blocks hang from the [addrs] of its inode: a [slot] is a place
    that can hold a block number, in [addrs] itself or in an indirect block.
    [layout] says that the blocks in the slots of all the files are distinct
    and were handed out, and that the blocks not yet handed out are zero.
    Giving a slot a block, and writing a data block, keep it. *)

From S2P Require Import Prelude Bytes Params Store Ondisk OndiskSpec Fs FsBlock FsFile NamexProps Mkfs.

(** The constants of the file layout, as numbers. *)
Ltac fsc := unfold MAXFILE, NDIRECT, NINDIRECT, NADDR, BSIZE in *; change (512 / 4) with 128 in *.

(** ** Slots *)

Inductive slot :=
| Addr (i : Z)
| Sub (up : slot) (i : Z).

#[export] Instance slot_eq_dec : EqDecision slot.
Proof. solve_decision. Defined.

Definition slot_ok (σ : slot) : Prop :=
  match σ with
  | Addr i => 0 ≤ i ≤ NDIRECT
  | Sub (Addr t) j => t = NDIRECT ∧ 0 ≤ j < NINDIRECT
  | Sub (Sub (Addr t) j) i => t = NDIRECT ∧ 0 ≤ j < NINDIRECT ∧ 0 ≤ i < NINDIRECT
  | _ => False
  end.

(** The block number in a slot. *)
Fixpoint ptr (D : Z → list Z) (addrs : list Z) (σ : slot) : Z :=
  match σ with
  | Addr i => addrs !!! Z.to_nat i
  | Sub up i => ld_ptr (D (ptr D addrs up)) i
  end.

(** The first block of the file that needs the slot. *)
Definition first (σ : slot) : Z :=
  match σ with
  | Addr i => i
  | Sub (Addr _) j => NDIRECT + j * NINDIRECT
  | Sub (Sub _ j) i => NDIRECT + j * NINDIRECT + i
  end.

(** The slot of a block of the file. *)
Definition slot_of (bn : Z) : slot :=
  if bn <? NDIRECT then Addr bn
  else Sub (Sub (Addr NDIRECT) ((bn - NDIRECT) / NINDIRECT)) ((bn - NDIRECT) mod NINDIRECT).

Lemma leaf_ptr D addrs bn : leaf D addrs bn = ptr D addrs (slot_of bn).
Proof. unfold leaf, path, slot_of. by destruct (bn <? NDIRECT). Qed.

Lemma slot_ok_up σ i : slot_ok (Sub σ i) → slot_ok σ ∧ 0 ≤ i < NINDIRECT.
Proof. destruct σ as [t|[t|] j]; simpl; unfold NDIRECT; [lia|lia|done]. Qed.

Lemma div_NIND bn : NDIRECT ≤ bn < MAXFILE →
  0 ≤ (bn - NDIRECT) / NINDIRECT < NINDIRECT ∧ 0 ≤ (bn - NDIRECT) mod NINDIRECT < NINDIRECT ∧
  bn - NDIRECT = (bn - NDIRECT) / NINDIRECT * NINDIRECT + (bn - NDIRECT) mod NINDIRECT.
Proof.
  fsc. intros H.
  pose proof (Z.mod_pos_bound (bn - 11) 128 ltac:(lia)). pose proof (Z.div_mod (bn - 11) 128 ltac:(lia)).
  lia.
Qed.

Lemma div_range i : 0 ≤ i < MAXFILE * BSIZE → 0 ≤ i / BSIZE < MAXFILE.
Proof. intros Hi. split; [apply Z.div_pos; [lia|done]|apply Z.div_lt_upper_bound; [done|lia]]. Qed.

Lemma slot_of_ok bn : 0 ≤ bn < MAXFILE → slot_ok (slot_of bn).
Proof.
  intros H. unfold slot_of. destruct (Z.ltb_spec bn NDIRECT); simpl; [lia|].
  destruct (div_NIND bn) as (? & ? & _); [lia|]. done.
Qed.

Lemma first_slot_of bn : 0 ≤ bn < MAXFILE → first (slot_of bn) = bn.
Proof.
  intros H. unfold slot_of. destruct (Z.ltb_spec bn NDIRECT); cbn [first]; [done|].
  destruct (div_NIND bn) as (_ & _ & E); [lia|]. lia.
Qed.

Lemma slot_of_inj a b : 0 ≤ a < MAXFILE → 0 ≤ b < MAXFILE → slot_of a = slot_of b → a = b.
Proof. intros Ha Hb E. by rewrite <- (first_slot_of a), E, first_slot_of. Qed.

(** A slot of data has no slots below it. *)
Lemma slot_of_data bn i : ¬ slot_ok (Sub (slot_of bn) i).
Proof.
  unfold slot_of. destruct (Z.ltb_spec bn NDIRECT); [|by intros []]. cbn [slot_ok]. lia.
Qed.

Lemma first_range σ : slot_ok σ → 0 ≤ first σ < MAXFILE.
Proof.
  destruct σ as [t|[t|[t|] j] i]; cbn [slot_ok first]; fsc; lia.
Qed.

Lemma sub_ne σ i : Sub σ i ≠ σ.
Proof. revert i. induction σ as [t|u IH j]; intros i; [done|]. intros [= E _]. by apply IH in E. Qed.

(** ** The layout *)

Definition inum_ok (k : Z) : Prop := 0 ≤ k < NINODES.

Record layout (D : Z → list Z) (A : Z → list Z) (fb : Z) : Prop := {
  ly_blocks : ∀ b, block_ok (D b);
  ly_null : D 0 = zeros BSIZE;
  ly_fresh : ∀ b, fb ≤ b → D b = zeros BSIZE;
  ly_fb : nmeta ≤ fb;
  ly_addrs : ∀ k, inum_ok k → length (A k) = NADDR;
  ly_range : ∀ k σ, inum_ok k → slot_ok σ → ptr D (A k) σ ≠ 0 → nmeta ≤ ptr D (A k) σ < fb;
  ly_inj : ∀ k σ k' σ', inum_ok k → slot_ok σ → inum_ok k' → slot_ok σ' →
    ptr D (A k) σ ≠ 0 → ptr D (A k) σ = ptr D (A k') σ' → k = k' ∧ σ = σ';
}.

Lemma ld_ptr_zeros i : 0 ≤ i < NINDIRECT → ld_ptr (zeros BSIZE) i = 0.
Proof.
  intros Hi. assert (be_dec (replicate 4 0) = 0) as E by done.
  unfold ld_ptr, ld32, ldn. rewrite <- E. f_equal. apply byte_ext.
  - by rewrite zlen_slice by (rewrite ?zlen_zeros; fsc; lia).
  - rewrite zlen_slice by (rewrite ?zlen_zeros; fsc; lia). intros j Hj.
    rewrite byte_slice by lia. rewrite byte_zeros. by rewrite (byte_zeros 4).
Qed.

Lemma byte_zero_block i : byte (zeros BSIZE) i = 0.
Proof. apply byte_zeros. Qed.

Lemma ld_ptr_st32 d i j v :
  zlen d = BSIZE → 0 ≤ i < NINDIRECT → 0 ≤ j < NINDIRECT → 0 ≤ v < 4294967296 →
  ld_ptr (st32 d (4 * i) v) j = if i =? j then v else ld_ptr d j.
Proof.
  intros Hd Hi Hj Hv. unfold ld_ptr. fsc. destruct (Z.eqb_spec i j) as [->|Hne].
  - rewrite ld32_st32 by lia. by apply u32_small.
  - apply ld32_st32_other; lia.
Qed.

(** Blocks that belong to no slot may change. *)
Lemma ptr_ext D D' addrs σ :
  D' 0 = D 0 → (∀ π i, slot_ok (Sub π i) → ptr D addrs π ≠ 0 → D' (ptr D addrs π) = D (ptr D addrs π)) →
  slot_ok σ → ptr D' addrs σ = ptr D addrs σ.
Proof.
  intros H0 HD. induction σ as [i|π IH i]; intros Hσ; [done|]. simpl.
  destruct (slot_ok_up _ _ Hσ) as [Hπ _]. rewrite IH by done. f_equal.
  destruct (decide (ptr D addrs π = 0)) as [->|]; eauto.
Qed.

Lemma layout_ext D D' A fb :
  layout D A fb → (∀ b, block_ok (D' b)) → D' 0 = D 0 → (∀ b, nmeta ≤ b → D' b = D b) →
  layout D' A fb ∧ ∀ k σ, inum_ok k → slot_ok σ → ptr D' (A k) σ = ptr D (A k) σ.
Proof.
  intros [Lb L0 Lf Lm La Lr Li] Hb H0 HD.
  assert (∀ k σ, inum_ok k → slot_ok σ → ptr D' (A k) σ = ptr D (A k) σ) as Hp.
  { intros k σ Hk. apply ptr_ext; [done|]. intros π i [Hπ _]%slot_ok_up Hne. apply HD. by destruct (Lr k π). }
  split; [|done]. split; try done.
  - by rewrite H0.
  - intros b Hfb. rewrite HD by lia. auto.
  - intros k σ Hk Hσ. rewrite Hp by done. auto.
  - intros k σ k' σ' Hk Hσ Hk' Hσ'. rewrite !Hp by done. auto.
Qed.

(** ** Giving a slot a block *)

(** The image and the [addrs] after block [fb] is put in slot [σ] of file [k]. *)
Definition give_disk (D : Z → list Z) (addrs : list Z) (σ : slot) (fb : Z) : Z → list Z :=
  match σ with
  | Addr _ => D
  | Sub up i => upd D (ptr D addrs up) (st32 (D (ptr D addrs up)) (4 * i) fb)
  end.
Definition give_addrs (addrs : list Z) (σ : slot) (fb : Z) : list Z :=
  match σ with Addr i => <[Z.to_nat i := fb]> addrs | Sub _ _ => addrs end.

(** The slot above is in use. *)
Definition up_used (D : Z → list Z) (addrs : list Z) (σ : slot) : Prop :=
  match σ with Addr _ => True | Sub up _ => ptr D addrs up ≠ 0 end.

Section give.
Context (D : Z → list Z) (A : Z → list Z) (fb k : Z) (σ : slot).
Context (HL : layout D A fb) (Hk : inum_ok k) (Hσ : slot_ok σ) (Hfb : fb < 4294967296).
Context (Hup : up_used D (A k) σ) (H0 : ptr D (A k) σ = 0).
Let D' := give_disk D (A k) σ fb.
Let A' := upd A k (give_addrs (A k) σ fb).

Lemma fb_pos : 0 < fb.
Proof. pose proof (ly_fb _ _ _ HL). assert (0 < nmeta) by done. lia. Qed.

Lemma give_addr k' i' : inum_ok k' → slot_ok (Addr i') →
  ptr D' (A' k') (Addr i') = if decide (k' = k ∧ Addr i' = σ) then fb else ptr D (A k') (Addr i').
Proof.
  intros Hk' Hi'. unfold A'. destruct (decide (k' = k)) as [->|Hne].
  2:{ rewrite upd_ne, decide_False by naive_solver. done. }
  rewrite upd_eq. cbn [ptr]. destruct σ as [i|up i]; simpl; [|by rewrite decide_False by naive_solver].
  destruct (decide (i' = i)) as [->|Hi].
  - rewrite decide_True by done. apply list_lookup_total_insert_eq.
    rewrite (ly_addrs _ _ _ HL) by done. simpl in Hi'. fsc. lia.
  - rewrite decide_False by naive_solver. apply list_lookup_total_insert_ne.
    simpl in Hσ, Hi'. fsc. lia.
Qed.

Lemma give_above up i : σ = Sub up i → slot_ok up ∧ ptr D (A k) up ≠ 0 ∧ 0 ≤ i < NINDIRECT.
Proof. intros E. rewrite E in Hσ, Hup. destruct (slot_ok_up _ _ Hσ). done. Qed.

(** The only block that changes is the one above. *)
Lemma give_same b : D' b = D b ∨ ∃ up i, σ = Sub up i ∧ b = ptr D (A k) up.
Proof.
  unfold D', give_disk. destruct σ as [|up i]; [by left|]. destruct (decide (b = ptr D (A k) up)) as [->|].
  - right. by exists up, i.
  - left. by apply upd_ne.
Qed.

Lemma give_outside b : b = 0 ∨ b < nmeta ∨ fb ≤ b → D' b = D b.
Proof.
  intros Hb. destruct (give_same b) as [|(up & i & E & ->)]; [done|].
  destruct (give_above up i E) as (Hu & Hn & _). pose proof (ly_range _ _ _ HL k up Hk Hu Hn).
  assert (0 < nmeta) by done. lia.
Qed.

(** The entries of the block above. *)
Lemma give_entry up i i' : σ = Sub up i → 0 ≤ i' < NINDIRECT →
  ld_ptr (D' (ptr D (A k) up)) i' = if i =? i' then fb else ld_ptr (D (ptr D (A k) up)) i'.
Proof.
  pose proof fb_pos. intros E Hi'. destruct (give_above up i E) as (_ & _ & Hi). unfold D'. rewrite E.
  cbn [give_disk]. rewrite upd_eq. apply ld_ptr_st32; [apply (ly_blocks _ _ _ HL)|done|done|lia].
Qed.

Lemma give_ptr k' σ' : inum_ok k' → slot_ok σ' →
  ptr D' (A' k') σ' = if decide (k' = k ∧ σ' = σ) then fb else ptr D (A k') σ'.
Proof.
  intros Hk'. induction σ' as [i'|π' IH i']; intros Hσ'; [by apply give_addr|].
  destruct (slot_ok_up _ _ Hσ') as [Hπ' Hi']. cbn [ptr]. rewrite IH by done.
  destruct (decide (k' = k ∧ π' = σ)) as [[-> ->]|Hnew].
  - rewrite decide_False by (intros [_ E]; by apply sub_ne in E).
    rewrite give_outside by lia. rewrite H0, (ly_fresh _ _ _ HL), (ly_null _ _ _ HL) by lia. done.
  - destruct (decide (k' = k ∧ Sub π' i' = σ)) as [[-> E]|Hne].
    + rewrite (give_entry π' i') by done. by rewrite Z.eqb_refl.
    + destruct (give_same (ptr D (A k') π')) as [->|(up & i & E & Ep)]; [done|].
      destruct (give_above up i) as (Hu & Hn & _); [done|]. rewrite Ep.
      destruct (ly_inj _ _ _ HL k up k' π') as [<- <-]; [done..|]. rewrite (give_entry up i) by done.
      destruct (Z.eqb_spec i i') as [->|]; [by destruct Hne|done].
Qed.

Lemma give_layout : layout D' A' (fb + 1).
Proof.
  pose proof HL as [Lb L0 Lf Lm La Lr Li]. split.
  - intros b. destruct (give_same b) as [->|(up & i & E & ->)]; [done|].
    destruct (give_above up i E) as (_ & _ & Hi). unfold D'. rewrite E. cbn [give_disk]. rewrite upd_eq.
    apply block_ok_stn; [done|lia|]. fsc. lia.
  - rewrite give_outside by lia. done.
  - intros b Hb. rewrite give_outside by lia. apply Lf. lia.
  - lia.
  - intros k' Hk'. unfold A', upd. destruct (Z.eqb_spec k' k) as [->|]; [|auto].
    destruct σ; simpl; rewrite ?length_insert; auto.
  - intros k' σ' Hk' Hσ'. rewrite give_ptr by done. destruct (decide _); [lia|].
    intros Hne. specialize (Lr k' σ' Hk' Hσ' Hne). lia.
  - intros k1 σ1 k2 σ2 Hk1 Hσ1 Hk2 Hσ2. rewrite !give_ptr by done.
    destruct (decide (k1 = k ∧ σ1 = σ)) as [[-> ->]|], (decide (k2 = k ∧ σ2 = σ)) as [[-> ->]|]; [done| | |eauto].
    + intros _ E. pose proof fb_pos. pose proof (Lr k2 σ2 Hk2 Hσ2 ltac:(lia)). lia.
    + intros Hne E. pose proof (Lr k1 σ1 Hk1 Hσ1 Hne). lia.
Qed.

(** No file changes. *)
Lemma give_bytes k' i : inum_ok k' → 0 ≤ i < MAXFILE * BSIZE → fbyte D' (A' k') i = fbyte D (A k') i.
Proof.
  intros Hk' Hi. unfold fbyte. rewrite !leaf_ptr.
  pose proof (div_range i Hi) as Hb. pose proof (slot_of_ok _ Hb) as Hs. rewrite give_ptr by done.
  destruct (decide (k' = k ∧ slot_of (i / BSIZE) = σ)) as [[-> E]|Hne].
  - rewrite give_outside, E, H0, (ly_fresh _ _ _ HL), (ly_null _ _ _ HL) by lia. done.
  - destruct (give_same (ptr D (A k') (slot_of (i / BSIZE)))) as [->|(up & j & E & Ep)]; [done|].
    destruct (give_above up j E) as (Hu & Hn & _).
    destruct (ly_inj _ _ _ HL k up k' (slot_of (i / BSIZE))) as [_ Eu]; [done..|].
    rewrite E, Eu in Hσ. by apply slot_of_data in Hσ.
Qed.
End give.

(** ** Writing a block of a file *)

Section put.
Context (D : Z → list Z) (A : Z → list Z) (fb k bn : Z) (d : list Z).
Context (HL : layout D A fb) (Hk : inum_ok k) (Hbn : 0 ≤ bn < MAXFILE) (Hd : block_ok d).
Let x := ptr D (A k) (slot_of bn).
Context (Hx : x ≠ 0).
Let D' := upd D x d.

Lemma put_range : nmeta ≤ x < fb.
Proof. apply (ly_range _ _ _ HL); [done|by apply slot_of_ok|done]. Qed.

Lemma put_outside b : b < nmeta ∨ fb ≤ b → D' b = D b.
Proof. intros Hb. pose proof put_range. apply upd_ne. lia. Qed.

Lemma put_ptr k' σ : inum_ok k' → slot_ok σ → ptr D' (A k') σ = ptr D (A k') σ.
Proof.
  intros Hk'. apply ptr_ext; [apply put_outside; left; done|]. intros π i Hi Hne. apply upd_ne. intros E.
  destruct (slot_ok_up _ _ Hi) as [Hπ _].
  destruct (ly_inj _ _ _ HL k' π k (slot_of bn)) as [_ ->]; [done..|by apply slot_of_ok|done|done|].
  by apply slot_of_data in Hi.
Qed.

Lemma put_layout : layout D' A fb.
Proof.
  pose proof HL as [Lb L0 Lf Lm La Lr Li]. split; try done.
  - intros b. unfold D', upd. by destruct (b =? x).
  - rewrite put_outside by (left; done). done.
  - intros b Hb. rewrite put_outside by lia. auto.
  - intros k' σ Hk' Hσ. rewrite put_ptr by done. auto.
  - intros k1 σ1 k2 σ2 ? ? ? ?. rewrite !put_ptr by done. auto.
Qed.

Lemma put_bytes k' i : inum_ok k' → 0 ≤ i < MAXFILE * BSIZE →
  fbyte D' (A k') i =
    if decide (k' = k ∧ i / BSIZE = bn) then byte d (i mod BSIZE) else fbyte D (A k') i.
Proof.
  intros Hk' Hi. pose proof (div_range i Hi) as Hb. pose proof (slot_of_ok _ Hb) as Hs.
  unfold fbyte. rewrite !leaf_ptr, put_ptr by done. destruct (decide _) as [[-> ->]|Hne].
  - unfold D', x. by rewrite upd_eq.
  - unfold D'. rewrite upd_ne; [done|]. intros E.
    destruct (ly_inj _ _ _ HL k (slot_of bn) k' (slot_of (i / BSIZE))) as [<- E']; try done; [by apply slot_of_ok|].
    apply slot_of_inj in E'; [|done..]. by destruct Hne.
Qed.
End put.

(** ** Files *)

(** The number of blocks of a file of [n] bytes, and the number of slots that a
    file of [n] blocks has in use. *)
Definition nb (n : Z) : Z := (n + BSIZE - 1) / BSIZE.
Definition cost (n : Z) : Z :=
  n + (if n <=? NDIRECT then 0 else 1 + (n - NDIRECT + NINDIRECT - 1) / NINDIRECT).

(** The bytes of a file, and zeros after them. *)
Definition has_bytes (D : Z → list Z) (addrs : list Z) (data : list Z) : Prop :=
  zlen data ≤ MAXFILE * BSIZE ∧ ∀ i, 0 ≤ i < MAXFILE * BSIZE → fbyte D addrs i = byte data i.

Lemma cost_next n : 0 ≤ n →
  cost (n + 1) = cost n + 1 + (if n =? NDIRECT then 1 else 0) +
    (if (NDIRECT <=? n) && ((n - NDIRECT) mod NINDIRECT =? 0) then 1 else 0).
Proof.
  intros Hn. unfold cost. fsc.
  destruct (Z.leb_spec (n + 1) 11), (Z.leb_spec n 11), (Z.eqb_spec n 11), (Z.leb_spec 11 n); simpl; try lia.
  - subst. done.
  - replace (n + 1 - 11 + 128 - 1) with (n - 11 + 1 * 128) by lia. rewrite Z.div_add by lia.
    pose proof (Z.div_mod (n - 11) 128 ltac:(lia)). pose proof (Z.mod_pos_bound (n - 11) 128 ltac:(lia)).
    destruct (Z.eqb_spec ((n - 11) mod 128) 0).
    + rewrite <- (Z.div_unique (n - 11 + 128 - 1) 128 ((n - 11) / 128) 127); lia.
    + rewrite <- (Z.div_unique (n - 11 + 128 - 1) 128 ((n - 11) / 128 + 1) ((n - 11) mod 128 - 1)); lia.
Qed.

(** The files of the image: their inodes have the [addrs] of [A], the slots in
    use are those of [P], and the bytes are those of [data]. *)
Record files (D A : Z → list Z) (fb : Z) (P : Z → slot → Prop) (data : Z → list Z) : Prop := {
  fl_layout : layout D A fb;
  fl_slots : ∀ k σ, inum_ok k → slot_ok σ → (ptr D (A k) σ ≠ 0 ↔ P k σ);
  fl_bytes : ∀ k, inum_ok k → has_bytes D (A k) (data k);
}.

(** Slot [σ] of file [k] besides. *)
Definition and_slot (P : Z → slot → Prop) (k : Z) (σ : slot) : Z → slot → Prop :=
  λ k' σ', P k' σ' ∨ k' = k ∧ σ' = σ.

Lemma files_ext D A A' fb P P' data data' :
  files D A fb P data → (∀ k, inum_ok k → A' k = A k) →
  (∀ k σ, inum_ok k → slot_ok σ → (P' k σ ↔ P k σ)) → (∀ k, inum_ok k → data' k = data k) →
  files D A' fb P' data'.
Proof.
  intros [[Lb L0 Lf Lm La Lr Li] Fs Fb] EA EP Ed. split.
  - split; try done.
    + intros k Hk. rewrite EA by done. auto.
    + intros k σ Hk. rewrite EA by done. auto.
    + intros k σ k' σ' Hk Hσ Hk' Hσ'. rewrite !EA by done. auto.
  - intros k σ Hk Hσ. rewrite EA, EP by done. auto.
  - intros k Hk. rewrite EA, Ed by done. auto.
Qed.

Lemma files_meta D D' A fb P data :
  files D A fb P data → (∀ b, block_ok (D' b)) → D' 0 = D 0 → (∀ b, nmeta ≤ b → D' b = D b) →
  files D' A fb P data.
Proof.
  intros [L Fs Fb] Hb H0 HD. destruct (layout_ext D D' A fb L Hb H0 HD) as [L' Hp]. split; [done| |].
  - intros k σ Hk Hσ. rewrite Hp by done. auto.
  - intros k Hk. destruct (Fb k Hk) as [Hz Hi]. split; [done|]. intros i Hr. rewrite <- Hi by done.
    unfold fbyte. pose proof (slot_of_ok _ (div_range i Hr)) as Hs. rewrite !leaf_ptr, Hp by done. f_equal.
    destruct (decide (ptr D (A k) (slot_of (i / BSIZE)) = 0)) as [->|Hne]; [done|].
    apply HD. by apply (ly_range _ _ _ L).
Qed.

Lemma give_files D A fb P data k σ :
  files D A fb P data → inum_ok k → slot_ok σ → fb < 4294967296 → up_used D (A k) σ → ptr D (A k) σ = 0 →
  files (give_disk D (A k) σ fb) (upd A k (give_addrs (A k) σ fb)) (fb + 1) (and_slot P k σ) data ∧
  ptr (give_disk D (A k) σ fb) (give_addrs (A k) σ fb) σ = fb ∧
  ∀ b, b < nmeta → give_disk D (A k) σ fb b = D b.
Proof.
  intros [L Fs Fb] Hk Hσ Hf Hu H0. split_and!; [split| |].
  - by apply give_layout.
  - intros k' σ' Hk' Hσ'. rewrite give_ptr by done. unfold and_slot.
    destruct (decide (k' = k ∧ σ' = σ)) as [Hn|Hn].
    + pose proof (fb_pos D A fb L). split; [by right|lia].
    + rewrite Fs by done. tauto.
  - intros k' Hk'. destruct (Fb k' Hk') as [Hz Hi]. split; [done|]. intros i Hr.
    rewrite give_bytes by done. auto.
  - pose proof (give_ptr D A fb k σ L Hk Hσ Hf Hu H0 k σ Hk Hσ) as E.
    rewrite upd_eq, decide_True in E by done. done.
  - intros b Hb. apply (give_outside D A fb); auto.
Qed.
