(* ===== verification/MkfsAppend.v ===== *)
(** * Appending to a file of the image: iappend() of tools/mkfs.c *)

From S2P Require Import Prelude Bytes Params Store Ondisk OndiskSpec Fs FsBlock FsFile NamexProps Mkfs MkfsImg.

(** What the append of data leaves alone: the blocks before the data blocks. *)
Definition frame (s s' : mkfs) : Prop :=
  (∀ b, b < nmeta → m_img s' b = m_img s b) ∧ m_freeinode s' = m_freeinode s.

Lemma frame_refl s : frame s s.
Proof. done. Qed.
Lemma frame_trans s1 s2 s3 : frame s1 s2 → frame s2 s3 → frame s1 s3.
Proof. intros [H1 E1] [H2 E2]. split; [|congruence]. intros b Hb. rewrite H2 by done. auto. Qed.

(** Two inodes that differ in their blocks at most. *)
Definition like (x y : inode) : Prop :=
  i_type y = i_type x ∧ i_major y = i_major x ∧ i_minor y = i_minor x ∧ i_nlink y = i_nlink x ∧
  i_size y = i_size x ∧ i_mtime y = i_mtime x.

Lemma like_refl x : like x x.
Proof. done. Qed.
Lemma like_trans x y z : like x y → like y z → like x z.
Proof. unfold like. intuition congruence. Qed.

(** The files of the state, with file [k] as the inode [din] in memory says. *)
Definition sfiles (s : mkfs) (A : Z → list Z) (k : Z) (din : inode) P data : Prop :=
  files (m_img s) (upd A k (i_addrs din)) (m_freeblock s) P data.

(** One more block, if the slot has none. *)
Definition took (s : mkfs) (addrs : list Z) (σ : slot) : Z := if ptr (m_img s) addrs σ =? 0 then 1 else 0.

Lemma took_bound s addrs σ : 0 ≤ took s addrs σ ≤ 1.
Proof. unfold took. destruct (_ =? _); lia. Qed.

Section append.
Context (A : Z → list Z) (k : Z) (Hk : inum_ok k).

Lemma and_slot_have s din P data σ :
  sfiles s A k din P data → slot_ok σ → ptr (m_img s) (i_addrs din) σ ≠ 0 →
  sfiles s A k din (and_slot P k σ) data.
Proof.
  intros F Hσ Hne. eapply files_ext; [done|done| |done]. intros k' σ' Hk' Hσ'. unfold and_slot.
  split; [|by left]. intros [|[-> ->]]; [done|]. apply (fl_slots _ _ _ _ _ F); [done|done|]. by rewrite upd_eq.
Qed.

(** A slot of [addrs]. *)
Lemma direct_entry_ok s din P data i :
  sfiles s A k din P data → 0 ≤ i ≤ NDIRECT → m_freeblock s < 4294967295 →
  wp (direct_entry din (Z.to_nat i)) s (λ r s',
    sfiles s' A k r.2 (and_slot P k (Addr i)) data ∧ frame s s' ∧ like din r.2 ∧
    r.1 = ptr (m_img s') (i_addrs r.2) (Addr i) ∧ r.1 ≠ 0 ∧
    m_freeblock s' = m_freeblock s + took s (i_addrs din) (Addr i)).
Proof.
  intros F Hi Hf. unfold direct_entry, took. cbn [ptr].
  destruct (Z.eqb_spec (i_addrs din !!! Z.to_nat i) 0) as [E|E].
  2:{ apply wp_ret. simpl. split_and!; try done; [by apply and_slot_have|lia]. }
  pose proof (fb_pos _ _ _ (fl_layout _ _ _ _ _ F)) as Hpos.
  destruct (give_files _ _ _ _ _ k (Addr i) F) as (F' & Ep & Hm); [done|done|lia|done|by rewrite upd_eq|].
  rewrite upd_eq in F', Ep. unfold next_block. wp_steps. simpl. cbn in F'.
  rewrite u32_small by lia. split_and!; try done; [|lia].
  unfold sfiles. simpl. eapply files_ext; [exact F'| |done|done].
  intros k' _. unfold upd. by destruct (k' =? k).
Qed.

(** A slot of an indirect block. *)
Lemma indirect_entry_ok s din P data up i :
  sfiles s A k din P data → slot_ok (Sub up i) → ptr (m_img s) (i_addrs din) up ≠ 0 →
  m_freeblock s < 4294967295 →
  wp (indirect_entry (ptr (m_img s) (i_addrs din) up) i) s (λ b s',
    sfiles s' A k din (and_slot P k (Sub up i)) data ∧ frame s s' ∧
    b = ptr (m_img s') (i_addrs din) (Sub up i) ∧ b ≠ 0 ∧
    m_freeblock s' = m_freeblock s + took s (i_addrs din) (Sub up i)).
Proof.
  intros F Hσ Hne Hf. unfold indirect_entry, took. cbn [ptr]. fold (ld_ptr (m_img s (ptr (m_img s) (i_addrs din) up)) i).
  unfold rsect. apply wp_bind, wp_gets.
  fold (ld_ptr (m_img s (ptr (m_img s) (i_addrs din) up)) i).
  destruct (Z.eqb_spec (ld_ptr (m_img s (ptr (m_img s) (i_addrs din) up)) i) 0) as [E|E].
  2:{ apply wp_ret. split_and!; try done; [by apply and_slot_have|lia]. }
  pose proof (fb_pos _ _ _ (fl_layout _ _ _ _ _ F)) as Hpos.
  destruct (give_files _ _ _ _ _ k (Sub up i) F) as (F' & Ep & Hm);
    [done|done|lia|cbn [up_used]; by rewrite upd_eq|by rewrite upd_eq|].
  rewrite upd_eq in F', Ep, Hm. cbn [give_disk give_addrs] in F', Ep, Hm. unfold next_block, wsect. wp_steps. simpl.
  rewrite u32_small by lia. split_and!; try done; [|lia].
  unfold sfiles. simpl. eapply files_ext; [exact F'| |done|done].
  intros k' _. unfold upd. by destruct (k' =? k).
Qed.

Lemma took_slot s din P data σ (b : bool) :
  sfiles s A k din P data → slot_ok σ → (P k σ ↔ b = true) → took s (i_addrs din) σ = if b then 0 else 1.
Proof.
  intros F Hσ Hb. unfold took. pose proof (fl_slots _ _ _ _ _ F k σ Hk Hσ) as E. rewrite upd_eq in E.
  destruct (Z.eqb_spec (ptr (m_img s) (i_addrs din) σ) 0), b; naive_solver.
Qed.

(** The slots in use when file [k] has [N k] blocks. *)
Definition upto (N : Z → Z) : Z → slot → Prop := λ k σ, first σ < N k.

Lemma upto_direct N i k' σ : 0 ≤ i < NDIRECT → i ≤ N k → slot_ok σ →
  upto (upd N k (Z.max (N k) (i + 1))) k' σ ↔ and_slot (upto N) k (Addr i) k' σ.
Proof.
  intros Hi Hn Hσ. unfold upto, and_slot. destruct (decide (k' = k)) as [->|].
  2:{ rewrite upd_ne by done. naive_solver. }
  rewrite upd_eq. split.
  - intros Hf. destruct (decide (first σ < N k)); [by left|]. right. split; [done|].
    destruct σ as [t|[t|[t|] j] m]; cbn [first slot_ok] in *; fsc; try lia. f_equal. lia.
  - intros [?|[_ ->]]; cbn [first]; lia.
Qed.

Lemma upto_indirect N bn k' σ : NDIRECT ≤ bn < MAXFILE → bn ≤ N k → slot_ok σ →
  let mid := Sub (Addr NDIRECT) ((bn - NDIRECT) / NINDIRECT) in
  upto (upd N k (Z.max (N k) (bn + 1))) k' σ ↔
  and_slot (and_slot (and_slot (upto N) k (Addr NDIRECT)) k mid) k
    (Sub mid ((bn - NDIRECT) mod NINDIRECT)) k' σ.
Proof.
  intros Hi Hn Hσ mid. destruct (div_NIND bn Hi) as (Hj & Hm & E).
  unfold upto, and_slot, mid. destruct (decide (k' = k)) as [->|].
  2:{ rewrite upd_ne by done. naive_solver. }
  rewrite upd_eq. split.
  - intros Hf. destruct (decide (first σ < N k)); [by do 3 left|].
    assert (first σ = bn) as Ef by lia. clear Hf. destruct σ as [t|[t|[t|] j] m]; cbn [first slot_ok] in *.
    + left. left. right. split; [done|]. f_equal. lia.
    + left. right. split; [done|]. destruct Hσ as [-> Hσ]. f_equal. fsc. lia.
    + right. split; [done|]. destruct Hσ as (-> & Hσ). f_equal; [f_equal|]; fsc; lia.
    + done.
  - intros [[[?|[_ ->]]|[_ ->]]|[_ ->]]; cbn [first]; fsc; lia.
Qed.

(** The slots taken are those that the cost of one more block counts. *)
Lemma cost_direct n bn : 0 ≤ bn < NDIRECT → bn ≤ n →
  (if bn <? n then 0 else 1) = cost (Z.max n (bn + 1)) - cost n.
Proof.
  intros Hb Hn. destruct (Z.ltb_spec bn n).
  - rewrite Z.max_l by lia. lia.
  - assert (n = bn) as -> by lia. rewrite Z.max_r by lia. rewrite cost_next by lia.
    rewrite (proj2 (Z.eqb_neq bn NDIRECT)), (proj2 (Z.leb_gt NDIRECT bn)) by lia. simpl. lia.
Qed.

Lemma cost_indirect n bn : NDIRECT ≤ bn < MAXFILE → bn ≤ n →
  (if NDIRECT <? n then 0 else 1) + (if NDIRECT + (bn - NDIRECT) / NINDIRECT * NINDIRECT <? n then 0 else 1) +
  (if bn <? n then 0 else 1) = cost (Z.max n (bn + 1)) - cost n.
Proof.
  intros Hb Hn. destruct (div_NIND bn Hb) as (Hj & Hm & E). destruct (Z.ltb_spec bn n).
  - rewrite Z.max_l by lia. rewrite !(proj2 (Z.ltb_lt _ n)) by (fsc; lia). lia.
  - assert (n = bn) as -> by lia. rewrite Z.max_r by lia. rewrite cost_next by (fsc; lia).
    rewrite (proj2 (Z.leb_le NDIRECT bn)) by lia. simpl.
    destruct (Z.ltb_spec NDIRECT bn), (Z.eqb_spec bn NDIRECT),
      (Z.eqb_spec ((bn - NDIRECT) mod NINDIRECT) 0),
      (Z.ltb_spec (NDIRECT + (bn - NDIRECT) / NINDIRECT * NINDIRECT) bn); lia.
Qed.

(** The block for block [bn] of the file, which is at most one past its end. *)
Lemma file_block_ok s din N data bn :
  sfiles s A k din (upto N) data → 0 ≤ bn < MAXFILE → bn ≤ N k → m_freeblock s < 4294967292 →
  wp (file_block din bn) s (λ r s',
    sfiles s' A k r.2 (upto (upd N k (Z.max (N k) (bn + 1)))) data ∧ frame s s' ∧ like din r.2 ∧
    r.1 = ptr (m_img s') (i_addrs r.2) (slot_of bn) ∧ r.1 ≠ 0 ∧
    m_freeblock s' = m_freeblock s + cost (Z.max (N k) (bn + 1)) - cost (N k)).
Proof.
  intros F Hbn Hn Hf. unfold file_block, slot_of. destruct (Z.ltb_spec bn NDIRECT) as [Hd|Hd].
  - eapply wp_mono; [apply (direct_entry_ok s din (upto N) data bn); [done|lia|lia]|].
    intros r s' (F' & Fr & Lk & Er & Hne & Ef). split_and!; try done.
    + eapply files_ext; [exact F'|done| |done]. intros k' σ _ Hσ. apply upto_direct; [lia|done|done].
    + rewrite Ef, (took_slot s din (upto N) data (Addr bn) (bn <? N k)); [|done|simpl; lia|by rewrite Z.ltb_lt].
      pose proof (cost_direct (N k) bn). lia.
  - destruct (div_NIND bn) as (Hj & Hm & E); [lia|]. set (j := (bn - NDIRECT) / NINDIRECT) in *.
    set (m := (bn - NDIRECT) mod NINDIRECT) in *. set (mid := Sub (Addr NDIRECT) j).
    assert (slot_ok mid ∧ slot_ok (Sub mid m)) as [Hsm Hsl] by (unfold mid; cbn [slot_ok]; tauto).
    eapply wp_bind_mono; [apply (direct_entry_ok s din (upto N) data NDIRECT); [done|fsc; lia|lia]|].
    intros [top d1] s1 (F1 & Fr1 & L1 & E1 & Hne1 & Ef1). cbn [fst snd] in *. subst top.
    pose proof (took_bound s (i_addrs din) (Addr NDIRECT)) as B1.
    eapply wp_bind_mono; [apply (indirect_entry_ok s1 d1 _ data (Addr NDIRECT) j F1); [done|done|lia]|].
    intros b s2 (F2 & Fr2 & -> & Hne2 & Ef2). fold mid in F2, Hne2, Ef2 |- *. pose proof (took_bound s1 (i_addrs d1) mid) as B2.
    eapply wp_bind_mono; [apply (indirect_entry_ok s2 d1 _ data mid m F2); [done|done|lia]|].
    intros x s3 (F3 & Fr3 & -> & Hne3 & Ef3). apply wp_ret. cbn [fst snd]. split_and!; try done.
    + eapply files_ext; [exact F3|done| |done]. intros k' σ _ Hσ. apply upto_indirect; [lia|done|done].
    + by eapply frame_trans, frame_trans.
    + rewrite (took_slot s2 d1 _ data _ (bn <? N k) F2) in Ef3; [|done|].
      2:{ rewrite Z.ltb_lt. unfold and_slot, upto. cbn [first mid]. split; [|do 2 left; fsc; lia].
          intros [[H|[_ H]]|[_ H]]; [fsc; lia|done|done]. }
      rewrite (took_slot s1 d1 _ data mid (NDIRECT + j * NINDIRECT <? N k) F1) in Ef2; [|done|].
      2:{ rewrite Z.ltb_lt. unfold and_slot, upto. cbn [first mid]. split; [|by left]. intros [H|[_ H]]; done. }
      rewrite (took_slot s din _ data (Addr NDIRECT) (NDIRECT <? N k) F) in Ef1; [|done|by rewrite Z.ltb_lt].
      rewrite Ef3, Ef2, Ef1. pose proof (cost_indirect (N k) bn ltac:(lia) Hn) as Ec.
      fold j in Ec. lia.
Qed.

(** ** The blocks of a file that grows *)

Definition sizes (data : Z → list Z) : Z → Z := λ k, nb (zlen (data k)).

Lemma nb_grow n m : 0 ≤ n → 1 ≤ m ≤ (n / BSIZE + 1) * BSIZE - n →
  nb (n + m) = n / BSIZE + 1 ∧ n / BSIZE ≤ nb n ≤ n / BSIZE + 1 ∧ Z.max (nb n) (n / BSIZE + 1) = nb (n + m).
Proof.
  unfold nb, BSIZE. intros Hn Hm. pose proof (Z.div_mod n 512 ltac:(lia)) as E.
  pose proof (Z.mod_pos_bound n 512 ltac:(lia)).
  rewrite <- (Z.div_unique (n + m + 512 - 1) 512 (n / 512 + 1) (n + m - 1 - n / 512 * 512)) by lia.
  assert (n / 512 ≤ (n + 512 - 1) / 512) by (apply Z.div_le_mono; lia).
  assert ((n + 512 - 1) / 512 ≤ n / 512 + 1) as H2.
  { replace (n / 512 + 1) with ((n + 1 * 512) / 512) by (rewrite Z.div_add; lia). apply Z.div_le_mono; lia. }
  lia.
Qed.

(** The bytes written in one block. *)
Lemma byte_beyond d i : zlen d ≤ i → byte d i = 0.
Proof. unfold zlen, byte. intros. apply nth_overflow. lia. Qed.

Lemma append_bytes old d c i :
  zlen d = BSIZE → 0 ≤ i → i / BSIZE = zlen old / BSIZE →
  zlen old mod BSIZE + zlen c ≤ BSIZE → byte d (i mod BSIZE) = byte old i →
  byte (splice d (zlen old mod BSIZE) c) (i mod BSIZE) = byte (old ++ c) i.
Proof.
  intros Hd Hi Eb Hc E. pose proof (zlen_nonneg old). pose proof (zlen_nonneg c).
  pose proof (Z.div_mod i BSIZE ltac:(done)). pose proof (Z.div_mod (zlen old) BSIZE ltac:(done)).
  pose proof (Z.mod_pos_bound i BSIZE ltac:(done)). pose proof (Z.mod_pos_bound (zlen old) BSIZE ltac:(done)).
  destruct (decide (zlen old mod BSIZE ≤ i mod BSIZE < zlen old mod BSIZE + zlen c)) as [Hin|Hout].
  - rewrite byte_splice_in, byte_app_r by lia. f_equal. lia.
  - rewrite byte_splice_out, E by lia. destruct (decide (i < zlen old)) as [Hl|Hl].
    + by rewrite byte_app_l by lia.
    + rewrite !byte_beyond; [done|rewrite zlen_app; lia|lia].
Qed.

Lemma put_files s din data c d :
  let bn := zlen (data k) / BSIZE in
  let x := ptr (m_img s) (i_addrs din) (slot_of bn) in
  sfiles s A k din (upto (upd (sizes data) k (Z.max (sizes data k) (bn + 1)))) data → x ≠ 0 →
  0 ≤ bn < MAXFILE → d = splice (m_img s x) (zlen (data k) mod BSIZE) c →
  1 ≤ zlen c ≤ (bn + 1) * BSIZE - zlen (data k) → Forall (λ b, 0 ≤ b < 256) c →
  files (upd (m_img s) x d) (upd A k (i_addrs din)) (m_freeblock s)
    (upto (sizes (upd data k (data k ++ c)))) (upd data k (data k ++ c)).
Proof.
  intros bn x F Hx Hbn Ed Hc Hcb. pose proof (zlen_nonneg (data k)) as Hz.
  pose proof (Z.div_mod (zlen (data k)) BSIZE ltac:(done)) as Em.
  pose proof (Z.mod_pos_bound (zlen (data k)) BSIZE ltac:(done)) as Hm. fold bn in Em.
  destruct F as [L Fs Fb]. pose proof (ly_blocks _ _ _ L x) as Hdx. pose proof (proj1 Hdx) as Hlx.
  assert (block_ok d) as Hd by (rewrite Ed; apply block_ok_splice; [done|done|lia|lia]).
  pose proof (put_layout _ _ _ k bn d L Hk Hbn Hd) as L'. rewrite upd_eq in L'. specialize (L' Hx).
  pose proof (put_ptr _ _ _ k bn d L Hk Hbn) as Hp. rewrite upd_eq in Hp. specialize (Hp Hx).
  pose proof (put_bytes _ _ _ k bn d L Hk Hbn) as Hby. rewrite upd_eq in Hby. specialize (Hby Hx).
  fold x in L', Hp, Hby. split; [done| |].
  - intros k' σ Hk' Hσ. rewrite Hp, Fs by done. unfold upto, sizes, upd.
    destruct (Z.eqb_spec k' k) as [->|]; [|done]. rewrite zlen_app.
    destruct (nb_grow (zlen (data k)) (zlen c)) as (_ & _ & En); [done|done|]. fold bn in En. by rewrite En.
  - intros k' Hk'. destruct (Fb k' Hk') as [Hs Hi]. split.
    + unfold upd. destruct (Z.eqb_spec k' k) as [->|]; [|done]. rewrite zlen_app. nia.
    + intros i Hr. rewrite Hby by done. destruct (decide _) as [[-> Eb]|Hne].
      * rewrite upd_eq, Ed. specialize (Hi i Hr). apply append_bytes; try done; [lia|lia|].
        rewrite <- Hi, upd_eq. unfold fbyte. rewrite leaf_ptr, Eb. done.
      * rewrite Hi by done. unfold upd. destruct (Z.eqb_spec k' k) as [->|]; [|done].
        destruct (decide (i < zlen (data k))) as [Hl|Hl]; [by rewrite byte_app_l by lia|].
        rewrite !byte_beyond; [done|rewrite zlen_app|lia].
        assert (i / BSIZE ≠ bn) as Hnb by naive_solver.
        assert (bn ≤ i / BSIZE) by (apply Z.div_le_mono; [done|lia]).
        pose proof (Z.div_mod i BSIZE ltac:(done)). pose proof (Z.mod_pos_bound i BSIZE ltac:(done)). nia.
Qed.

(** ** The loop of iappend() *)

Definition append_round : inode * Z * list Z → M mkfs (inode * Z * list Z + inode * Z) := λ '(din, off, p),
  if zlen p >? 0 then
    let fbn := off / BSIZE in
    assert (fbn <? MAXFILE) ;;
    let* r := file_block din fbn in
    let '(x, din) := r in
    let n1 := Z.min (zlen p) ((fbn + 1) * BSIZE - off) in
    let* buf := rsect x in
    wsect x (splice buf (off - fbn * BSIZE) (slice p 0 n1)) ;;
    ret (inl (din, off + n1, drop (Z.to_nat n1) p))
  else ret (inr (din, off)).

Lemma cost_mono a b : 0 ≤ a ≤ b → cost a ≤ cost b.
Proof.
  intros H. unfold cost. fsc. destruct (Z.leb_spec a 11), (Z.leb_spec b 11); try lia.
  - pose proof (Z.div_pos (b - 11 + 128 - 1) 128). lia.
  - pose proof (Z.div_le_mono (a - 11 + 128 - 1) (b - 11 + 128 - 1) 128). lia.
Qed.

Lemma nb_nonneg n : 0 ≤ n → 0 ≤ nb n.
Proof. intros. unfold nb, BSIZE. apply Z.div_pos; lia. Qed.
Lemma nb_mono n m : n ≤ m → nb n ≤ nb m.
Proof. intros. unfold nb, BSIZE. apply Z.div_le_mono; lia. Qed.

(** File [k] grown by [c]. *)
Definition grow (data : Z → list Z) (c : list Z) : Z → list Z := upd data k (data k ++ c).

Lemma grow_size data c : sizes (grow data c) k = nb (zlen (data k) + zlen c).
Proof. unfold sizes, grow. by rewrite upd_eq, zlen_app. Qed.

(** After [c] of the bytes. *)
Record appended s din data c s' din' : Prop := {
  ap_files : sfiles s' A k din' (upto (sizes (grow data c))) (grow data c);
  ap_frame : frame s s';
  ap_like : like din din';
  ap_free : m_freeblock s' = m_freeblock s + cost (nb (zlen (data k) + zlen c)) - cost (nb (zlen (data k)));
}.

Lemma append_round_ok s0 din0 data c s din p :
  appended s0 din0 data c s din → p ≠ [] → Forall (λ b, 0 ≤ b < 256) p →
  zlen (data k) + zlen c + zlen p ≤ MAXFILE * BSIZE → m_freeblock s < 4294967292 →
  wp (append_round (din, zlen (data k) + zlen c, p)) s (λ r s', ∃ c1 p1 din1, p = c1 ++ p1 ∧ c1 ≠ [] ∧
    r = inl (din1, zlen (data k) + zlen (c ++ c1), p1) ∧ appended s0 din0 data (c ++ c1) s' din1).
Proof.
  intros [F Fr Lk Ef] Hp Hb Hs Hf. pose proof (zlen_nonneg (data k)). pose proof (zlen_nonneg c).
  assert (0 < zlen p) as Hlp by (destruct p; [done|unfold zlen; simpl; lia]).
  set (data1 := grow data c) in *. assert (zlen (data1 k) = zlen (data k) + zlen c) as E1.
  { unfold data1, grow. by rewrite upd_eq, zlen_app. }
  unfold append_round. rewrite (proj2 (Z.gtb_lt (zlen p) 0)) by done. rewrite <- E1 in *.
  set (bn := zlen (data1 k) / BSIZE). assert (0 ≤ bn < MAXFILE) as Hbn by (apply div_range; lia).
  pose proof (Z.div_mod (zlen (data1 k)) BSIZE ltac:(done)) as Em. fold bn in Em.
  pose proof (Z.mod_pos_bound (zlen (data1 k)) BSIZE ltac:(done)) as Hm.
  set (n1 := Z.min (zlen p) ((bn + 1) * BSIZE - zlen (data1 k))). cbv zeta. fold bn. fold n1.
  assert (1 ≤ n1 ≤ zlen p ∧ n1 ≤ (bn + 1) * BSIZE - zlen (data1 k)) as [Hn1 Hn2] by lia.
  rewrite (proj2 (Z.ltb_lt bn MAXFILE)) by lia. apply wp_bind, wp_ret.
  destruct (nb_grow (zlen (data1 k)) n1) as (Eg & Hg & Ex); [lia|fold bn; lia|]. fold bn in Eg, Hg, Ex.
  eapply wp_bind_mono; [apply (file_block_ok s din (sizes data1) data1 bn F); [done|unfold sizes; lia|done]|].
  intros [x din1] s1 (F1 & Fr1 & L1 & Er & Hx & Ef1). cbn [fst snd] in *.
  unfold rsect, wsect. wp_steps. exists (slice p 0 n1), (drop (Z.to_nat n1) p), din1.
  assert (zlen (slice p 0 n1) = n1) as Ezn by (apply zlen_slice; lia). split_and!.
  - unfold slice. change (drop (Z.to_nat 0) p) with p. by rewrite take_drop.
  - intros E. rewrite E in Ezn. unfold zlen in Ezn. simpl in Ezn. lia.
  - rewrite zlen_app, Ezn, E1. do 3 f_equal. lia.
  - set (c1 := slice p 0 n1) in *. assert (∀ j, grow data (c ++ c1) j = upd data1 k (data1 k ++ c1) j) as Eg1.
    { intros j. unfold data1, grow, upd. rewrite Z.eqb_refl, app_assoc. by destruct (j =? k). }
    assert (nmeta ≤ x) as Hxm.
    { pose proof (ly_range _ _ _ (fl_layout _ _ _ _ _ F1) k (slot_of bn) Hk (slot_of_ok _ Hbn)) as Hr.
      rewrite upd_eq, <- Er in Hr. lia. }
    replace (zlen (data1 k) - bn * BSIZE) with (zlen (data1 k) mod BSIZE) by lia.
    pose proof (put_files s1 din1 data1 c1 (splice (m_img s1 x) (zlen (data1 k) mod BSIZE) c1) F1) as F2. fold bn in F2. rewrite <- Er in F2. split.
    + eapply files_ext; [apply F2; try done; [lia|by apply Forall_take, Forall_drop]|done| |].
      * intros j σ _ _. unfold upto, sizes. by rewrite Eg1.
      * intros j _. apply Eg1.
    + destruct Fr as [H1 H2], Fr1 as [H3 H4]. split; [|simpl; congruence]. intros b Hb'. cbn [m_img].
      rewrite upd_ne by lia. rewrite H3 by done. auto.
    + by eapply like_trans.
    + cbn [m_freeblock]. rewrite Ef1, Ef. unfold sizes at 1 2. rewrite Ex, E1, zlen_app, Ezn, Z.add_assoc. lia.
Qed.

(** All the bytes. *)
Lemma append_loop_ok s din data p :
  sfiles s A k din (upto (sizes data)) data → i_size din = zlen (data k) →
  Forall (λ b, 0 ≤ b < 256) p → zlen (data k) + zlen p ≤ MAXFILE * BSIZE →
  m_freeblock s + cost (nb (zlen (data k) + zlen p)) - cost (nb (zlen (data k))) < 4294967292 →
  wp (loop (length p + 1) append_round (din, i_size din, p)) s (λ r s',
    r.2 = zlen (data k) + zlen p ∧ appended s din data p s' r.1).
Proof.
  intros F Esz Hb Hs Hf. pose proof (zlen_nonneg (data k)).
  apply (wp_loop append_round (λ n a s', n = length a.2 ∧ ∃ c, p = c ++ a.2 ∧
    a.1.2 = zlen (data k) + zlen c ∧ appended s din data c s' a.1.1)) with (n := length p); [|lia|].
  - intros n [[din1 off] q] s1 (En & c & Ep & Eo & Ha). cbn [fst snd] in *. subst n p off. rewrite zlen_app in *.
    pose proof (zlen_nonneg c). pose proof (zlen_nonneg q). destruct q as [|b q].
    + apply wp_ret. simpl. rewrite !app_nil_r. change (zlen []) with 0. split; [lia|done].
    + apply Forall_app in Hb as [_ Hb]. eapply wp_mono; [eapply append_round_ok; [done|done|done|lia|]|].
      { rewrite (ap_free _ _ _ _ _ _ Ha). 
        pose proof (cost_mono (nb (zlen (data k) + zlen c)) (nb (zlen (data k) + (zlen c + zlen (b :: q))))) as Hc.
        pose proof (nb_nonneg (zlen (data k) + zlen c)). 
        pose proof (nb_mono (zlen (data k) + zlen c) (zlen (data k) + (zlen c + zlen (b :: q)))). lia. }
      intros r s2 (c1 & p1 & din2 & Ep & Hc1 & -> & Ha2). exists (length p1). rewrite Ep. split.
      { rewrite length_app. destruct c1; [done|simpl; lia]. }
      split; [done|]. exists (c ++ c1). cbn [fst snd]. by rewrite <- app_assoc.
  - split; [done|]. exists []. cbn [fst snd]. change (zlen []) with 0. rewrite Z.add_0_r. split_and!; try done.
    split; [|done|done|change (zlen []) with 0; rewrite Z.add_0_r; lia]. eapply files_ext; [exact F|done| |].
    + intros j σ _ _. unfold upto, sizes, grow, upd. destruct (Z.eqb_spec j k) as [->|]; [|done]. by rewrite app_nil_r.
    + intros j _. unfold grow, upd. destruct (Z.eqb_spec j k) as [->|]; [|done]. by rewrite app_nil_r.
Qed.
End append.
