(* ===== verification/MkfsTree.v ===== *)
(** * The image as a list of files

    mkfs gives out inode numbers in order, so an image is a list of files, the
    first of which has inode number 1.  [img s F] says that the image of [s]
    holds the files [F], with an inode each.  Every routine of tools/mkfs.c is
    a function on that list, as long as the result fits the image. *)

From S2P Require Import Prelude Bytes Params Kstring Store KstringSpec Ondisk OndiskSpec Fs FsBlock FsFile Dir DirSpec DirProps NamexProps Mkfs MkfsImg MkfsAppend.

Record afile := mkAf {
  af_type : Z;
  af_mtime : Z;
  af_data : list Z;
}.

Definition file (F : list afile) (k : Z) : option afile := if k <? 1 then None else F !! Z.to_nat (k - 1).
Definition fdata (F : list afile) (k : Z) : list Z := match file F k with Some f => af_data f | None => [] end.

(** The number of blocks in use for the files. *)
Definition fcost (f : afile) : Z := cost (nb (zlen (af_data f))).
Definition total (F : list afile) : Z := foldr (λ f t, fcost f + t) 0 F.

Definition inode_for (f : afile) : inode :=
  mkInode 0 0 0 0 (af_type f) 0 0 1 (zlen (af_data f)) (af_mtime f) [].

Abbreviation addrs_of D := (λ k, i_addrs (din D nativesb k)).

Record img (s : mkfs) (F : list afile) : Prop := {
  im_files : files (m_img s) (addrs_of (m_img s)) (m_freeblock s) (upto (sizes (fdata F))) (fdata F);
  im_inode : ∀ k f, file F k = Some f → like (inode_for f) (din (m_img s) nativesb k);
  im_free : m_freeblock s = nmeta + total F;
  im_next : m_freeinode s = zlen F + 1;
  im_len : zlen F < NINODES - 1;
  im_sb : m_img s 1 = put_sb nativesb;
  im_zero : ∀ b, 2 ≤ b < sb_inodestart nativesb ∨ sb_bmapstart nativesb ≤ b < nmeta → m_img s b = zeros BSIZE;
}.

(** ** Inodes *)

Lemma IBLOCK_native k : inum_ok k → IBLOCK k nativesb = k / 8 + 102 ∧ 102 ≤ IBLOCK k nativesb < 128.
Proof.
  intros [H1 H2]. unfold IBLOCK, inum_ok, NINODES in *. change IPB with 8. change (sb_inodestart nativesb) with 102.
  assert (0 ≤ k / 8 < 25) by (split; [apply Z.div_pos; lia|apply Z.div_lt_upper_bound; lia]).
  rewrite u32_small by lia. lia.
Qed.

Lemma same_iblock k k' : inum_ok k → inum_ok k' → k ≠ k' →
  IBLOCK k nativesb = IBLOCK k' nativesb → k mod IPB ≠ k' mod IPB.
Proof.
  intros Hk Hk' Hne E. destruct (IBLOCK_native k Hk) as [E1 _], (IBLOCK_native k' Hk') as [E2 _].
  change IPB with 8. pose proof (Z.div_mod k 8). pose proof (Z.div_mod k' 8). lia.
Qed.

Section winode.
Context (D : Z → list Z) (k : Z) (x : inode).
Context (Hk : inum_ok k) (HD : ∀ b, block_ok (D b)) (Hx : dinode_ok x).
Let D' := upd D (IBLOCK k nativesb) (put_dinode (D (IBLOCK k nativesb)) (ioff k) x).

Lemma winode_block b : block_ok (D' b).
Proof.
  unfold D', upd. destruct (b =? _); [|done]. apply block_ok_put_dinode; [done|apply Hx].
Qed.

Lemma winode_din : din D' nativesb k =
  mkInode 0 0 0 0 (i_type x) (i_major x) (i_minor x) (i_nlink x) (i_size x) (i_mtime x) (i_addrs x).
Proof.
  unfold din, D'. rewrite upd_eq. destruct (ioff_range k). by rewrite get_put_dinode by (done || apply HD).
Qed.

Lemma winode_other k' : inum_ok k' → k' ≠ k → din D' nativesb k' = din D nativesb k'.
Proof.
  intros Hk' Hne. unfold din, D', upd. destruct (Z.eqb_spec (IBLOCK k' nativesb) (IBLOCK k nativesb)) as [E|]; [|done].
  rewrite get_put_other; [by rewrite E|apply HD|apply Hx|by apply same_iblock].
Qed.

Lemma winode_outside b : b < 102 ∨ 128 ≤ b → D' b = D b.
Proof. intros Hb. destruct (IBLOCK_native k Hk) as [_ ?]. apply upd_ne. lia. Qed.
End winode.

(** ** Lists of files *)

Definition add_file (F : list afile) (type mtime : Z) : list afile := F ++ [mkAf type mtime []].
Definition grow_file (F : list afile) (k : Z) (p : list Z) : list afile :=
  alter (λ f, mkAf (af_type f) (af_mtime f) (af_data f ++ p)) (Z.to_nat (k - 1)) F.

Lemma file_range F k f : file F k = Some f → 1 ≤ k ≤ zlen F.
Proof. unfold file, zlen. destruct (Z.ltb_spec k 1); [done|]. intros E%lookup_lt_Some. lia. Qed.

Lemma file_is_Some F k : 1 ≤ k ≤ zlen F → ∃ f, file F k = Some f.
Proof.
  unfold file, zlen. intros Hk. rewrite (proj2 (Z.ltb_ge k 1)) by lia. apply lookup_lt_is_Some. lia.
Qed.

Lemma file_None F k : ¬ (1 ≤ k ≤ zlen F) → file F k = None.
Proof. intros Hk. destruct (file F k) eqn:E; [|done]. by apply file_range in E. Qed.

Lemma file_add F type mtime k :
  file (add_file F type mtime) k = if k =? zlen F + 1 then Some (mkAf type mtime []) else file F k.
Proof.
  unfold file, add_file, zlen. destruct (Z.ltb_spec k 1), (Z.eqb_spec k (Z.of_nat (length F) + 1)) as [->|]; try done; try lia.
  - rewrite lookup_app_r by lia. by replace (Z.to_nat _ - length F)%nat with 0%nat by lia.
  - destruct (decide (k < Z.of_nat (length F) + 1)).
    + by rewrite lookup_app_l by lia.
    + rewrite !lookup_ge_None_2; [done|lia|rewrite length_app; simpl; lia].
Qed.

Lemma file_grow F k p k' : 1 ≤ k →
  file (grow_file F k p) k' =
    if k' =? k then (λ f, mkAf (af_type f) (af_mtime f) (af_data f ++ p)) <$> file F k else file F k'.
Proof.
  intros Hk. unfold file, grow_file. rewrite list_lookup_alter. rewrite (proj2 (Z.ltb_ge k 1)) by lia.
  destruct (Z.ltb_spec k' 1), (Z.eqb_spec k' k) as [->|]; try done; [lia|by rewrite decide_True by done|].
  by rewrite decide_False by lia.
Qed.

Lemma fdata_add F type mtime k : fdata (add_file F type mtime) k = fdata F k.
Proof.
  unfold fdata. rewrite file_add. destruct (Z.eqb_spec k (zlen F + 1)) as [->|]; [|done].
  by rewrite file_None by lia.
Qed.

Lemma fdata_grow F k p k' : 1 ≤ k ≤ zlen F → fdata (grow_file F k p) k' = grow k (fdata F) p k'.
Proof.
  intros Hk. unfold fdata, grow, upd. rewrite file_grow by lia.
  destruct (Z.eqb_spec k' k) as [->|]; [|done]. destruct (file_is_Some F k Hk) as [f ->]. done.
Qed.

Lemma total_app F G : total (F ++ G) = total F + total G.
Proof. unfold total. induction F as [|f F IH]; simpl; lia. Qed.

Lemma total_add F type mtime : total (add_file F type mtime) = total F.
Proof. unfold add_file. rewrite total_app. change (total [mkAf type mtime []]) with 0. lia. Qed.

Lemma total_alter g i F f : F !! i = Some f → total (alter g i F) = total F + fcost (g f) - fcost f.
Proof.
  unfold total. revert i. induction F as [|h F IH]; intros [|i]; try done; simpl.
  - intros [= ->]. lia.
  - intros E. specialize (IH _ E). unfold alter in IH. lia.
Qed.

Lemma total_grow F k p : 1 ≤ k ≤ zlen F →
  total (grow_file F k p) = total F + cost (nb (zlen (fdata F k) + zlen p)) - cost (nb (zlen (fdata F k))).
Proof.
  intros Hk. destruct (file_is_Some F k Hk) as [f Hf]. unfold fdata. rewrite Hf.
  unfold file in Hf. rewrite (proj2 (Z.ltb_ge k 1)) in Hf by lia. unfold grow_file.
  rewrite (total_alter _ _ _ _ Hf). unfold fcost. simpl. by rewrite zlen_app.
Qed.

Lemma zlen_grow F k p : zlen (grow_file F k p) = zlen F.
Proof. unfold zlen, grow_file. by rewrite length_alter. Qed.

(** ** ialloc() and iappend() *)

Lemma unused_addrs s F k : img s F → inum_ok k → file F k = None → i_addrs (din (m_img s) nativesb k) = replicate NADDR 0.
Proof.
  intros HI Hk HF. pose proof (im_files _ _ HI) as Fl. pose proof (ly_addrs _ _ _ (fl_layout _ _ _ _ _ Fl) k Hk) as Hl.
  apply list_eq. intros i. destruct (decide (i < NADDR)%nat) as [Hi|Hi].
  - rewrite lookup_replicate_2 by done. destruct (lookup_lt_is_Some_2 (i_addrs (din (m_img s) nativesb k)) i) as [a Ha]; [by rewrite Hl|].
    rewrite Ha. f_equal. assert (slot_ok (Addr (Z.of_nat i))) as Hs by (simpl; fsc; lia).
    pose proof (fl_slots _ _ _ _ _ Fl k (Addr (Z.of_nat i)) Hk Hs) as E. cbn [ptr first] in E. unfold upto, sizes, fdata in E.
    rewrite HF, Nat2Z.id, (list_lookup_total_correct _ _ _ Ha) in E. change (nb (zlen [])) with 0 in E.
    destruct (decide (a = 0)); [done|]. cbn [first] in E. lia.
  - rewrite !lookup_ge_None_2; [done|rewrite length_replicate; lia|lia].
Qed.

(** The inode written last makes the image whole. *)
Lemma winode_img s A F k f x :
  files (m_img s) A (m_freeblock s) (upto (sizes (fdata F))) (fdata F) →
  inum_ok k → file F k = Some f → dinode_ok x → like (inode_for f) x →
  (∀ k', inum_ok k' → A k' = if k' =? k then i_addrs x else i_addrs (din (m_img s) nativesb k')) →
  (∀ k' g, k' ≠ k → file F k' = Some g → like (inode_for g) (din (m_img s) nativesb k')) →
  m_freeblock s = nmeta + total F → m_freeinode s = zlen F + 1 → zlen F < NINODES - 1 →
  m_img s 1 = put_sb nativesb →
  (∀ b, 2 ≤ b < sb_inodestart nativesb ∨ sb_bmapstart nativesb ≤ b < nmeta → m_img s b = zeros BSIZE) →
  wp (winode k x) s (λ _ s', img s' F).
Proof.
  intros Fl Hk Hf Hx Lk EA Lo Fr Nx Ln Sb Z0. unfold winode, rsect, wsect. wp_steps.
  pose proof (ly_blocks _ _ _ (fl_layout _ _ _ _ _ Fl)) as Hb. cbn [m_img].
  set (D' := upd (m_img s) _ _). pose proof (winode_outside (m_img s) k x Hk) as Ho. fold D' in Ho.
  pose proof (winode_din (m_img s) k x Hb Hx) as Ed. fold D' in Ed.
  assert (∀ j g, file F j = Some g → inum_ok j) as Hj.
  { intros j g ?%file_range. unfold inum_ok, NINODES in *. lia. }
  split; cbn [m_img m_freeblock m_freeinode]; fold D'; try done.
  - eapply files_ext; [eapply files_meta; [exact Fl| | |]| |done|done].
    + apply winode_block; done.
    + apply Ho. lia.
    + intros b Hm. apply Ho. right. assert (128 ≤ nmeta) by done. lia.
    + intros k' Hk'. rewrite EA by done. destruct (Z.eqb_spec k' k) as [->|]; [by rewrite Ed|].
      f_equal. by apply winode_other.
  - intros k' g Hg. destruct (decide (k' = k)) as [->|Hne].
    + rewrite Ed. by assert (f = g) as -> by congruence.
    + unfold D'. rewrite winode_other; eauto.
  - by rewrite Ho by lia.
  - intros b Hz. rewrite Ho; [auto|]. change (sb_inodestart nativesb) with 102 in Hz.
    change (sb_bmapstart nativesb) with 128 in Hz. lia.
Qed.

Lemma ialloc_ok s F type mtime :
  img s F → zlen F + 1 < NINODES - 1 → -32768 ≤ type < 32768 → -2147483648 ≤ mtime < 2147483648 →
  wp (ialloc type mtime) s (λ k s', k = zlen F + 1 ∧ img s' (add_file F type mtime)).
Proof.
  intros HI Hl Ht Hm. pose proof HI as [Fl In Fr Nx Ln Sb Z0]. unfold ialloc. pose proof (zlen_nonneg F) as Hz.
  apply wp_bind, wp_gets. apply wp_bind, wp_modify. apply wp_bind, wp_gets. cbn [m_freeinode]. rewrite Nx.
  assert (inum_ok (zlen F + 1)) as Hk by (unfold inum_ok, NINODES in *; lia).
  rewrite u32_small by (unfold NINODES in *; lia). unfold assert at 1.
  rewrite (proj2 (Z.ltb_lt (zlen F + 1 + 1) NINODES)) by lia. apply wp_bind, wp_ret.
  eapply wp_bind_mono; [eapply (winode_img _ (addrs_of (m_img s)) (add_file F type mtime)); cbn [m_img m_freeblock m_freeinode]|].
  - eapply files_ext; [exact Fl|done| |].
    + intros j σ _ _. unfold upto, sizes. by rewrite fdata_add.
    + intros j _. apply fdata_add.
  - done.
  - rewrite file_add. by rewrite Z.eqb_refl.
  - split; cbn [i_type i_major i_minor i_nlink i_size i_mtime i_addrs]; try lia.
    split; [done|]. apply Forall_replicate. lia.
  - done.
  - intros k' Hk'. destruct (Z.eqb_spec k' (zlen F + 1)) as [->|]; [|done].
    apply (unused_addrs s F); [done|done|]. apply file_None. lia.
  - intros k' g Hne. rewrite file_add, (proj2 (Z.eqb_neq _ _) Hne). auto.
  - by rewrite total_add.
  - unfold add_file. rewrite zlen_app. done.
  - unfold add_file. rewrite zlen_app. done.
  - done.
  - done.
  - intros u s' HI'. by apply wp_ret.
Qed.

Lemma rinode_ok s k (Q : inode → mkfs → Prop) : Q (din (m_img s) nativesb k) s → wp (rinode k) s Q.
Proof. done. Qed.

Lemma frame_din s s' k : frame s s' → inum_ok k → din (m_img s') nativesb k = din (m_img s) nativesb k.
Proof.
  intros [Hm _] Hk. unfold din. rewrite Hm; [done|]. destruct (IBLOCK_native k Hk).
  assert (128 ≤ nmeta) by done. lia.
Qed.

Lemma files_addrs D A fb P data k :
  files D A fb P data → inum_ok k → fb ≤ 4294967296 →
  length (A k) = NADDR ∧ Forall (λ a, 0 ≤ a < 4294967296) (A k).
Proof.
  intros [L _ _] Hk Hf. pose proof (ly_addrs _ _ _ L k Hk) as Hl. split; [done|].
  apply Forall_lookup. intros i a Hi. pose proof (lookup_lt_Some _ _ _ Hi) as Hlt.
  destruct (decide (a = 0)) as [->|Hne]; [lia|]. assert (0 ≤ nmeta) by done.
  pose proof (ly_range _ _ _ L k (Addr (Z.of_nat i)) Hk) as Hr. cbn [ptr slot_ok] in Hr.
  rewrite Nat2Z.id, (list_lookup_total_correct _ _ _ Hi) in Hr. fsc. lia.
Qed.

Lemma like_din_ok D k f x size :
  like (inode_for f) (din D nativesb k) → like (inode_for f) x → 0 ≤ size < 4294967296 →
  length (i_addrs x) = NADDR ∧ Forall (λ a, 0 ≤ a < 4294967296) (i_addrs x) →
  dinode_ok (mkInode 0 0 0 0 (i_type x) (i_major x) (i_minor x) (i_nlink x) size (i_mtime x) (i_addrs x)).
Proof.
  intros (T & _ & _ & _ & _ & M) (T' & Ma & Mi & Nl & _ & M') Hs Ha. cbn in T', Ma, Mi, Nl, M'.
  split; cbn; rewrite ?T', ?Ma, ?Mi, ?Nl, ?M'; try done; try lia.
  - cbn in T. rewrite <- T. unfold s16. pose proof (Z.mod_pos_bound (ld16 (D (IBLOCK k nativesb)) (ioff k) + 32768) 65536). lia.
  - cbn in M. rewrite <- M. unfold s32.
    pose proof (Z.mod_pos_bound (ld32 (D (IBLOCK k nativesb)) (ioff k + 12) + 2147483648) 4294967296). lia.
Qed.

Lemma iappend_ok s F k p :
  img s F → 1 ≤ k ≤ zlen F → Forall (λ b, 0 ≤ b < 256) p →
  zlen (fdata F k) + zlen p ≤ MAXFILE * BSIZE → nmeta + total (grow_file F k p) < FSSIZE →
  wp (iappend k p) s (λ _ s', img s' (grow_file F k p)).
Proof.
  intros HI Hk Hp Hs Ht. pose proof HI as [Fl In Fr Nx Ln Sb Z0].
  destruct (file_is_Some F k Hk) as [f Hf]. pose proof (In k f Hf) as Lf.
  assert (inum_ok k) as Hki by (unfold inum_ok, NINODES in *; lia).
  assert (fdata F k = af_data f) as Ed by (unfold fdata; by rewrite Hf).
  rewrite total_grow in Ht by done. set (A := addrs_of (m_img s)) in *.
  assert (sfiles s A k (din (m_img s) nativesb k) (upto (sizes (fdata F))) (fdata F)) as Fk.
  { eapply files_ext; [exact Fl| |done|done]. intros j _. unfold A, upd. by destruct (Z.eqb_spec j k) as [->|]. }
  pose proof (cost_mono (nb (zlen (fdata F k))) (nb (zlen (fdata F k) + zlen p))) as Hc.
  pose proof (nb_nonneg (zlen (fdata F k)) (zlen_nonneg _)).
  pose proof (nb_mono (zlen (fdata F k)) (zlen (fdata F k) + zlen p)). pose proof (zlen_nonneg p).
  unfold iappend. apply wp_bind, rinode_ok.
  eapply wp_bind_mono; [eapply (append_loop_ok A k Hki s _ (fdata F) p Fk); [|done|done|]|].
  { rewrite Ed. apply Lf. }
  { unfold FSSIZE in *. lia. }
  intros [d1 off] s1 [Eo [F1 Fr1 L1 E1]]. cbn [fst snd] in *. subst off. pose proof Fr1 as [Hm Nx1].
  assert (128 ≤ nmeta) as H128 by done.
  apply wp_bind, wp_gets. unfold assert. rewrite (proj2 (Z.ltb_lt (m_freeblock s1) FSSIZE)) by lia. apply wp_bind, wp_ret.
  set (f' := mkAf (af_type f) (af_mtime f) (af_data f ++ p)).
  pose proof (like_trans _ _ _ Lf L1) as L2. clear L1.
  eapply (winode_img _ (upd A k (i_addrs d1)) (grow_file F k p) k f').
  - eapply files_ext; [exact F1|done| |].
    + intros j σ _ _. unfold upto, sizes. by rewrite fdata_grow.
    + intros j _. by apply fdata_grow.
  - done.
  - rewrite file_grow, Z.eqb_refl, Hf by lia. done.
  - eapply like_din_ok; [done|done|pose proof (zlen_nonneg (fdata F k)); fsc; lia|]. pose proof (files_addrs _ _ _ _ _ k F1 Hki) as Ha.
    rewrite upd_eq in Ha. apply Ha. unfold FSSIZE in *. lia.
  - unfold like in *. cbn in *. rewrite zlen_app, Ed. tauto.
  - intros k' Hk'. cbn [i_addrs]. unfold upd. destruct (k' =? k); [done|]. unfold A.
    by rewrite (frame_din s s1).
  - intros k' g Hne. rewrite file_grow, (proj2 (Z.eqb_neq _ _) Hne) by lia. intros Hg.
    rewrite (frame_din s s1); [by apply In|done|]. apply file_range in Hg. unfold inum_ok, NINODES in *. lia.
  - rewrite total_grow by done. lia.
  - by rewrite zlen_grow, Nx1.
  - by rewrite zlen_grow.
  - by rewrite Hm.
  - intros b Hb. rewrite Hm; [auto|]. change (sb_inodestart nativesb) with 102 in Hb. lia.
Qed.

(** * A host directory copied to the image

    The inode numbers of a copied tree are given out in preorder, so the files
    of the image are a function of the tree: [preorder] lists them.  The routines
    of tools/mkfs.c that copy a file or a directory append that list. *)

(** ** The files of a tree *)

Definition host_name (e : hostfile) : list Z := match e with HFile n _ _ | HDir n _ _ => n end.

Fixpoint nodes (e : hostfile) : Z :=
  match e with HFile _ _ _ => 1 | HDir _ _ es => 1 + foldr (λ e n, nodes e + n) 0 es end.

(** The entries of a directory whose children have the inode numbers from [k]. *)
Fixpoint dents (k : Z) (es : list hostfile) : list Z :=
  match es with [] => [] | e :: es => new_entry k (host_name e) ++ dents (k + nodes e) es end.

Definition dir_bytes (k up : Z) (es : list hostfile) : list Z :=
  new_entry k [46] ++ new_entry up [46; 46] ++ dents (k + 1) es.

(** The files of the tree [e] from inode number [k], in directory [up]. *)
Fixpoint preorder (k up : Z) (e : hostfile) : list afile :=
  match e with
  | HFile _ mtime data => [mkAf T_FILE mtime data]
  | HDir _ mtime es =>
      mkAf T_DIR mtime (dir_bytes k up es) ::
      (fix go (k' : Z) (l : list hostfile) : list afile :=
         match l with [] => [] | e :: l => preorder k' k e ++ go (k' + nodes e) l end) (k + 1) es
  end.
Fixpoint preorders (k up : Z) (es : list hostfile) : list afile :=
  match es with [] => [] | e :: es => preorder k up e ++ preorders (k + nodes e) up es end.

Lemma preorder_dir k up name mtime es :
  preorder k up (HDir name mtime es) = mkAf T_DIR mtime (dir_bytes k up es) :: preorders (k + 1) k es.
Proof. cbn [preorder]. f_equal. generalize (k + 1). induction es as [|e es IH]; intros k'; [done|]. by rewrite IH. Qed.

(** The files of the image of a directory. *)
Definition image_files (es : list hostfile) : list afile := preorder 1 1 (HDir [] 0 es).

Lemma hostfile_tree_ind (P : hostfile → Prop) :
  (∀ name mtime data, P (HFile name mtime data)) →
  (∀ name mtime es, Forall P es → P (HDir name mtime es)) → ∀ e, P e.
Proof.
  intros HF HD. fix IH 1. intros [name mtime data|name mtime es]; [apply HF|apply HD].
  induction es as [|e es IHes]; constructor; [apply IH|done].
Qed.

Lemma zlen_preorders k up es : Forall (λ e, ∀ k up, zlen (preorder k up e) = nodes e) es →
  zlen (preorders k up es) = foldr (λ e n, nodes e + n) 0 es.
Proof.
  intros H. revert k. induction H as [|e es He _ IH]; intros k; [done|]. cbn [preorders foldr]. by rewrite zlen_app, He, IH.
Qed.

Lemma zlen_preorder k up e : zlen (preorder k up e) = nodes e.
Proof.
  revert k up. induction e as [|name mtime es IH] using hostfile_tree_ind; intros k up; [done|].
  rewrite preorder_dir. change (zlen (?a :: ?l)) with (zlen ([a] ++ l)). rewrite zlen_app, zlen_preorders by done. done.
Qed.

(** ** What fits the image *)

Definition fits (F : list afile) : bool :=
  (zlen F <? NINODES - 1) && (nmeta + total F <? nblocks) &&
  forallb (λ f, zlen (af_data f) <=? MAXFILE * BSIZE) F.

Definition sub (F G : list afile) : Prop :=
  ∃ G1 G2, G = G1 ++ G2 ∧ Forall2 (λ f g, zlen (af_data f) ≤ zlen (af_data g)) F G1.

Lemma fits_spec F : fits F = true ↔
  zlen F < NINODES - 1 ∧ nmeta + total F < nblocks ∧ Forall (λ f, zlen (af_data f) ≤ MAXFILE * BSIZE) F.
Proof.
  unfold fits. rewrite !andb_true_iff, !Z.ltb_lt, forallb_forall, Forall_forall. setoid_rewrite Z.leb_le.
  setoid_rewrite <- list_elem_of_In. tauto.
Qed.

Lemma fcost_nonneg f : 0 ≤ fcost f.
Proof.
  unfold fcost. pose proof (nb_nonneg (zlen (af_data f)) (zlen_nonneg _)). pose proof (cost_mono 0 (nb (zlen (af_data f)))).
  change (cost 0) with 0 in *. lia.
Qed.

Lemma total_nonneg F : 0 ≤ total F.
Proof. unfold total. induction F as [|f F IH]; simpl; [lia|]. pose proof (fcost_nonneg f). lia. Qed.

Lemma total_mono F G : Forall2 (λ f g, zlen (af_data f) ≤ zlen (af_data g)) F G → total F ≤ total G.
Proof.
  unfold total. induction 1 as [|f g F G Hfg _ IH]; simpl; [lia|].
  assert (fcost f ≤ fcost g); [|lia]. apply cost_mono. split; [apply nb_nonneg, zlen_nonneg|by apply nb_mono].
Qed.

Lemma fits_sub F G : fits G = true → sub F G → fits F = true.
Proof.
  rewrite !fits_spec. intros (Hl & Ht & Hs) (G1 & G2 & -> & H2). rewrite zlen_app, total_app in *.
  pose proof (zlen_nonneg G2). pose proof (total_nonneg G2). pose proof (total_mono _ _ H2).
  pose proof (Forall2_length _ _ _ H2) as El. split_and!; [unfold zlen in *; lia|lia|].
  apply Forall_app in Hs as [Hs _]. clear -H2 Hs. induction H2; [done|]. inversion_clear Hs. constructor; [lia|auto].
Qed.

Lemma sub_refl F : sub F F.
Proof. exists F, []. split; [by rewrite app_nil_r|]. induction F; constructor; [lia|done]. Qed.

Lemma sub_app F H : sub F (F ++ H).
Proof. destruct (sub_refl F) as (G1 & G2 & E & ?). exists G1, (G2 ++ H). split; [|done]. by rewrite app_assoc, <- E. Qed.

Lemma sub_grow F k p H : sub F (grow_file F k p ++ H).
Proof.
  exists (grow_file F k p), H. split; [done|]. unfold grow_file. apply Forall2_same_length_lookup_2; [by rewrite length_alter|].
  intros i f g Hf. rewrite list_lookup_alter. destruct (decide _) as [->|]; rewrite Hf; intros [= <-]; [|done].
  simpl. rewrite zlen_app. pose proof (zlen_nonneg p). lia.
Qed.

Lemma fits_app F H : fits (F ++ H) = true → fits F = true.
Proof. intros Hf. eapply fits_sub; [exact Hf|apply sub_app]. Qed.
Lemma fits_grow F k p : fits (grow_file F k p) = true → fits F = true.
Proof. intros Hf. eapply fits_sub; [exact Hf|]. rewrite <- (app_nil_r (grow_file F k p)). apply sub_grow. Qed.

(** ** Growing a list of files *)

Lemma grow_nil F k : grow_file F k [] = F.
Proof. unfold grow_file. apply list_alter_id. intros [t m d]. simpl. by rewrite app_nil_r. Qed.

Lemma grow_grow F k p q : grow_file (grow_file F k p) k q = grow_file F k (p ++ q).
Proof. unfold grow_file. rewrite list_alter_alter_eq. apply list_alter_ext; [|done]. intros f _. simpl. by rewrite app_assoc. Qed.

Lemma grow_app_l F G k p : 1 ≤ k ≤ zlen F → grow_file (F ++ G) k p = grow_file F k p ++ G.
Proof. unfold zlen. intros Hk. unfold grow_file. apply alter_app_l. lia. Qed.

Lemma grow_last F f k p : k = zlen F + 1 →
  grow_file (F ++ [f]) k p = F ++ [mkAf (af_type f) (af_mtime f) (af_data f ++ p)].
Proof.
  intros ->. unfold grow_file, zlen. rewrite alter_app_r_alt by lia. by replace (Z.to_nat _ - length F)%nat with 0%nat by lia.
Qed.

(** ** The trees that mkfs can copy *)

Definition byte_ok (c : Z) : bool := (0 <=? c) && (c <? 256).
Definition char_ok (c : Z) : bool := (0 <? c) && (c <? 256).
Definition name_ok (n : list Z) : bool :=
  forallb char_ok n && negb (bool_decide (n = [46])) && negb (bool_decide (n = [46; 46])).
Definition time_ok (t : Z) : bool := (-2147483648 <=? t) && (t <? 2147483648).

Fixpoint host_ok (e : hostfile) : bool :=
  match e with
  | HFile name mtime data => name_ok name && time_ok mtime && forallb byte_ok data
  | HDir name mtime es => name_ok name && time_ok mtime && forallb host_ok es
  end.

Lemma bytes_ok l : forallb byte_ok l = true → Forall (λ b, 0 ≤ b < 256) l.
Proof.
  rewrite forallb_forall, Forall_forall. setoid_rewrite list_elem_of_In. unfold byte_ok.
  setoid_rewrite andb_true_iff. setoid_rewrite Z.leb_le. setoid_rewrite Z.ltb_lt. done.
Qed.

Lemma name_chars n c : name_ok n = true → c ∈ n → 0 < c < 256.
Proof.
  unfold name_ok. rewrite !andb_true_iff, forallb_forall. intros [[H _] _] Hc%list_elem_of_In.
  apply H in Hc. unfold char_ok in Hc. lia.
Qed.

Lemma name_bytes n : name_ok n = true → Forall (λ b, 0 ≤ b < 256) n.
Proof. intros H. apply Forall_forall. intros c Hc. pose proof (name_chars n c H Hc). lia. Qed.

Lemma time_range t : time_ok t = true → -2147483648 ≤ t < 2147483648.
Proof. unfold time_ok. rewrite andb_true_iff, Z.leb_le, Z.ltb_lt. done. Qed.

(** ** The routines *)

Lemma iappend_fits s F k p :
  img s F → 1 ≤ k ≤ zlen F → Forall (λ b, 0 ≤ b < 256) p → fits (grow_file F k p) = true →
  wp (iappend k p) s (λ _ s', img s' (grow_file F k p)).
Proof.
  intros HI Hk Hp (_ & Ht & Hs)%fits_spec. apply iappend_ok; try done.
  - destruct (file_is_Some F k Hk) as [f Hf]. unfold fdata. rewrite Hf. rewrite Forall_lookup in Hs.
    pose proof (file_grow F k p k ltac:(lia)) as E. rewrite Z.eqb_refl, Hf in E. unfold file in E.
    rewrite (proj2 (Z.ltb_ge k 1)) in E by lia. apply Hs in E. simpl in E. by rewrite zlen_app in E.
  - unfold nblocks in Ht. assert (0 ≤ nmeta) by done. lia.
Qed.

Lemma dappend_ok s F dir name ino :
  img s F → 1 ≤ dir ≤ zlen F → Forall (λ b, 0 ≤ b < 256) name → fits (grow_file F dir (new_entry ino name)) = true →
  wp (dappend dir name ino) s (λ _ s', img s' (grow_file F dir (new_entry ino name))).
Proof. intros. apply iappend_fits; try done. by apply new_entry_bytes. Qed.

Lemma append_data_ok fuel s F k data :
  img s F → 1 ≤ k ≤ zlen F → Forall (λ b, 0 ≤ b < 256) data → fits (grow_file F k data) = true →
  (length data ≤ fuel)%nat → wp (append_data fuel k data) s (λ _ s', img s' (grow_file F k data)).
Proof.
  revert s F data. induction fuel as [|fuel IH]; intros s F data HI Hk Hd Hf Hl; cbn [append_data].
  { destruct data; [|simpl in Hl; lia]. apply wp_ret. by rewrite grow_nil. }
  destruct data as [|b data]; [apply wp_ret; by rewrite grow_nil|].
  rewrite (proj2 (Z.gtb_lt _ _)) by (unfold zlen; simpl; lia).
  set (d := b :: data) in *. assert (slice d 0 BSIZE ++ drop (Z.to_nat BSIZE) d = d) as Ed by apply take_drop.
  rewrite <- Ed, <- grow_grow in Hf. rewrite <- Ed in Hd at 1. apply Forall_app in Hd as [Hd1 Hd2].
  eapply wp_bind_mono; [apply iappend_fits; try done|].
  { by eapply fits_grow. }
  intros [] s1 HI1. eapply wp_mono; [apply IH; try done|].
  - by rewrite zlen_grow.
  - rewrite length_drop. unfold d, BSIZE in *. simpl in *. lia.
  - intros [] s2. by rewrite grow_grow, Ed.
Qed.

Lemma add_file_app F type mtime : add_file F type mtime = F ++ [mkAf type mtime []].
Proof. done. Qed.

Lemma zlen_add F type mtime : zlen (add_file F type mtime) = zlen F + 1.
Proof. unfold add_file. by rewrite zlen_app. Qed.

Lemma ialloc_fits s F type mtime H :
  img s F → fits (add_file F type mtime ++ H) = true → type = T_FILE ∨ type = T_DIR → time_ok mtime = true →
  wp (ialloc type mtime) s (λ k s', k = zlen F + 1 ∧ img s' (add_file F type mtime)).
Proof.
  intros HI (Hl & _ & _)%fits_spec Ht Hm%time_range. rewrite zlen_app, zlen_add in Hl. pose proof (zlen_nonneg H).
  apply ialloc_ok; [done|lia| |done]. unfold T_FILE, T_DIR in *. lia.
Qed.

Lemma fappend_ok s F dir name mtime data :
  let G := grow_file F dir (new_entry (zlen F + 1) name) ++ [mkAf T_FILE mtime data] in
  img s F → 1 ≤ dir ≤ zlen F → host_ok (HFile name mtime data) = true → fits G = true →
  wp (fappend dir name mtime data) s (λ _ s', img s' G).
Proof.
  intros G HI Hd Hok Hf. cbn in Hok. apply andb_true_iff in Hok as [[Hn Ht]%andb_true_iff Hb%bytes_ok].
  set (F1 := add_file F T_FILE mtime). set (F2 := grow_file F1 dir (new_entry (zlen F + 1) name)).
  assert (F2 = grow_file F dir (new_entry (zlen F + 1) name) ++ [mkAf T_FILE mtime []]) as E2 by by apply grow_app_l.
  assert (G = grow_file F2 (zlen F + 1) data) as EG.
  { rewrite E2. by rewrite grow_last by by rewrite zlen_grow. }
  assert (fits F2 = true) as Hf2 by (rewrite EG in Hf; by eapply fits_grow).
  assert (fits F1 = true) as Hf1 by by eapply fits_grow.
  unfold fappend. eapply wp_bind_mono; [apply (ialloc_fits s F T_FILE mtime []); try done; [by rewrite app_nil_r|by left]|].
  intros k s1 [-> HI1]. eapply wp_bind_mono; [apply dappend_ok; try done; [unfold F1; rewrite zlen_add; lia|by apply name_bytes]|].
  intros [] s2 HI2. rewrite EG. apply append_data_ok; try done.
  - unfold F2, F1. rewrite zlen_grow, zlen_add. pose proof (zlen_nonneg F). lia.
  - by rewrite <- EG.
Qed.

Lemma makdir_ok s F dir name mtime :
  let k := zlen F + 1 in
  let G := grow_file F dir (new_entry k name) ++ [mkAf T_DIR mtime (new_entry k [46] ++ new_entry dir [46; 46])] in
  img s F → 1 ≤ dir ≤ zlen F → name_ok name = true → time_ok mtime = true → fits G = true →
  wp (makdir dir name mtime) s (λ k' s', k' = k ∧ img s' G).
Proof.
  intros k G HI Hd Hn Ht Hf. pose proof (zlen_nonneg F) as Hz.
  set (F1 := add_file F T_DIR mtime). set (F2 := grow_file F1 k (new_entry k [46])).
  set (F3 := grow_file F2 k (new_entry dir [46; 46])).
  assert (F3 = F ++ [mkAf T_DIR mtime (new_entry k [46] ++ new_entry dir [46; 46])]) as E3.
  { unfold F3, F2. rewrite grow_grow. unfold F1, add_file. by rewrite grow_last. }
  assert (G = grow_file F3 dir (new_entry k name)) as EG by (rewrite E3; symmetry; by apply grow_app_l).
  assert (fits F3 = true) as Hf3 by (rewrite EG in Hf; by eapply fits_grow).
  assert (fits F2 = true) as Hf2 by by eapply fits_grow.
  assert (fits F1 = true) as Hf1 by by eapply fits_grow.
  assert (zlen F1 = zlen F + 1) as L1 by apply zlen_add.
  assert (Forall (λ b, 0 ≤ b < 256) [46; 46]) as Hb by (repeat constructor; lia).
  unfold makdir. eapply wp_bind_mono; [apply (ialloc_fits s F T_DIR mtime []); try done; [by rewrite app_nil_r|by right]|].
  intros k' s1 [-> HI1]. fold k. eapply wp_bind_mono; [apply (dappend_ok s1 F1); try done; [lia|by inversion Hb]|].
  intros [] s2 HI2. eapply wp_bind_mono; [apply (dappend_ok s2 F2); try done; unfold F2; rewrite zlen_grow; lia|].
  intros [] s3 HI3. eapply wp_bind_mono; [apply (dappend_ok s3 F3 dir name k); try done|].
  - unfold F3, F2. rewrite !zlen_grow. lia.
  - by apply name_bytes.
  - by rewrite <- EG.
  - intros [] s4 HI4. apply wp_ret. split; [done|]. by rewrite EG.
Qed.

(** One entry of the host directory, and all of them. *)
Definition with_entry (F : list afile) (dir : Z) (e : hostfile) : list afile :=
  grow_file F dir (new_entry (zlen F + 1) (host_name e)) ++ preorder (zlen F + 1) dir e.
Definition with_entries (F : list afile) (dir : Z) (es : list hostfile) : list afile :=
  grow_file F dir (dents (zlen F + 1) es) ++ preorders (zlen F + 1) dir es.

Definition copies (e : hostfile) : Prop := ∀ s F dir,
  img s F → 1 ≤ dir ≤ zlen F → host_ok e = true → fits (with_entry F dir e) = true →
  wp (add_entry dir e) s (λ _ s', img s' (with_entry F dir e)).

Lemma with_entries_cons F dir e es : 1 ≤ dir ≤ zlen F →
  with_entries (with_entry F dir e) dir es = with_entries F dir (e :: es).
Proof.
  intros Hd. unfold with_entries, with_entry. rewrite zlen_app, zlen_preorder, zlen_grow. cbn [dents preorders].
  rewrite grow_app_l by by rewrite zlen_grow. rewrite grow_grow, <- app_assoc.
  by replace (zlen F + nodes e + 1) with (zlen F + 1 + nodes e) by lia.
Qed.

Lemma zlen_with_entry F dir e : zlen F ≤ zlen (with_entry F dir e).
Proof.
  unfold with_entry. rewrite zlen_app, zlen_grow. pose proof (zlen_nonneg (preorder (zlen F + 1) dir e)). lia.
Qed.

Lemma add_directory_ok s F dir es :
  Forall copies es → img s F → 1 ≤ dir ≤ zlen F → forallb host_ok es = true → fits (with_entries F dir es) = true →
  wp (add_directory dir es) s (λ _ s', img s' (with_entries F dir es)).
Proof.
  intros Hc. revert s F. induction Hc as [|e es He _ IH]; intros s F HI Hd Hok Hf; cbn [add_directory].
  - apply wp_ret. unfold with_entries. simpl. by rewrite grow_nil, app_nil_r.
  - cbn in Hok. apply andb_true_iff in Hok as [Hok1 Hok2]. rewrite <- with_entries_cons in Hf |- * by done.
    eapply wp_bind_mono; [apply He; try done; by eapply fits_grow, fits_app|].
    intros [] s1 HI1. apply IH; try done. pose proof (zlen_with_entry F dir e). lia.
Qed.

Lemma add_entry_dir dirino name mtime es s (Q : unit → mkfs → Prop) :
  wp (let* ino := makdir dirino name mtime in add_directory ino es) s Q →
  wp (add_entry dirino (HDir name mtime es)) s Q.
Proof.
  intros H. cbn [add_entry]. apply wp_bind_inv in H. apply wp_bind. eapply wp_mono; [exact H|]. clear. intros ino s.
  revert s. induction es as [|e es IH]; intros s H; [done|]. cbn [add_directory] in H. apply wp_bind_inv in H. apply wp_bind.
  eapply wp_mono; [exact H|]. intros [] s1. apply IH.
Qed.

Lemma add_entry_ok e : copies e.
Proof.
  induction e as [name mtime data|name mtime es IH] using hostfile_tree_ind; intros s F dir HI Hd Hok Hf.
  { by apply fappend_ok. }
  apply add_entry_dir. unfold with_entry in *. cbn in Hok. apply andb_true_iff in Hok as [[Hn Ht]%andb_true_iff Hes].
  rewrite preorder_dir in Hf |- *. cbn [host_name] in *. set (k := zlen F + 1) in *.
  set (G := grow_file F dir (new_entry k name) ++ [mkAf T_DIR mtime (new_entry k [46] ++ new_entry dir [46; 46])]).
  assert (zlen G = k) as EG by (unfold G; by rewrite zlen_app, zlen_grow).
  assert (with_entries G k es = grow_file F dir (new_entry k name) ++ mkAf T_DIR mtime (dir_bytes k dir es) :: preorders (k + 1) k es) as EE.
  { unfold with_entries. rewrite EG. unfold G. rewrite grow_last by by rewrite zlen_grow. rewrite <- app_assoc. simpl. unfold dir_bytes. by rewrite app_assoc. }
  rewrite <- EE in Hf |- *. eapply wp_bind_mono; [apply makdir_ok; try done; by eapply fits_grow, fits_app|].
  intros k' s1 [-> HI1]. fold k. apply add_directory_ok; try done. pose proof (zlen_nonneg F). lia.
Qed.
