(* ===== verification/MkfsWalk.v ===== *)
(** * The bitmap of the image: balloc() of tools/mkfs.c *)

From S2P Require Import Prelude Bytes Params Kstring Store KstringSpec Ondisk OndiskSpec Fs FsBlock FsAlloc FsFile Dir DirSpec DirProps NamexProps Mkfs MkfsImg MkfsAppend MkfsTree.

(** The bits that the inner loop sets. *)
Lemma mark_used_set n i buf :
  mark_used (S n) i buf = mark_used n (i + 1) (set_bit buf i).
Proof.
  unfold set_bit. cbn [mark_used]. repeat f_equal. symmetry. apply u8_small. rewrite Z.shiftl_1_l.
  pose proof (Z.mod_pos_bound i 8 ltac:(lia)). split; [apply Z.pow_nonneg; lia|].
  change 256 with (2 ^ 8). apply Z.pow_lt_mono_r; lia.
Qed.

Lemma mark_used_bits n i buf :
  block_ok buf → 0 ≤ i → i + Z.of_nat n ≤ BPB →
  block_ok (mark_used n i buf) ∧
  ∀ j, 0 ≤ j < BPB → bit (mark_used n i buf) j = (i <=? j) && (j <? i + Z.of_nat n) || bit buf j.
Proof.
  revert i buf. induction n as [|n IH]; intros i buf Hb Hi Hn.
  - split; [done|]. intros j _. cbn [mark_used]. destruct (Z.leb_spec i j), (Z.ltb_spec j (i + Z.of_nat 0)); simpl; try lia; done.
  - rewrite mark_used_set. destruct (IH (i + 1) (set_bit buf i)) as [Hok Hbits]; [|lia|lia|].
    { apply block_ok_byte; [done|lia]. }
    split; [done|]. intros j Hj. rewrite Hbits, bit_set_bit by (done || lia).
    destruct (Z.leb_spec (i + 1) j), (Z.leb_spec i j), (Z.ltb_spec j (i + 1 + Z.of_nat n)),
      (Z.ltb_spec j (i + Z.of_nat (S n))), (Z.eqb_spec j i); simpl; try lia; done.
Qed.

Lemma bit_zeros j : bit (zeros BSIZE) j = false.
Proof. unfold bit. by rewrite byte_zeros, Z.testbit_0_l. Qed.

Lemma bit_full j : 0 ≤ j < BPB → bit (fill_block 255) j = true.
Proof.
  intros Hj. destruct (bi_index j Hj) as [H1 H2]. unfold bit, byte, fill_block.
  rewrite nth_lookup, lookup_replicate_2 by lia. simpl.
  assert (∀ m, 0 ≤ m < 8 → Z.testbit 255 m = true) as H; [|by apply H].
  intros m Hm. change 255 with (Z.ones 8). apply Z.ones_spec_low. lia.
Qed.

(** The bitmap blocks of an image whose first [used] blocks are in use. *)
Definition map_ok (D : Z → list Z) (used : Z) : Prop :=
  ∀ b, 0 ≤ b < FSSIZE → in_use nativesb D b = (b <? used).

Definition bmap0 : Z := sb_bmapstart nativesb.

Lemma native_BBLOCK b : 0 ≤ b < FSSIZE → BBLOCK b nativesb = bmap0 + b / BPB ∧ 0 ≤ b / BPB < nbitmap.
Proof.
  intros Hb. assert (0 ≤ b / BPB < nbitmap) as Hq.
  { split; [apply Z.div_pos; [lia|done]|]. apply Z.div_lt_upper_bound; [done|]. assert (FSSIZE < BPB * nbitmap) by done. lia. }
  split; [|done]. unfold BBLOCK. assert (nbitmap = 3) by done. change (sb_bmapstart nativesb) with 128.
  change bmap0 with 128. rewrite u32_small; lia.
Qed.

(** Before round [j]: [j] full blocks written, [used] bits left. *)
Record marked (s : mkfs) (total j used : Z) (s' : mkfs) : Prop := {
  mk_left : total = BPB * j + used ∧ 0 ≤ j ∧ 0 ≤ used;
  mk_full : ∀ i, 0 ≤ i < j → m_img s' (bmap0 + i) = fill_block 255;
  mk_same : ∀ b, ¬ (bmap0 ≤ b < bmap0 + j) → m_img s' b = m_img s b;
  mk_nums : m_freeblock s' = m_freeblock s ∧ m_freeinode s' = m_freeinode s;
}.

Lemma marked_in_use s used j left s' :
  (∀ i, 0 ≤ i < nbitmap → m_img s (bmap0 + i) = zeros BSIZE) →
  marked s used j left s' → left < BPB →
  map_ok (upd (m_img s') (bmap0 + j) (mark_used (Z.to_nat left) 0 (zeros BSIZE))) used.
Proof.
  intros Hz [(E & Hj & Hl) Hfull Hsame _] Hlt b Hb. unfold in_use.
  destruct (native_BBLOCK b Hb) as [-> Hq]. pose proof (Z.div_mod b BPB ltac:(done)) as Eb.
  pose proof (mod_BPB b) as Hm. set (q := b / BPB) in *. set (m := b mod BPB) in *.
  unfold upd. destruct (Z.eqb_spec (bmap0 + q) (bmap0 + j)) as [Eq|Eq].
  - destruct (mark_used_bits (Z.to_nat left) 0 (zeros BSIZE) block_ok_zeros ltac:(lia) ltac:(lia)) as [_ ->]; [|done].
    rewrite bit_zeros, orb_false_r. assert (q = j) by lia.
    destruct (Z.leb_spec 0 m), (Z.ltb_spec m (0 + Z.of_nat (Z.to_nat left))), (Z.ltb_spec b used); simpl; try done; nia.
  - destruct (decide (q < j)) as [Hqj|Hqj].
    + rewrite Hfull by lia. rewrite bit_full by done. symmetry. apply Z.ltb_lt. nia.
    + rewrite Hsame, Hz, bit_zeros by lia. symmetry. apply Z.ltb_ge. nia.
Qed.

(** The blocks below [used] are marked in use and no others; nothing but the
    bitmap changes. *)
Lemma balloc_marks s used :
  0 ≤ used < nblocks → (∀ i, 0 ≤ i < nbitmap → m_img s (bmap0 + i) = zeros BSIZE) →
  wp (balloc used) s (λ _ s', map_ok (m_img s') used ∧
    (∀ b, ¬ (bmap0 ≤ b < nmeta) → m_img s' b = m_img s b) ∧
    (∀ b, block_ok (m_img s b) → block_ok (m_img s' b)) ∧
    m_freeblock s' = m_freeblock s ∧ m_freeinode s' = m_freeinode s).
Proof.
  intros Hu Hz. unfold balloc, assert. rewrite (proj2 (Z.ltb_lt used nblocks)) by lia. apply wp_bind, wp_ret.
  change (BSIZE * 8) with BPB. change (sb_bmapstart nativesb) with bmap0.
  apply (wp_loop _ (λ n a s', a.1 = bmap0 + (used / BPB - Z.of_nat n) ∧ (Z.of_nat n ≤ used / BPB) ∧
    marked s used (used / BPB - Z.of_nat n) a.2 s')) with (n := Z.to_nat (used / BPB)); [|lia|].
  - intros n [bn u] s1 (E1 & Hn & Hm). cbn [fst snd] in *. subst bn. set (j := used / BPB - Z.of_nat n) in *.
    pose proof Hm as [(E & Hj & Hl) Hfull Hsame Hnum]. pose proof (Z.div_mod used BPB ltac:(done)).
    pose proof (Z.mod_pos_bound used BPB ltac:(done)). assert (used / BPB < nbitmap) as Hq.
    { apply Z.div_lt_upper_bound; [done|]. assert (nblocks < BPB * nbitmap) by done. lia. }
    assert (bmap0 + nbitmap = nmeta) by done. destruct (Z.geb_spec u BPB) as [Hge|Hlt].
    + apply wp_bind, wp_modify. apply wp_ret. assert (0 < n)%nat by nia. exists (n - 1)%nat. split; [lia|].
      cbn [fst snd]. replace (used / BPB - Z.of_nat (n - 1)) with (j + 1) by lia. split_and!; [lia|lia|].
      split; cbn [m_img m_freeblock m_freeinode]; [lia| | |done].
      * intros i Hi. destruct (decide (i = j)) as [->|]; [apply upd_eq|]. rewrite upd_ne by lia. apply Hfull. lia.
      * intros b Hb. rewrite upd_ne by lia. apply Hsame. lia.
    + apply wp_bind, wp_modify. apply wp_ret. cbn [m_img m_freeblock m_freeinode]. split_and!; [| | |apply Hnum|apply Hnum].
      * by apply (marked_in_use s used j u s1).
      * intros b Hb. rewrite upd_ne by lia. apply Hsame. lia.
      * intros b Hb. unfold upd. destruct (Z.eqb_spec b (bmap0 + j)) as [->|].
        { apply mark_used_bits; [apply block_ok_zeros|lia|lia]. }
        destruct (decide (bmap0 ≤ b < bmap0 + j)); [|by rewrite Hsame].
        replace b with (bmap0 + (b - bmap0)) by lia. rewrite Hfull by lia. by apply block_ok_fill.
  - cbn [fst snd]. pose proof (Z.div_pos used BPB ltac:(lia) ltac:(done)).
    rewrite Z2Nat.id, Z.sub_diag by lia. split_and!; [lia|lia|]. split; [lia|lia|done|done].
Qed.

(** * Looking up a path in the image

    [twalk] follows a path in the tree of the host and counts inode numbers;
    on the image, [walk] of the kernel's path resolution finds the same inode. *)

(** ** Paths in the host tree *)

(** A path element that is not one of the entries every directory has. *)
Definition plain (n : list Z) : Prop :=
  take (Z.to_nat DIRSIZ) (cstr n) ≠ [46] ∧ take (Z.to_nat DIRSIZ) (cstr n) ≠ [46; 46].

#[export] Instance plain_dec n : Decision (plain n).
Proof. unfold plain. apply _. Defined.

(** The first entry with the name, up to DIRSIZ characters, and its number. *)
Fixpoint tfind (n : list Z) (k : Z) (es : list hostfile) : option (Z * hostfile) :=
  match es with
  | [] => None
  | e :: es =>
      if decide (take (Z.to_nat DIRSIZ) (cstr n) = take (Z.to_nat DIRSIZ) (host_name e)) then Some (k, e)
      else tfind n (k + nodes e) es
  end.

Fixpoint twalk (k : Z) (e : hostfile) (path : list (list Z)) : option (Z * hostfile) :=
  match path, e with
  | [], _ => Some (k, e)
  | n :: path, HFile _ _ _ => None
  | n :: path, HDir _ _ es =>
      match tfind n (k + 1) es with
      | None => None
      | Some (k', e') => twalk k' e' path
      end
  end.

(** ** Directories as lists of entries *)

Fixpoint dent_list (k : Z) (es : list hostfile) : list (list Z) :=
  match es with [] => [] | e :: es => new_entry k (host_name e) :: dent_list (k + nodes e) es end.

Definition dir_list (k up : Z) (es : list hostfile) : list (list Z) :=
  new_entry k [46] :: new_entry up [46; 46] :: dent_list (k + 1) es.

Lemma mjoin_cons (d : list Z) L : mjoin (d :: L) = d ++ mjoin L.
Proof. done. Qed.

Lemma dents_list k es : dents k es = mjoin (dent_list k es).
Proof.
  revert k. induction es as [|e es IH]; intros k; [done|]. cbn [dents dent_list]. by rewrite mjoin_cons, IH.
Qed.

Lemma dir_bytes_list k up es : dir_bytes k up es = mjoin (dir_list k up es).
Proof. unfold dir_bytes, dir_list. by rewrite !mjoin_cons, dents_list. Qed.

Lemma zlen_new_entry k n : zlen (new_entry k n) = DIRENTSZ.
Proof. apply dirent_roundtrip. Qed.

Lemma dir_list_sizes k up es : Forall (λ d, zlen d = DIRENTSZ) (dir_list k up es).
Proof.
  unfold dir_list. repeat (constructor; [apply zlen_new_entry|]). generalize (k + 1). clear.
  induction es as [|e es IH]; intros k; constructor; [apply zlen_new_entry|done].
Qed.

Lemma zlen_mjoin L : Forall (λ d : list Z, zlen d = DIRENTSZ) L → zlen (mjoin L) = DIRENTSZ * zlen L.
Proof.
  induction 1 as [|d L Hd _ IH]; [done|]. rewrite mjoin_cons, zlen_app, Hd, IH. unfold zlen. simpl. lia.
Qed.

(** The bytes of entry [j], and zeros after the last one. *)
Lemma byte_mjoin L j i : Forall (λ d : list Z, zlen d = DIRENTSZ) L → 0 ≤ i < DIRENTSZ →
  byte (mjoin L) (Z.of_nat j * DIRENTSZ + i) = byte (default (zeros DIRENTSZ) (L !! j)) i.
Proof.
  intros HL Hi. revert j. induction HL as [|d L Hd _ IH]; intros j.
  - simpl. rewrite byte_zeros. apply byte_beyond. unfold zlen, DIRENTSZ in *. simpl. lia.
  - rewrite mjoin_cons. destruct j as [|j]; simpl.
    + by rewrite byte_app_l by lia.
    + rewrite byte_app_r by (unfold DIRENTSZ in *; lia). rewrite Hd, <- IH. f_equal. unfold DIRENTSZ. lia.
Qed.

(** The entries that the kernel reads from a directory of the image, whose
    size may be more than that of its entries. *)
Lemma image_entries D addrs L size :
  Forall (λ d, zlen d = DIRENTSZ) L → has_bytes D addrs (mjoin L) →
  zlen (mjoin L) ≤ size ≤ MAXFILE * BSIZE →
  ∃ m, dentries D addrs size = L ++ replicate m (zeros DIRENTSZ).
Proof.
  intros HL [_ Hb] Hs. rewrite zlen_mjoin in Hs by done. pose proof (zlen_nonneg L) as Hz.
  pose proof (Z.div_mod size DIRENTSZ ltac:(done)) as Em. pose proof (Z.mod_pos_bound size DIRENTSZ ltac:(done)) as Hm.
  exists (Z.to_nat (size / DIRENTSZ) - length L)%nat.
  assert (length L ≤ Z.to_nat (size / DIRENTSZ))%nat as Hl.
  { assert (zlen L ≤ size / DIRENTSZ) by (apply Z.div_le_lower_bound; [done|lia]). unfold zlen in *. lia. }
  apply list_eq. intros j. destruct (decide (j < Z.to_nat (size / DIRENTSZ))%nat) as [Hj|Hj].
  - rewrite <- (Nat2Z.id j) at 1. rewrite dentries_lookup by lia.
    assert ((L ++ replicate (Z.to_nat (size / DIRENTSZ) - length L) (zeros DIRENTSZ)) !! j =
      Some (default (zeros DIRENTSZ) (L !! j))) as ->.
    { destruct (L !! j) eqn:E; simpl; [by apply lookup_app_l_Some|]. apply lookup_ge_None in E.
      rewrite lookup_app_r by done. apply lookup_replicate_2. lia. }
    f_equal. assert (zlen (default (zeros DIRENTSZ) (L !! j)) = DIRENTSZ) as El.
    { destruct (L !! j) eqn:E; [|done]. simpl. by eapply Forall_lookup_1 in HL. }
    unfold dentry. apply byte_ext; [by rewrite zlen_fslice by done|].
    rewrite zlen_fslice by done. intros i Hi. rewrite byte_fslice by done. rewrite Hb; [by apply byte_mjoin|].
    unfold DIRENTSZ in *. lia.
  - rewrite !lookup_ge_None_2; [done|rewrite length_app, length_replicate; lia|rewrite length_dentries; lia].
Qed.

(** ** Names *)

Lemma new_entry_named n k name : 0 < k < 65536 →
  entry_named n (new_entry k name) ↔ take (Z.to_nat DIRSIZ) (cstr n) = take (Z.to_nat DIRSIZ) (cstr name).
Proof.
  intros Hk. destruct (dirent_found k name n Hk) as [E1 E2]. unfold entry_named, new_entry. rewrite E1, E2.
  split; [tauto|]. intros E. split; [lia|done].
Qed.

Lemma new_entry_inum k name : 0 < k < 65536 → de_inum (new_entry k name) = k.
Proof. intros Hk. by destruct (dirent_found k name name Hk). Qed.

Lemma zero_entry_unnamed n : ¬ entry_named n (zeros DIRENTSZ).
Proof. intros [H _]. by apply H. Qed.

Lemma list_find_skip {A B} (P : A → Prop) `{∀ x, Decision (P x)} (f : A → B) x l :
  ¬ P x → (λ p, f p.2) <$> list_find P (x :: l) = (λ p, f p.2) <$> list_find P l.
Proof. intros Hx. cbn [list_find]. rewrite decide_False by done. by destruct (list_find P l). Qed.

Lemma host_name_cstr e : host_ok e = true → cstr (host_name e) = host_name e.
Proof.
  intros He. apply cstr_nozero. intros c Hc. assert (name_ok (host_name e) = true) as Hn.
  { destruct e; cbn in He; apply andb_true_iff in He as [[He _]%andb_true_iff _]; done. }
  pose proof (name_chars _ _ Hn Hc). lia.
Qed.

Lemma nodes_pos e : 1 ≤ nodes e.
Proof.
  induction e as [|name mtime es IH] using hostfile_tree_ind; cbn [nodes]; [lia|].
  assert (0 ≤ foldr (λ e n, nodes e + n) 0 es); [|lia]. induction IH; simpl; lia.
Qed.

Lemma nodes_nonneg es : 0 ≤ foldr (λ e n, nodes e + n) 0 es.
Proof. induction es as [|x es IH]; simpl; [lia|]. pose proof (nodes_pos x). lia. Qed.

(** The entry that a lookup finds is the first with the name. *)
Lemma find_child n k es m :
  0 < k → k + foldr (λ e n, nodes e + n) 0 es ≤ 65536 → forallb host_ok es = true →
  (λ p, de_inum p.2) <$> list_find (entry_named n) (dent_list k es ++ replicate m (zeros DIRENTSZ)) =
  fst <$> tfind n k es.
Proof.
  revert k. induction es as [|e es IH]; intros k Hk Hn Hok.
  - cbn [dent_list tfind app]. induction m as [|m IHm]; [done|]. cbn [replicate].
    rewrite (list_find_skip _ de_inum); [done|apply zero_entry_unnamed].
  - cbn [forallb] in Hok. apply andb_true_iff in Hok as [He Hes]. cbn [dent_list tfind app foldr] in *.
    pose proof (nodes_pos e) as Hp.
    pose proof (nodes_nonneg es) as Hf. pose proof (new_entry_named n k (host_name e) ltac:(lia)) as En. rewrite host_name_cstr in En by done.
    destruct (decide (take (Z.to_nat DIRSIZ) (cstr n) = take (Z.to_nat DIRSIZ) (host_name e))) as [E|E].
    + cbn [list_find]. rewrite decide_True by tauto. simpl. f_equal. apply new_entry_inum. lia.
    + rewrite (list_find_skip _ de_inum) by tauto. apply IH; [lia|lia|done].
Qed.

(** A name that is neither "." nor "..". *)
Lemma find_in_dir n k up es m :
  plain n → 0 < k → 0 < up < 65536 → k + 1 + foldr (λ e n, nodes e + n) 0 es ≤ 65536 → forallb host_ok es = true →
  (λ p, de_inum p.2) <$> list_find (entry_named n) (dir_list k up es ++ replicate m (zeros DIRENTSZ)) =
  fst <$> tfind n (k + 1) es.
Proof.
  intros [Hn1 Hn2] Hk Hu Hs Hok. unfold dir_list. rewrite <- !app_comm_cons.
  pose proof (nodes_nonneg es) as Hf. rewrite (list_find_skip _ de_inum) by (rewrite new_entry_named by lia; exact Hn1).
  rewrite (list_find_skip _ de_inum) by (rewrite new_entry_named by lia; exact Hn2).
  apply find_child; [lia|lia|done].
Qed.

(** ** The image in the end *)

(** Where the files of the tree [e] are in the list of files. *)
Definition placed (F : list afile) (k up : Z) (e : hostfile) : Prop :=
  ∀ j f, preorder k up e !! j = Some f → file F (k + Z.of_nat j) = Some f.
Definition all_placed (F : list afile) (k up : Z) (es : list hostfile) : Prop :=
  ∀ j f, preorders k up es !! j = Some f → file F (k + Z.of_nat j) = Some f.

Lemma all_placed_cons F k up e es :
  all_placed F k up (e :: es) → placed F k up e ∧ all_placed F (k + nodes e) up es.
Proof.
  unfold all_placed, placed. cbn [preorders]. intros H. split.
  - intros j f Hj. apply H. by apply lookup_app_l_Some.
  - intros j f Hj. pose proof (zlen_preorder k up e) as Hl. unfold zlen in Hl.
    specialize (H (length (preorder k up e) + j)%nat f). rewrite lookup_app_r in H by lia.
    replace (length (preorder k up e) + j - length (preorder k up e))%nat with j in H by lia.
    rewrite <- (H Hj). f_equal. lia.
Qed.

Lemma placed_file F k up name mtime data : placed F k up (HFile name mtime data) → file F k = Some (mkAf T_FILE mtime data).
Proof. intros H. specialize (H 0%nat _ eq_refl). by rewrite Z.add_0_r in H. Qed.

Lemma placed_dir F k up name mtime es : placed F k up (HDir name mtime es) →
  file F k = Some (mkAf T_DIR mtime (dir_bytes k up es)) ∧ all_placed F (k + 1) k es.
Proof.
  unfold placed. rewrite preorder_dir. intros H. split.
  - specialize (H 0%nat _ eq_refl). by rewrite Z.add_0_r in H.
  - intros j f Hj. specialize (H (S j) f Hj). rewrite <- H. f_equal. lia.
Qed.

Lemma tfind_placed F n k up es k' e' :
  all_placed F k up es → forallb host_ok es = true → tfind n k es = Some (k', e') →
  placed F k' up e' ∧ host_ok e' = true.
Proof.
  revert k. induction es as [|e es IH]; intros k H Hok; [done|]. cbn [tfind forallb] in *.
  apply andb_true_iff in Hok as [He Hes]. apply all_placed_cons in H as [H1 H2].
  destruct (decide _); [by intros [= <- <-]|]. by apply IH.
Qed.

Lemma all_placed_bound F k up es :
  all_placed F k up es → k + foldr (λ e n, nodes e + n) 0 es ≤ Z.max k (zlen F + 1).
Proof.
  intros H. assert (zlen (preorders k up es) = foldr (λ e n, nodes e + n) 0 es) as El.
  { apply zlen_preorders, Forall_forall. intros e _ k' up'. apply zlen_preorder. }
  rewrite <- El. destruct (decide (length (preorders k up es) = 0%nat)) as [E|E]; [unfold zlen; lia|].
  destruct (lookup_lt_is_Some_2 (preorders k up es) (length (preorders k up es) - 1)) as [f Hf]; [lia|].
  apply H, file_range in Hf. unfold zlen in *. lia.
Qed.

(** What the kernel sees of the files [F]: the root directory has a size of
    whole blocks. *)
Definition shown_size (k n : Z) : Z := if k =? ROOTINO then round_root n else n.
Definition shown_inode (k : Z) (f : afile) : inode :=
  mkInode 0 0 0 0 (af_type f) 0 0 1 (shown_size k (zlen (af_data f))) (af_mtime f) [].

Record image (D : Z → list Z) (fb : Z) (F : list afile) : Prop := {
  ig_files : files D (addrs_of D) fb (upto (sizes (fdata F))) (fdata F);
  ig_inode : ∀ k f, file F k = Some f → like (shown_inode k f) (din D nativesb k);
  ig_count : zlen F < NINODES - 1;
  ig_sizes : ∀ k f, file F k = Some f → shown_size k (zlen (af_data f)) ≤ MAXFILE * BSIZE;
}.

Lemma image_file D fb F k f : image D fb F → file F k = Some f →
  1 ≤ k < NINODES - 1 ∧ inum_ok k ∧ has_bytes D (i_addrs (din D nativesb k)) (af_data f).
Proof.
  intros [Fl _ Hc _] Hf. pose proof (file_range _ _ _ Hf). assert (inum_ok k) as Hk by (unfold inum_ok, NINODES in *; lia).
  split_and!; [lia|lia|done|]. pose proof (fl_bytes _ _ _ _ _ Fl k Hk) as Hb. unfold fdata in Hb. by rewrite Hf in Hb.
Qed.

(** The entry that the kernel finds in a directory of the image. *)
Lemma image_find D fb F k up name mtime es n :
  image D fb F → placed F k up (HDir name mtime es) → forallb host_ok es = true → plain n → 1 ≤ up < NINODES →
  dir_find D nativesb k n = fst <$> tfind n (k + 1) es.
Proof.
  intros HI HP Hok Hn Hu. destruct (placed_dir _ _ _ _ _ _ HP) as [Hf Ha].
  destruct (image_file _ _ _ _ _ HI Hf) as (Hk & Hki & Hb). cbn [af_data] in Hb. rewrite dir_bytes_list in Hb.
  pose proof (ig_inode _ _ _ HI k _ Hf) as (_ & _ & _ & _ & Es & _). 
  pose proof (ig_sizes _ _ _ HI k _ Hf) as Hs. cbn [shown_inode i_size af_data] in Es, Hs. rewrite dir_bytes_list in Es, Hs.
  unfold dir_find, dir_entries. rewrite Es.
  destruct (image_entries D _ _ (shown_size k (zlen (mjoin (dir_list k up es)))) (dir_list_sizes k up es) Hb) as [m ->].
  { split; [|done]. unfold shown_size, round_root. destruct (k =? ROOTINO); [|done].
    pose proof (Z.div_mod (zlen (mjoin (dir_list k up es))) BSIZE ltac:(done)).
    pose proof (Z.mod_pos_bound (zlen (mjoin (dir_list k up es))) BSIZE ltac:(done)). lia. }
  pose proof (all_placed_bound _ _ _ _ Ha). pose proof (ig_count _ _ _ HI). unfold NINODES in *.
  apply find_in_dir; [done|lia|lia|lia|done].
Qed.

(** The resolution of a path on the image, and what it finds. *)
Lemma image_walk D fb F path :
  image D fb F → Forall plain path → ∀ k up e, placed F k up e → host_ok e = true → 1 ≤ up < NINODES →
  walk D nativesb false k path = fst <$> twalk k e path ∧
  ∀ k' e', twalk k e path = Some (k', e') → ∃ up', placed F k' up' e'.
Proof.
  intros HI Hp. induction Hp as [|n path Hn _ IH]; intros k up e HP Hok Hu.
  { split; [done|]. intros k' e' [= <- <-]. by exists up. }
  cbn [walk twalk]. destruct e as [name mtime data|name mtime es].
  - pose proof (placed_file _ _ _ _ _ _ HP) as Hf. destruct (ig_inode _ _ _ HI k _ Hf) as [Et _]. by rewrite Et.
  - destruct (placed_dir _ _ _ _ _ _ HP) as [Hf Ha]. destruct (ig_inode _ _ _ HI k _ Hf) as [Et _]. rewrite Et.
    destruct (image_file _ _ _ _ _ HI Hf) as (Hk & _ & _).
    cbn in Hok. apply andb_true_iff in Hok as [_ Hes]. cbn [shown_inode i_type af_type].
    rewrite Z.eqb_refl. cbn [negb andb]. rewrite (image_find D fb F k up name mtime es n HI HP Hes Hn Hu).
    destruct (tfind n (k + 1) es) as [[k' e']|] eqn:E; [|done]. simpl.
    destruct (tfind_placed _ _ _ _ _ _ _ Ha Hes E) as [HP' Hok']. apply (IH k' k e'); [done|done|lia].
Qed.
