(* ===== verification/MkfsProps.v ===== *)
(** * mkfs and the kernel agree on the image

    The image that mkfs makes of a host directory is a file system in which
    the kernel's path resolution finds every file of the directory, with its
    data, and whose bitmap marks the blocks in use. *)

From S2P Require Import Prelude Bytes Params Kstring KstringSpec Store Ondisk OndiskSpec Fs FsBlock FsAlloc FsFile Dir DirSpec DirProps NamexProps Mkfs MkfsImg MkfsAppend MkfsTree MkfsWalk.

(** ** The empty image *)

Lemma ldn_zeros n m off : ldn n (zeros m) off = 0.
Proof.
  unfold ldn, slice, zeros. rewrite drop_replicate, take_replicate. generalize (Z.to_nat (Z.of_nat n) `min` (Z.to_nat m - Z.to_nat off))%nat.
  intros q. unfold be_dec. induction q as [|q IH]; [done|]. done.
Qed.

Lemma blank_addrs D k : D (IBLOCK k nativesb) = zeros BSIZE → i_addrs (din D nativesb k) = replicate NADDR 0.
Proof.
  intros E. unfold din. cbn [get_dinode i_addrs]. rewrite E. unfold ld_addrs, ld32.
  apply list_eq. intros i. destruct (decide (i < NADDR)%nat).
  - by rewrite lookup_replicate_2, list_lookup_fmap, lookup_seq_lt, <- (ldn_zeros 4 BSIZE (ioff k + 16 + 4 * Z.of_nat i)) by done.
  - rewrite !lookup_ge_None_2; [done|rewrite length_replicate; lia|rewrite length_map, length_seq; lia].
Qed.

Lemma blank_ptr D σ : D 0 = zeros BSIZE → slot_ok σ → ptr D (replicate NADDR 0) σ = 0.
Proof.
  intros E. induction σ as [i|up IH i]; intros Hσ; cbn [ptr].
  - apply list_lookup_total_correct, lookup_replicate_2. simpl in Hσ. fsc. lia.
  - destruct (slot_ok_up _ _ Hσ) as [Hu Hi]. rewrite IH, E by done. by apply ld_ptr_zeros.
Qed.

Lemma block_ok_put_sb : block_ok (put_sb nativesb).
Proof. unfold put_sb. cbv zeta. unfold st32. repeat (apply block_ok_stn; [|lia|unfold BSIZE; lia]). apply block_ok_zeros. Qed.

Definition blank : mkfs := mkMkfs (upd (λ _, zeros BSIZE) 1 (put_sb nativesb)) 1 nmeta.

Lemma blank_img : img blank [].
Proof.
  assert (∀ b, b ≠ 1 → m_img blank b = zeros BSIZE) as Hz by (intros; cbn [blank m_img]; by apply (upd_ne (λ _, zeros BSIZE))).
  assert (∀ k, inum_ok k → i_addrs (din (m_img blank) nativesb k) = replicate NADDR 0) as Ha.
  { intros k Hk. apply blank_addrs, Hz. destruct (IBLOCK_native k Hk). lia. }
  assert (∀ k σ, inum_ok k → slot_ok σ → ptr (m_img blank) (i_addrs (din (m_img blank) nativesb k)) σ = 0) as Hp.
  { intros k σ Hk Hσ. rewrite Ha by done. apply blank_ptr; [by apply Hz|done]. }
  assert (∀ k, fdata [] k = []) as Hd by (intros k; unfold fdata; by rewrite file_None by (unfold zlen; simpl; lia)).
  split; try done.
  - split; [split|..].
    + intros b. simpl. unfold upd. destruct (b =? 1); [apply block_ok_put_sb|apply block_ok_zeros].
    + by apply Hz.
    + intros b Hb. apply Hz. assert (1 < nmeta) by done. simpl in Hb. lia.
    + simpl. lia.
    + intros k Hk. by rewrite Ha by done.
    + intros k σ Hk Hσ. by rewrite Hp by done.
    + intros k σ k' σ' Hk Hσ _ _. by rewrite Hp by done.
    + intros k σ Hk Hσ. rewrite Hp by done. unfold upto, sizes. rewrite Hd. change (nb (zlen [])) with 0.
      pose proof (first_range σ Hσ). split; [done|lia].
    + intros k Hk. rewrite Hd, Ha by done. split; [done|]. intros i Hi. unfold fbyte. rewrite leaf_ptr, blank_ptr, Hz; [|done|by apply Hz|].
      * rewrite byte_zeros. by rewrite byte_beyond by (unfold zlen; simpl; lia).
      * by apply slot_of_ok, div_range.
  - intros k f. by rewrite file_None by (unfold zlen; simpl; lia).
  - intros b Hb. apply Hz. assert (1 < sb_bmapstart nativesb) by done. lia.
Qed.

(** ** The last steps of main() *)

Definition root_fixed (x : inode) : inode :=
  mkInode 0 0 0 0 (i_type x) (i_major x) (i_minor x) (i_nlink x) (round_root (i_size x)) (i_mtime x) (i_addrs x).

Definition finish : M mkfs unit :=
  let* din := rinode ROOTINO in
  winode ROOTINO (root_fixed din) ;;
  let* free := gets m_freeblock in
  balloc free.

Lemma round_root_range n : 0 ≤ n → n < round_root n ≤ n + BSIZE.
Proof.
  intros Hn. unfold round_root, BSIZE. pose proof (Z.div_mod n 512 ltac:(lia)).
  pose proof (Z.mod_pos_bound n 512 ltac:(lia)). lia.
Qed.

(** The root inode rewritten and the bitmap filled in, from an image without. *)
Lemma image_of_img s F f x D' :
  img s F → file F ROOTINO = Some f → zlen (af_data f) + BSIZE ≤ MAXFILE * BSIZE →
  (∀ k g, file F k = Some g → zlen (af_data g) ≤ MAXFILE * BSIZE) → x = root_fixed (din (m_img s) nativesb ROOTINO) →
  (∀ b, ¬ (bmap0 ≤ b < nmeta) →
    D' b = upd (m_img s) (IBLOCK ROOTINO nativesb) (put_dinode (m_img s (IBLOCK ROOTINO nativesb)) (ioff ROOTINO) x) b) →
  (∀ b, block_ok (D' b)) → m_freeblock s ≤ 4294967296 → image D' (m_freeblock s) F.
Proof.
  intros HI Hf Hroom Hsz Ex HD Hb Hfb. pose proof HI as [Fl In Fr Nx Ln Sb Z0].
  pose proof (zlen_nonneg (af_data f)) as Hz. pose proof (round_root_range _ Hz) as Hrr.
  assert (inum_ok ROOTINO) as Hk by done. pose proof (In _ _ Hf) as Lr. set (y := din (m_img s) nativesb ROOTINO) in *.
  assert (i_size y = zlen (af_data f)) as Ey by apply Lr. pose proof (ly_blocks _ _ _ (fl_layout _ _ _ _ _ Fl)) as Hb0.
  assert (dinode_ok x) as Hx.
  { rewrite Ex. eapply like_din_ok; [exact Lr|exact Lr|rewrite Ey; fsc; lia|].
    by eapply (files_addrs _ _ _ _ _ ROOTINO Fl Hk). }
  set (D1 := upd _ _ _) in HD.
  assert (∀ k, inum_ok k → din D' nativesb k = din D1 nativesb k) as Ed.
  { intros k Hki. unfold din. rewrite HD; [done|]. destruct (IBLOCK_native k Hki). change bmap0 with 128. lia. }
  assert (∀ k, inum_ok k → k ≠ ROOTINO → din D' nativesb k = din (m_img s) nativesb k) as Eo.
  { intros k Hki Hne. rewrite Ed by done. by apply winode_other. }
  assert (din D' nativesb ROOTINO = root_fixed y) as Er.
  { rewrite Ed by done. unfold D1. rewrite winode_din by done. by rewrite Ex. }
  assert (∀ k g, file F k = Some g → inum_ok k) as Hki.
  { intros k g ?%file_range. unfold inum_ok, NINODES in *. lia. }
  split; [|  |done|].
  - eapply files_ext; [eapply files_meta; [exact Fl|done| |]| |done|done].
    + rewrite HD by (change bmap0 with 128; lia). apply (winode_outside (m_img s) ROOTINO x Hk). lia.
    + intros b Hm. assert (128 ≤ nmeta) by done. rewrite HD by lia. apply (winode_outside (m_img s) ROOTINO x Hk). lia.
    + intros k Hkk. destruct (decide (k = ROOTINO)) as [->|]; [by rewrite Er|by rewrite Eo].
  - intros k g Hg. pose proof (Hki _ _ Hg) as Hkk. unfold shown_inode, shown_size.
    destruct (Z.eqb_spec k ROOTINO) as [->|Hne]; [|rewrite Eo by done; by apply In].
    rewrite Er. assert (g = f) as -> by congruence. unfold like, root_fixed in *. cbn in *. rewrite <- Ey. tauto.
  - intros k g Hg. unfold shown_size. destruct (Z.eqb_spec k ROOTINO) as [->|]; [|by eapply Hsz].
    assert (g = f) as -> by congruence. lia.
Qed.

Lemma finish_ok s F f :
  img s F → fits F = true → file F ROOTINO = Some f → zlen (af_data f) + BSIZE ≤ MAXFILE * BSIZE →
  wp finish s (λ _ s', image (m_img s') (m_freeblock s') F ∧ map_ok (m_img s') (m_freeblock s') ∧
    m_img s' 1 = put_sb nativesb ∧ m_freeblock s' = nmeta + total F).
Proof.
  intros HI (_ & Ht & Hsz)%fits_spec Hf Hroom. pose proof (im_free _ _ HI) as Fr. pose proof (total_nonneg F).
  pose proof (ly_blocks _ _ _ (fl_layout _ _ _ _ _ (im_files _ _ HI))) as Hb0. assert (0 ≤ nmeta ∧ nblocks < 10000) as [? ?] by done.
  unfold finish. apply wp_bind, rinode_ok. set (x := root_fixed _). unfold winode, rsect, wsect.
  apply wp_bind, wp_bind, wp_gets. apply wp_modify. apply wp_bind, wp_gets. cbn [m_freeblock].
  set (s1 := mkMkfs _ _ _). assert (length (i_addrs x) = NADDR) as Hx.
  { apply (ly_addrs _ _ _ (fl_layout _ _ _ _ _ (im_files _ _ HI)) ROOTINO). done. }
  assert (∀ b, block_ok (m_img s1 b)) as Hb1.
  { intros b. simpl. unfold upd. destruct (b =? _); [|done]. by apply block_ok_put_dinode. }
  eapply wp_mono; [apply (balloc_marks s1); [lia|]|].
  { intros i Hi. assert (bmap0 + nbitmap = nmeta ∧ IBLOCK ROOTINO nativesb = 102 ∧ bmap0 = 128) as (? & E & ?) by done.
    cbn [s1 m_img]. rewrite upd_ne by lia. apply (im_zero _ _ HI). right. change (sb_bmapstart nativesb) with bmap0. lia. }
  intros [] s2 (Hmap & Hsame & Hok & E1 & _). rewrite E1. cbn [s1 m_freeblock]. split_and!; [|done| |done].
  - eapply (image_of_img s F f x); try done; [|intros b; by apply Hok|lia].
    intros k g Hg. rewrite Forall_lookup in Hsz. unfold file in Hg. destruct (k <? 1); [done|]. by eapply Hsz.
  - rewrite Hsame by (change bmap0 with 128; lia). cbn [s1 m_img]. rewrite upd_ne by done. apply HI.
Qed.

(** ** main() *)

Lemma zlen_dent_list k es : zlen (dent_list k es) = zlen es.
Proof. revert k. unfold zlen. induction es as [|e es IH]; intros k; [done|]. cbn [dent_list length]. rewrite !Nat2Z.inj_succ. by rewrite IH. Qed.

Lemma zlen_nodes es : zlen es ≤ foldr (λ e n, nodes e + n) 0 es.
Proof.
  unfold zlen. induction es as [|e es IH]; [done|]. cbn [foldr length]. pose proof (nodes_pos e). lia.
Qed.

(** The root directory is small: there are few inodes. *)
Lemma root_small es : fits (image_files es) = true → zlen (dir_bytes 1 1 es) + BSIZE ≤ MAXFILE * BSIZE.
Proof.
  intros (Hl & _ & _)%fits_spec. unfold image_files in Hl. rewrite zlen_preorder in Hl. cbn [nodes] in Hl.
  rewrite dir_bytes_list, zlen_mjoin by apply dir_list_sizes. unfold dir_list.
  change (zlen (?a :: ?b :: ?l)) with (zlen ([a; b] ++ l)). rewrite zlen_app, zlen_dent_list.
  pose proof (zlen_nodes es). unfold NINODES, DIRENTSZ in *. fsc. unfold zlen in *. simpl. lia.
Qed.

Definition root_dir : list afile := [mkAf T_DIR 0 (new_entry 1 [46] ++ new_entry 1 [46; 46])].

Lemma image_files_root es : with_entries root_dir 1 es = image_files es.
Proof.
  unfold with_entries, image_files. rewrite preorder_dir. change (zlen root_dir + 1) with 2.
  unfold root_dir at 1. change (grow_file [?f] 1 ?p) with [mkAf (af_type f) (af_mtime f) (af_data f ++ p)].
  cbn [af_type af_mtime af_data app]. unfold dir_bytes. by rewrite <- app_assoc.
Qed.

Lemma main_copies es :
  forallb host_ok es = true → fits (image_files es) = true →
  wp (mkfs_main es) mkfs_start (λ _ s, image (m_img s) (m_freeblock s) (image_files es) ∧
    map_ok (m_img s) (m_freeblock s) ∧ m_img s 1 = put_sb nativesb ∧ m_freeblock s = nmeta + total (image_files es)).
Proof.
  intros Hok Hf. pose proof (root_small es Hf) as Hr. unfold mkfs_main. apply wp_bind, wp_modify. apply wp_bind, wp_modify.
  change (mkMkfs (upd _ _ _) _ _) with blank.
  eapply wp_bind_mono; [apply (ialloc_fits blank [] T_DIR 0 []); [apply blank_img|done|by right|done]|].
  intros k s1 [-> HI1]. apply wp_bind, wp_ret. change (zlen [] + 1) with 1.
  set (F1 := add_file [] T_DIR 0) in *. set (F2 := grow_file F1 1 (new_entry 1 [46])).
  assert (grow_file F2 1 (new_entry 1 [46; 46]) = root_dir) as E3 by done.
  eapply wp_bind_mono; [apply (dappend_ok s1 F1); [done|done|by apply bytes_ok|done]|].
  intros [] s2 HI2. eapply wp_bind_mono; [apply (dappend_ok s2 F2); [done|done|by apply bytes_ok|done]|].
  intros [] s3 HI3. rewrite E3 in HI3. rewrite <- image_files_root in Hf |- *.
  eapply wp_bind_mono; [apply (add_directory_ok s3 root_dir 1 es); [|done|done|done|done]|].
  { apply Forall_forall. intros e _. apply add_entry_ok. }
  intros [] s4 HI4. change (wp finish s4 (λ _ s, image (m_img s) (m_freeblock s) (with_entries root_dir 1 es) ∧
    map_ok (m_img s) (m_freeblock s) ∧ m_img s 1 = put_sb nativesb ∧ m_freeblock s = nmeta + total (with_entries root_dir 1 es))).
  apply (finish_ok s4 _ (mkAf T_DIR 0 (dir_bytes 1 1 es))); [done|done| |exact Hr]. rewrite image_files_root. unfold image_files. by rewrite preorder_dir.
Qed.

(** ** What the kernel finds *)

(** The inode of a file or directory of the host. *)
Definition node_on (D : Z → list Z) (k : Z) (e : hostfile) : Prop :=
  let x := din D nativesb k in
  i_nlink x = 1 ∧
  match e with
  | HFile _ mtime data =>
      i_type x = T_FILE ∧ i_mtime x = mtime ∧ i_size x = zlen data ∧ fslice D (i_addrs x) 0 (zlen data) = data
  | HDir _ mtime _ => i_type x = T_DIR ∧ i_mtime x = mtime
  end.

Lemma has_bytes_slice D addrs data : has_bytes D addrs data → fslice D addrs 0 (zlen data) = data.
Proof.
  intros [Hs Hb]. pose proof (zlen_nonneg data). apply byte_ext; [by rewrite zlen_fslice by lia|].
  rewrite zlen_fslice by lia. intros i Hi. rewrite byte_fslice by lia. rewrite Hb by lia. f_equal.
Qed.

Lemma image_node D fb F k up e : image D fb F → placed F k up e →
  (∀ f, file F ROOTINO = Some f → af_type f = T_DIR) → node_on D k e.
Proof.
  intros HI HP Hr. destruct e as [name mtime data|name mtime es].
  - pose proof (placed_file _ _ _ _ _ _ HP) as Hf. destruct (image_file _ _ _ _ _ HI Hf) as (_ & _ & Hb).
    destruct (ig_inode _ _ _ HI k _ Hf) as (Et & _ & _ & En & Es & Em). unfold node_on. cbv zeta.
    split_and!; [exact En|exact Et|exact Em| |by apply has_bytes_slice].
    rewrite Es. cbn. unfold shown_size. destruct (Z.eqb_spec k ROOTINO) as [->|]; [|done]. by specialize (Hr _ Hf).
  - destruct (placed_dir _ _ _ _ _ _ HP) as [Hf _].
    destruct (ig_inode _ _ _ HI k _ Hf) as (Et & _ & _ & En & _ & Em). by split_and!.
Qed.

Lemma root_placed es : placed (image_files es) ROOTINO ROOTINO (HDir [] 0 es).
Proof.
  intros j f Hj. unfold file, image_files, ROOTINO in *. rewrite (proj2 (Z.ltb_ge _ _)) by lia.
  by replace (Z.to_nat _) with j by lia.
Qed.

(** The blocks on the way to a block of the file are in slots. *)
Lemma path_slot D addrs bn b : 0 ≤ bn < MAXFILE → b ∈ path D addrs bn →
  ∃ σ, slot_ok σ ∧ first σ ≤ bn ∧ b = ptr D addrs σ.
Proof.
  intros Hbn. unfold path. destruct (Z.ltb_spec bn NDIRECT) as [Hd|Hd]; cbv zeta; intros Hb.
  - assert (b = addrs !!! Z.to_nat bn) as -> by list_in. exists (Addr bn). cbn [slot_ok first ptr]. split_and!; [lia|lia|lia|done].
  - destruct (div_NIND bn) as (Hj & Hm & E); [lia|]. repeat apply elem_of_cons in Hb as [->|Hb]; [| | |by apply not_elem_of_nil in Hb].
    + exists (Addr NDIRECT). cbn [slot_ok first ptr]. fsc. split_and!; [lia|lia|lia|done].
    + exists (Sub (Addr NDIRECT) ((bn - NDIRECT) / NINDIRECT)). cbn [slot_ok first ptr]. split_and!; [done|lia|lia|fsc; lia|done].
    + exists (Sub (Sub (Addr NDIRECT) ((bn - NDIRECT) / NINDIRECT)) ((bn - NDIRECT) mod NINDIRECT)).
      cbn [slot_ok first ptr]. split_and!; [done|lia|lia|lia|lia|fsc; lia|done].
Qed.

(** Block [bn] is one of the blocks of the file. *)
Definition in_file (f : afile) (bn : Z) : Prop := 0 ≤ bn ∧ bn * BSIZE < zlen (af_data f).

Lemma image_slot D fb F k f bn b :
  image D fb F → file F k = Some f → in_file f bn → b ∈ path D (i_addrs (din D nativesb k)) bn →
  inum_ok k ∧ ∃ σ, slot_ok σ ∧ b = ptr D (i_addrs (din D nativesb k)) σ ∧ b ≠ 0.
Proof.
  intros HI Hf [Hb0 Hb1] Hp. destruct (image_file _ _ _ _ _ HI Hf) as (_ & Hk & [Hs _]). split; [done|].
  assert (bn < MAXFILE) as Hm. { unfold BSIZE in *. nia. }
  destruct (path_slot _ _ bn _ ltac:(lia) Hp) as (σ & Hσ & Hfi & ->). exists σ. split_and!; try done.
  apply (fl_slots _ _ _ _ _ (ig_files _ _ _ HI) k σ Hk Hσ). unfold upto, sizes, fdata. rewrite Hf.
  assert (bn < nb (zlen (af_data f))); [|lia]. unfold nb. apply Z.le_succ_l, Z.div_le_lower_bound; [done|]. unfold BSIZE in *. lia.
Qed.

(** C10.  The file system that mkfs makes of a host directory is the one the
    kernel sees: if the tree fits the image, main() of tools/mkfs.c finishes,
    and the kernel's path resolution on the image takes every path (of names
    other than "." and "..") where the path leads in the host directory, or
    nowhere if it leads nowhere there; the inode found has the type and the
    modification time of the host file, one link, and the size and the bytes of
    its data, through the direct and the doubly indirect blocks. *)
Theorem mkfs_tree es :
  forallb host_ok es = true → fits (image_files es) = true →
  wp (mkfs_main es) mkfs_start (λ _ s, ∀ path, Forall plain path →
    walk (m_img s) nativesb false ROOTINO path = fst <$> twalk ROOTINO (HDir [] 0 es) path ∧
    ∀ k e, twalk ROOTINO (HDir [] 0 es) path = Some (k, e) → node_on (m_img s) k e).
Proof.
  intros Hok Hf. eapply wp_mono; [by apply main_copies|]. intros [] s (HI & _ & _ & _) path Hp.
  destruct (image_walk _ _ _ path HI Hp ROOTINO ROOTINO (HDir [] 0 es) (root_placed es)) as [E Hn]; [by cbn; rewrite Hok|done|].
  split; [done|]. intros k e He. destruct (Hn k e He) as [up HP]. eapply image_node; try done.
  intros f. destruct (placed_dir _ _ _ _ _ _ (root_placed es)) as [-> _]. by intros [= <-].
Qed.

(** C11.  The blocks of the image that mkfs makes are accounted for: the super
    block reads back as the layout in use; the bitmap, read as the kernel reads
    it, marks exactly the blocks below the first free one; and every block of
    every file, indirect blocks included, lies after the metadata, is marked in
    use, and belongs to no other file. *)
Theorem mkfs_blocks es :
  forallb host_ok es = true → fits (image_files es) = true →
  wp (mkfs_main es) mkfs_start (λ _ s, let D := m_img s in
    sb_of_block (D 1) = nativesb ∧
    (∀ b, 0 ≤ b < FSSIZE → in_use nativesb D b = (b <? m_freeblock s)) ∧
    ∀ k f bn b, file (image_files es) k = Some f → in_file f bn → b ∈ path D (i_addrs (din D nativesb k)) bn →
      nmeta ≤ b ∧ in_use nativesb D b = true ∧
      ∀ k' f' bn', file (image_files es) k' = Some f' → in_file f' bn' →
        b ∈ path D (i_addrs (din D nativesb k')) bn' → k' = k).
Proof.
  intros Hok Hf. eapply wp_mono; [by apply main_copies|]. intros [] s (HI & Hmap & Hsb & Efb). cbv zeta.
  apply fits_spec in Hf as (_ & Ht & _). split_and!; [by rewrite Hsb|exact Hmap|].
  intros k f bn b Hk Hbn Hb. destruct (image_slot _ _ _ _ _ _ _ HI Hk Hbn Hb) as (Hik & σ & Hσ & E & Hne).
  pose proof (fl_layout _ _ _ _ _ (ig_files _ _ _ HI)) as L. rewrite E in Hne.
  pose proof (ly_range _ _ _ L k σ Hik Hσ Hne) as Hr. cbn beta in Hr. rewrite <- E in Hr. split_and!; [lia| |].
  - assert (nblocks < FSSIZE ∧ 0 ≤ nmeta) as [? ?] by done. rewrite Hmap by lia. apply Z.ltb_lt. lia.
  - intros k' f' bn' Hk' Hbn' Hb'. destruct (image_slot _ _ _ _ _ _ _ HI Hk' Hbn' Hb') as (Hik' & σ' & Hσ' & E' & _).
    destruct (ly_inj _ _ _ L k σ k' σ') as [-> _]; try done. congruence.
Qed.

(** ** A small host directory *)

(** A directory "bin" with a file "ls" that needs indirect blocks, and a file "a". *)
Definition host_ls : hostfile := HFile [108; 115] 1000 (replicate (Z.to_nat 6000) 7).
Definition host_tree : list hostfile := [HDir [98; 105; 110] 2000 [host_ls]; HFile [97] 3000 [1; 2; 3]].

Lemma host_tree_ok : forallb host_ok host_tree = true ∧ fits (image_files host_tree) = true.
Proof. split; vm_compute; reflexivity. Qed.

Lemma mkfs_tree_witness :
  twalk ROOTINO (HDir [] 0 host_tree) [[98; 105; 110]; [108; 115]] = Some (3, host_ls) ∧
  wp (mkfs_main host_tree) mkfs_start (λ _ s, ∀ path, Forall plain path →
    walk (m_img s) nativesb false ROOTINO path = fst <$> twalk ROOTINO (HDir [] 0 host_tree) path ∧
    ∀ k e, twalk ROOTINO (HDir [] 0 host_tree) path = Some (k, e) → node_on (m_img s) k e).
Proof. split; [reflexivity|]. apply mkfs_tree; [apply host_tree_ok|apply host_tree_ok]. Defined.

Lemma mkfs_blocks_witness :
  wp (mkfs_main host_tree) mkfs_start (λ _ s, let D := m_img s in
    sb_of_block (D 1) = nativesb ∧
    (∀ b, 0 ≤ b < FSSIZE → in_use nativesb D b = (b <? m_freeblock s)) ∧
    ∀ k f bn b, file (image_files host_tree) k = Some f → in_file f bn → b ∈ path D (i_addrs (din D nativesb k)) bn →
      nmeta ≤ b ∧ in_use nativesb D b = true ∧
      ∀ k' f' bn', file (image_files host_tree) k' = Some f' → in_file f' bn' →
        b ∈ path D (i_addrs (din D nativesb k')) bn' → k' = k).
Proof. apply mkfs_blocks; [apply host_tree_ok|apply host_tree_ok]. Defined.
