(* ===== verification/Syscall.v ===== *)
(** * The system call table and the start of the kernel (kern/asmcode.s, kern/main.c)

    A call is its number in the table with its arguments; the arguments that
    stand for the machine (the stack pointer that getsp() reads, the kernel's
    own brk) are written out.  What a call returns to the user is dropped here:
    this file composes the routines into the life of a kernel. *)

From S2P Require Import Prelude Bytes Params Store Ondisk Bio Log LogProps Fs Dir Pipe Frames Proc File Sysfile Sysproc Exec.

Inductive syscall :=
| SYS_consputc (c : Z)
| SYS_exit (exitvalue : Z)
| SYS_brk (sp addr : Z)
| SYS_read (fd : Z) (p : bool) (n : Z)
| SYS_write (fd : Z) (p : option (list Z)) (n : Z)
| SYS_open (path : option (list Z)) (omode : Z)
| SYS_close (fd : Z)
| SYS_wait
| SYS_fork (sp : Z)
| SYS_link (old new : option (list Z))
| SYS_unlink (path : option (list Z))
| SYS_sbrk (sp increment : Z)
| SYS_chdir (path : option (list Z))
| SYS_fstat (fd : Z) (st : bool)
| SYS_dup (fd : Z)
| SYS_mkdir (path : option (list Z))
| SYS_exec (pathname : list Z) (args : list (list Z)) (kmem : Z * Z * Z) (size : Z)
| SYS_consgetc
| SYS_lseek (fd offset base : Z)
| SYS_time
| SYS_ioctl (fd op : Z) (arg : option Z)
| SYS_stime (time : Z)
| SYS_sleep
| SYS_fchdir (fd : Z)
| SYS_utime (path : option (list Z)) (timbuf : option Z)
| SYS_pipe (fd : bool)
| SYS_getpid
| SYS_sync.

Section syscall.
Context {S : Type} `{BlockOps S}.
Abbreviation K := (kst S).

Definition drop_result {A} (m : M K A) : M K unit := m ;; ret tt.

(** time() and sleep() only look at the clock. *)
Definition SYSCALL_HANDLER (c : syscall) : M K unit :=
  match c with
  | SYS_consputc c => consputc c
  | SYS_exit v => sys_exit v
  | SYS_brk sp addr => drop_result (sys_brk sp addr)
  | SYS_read fd p n => drop_result (sys_read fd p n)
  | SYS_write fd p n => drop_result (sys_write fd p n)
  | SYS_open path omode => drop_result (sys_open path omode)
  | SYS_close fd => drop_result (sys_close fd)
  | SYS_wait => drop_result sys_wait
  | SYS_fork sp => drop_result (sys_fork sp)
  | SYS_link old new => drop_result (sys_link old new)
  | SYS_unlink path => drop_result (sys_unlink path)
  | SYS_sbrk sp inc => drop_result (sys_sbrk sp inc)
  | SYS_chdir path => drop_result (sys_chdir path)
  | SYS_fstat fd st => drop_result (sys_fstat fd st)
  | SYS_dup fd => drop_result (sys_dup fd)
  | SYS_mkdir path => drop_result (sys_mkdir path)
  | SYS_exec path args kmem size => drop_result (sys_exec path args kmem size)
  | SYS_consgetc => drop_result consgetc
  | SYS_lseek fd off base => drop_result (sys_lseek fd off base)
  | SYS_time => ret tt
  | SYS_ioctl fd op arg => drop_result (sys_ioctl fd op arg)
  | SYS_stime t => on_fs (modify (λ s, mkFs (f_store s) (f_sb s) (f_lastballoc s) (f_lastbi s) (f_icache s) t))
  | SYS_sleep => ret tt
  | SYS_fchdir fd => drop_result (sys_fchdir fd)
  | SYS_utime path t => drop_result (sys_utime path t)
  | SYS_pipe fd => drop_result (sys_pipe fd)
  | SYS_getpid => drop_result sys_getpid
  | SYS_sync => sys_sync
  end.

(** One event in the life of the kernel: the current process makes a call, or a
    call that slept goes on, with what is left of it, when its process runs again. *)
Inductive kstep (k k' : K) : Prop :=
| step_call c : SYSCALL_HANDLER c k = Ret tt k' → kstep k k'
| step_woken p : pt_cur (k_pt k) = Some p → on_pt (after_sleep p) k = Ret tt k' → kstep k k'
| step_read p n r : run_pipe p (λ killed, piperead p killed n) k = Ret r k' → kstep k k'
| step_write p n bs r : run_pipe p (λ killed, pipewrite p killed n bs) k = Ret r k' → kstep k k'
| step_tick t : on_fs (modify (λ s, mkFs (f_store s) (f_sb s) (f_lastballoc s) (f_lastbi s) (f_icache s) t)) k = Ret tt k' →
    kstep k k'.
End syscall.

(** kmain(), up to its endless loop.  The greeting and the lines that iinit()
    prints are left out; blkinit() is the device's. *)
Definition kmain (pathname : list Z) (kmem : Z * Z * Z) (size : Z) : M (kst lstate) exec_result :=
  on_fs (on_store (on_bio binit)) ;;
  on_fs iinit ;;
  on_fs (on_store initlog) ;;
  on_pt (modify pinit) ;;
  modify (with_flist finit) ;;
  modify (λ k, with_pipes (pipeinit (k_pipes k)) k) ;;
  userinit ;;
  sys_exec pathname [pathname] kmem size.
