(* ===== verification/FileRefsProps.v ===== *)
(** * The reference counts of open files

    Every entry of the file table counts the descriptors of all processes that
    are open on it.  [refs_ok d] says so up to [d], the references that a
    routine of the kernel holds for itself; between system calls [d] is zero. *)

From S2P Require Import Prelude Bytes Params Kstring Store Ondisk Bio BioList BioSpec BioProps Log LogProps Fs Dir Frames Pipe Proc ProcSpec File Sysfile Sysproc SysprocSpec Exec Mkfs Syscall.

(** ** Descriptors of all processes *)

Definition nfds (l : list proc) (f : nat) : Z :=
  foldr (λ p n, fd_count (pr_ofile p) f + n) 0 l.

(** A process that has no files: it is not there, not yet or not any more. *)
Definition gone (p : proc) : Prop := pr_state p = UNUSED ∨ pr_state p = EMBRYO ∨ pr_state p = ZOMBIE.

Definition flag (o : option nat) (f : nat) : Z := if decide (o = Some f) then 1 else 0.

Lemma flag_some f g : flag (Some f) g = one f g.
Proof. unfold flag, one. destruct (decide (g = f)); [by rewrite decide_True by congruence|by rewrite decide_False by congruence]. Qed.

Lemma fd_count_insert l fd o v f :
  l !! fd = Some o → fd_count (<[fd := v]> l) f = fd_count l f - flag o f + flag v f.
Proof.
  revert fd. induction l as [|x l IH]; intros [|fd] Hfd; simplify_eq/=; rewrite !fd_count_cons.
  - unfold flag. lia.
  - rewrite (IH fd Hfd). lia.
Qed.

Lemma nfds_alter h i l p f :
  l !! i = Some p → nfds (alter h i l) f = nfds l f - fd_count (pr_ofile p) f + fd_count (pr_ofile (h p)) f.
Proof.
  revert i. induction l as [|x l IH]; intros [|i] Hi; simplify_eq/=.
  - unfold alter. simpl. lia.
  - change (list_alter h i l) with (alter h i l). rewrite (IH i Hi). lia.
Qed.

Lemma nfds_pos l i p f : l !! i = Some p → Some f ∈ pr_ofile p → 1 ≤ nfds l f.
Proof.
  intros Hp Hf. assert (∀ m g, 0 ≤ nfds m g) as Hnn.
  { intros m g. induction m as [|q m IH]; simpl; [done|]. unfold fd_count. lia. }
  revert i Hp. induction l as [|q l IH]; intros [|i] Hp; simplify_eq/=.
  - specialize (Hnn l f). assert (1 ≤ fd_count (pr_ofile p) f); [|lia]. unfold fd_count.
    assert (filter (λ o, o = Some f) (pr_ofile p) ≠ []) as Hne.
    { intros E. apply (not_elem_of_nil (Some f)). rewrite <- E. by apply list_elem_of_filter. }
    destruct (filter _ _); [done|]. simpl. lia.
  - specialize (IH i Hp). unfold fd_count. lia.
Qed.

(** ** Changes of the process table that leave the files alone *)

Record pt_keeps (t t' : ptable) : Prop := {
  pk_procs : Forall2 (λ p p', pr_ofile p' = pr_ofile p ∧ (gone p' → gone p)) (pt_procs t) (pt_procs t');
  pk_cur : pt_cur t' = pt_cur t ∨
    ∃ i p, pt_cur t' = Some i ∧ pt_procs t' !! i = Some p ∧ ¬ gone p;
}.

Lemma pt_keeps_refl t : pt_keeps t t.
Proof. split; [|by left]. apply Forall2_lookup. intros i. destruct (_ !! i); by constructor. Qed.

Lemma pt_keeps_trans t1 t2 t3 : pt_keeps t1 t2 → pt_keeps t2 t3 → pt_keeps t1 t3.
Proof.
  intros [P1 C1] [P2 C2]. split.
  - rewrite Forall2_lookup in *. intros i. specialize (P1 i). specialize (P2 i).
    inversion P1 as [? ? [E1 G1] E2 E3|E2 E3]; rewrite <- E3 in P2;
      inversion P2 as [? ? [E4 G2] E5 E6|E5 E6]; constructor. split; [congruence|auto].
  - destruct C2 as [C2|?]; [|by right]. destruct C1 as [C1|(i & p & C1 & Hp & Hg)]; [left; congruence|].
    right. rewrite Forall2_lookup in P2. specialize (P2 i). rewrite Hp in P2.
    inversion P2 as [? p' [_ G] E1 E2|]; subst. exists i, p'. split_and!; [congruence|done|tauto].
Qed.

Lemma pt_keeps_map f t :
  (∀ p, pr_ofile (f p) = pr_ofile p ∧ (gone (f p) → gone p)) → pt_keeps t (map_procs f t).
Proof.
  intros Hf. split; [|by left]. simpl. induction (pt_procs t); constructor; [apply Hf|done].
Qed.

Lemma pt_keeps_upd f i t :
  (∀ p, pt_procs t !! i = Some p → pr_ofile (f p) = pr_ofile p ∧ (gone (f p) → gone p)) →
  pt_keeps t (upd_proc i f t).
Proof.
  intros Hf. split; [|by left]. simpl. apply Forall2_lookup. intros j. rewrite list_lookup_alter.
  destruct (decide (i = j)) as [<-|].
  - destruct (pt_procs t !! i) as [p|] eqn:E; constructor. by apply Hf.
  - destruct (pt_procs t !! j); by constructor.
Qed.

Lemma nfds_keeps l l' f : Forall2 (λ p p', pr_ofile p' = pr_ofile p) l l' → nfds l' f = nfds l f.
Proof. induction 1 as [|p p' l l' E _ IH]; simpl; [done|]. by rewrite E, IH. Qed.

Definition same_state (f : proc → proc) : Prop := ∀ p, pr_ofile (f p) = pr_ofile p ∧ pr_state (f p) = pr_state p.

Lemma pt_keeps_same f i t : same_state f → pt_keeps t (upd_proc i f t).
Proof. intros Hf. apply pt_keeps_upd. intros p _. destruct (Hf p) as [-> E]. unfold gone. by rewrite E. Qed.

Lemma pt_keeps_wakeup c t : pt_keeps t (wakeup1 c t).
Proof.
  apply pt_keeps_map. intros p. destruct (is_state SLEEPING p && _) eqn:E; [|done].
  split; [done|]. unfold gone. simpl. intros [|[|]]; done.
Qed.

Lemma pt_keeps_wakeup_proc q t : pt_keeps t (wakeup_proc q t).
Proof. destruct q; [apply pt_keeps_wakeup|apply pt_keeps_refl]. Qed.

Lemma pt_keeps_scheduler t t' : scheduler t = Ret tt t' → pt_keeps t t'.
Proof.
  unfold scheduler. destruct (first_proc _ _ _) as [i|] eqn:E; [|done]. intros [= <-].
  destruct (first_proc_at _ _ _ E) as (p & Hp & _). split; simpl.
  - apply (pt_keeps_upd (set_state RUNNING) i t). intros q _. split; [done|]. unfold gone. simpl. intros [|[|]]; done.
  - right. exists i, (set_state RUNNING p). split_and!; [done|by rewrite list_lookup_alter_eq; change (pt_procs t !! i) with (procs_at t i); rewrite Hp|].
    unfold gone. simpl. intros [|[|]]; done.
Qed.

Lemma pt_keeps_reparent me n i t : pt_keeps t (reparent me n i t).
Proof.
  revert i t. induction n as [|n IH]; intros i t; simpl; [apply pt_keeps_refl|].
  eapply pt_keeps_trans; [|apply IH]. destruct (bool_decide _); [|apply pt_keeps_refl].
  destruct (is_state _ _); [eapply pt_keeps_trans; [|apply pt_keeps_wakeup_proc]|]; by apply pt_keeps_same.
Qed.

Lemma wakeup_proc_cur q t : pt_cur (wakeup_proc q t) = pt_cur t.
Proof. by destruct q. Qed.

Lemma reparent_cur me n i t : pt_cur (reparent me n i t) = pt_cur t.
Proof.
  revert i t. induction n as [|n IH]; intros i t; simpl; [done|]. rewrite IH.
  destruct (bool_decide _); [|done]. destruct (is_state _ _); [|done]. by rewrite wakeup_proc_cur.
Qed.

Lemma pt_keeps_sleep c t t' : sleep c t = Ret tt t' → pt_keeps t t'.
Proof.
  unfold sleep, bind, gets, modify. destruct (pt_cur t) as [i|]; [|done]. intros Hs%pt_keeps_scheduler.
  eapply pt_keeps_trans; [|exact Hs]. apply pt_keeps_upd. intros p _. split; [done|].
  unfold gone. simpl. intros [|[|]]; done.
Qed.

Lemma pt_keeps_kill pid t r t' : kill pid t = Ret r t' → pt_keeps t t'.
Proof.
  unfold kill. destruct (first_proc _ _ _) as [i|]; intros E; simplify_eq; [|apply pt_keeps_refl].
  apply pt_keeps_upd. intros p _. simpl. destruct (is_state SLEEPING _); [|done].
  split; [done|]. unfold gone. simpl. intros [|[|]]; done.
Qed.

Lemma pt_keeps_wait me t r t' : wait_scan me t = Ret r t' → pt_keeps t t'.
Proof.
  unfold wait_scan, bind, gets. destruct (first_proc _ (pt_procs t) 0) as [i|] eqn:E.
  - unfold reap, bind, gets, modify, ret. intros [= _ <-].
    destruct (first_proc_at _ _ _ E) as (p & Hp & [_ Hz%is_state_true]%andb_true_iff).
    apply pt_keeps_upd. intros q Hq. change (pt_procs t !! i) with (procs_at t i) in Hq. simplify_eq.
    split; [done|]. intros _. right. by right.
  - unfold ret. destruct (first_proc (is_child me) (pt_procs t) 0); intros E2; simplify_eq; apply pt_keeps_refl.
Qed.

(** ** The invariant *)

Section refs.
Context {S : Type} `{BlockOps S}.
Abbreviation K := (kst S).
Implicit Types k : K.

Record refs_ok (d : nat → Z) k : Prop := {
  ro_count : ∀ f, fi_ref (k_files k !!! f) = nfds (pt_procs (k_pt k)) f + d f;
  ro_len : ∀ i p, pt_procs (k_pt k) !! i = Some p → length (pr_ofile p) = NOFILE;
  ro_closed : ∀ i p, pt_procs (k_pt k) !! i = Some p → gone p → Forall (λ o, o = None) (pr_ofile p);
  ro_cur : ∀ i, pt_cur (k_pt k) = Some i → ∃ p, pt_procs (k_pt k) !! i = Some p ∧ ¬ gone p;
}.

Lemma refs_ok_ext d e k : (∀ f, d f = e f) → refs_ok d k → refs_ok e k.
Proof. intros E [A B C D]. split; try done. intros f. rewrite <- E. auto. Qed.

Lemma fi_ref_fmap (l l' : list file) f : fi_ref <$> l' = fi_ref <$> l → fi_ref (l' !!! f) = fi_ref (l !!! f).
Proof.
  intros E. assert (∀ m : list file, fi_ref (m !!! f) = default 0 ((fi_ref <$> m) !! f)) as Hd.
  { intros m. rewrite list_lookup_fmap, list_lookup_total_alt. by destruct (m !! f). }
  by rewrite !Hd, E.
Qed.

(** Steps that touch neither the counts nor the descriptors; a process that leaves has none. *)
Lemma refs_ok_procs d k k' :
  refs_ok d k → fi_ref <$> k_files k' = fi_ref <$> k_files k →
  Forall2 (λ p p', pr_ofile p' = pr_ofile p ∧ (gone p' → gone p ∨ Forall (λ o, o = None) (pr_ofile p)))
    (pt_procs (k_pt k)) (pt_procs (k_pt k')) →
  (∀ i, pt_cur (k_pt k') = Some i → ∃ p, pt_procs (k_pt k') !! i = Some p ∧ ¬ gone p) →
  refs_ok d k'.
Proof.
  intros [A B C _] Ef P D. split; [| | |done].
  - intros f. rewrite (nfds_keeps (pt_procs (k_pt k))), <- A; [by apply fi_ref_fmap|].
    eapply Forall2_impl; [exact P|]. by intros p p' [].
  - intros i p' Hi. destruct (Forall2_lookup_r _ _ _ _ _ P Hi) as (p & Hp & -> & _). eauto.
  - intros i p' Hi Hg. destruct (Forall2_lookup_r _ _ _ _ _ P Hi) as (p & Hp & -> & G).
    destruct (G Hg); eauto.
Qed.

Lemma refs_ok_keeps d k k' :
  refs_ok d k → fi_ref <$> k_files k' = fi_ref <$> k_files k → pt_keeps (k_pt k) (k_pt k') → refs_ok d k'.
Proof.
  intros Hk Ef [P Cc]. eapply refs_ok_procs; [exact Hk|done| |].
  - eapply Forall2_impl; [exact P|]. intros p p' [-> G]. split; [done|auto].
  - intros i Hi. destruct Cc as [Cc|(j & p & Cc & Hj & Hg)]; [|simplify_eq; by exists p].
    rewrite Cc in Hi. destruct (ro_cur _ _ Hk i Hi) as (p & Hip & Hg).
    destruct (Forall2_lookup_l _ _ _ _ _ P Hip) as (p' & Hp' & _ & G). exists p'. split; [done|tauto].
Qed.

(** A routine that leaves the counts alone. *)
Definition quiet {A} (m : M K A) : Prop := ∀ d, hoare (refs_ok d) m (λ _, refs_ok d).

Lemma quiet_bind {A B} (m : M K A) (f : A → M K B) : quiet m → (∀ a, quiet (f a)) → quiet (bind m f).
Proof. intros Hm Hf d. eapply hoare_bind; [apply Hm|]. intros a. apply Hf. Qed.
Lemma quiet_ret {A} (a : A) : quiet (ret a).
Proof. intros d k b k' Hk [= _ <-]. done. Qed.
Lemma quiet_gets {A} (f : K → A) : quiet (gets f).
Proof. intros d k b k' Hk [= _ <-]. done. Qed.
Lemma quiet_panic {A} msg : quiet (panic msg : M K A).
Proof. intros d k b k' Hk E. done. Qed.
Lemma quiet_fault {A} msg : quiet (fault msg : M K A).
Proof. intros d k b k' Hk E. done. Qed.
Lemma quiet_spin {A} : quiet (spin : M K A).
Proof. intros d k b k' Hk E. done. Qed.
Lemma quiet_modify (f : K → K) :
  (∀ k, k_files (f k) = k_files k ∧ k_pt (f k) = k_pt k) → quiet (modify f).
Proof.
  intros Hf d k b k' Hk [= _ <-]. destruct (Hf k) as [E1 E2].
  eapply refs_ok_keeps; [done|by rewrite E1|rewrite E2; apply pt_keeps_refl].
Qed.
Lemma quiet_on_fs {A} (m : M (fsst S) A) : quiet (on_fs m).
Proof.
  intros d k a k' Hk. unfold on_fs, lift. destruct (m (k_fs k)); [|done..]. intros [= _ <-].
  eapply refs_ok_keeps; [done|done|apply pt_keeps_refl].
Qed.
Lemma quiet_on_pipes {A} (m : M (list pipe) A) : quiet (on_pipes m).
Proof.
  intros d k a k' Hk. unfold on_pipes, lift. destruct (m (k_pipes k)); [|done..]. intros [= _ <-].
  eapply refs_ok_keeps; [done|done|apply pt_keeps_refl].
Qed.
Lemma quiet_on_pt {A} (m : M ptable A) : (∀ t a t', m t = Ret a t' → pt_keeps t t') → quiet (on_pt m).
Proof.
  intros Hm d k a k' Hk. unfold on_pt, lift. destruct (m (k_pt k)) eqn:E; [|done..]. intros [= _ <-].
  eapply refs_ok_keeps; [done|done|]. by eapply Hm.
Qed.
Lemma quiet_loop {A B} n (body : A → M K (A + B)) : (∀ a, quiet (body a)) → ∀ a, quiet (loop n body a).
Proof.
  intros Hb. induction n as [|n IH]; intros a; simpl; [apply quiet_spin|].
  apply quiet_bind; [done|]. intros [a'|b]; [apply IH|apply quiet_ret].
Qed.
Lemma quiet_set_errno e : quiet (set_errno e).
Proof. by apply quiet_modify. Qed.
Lemma quiet_upd_file f g : (∀ x, fi_ref (g x) = fi_ref x) → quiet (upd_file f g).
Proof.
  intros Hg d k b k' Hk [= _ <-]. eapply refs_ok_keeps; [done| |apply pt_keeps_refl]. simpl.
  apply list_eq. intros i. rewrite !list_lookup_fmap, list_lookup_alter. destruct (decide (f = i)) as [<-|]; [|done].
  destruct (k_files k !! f); [|done]. simpl. by rewrite Hg.
Qed.
Lemma quiet_set_cur f : same_state f → quiet (set_cur f).
Proof.
  intros Hf. unfold set_cur, curproc. apply quiet_bind.
  - apply quiet_bind; [apply quiet_gets|]. intros []; [apply quiet_ret|apply quiet_fault].
  - intros i. apply quiet_on_pt. intros t a t' [= _ <-]. by apply pt_keeps_same.
Qed.
Lemma quiet_curproc : quiet curproc.
Proof. unfold curproc. apply quiet_bind; [apply quiet_gets|]. intros []; [apply quiet_ret|apply quiet_fault]. Qed.
Lemma quiet_sleep c : quiet (on_pt (sleep c)).
Proof. apply quiet_on_pt. intros t [] t'. apply pt_keeps_sleep. Qed.
Lemma quiet_wakeup c : quiet (on_pt (wakeup c)).
Proof. apply quiet_on_pt. intros t a t' [= _ <-]. apply pt_keeps_wakeup. Qed.
End refs.

Create HintDb quiet discriminated.
#[export] Hint Resolve quiet_ret quiet_gets quiet_panic quiet_fault quiet_spin quiet_on_fs quiet_on_pipes
  quiet_set_errno quiet_curproc quiet_sleep quiet_wakeup : quiet.

(** Walk through a routine whose parts are quiet. *)
Ltac quiet_tac :=
  repeat first
    [ solve [auto with quiet]
    | apply quiet_set_cur; intros ?; split; reflexivity
    | apply quiet_bind; [|intros ?]
    | apply quiet_loop; intros ?
    | apply quiet_upd_file; intros ?; reflexivity
    | apply quiet_modify; intros ?; split; reflexivity
    | match goal with |- quiet (match ?x with _ => _ end) => destruct x end ].

Section quiet_calls.
Context {S : Type} `{BlockOps S}.

Lemma quiet_wakeups cs : quiet (wakeups cs : M (kst S) unit).
Proof. induction cs; simpl; quiet_tac. Qed.
Hint Resolve quiet_wakeups : quiet.
Lemma quiet_cur_ofile : quiet (cur_ofile : M (kst S) _).
Proof. unfold cur_ofile. quiet_tac. Qed.
Lemma quiet_cur_cwd : quiet (cur_cwd : M (kst S) _).
Proof. unfold cur_cwd. quiet_tac. Qed.
Lemma quiet_file_at f : quiet (file_at f : M (kst S) _).
Proof. unfold file_at. quiet_tac. Qed.
Lemma quiet_deref_ip f : quiet (deref_ip f : M (kst S) _).
Proof. unfold deref_ip. quiet_tac. Qed.
Lemma quiet_is_killed : quiet (is_killed : M (kst S) _).
Proof. unfold is_killed. quiet_tac. Qed.
Hint Resolve quiet_cur_ofile quiet_cur_cwd quiet_file_at quiet_deref_ip quiet_is_killed : quiet.

Lemma quiet_argfd fd : quiet (argfd fd : M (kst S) _).
Proof. unfold argfd. quiet_tac. Qed.
Lemma quiet_run_pipe p f : quiet (run_pipe p f : M (kst S) _).
Proof.
  unfold run_pipe. apply quiet_bind; [quiet_tac|]. intros k. apply quiet_bind; [quiet_tac|]. intros x.
  destruct (f k x) as [[r cs] x']. quiet_tac.
Qed.
Lemma quiet_consputc c : quiet (consputc c : M (kst S) _).
Proof. unfold consputc. quiet_tac. Qed.
Hint Resolve quiet_argfd quiet_run_pipe quiet_consputc : quiet.
Lemma quiet_consputs bs : quiet (consputs bs : M (kst S) _).
Proof. induction bs; simpl; quiet_tac. Qed.
Lemma quiet_consgetc : quiet (consgetc : M (kst S) _).
Proof. unfold consgetc. quiet_tac. Qed.
Lemma quiet_fileread f n : quiet (fileread f n : M (kst S) _).
Proof. unfold fileread. quiet_tac. Qed.
Lemma quiet_filewrite_chunk f ip addr n : quiet (filewrite_chunk f ip addr n : M (kst S) _).
Proof. unfold filewrite_chunk. quiet_tac. Qed.
Hint Resolve quiet_consputs quiet_consgetc quiet_fileread quiet_filewrite_chunk : quiet.
Lemma quiet_filewrite f addr n : quiet (filewrite f addr n : M (kst S) _).
Proof. unfold filewrite. quiet_tac. Qed.
Lemma quiet_filestat f : quiet (filestat f : M (kst S) _).
Proof. unfold filestat. quiet_tac. Qed.
Lemma quiet_fail_op e : quiet (fail_op e : M (kst S) _).
Proof. unfold fail_op. quiet_tac. Qed.
Hint Resolve quiet_filewrite quiet_filestat quiet_fail_op : quiet.
Lemma quiet_link_bad ip : quiet (link_bad ip : M (kst S) _).
Proof. unfold link_bad. quiet_tac. Qed.
Lemma quiet_unlink_bad ip : quiet (unlink_bad ip : M (kst S) _).
Proof. unfold unlink_bad. quiet_tac. Qed.
Lemma quiet_ichdir ip : quiet (ichdir ip : M (kst S) _).
Proof. unfold ichdir. quiet_tac. Qed.
Lemma quiet_open_inode cwd path omode : quiet (open_inode cwd path omode : M (kst S) _).
Proof. unfold open_inode. quiet_tac. Qed.
Lemma quiet_open_file f fd type ip omode : quiet (open_file f fd type ip omode : M (kst S) _).
Proof. unfold open_file. quiet_tac. Qed.
Lemma quiet_lseek_extend f z : quiet (lseek_extend f z : M (kst S) _).
Proof. unfold lseek_extend. quiet_tac. Qed.
Hint Resolve quiet_link_bad quiet_unlink_bad quiet_ichdir quiet_open_inode quiet_open_file quiet_lseek_extend : quiet.

Lemma quiet_sys_read fd p n : quiet (sys_read fd p n : M (kst S) _).
Proof. unfold sys_read. quiet_tac. Qed.
Lemma quiet_sys_write fd p n : quiet (sys_write fd p n : M (kst S) _).
Proof. unfold sys_write. quiet_tac. Qed.
Lemma quiet_sys_fstat fd st : quiet (sys_fstat fd st : M (kst S) _).
Proof. unfold sys_fstat. quiet_tac. Qed.
Lemma quiet_sys_link old new : quiet (sys_link old new : M (kst S) _).
Proof. unfold sys_link. quiet_tac. Qed.
Lemma quiet_sys_unlink path : quiet (sys_unlink path : M (kst S) _).
Proof. unfold sys_unlink. quiet_tac. Qed.
Lemma quiet_sys_mkdir path : quiet (sys_mkdir path : M (kst S) _).
Proof. unfold sys_mkdir. quiet_tac. Qed.
Lemma quiet_sys_chdir path : quiet (sys_chdir path : M (kst S) _).
Proof. unfold sys_chdir. quiet_tac. Qed.
Lemma quiet_sys_fchdir fd : quiet (sys_fchdir fd : M (kst S) _).
Proof. unfold sys_fchdir. quiet_tac. Qed.
Lemma quiet_sys_lseek fd off base : quiet (sys_lseek fd off base : M (kst S) _).
Proof. unfold sys_lseek. quiet_tac. Qed.
Lemma quiet_sys_ioctl fd op arg : quiet (sys_ioctl fd op arg : M (kst S) _).
Proof. unfold sys_ioctl. quiet_tac. Qed.
Lemma quiet_sys_utime path t : quiet (sys_utime path t : M (kst S) _).
Proof. unfold sys_utime. quiet_tac. Qed.
Lemma quiet_sys_sync : quiet (sys_sync : M (kst S) _).
Proof. unfold sys_sync. quiet_tac. Qed.
Lemma quiet_sys_wait : quiet (sys_wait : M (kst S) _).
Proof.
  unfold sys_wait. apply quiet_bind; [quiet_tac|]. intros me. apply quiet_bind.
  - apply quiet_on_pt. apply pt_keeps_wait.
  - intros r. quiet_tac.
Qed.
Lemma quiet_sys_brk sp addr : quiet (sys_brk sp addr : M (kst S) _).
Proof. unfold sys_brk. quiet_tac. Qed.
Hint Resolve quiet_sys_read quiet_sys_lseek quiet_sys_brk : quiet.
Lemma quiet_sys_sbrk sp inc : quiet (sys_sbrk sp inc : M (kst S) _).
Proof. unfold sys_sbrk. quiet_tac. Qed.
Lemma quiet_load_program fd br size : quiet (load_program fd br size : M (kst S) _).
Proof. unfold load_program. quiet_tac. Qed.
Lemma quiet_exec_fail e : quiet (exec_fail e : M (kst S) _).
Proof. unfold exec_fail. quiet_tac. Qed.
Lemma quiet_kill pid : quiet (on_pt (kill pid) : M (kst S) _).
Proof. apply quiet_on_pt. intros t r t'. apply pt_keeps_kill. Qed.
Lemma quiet_tick p : quiet (on_pt (after_sleep p) : M (kst S) _).
Proof. apply quiet_on_pt. intros t a t' [= _ <-]. by apply pt_keeps_same. Qed.
End quiet_calls.
#[export] Hint Resolve quiet_argfd quiet_file_at quiet_cur_ofile quiet_cur_cwd quiet_fail_op quiet_open_inode quiet_open_file
  quiet_sys_read quiet_sys_write quiet_sys_fstat quiet_sys_link quiet_sys_unlink quiet_sys_mkdir quiet_sys_chdir
  quiet_sys_fchdir quiet_sys_lseek quiet_sys_ioctl quiet_sys_utime quiet_sys_sync quiet_sys_wait quiet_sys_brk
  quiet_sys_sbrk quiet_load_program quiet_exec_fail quiet_kill quiet_tick : quiet.

(** ** The calls that move references *)

Lemma free_file_at l f : free_file l 0 = Some f → ∃ x, l !! f = Some x ∧ fi_ref x = 0.
Proof.
  assert (∀ i, free_file l i = Some f → ∃ x, l !! (f - i)%nat = Some x ∧ fi_ref x = 0 ∧ (i ≤ f)%nat) as Hl.
  { induction l as [|x l IH]; intros i; simpl; [done|]. destruct (Z.eqb_spec (fi_ref x) 0) as [E|].
    - intros [= ->]. exists x. rewrite Nat.sub_diag. done.
    - intros (y & Hy & Ey & Hle)%IH. exists y. replace (f - i)%nat with (Datatypes.S (f - Datatypes.S i)) by lia.
      split_and!; [done|done|lia]. }
  intros (x & Hx & Ex & _)%Hl. exists x. by rewrite Nat.sub_0_r in Hx.
Qed.

(** The end of sys_exit() before its process is a zombie. *)
Lemma exit_tail_Ret me t t' :
  exit_tail me t = Ret tt t' →
  ∃ t1, pt_keeps t t1 ∧ pt_cur t1 = pt_cur t ∧ scheduler (upd_proc me (set_state ZOMBIE) t1) = Ret tt t'.
Proof.
  unfold exit_tail. generalize NPROC as n. intros n E.
  do 4 (apply bind_Ret_inv in E as ([] & ? & ->%modify_Ret & E)). eexists. split_and!; [| |exact E].
  - eapply pt_keeps_trans; [|apply pt_keeps_reparent]. eapply pt_keeps_trans; [|apply pt_keeps_wakeup_proc].
    by apply pt_keeps_same.
  - by rewrite reparent_cur, wakeup_proc_cur.
Qed.

Section moves.
Context {S : Type} `{BlockOps S}.
Abbreviation K := (kst S).
Implicit Types k : K.

Lemma on_fs_Ret {A} (m : M (fsst S) A) k a k' :
  on_fs m k = Ret a k' → ∃ s, m (k_fs k) = Ret a s ∧ k' = with_fs s k.
Proof. unfold on_fs, lift. destruct (m (k_fs k)) as [b s| | |]; [|done..]. intros [= -> <-]. by exists s. Qed.

Lemma on_pt_Ret {A} (m : M ptable A) k a k' :
  on_pt m k = Ret a k' → ∃ t, m (k_pt k) = Ret a t ∧ k' = with_pt t k.
Proof. unfold on_pt, lift. destruct (m (k_pt k)) as [b t| | |]; [|done..]. intros [= -> <-]. by exists t. Qed.

(** Process [i] runs, and [l] are its descriptors. *)
Definition cur_fds (i : nat) (l : list (option nat)) k : Prop :=
  pt_cur (k_pt k) = Some i ∧ ∃ p, pt_procs (k_pt k) !! i = Some p ∧ pr_ofile p = l.

Lemma cur_fds_len d i l k : refs_ok d k → cur_fds i l k → length l = NOFILE.
Proof. intros Hk (_ & p & Hp & <-). by eapply ro_len. Qed.

Lemma curproc_Ret i k k' : curproc k = Ret i k' → k' = k ∧ pt_cur (k_pt k) = Some i.
Proof. unfold curproc, bind, gets. destruct (pt_cur (k_pt k)); [|done]. by intros [= -> ->]. Qed.

Lemma cur_ofile_Ret d l k k' : refs_ok d k → cur_ofile k = Ret l k' → k' = k ∧ ∃ i, cur_fds i l k.
Proof.
  intros Hk (i & k1 & [-> Hc]%curproc_Ret & [= El ->])%bind_Ret_inv. split; [done|]. exists i. split; [done|].
  destruct (ro_cur _ _ Hk _ Hc) as (p & Hp & _). exists p. split; [done|].
  rewrite <- El. unfold getp. by rewrite (list_lookup_total_correct _ _ _ Hp).
Qed.

Lemma argfd_Ret d fd f k k' :
  refs_ok d k → argfd fd k = Ret (Some f) k' →
  k' = k ∧ ∃ i l, cur_fds i l k ∧ l !! Z.to_nat fd = Some (Some f).
Proof.
  intros Hk. unfold argfd. destruct (Z.ltb_spec fd 0); [done|]. destruct (Z.geb_spec fd (Z.of_nat NOFILE)); [done|].
  intros (l & k1 & [-> [i Hl]]%(cur_ofile_Ret d) & E)%bind_Ret_inv; [|done].
  destruct (l !!! Z.to_nat fd) as [g|] eqn:Eg; [|done]. injection E as -> <-. split; [done|]. exists i, l. split; [done|].
  apply list_lookup_alt. split; [|done]. rewrite (cur_fds_len d i l k Hk Hl). lia.
Qed.

(** One descriptor of a process that has files changes. *)
Lemma refs_ok_setfd d k i p fd o v :
  refs_ok d k → pt_procs (k_pt k) !! i = Some p → ¬ gone p → pr_ofile p !! fd = Some o →
  refs_ok (λ f, d f + flag o f - flag v f) (with_pt (upd_proc i (λ x, set_ofile (<[fd := v]> (pr_ofile x)) x) (k_pt k)) k).
Proof.
  intros [A B C D] Hp Hg Ho. set (h := λ x, set_ofile _ x).
  assert (∀ j q, alter h i (pt_procs (k_pt k)) !! j = Some q →
    (j = i ∧ q = h p) ∨ (j ≠ i ∧ pt_procs (k_pt k) !! j = Some q)) as Hq.
  { intros j q. rewrite list_lookup_alter. destruct (decide (i = j)) as [<-|]; [|by right].
    rewrite Hp. intros [= <-]. by left. }
  split; simpl.
  - intros f. rewrite (nfds_alter h i _ p f Hp), A. unfold h at 1. simpl. rewrite (fd_count_insert _ _ _ _ _ Ho). lia.
  - intros j q [[-> ->]|[_ Hj]]%Hq; [simpl; rewrite length_insert|]; eauto.
  - intros j q [[-> ->]|[_ Hj]]%Hq Gq; [done|eauto].
  - intros j Hj. destruct (decide (j = i)) as [->|Hne].
    + exists (h p). rewrite list_lookup_alter_eq, Hp. done.
    + rewrite list_lookup_alter_ne by done. auto.
Qed.

Lemma set_fd_refs d i l fd o v k k' :
  refs_ok d k → cur_fds i l k → l !! fd = Some o → set_fd fd v k = Ret tt k' →
  refs_ok (λ f, d f + flag o f - flag v f) k' ∧ cur_fds i (<[fd := v]> l) k'.
Proof.
  intros Hk (Hc & p & Hp & <-) Ho. unfold set_fd, set_cur.
  intros (j & k1 & [-> Hj]%curproc_Ret & E)%bind_Ret_inv. rewrite Hc in Hj. injection Hj as <-. injection E as <-.
  destruct (ro_cur _ _ Hk i Hc) as (p' & Hp' & Hg). simplify_eq. split; [by apply (refs_ok_setfd d k i p)|].
  split; [done|]. simpl. rewrite list_lookup_alter_eq, Hp. eexists. split; [done|]. done.
Qed.

(** The count of one file changes. *)
Lemma refs_ok_setref d n f k h :
  refs_ok d k → (f < length (k_files k))%nat → (∀ x, fi_ref (h x) = n) →
  refs_ok (λ g, d g + (n - fi_ref (k_files k !!! f)) * one f g) (with_files (alter h f (k_files k)) k).
Proof.
  intros [A B C D] Hf Hh. split; try done. intros g. simpl. unfold one. destruct (decide (g = f)) as [->|Hne].
  - rewrite list_lookup_total_alter_eq by done. rewrite Hh. specialize (A f). lia.
  - rewrite list_lookup_total_alter_ne by done. rewrite A. lia.
Qed.

Lemma file_in_range k f : fi_ref (k_files k !!! f) ≠ 0 → (f < length (k_files k))%nat.
Proof.
  intros Hr. destruct (decide (f < length (k_files k))%nat) as [|Hge]; [done|]. exfalso. apply Hr.
  rewrite list_lookup_total_alt, lookup_ge_None_2 by lia. done.
Qed.

Lemma filealloc_refs d k f k' :
  refs_ok d k → filealloc k = Ret (Some f) k' → refs_ok (plus d (one f)) k' ∧ k_pt k' = k_pt k.
Proof.
  intros Hk. unfold filealloc, bind, gets. destruct (free_file (k_files k) 0) as [g|] eqn:E; [|done].
  intros [= <- <-]. destruct (free_file_at _ _ E) as (x & Hx & Hr). split; [|done].
  eapply refs_ok_ext; [|eapply (refs_ok_setref d 1 g k (set_fref 1)); [done|by eapply lookup_lt_Some|done]].
  intros h. unfold plus. rewrite (list_lookup_total_correct _ _ _ Hx), Hr. lia.
Qed.

Lemma filealloc_none d k k' : refs_ok d k → filealloc k = Ret None k' → k' = k.
Proof. intros Hk. unfold filealloc, bind, gets. by destruct (free_file (k_files k) 0) as [g|]; intros [= <-]. Qed.

Lemma filedup_refs d k f g k' :
  refs_ok d k → filedup f k = Ret g k' → g = f ∧ refs_ok (plus d (one f)) k' ∧ k_pt k' = k_pt k.
Proof.
  intros Hk. unfold filedup, file_at, bind, gets. destruct (Z.ltb_spec (fi_ref (k_files k !!! f)) 1); [done|].
  intros [= <- <-]. split_and!; [done| |done].
  eapply refs_ok_ext; [|eapply (refs_ok_setref d (fi_ref (k_files k !!! f) + 1) f k (set_fref _)); [done|apply file_in_range; lia|done]].
  intros h. unfold plus. lia.
Qed.

(** What fileclose() does after the count is down. *)
Definition close_rest (x : file) : M K unit :=
  match fi_type x with
  | FD_PIPE =>
      match fi_pipe x with
      | Some p =>
          let* c := on_pipes (pipeclose p (negb (fi_writable x =? 0))) in
          on_pt (wakeup c)
      | None => fault "pipeclose(NULL)"
      end
  | FD_INODE =>
      match fi_ip x with
      | Some ip => on_fs (begin_op ;; iput ip ;; end_op)
      | None => fault "iput(NULL)"
      end
  | _ => ret tt
  end.

Lemma quiet_close_rest x : quiet (close_rest x).
Proof. unfold close_rest. quiet_tac. Qed.

Lemma cur_fds_pt i l k k' : k_pt k' = k_pt k → cur_fds i l k → cur_fds i l k'.
Proof. intros E. unfold cur_fds. by rewrite E. Qed.

Lemma cur_fds_lift {T A} (get : K → T) set (m : M T A) i l k a k' :
  (∀ t k, k_pt (set t k) = k_pt k) → cur_fds i l k → lift get set m k = Ret a k' → cur_fds i l k'.
Proof.
  intros Hs Hl. unfold lift. destruct (m (get k)); [|done..]. intros [= _ <-]. eapply cur_fds_pt; [apply Hs|done].
Qed.

Lemma close_rest_fds x i l k k' : cur_fds i l k → close_rest x k = Ret tt k' → cur_fds i l k'.
Proof.
  intros Hl. unfold close_rest. destruct (fi_type x); [by intros [= <-]| | |by intros [= <-]].
  - destruct (fi_pipe x) as [p|]; [|done]. intros (c & k1 & E1 & E2)%bind_Ret_inv.
    apply (cur_fds_lift _ _ _ i l) in E1; [|done..]. destruct E1 as (Hc & q & Hq & Eq).
    injection E2 as <-. split; [done|]. simpl. rewrite list_lookup_fmap, Hq. eexists. split; [done|].
    by destruct (is_state SLEEPING q && _).
  - destruct (fi_ip x) as [ip|]; [|done]. intros E. by eapply cur_fds_lift; [| |exact E].
Qed.

Lemma fileclose_refs d k f k' :
  refs_ok d k → fileclose f k = Ret tt k' →
  refs_ok (minus d (one f)) k' ∧ ∀ i l, cur_fds i l k → cur_fds i l k'.
Proof.
  intros Hk. unfold fileclose, file_at. set (x := k_files k !!! f). unfold bind at 1, gets. fold x.
  destruct (Z.ltb_spec (fi_ref x) 1) as [|Hr]; [done|].
  assert (f < length (k_files k))%nat as Hf by (apply file_in_range; unfold x in Hr; lia).
  unfold bind at 1, upd_file at 1, modify at 1.
  assert (refs_ok (minus d (one f)) (with_files (alter (set_fref (fi_ref x - 1)) f (k_files k)) k)) as H1.
  { eapply refs_ok_ext; [|eapply (refs_ok_setref d (fi_ref x - 1) f k (set_fref _)); done].
    intros g. unfold minus. fold x. lia. }
  rewrite Z.gtb_ltb. destruct (Z.ltb_spec 0 (fi_ref x - 1)) as [|Hz].
  { intros [= <-]. split; [done|]. intros i l. by apply cur_fds_pt. }
  intros (u & k1 & [= <- <-] & E)%bind_Ret_inv. fold (close_rest x) in E.
  split; [|intros i l Hl; eapply close_rest_fds; [|exact E]; by eapply cur_fds_pt].
  eapply quiet_close_rest; [|exact E]. clear E. eapply refs_ok_keeps; [exact H1| |apply pt_keeps_refl]. simpl.
  apply list_eq. intros j. rewrite !list_lookup_fmap, !list_lookup_alter.
  destruct (decide (f = j)) as [<-|]; [|done]. rewrite decide_True by done.
  destruct (k_files k !! f) as [y|]; [|done]. simpl. f_equal. lia.
Qed.

Lemma free_fd_at l fd : free_fd l 0 = Some fd → l !! fd = Some None.
Proof.
  assert (∀ i, free_fd l i = Some fd → l !! (fd - i)%nat = Some None ∧ (i ≤ fd)%nat) as Hl.
  { induction l as [|[g|] l IH]; intros i; simpl; [done| |].
    - intros [E Hle]%IH. replace (fd - i)%nat with (Datatypes.S (fd - Datatypes.S i)) by lia. split; [done|lia].
    - intros [= ->]. by rewrite Nat.sub_diag. }
  intros [E _]%Hl. by rewrite Nat.sub_0_r in E.
Qed.

Lemma fdalloc_refs d f k r k' :
  refs_ok d k → fdalloc f k = Ret r k' →
  (r = -1 ∧ refs_ok d k' ∧ k_pt k' = k_pt k) ∨
  (0 ≤ r ∧ refs_ok (minus d (one f)) k' ∧ ∃ i l, cur_fds i l k' ∧ l !! Z.to_nat r = Some (Some f)).
Proof.
  intros Hk (l & k1 & [-> [i Hl]]%(cur_ofile_Ret d) & E)%bind_Ret_inv; [|done].
  destruct (free_fd l 0) as [fd|] eqn:Ef.
  - apply bind_Ret_inv in E as ([] & k1 & E & [= <- <-]). right. split; [lia|].
    pose proof (free_fd_at _ _ Ef) as Hfd. destruct (set_fd_refs d i l fd None (Some f) k _ Hk Hl Hfd E) as [H1 H2].
    split; [eapply refs_ok_ext; [|exact H1]; intros g; cbv beta; rewrite flag_some; unfold minus, flag; simpl; lia|].
    exists i, (<[fd := Some f]> l). split; [done|]. rewrite Nat2Z.id. apply list_lookup_insert_eq.
    by eapply lookup_lt_Some.
  - left. injection E as <- <-. split_and!; [done| |done]. by eapply (quiet_set_errno EMFILE).
Qed.

(** ** The system calls *)

(** errno does not matter. *)
Lemma set_errno_Ret e k u k' : set_errno e k = Ret u k' → k' = with_errno e k.
Proof. by intros [= _ <-]. Qed.

Lemma refs_ok_errno d e k : refs_ok d k → refs_ok d (with_errno e k).
Proof. intros [A B C D]. by split. Qed.

Lemma refs_ok_back d f k : refs_ok (plus (minus d (one f)) (one f)) k → refs_ok d k.
Proof. apply refs_ok_ext. intros g. unfold plus, minus. lia. Qed.

Lemma refs_ok_forth d f k : refs_ok (minus (plus d (one f)) (one f)) k → refs_ok d k.
Proof. apply refs_ok_ext. intros g. unfold plus, minus. lia. Qed.

Lemma quiet_sys_dup fd : quiet (sys_dup fd : M K _).
Proof.
  apply quiet_bind; [auto with quiet|]. intros _. apply quiet_bind; [auto with quiet|].
  intros [f|]; [|auto with quiet]. intros d k r k' Hk (fd' & k1 & E1 & E2)%bind_Ret_inv.
  destruct (fdalloc_refs d f k fd' k1 Hk E1) as [(-> & H1 & _)|(Hge & H1 & _)].
  - by injection E2 as _ <-.
  - destruct (Z.ltb_spec fd' 0); [lia|]. apply bind_Ret_inv in E2 as (g & k2 & E2 & [= _ <-]).
    destruct (filedup_refs _ _ _ _ _ H1 E2) as (_ & H2 & _). by eapply refs_ok_back.
Qed.

Lemma quiet_sys_close fd : quiet (sys_close fd : M K _).
Proof.
  apply quiet_bind; [auto with quiet|]. intros _ d k r k' Hk ([f|] & k1 & E1 & E2)%bind_Ret_inv.
  - destruct (argfd_Ret d fd f k k1 Hk E1) as (-> & i & l & Hl & Hf).
    apply bind_Ret_inv in E2 as ([] & k2 & E2 & ([] & k3 & E3 & [= _ <-])%bind_Ret_inv).
    destruct (set_fd_refs d i l _ _ None k k2 Hk Hl Hf E2) as [H2 Hl2].
    destruct (fileclose_refs _ _ _ _ H2 E3) as [H3 _]. eapply refs_ok_ext; [|exact H3].
    intros g. unfold minus. rewrite flag_some. unfold flag. simpl. lia.
  - injection E2 as _ <-. by eapply quiet_argfd.
Qed.

Lemma quiet_open_fd : quiet (open_fd : M K _).
Proof.
  intros d k r k' Hk ([f|] & k1 & E1 & E2)%bind_Ret_inv.
  - destruct (filealloc_refs d k f k1 Hk E1) as [H1 _]. apply bind_Ret_inv in E2 as (fd & k2 & E2 & E3).
    destruct (fdalloc_refs _ f k1 fd k2 H1 E2) as [(-> & H2 & _)|(Hge & H2 & _)].
    + apply bind_Ret_inv in E3 as ([] & k3 & E3 & [= _ <-]).
      destruct (fileclose_refs _ _ _ _ H2 E3) as [H3 _]. by eapply refs_ok_forth.
    + destruct (Z.ltb_spec fd 0); [lia|]. injection E3 as _ <-. by eapply refs_ok_forth.
  - injection E2 as _ <-. by rewrite (filealloc_none d k k1 Hk E1).
Qed.
Hint Resolve quiet_open_fd quiet_sys_close : quiet.

Lemma quiet_sys_open path omode : quiet (sys_open path omode : M K _).
Proof. unfold sys_open. quiet_tac. Qed.
Hint Resolve quiet_sys_open : quiet.

Lemma quiet_exec_image fd path h args kmem size : quiet (exec_image fd path h args kmem size : M K _).
Proof. unfold exec_image. quiet_tac. Qed.
Hint Resolve quiet_exec_image : quiet.
Lemma quiet_sys_exec path args kmem size : quiet (sys_exec path args kmem size : M K _).
Proof. unfold sys_exec. quiet_tac. Qed.

Lemma pipealloc_refs d k r k' :
  refs_ok d k → pipealloc k = Ret r k' →
  refs_ok (match r with Some (f0, f1) => plus (plus d (one f0)) (one f1) | None => d end) k'.
Proof.
  intros Hk ([f0|] & k1 & E1 & E)%bind_Ret_inv; [|apply filealloc_none with d _ _ in E1 as ->; [|done]].
  2: { apply bind_Ret_inv in E as ([] & k1 & [= <-] & [= <- <-]). by apply refs_ok_errno. }
  destruct (filealloc_refs d k f0 k1 Hk E1) as [H1 _]. clear E1.
  apply bind_Ret_inv in E as ([f1|] & k2 & E2 & E); [|apply filealloc_none with (plus d (one f0)) _ _ in E2 as ->; [|done]].
  2: { apply bind_Ret_inv in E as ([] & k3 & E3 & E). destruct (fileclose_refs _ _ _ _ H1 E3) as [H3 _].
       injection E as <- <-. apply refs_ok_errno. by eapply refs_ok_forth. }
  destruct (filealloc_refs _ k1 f1 k2 H1 E2) as [H2 _]. clear E2.
  apply bind_Ret_inv in E as ([[p|] plist] & k3 & [= Ep <-] & E).
  - do 3 (apply bind_Ret_inv in E as ([] & ? & [= <-] & E)). injection E as <- <-.
    eapply refs_ok_keeps; [exact H2| |apply pt_keeps_refl]. simpl.
    apply list_eq. intros j. rewrite !list_lookup_fmap, !list_lookup_alter.
    repeat case_decide; subst; by destruct (k_files k2 !! j).
  - apply bind_Ret_inv in E as ([] & k3 & E3 & E). destruct (fileclose_refs _ _ _ _ H2 E3) as [H3 _].
    apply bind_Ret_inv in E as ([] & k4 & E4 & E). destruct (fileclose_refs _ _ _ _ H3 E4) as [H4 _].
    injection E as <- <-. apply refs_ok_errno. eapply refs_ok_ext; [|exact H4].
    intros g. unfold plus, minus. lia.
Qed.

Lemma quiet_sys_pipe b : quiet (sys_pipe b : M K _).
Proof.
  intros d k r k' Hk. unfold sys_pipe. destruct b; simpl negb; [|intros [= _ <-]; by apply refs_ok_errno].
  intros (r1 & k1 & E1 & E)%bind_Ret_inv. apply (pipealloc_refs d) in E1; [|done]. destruct r1 as [[rf wf]|].
  2: { injection E as _ <-. by apply refs_ok_errno. }
  apply bind_Ret_inv in E as (fd0 & k2 & E2 & E).
  destruct (fdalloc_refs _ _ _ _ _ E1 E2) as [(-> & H2 & _)|(Hge & H2 & i & l & Hl & Hf)].
  - simpl in E. apply bind_Ret_inv in E as (fd1 & k3 & [= <- <-] & E). simpl in E.
    apply bind_Ret_inv in E as ([] & k3 & [= <-] & E).
    apply bind_Ret_inv in E as ([] & k3 & E3 & E). destruct (fileclose_refs _ _ _ _ H2 E3) as [H3 _].
    apply bind_Ret_inv in E as ([] & k4 & E4 & E). destruct (fileclose_refs _ _ _ _ H3 E4) as [H4 _].
    injection E as _ <-. apply refs_ok_errno. eapply refs_ok_ext; [|exact H4]. intros g. unfold plus, minus. lia.
  - destruct (Z.ltb_spec fd0 0); [lia|]. apply bind_Ret_inv in E as (fd1 & k3 & E3 & E).
    destruct (fdalloc_refs _ _ _ _ _ H2 E3) as [(-> & H3 & Ept)|(Hge1 & H3 & _)].
    + simpl in E. rewrite Z.geb_leb in E. destruct (Z.leb_spec 0 fd0); [|lia].
      apply bind_Ret_inv in E as ([] & k4 & E4 & E). apply (cur_fds_pt i l _ k3) in Hl; [|done].
      destruct (set_fd_refs _ _ _ _ _ _ _ _ H3 Hl Hf E4) as [H4 _].
      apply bind_Ret_inv in E as ([] & k5 & E5 & E). destruct (fileclose_refs _ _ _ _ H4 E5) as [H5 _].
      apply bind_Ret_inv in E as ([] & k6 & E6 & E). destruct (fileclose_refs _ _ _ _ H5 E6) as [H6 _].
      injection E as _ <-. apply refs_ok_errno. eapply refs_ok_ext; [|exact H6].
      intros g. unfold plus, minus. rewrite flag_some. unfold flag. simpl. lia.
    + destruct (Z.ltb_spec fd1 0); [lia|]. injection E as _ <-. eapply refs_ok_ext; [|exact H3].
      intros g. unfold plus, minus. lia.
Qed.

Lemma cur_fds_fun i j l l' k : cur_fds i l k → cur_fds j l' k → i = j ∧ l = l'.
Proof. intros (? & p & ? & <-) (? & q & ? & <-). by simplify_eq. Qed.

Lemma cur_ofile_fds d i l l' k k' : refs_ok d k → cur_fds i l k → cur_ofile k = Ret l' k' → k' = k ∧ l' = l.
Proof.
  intros Hk Hl [-> [j Hj]]%(cur_ofile_Ret d); [|done]. by destruct (cur_fds_fun _ _ _ _ _ Hl Hj) as [_ ->].
Qed.

(** *** fork() *)

Lemma dup_all_refs d me np : ∀ n fd l q k k',
  refs_ok d k → np ≠ me → cur_fds me l k → pt_procs (k_pt k) !! np = Some q → ¬ gone q →
  (∀ j, (fd ≤ j < NOFILE)%nat → pr_ofile q !! j = Some None) → (fd + n)%nat = NOFILE →
  dup_all n fd np k = Ret tt k' → refs_ok d k'.
Proof.
  induction n as [|n IH]; intros fd l q k k' Hk Hne Hl Hq Hg Hn Hfd; simpl; [by intros [= <-]|].
  intros (l' & k1 & [-> ->]%(cur_ofile_fds d me l) & E)%bind_Ret_inv; [|done..].
  apply bind_Ret_inv in E as ([] & k2 & E1 & E2). destruct (l !!! fd) as [f|].
  - apply bind_Ret_inv in E1 as (g & k3 & E1 & [= <-]).
    destruct (filedup_refs d k f g k3 Hk E1) as (-> & H1 & Ept). rewrite <- Ept in Hq.
    assert (pr_ofile q !! fd = Some None) as Ho by (apply Hn; lia).
    pose proof (refs_ok_setfd _ k3 np q fd None (Some f) H1 Hq Hg Ho) as H2.
    eapply (IH _ l _ _ k'); [|done| | | | | |exact E2]; [| |simpl; by rewrite list_lookup_alter_eq, Hq|done| |lia].
    + eapply refs_ok_ext; [|exact H2]. intros h. unfold plus. rewrite flag_some. unfold flag. simpl. lia.
    + destruct Hl as (Hc & p & Hp & <-). split; [simpl; by rewrite Ept|]. exists p. split; [|done].
      simpl. by rewrite list_lookup_alter_ne, Ept.
    + intros j Hj. simpl. rewrite list_lookup_insert_ne by lia. apply Hn. lia.
  - injection E1 as <-. eapply (IH (Datatypes.S fd) l q _ k'); [done..| |lia|done]. intros j Hj. apply Hn. lia.
Qed.

Lemma allocproc_keeps t p t' :
  allocproc t = Ret (Some p) t' → pt_keeps t t' ∧ pt_cur t' = pt_cur t ∧
  ∃ x, pt_procs t' !! p = Some x ∧ pr_state x = EMBRYO.
Proof.
  unfold allocproc. destruct (first_proc _ _ _) as [i|] eqn:E; [|done]. intros [= <- <-].
  destruct (first_proc_at _ _ _ E) as (q & Hq & Hs%is_state_true). change (procs_at t i) with (pt_procs t !! i) in Hq.
  split_and!; [|done|simpl; rewrite list_lookup_alter_eq, Hq; by eexists].
  destruct (pt_keeps_upd (λ x, set_pid (pt_nextpid t) (set_state EMBRYO x)) i t) as [P C]; [|by split; [|left]].
  intros r Hr. simplify_eq. split; [done|]. by left.
Qed.

Lemma quiet_sys_fork sp : quiet (sys_fork sp : M K _).
Proof.
  intros d k r k' Hk ([np|] & k1 & E1 & E)%bind_Ret_inv; [|].
  2: { injection E as _ <-. apply refs_ok_errno. revert E1. unfold on_pt, lift, allocproc.
       destruct (first_proc _ _ _); [done|]. intros [= <-]. by destruct Hk; split. }
  apply on_pt_Ret in E1 as (t & Ea & ->). destruct (allocproc_keeps _ _ _ Ea) as (Hkeep & Hcur & x & Hx & Hemb).
  set (k1 := with_pt t k) in E. assert (refs_ok d k1) as H1 by (eapply refs_ok_keeps; [exact Hk|done|done]).
  apply bind_Ret_inv in E as (me & k2 & [-> Hme]%curproc_Ret & E).
  destruct (ro_cur _ _ H1 me Hme) as (pm & Hpm & Hgm). assert (gone x) as Hgx by (right; by left).
  assert (np ≠ me) as Hne by (intros ->; apply Hgm; simpl in Hpm; by simplify_eq).
  apply bind_Ret_inv in E as (par & k2 & [= Epar <-] & E). apply bind_Ret_inv in E as (pid & k2 & [= Epid <-] & E).
  apply bind_Ret_inv in E as ([basereg flist] & k2 & [= Efr <-] & E).
  apply bind_Ret_inv in E as ([] & k2 & [= <-] & E).
  assert (refs_ok d (with_flist flist k1)) as H2 by (destruct H1; by split). destruct (basereg =? -1).
  - apply bind_Ret_inv in E as ([] & k2 & [= <-] & [= _ <-]). apply refs_ok_errno.
    eapply refs_ok_keeps; [exact H2|done|]. apply pt_keeps_upd. intros y Hy. by simpl in Hy; simplify_eq.
  - apply bind_Ret_inv in E as ([] & k2 & [= <-] & E). apply bind_Ret_inv in E as ([] & k3 & E3 & E).
    match type of E3 with _ ?k = _ => set (k2 := k) in E3 end.
    assert (refs_ok d k2) as H3.
    { eapply refs_ok_keeps; [exact H2|done|]. apply pt_keeps_upd. intros y Hy. split; [done|].
      unfold gone. simpl. intros [|[|]]; done. }
    assert (refs_ok d k3) as H4.
    { eapply (dup_all_refs d me np NOFILE 0 (pr_ofile pm)); [exact H3|done| | | | |done|exact E3].
      - split; [done|]. exists pm. split; [|done]. simpl. by rewrite list_lookup_alter_ne.
      - simpl. by rewrite list_lookup_alter_eq, Hx.
      - unfold gone. simpl. intros [|[|]]; done.
      - intros j Hj. simpl. pose proof (ro_closed _ _ H1 np x Hx Hgx) as Hn.
        destruct (lookup_lt_is_Some_2 (pr_ofile x) j) as [o Ho]; [rewrite (ro_len _ _ H1 np x Hx); lia|].
        rewrite Ho. f_equal. by eapply (Forall_lookup_1 _ _ _ _ Hn). }
    revert E. apply quiet_bind; [quiet_tac|intros cwd|done]. apply quiet_bind; [|intros ?; quiet_tac].
    apply quiet_on_pt. intros t1 [] t2 [= <-]. by apply pt_keeps_same.
Qed.

(** *** exit() *)

Lemma close_all_refs d i : ∀ n fd l k k',
  refs_ok d k → cur_fds i l k → (fd + n)%nat = NOFILE → (∀ j, (j < fd)%nat → l !! j = Some None) →
  close_all n fd k = Ret tt k' → refs_ok d k' ∧ ∃ l', cur_fds i l' k' ∧ Forall (λ o, o = None) l'.
Proof.
  induction n as [|n IH]; intros fd l k k' Hk Hl Hfd Hn; simpl.
  { intros [= <-]. split; [done|]. exists l. split; [done|]. apply Forall_lookup_2. intros j o Hj.
    pose proof (lookup_lt_Some _ _ _ Hj) as Hlt. rewrite (cur_fds_len d i l k Hk Hl) in Hlt.
    rewrite Hn in Hj by lia. by simplify_eq. }
  intros (l' & k1 & [-> ->]%(cur_ofile_fds d i l) & E)%bind_Ret_inv; [|done..].
  apply bind_Ret_inv in E as ([] & k2 & E1 & E2).
  assert (is_Some (l !! fd)) as [o Ho] by (apply lookup_lt_is_Some_2; rewrite (cur_fds_len d i l k Hk Hl); lia).
  rewrite (list_lookup_total_correct _ _ _ Ho) in E1. destruct o as [f|].
  - apply bind_Ret_inv in E1 as ([] & k1 & E0 & E1). destruct (fileclose_refs _ _ _ _ Hk E0) as [H1 Hl1].
    destruct (set_fd_refs _ i l fd _ None k1 k2 H1 (Hl1 i l Hl) Ho E1) as [H2 Hl2].
    eapply (IH (Datatypes.S fd) _ k2 k'); [|exact Hl2|lia| |done].
    + eapply refs_ok_ext; [|exact H2]. intros g. unfold minus. rewrite flag_some. unfold flag. simpl. lia.
    + intros j Hj. destruct (decide (j = fd)) as [->|].
      * apply list_lookup_insert_eq. by eapply lookup_lt_Some.
      * rewrite list_lookup_insert_ne by done. apply Hn. lia.
  - injection E1 as <-. eapply (IH (Datatypes.S fd) l k k'); [done|done|lia| |done].
    intros j Hj. destruct (decide (j = fd)) as [->|]; [done|]. apply Hn. lia.
Qed.

(** A process without files becomes a zombie and another one runs. *)
Lemma refs_ok_zombie d k i l t :
  refs_ok d k → cur_fds i l k → Forall (λ o, o = None) l →
  scheduler (upd_proc i (set_state ZOMBIE) (k_pt k)) = Ret tt t → refs_ok d (with_pt t k).
Proof.
  intros Hk (Hc & p & Hp & <-) Hn. unfold scheduler. destruct (first_proc _ _ _) as [j|] eqn:E; [|done].
  destruct (first_proc_at _ _ _ E) as (q & Hq & Hs%is_state_true). intros [= <-].
  change (alter (set_state ZOMBIE) i (pt_procs (k_pt k)) !! j = Some q) in Hq.
  eapply refs_ok_procs; [exact Hk|done| |]; simpl.
  - assert (i ≠ j) as Hne by (intros ->; rewrite list_lookup_alter_eq, Hp in Hq; by simplify_eq/=).
    rewrite list_lookup_alter_ne in Hq by done.
    apply Forall2_lookup. intros h. destruct (decide (h = j)) as [->|Hh].
    + rewrite list_lookup_alter_eq, list_lookup_alter_ne, Hq by done.
      constructor. split; [done|]. unfold gone. simpl. intros [|[|]]; done.
    + rewrite list_lookup_alter_ne by done. destruct (decide (h = i)) as [->|].
      * rewrite list_lookup_alter_eq, Hp. constructor. auto.
      * rewrite list_lookup_alter_ne by done. destruct (pt_procs (k_pt k) !! h); constructor. auto.
  - intros h [= <-]. rewrite list_lookup_alter_eq, Hq. eexists. split; [done|].
    unfold gone. simpl. intros [|[|]]; done.
Qed.

Lemma quiet_sys_exit v : quiet (sys_exit v : M K _).
Proof.
  unfold sys_exit. apply quiet_bind; [quiet_tac|]. intros [].
  intros d k [] k' Hk (me & k1 & [-> Hme]%curproc_Ret & E)%bind_Ret_inv.
  apply bind_Ret_inv in E as (init & k1 & [= _ <-] & E). destruct (bool_decide _); [done|].
  apply bind_Ret_inv in E as ([] & k1 & E1 & E). destruct (ro_cur _ _ Hk me Hme) as (p & Hp & _).
  destruct (close_all_refs d me NOFILE 0 (pr_ofile p) k k1 Hk) as (H1 & l & Hl & Hn); [|done|lia|exact E1|].
  { split; [exact Hme|]. exists p. split; [exact Hp|reflexivity]. }
  apply bind_Ret_inv in E as (pid & k2 & [= _ <-] & E). apply bind_Ret_inv in E as ([] & k2 & [= <-] & E).
  apply on_pt_Ret in E as (t & Et & ->). apply exit_tail_Ret in Et as (t1 & Hkeep & Hcur & Et).
  set (k2 := with_flist _ k1) in *.
  assert (refs_ok d (with_pt t1 k2)) as H2 by (eapply refs_ok_keeps; [exact H1|done|done]).
  eapply (refs_ok_zombie d (with_pt t1 k2) me l t) in Et; [exact Et|exact H2| |done].
  destruct Hl as (Hc & q & Hq & El). split; [simpl; by rewrite Hcur|].
  destruct Hkeep as [P _]. destruct (Forall2_lookup_l _ _ _ _ _ P Hq) as (q' & Hq' & Eo & _).
  exists q'. split; [done|congruence].
Qed.
End moves.
#[export] Hint Resolve quiet_sys_dup quiet_sys_close quiet_sys_open quiet_sys_exec quiet_sys_pipe quiet_sys_fork quiet_sys_exit : quiet.

(** ** The life of a kernel *)

(** The tables as the boot loader leaves them: zero. *)
Record bss_tables {S} (k : kst S) : Prop := {
  bss_files : Forall (λ x, fi_ref x = 0) (k_files k);
  bss_procs : Forall (λ p, pr_ofile p = replicate NOFILE None) (pt_procs (k_pt k));
}.

Definition none : nat → Z := λ _, 0.

Section life.
Context {S : Type} `{BlockOps S}.
Abbreviation K := (kst S).
Implicit Types k : K.

Lemma quiet_handler c : quiet (SYSCALL_HANDLER c : M K unit).
Proof. destruct c; unfold SYSCALL_HANDLER, drop_result, sys_getpid; quiet_tac. Qed.

Lemma kstep_refs d k k' : kstep k k' → refs_ok d k → refs_ok d k'.
Proof.
  intros [c E|p _ E|p n r E|p n bs r E|t E] Hk.
  - by eapply quiet_handler.
  - by eapply quiet_tick.
  - by eapply quiet_run_pipe.
  - by eapply quiet_run_pipe.
  - by eapply quiet_on_fs.
Qed.

Lemma bss_refs k : bss_tables k → pt_cur (k_pt k) = None → refs_ok none k.
Proof.
  intros [F P] Hc. rewrite Forall_lookup in P. split.
  - intros f. unfold none. rewrite Z.add_0_r. trans 0.
    + rewrite list_lookup_total_alt. destruct (k_files k !! f) eqn:E; [|done]. by eapply (Forall_lookup_1 _ _ _ _ F).
    + assert (∀ l, (∀ i p, l !! i = Some p → pr_ofile p = replicate NOFILE None) → nfds l f = 0) as Hl; [|by rewrite Hl].
      intros l. induction l as [|p l IH]; intros Hl; [done|]. simpl. rewrite (Hl 0%nat p eq_refl), IH; [done|].
      intros i q. apply (Hl (Datatypes.S i)).
  - intros i p Hp. by rewrite (P i p Hp), length_replicate.
  - intros i p Hp _. rewrite (P i p Hp). by apply Forall_replicate.
  - by rewrite Hc.
Qed.

Lemma userinit_refs d k k' : refs_ok d k → userinit k = Ret tt k' → refs_ok d k'.
Proof.
  intros Hk ([p|] & k1 & (t & Ea & ->)%on_pt_Ret & E)%bind_Ret_inv; [|done].
  destruct (allocproc_keeps _ _ _ Ea) as (Hkeep & Hcur & x & Hx & Hemb).
  assert (refs_ok d (with_pt t k)) as H1 by (by eapply refs_ok_keeps).
  apply bind_Ret_inv in E as ([] & k2 & (t2 & ->%modify_Ret & ->)%on_pt_Ret & E).
  apply bind_Ret_inv in E as (cwd & k3 & E3 & E). unfold on_fs, lift in E3.
  destruct (namei None [SLASH] _) as [? s| | |]; [|done..]. injection E3 as -> <-.
  apply on_pt_Ret in E as (t3 & ->%modify_Ret & ->).
  eapply refs_ok_procs; [exact H1|done| |]; simpl.
  - apply Forall2_lookup. intros j. rewrite list_lookup_alter. destruct (decide (p = j)) as [<-|].
    + rewrite Hx. constructor. split; [done|]. unfold gone. simpl. intros [|[|]]; done.
    + destruct (pt_procs t !! j); constructor. auto.
  - intros i [= <-]. rewrite list_lookup_alter_eq, Hx. eexists. split; [done|].
    unfold gone. simpl. intros [|[|]]; done.
Qed.

(** What the invariant says when the kernel holds no reference of its own. *)
Lemma refs_ok_open k :
  refs_ok none k →
  (∀ f x, k_files k !! f = Some x → fi_ref x = nfds (pt_procs (k_pt k)) f) ∧
  (∀ i p f, pt_procs (k_pt k) !! i = Some p → Some f ∈ pr_ofile p → ∃ x, k_files k !! f = Some x ∧ 1 ≤ fi_ref x).
Proof.
  intros [A _ _ _]. unfold none in A. split.
  - intros f x Hx. rewrite <- (Z.add_0_r (nfds _ f)), <- A. by rewrite (list_lookup_total_correct _ _ _ Hx).
  - intros i p f Hp Hf. pose proof (nfds_pos _ i p f Hp Hf) as Hpos. specialize (A f).
    destruct (lookup_lt_is_Some_2 (k_files k) f) as [x Hx]; [apply file_in_range; lia|].
    exists x. split; [done|]. rewrite (list_lookup_total_correct _ _ _ Hx) in A. lia.
Qed.
End life.

Lemma kmain_refs path kmem size k r k' : bss_tables k → kmain path kmem size k = Ret r k' → refs_ok none k'.
Proof.
  intros [F P]. unfold kmain.
  do 3 (intros (? & ? & (? & _ & ->)%on_fs_Ret & E)%bind_Ret_inv; revert E).
  intros ([] & k1 & (t & ->%modify_Ret & ->)%on_pt_Ret & E)%bind_Ret_inv.
  do 2 (apply bind_Ret_inv in E as ([] & ? & ->%modify_Ret & E)).
  apply bind_Ret_inv in E as ([] & k2 & E2 & E3). eapply (quiet_sys_exec path [path] kmem size); [|exact E3].
  eapply userinit_refs; [|exact E2]. apply bss_refs; [|done]. split; [done|]. simpl.
  apply Forall_fmap. eapply Forall_impl; [exact P|]. done.
Qed.

(** * Open files: the invariant of the running kernel, and a boot that shows it *)

(** ** Theorem *)

(** C6.  The counts of the file table are right for as long as the kernel runs.
    From a zeroed memory, once kmain() has started the first program, and after
    any sequence of system calls, resumed calls and clock ticks, of whichever
    processes the scheduler picks, the reference count of each open file is the
    number of descriptors of all processes that are open on it; so a descriptor
    in use always refers to an entry of the file table that is in use. *)
Theorem file_refs_invariant path kmem size (k0 k1 k : kst lstate) r :
  bss_tables k0 → kmain path kmem size k0 = Ret r k1 → rtc kstep k1 k →
  (∀ f x, k_files k !! f = Some x → fi_ref x = nfds (pt_procs (k_pt k)) f) ∧
  (∀ i p f, pt_procs (k_pt k) !! i = Some p → Some f ∈ pr_ofile p → ∃ x, k_files k !! f = Some x ∧ 1 ≤ fi_ref x).
Proof.
  intros Hb E Hr. apply refs_ok_open. pose proof (kmain_refs _ _ _ _ _ _ Hb E) as H1. clear Hb E.
  induction Hr as [|k1 k2 k3 Hs _ IH]; [done|]. apply IH. by eapply kstep_refs.
Qed.

(** A kernel that boots from an image of mkfs with the program /bin/init, of 24
    bytes, which opens the terminal, duplicates it and forks. *)
Definition init_prog : list Z := be_enc 2 AOUT_MAGIC ++ replicate 10 0 ++ be_enc 4 (START_ADDR + 24) ++ be_enc 4 65536 ++ [78; 113; 78; 113].
Definition boot_image : Z → list Z :=
  match mkfs_main [HDir [98; 105; 110] 0 [HFile [105; 110; 105; 116] 0 init_prog]] mkfs_start with
  | Ret _ m => m_img m | _ => λ _, [] end.
Definition bss_kernel : kst lstate :=
  mkK (mkFs (mkL (mkBio (mkDevice boot_image (λ _, true)) bss_cache) (mkLog 0 0 0 0 0 (replicate (Z.to_nat LOGSIZE) 0)))
         (mkSb 0 0 0 0 0 0 0) 0 0 (replicate NINODE inhabitant) 0)
    (replicate NFILE inhabitant) (replicate 5 inhabitant) (mkPt (replicate NPROC inhabitant) 1 None None)
    [] 0 [] [] 1 1 [] (λ _, 0).
Definition init_path : list Z := [47; 98; 105; 110; 47; 105; 110; 105; 116; 0].
Abbreviation boot := (kmain init_path (0, 100000, 1000) 512).

Fixpoint calls (l : list syscall) : M (kst lstate) unit :=
  match l with
  | [] => ret tt
  | c :: l => SYSCALL_HANDLER c ;; calls l
  end.

Lemma calls_steps l k k' : calls l k = Ret tt k' → rtc kstep k k'.
Proof.
  revert k. induction l as [|c l IH]; simpl; intros k; [by intros [= <-]|].
  intros ([] & k1 & E & Hl)%bind_Ret_inv. eapply rtc_l; [by eapply step_call|auto].
Qed.

(** Open the terminal, duplicate it, fork. *)
Definition init_calls : list syscall := [SYS_open (Some (TTY ++ [0])) O_RDWR; SYS_dup 0; SYS_fork 1114000].
Abbreviation k_booted := (final boot bss_kernel).
Abbreviation k_forked := (final (calls init_calls) k_booted).

Lemma file_refs_invariant_witness :
  fi_ref <$> k_files k_forked !! 0%nat = Some 4 ∧
  ∃ p, pt_procs (k_pt k_forked) !! 1%nat = Some p ∧ pr_ofile p !! 1%nat = Some (Some 0%nat) ∧
  ∃ x, k_files k_forked !! 0%nat = Some x ∧ 1 ≤ fi_ref x.
Proof.
  destruct (final_returns boot bss_kernel) as [r E]; [vm_compute; reflexivity|].
  assert (bss_tables bss_kernel) as Hb by (split; apply Forall_replicate; reflexivity).
  assert (rtc kstep k_booted k_forked) as Hs.
  { eapply calls_steps, final_unit. vm_compute. reflexivity. }
  destruct (file_refs_invariant init_path (0, 100000, 1000) 512 bss_kernel k_booted k_forked r Hb E Hs) as [H1 H2].
  destruct (k_files k_forked !! 0%nat) as [x|] eqn:Ex; [|exfalso; vm_compute in Ex; discriminate].
  split; [simpl; rewrite (H1 0%nat x Ex); vm_compute; reflexivity|].
  destruct (pt_procs (k_pt k_forked) !! 1%nat) as [p|] eqn:Ep; [|exfalso; vm_compute in Ep; discriminate].
  exists p. split; [reflexivity|]. assert (pr_ofile p !! 1%nat = Some (Some 0%nat)) as Ho.
  { vm_compute in Ep. injection Ep as <-. reflexivity. }
  split; [exact Ho|]. destruct (H2 1%nat p 0%nat Ep) as (y & Hy & Hr); [by eapply list_elem_of_lookup_2|].
  exists y. rewrite Ex in Hy. split; [exact Hy|exact Hr].
Defined.
