(* ===== verification/Libstring.v ===== *)
(** * String routines of the C library (lib/string)

    A string argument is the list of bytes it points at; past the end of the
    list there is the NUL that ends it, as in kern/string.c (file Kstring).  A
    pointer into a string is an index; a NULL result is [None].  A routine
    that writes returns the bytes of the array it writes to. *)

From S2P Require Import Prelude Bytes Kstring.

(** [*s] *)
Definition first (s : list Z) : Z := byte s 0.

(** ** Length and comparison *)

Fixpoint strlen (s : list Z) : Z :=
  match s with
  | [] => 0
  | c :: s => if c =? 0 then 0 else 1 + strlen s
  end.

Fixpoint strcmp (s1 s2 : list Z) : Z :=
  match s1 with
  | [] => 0 - first s2
  | c :: s1 =>
      if c =? first s2 then if c =? 0 then 0 else strcmp s1 (tail s2)
      else c - first s2
  end.

(** strncmp() with [n] characters to go. *)
Fixpoint strncmp_loop (n : nat) (s1 s2 : list Z) : Z :=
  match n with
  | O => 0
  | S n =>
      if negb (first s1 =? first s2) then first s1 - first s2
      else if first s1 =? 0 then 0
      else strncmp_loop n (tail s1) (tail s2)
  end.
Definition strncmp (s1 s2 : list Z) (n : Z) : Z := strncmp_loop (Z.to_nat n) s1 s2.

(** The table [charmap]: upper case letters are mapped to lower case ones. *)
Definition charmap (c : Z) : Z := if (65 <=? c) && (c <=? 90) then c + 32 else c.

Fixpoint strcasecmp (s1 s2 : list Z) : Z :=
  match s1 with
  | [] => charmap 0 - charmap (first s2)
  | c :: s1 =>
      if charmap c =? charmap (first s2) then if c =? 0 then 0 else strcasecmp s1 (tail s2)
      else charmap c - charmap (first s2)
  end.

Fixpoint strncasecmp_loop (n : nat) (s1 s2 : list Z) : Z :=
  match n with
  | O => 0
  | S n =>
      if negb (charmap (first s1) =? charmap (first s2)) then charmap (first s1) - charmap (first s2)
      else if first s1 =? 0 then 0
      else strncasecmp_loop n (tail s1) (tail s2)
  end.
Definition strncasecmp (s1 s2 : list Z) (n : Z) : Z := strncasecmp_loop (Z.to_nat n) s1 s2.

(** ** Searching *)

(** [memchr]: [n] bytes to go, the next one at index [i]. *)
Fixpoint memchr_loop (n : nat) (s : list Z) (c : Z) (i : Z) : option Z :=
  match n with
  | O => None
  | S n => if byte s i =? c then Some i else memchr_loop n s c (i + 1)
  end.
Definition memchr (s : list Z) (c n : Z) : option Z := memchr_loop (Z.to_nat n) s (u8 c) 0.

Fixpoint index_loop (s : list Z) (ch : Z) (i : Z) : option Z :=
  match s with
  | [] => if 0 =? ch then Some i else None
  | c :: s => if c =? ch then Some i else if c =? 0 then None else index_loop s ch (i + 1)
  end.
Definition index (s : list Z) (ch : Z) : option Z := index_loop s (u8 ch) 0.

Fixpoint rindex_loop (s : list Z) (ch : Z) (i : Z) (save : option Z) : option Z :=
  match s with
  | [] => if 0 =? ch then Some i else save
  | c :: s =>
      let save := if c =? ch then Some i else save in
      if c =? 0 then save else rindex_loop s ch (i + 1) save
  end.
Definition rindex (s : list Z) (ch : Z) : option Z := rindex_loop s (u8 ch) 0 None.

(** [for (spanp = s2; (sc = *spanp++) != 0;) if (sc == c) ...]: is [c] a character of [s2]? *)
Fixpoint in_span (s2 : list Z) (c : Z) : bool :=
  match s2 with
  | [] => false
  | sc :: s2 => if sc =? 0 then false else if sc =? c then true else in_span s2 c
  end.

(** [do { if ((sc = *spanp++) == c) ... } while (sc != 0)]: is [c] a character of [s2] or NUL? *)
Fixpoint in_cspan (s2 : list Z) (c : Z) : bool :=
  match s2 with
  | [] => 0 =? c
  | sc :: s2 => if sc =? c then true else if sc =? 0 then false else in_cspan s2 c
  end.

Fixpoint strspn (s1 s2 : list Z) : Z :=
  match s1 with
  | [] => 0
  | c :: s1 => if in_span s2 c then 1 + strspn s1 s2 else 0
  end.

Fixpoint strcspn (s1 s2 : list Z) : Z :=
  match s1 with
  | [] => 0
  | c :: s1 => if in_cspan s2 c then 0 else 1 + strcspn s1 s2
  end.

Fixpoint strpbrk_loop (s1 s2 : list Z) (i : Z) : option Z :=
  match s1 with
  | [] => None
  | c :: s1 =>
      if c =? 0 then None else if in_span s2 c then Some i else strpbrk_loop s1 s2 (i + 1)
  end.
Definition strpbrk (s1 s2 : list Z) : option Z := strpbrk_loop s1 s2 0.

(** The two nested loops of strstr(): [i] is the index of [s], [c] the first
    character of the string looked for and [find] the rest of it. *)
Fixpoint strstr_loop (s : list Z) (c : Z) (find : list Z) (len : Z) (i : Z) : option Z :=
  match s with
  | [] => None
  | sc :: s =>
      if sc =? 0 then None
      else if negb (sc =? c) then strstr_loop s c find len (i + 1)
      else if negb (strncmp s find len =? 0) then strstr_loop s c find len (i + 1)
      else Some i
  end.
Definition strstr (s find : list Z) : option Z :=
  let c := first find in
  let find := tail find in
  if negb (c =? 0) then strstr_loop s c find (strlen find) 0 else Some 0.

(** ** Copying *)

(** [for (; *to = *from; ++from, ++to)] from index [i] of [dst]. *)
Fixpoint strcpy_loop (dst : list Z) (i : Z) (from : list Z) : list Z :=
  match from with
  | [] => splice dst i [0]
  | c :: from =>
      let dst := splice dst i [c] in
      if c =? 0 then dst else strcpy_loop dst (i + 1) from
  end.
Definition strcpy (dst from : list Z) : list Z := strcpy_loop dst 0 from.
Definition strcat (s append : list Z) : list Z := strcpy_loop s (strlen s) append.

(** strncat() from [d], with [n] characters to go, then the final [*d = 0]. *)
Fixpoint strncat_loop (n : nat) (dst : list Z) (d : Z) (src : list Z) : list Z :=
  match n with
  | O => splice dst d [0]
  | S n =>
      let dst := splice dst d [first src] in
      if first src =? 0 then splice dst d [0] else strncat_loop n dst (d + 1) (tail src)
  end.
Definition strncat (dst src : list Z) (n : Z) : list Z :=
  if negb (n =? 0) then strncat_loop (Z.to_nat n) dst (strlen dst) src else dst.

Fixpoint pad_loop (n : nat) (dst : list Z) (d : Z) : list Z :=
  match n with
  | O => dst
  | S n => pad_loop n (splice dst d [0]) (d + 1)
  end.
Fixpoint strncpy_loop (n : nat) (dst : list Z) (d : Z) (src : list Z) : list Z :=
  match n with
  | O => dst
  | S n =>
      let dst := splice dst d [first src] in
      if first src =? 0 then pad_loop n dst (d + 1) else strncpy_loop n dst (d + 1) (tail src)
  end.
Definition strncpy (dst src : list Z) (n : Z) : list Z := strncpy_loop (Z.to_nat n) dst 0 src.

(** memccpy(): the pointer past the byte found, and the destination. *)
Fixpoint memccpy_loop (n : nat) (t f : list Z) (uc : Z) (i : Z) : option Z * list Z :=
  match n with
  | O => (None, t)
  | S n =>
      let t := splice t i [byte f i] in
      if byte f i =? uc then (Some (i + 1), t) else memccpy_loop n t f uc (i + 1)
  end.
Definition memccpy (t f : list Z) (c n : Z) : option Z * list Z :=
  memccpy_loop (Z.to_nat n) t f (u8 c) 0.

(** ** Tokens

    [mem] is the array that holds the string; a pointer is an index into it. *)

Definition at_ptr (mem : list Z) (s : Z) : list Z := drop (Z.to_nat s) mem.

(** The scan for the end of a token that strtok() and strsep() share: [s] is
    the first character to look at; the result is [mem] with the delimiter
    overwritten, and where the next token may start. *)
Definition end_token (mem : list Z) (s : Z) (delim : list Z) : list Z * option Z :=
  let s := s + strcspn (at_ptr mem s) delim in
  if byte mem s =? 0 then (mem, None) else (splice mem s [0], Some (s + 1)).

(** strtok(): the token, the array, and the static variable [last]. *)
Definition strtok (mem : list Z) (last : option Z) (s : option Z) (delim : list Z)
    : option Z * list Z * option Z :=
  match (match s with Some _ => s | None => last end) with
  | None => (None, mem, None)
  | Some s =>
      let s := s + strspn (at_ptr mem s) delim in
      if byte mem s =? 0 then (None, mem, None)
      else
        let tok := s in
        let '(mem, last) := end_token mem (s + 1) delim in
        (Some tok, mem, last)
  end.

(** strsep(): the token, the array, and the new [*stringp]. *)
Definition strsep (mem : list Z) (stringp : option Z) (delim : list Z)
    : option Z * list Z * option Z :=
  match stringp with
  | None => (None, mem, None)
  | Some s => let '(mem, next) := end_token mem s delim in (Some s, mem, next)
  end.

(** The loop that a caller of strtok() writes:
    [for (p = strtok(s, delim); p; p = strtok(NULL, delim))]. *)
Fixpoint strtok_all (fuel : nat) (mem : list Z) (last s : option Z) (delim : list Z)
    : option (list Z * list Z) :=
  match fuel with
  | O => None
  | S fuel =>
      match strtok mem last s delim with
      | (None, mem, _) => Some ([], mem)
      | (Some tok, mem, last) =>
          '(toks, mem) ← strtok_all fuel mem last None delim;
          Some (tok :: toks, mem)
      end
  end.
