(* ===== verification/LibstringSpec.v ===== *)
(** * Searching and tokens: what the string routines of the C library compute *)

From S2P Require Import Prelude Bytes Kstring KstringSpec Libstring.

Lemma cstr_first s : cstr s = if first s =? 0 then [] else first s :: cstr (tail s).
Proof. destruct s as [|c s]; [done|]. unfold first, byte. simpl. done. Qed.

Lemma strlen_length s : strlen s = zlen (cstr s).
Proof.
  induction s as [|c s IH]; simpl; [done|]. destruct (_ =? _); [done|]. rewrite IH. unfold zlen. simpl. lia.
Qed.

(** ** strstr() *)

Lemma strncmp_loop_zero n : ∀ s1 s2,
  strncmp_loop n s1 s2 = 0 ↔ take n (cstr s1) = take n (cstr s2).
Proof.
  induction n as [|n IH]; intros s1 s2; simpl; [done|].
  rewrite (cstr_first s1), (cstr_first s2).
  destruct (Z.eqb_spec (first s1) (first s2)) as [E|E]; cbn [negb].
  - rewrite <- E. destruct (Z.eqb_spec (first s1) 0); [done|]. cbn [take]. rewrite IH. split; congruence.
  - destruct (Z.eqb_spec (first s1) 0), (Z.eqb_spec (first s2) 0); cbn [take];
      split; intros; try congruence; try lia.
Qed.

Lemma take_prefix {A} (f u : list A) : take (length f) u = f ↔ f `prefix_of` u.
Proof.
  split; [intros <-; apply prefix_take|]. intros [k ->]. apply take_app_length.
Qed.

Lemma strncmp_prefix s find :
  strncmp s find (strlen find) = 0 ↔ cstr find `prefix_of` cstr s.
Proof.
  unfold strncmp. rewrite strncmp_loop_zero, strlen_length. unfold zlen. rewrite Nat2Z.id.
  rewrite (take_ge (cstr find)) by lia. apply take_prefix.
Qed.

Lemma strstr_loop_first c find : ∀ s i,
  c ≠ 0 →
  match strstr_loop s c find (strlen find) i with
  | Some k => ∃ n, k = i + Z.of_nat n ∧ (c :: cstr find) `prefix_of` drop n (cstr s) ∧
      ∀ j, (j < n)%nat → ¬ (c :: cstr find) `prefix_of` drop j (cstr s)
  | None => ∀ j, ¬ (c :: cstr find) `prefix_of` drop j (cstr s)
  end.
Proof.
  induction s as [|sc s IH]; intros i Hc; simpl.
  { intros j. rewrite drop_nil. by intros ?%prefix_nil_inv. }
  destruct (Z.eqb_spec sc 0) as [->|Hsc].
  { intros j. rewrite drop_nil. by intros ?%prefix_nil_inv. }
  assert (∀ b : bool, b = bool_decide ((c :: cstr find) `prefix_of` sc :: cstr s) →
    match (if b then Some i else strstr_loop s c find (strlen find) (i + 1)) with
    | Some k => ∃ n, k = i + Z.of_nat n ∧ (c :: cstr find) `prefix_of` drop n (sc :: cstr s) ∧
        ∀ j, (j < n)%nat → ¬ (c :: cstr find) `prefix_of` drop j (sc :: cstr s)
    | None => ∀ j, ¬ (c :: cstr find) `prefix_of` drop j (sc :: cstr s)
    end) as Hstep.
  { intros b ->. case_bool_decide as Hp.
    - exists O. split_and!; [lia|done|lia].
    - specialize (IH (i + 1) Hc). destruct (strstr_loop _ _ _ _ _) as [k|].
      + destruct IH as (n & -> & H1 & H2). exists (S n). split_and!; [lia|done|].
        intros [|j] Hj; [done|]. apply H2. lia.
      + intros [|j]; [done|]. apply IH. }
  destruct (Z.eqb_spec sc c) as [->|Hne]; cbn [negb].
  - destruct (Z.eqb_spec (strncmp s find (strlen find)) 0) as [E|E]; cbn [negb].
    + apply (Hstep true). symmetry. apply bool_decide_eq_true_2. apply prefix_cons, strncmp_prefix, E.
    + apply (Hstep false). symmetry. apply bool_decide_eq_false_2. intros H%prefix_cons_inv_2.
      by apply E, strncmp_prefix.
  - apply (Hstep false). symmetry. apply bool_decide_eq_false_2. intros H%prefix_cons_inv_1. congruence.
Qed.

(** strstr() returns the first place where the string looked for occurs, and
    NULL exactly when it occurs nowhere. *)
Theorem strstr_first s find :
  match strstr s find with
  | Some i => 0 ≤ i ∧ cstr find `prefix_of` drop (Z.to_nat i) (cstr s) ∧
      ∀ j, (j < Z.to_nat i)%nat → ¬ cstr find `prefix_of` drop j (cstr s)
  | None => ∀ j, ¬ cstr find `prefix_of` drop j (cstr s)
  end.
Proof.
  unfold strstr. rewrite (cstr_first find). destruct (Z.eqb_spec (first find) 0) as [E|E]; cbn [negb].
  - split_and!; [done|apply prefix_nil|]. simpl. lia.
  - pose proof (strstr_loop_first (first find) (tail find) s 0 E) as H.
    destruct (strstr_loop _ _ _ _ _) as [k|]; [|done].
    destruct H as (n & -> & H1 & H2). rewrite Z.add_0_l, Nat2Z.id. split_and!; [lia|done|done].
Qed.

(** ** strtok() *)

(** The pieces of [s] between the characters that satisfy [d]. *)
Fixpoint fields (d : Z → bool) (s : list Z) : list (list Z) :=
  match s with
  | [] => [[]]
  | c :: s =>
      if d c then [] :: fields d s
      else match fields d s with f :: fs => (c :: f) :: fs | [] => [[c]] end
  end.
Definition words (d : Z → bool) (s : list Z) : list (list Z) := filter (λ f, f ≠ []) (fields d s).

Abbreviation all_delim d l := (Forall (λ c, d c = true) l).
Abbreviation no_delim d l := (Forall (λ c, d c = false) l).

Lemma words_skip d l s : all_delim d l → words d (l ++ s) = words d s.
Proof. unfold words. induction 1 as [|c l Hc _ IH]; simpl; [done|]. rewrite Hc. done. Qed.

Lemma fields_last d w : no_delim d w → fields d w = [w].
Proof. induction 1 as [|c w Hc _ IH]; simpl; [done|]. by rewrite Hc, IH. Qed.

Lemma fields_cut d w c s : no_delim d w → d c = true → fields d (w ++ c :: s) = w :: fields d s.
Proof. intros Hw Hc. induction Hw as [|x w Hx _ IH]; simpl; [by rewrite Hc|]. by rewrite Hx, IH. Qed.

Lemma words_cut d w c s :
  w ≠ [] → no_delim d w → d c = true → words d (w ++ c :: s) = w :: words d s.
Proof. intros. unfold words. rewrite fields_cut by done. by rewrite filter_cons_True. Qed.

Lemma words_last d w : w ≠ [] → no_delim d w → words d w = [w].
Proof. intros. unfold words. rewrite fields_last by done. by rewrite filter_cons_True. Qed.

Lemma in_span_zero s2 : in_span s2 0 = false.
Proof.
  induction s2 as [|sc s2 IH]; simpl; [done|].
  destruct (Z.eqb_spec sc 0) as [->|H]; [done|]. done.
Qed.

Lemma in_cspan_span s2 c : c ≠ 0 → in_cspan s2 c = in_span s2 c.
Proof.
  intros Hc. induction s2 as [|sc s2 IH]; simpl.
  - by destruct c.
  - destruct (Z.eqb_spec sc c) as [->|]; [by destruct (Z.eqb_spec c 0)|].
    by destruct (Z.eqb_spec sc 0).
Qed.

Lemma in_cspan_zero s2 : in_cspan s2 0 = true.
Proof. induction s2 as [|sc s2 IH]; simpl; [done|]. by destruct (Z.eqb_spec sc 0). Qed.

(** The characters strspn() and strcspn() pass over. *)
Lemma strspn_split s delim :
  ∃ l v, cstr s = l ++ v ∧ strspn s delim = zlen l ∧ all_delim (in_span delim) l ∧
    match v with c :: _ => in_span delim c = false | [] => True end.
Proof.
  induction s as [|c s (l & v & E & El & Hl & Hv)]; [by exists [], []|]. simpl.
  destruct (Z.eqb_spec c 0) as [->|Hc]; [rewrite in_span_zero; by exists [], []|].
  destruct (in_span delim c) eqn:Ec.
  - exists (c :: l), v. rewrite E, El. split_and!; [done| |by constructor|done]. unfold zlen. simpl. lia.
  - by exists [], (c :: cstr s).
Qed.

Lemma strcspn_split s delim :
  ∃ w v, cstr s = w ++ v ∧ strcspn s delim = zlen w ∧ no_delim (in_span delim) w ∧
    match v with c :: _ => in_span delim c = true | [] => True end.
Proof.
  induction s as [|c s (w & v & E & El & Hl & Hv)]; [by exists [], []|]. simpl.
  destruct (Z.eqb_spec c 0) as [->|Hc]; [rewrite in_cspan_zero; by exists [], []|].
  rewrite in_cspan_span by done. destruct (in_span delim c) eqn:Ec.
  - by exists [], (c :: cstr s).
  - exists (c :: w), v. rewrite E, El. split_and!; [done| |by constructor|done]. unfold zlen. simpl. lia.
Qed.

(** Moving along a string. *)
Lemma cstr_advance mem k a b :
  cstr (drop k mem) = a ++ b →
  cstr (drop (k + length a) mem) = b ∧
  byte mem (Z.of_nat (k + length a)) = match b with c :: _ => c | [] => 0 end.
Proof.
  revert k. induction a as [|x a IH]; intros k E; simpl in *.
  - rewrite Nat.add_0_r. split; [done|].
    destruct (cstr_drop mem k) as [[H1 H2]|(H1 & _ & H2)]; rewrite E in H2; by rewrite H2.
  - destruct (cstr_drop mem k) as [[H1 H2]|(H1 & _ & H2)]; rewrite H2 in E; [done|].
    injection E as _ E. replace (k + S (length a))%nat with (S k + length a)%nat by lia. by apply IH.
Qed.

(** A token that is ended by a NUL, in a memory that agrees with [mem] up to it. *)
Lemma cstr_cut mem mem' k w e :
  w ≠ [] → (∀ c, c ∈ w → c ≠ 0) → take (length w) (drop k mem) = w → e = (k + length w)%nat →
  take (S e) mem' = take e mem ++ [0] → cstr (drop k mem') = w.
Proof.
  intros Hne Hw Ew -> Et.
  assert (length (take (k + length w) mem) = (k + length w)%nat) as Elen.
  { assert (length (take (length w) (drop k mem)) = length w) as El by (by rewrite Ew).
    rewrite length_take, length_drop in El. rewrite length_take.
    assert (length w ≠ O) by (by destruct w). lia. }
  assert (drop k mem' = drop k (take (S (k + length w)) mem') ++ drop (S (k + length w)) mem') as ->.
  { rewrite <- (take_drop (S (k + length w)) mem') at 1. rewrite drop_app_le; [done|].
    rewrite Et, length_app. simpl. lia. }
  rewrite Et, drop_app_le by lia. rewrite <- take_drop_commute, Ew, <- app_assoc. by apply cstr_app_zero.
Qed.

Lemma cstr_take s a b : cstr s = a ++ b → take (length a) s = a.
Proof.
  revert s. induction a as [|x a IH]; intros s E; simpl; [done|].
  destruct s as [|c s]; simpl in E; [done|]. destruct (_ =? _); [done|]. injection E as -> E.
  simpl. f_equal. by apply IH.
Qed.

(** One call of strtok(), on a string of which [u] is left. *)
Lemma strtok_step mem last s delim k :
  (match s with Some _ => s | None => last end) = Some (Z.of_nat k) →
  let d := in_span delim in
  match strtok mem last s delim with
  | (None, mem', _) => words d (cstr (drop k mem)) = [] ∧ mem' = mem
  | (Some tok, mem', last') =>
      ∃ i w, tok = Z.of_nat i ∧ (k ≤ i)%nat ∧ w ≠ [] ∧ (∀ c, c ∈ w → c ≠ 0) ∧
        take (length w) (drop i mem) = w ∧
        match last' with
        | None => mem' = mem ∧ cstr (drop i mem) = w ∧ words d (cstr (drop k mem)) = [w]
        | Some e => e = Z.of_nat (S (i + length w)) ∧ mem' = <[(i + length w)%nat := 0]> mem ∧
            (i + length w < length mem)%nat ∧
            words d (cstr (drop k mem)) = w :: words d (cstr (drop (S (i + length w)) mem)) ∧
            (length (cstr (drop (S (i + length w)) mem)) < length (cstr (drop k mem)))%nat
        end
  end.
Proof.
  intros Hs d. unfold strtok, end_token, at_ptr. rewrite Hs. cbv zeta. rewrite Nat2Z.id.
  destruct (strspn_split (drop k mem) delim) as (l & v & E & -> & Hl & Hv).
  replace (Z.of_nat k + zlen l) with (Z.of_nat (k + length l)) by (unfold zlen; lia).
  destruct (cstr_advance mem k l v E) as [Ev ->]. set (i := (k + length l)%nat) in *.
  rewrite E, words_skip by done. destruct v as [|c v]; [by split|].
  assert (c ≠ 0) as Hc. { apply (cstr_zero (drop i mem)). rewrite Ev. left. }
  rewrite (proj2 (Z.eqb_neq c 0) Hc).
  replace (Z.of_nat i + 1) with (Z.of_nat (i + length [c])) by (simpl; lia).
  destruct (cstr_advance mem i [c] v Ev) as [Ev1 _].
  rewrite Nat2Z.id.
  destruct (strcspn_split (drop (i + length [c]) mem) delim) as (w & v2 & E2 & -> & Hw & Hv2).
  rewrite Ev1 in E2. rewrite E2 in E, Ev |- *. clear v E2 Ev1. change (c :: w ++ v2) with ((c :: w) ++ v2) in *.
  replace (Z.of_nat (i + length [c]) + zlen w) with (Z.of_nat (i + length (c :: w)))
    by (unfold zlen; simpl; lia).
  destruct (cstr_advance mem i (c :: w) v2 Ev) as [Ev2 ->].
  assert (no_delim d (c :: w)) as Hcw by (by constructor).
  assert (∀ x, x ∈ c :: w → x ≠ 0) as Hz.
  { intros x Hx. apply (cstr_zero (drop i mem)). rewrite Ev. apply elem_of_app. by left. }
  destruct v2 as [|c2 v2]; cbn match.
  - exists i, (c :: w). rewrite app_nil_r in *. split_and!; try done; [lia|apply (cstr_take _ _ []); by rewrite app_nil_r|by apply words_last].
  - assert (c2 ≠ 0) as Hc2. { apply (cstr_zero (drop i mem)). rewrite Ev. list_in. }
    rewrite (proj2 (Z.eqb_neq c2 0) Hc2).
    assert (i + length (c :: w) < length mem)%nat as Hlt.
    { destruct (decide (i + length (c :: w) < length mem)%nat) as [|Hge]; [done|].
      rewrite drop_ge in Ev2 by lia. done. }
    destruct (cstr_advance mem (i + length (c :: w)) [c2] v2 Ev2) as [Ev3 _].
    replace (i + length (c :: w) + length [c2])%nat with (S (i + length (c :: w))) in Ev3 by (simpl; lia).
    exists i, (c :: w). rewrite Ev3. split_and!; try done; try lia.
    + by eapply cstr_take, Ev.
    + unfold splice. rewrite Nat2Z.id. rewrite insert_take_drop by done. f_equal. simpl. do 2 f_equal. lia.
    + by apply words_cut.
    + rewrite !length_app. simpl. lia.
Qed.

Lemma strtok_all_ok delim : ∀ fuel mem last s k,
  (match s with Some _ => s | None => last end) = Some (Z.of_nat k) →
  (length (cstr (drop k mem)) < fuel)%nat →
  ∃ toks mem', strtok_all fuel mem last s delim = Some (toks, mem') ∧
    map (λ t, cstr (at_ptr mem' t)) toks = words (in_span delim) (cstr (drop k mem)) ∧
    take k mem' = take k mem.
Proof.
  induction fuel as [|fuel IH]; intros mem last s k Hs Hfuel; [lia|]. simpl.
  pose proof (strtok_step mem last s delim k Hs) as Hstep. cbv zeta in Hstep.
  destruct (strtok mem last s delim) as [[[tok|] mem1] last1].
  2: { destruct Hstep as [-> ->]. by exists [], mem. }
  destruct Hstep as (i & w & -> & Hi & Hne & Hz & Hw & Hlast). destruct last1 as [e|].
  - destruct Hlast as (-> & -> & Hlt & Hwords & Hlen).
    set (e := (i + length w)%nat) in *.
    destruct (IH (<[e:=0]> mem) (Some (Z.of_nat (S e))) None (S e)) as (toks & mem' & -> & Hmap & Htake);
      [done|rewrite drop_insert_lt by lia; lia|].
    rewrite drop_insert_lt in Hmap by lia. simpl.
    exists (Z.of_nat i :: toks), mem'. split; [done|]. simpl. rewrite Hmap, Hwords.
    assert (take (S e) mem' = take e mem ++ [0]) as Et.
    { rewrite Htake. rewrite insert_take_drop by done. rewrite cons_middle, app_assoc.
      rewrite take_app_le by (rewrite length_app, length_take; simpl; lia).
      apply take_ge. rewrite length_app, length_take. simpl. lia. }
    split.
    + f_equal. unfold at_ptr. rewrite Nat2Z.id. by eapply (cstr_cut mem mem' i w e).
    + apply (f_equal (take k)) in Et. rewrite take_take in Et.
      replace (k `min` S e)%nat with k in Et by lia. rewrite Et, take_app_le by (rewrite length_take; lia).
      rewrite take_take. f_equal. lia.
  - destruct Hlast as (-> & Hc & Hwords). destruct fuel as [|fuel]; [|].
    { destruct (cstr (drop k mem)) as [|x u] eqn:E; [done|]. simpl in Hfuel. lia. }
    simpl. exists [Z.of_nat i], mem. split; [done|]. simpl. unfold at_ptr. by rewrite Nat2Z.id, Hc, Hwords.
Qed.

(** The usual loop over strtok() ends, and the tokens it has returned, read
    when it is over, are exactly the non-empty pieces of the string between
    delimiters, in order. *)
Theorem strtok_tokens mem delim :
  ∃ toks mem', strtok_all (S (length mem)) mem None (Some 0) delim = Some (toks, mem') ∧
    map (λ t, cstr (at_ptr mem' t)) toks = words (in_span delim) (cstr mem).
Proof.
  destruct (strtok_all_ok delim (S (length mem)) mem None (Some 0) 0) as (toks & mem' & E & H & _).
  - done.
  - rewrite drop_0. clear. induction mem as [|c mem IH]; simpl; [lia|]. destruct (_ =? _); simpl; lia.
  - exists toks, mem'. rewrite drop_0 in H. done.
Qed.
