(* ===== verification/Libmem.v ===== *)
(** * Copying memory (lib/string/bcopy.c)

    The routine behind bcopy(), memcpy() and memmove() of the C library.
    Memory is a function from addresses to bytes; a word is four bytes that
    are loaded together and then stored together. *)

From S2P Require Import Prelude Bytes.

Definition wsize : Z := 4.
Definition wmask : Z := wsize - 1.

Definition memory := Z → Z.

(** [*(word * )dst = *(word * )src]; the 68000 takes an address error on an odd address. *)
Definition copy_word (dst src : Z) (m : memory) : option memory :=
  let w := [m src; m (src + 1); m (src + 2); m (src + 3)] in
  if Z.odd dst || Z.odd src then None else
  Some (λ a, if (dst <=? a) && (a <? dst + 4) then byte w (a - dst) else m a).

(** [t] times [*dst++ = *src++], and the same with words *)
Fixpoint bytes_up (t : nat) (dst src : Z) (m : memory) : memory :=
  match t with
  | O => m
  | S t => bytes_up t (dst + 1) (src + 1) (upd m dst (m src))
  end.
Fixpoint words_up (t : nat) (dst src : Z) (m : memory) : option memory :=
  match t with
  | O => Some m
  | S t => m ← copy_word dst src m; words_up t (dst + wsize) (src + wsize) m
  end.

(** [t] times [*--dst = *--src] and the same with words *)
Fixpoint bytes_down (t : nat) (dst src : Z) (m : memory) : memory :=
  match t with
  | O => m
  | S t => bytes_down t (dst - 1) (src - 1) (upd m (dst - 1) (m (src - 1)))
  end.
Fixpoint words_down (t : nat) (dst src : Z) (m : memory) : option memory :=
  match t with
  | O => Some m
  | S t =>
      m ← copy_word (dst - wsize) (src - wsize) m;
      words_down t (dst - wsize) (src - wsize) m
  end.

Definition copy_forward (dst src length : Z) (m : memory) : option memory :=
  let t :=
    if negb (Z.land (Z.lor src dst) wmask =? 0) then
      if negb (Z.land (Z.lxor src dst) wmask =? 0) || (length <? wsize) then length
      else wsize - Z.land src wmask
    else 0 in
  let m := bytes_up (Z.to_nat t) dst src m in
  let '(dst, src, length) := (dst + t, src + t, length - t) in
  let t := length / wsize in
  m ← words_up (Z.to_nat t) dst src m;
  let '(dst, src) := (dst + t * wsize, src + t * wsize) in
  Some (bytes_up (Z.to_nat (Z.land length wmask)) dst src m).

Definition copy_backward (dst src length : Z) (m : memory) : option memory :=
  let src := src + length in
  let dst := dst + length in
  let t :=
    if negb (Z.land (Z.lor src dst) wmask =? 0) then
      if negb (Z.land (Z.lxor src dst) wmask =? 0) || (length <=? wsize) then length
      else Z.land src wmask
    else 0 in
  let m := bytes_down (Z.to_nat t) dst src m in
  let '(dst, src, length) := (dst - t, src - t, length - t) in
  let t := length / wsize in
  m ← words_down (Z.to_nat t) dst src m;
  let '(dst, src) := (dst - t * wsize, src - t * wsize) in
  Some (bytes_down (Z.to_nat (Z.land length wmask)) dst src m).

Definition bcopy (src0 dst0 length : Z) (m : memory) : option memory :=
  if (length =? 0) || (dst0 =? src0) then Some m
  else if dst0 <? src0 then copy_forward dst0 src0 length m
  else copy_backward dst0 src0 length m.

(** ** Correctness

    [moved]: the bytes of the source as they were before the copy. *)
Definition moved (dst src n : Z) (m : memory) : memory :=
  λ a, if (dst <=? a) && (a <? dst + n) then m (a - dst + src) else m a.

Lemma moved_in dst src n m a : dst ≤ a < dst + n → moved dst src n m a = m (a - dst + src).
Proof. intros. unfold moved. by destruct (Z.leb_spec dst a), (Z.ltb_spec a (dst + n)); try lia. Qed.
Lemma moved_out dst src n m a : ¬ (dst ≤ a < dst + n) → moved dst src n m a = m a.
Proof. intros. unfold moved. by destruct (Z.leb_spec dst a), (Z.ltb_spec a (dst + n)); try lia. Qed.

Ltac moved_at a dst n :=
  destruct (decide (dst ≤ a < dst + n)); [rewrite (moved_in dst) by lia|rewrite (moved_out dst) by lia].

Lemma moved_0 dst src m a : moved dst src 0 m a = m a.
Proof. apply moved_out. lia. Qed.

Lemma moved_ext dst src n m m' : (∀ a, m a = m' a) → ∀ a, moved dst src n m a = moved dst src n m' a.
Proof. intros H a. unfold moved. by rewrite !H. Qed.

(** Moving [k] bytes and then the next [n], upwards and downwards. *)
Lemma moved_up dst src k n m a :
  dst ≤ src → 0 ≤ k → 0 ≤ n →
  moved (dst + k) (src + k) n (moved dst src k m) a = moved dst src (k + n) m a.
Proof.
  intros. moved_at a (dst + k) n.
  - rewrite moved_out, moved_in by lia. f_equal. lia.
  - moved_at a dst k; [rewrite moved_in by lia|rewrite moved_out by lia]; done.
Qed.

Lemma moved_down dst src k n m a :
  src ≤ dst → 0 ≤ k → 0 ≤ n →
  moved dst src n (moved (dst + n) (src + n) k m) a = moved dst src (n + k) m a.
Proof.
  intros. moved_at a dst n.
  - rewrite moved_out, moved_in by lia. done.
  - moved_at a (dst + n) k; [rewrite moved_in by lia|rewrite moved_out by lia]; [|done]. f_equal. lia.
Qed.

Lemma copy_word_moved dst src m :
  Z.even dst = true → Z.even src = true →
  ∃ m', copy_word dst src m = Some m' ∧ ∀ a, m' a = moved dst src 4 m a.
Proof.
  intros Hd Hs. unfold copy_word. rewrite <- !Z.negb_even, Hd, Hs. simpl.
  eexists. split; [done|]. intros a. unfold moved. cbv beta.
  destruct (Z.leb_spec dst a), (Z.ltb_spec a (dst + 4)); simpl; try done.
  assert (a = dst ∨ a = dst + 1 ∨ a = dst + 2 ∨ a = dst + 3) as Ha by lia.
  destruct Ha as [-> | [-> | [-> | ->]]]; unfold byte;
    [replace (dst - dst) with 0 by lia|replace (dst + 1 - dst) with 1 by lia
    |replace (dst + 2 - dst) with 2 by lia|replace (dst + 3 - dst) with 3 by lia]; simpl; f_equal; lia.
Qed.

Lemma upd_moved dst src m a : upd m dst (m src) a = moved dst src 1 m a.
Proof.
  destruct (decide (a = dst)) as [->|].
  - rewrite upd_eq, moved_in by lia. f_equal. lia.
  - by rewrite upd_ne, moved_out by lia.
Qed.

Lemma bytes_up_moved t : ∀ dst src m a,
  dst ≤ src → bytes_up t dst src m a = moved dst src (Z.of_nat t) m a.
Proof.
  induction t as [|t IH]; intros dst src m a Hle; simpl bytes_up; [by rewrite moved_0|].
  rewrite IH by lia. rewrite (moved_ext _ _ _ _ _ (upd_moved dst src m)), moved_up by lia. f_equal. lia.
Qed.

Lemma even_step x : Z.even x = true → Z.even (x + wsize) = true ∧ Z.even (x - wsize) = true.
Proof. unfold wsize. rewrite Z.even_add, Z.even_sub. by intros ->. Qed.

Lemma words_up_moved t : ∀ dst src m,
  dst ≤ src → t = O ∨ (Z.even dst = true ∧ Z.even src = true) →
  ∃ m', words_up t dst src m = Some m' ∧ ∀ a, m' a = moved dst src (wsize * Z.of_nat t) m a.
Proof.
  induction t as [|t IH]; intros dst src m Hle Hal; simpl words_up.
  { exists m. split; [done|]. intros. by rewrite moved_0. }
  destruct Hal as [?|[Hd Hs]]; [done|]. destruct (copy_word_moved dst src m Hd Hs) as (m1 & -> & H1).
  simpl. destruct (IH (dst + wsize) (src + wsize) m1) as (m' & -> & H2);
    [lia|right; split; by apply even_step|].
  exists m'. split; [done|]. intros a. rewrite H2, (moved_ext _ _ _ _ _ H1). unfold wsize.
  rewrite moved_up by lia. f_equal. lia.
Qed.

Lemma bytes_down_moved t : ∀ dst src m a,
  src ≤ dst → bytes_down t dst src m a = moved (dst - Z.of_nat t) (src - Z.of_nat t) (Z.of_nat t) m a.
Proof.
  induction t as [|t IH]; intros dst src m a Hle; simpl bytes_down; [by rewrite moved_0|].
  rewrite IH by lia. rewrite (moved_ext _ _ _ _ _ (upd_moved (dst - 1) (src - 1) m)).
  replace (dst - 1) with (dst - 1 - Z.of_nat t + Z.of_nat t) at 2 by lia.
  replace (src - 1) with (src - 1 - Z.of_nat t + Z.of_nat t) at 2 by lia.
  rewrite moved_down by lia. f_equal; lia.
Qed.

Lemma words_down_moved t : ∀ dst src m,
  src ≤ dst → t = O ∨ (Z.even dst = true ∧ Z.even src = true) →
  ∃ m', words_down t dst src m = Some m' ∧
    ∀ a, m' a = moved (dst - wsize * Z.of_nat t) (src - wsize * Z.of_nat t) (wsize * Z.of_nat t) m a.
Proof.
  induction t as [|t IH]; intros dst src m Hle Hal; simpl words_down.
  { exists m. split; [done|]. intros. by rewrite moved_0. }
  destruct Hal as [?|[Hd Hs]]; [done|]. destruct (even_step _ Hd) as [_ Hd'], (even_step _ Hs) as [_ Hs'].
  destruct (copy_word_moved _ _ m Hd' Hs') as (m1 & -> & H1).
  simpl. destruct (IH (dst - wsize) (src - wsize) m1) as (m' & -> & H2); [lia|by right|].
  exists m'. split; [done|]. intros a. rewrite H2, (moved_ext _ _ _ _ _ H1). unfold wsize.
  replace (dst - 4) with (dst - 4 - 4 * Z.of_nat t + 4 * Z.of_nat t) at 2 by lia.
  replace (src - 4) with (src - 4 - 4 * Z.of_nat t + 4 * Z.of_nat t) at 2 by lia.
  rewrite moved_down by lia. f_equal; lia.
Qed.

(** The alignment tests on the low bits of the addresses. *)
Lemma land_wmask x : Z.land x wmask = x mod 4.
Proof. change wmask with (Z.ones 2). by rewrite Z.land_ones. Qed.

Lemma lor_aligned s d : Z.land (Z.lor s d) wmask = 0 ↔ s mod 4 = 0 ∧ d mod 4 = 0.
Proof. by rewrite Z.land_lor_distr_l, Z.lor_eq_0_iff, !land_wmask. Qed.

Lemma lxor_aligned s d : Z.land (Z.lxor s d) wmask = 0 ↔ s mod 4 = d mod 4.
Proof.
  assert (Z.land (Z.lxor s d) wmask = Z.lxor (s mod 4) (d mod 4)) as ->.
  { rewrite <- !land_wmask. apply Z.bits_inj'. intros n Hn. rewrite !Z.lxor_spec, !Z.land_spec, Z.lxor_spec.
    by destruct (Z.testbit s n), (Z.testbit d n), (Z.testbit wmask n). }
  split; [apply Z.lxor_eq|intros ->; apply Z.lxor_nilpotent].
Qed.

Lemma even_mod4 x : x mod 4 = 0 → Z.even x = true.
Proof. intros H. rewrite (Z.div_mod x 4), H, Z.add_0_r by lia. by rewrite Z.even_mul. Qed.

(** The number of bytes copied one by one before the words, in both
    directions: afterwards either both addresses are aligned or less than a
    word is left. *)
Lemma head_forward s d n (t : Z) :
  0 < n →
  t = (if negb (Z.land (Z.lor s d) wmask =? 0) then
         if negb (Z.land (Z.lxor s d) wmask =? 0) || (n <? wsize) then n else wsize - Z.land s wmask
       else 0) →
  0 ≤ t ≤ n ∧ ((n - t) / wsize = 0 ∨ ((s + t) mod 4 = 0 ∧ (d + t) mod 4 = 0)).
Proof.
  intros Hn ->. rewrite (land_wmask s). unfold wsize.
  pose proof (Z.mod_pos_bound s 4 ltac:(lia)). pose proof (Z.div_mod s 4 ltac:(lia)).
  pose proof (Z.div_mod d 4 ltac:(lia)).
  destruct (Z.eqb_spec (Z.land (Z.lor s d) wmask) 0) as [E|E]; cbn [negb].
  { apply lor_aligned in E. rewrite !Z.add_0_r. split; [lia|]. by right. }
  destruct (Z.eqb_spec (Z.land (Z.lxor s d) wmask) 0) as [E'|E']; cbn [negb orb].
  2: { rewrite Z.sub_diag. split; [lia|]. by left. }
  apply lxor_aligned in E'. destruct (Z.ltb_spec n 4).
  { rewrite Z.sub_diag. split; [lia|]. by left. }
  split; [lia|]. right. split; apply Z.mod_divide; try lia.
  - exists (s / 4 + 1). lia.
  - exists (d / 4 + 1). lia.
Qed.

Lemma head_backward s d n (t : Z) :
  0 < n →
  t = (if negb (Z.land (Z.lor s d) wmask =? 0) then
         if negb (Z.land (Z.lxor s d) wmask =? 0) || (n <=? wsize) then n else Z.land s wmask
       else 0) →
  0 ≤ t ≤ n ∧ ((n - t) / wsize = 0 ∨ ((s - t) mod 4 = 0 ∧ (d - t) mod 4 = 0)).
Proof.
  intros Hn ->. rewrite (land_wmask s). unfold wsize.
  pose proof (Z.mod_pos_bound s 4 ltac:(lia)). pose proof (Z.div_mod s 4 ltac:(lia)).
  pose proof (Z.div_mod d 4 ltac:(lia)).
  destruct (Z.eqb_spec (Z.land (Z.lor s d) wmask) 0) as [E|E]; cbn [negb].
  { apply lor_aligned in E. rewrite !Z.sub_0_r. split; [lia|]. by right. }
  destruct (Z.eqb_spec (Z.land (Z.lxor s d) wmask) 0) as [E'|E']; cbn [negb orb].
  2: { rewrite Z.sub_diag. split; [lia|]. by left. }
  apply lxor_aligned in E'. destruct (Z.leb_spec n 4).
  { rewrite Z.sub_diag. split; [lia|]. by left. }
  split; [lia|]. right. split; apply Z.mod_divide; try lia.
  - exists (s / 4). lia.
  - exists (d / 4). lia.
Qed.

Lemma aligned_or_none q s d :
  q = 0 ∨ (s mod 4 = 0 ∧ d mod 4 = 0) → Z.to_nat q = O ∨ (Z.even d = true ∧ Z.even s = true).
Proof. intros [->|[? ?]]; [by left|right]. split; by apply even_mod4. Qed.

Lemma copy_forward_moved dst src n m :
  0 < n → dst ≤ src → ∃ m', copy_forward dst src n m = Some m' ∧ ∀ a, m' a = moved dst src n m a.
Proof.
  intros Hn Hle. unfold copy_forward. set (t := if negb _ then _ else _).
  destruct (head_forward src dst n t Hn eq_refl) as (Ht & Hal). cbv zeta.
  set (q := (n - t) / wsize) in *. assert (0 ≤ q) by (unfold q; apply Z.div_pos; unfold wsize; lia).
  destruct (words_up_moved (Z.to_nat q) (dst + t) (src + t) (bytes_up (Z.to_nat t) dst src m))
    as (m1 & -> & H1); [lia|by apply aligned_or_none|].
  simpl. eexists. split; [done|]. intros a. rewrite land_wmask.
  pose proof (Z.mod_pos_bound (n - t) 4 ltac:(lia)).
  assert (n - t = 4 * q + (n - t) mod 4) as Eq by (unfold q, wsize; apply Z.div_mod; lia).
  rewrite bytes_up_moved by (unfold wsize; lia). rewrite (moved_ext _ _ _ _ _ H1).
  rewrite (moved_ext _ _ _ _ (moved (dst + t) (src + t) (wsize * q) (moved dst src t m))).
  2: { intros x. rewrite Z2Nat.id by lia. apply moved_ext. intros y. rewrite bytes_up_moved by lia.
       by rewrite Z2Nat.id by lia. }
  unfold wsize in *. rewrite Z2Nat.id by lia. rewrite (Z.mul_comm q 4).
  rewrite moved_up, moved_up by lia. f_equal. lia.
Qed.

Lemma copy_backward_moved dst src n m :
  0 < n → src ≤ dst → ∃ m', copy_backward dst src n m = Some m' ∧ ∀ a, m' a = moved dst src n m a.
Proof.
  intros Hn Hle. unfold copy_backward. cbv zeta. set (t := if negb _ then _ else _).
  destruct (head_backward (src + n) (dst + n) n t Hn eq_refl) as (Ht & Hal). cbv zeta.
  set (q := (n - t) / wsize) in *. assert (0 ≤ q) by (unfold q; apply Z.div_pos; unfold wsize; lia).
  destruct (words_down_moved (Z.to_nat q) (dst + n - t) (src + n - t)
    (bytes_down (Z.to_nat t) (dst + n) (src + n) m)) as (m1 & -> & H1); [lia|by apply aligned_or_none|].
  simpl. eexists. split; [done|]. intros a. rewrite land_wmask.
  pose proof (Z.mod_pos_bound (n - t) 4 ltac:(lia)).
  assert (n - t = 4 * q + (n - t) mod 4) as Eq by (unfold q, wsize; apply Z.div_mod; lia).
  set (r := (n - t) mod 4) in *.
  rewrite bytes_down_moved by (unfold wsize; lia). rewrite (moved_ext _ _ _ _ _ H1).
  rewrite (moved_ext _ _ _ _ (moved (dst + r) (src + r) (4 * q) (moved (dst + r + 4 * q) (src + r + 4 * q) t m))).
  2: { intros x. unfold wsize. rewrite !Z2Nat.id by lia.
       replace (dst + n - t - 4 * q) with (dst + r) by lia.
       replace (src + n - t - 4 * q) with (src + r) by lia.
       apply moved_ext. intros y. rewrite bytes_down_moved by lia. rewrite !Z2Nat.id by lia. f_equal; lia. }
  unfold wsize. rewrite Z2Nat.id by lia.
  replace (dst + n - t - q * 4 - r) with dst by lia. replace (src + n - t - q * 4 - r) with src by lia.
  rewrite (moved_ext _ _ _ _ (moved (dst + r) (src + r) (4 * q + t) m)) by (intros; apply moved_down; lia).
  rewrite moved_down by lia. f_equal. lia.
Qed.

Lemma bcopy_ok src0 dst0 length m :
  0 ≤ length →
  ∃ m', bcopy src0 dst0 length m = Some m' ∧
    (∀ i, 0 ≤ i < length → m' (dst0 + i) = m (src0 + i)) ∧
    ∀ a, ¬ (dst0 ≤ a < dst0 + length) → m' a = m a.
Proof.
  intros Hn.
  assert (∃ m', bcopy src0 dst0 length m = Some m' ∧ ∀ a, m' a = moved dst0 src0 length m a)
    as (m' & E & H).
  { unfold bcopy. destruct (Z.eqb_spec length 0) as [->|]; simpl.
    { exists m. split; [done|]. intros. by rewrite moved_0. }
    destruct (Z.eqb_spec dst0 src0) as [->|].
    { exists m. split; [done|]. intros a. unfold moved. case_match; [f_equal; lia|done]. }
    destruct (Z.ltb_spec dst0 src0); [apply copy_forward_moved|apply copy_backward_moved]; lia. }
  exists m'. split; [done|]. split; intros; rewrite H.
  - rewrite moved_in by lia. f_equal. lia.
  - by rewrite moved_out.
Qed.

(** C29.  bcopy() (and memcpy() and memmove(), which are the same code) copies
    [length] bytes for every overlap and every alignment of the two areas:
    afterwards the destination holds what the source held before and no other
    byte has changed, and no word was accessed at an odd address. *)
Theorem bcopy_moves src0 dst0 length m :
  0 ≤ length →
  ∃ m', bcopy src0 dst0 length m = Some m' ∧
    (∀ i, 0 ≤ i < length → m' (dst0 + i) = m (src0 + i)) ∧
    ∀ a, ¬ (dst0 ≤ a < dst0 + length) → m' a = m a.
Proof. apply bcopy_ok. Qed.

Lemma bcopy_moves_witness :
  ∃ m', bcopy 102 109 17 (λ a, a mod 256) = Some m' ∧ m' 120 = 113 ∧ m' 108 = 108.
Proof.
  destruct (bcopy_moves 102 109 17 (λ a, a mod 256)) as (m' & E & H1 & H2); [lia|].
  exists m'. split; [exact E|]. split.
  - change 120 with (109 + 11). rewrite (H1 11) by lia. reflexivity.
  - rewrite H2 by lia. reflexivity.
Defined.
