(* ===== verification/Libmalloc.v ===== *)
(** * The allocator of the C library (lib/stdlib/malloc.c)

    The heap is the memory of the process, a function from addresses to bytes,
    with the three static pointers of the allocator.  Pointers are 32-bit
    unsigned integers.  [NextSlot] and [NextFree] read and write the words that
    link the slots.  Whether brk() grants a new break is the decision of the
    kernel and a parameter. *)

From S2P Require Import Prelude Bytes Libmem.

(** ** Words in memory *)

Definition ldp (m : memory) (a : Z) : Z :=
  be_dec [m a; m (a + 1); m (a + 2); m (a + 3)].
Definition stp (m : memory) (a v : Z) : memory := λ x,
  if (a <=? x) && (x <? a + 4) then byte (be_enc 4 v) (x - a) else m x.

Record heap := mkHeap {
  h_mem : memory;
  h_bottom : Z;
  h_top : Z;
  h_empty : Z;
  h_brk : Z;
}.

Definition with_mem (m : memory) (h : heap) : heap :=
  mkHeap m (h_bottom h) (h_top h) (h_empty h) (h_brk h).

Definition BRKSIZE : Z := 1024.
Definition PTRSIZE : Z := 4.
Definition Align (x a : Z) : Z := Z.land (u32 (x + (a - 1))) (u32 (Z.lnot (a - 1))).

Definition NextSlot (p : Z) : M heap Z := gets (λ h, ldp (h_mem h) (p - PTRSIZE)).
Definition NextFree (p : Z) : M heap Z := gets (λ h, ldp (h_mem h) p).
Definition set_NextSlot (p v : Z) : M heap unit := modify (λ h, with_mem (stp (h_mem h) (p - PTRSIZE) v) h).
Definition set_NextFree (p v : Z) : M heap unit := modify (λ h, with_mem (stp (h_mem h) p v) h).
Definition set_empty (p : Z) : M heap unit :=
  modify (λ h, mkHeap (h_mem h) (h_bottom h) (h_top h) p (h_brk h)).
Definition set_top (p : Z) : M heap unit :=
  modify (λ h, mkHeap (h_mem h) (h_bottom h) p (h_empty h) (h_brk h)).
Definition set_bottom (p : Z) : M heap unit :=
  modify (λ h, mkHeap (h_mem h) p (h_top h) (h_empty h) (h_brk h)).

(** A failed assertion ends the program. *)
Definition ASSERT (b : bool) : M heap unit :=
  if b then ret tt else panic "assert failed in lib/malloc.c".

(** An upper bound of the number of slots, for the walks of the free list. *)
Definition max_slots : M heap nat := gets (λ h, Z.to_nat ((h_top h - h_bottom h) / (2 * PTRSIZE)) + 1)%nat.

(** ** free() *)

(** The loop of free(): the free slots before and after [p]. *)
Definition free_place (p : Z) : M heap (Z * Z) :=
  let* n := max_slots in
  let* e := gets h_empty in
  loop n (λ '(prev, next),
    if next =? 0 then ret (inr (prev, next)) else
    if p <? next then ret (inr (prev, next)) else
    let* nf := NextFree next in
    ret (inl (next, nf))) (0, e).

(** "merge p and next", "merge prev and p" *)
Definition merge_next (p next : Z) : M heap unit :=
  let* np := NextSlot p in
  ASSERT (np <=? next) ;;
  if np =? next then
    let* nn := NextSlot next in
    set_NextSlot p nn ;;
    let* nf := NextFree next in
    set_NextFree p nf
  else ret tt.

Definition free (p : Z) : M heap unit :=
  let* np := NextSlot p in
  ASSERT (np >? p) ;;
  let* pn := free_place p in
  let '(prev, next) := pn in
  set_NextFree p next ;;
  (if prev =? 0 then set_empty p else set_NextFree prev p) ;;
  (if next =? 0 then ret tt else merge_next p next) ;;
  (if prev =? 0 then ret tt else merge_next prev p).

Section break.
(** Whether brk() grants the break [p]. *)
Variable grant : Z → bool.

(** brk() returns 0 on success; sbrk() returns the old break, or -1. *)
Definition brk (p : Z) : M heap Z := λ h,
  if grant p then Ret 0 (mkHeap (h_mem h) (h_bottom h) (h_top h) (h_empty h) p) else Ret (-1) h.
Definition sbrk (n : Z) : M heap Z := λ h,
  if grant (h_brk h + n)
  then Ret (h_brk h) (mkHeap (h_mem h) (h_bottom h) (h_top h) (h_empty h) (h_brk h + n)) else Ret (-1) h.

(** ** malloc() *)

Definition grow (len : Z) : M heap Z :=
  let* top := gets h_top in
  let* nt := NextSlot top in
  ASSERT (nt =? 0) ;;
  let p := Align (u32 (top + len)) BRKSIZE in
  if p <? top then ret 0 else
  let* r := brk p in
  if negb (r =? 0) then ret 0 else
  set_NextSlot top p ;;
  set_NextSlot p 0 ;;
  free top ;;
  set_top p ;;
  ret 1.

(** [if (_bottom == 0)]: the first slot.  [false] means return(0). *)
Definition first_slot : M heap bool :=
  let* b := gets h_bottom in
  if negb (b =? 0) then ret true else
  let* p := sbrk (2 * PTRSIZE) in
  if p =? -1 then ret false else
  let p := Align p PTRSIZE in
  ASSERT (u32 (p + PTRSIZE) >? p) ;;
  let p := u32 (p + PTRSIZE) in
  set_bottom p ;;
  set_top p ;;
  set_NextSlot p 0 ;;
  ret true.

(** What malloc() does with a free slot [p] that is big enough. *)
Definition take_slot (prev p new next : Z) : M heap unit :=
  (if u32 (new + PTRSIZE) <? next then
     ASSERT (u32 (new + PTRSIZE) >? new) ;;
     set_NextSlot new next ;;
     set_NextSlot p new ;;
     let* nf := NextFree p in
     set_NextFree new nf ;;
     set_NextFree p new
   else ret tt) ;;
  let* nf := NextFree p in
  if negb (prev =? 0) then set_NextFree prev nf else set_empty nf.

(** The loop over the free list: the slot taken, or 0. *)
Definition find_slot (len : Z) : M heap Z :=
  let* n := max_slots in
  let* e := gets h_empty in
  loop n (λ '(prev, p),
    if p =? 0 then ret (inr 0) else
    let* next := NextSlot p in
    let new := u32 (p + len) in
    if (new >? next) || (new <=? p) then
      let* nf := NextFree p in
      ret (inl (p, nf))
    else
      take_slot prev p new next ;;
      ret (inr p)) (0, e).

(** [ntries] more tries are left. *)
Fixpoint malloc_try (ntries : nat) (size : Z) : M heap Z :=
  match ntries with
  | O => ASSERT false ;; ret 0
  | S ntries =>
      let len := u32 (Align size PTRSIZE + PTRSIZE) in
      if len <? 2 * PTRSIZE then ret 0 else
      let* b := first_slot in
      if negb b then ret 0 else
      let* p := find_slot len in
      if negb (p =? 0) then ret p else
      let* g := grow len in
      if g =? 0 then ret 0 else malloc_try ntries size
  end.

Definition malloc (size : Z) : M heap Z :=
  malloc_try 2 (if size =? 0 then PTRSIZE else size).

(** [for (p = cp; n-- != 0;) *p++ = 0;] *)
Fixpoint clear (n : nat) (p : Z) (m : memory) : memory :=
  match n with
  | O => m
  | S n => clear n (p + 1) (upd m p 0)
  end.

Definition calloc (n size : Z) : M heap Z :=
  let n := u32 (n * size) in
  let* cp := malloc n in
  if cp =? 0 then ret 0 else
  modify (λ h, with_mem (clear (Z.to_nat n) cp (h_mem h)) h) ;;
  ret cp.

(** ** realloc() *)

(** The loop that takes the slot [next], if it is free, off the free list and
    adds it to [old]; it returns the end of [old]. *)
Definition extend_round (old next : Z) (r : Z * Z) : M heap (Z * Z + Z) :=
  let '(prev, p) := r in
  if p =? 0 then ret (inr next) else
  if p >? next then ret (inr next) else
  if p =? next then
    let* np := NextSlot p in
    set_NextSlot old np ;;
    let* nf := NextFree p in
    (if negb (prev =? 0) then set_NextFree prev nf else set_empty nf) ;;
    let* next := NextSlot old in
    ret (inr next)
  else
    let* nf := NextFree p in
    ret (inl (p, nf)).

Definition extend_slot (old next : Z) : M heap Z :=
  let* n := max_slots in
  let* e := gets h_empty in
  loop n (extend_round old next) (0, e).

Definition realloc (old size : Z) : M heap Z :=
  if size >? 4294967296 - 2 * PTRSIZE then ret 0 else
  let len := u32 (Align size PTRSIZE + PTRSIZE) in
  let* next0 := NextSlot old in
  let n := u32 (next0 - old) in
  let* next := extend_slot old next0 in
  let new := u32 (old + len) in
  if (new <=? next) && (new >=? old) then
    (if u32 (new + PTRSIZE) <? next then
       ASSERT (u32 (new + PTRSIZE) >? new) ;;
       set_NextSlot new next ;;
       set_NextSlot old new ;;
       free new
     else ret tt) ;;
    ret old
  else
    let* new := malloc size in
    if new =? 0 then ret 0 else
    let* m := gets h_mem in
    match bcopy old new n m with
    | None => fault "address error in memcpy"
    | Some m' =>
        modify (with_mem m') ;;
        free old ;;
        ret new
    end.
End break.
