(* ===== verification/LibmallocSpec.v ===== *)
(** * The heap as a list of slots

    The slots of the heap follow each other in memory from [_bottom] to [_top];
    each has its address, the address of the next slot and whether it is free.
    [geo] describes the list, [wf] says that the words in memory link it, and
    that the free slots are on the free list in the order of their addresses. *)

From S2P Require Import Prelude Bytes Libmem Libmalloc.

(** ** Words in memory *)

Lemma stp_out m a v x : x < a ∨ a + 4 ≤ x → stp m a v x = m x.
Proof. unfold stp. intros Hx. destruct (Z.leb_spec a x), (Z.ltb_spec x (a + 4)); simpl; done || lia. Qed.

Lemma ldp_stp m a v : 0 ≤ v < 4294967296 → ldp (stp m a v) a = v.
Proof.
  intros Hv.
  assert (∀ i, 0 ≤ i < 4 → stp m a v (a + i) = byte (be_enc 4 v) i) as Hb.
  { intros i Hi. unfold stp. destruct (Z.leb_spec a (a + i)), (Z.ltb_spec (a + i) (a + 4)); try lia. simpl.
    f_equal. lia. }
  unfold ldp. rewrite !Hb by lia. pose proof (Hb 0 ltac:(lia)) as H0. rewrite Z.add_0_r in H0. rewrite H0.
  change (be_dec (be_enc 4 v) = v). rewrite be_dec_enc. by apply Z.mod_small.
Qed.

Lemma ldp_stp_ne m a b v : a mod 4 = 0 → b mod 4 = 0 → a ≠ b → ldp (stp m a v) b = ldp m b.
Proof.
  intros Ha Hb Hne. pose proof (Z.div_mod a 4 ltac:(lia)). pose proof (Z.div_mod b 4 ltac:(lia)).
  unfold ldp. rewrite !stp_out by lia. done.
Qed.

(** ** Slots *)

Record cell := Cell { c_addr : Z; c_next : Z; c_free : bool }.
#[global] Instance cell_eq_dec : EqDecision cell.
Proof. solve_decision. Defined.

Fixpoint geo (l : list cell) (a b : Z) : Prop :=
  match l with
  | [] => a = b
  | c :: l => c_addr c = a ∧ a + 8 ≤ c_next c ∧ c_next c mod 4 = 0 ∧ geo l (c_next c) b
  end.

Lemma geo_app l1 l2 a b : geo (l1 ++ l2) a b ↔ ∃ m, geo l1 a m ∧ geo l2 m b.
Proof.
  revert a. induction l1 as [|c l1 IH]; intros a; simpl; [naive_solver|].
  rewrite IH. naive_solver.
Qed.

Lemma geo_mid l1 c l2 a b :
  geo (l1 ++ c :: l2) a b ↔
  geo l1 a (c_addr c) ∧ c_addr c + 8 ≤ c_next c ∧ c_next c mod 4 = 0 ∧ geo l2 (c_next c) b.
Proof. rewrite geo_app. simpl. naive_solver. Qed.

Lemma geo_le l a b : geo l a b → a ≤ b.
Proof. revert a. induction l as [|c l IH]; intros a; simpl; [lia|]. intros (_ & ? & _ & ?%IH). lia. Qed.

(** Linear arithmetic with remainders. *)
Ltac mlia := Z.to_euclidean_division_equations; lia.

Lemma geo_aligned l a b : geo l a b → a mod 4 = 0 → b mod 4 = 0.
Proof. revert a. induction l as [|c l IH]; intros a; simpl; [by intros ->|]. intros (_ & _ & ? & ?%IH); done. Qed.

Lemma geo_in l a b c : geo l a b → a mod 4 = 0 → c ∈ l →
  a ≤ c_addr c ∧ c_addr c + 8 ≤ c_next c ∧ c_next c ≤ b ∧ c_addr c mod 4 = 0 ∧ c_next c mod 4 = 0.
Proof.
  intros Hg Ha (l1 & l2 & ->)%list_elem_of_split. apply geo_mid in Hg as (H1 & H2 & H3 & H4).
  pose proof (geo_le _ _ _ H1). pose proof (geo_le _ _ _ H4). pose proof (geo_aligned _ _ _ H1 Ha).
  split_and!; done || lia.
Qed.

Lemma geo_sep l a b c d : geo l a b → a mod 4 = 0 → c ∈ l → d ∈ l →
  c = d ∨ c_next c ≤ c_addr d ∨ c_next d ≤ c_addr c.
Proof.
  intros Hg Ha (l1 & l2 & ->)%list_elem_of_split Hd. apply geo_mid in Hg as (H1 & H2 & H3 & H4).
  apply elem_of_app in Hd as [Hd|[->|Hd]%elem_of_cons]; [|by left|].
  - right. right. by apply (geo_in _ _ _ _ H1 Ha).
  - right. left. by apply (geo_in _ _ _ _ H4 H3).
Qed.

Lemma geo_length l a b : geo l a b → 8 * Z.of_nat (length l) ≤ b - a.
Proof. revert a. induction l as [|c l IH]; intros a; simpl; [lia|]. intros (_ & ? & _ & ?%IH). lia. Qed.

(** The free slots, and the areas in use. *)
Definition frees (l : list cell) : list Z := c_addr <$> filter (λ c, c_free c = true) l.
Definition used (l : list cell) : list (Z * Z) :=
  (λ c, (c_addr c, c_next c)) <$> filter (λ c, c_free c = false) l.

Lemma frees_app l1 l2 : frees (l1 ++ l2) = frees l1 ++ frees l2.
Proof. unfold frees. by rewrite filter_app, fmap_app. Qed.
Lemma used_app l1 l2 : used (l1 ++ l2) = used l1 ++ used l2.
Proof. unfold used. by rewrite filter_app, fmap_app. Qed.
Lemma frees_cons c l : frees (c :: l) = (if c_free c then [c_addr c] else []) ++ frees l.
Proof. unfold frees. rewrite filter_cons. destruct c as [? ? []]; done. Qed.
Lemma used_cons c l : used (c :: l) = (if c_free c then [] else [(c_addr c, c_next c)]) ++ used l.
Proof. unfold used. rewrite filter_cons. destruct c as [? ? []]; done. Qed.

Lemma elem_of_frees l x : x ∈ frees l ↔ ∃ c, c ∈ l ∧ c_free c = true ∧ c_addr c = x.
Proof. unfold frees. rewrite list_elem_of_fmap. setoid_rewrite list_elem_of_filter. naive_solver. Qed.
Lemma elem_of_used l x n : (x, n) ∈ used l ↔ Cell x n false ∈ l.
Proof.
  unfold used. rewrite list_elem_of_fmap. setoid_rewrite list_elem_of_filter. split.
  - intros ([] & ? & ? & ?). by simplify_eq/=.
  - intros. by exists (Cell x n false).
Qed.

Lemma length_frees l : (length (frees l) ≤ length l)%nat.
Proof. unfold frees. rewrite length_fmap. apply length_filter. Qed.

Lemma frees_in l a b x : geo l a b → a mod 4 = 0 → x ∈ frees l → a ≤ x ∧ x + 8 ≤ b ∧ x mod 4 = 0.
Proof. intros Hg Ha (c & Hc & _ & <-)%elem_of_frees. pose proof (geo_in _ _ _ _ Hg Ha Hc). lia. Qed.

Lemma NoDup_frees l a b : geo l a b → a mod 4 = 0 → NoDup (frees l).
Proof.
  revert a. induction l as [|c l IH]; intros a; [constructor|]. intros (<- & H2 & H3 & H4) Ha.
  rewrite frees_cons. destruct (c_free c); simpl; [|eauto]. constructor; [|eauto].
  intros Hin. pose proof (frees_in _ _ _ _ H4 H3 Hin). lia.
Qed.

(** ** The free list *)

Fixpoint fseg (m : memory) (f : list Z) (e z : Z) : Prop :=
  match f with
  | [] => e = z
  | x :: f => x = e ∧ fseg m f (ldp m x) z
  end.

Lemma fseg_app m f1 f2 e z : fseg m (f1 ++ f2) e z ↔ ∃ y, fseg m f1 e y ∧ fseg m f2 y z.
Proof. revert e. induction f1 as [|x f1 IH]; intros e; simpl; [naive_solver|]. rewrite IH. naive_solver. Qed.

Lemma fseg_frame m m' f e z : (∀ x, x ∈ f → ldp m' x = ldp m x) → fseg m f e z → fseg m' f e z.
Proof.
  revert e. induction f as [|x f IH]; intros e Hf; simpl; [done|]. intros [-> H]. split; [done|].
  rewrite Hf by by left. apply IH; [|done]. intros. apply Hf. by right.
Qed.

Lemma fseg_stp m f e z w v :
  w mod 4 = 0 → (∀ x, x ∈ f → x mod 4 = 0 ∧ x ≠ w) → fseg m f e z → fseg (stp m w v) f e z.
Proof. intros Hw Hf. apply fseg_frame. intros x Hx. destruct (Hf x Hx). by apply ldp_stp_ne. Qed.

(** [prev->next = x], or [_empty = x] when there is no [prev]. *)
Definition relink (m : memory) (e : Z) (f : list Z) (x : Z) : memory * Z :=
  match last f with None => (m, x) | Some y => (stp m y x, e) end.

Lemma fseg_relink m e f z x :
  fseg m f e z → NoDup f → (∀ y, y ∈ f → y mod 4 = 0) → 0 ≤ x < 4294967296 →
  let '(m', e') := relink m e f x in fseg m' f e' x.
Proof.
  intros Hs Hnd Ha Hx. unfold relink. destruct f as [|y f] using rev_ind; [done|].
  rewrite last_snoc. apply fseg_app in Hs as (u & H1 & [<- _]). apply fseg_app. exists y.
  apply NoDup_app in Hnd as (_ & Hni & _). split.
  - apply fseg_stp; [apply Ha; list_in| |done]. intros z' Hz'. split; [apply Ha; list_in|].
    intros ->. apply (Hni _ Hz'). by left.
  - simpl. split; [done|]. by rewrite ldp_stp.
Qed.

(** The ends of the parts of a free list. *)
Definition headd (f : list Z) : Z := default 0 (head f).
Definition lastd (f : list Z) : Z := default 0 (last f).

Lemma fseg_head m f e : fseg m f e 0 → e = headd f.
Proof. destruct f; simpl; [done|]. by intros [-> _]. Qed.

(** ** The heap *)

Record wf (m : memory) (e : Z) (l : list cell) (b t : Z) : Prop := {
  wf_geo : geo l b t;
  wf_low : 4 ≤ b ∧ b mod 4 = 0;
  wf_high : t < 2147483648;
  wf_slots : ∀ c, c ∈ l → ldp m (c_addr c - 4) = c_next c;
  wf_top : ldp m (t - 4) = 0;
  wf_free : fseg m (frees l) e 0;
}.

(** The bytes of the areas [u] are the same. *)
Definition keeps (u : list (Z * Z)) (m m' : memory) : Prop :=
  ∀ x n a, (x, n) ∈ u → x ≤ a < n - 4 → m' a = m a.

Lemma keeps_refl u m : keeps u m m.
Proof. done. Qed.
Lemma keeps_trans u m1 m2 m3 : keeps u m1 m2 → keeps u m2 m3 → keeps u m1 m3.
Proof. intros H1 H2 x n a Hu Ha. by rewrite (H2 x n), (H1 x n). Qed.
Lemma keeps_sub u u' m m' : u' ⊆ u → keeps u m m' → keeps u' m m'.
Proof. intros Hs H x n a Hu. apply H. by apply Hs. Qed.

(** The words of the allocator: the link in front of a slot, the link of a free slot. *)
Definition link_word (l : list cell) (t w : Z) : Prop :=
  w = t - 4 ∨ ∃ c, c ∈ l ∧ (w = c_addr c - 4 ∨ w = c_addr c ∧ c_free c = true).

Lemma keeps_stp l b t w m v :
  geo l b t → b mod 4 = 0 → link_word l t w → keeps (used l) m (stp m w v).
Proof.
  intros Hg Hb Hw x n a Hu%elem_of_used Ha. apply stp_out.
  destruct (geo_in _ _ _ _ Hg Hb Hu) as (_ & H1 & H2 & _). simpl in *.
  destruct Hw as [->|(c & Hc & Hw)]; [lia|].
  destruct (geo_in _ _ _ _ Hg Hb Hc) as (_ & H3 & _).
  destruct (geo_sep _ _ _ _ _ Hg Hb Hu Hc) as [<-|Hs]; simpl in *; [|lia].
  destruct Hw as [->|[_ ?]]; [lia|done].
Qed.

Lemma wf_sub l1 p n f l2 m e b t :
  wf m e (l1 ++ Cell p n f :: l2) b t →
  geo l1 b p ∧ p + 8 ≤ n ∧ n mod 4 = 0 ∧ p mod 4 = 0 ∧ geo l2 n t ∧ b ≤ p ∧ n ≤ t ∧ t mod 4 = 0 ∧
  ldp m (p - 4) = n.
Proof.
  intros [Hg [Hl Hb] Hh Hs _ _]. pose proof Hg as (H1 & H2 & H3 & H4)%geo_mid. simpl in *.
  pose proof (geo_le _ _ _ H1). pose proof (geo_le _ _ _ H4). pose proof (geo_aligned _ _ _ H1 Hb).
  pose proof (geo_aligned _ _ _ H4 H3). split_and!; try done. apply (Hs (Cell p n f)). list_in.
Qed.

(** A word that is neither the link in front of slot [c] nor a later one. *)
Lemma slot_word l b t c w m v :
  geo l b t → b mod 4 = 0 → c ∈ l → w mod 4 = 0 → w ≠ c_addr c - 4 →
  ldp (stp m w v) (c_addr c - 4) = ldp m (c_addr c - 4).
Proof.
  intros Hg Hb Hc Hw Hne. apply ldp_stp_ne; [done| |done].
  destruct (geo_in _ _ _ _ Hg Hb Hc) as (_ & _ & _ & ? & _). mlia.
Qed.

(** No slot's link is in the first word of a slot. *)
Lemma addr_not_link l b t c d :
  geo l b t → b mod 4 = 0 → c ∈ l → d ∈ l → c_addr d ≠ c_addr c - 4.
Proof.
  intros Hg Hb Hc Hd. pose proof (geo_in _ _ _ _ Hg Hb Hc). pose proof (geo_in _ _ _ _ Hg Hb Hd).
  destruct (geo_sep _ _ _ _ _ Hg Hb Hc Hd) as [->|]; lia.
Qed.

Lemma addr_inj l b t c d : geo l b t → b mod 4 = 0 → c ∈ l → d ∈ l → c_addr c = c_addr d → c = d.
Proof.
  intros Hg Hb Hc Hd. pose proof (geo_in _ _ _ _ Hg Hb Hc). pose proof (geo_in _ _ _ _ Hg Hb Hd).
  destruct (geo_sep _ _ _ _ _ Hg Hb Hc Hd) as [->|]; [done|lia].
Qed.

(** Writing the link of a free slot, or of one that becomes free, keeps the chain. *)
Lemma slots_stp_addr l b t m d v :
  geo l b t → b mod 4 = 0 → d ∈ l →
  (∀ c, c ∈ l → ldp m (c_addr c - 4) = c_next c) ∧ ldp m (t - 4) = 0 →
  (∀ c, c ∈ l → ldp (stp m (c_addr d) v) (c_addr c - 4) = c_next c) ∧ ldp (stp m (c_addr d) v) (t - 4) = 0.
Proof.
  intros Hg Hb Hd [Hs Ht]. destruct (geo_in _ _ _ _ Hg Hb Hd) as (_ & H1 & H2 & Ha & _).
  pose proof (geo_aligned _ _ _ Hg Hb). split.
  - intros c Hc. rewrite (slot_word l b t); auto. by apply (addr_not_link l b t).
  - rewrite ldp_stp_ne; [done|done|mlia|lia].
Qed.

Definition same_flags (l l' : list cell) : Prop :=
  (λ c, (c_addr c, c_next c)) <$> l = (λ c, (c_addr c, c_next c)) <$> l'.

Lemma geo_same l l' a b : same_flags l l' → geo l a b → geo l' a b.
Proof.
  unfold same_flags. revert l' a. induction l as [|c l IH]; intros [|c' l'] a E; simpl in *; try discriminate; [done|].
  injection E as E1 E2 E3. rewrite E1, E2. intros (? & ? & ? & ?). split_and!; auto.
Qed.

Lemma same_flags_in l l' c : same_flags l l' → c ∈ l' → ∃ d, d ∈ l ∧ c_addr d = c_addr c ∧ c_next d = c_next c.
Proof.
  unfold same_flags. intros E Hc. assert ((c_addr c, c_next c) ∈ (λ c, (c_addr c, c_next c)) <$> l) as Hin.
  { rewrite E. apply list_elem_of_fmap. by exists c. }
  apply list_elem_of_fmap in Hin as (d & Ed & Hd). exists d. by simplify_eq.
Qed.

(** A change of flags and of free links. *)
Lemma wf_reflag m e l b t m' e' l' :
  wf m e l b t → same_flags l l' →
  (∀ c, c ∈ l → ldp m' (c_addr c - 4) = c_next c) ∧ ldp m' (t - 4) = 0 →
  fseg m' (frees l') e' 0 → wf m' e' l' b t.
Proof.
  intros [Hg Hl Hh Hs Ht Hf] E [Hs' Ht'] Hf'. split; [by eapply geo_same|done|done| |done|done].
  intros c Hc. destruct (same_flags_in _ _ _ E Hc) as (d & Hd & <- & <-). auto.
Qed.

(** The last free slot of a list, as a slot. *)
Lemma last_free l y : last (frees l) = Some y → ∃ c, c ∈ l ∧ c_free c = true ∧ c_addr c = y.
Proof. intros H%last_Some_elem_of. by apply elem_of_frees. Qed.

(** Slot [p] is put on the free list. *)
Lemma wf_link m e l1 p n l2 b t :
  wf m e (l1 ++ Cell p n false :: l2) b t →
  let '(m', e') := relink (stp m p (headd (frees l2))) e (frees l1) p in
  wf m' e' (l1 ++ Cell p n true :: l2) b t ∧ keeps (used (l1 ++ l2)) m m'.
Proof.
  intros Hwf. destruct (wf_sub _ _ _ _ _ _ _ _ _ Hwf) as (G1 & Hn & Hn4 & Hp4 & G2 & Hbp & Hnt & Ht4 & _).
  pose proof Hwf as [Hg [Hl Hb] Hh Hs Ht Hf]. set (l := l1 ++ Cell p n false :: l2) in *.
  assert (Cell p n false ∈ l) as Hpl by (unfold l; list_in).
  assert (frees l = frees l1 ++ frees l2) as Efl by (unfold l; by rewrite frees_app, frees_cons).
  rewrite Efl in Hf. apply fseg_app in Hf as (y & F1 & F2).
  assert (∀ x, x ∈ frees l1 → x mod 4 = 0 ∧ x ≠ p) as A1.
  { intros x Hx. pose proof (frees_in _ _ _ _ G1 Hb Hx). lia. }
  assert (∀ x, x ∈ frees l2 → x mod 4 = 0 ∧ p < x < 4294967296) as A2.
  { intros x Hx. pose proof (frees_in _ _ _ _ G2 Hn4 Hx). lia. }
  set (m1 := stp m p (headd (frees l2))).
  assert (0 ≤ headd (frees l2) < 4294967296) as Hhd.
  { destruct (frees l2) as [|x f] eqn:E; [done|]. destruct (A2 x); [by left|]. unfold headd. simpl. lia. }
  assert (fseg m1 (frees l1) e y) as F1' by (apply fseg_stp; done).
  assert (fseg m1 (p :: frees l2) p 0) as F2'.
  { simpl. split; [done|]. unfold m1. rewrite ldp_stp by done. apply fseg_stp; [done| |].
    - intros x Hx. destruct (A2 x Hx). lia.
    - by rewrite <- (fseg_head _ _ _ F2). }
  assert ((∀ c, c ∈ l → ldp m1 (c_addr c - 4) = c_next c) ∧ ldp m1 (t - 4) = 0) as S1
    by (apply (slots_stp_addr l b t m (Cell p n false)); done).
  assert (same_flags l (l1 ++ Cell p n true :: l2)) as Esf by (unfold same_flags, l; by rewrite !fmap_app).
  assert (keeps (used (l1 ++ l2)) m m1) as K1.
  { intros x q a Hu Ha. unfold m1. apply stp_out. apply elem_of_used in Hu.
    assert (Cell x q false ∈ l) as Hx by (unfold l; apply elem_of_app in Hu as [?|?]; list_in).
    destruct (geo_sep _ _ _ _ _ Hg Hb Hpl Hx) as [E|E]; simpl in *; [|lia].
    injection E as <- <-. apply elem_of_app in Hu as [Hu|Hu].
    - pose proof (geo_in _ _ _ _ G1 Hb Hu). simpl in *. lia.
    - pose proof (geo_in _ _ _ _ G2 Hn4 Hu). simpl in *. lia. }
  pose proof (fseg_relink m1 e (frees l1) y p F1' (NoDup_frees _ _ _ G1 Hb) (λ x Hx, proj1 (A1 x Hx)) ltac:(lia)) as F3.
  unfold relink in *. destruct (last (frees l1)) as [z|] eqn:El.
  - destruct (last_free _ _ El) as (c & Hc & Hcf & <-).
    assert (c ∈ l) as Hcl by (unfold l; list_in). split.
    + eapply wf_reflag; [exact Hwf|done|by apply (slots_stp_addr l b t m1 c)|].
      rewrite frees_app, frees_cons. apply fseg_app. exists p. split; [exact F3|]. simpl.
      change (fseg (stp m1 (c_addr c) p) (p :: frees l2) p 0). pose proof (geo_in _ _ _ _ G1 Hb Hc).
      apply fseg_stp; [lia| |done]. intros x [->|Hx]%elem_of_cons; [lia|]. destruct (A2 x Hx). lia.
    + eapply keeps_trans; [exact K1|]. eapply keeps_sub; [|apply (keeps_stp l b t); [done|done|]].
      * unfold l. rewrite !used_app, used_cons. simpl. set_solver.
      * right. exists c. by split; [|right].
  - split; [|done]. eapply wf_reflag; [exact Hwf|done|exact S1|].
    rewrite frees_app, frees_cons. apply fseg_app. exists p. by split.
Qed.

Lemma headd_range l a t : geo l a t → a mod 4 = 0 → 0 ≤ a → t < 2147483648 → 0 ≤ headd (frees l) < 4294967296.
Proof.
  intros Hg Ha H0 Ht. unfold headd. destruct (frees l) as [|x f] eqn:E; simpl; [lia|].
  assert (x ∈ frees l) as Hx by (rewrite E; by left). pose proof (frees_in _ _ _ _ Hg Ha Hx). lia.
Qed.

Lemma used_mid_sub l1 c l2 : used (l1 ++ l2) ⊆ used (l1 ++ c :: l2).
Proof. rewrite !used_app, used_cons. set_solver. Qed.

(** Slot [p] is taken off the free list. *)
Lemma wf_unlink m e l1 p n l2 b t :
  wf m e (l1 ++ Cell p n true :: l2) b t →
  ldp m p = headd (frees l2) ∧
  let '(m', e') := relink m e (frees l1) (headd (frees l2)) in
  wf m' e' (l1 ++ Cell p n false :: l2) b t ∧ keeps (used (l1 ++ l2)) m m'.
Proof.
  intros Hwf. destruct (wf_sub _ _ _ _ _ _ _ _ _ Hwf) as (G1 & Hn & Hn4 & Hp4 & G2 & Hbp & Hnt & Ht4 & _).
  pose proof Hwf as [Hg [Hl Hb] Hh Hs Ht Hf]. set (l := l1 ++ Cell p n true :: l2) in *.
  assert (frees l = frees l1 ++ p :: frees l2) as Efl by (unfold l; by rewrite frees_app, frees_cons).
  rewrite Efl in Hf. apply fseg_app in Hf as (y & F1 & <- & F2). apply fseg_head in F2 as Hd.
  pose proof (headd_range _ _ _ G2 Hn4 ltac:(lia) Hh) as Hhd. split; [done|].
  pose proof (fseg_relink m e (frees l1) p (headd (frees l2)) F1 (NoDup_frees _ _ _ G1 Hb)
    (λ x Hx, proj2 (proj2 (frees_in _ _ _ _ G1 Hb Hx))) Hhd) as F3.
  assert (same_flags l (l1 ++ Cell p n false :: l2)) as Esf by (unfold same_flags, l; by rewrite !fmap_app).
  rewrite Hd in F2. unfold relink in *. destruct (last (frees l1)) as [z|] eqn:El.
  - destruct (last_free _ _ El) as (c & Hc & Hcf & <-).
    assert (c ∈ l) as Hcl by (unfold l; list_in). pose proof (geo_in _ _ _ _ G1 Hb Hc). split.
    + eapply wf_reflag; [exact Hwf|done|by apply (slots_stp_addr l b t m c)|].
      rewrite frees_app, frees_cons. apply fseg_app. exists (headd (frees l2)). split; [exact F3|].
      apply fseg_stp; [lia| |done]. intros x Hx. pose proof (frees_in _ _ _ _ G2 Hn4 Hx). lia.
    + eapply keeps_sub; [apply used_mid_sub|]. apply (keeps_stp l b t); [done|done|].
      right. exists c. by split; [|right].
  - split; [|done]. eapply wf_reflag; [exact Hwf|done|done|].
    rewrite frees_app, frees_cons. apply fseg_app. by exists (headd (frees l2)).
Qed.

Lemma ldp_ext m m' a : (∀ i, a ≤ i < a + 4 → m' i = m i) → ldp m' a = ldp m a.
Proof. intros H. unfold ldp. rewrite !H by lia. done. Qed.

(** The slots from [p] to [n] are replaced by others. *)
Lemma wf_replace m e l1 mid l2 b t m' mid' p n :
  wf m e (l1 ++ mid ++ l2) b t → geo l1 b p → geo mid' p n → geo l2 n t →
  (∀ a, a < p - 4 ∨ n - 4 ≤ a → m' a = m a) →
  (∀ c, c ∈ mid' → ldp m' (c_addr c - 4) = c_next c) →
  (∀ y z, fseg m (frees mid) y z → fseg m' (frees mid') y z) →
  wf m' e (l1 ++ mid' ++ l2) b t ∧ keeps (used l1 ++ used l2) m m'.
Proof.
  intros [Hg [Hl Hb] Hh Hs Ht Hf] G1 Gm G2 Hm Hmid Hfree.
  pose proof (geo_aligned _ _ _ G1 Hb) as Hp4. pose proof (geo_aligned _ _ _ Gm Hp4) as Hn4.
  pose proof (geo_le _ _ _ G1). pose proof (geo_le _ _ _ Gm). pose proof (geo_le _ _ _ G2).
  assert (∀ w, w + 4 ≤ p - 4 ∨ n - 4 ≤ w → ldp m' w = ldp m w) as Hw
    by (intros; apply ldp_ext; intros; apply Hm; lia).
  rewrite !frees_app in Hf. apply fseg_app in Hf as (y & F1 & (z & F2 & F3)%fseg_app). split.
  - split; try done.
    + apply geo_app. exists p. split; [done|]. apply geo_app. by exists n.
    + intros c Hc. destruct (decide (c ∈ mid')) as [|Hni]; [auto|].
      assert (c ∈ l1 ∨ c ∈ l2) as Hc' by (rewrite !elem_of_app in Hc; naive_solver).
      rewrite Hw, Hs; [done|list_in|].
      destruct Hc' as [Hc'|Hc'];
        [pose proof (geo_in _ _ _ _ G1 Hb Hc')|pose proof (geo_in _ _ _ _ G2 Hn4 Hc')]; lia.
    + rewrite Hw; [done|lia].
    + rewrite !frees_app. apply fseg_app. exists y. split.
      * eapply fseg_frame; [|exact F1]. intros x Hx. pose proof (frees_in _ _ _ _ G1 Hb Hx). apply Hw. lia.
      * apply fseg_app. exists z. split; [auto|]. eapply fseg_frame; [|exact F3].
        intros x Hx. pose proof (frees_in _ _ _ _ G2 Hn4 Hx). apply Hw. lia.
  - intros x q a Hu Ha. apply Hm. apply elem_of_app in Hu as [Hu%elem_of_used|Hu%elem_of_used];
      [pose proof (geo_in _ _ _ _ G1 Hb Hu)|pose proof (geo_in _ _ _ _ G2 Hn4 Hu)]; simpl in *; lia.
Qed.

(** Two free slots become one. *)
Lemma wf_merge m e l1 p n n2 l2 b t :
  wf m e (l1 ++ Cell p n true :: Cell n n2 true :: l2) b t →
  let m1 := stp m (p - 4) n2 in
  wf (stp m1 p (ldp m1 n)) e (l1 ++ Cell p n2 true :: l2) b t ∧
  keeps (used (l1 ++ l2)) m (stp m1 p (ldp m1 n)).
Proof.
  intros Hwf m1. destruct (wf_sub _ _ _ _ _ _ _ _ _ Hwf) as (G1 & Hn & Hn4 & Hp4 & G2 & Hbp & Hnt & Ht4 & _).
  destruct G2 as (_ & Hn2 & Hn24 & G2). simpl in *. pose proof (geo_le _ _ _ G2).
  pose proof (wf_low _ _ _ _ _ Hwf). pose proof (wf_high _ _ _ _ _ Hwf).
  assert (0 ≤ ldp m1 n < 4294967296 ∧ ldp m1 n = headd (frees l2)) as [Hf Ef].
  { assert (ldp m1 n = ldp m n) as -> by (apply ldp_stp_ne; mlia).
    replace (l1 ++ Cell p n true :: Cell n n2 true :: l2) with ((l1 ++ [Cell p n true]) ++ Cell n n2 true :: l2) in Hwf
      by (by rewrite <- app_assoc).
    destruct (wf_unlink _ _ _ _ _ _ _ _ Hwf) as [-> _]. split; [eapply headd_range; [exact G2|..]; lia|done]. }
  rewrite used_app.
  apply (wf_replace m e l1 [Cell p n true; Cell n n2 true] l2 b t _ [Cell p n2 true] p n2); try done.
  - simpl. split_and!; done || lia.
  - intros a Ha. rewrite stp_out by lia. apply stp_out. lia.
  - intros c ->%list_elem_of_singleton. simpl. rewrite ldp_stp_ne by mlia. apply ldp_stp. lia.
  - intros y z. simpl. intros (E1 & E2 & E3). split; [done|]. rewrite ldp_stp by done. rewrite <- E3. apply ldp_stp_ne; mlia.
Qed.

(** The end of a slot is cut off. *)
Lemma wf_split m e l1 p n f l2 b t new :
  wf m e (l1 ++ Cell p n f :: l2) b t → new mod 4 = 0 → p + 8 ≤ new → new + 8 ≤ n →
  let m' := stp (stp m (new - 4) n) (p - 4) new in
  wf m' e (l1 ++ Cell p new f :: Cell new n false :: l2) b t ∧ keeps ((p, new) :: used (l1 ++ l2)) m m'.
Proof.
  intros Hwf Hnew H1 H2 m'. destruct (wf_sub _ _ _ _ _ _ _ _ _ Hwf) as (G1 & Hn & Hn4 & Hp4 & G2 & Hbp & Hnt & Ht4 & _).
  pose proof (wf_low _ _ _ _ _ Hwf). pose proof (wf_high _ _ _ _ _ Hwf). rewrite used_app.
  destruct (wf_replace m e l1 [Cell p n f] l2 b t m' [Cell p new f; Cell new n false] p n) as [Hwf' Hk]; try done.
  - intros a Ha. unfold m'. rewrite stp_out by lia. apply stp_out. lia.
  - intros c [-> | ->%list_elem_of_singleton]%elem_of_cons; simpl; unfold m'.
    + apply ldp_stp. lia.
    + rewrite ldp_stp_ne by mlia. apply ldp_stp. lia.
  - intros y z. rewrite !frees_cons. destruct f; simpl; [|done]. intros (E1 & E2). split; [done|].
    unfold m'. rewrite !ldp_stp_ne by mlia. done.
  - split; [done|]. intros x q a [[= -> ->]|Hu]%elem_of_cons Ha; [|by apply (Hk x q)].
    unfold m'. rewrite stp_out by lia. apply stp_out. lia.
Qed.

(** Two slots in use become one. *)
Lemma wf_join m e l1 p n n2 l2 b t :
  wf m e (l1 ++ Cell p n false :: Cell n n2 false :: l2) b t →
  let m' := stp m (p - 4) n2 in
  wf m' e (l1 ++ Cell p n2 false :: l2) b t ∧ keeps ((p, n) :: used (l1 ++ l2)) m m'.
Proof.
  intros Hwf m'. destruct (wf_sub _ _ _ _ _ _ _ _ _ Hwf) as (G1 & Hn & Hn4 & Hp4 & G2 & Hbp & Hnt & Ht4 & _).
  destruct G2 as (_ & Hn2 & Hn24 & G2). simpl in *. pose proof (geo_le _ _ _ G2).
  pose proof (wf_low _ _ _ _ _ Hwf). pose proof (wf_high _ _ _ _ _ Hwf). rewrite used_app.
  destruct (wf_replace m e l1 [Cell p n false; Cell n n2 false] l2 b t m' [Cell p n2 false] p n2) as [Hwf' Hk]; try done.
  - simpl. split_and!; done || lia.
  - intros a Ha. apply stp_out. lia.
  - intros c ->%list_elem_of_singleton. simpl. apply ldp_stp. lia.
  - split; [done|]. intros x q a [[= -> ->]|Hu]%elem_of_cons Ha; [|by apply (Hk x q)]. apply stp_out. lia.
Qed.

(** A new slot at the top. *)
Lemma wf_grow m e l b t q :
  wf m e l b t → q mod 4 = 0 → t + 8 ≤ q < 2147483648 →
  let m' := stp (stp m (t - 4) q) (q - 4) 0 in
  wf m' e (l ++ [Cell t q false]) b q ∧ keeps (used l) m m'.
Proof.
  intros [Hg [Hl Hb] Hh Hs Ht Hf] Hq Htq m'. pose proof (geo_aligned _ _ _ Hg Hb) as Ht4.
  pose proof (geo_le _ _ _ Hg). split; [split|].
  - apply geo_app. exists t. split; [done|]. simpl. split_and!; done || lia.
  - done.
  - lia.
  - intros c [Hc | ->%list_elem_of_singleton]%elem_of_app; simpl; unfold m'.
    + pose proof (geo_in _ _ _ _ Hg Hb Hc). rewrite !ldp_stp_ne by mlia. auto.
    + rewrite ldp_stp_ne by mlia. apply ldp_stp. lia.
  - unfold m'. apply ldp_stp. lia.
  - rewrite frees_app. simpl. rewrite app_nil_r. eapply fseg_frame; [|exact Hf].
    intros x Hx. pose proof (frees_in _ _ _ _ Hg Hb Hx). unfold m'. rewrite !ldp_stp_ne by mlia. done.
  - intros x n a Hu%elem_of_used Ha. pose proof (geo_in _ _ _ _ Hg Hb Hu). simpl in *.
    unfold m'. rewrite !stp_out by lia. done.
Qed.
