(* ===== verification/LibmallocProps.v ===== *)
(** * malloc(), free() and realloc() on the list of slots *)

From S2P Require Import Prelude Bytes Libmem Libmalloc LibmallocSpec.

(** ** No two free slots are neighbours *)

(** [f]: the slot before the list is free. *)
Fixpoint coal (f : bool) (l : list cell) : Prop :=
  match l with
  | [] => True
  | c :: l => f && c_free c = false ∧ coal (c_free c) l
  end.

Definition last_flag (l : list cell) : bool := default false (c_free <$> last l).

Lemma coal_app f l1 l2 : coal f (l1 ++ l2) ↔ coal f l1 ∧ coal (default f (c_free <$> last l1)) l2.
Proof.
  revert f. induction l1 as [|c l1 IH]; intros f; simpl; [naive_solver|]. rewrite IH.
  assert (default (c_free c) (c_free <$> last l1) = default f (c_free <$> last (c :: l1))) as ->; [|naive_solver].
  destruct l1 as [|d l1] using rev_ind; [done|]. by rewrite app_comm_cons, !last_snoc.
Qed.

Lemma coal_mid l1 c l2 : coal false (l1 ++ c :: l2) ↔
  coal false l1 ∧ last_flag l1 && c_free c = false ∧ coal (c_free c) l2.
Proof. by rewrite coal_app. Qed.

Lemma coal_weaken f l : coal f l → coal false l.
Proof. destruct l; simpl; [done|]. naive_solver. Qed.

(** ** free() *)

Definition with_links (m : memory) (e : Z) (h : heap) : heap :=
  mkHeap m (h_bottom h) (h_top h) e (h_brk h).

Lemma wp_assert b h (Q : unit → heap → Prop) : b = true → Q tt h → wp (ASSERT b) h Q.
Proof. by intros ->. Qed.

Lemma free_place_ok h f1 f2 p :
  fseg (h_mem h) (f1 ++ f2) (h_empty h) 0 → (∀ x, x ∈ f1 → 0 < x ≤ p) → (∀ x, x ∈ f2 → 0 < x ∧ p < x) →
  (length f1 ≤ Z.to_nat ((h_top h - h_bottom h) / 8))%nat →
  wp (free_place p) h (λ r h', h' = h ∧ r = (lastd f1, headd f2)).
Proof.
  intros Hs H1 H2 Hlen. unfold free_place. apply wp_bind, wp_gets, wp_bind, wp_gets.
  change (lastd f1) with (default 0 (last f1)).
  change (2 * PTRSIZE) with 8. assert (length f1 < Z.to_nat ((h_top h - h_bottom h) / 8) + 1)%nat as Hn by lia.
  revert Hn. generalize (Z.to_nat ((h_top h - h_bottom h) / 8) + 1)%nat. clear Hlen.
  revert Hs. generalize (h_empty h). generalize 0 at 3 4 as prev.
  induction f1 as [|x f1 IH]; intros prev e Hs n Hn; (destruct n as [|n]; [simpl in Hn; lia|]); cbn [loop].
  - apply fseg_head in Hs. simpl in Hs. subst e. destruct f2 as [|y f2].
    + apply wp_bind, wp_ret. by apply wp_ret.
    + destruct (H2 y) as [Hy Hpy]; [by left|]. change (headd (y :: f2)) with y.
      rewrite (proj2 (Z.eqb_neq y 0)), (proj2 (Z.ltb_lt p y)) by lia. apply wp_bind, wp_ret. by apply wp_ret.
  - destruct Hs as [-> Hs]. destruct (H1 e) as [He Hep]; [by left|].
    rewrite (proj2 (Z.eqb_neq e 0)), (proj2 (Z.ltb_ge p e)) by lia.
    apply wp_bind, wp_bind, wp_gets, wp_ret. eapply wp_mono.
    + apply IH; [intros; apply H1; by right|exact Hs|simpl in Hn; lia].
    + intros r h' [-> ->]. split; [done|]. f_equal. destruct f1 as [|y f1] using rev_ind; [done|].
      by rewrite app_comm_cons, !last_snoc.
Qed.

(** [prev->next = x], or [_empty = x] *)
Lemma wp_relink h f x (Q : unit → heap → Prop) :
  (∀ y, y ∈ f → y ≠ 0) →
  (let '(m', e') := relink (h_mem h) (h_empty h) f x in Q tt (with_links m' e' h)) →
  wp (if lastd f =? 0 then set_empty x else set_NextFree (lastd f) x) h Q.
Proof.
  intros Hnz. unfold relink, lastd. destruct (last f) as [y|] eqn:E; simpl; [|done].
  rewrite (proj2 (Z.eqb_neq y 0)); [done|]. apply Hnz. by apply last_Some_elem_of.
Qed.

(** A slot merged with the one that follows it, if that is free. *)
Lemma merge_next_ok h l1 p n l2 b t :
  wf (h_mem h) (h_empty h) (l1 ++ Cell p n true :: l2) b t → coal false l2 →
  wp (if headd (frees l2) =? 0 then ret tt else merge_next p (headd (frees l2))) h (λ _ h', ∃ m' n' l2',
    h' = with_links m' (h_empty h) h ∧ wf m' (h_empty h) (l1 ++ Cell p n' true :: l2') b t ∧
    n ≤ n' ∧ used l2' = used l2 ∧ coal true l2' ∧ keeps (used (l1 ++ l2)) (h_mem h) m').
Proof.
  intros Hwf Hc. destruct (wf_sub _ _ _ _ _ _ _ _ _ Hwf) as (G1 & Hn & Hn4 & Hp4 & G2 & Hbp & Hnt & Ht4 & Hnp).
  destruct (wf_low _ _ _ _ _ Hwf) as [Hlo Hb4].
  assert (with_links (h_mem h) (h_empty h) h = h) as Eh by (by destruct h).
  assert (coal true l2 → ∃ m' n' l2', h = with_links m' (h_empty h) h ∧
    wf m' (h_empty h) (l1 ++ Cell p n' true :: l2') b t ∧ n ≤ n' ∧ used l2' = used l2 ∧ coal true l2' ∧
    keeps (used (l1 ++ l2)) (h_mem h) m') as Hsame.
  { intros Hct. exists (h_mem h), n, l2. by rewrite Eh. }
  destruct l2 as [|[x n2 f] l2].
  { simpl. apply wp_ret. by apply Hsame. }
  destruct G2 as (Ex & Hn2 & Hn24 & G2). simpl in Ex, Hn2, Hn24, G2. subst x. destruct f.
  - rewrite frees_cons. simpl. change (headd (n :: frees l2)) with n. rewrite (proj2 (Z.eqb_neq n 0)) by lia.
    unfold merge_next. apply wp_bind, wp_gets. change (p - PTRSIZE) with (p - 4). rewrite Hnp.
    apply wp_bind, wp_assert; [apply Z.leb_refl|]. rewrite Z.eqb_refl.
    apply wp_bind, wp_gets. change (n - PTRSIZE) with (n - 4).
    assert (ldp (h_mem h) (n - 4) = n2) as -> by (apply (wf_slots _ _ _ _ _ Hwf (Cell n n2 true)); list_in).
    apply wp_bind, wp_modify, wp_bind, wp_gets. apply wp_modify. change (p - PTRSIZE) with (p - 4). simpl.
    destruct (wf_merge _ _ _ _ _ _ _ _ _ Hwf) as [Hwf' Hk].
    eexists _, n2, l2. split; [done|]. split; [exact Hwf'|]. split; [lia|]. split; [by rewrite used_cons|].
    split; [apply Hc|]. rewrite used_app, used_cons. simpl. by rewrite <- used_app.
  - assert (coal true (Cell n n2 false :: l2)) as Hct by (split; [done|apply Hc]).
    rewrite frees_cons. simpl. destruct (Z.eqb_spec (headd (frees l2)) 0) as [|Hne]; [apply wp_ret; by apply Hsame|].
    assert (n < headd (frees l2)) as Hlt.
    { destruct (frees l2) as [|y f] eqn:E; [done|]. unfold headd. simpl.
      assert (y ∈ frees l2) as Hy by (rewrite E; by left). pose proof (frees_in _ _ _ _ G2 Hn24 Hy). lia. }
    unfold merge_next. apply wp_bind, wp_gets. change (p - PTRSIZE) with (p - 4). rewrite Hnp.
    apply wp_bind, wp_assert; [apply Z.leb_le; lia|]. rewrite (proj2 (Z.eqb_neq _ _)) by lia.
    apply wp_ret. by apply Hsame.
Qed.

(** A free slot merged with the one before it, if that is free. *)
Lemma merge_prev_ok h l1 p n l2 b t :
  wf (h_mem h) (h_empty h) (l1 ++ Cell p n true :: l2) b t → coal false l1 →
  wp (if lastd (frees l1) =? 0 then ret tt else merge_next (lastd (frees l1)) p) h (λ _ h', ∃ m' x l1',
    h' = with_links m' (h_empty h) h ∧ wf m' (h_empty h) (l1' ++ Cell x n true :: l2) b t ∧
    x ≤ p ∧ used l1' = used l1 ∧ coal false l1' ∧ last_flag l1' = false ∧
    keeps (used (l1 ++ l2)) (h_mem h) m').
Proof.
  intros Hwf Hc. destruct (wf_sub _ _ _ _ _ _ _ _ _ Hwf) as (G1 & Hn & Hn4 & Hp4 & G2 & Hbp & Hnt & Ht4 & Hnp).
  destruct (wf_low _ _ _ _ _ Hwf) as [Hlo Hb4].
  assert (with_links (h_mem h) (h_empty h) h = h) as Eh by (by destruct h).
  assert (last_flag l1 = false → ∃ m' x l1', h = with_links m' (h_empty h) h ∧
    wf m' (h_empty h) (l1' ++ Cell x n true :: l2) b t ∧ x ≤ p ∧ used l1' = used l1 ∧ coal false l1' ∧
    last_flag l1' = false ∧ keeps (used (l1 ++ l2)) (h_mem h) m') as Hsame.
  { intros Hf. exists (h_mem h), p, l1. rewrite Eh. by split_and!. }
  destruct l1 as [|[x p' f] l1 _] using rev_ind.
  { simpl. apply wp_ret. by apply Hsame. }
  apply geo_mid in G1 as (G1 & Hx & Hp'4 & E). simpl in G1, Hx, Hp'4, E. subst p'.
  apply coal_mid in Hc as (Hc & Hlf & _). simpl in Hlf. pose proof (geo_le _ _ _ G1).
  rewrite <- app_assoc in Hwf. simpl in Hwf. destruct f.
  - rewrite frees_app, frees_cons. change (frees []) with (@nil Z). cbn [c_free c_addr app].
    unfold lastd. rewrite last_snoc. change (default 0 (Some x)) with x.
    rewrite (proj2 (Z.eqb_neq x 0)) by lia. unfold merge_next.
    assert (ldp (h_mem h) (x - 4) = p) as Ex by (apply (wf_slots _ _ _ _ _ Hwf (Cell x p true)); list_in).
    apply wp_bind, wp_gets. change (x - PTRSIZE) with (x - 4). rewrite Ex.
    apply wp_bind, wp_assert; [apply Z.leb_refl|]. rewrite Z.eqb_refl.
    apply wp_bind, wp_gets. change (p - PTRSIZE) with (p - 4). rewrite Hnp.
    apply wp_bind, wp_modify, wp_bind, wp_gets. apply wp_modify. change (x - PTRSIZE) with (x - 4). simpl.
    destruct (wf_merge _ _ _ _ _ _ _ _ _ Hwf) as [Hwf' Hk].
    eexists _, x, l1. split; [done|]. split; [exact Hwf'|]. split; [lia|].
    rewrite andb_true_r in Hlf. rewrite !used_app, used_cons. simpl. rewrite !app_nil_r. split_and!; try done.
    by rewrite used_app in Hk.
  - rewrite frees_app, frees_cons. change (frees []) with (@nil Z). cbn [c_free app]. rewrite app_nil_r.
    assert (last_flag (l1 ++ [Cell x p false]) = false) as Hfl by (unfold last_flag; by rewrite last_snoc).
    destruct (Z.eqb_spec (lastd (frees l1)) 0) as [|Hne]; [apply wp_ret; by apply Hsame|].
    unfold lastd in *. destruct (last (frees l1)) as [y|] eqn:El; [|done]. simpl in *.
    destruct (last_free _ _ El) as (c & Hcl & Hcf & <-). pose proof (geo_in _ _ _ _ G1 Hb4 Hcl).
    assert (ldp (h_mem h) (c_addr c - 4) = c_next c) as Ec by (apply (wf_slots _ _ _ _ _ Hwf); list_in).
    unfold merge_next. apply wp_bind, wp_gets. change (c_addr c - PTRSIZE) with (c_addr c - 4). rewrite Ec.
    apply wp_bind, wp_assert; [apply Z.leb_le; lia|]. rewrite (proj2 (Z.eqb_neq _ _)) by lia.
    apply wp_ret. by apply Hsame.
Qed.

(** What free() leaves: the area is not in use any more and inside a free slot. *)
Definition after_free (h : heap) (l1 : list cell) (p n : Z) (l2 : list cell) (b t : Z) (h' : heap) : Prop :=
  ∃ m' e' l', h' = with_links m' e' h ∧ wf m' e' l' b t ∧ coal false l' ∧
    used l' = used (l1 ++ l2) ∧ keeps (used (l1 ++ l2)) (h_mem h) m' ∧
    ∃ c, c ∈ l' ∧ c_free c = true ∧ c_addr c ≤ p ∧ n ≤ c_next c.

Lemma free_ok h l1 p n l2 b t :
  wf (h_mem h) (h_empty h) (l1 ++ Cell p n false :: l2) b t → coal false (l1 ++ Cell p n false :: l2) →
  (length (frees l1) ≤ Z.to_nat ((h_top h - h_bottom h) / 8))%nat →
  wp (free p) h (λ _ h', after_free h l1 p n l2 b t h').
Proof.
  intros Hwf (Hc1 & _ & Hc2)%coal_mid Hlen. simpl in Hc2.
  destruct (wf_sub _ _ _ _ _ _ _ _ _ Hwf) as (G1 & Hn & Hn4 & Hp4 & G2 & Hbp & Hnt & Ht4 & Hnp).
  destruct (wf_low _ _ _ _ _ Hwf) as [Hlo Hb4].
  assert (∀ x, x ∈ frees l1 → 0 < x ≤ p) as A1 by (intros x Hx; pose proof (frees_in _ _ _ _ G1 Hb4 Hx); lia).
  assert (∀ x, x ∈ frees l2 → 0 < x ∧ p < x) as A2 by (intros x Hx; pose proof (frees_in _ _ _ _ G2 Hn4 Hx); lia).
  unfold free. apply wp_bind, wp_gets. change (p - PTRSIZE) with (p - 4). rewrite Hnp.
  apply wp_bind, wp_assert; [apply Z.gtb_lt; lia|].
  eapply wp_bind_mono; [apply (free_place_ok h (frees l1) (frees l2) p); [|done..]|].
  { pose proof (wf_free _ _ _ _ _ Hwf) as Hf. by rewrite frees_app, frees_cons in Hf. }
  intros r h' [-> ->]. cbn iota beta.
  apply wp_bind, wp_modify. apply wp_bind, wp_relink; [intros y Hy; specialize (A1 y Hy); lia|]. simpl.
  pose proof (wf_link _ _ _ _ _ _ _ _ Hwf) as Hlink.
  destruct (relink (stp (h_mem h) p (headd (frees l2))) (h_empty h) (frees l1) p) as [m1 e1].
  destruct Hlink as [Hwf1 Hk1]. set (h1 := with_links m1 e1 h).
  change (with_links m1 e1 (with_mem (stp (h_mem h) p (headd (frees l2))) h)) with h1.
  eapply wp_bind_mono; [by apply (merge_next_ok h1 l1 p n l2 b t)|].
  intros _ h2 (m2 & n' & l2' & -> & Hwf2 & Hnn & Hu2 & Hc2' & Hk2).
  eapply wp_mono; [by apply (merge_prev_ok (with_links m2 (h_empty h1) h1) l1 p n' l2' b t)|].
  intros _ h3 (m3 & x & l1' & -> & Hwf3 & Hxp & Hu1 & Hc1' & Hlf & Hk3). simpl in *.
  assert (used (l1 ++ l2') = used (l1 ++ l2)) as Eu by (by rewrite !used_app, Hu2).
  exists m3, e1, (l1' ++ Cell x n' true :: l2'). split; [done|]. split; [exact Hwf3|]. split_and!.
  - apply coal_mid. split_and!; [done|by rewrite Hlf|done].
  - rewrite !used_app, used_cons. simpl. by rewrite Hu1, Hu2.
  - eapply keeps_trans; [exact Hk1|]. eapply keeps_trans; [exact Hk2|]. by rewrite Eu in Hk3.
  - exists (Cell x n' true). split_and!; [list_in|done|done|done].
Qed.

(** ** malloc() *)

Lemma land_high y k : 0 ≤ k ≤ 32 → 0 ≤ y < 4294967296 →
  Z.land y (4294967296 - 2 ^ k) = y - y mod 2 ^ k.
Proof.
  intros Hk Hy. assert (4294967296 - 2 ^ k = Z.shiftl (Z.ones (32 - k)) k) as ->.
  { rewrite Z.shiftl_mul_pow2, Z.ones_equiv by lia.
    replace (Z.pred (2 ^ (32 - k)) * 2 ^ k) with (2 ^ (32 - k) * 2 ^ k - 2 ^ k) by lia.
    rewrite <- Z.pow_add_r by lia. by replace (32 - k + k) with 32 by lia. }
  assert (Z.land y (Z.shiftl (Z.ones (32 - k)) k) = Z.shiftl (Z.shiftr y k) k) as ->.
  { apply Z.bits_inj'. intros i Hi. rewrite Z.land_spec. destruct (Z.ltb_spec i k).
    - rewrite !Z.shiftl_spec_low by lia. by rewrite andb_false_r.
    - rewrite !Z.shiftl_spec, Z.shiftr_spec by lia. replace (i - k + k) with i by lia.
      destruct (Z.ltb_spec i 32).
      + rewrite Z.ones_spec_low by lia. by rewrite andb_true_r.
      + rewrite (Z.bits_above_log2 y i); [done|lia|]. destruct (Z.eq_dec y 0) as [->|]; [simpl; lia|].
        apply Z.log2_lt_pow2; [lia|]. apply Z.lt_le_trans with (2 ^ 32); [lia|]. apply Z.pow_le_mono_r; lia. }
  rewrite Z.shiftl_mul_pow2, Z.shiftr_div_pow2 by lia.
  pose proof (Z.div_mod y (2 ^ k) ltac:(lia)). lia.
Qed.

Lemma Align_4 x : 0 ≤ x < 4294967000 → x ≤ Align x 4 ≤ x + 3 ∧ Align x 4 mod 4 = 0.
Proof.
  intros Hx. unfold Align. change (u32 (Z.lnot (4 - 1))) with (4294967296 - 2 ^ 2).
  rewrite (u32_small (x + (4 - 1))), land_high by lia. change (2 ^ 2) with 4. mlia.
Qed.

Lemma Align_1024 x : 0 ≤ x < 4294966000 → x ≤ Align x 1024 ≤ x + 1023 ∧ Align x 1024 mod 1024 = 0.
Proof.
  intros Hx. unfold Align. change (u32 (Z.lnot (1024 - 1))) with (4294967296 - 2 ^ 10).
  rewrite (u32_small (x + (1024 - 1))), land_high by lia. change (2 ^ 10) with 1024. mlia.
Qed.

(** The heap in order, with the slots [l]. *)
Definition heap_wf (h : heap) (l : list cell) : Prop :=
  wf (h_mem h) (h_empty h) l (h_bottom h) (h_top h) ∧ coal false l.

(** Slot [p] of at least [len] bytes is now in use, and nothing else. *)
Definition took (h : heap) (l : list cell) (p len : Z) (h' : heap) : Prop :=
  ∃ m' e' l' n, h' = with_links m' e' h ∧ heap_wf h' l' ∧ used l' ≡ₚ (p, n) :: used l ∧
    p + len ≤ n ∧ p mod 4 = 0 ∧ 0 < p ∧ keeps (used l) (h_mem h) m'.

Lemma used_free_mid l1 p n l2 : used (l1 ++ Cell p n true :: l2) = used (l1 ++ l2).
Proof. rewrite !used_app, used_cons. done. Qed.
Lemma used_used_mid l1 p n l2 : used (l1 ++ Cell p n false :: l2) ≡ₚ (p, n) :: used (l1 ++ l2).
Proof. rewrite !used_app, used_cons. simpl. by rewrite Permutation_middle. Qed.

Lemma unlink_tail h l1 p n l2 :
  wf (h_mem h) (h_empty h) (l1 ++ Cell p n true :: l2) (h_bottom h) (h_top h) →
  wp (let* nf := NextFree p in
      if negb (lastd (frees l1) =? 0) then set_NextFree (lastd (frees l1)) nf else set_empty nf) h
    (λ _ h', ∃ m' e', h' = with_links m' e' h ∧
      wf m' e' (l1 ++ Cell p n false :: l2) (h_bottom h) (h_top h) ∧ keeps (used (l1 ++ l2)) (h_mem h) m').
Proof.
  intros Hwf. destruct (wf_sub _ _ _ _ _ _ _ _ _ Hwf) as (G1 & _). destruct (wf_low _ _ _ _ _ Hwf) as [Hlo Hb4].
  destruct (wf_unlink _ _ _ _ _ _ _ _ Hwf) as [E Hun]. apply wp_bind, wp_gets. rewrite E.
  pose proof (wp_relink h (frees l1) (headd (frees l2))) as Hrl.
  destruct (relink (h_mem h) (h_empty h) (frees l1) (headd (frees l2))) as [m' e'].
  destruct Hun as [Hwf' Hk]. destruct (lastd (frees l1) =? 0); simpl;
    (apply Hrl; [intros y Hy; pose proof (frees_in _ _ _ _ G1 Hb4 Hy); lia|by exists m', e']).
Qed.

Lemma take_slot_ok h l1 p n l2 len :
  heap_wf h (l1 ++ Cell p n true :: l2) → len mod 4 = 0 → 8 ≤ len → p + len ≤ n →
  wp (take_slot (lastd (frees l1)) p (p + len) n) h (λ _ h', took h (l1 ++ Cell p n true :: l2) p len h').
Proof.
  intros [Hwf (Hc1 & Hlf & Hc2)%coal_mid] Hl4 Hl8 Hfit. simpl in Hlf, Hc2.
  destruct (wf_sub _ _ _ _ _ _ _ _ _ Hwf) as (G1 & Hn & Hn4 & Hp4 & G2 & Hbp & Hnt & Ht4 & Hnp).
  destruct (wf_low _ _ _ _ _ Hwf) as [Hlo Hb4]. pose proof (wf_high _ _ _ _ _ Hwf) as Hh.
  unfold took. rewrite used_free_mid. unfold take_slot. change PTRSIZE with 4.
  rewrite (u32_small (p + len + 4)) by lia.
  set (new := p + len) in *. destruct (Z.ltb_spec (new + 4) n) as [Hlt|Hge].
  - assert (new + 8 ≤ n) as Hnew by mlia. assert (new mod 4 = 0) as Hnew4 by (unfold new; mlia).
    destruct (wf_split _ _ _ _ _ _ _ _ _ new Hwf Hnew4 ltac:(lia) Hnew) as [Hwf1 Hk1].
    set (m1 := stp (stp (h_mem h) (new - 4) n) (p - 4) new) in *.
    apply wp_bind, wp_bind, wp_assert; [apply Z.gtb_lt; lia|]. apply wp_bind, wp_modify, wp_bind, wp_modify.
    change (with_mem _ (with_mem _ h)) with (with_mem m1 h).
    apply wp_bind, wp_gets, wp_bind, wp_modify, wp_modify. simpl.
    assert (ldp m1 p = headd (frees l2)) as Enf.
    { destruct (wf_unlink _ _ _ _ _ _ _ _ Hwf1) as [E _]. by rewrite frees_cons in E. }
    rewrite Enf. set (m2 := stp (stp m1 new (headd (frees l2))) p new).
    change (with_mem _ (with_mem _ (with_mem m1 h))) with (with_mem m2 h).
    change (l1 ++ Cell p new true :: Cell new n false :: l2) with (l1 ++ [Cell p new true] ++ Cell new n false :: l2) in Hwf1.
    rewrite app_assoc in Hwf1. pose proof (wf_link _ _ _ _ _ _ _ _ Hwf1) as Hlink. unfold relink in Hlink.
    rewrite frees_app, frees_cons in Hlink. change (frees []) with (@nil Z) in Hlink. cbn [c_free c_addr app] in Hlink.
    rewrite last_snoc in Hlink. fold m2 in Hlink. destruct Hlink as [Hwf2 Hk2].
    rewrite <- app_assoc in Hwf2. cbn [app] in Hwf2.
    rewrite used_app, used_app, used_cons in Hk2. cbn [c_free used] in Hk2. 
    eapply wp_mono; [apply (unlink_tail (with_mem m2 h)); exact Hwf2|].
    intros _ h' (m3 & e3 & -> & Hwf3 & Hk3).
    exists m3, e3, (l1 ++ Cell p new false :: Cell new n true :: l2), new.
    split; [done|]. split; [split; [exact Hwf3|]|].
    + apply coal_mid. simpl. by rewrite andb_false_r.
    + split_and!; [by rewrite used_used_mid, used_free_mid|lia|done|lia|].
      eapply keeps_trans; [eapply keeps_sub; [|exact Hk1]; set_solver|].
      eapply keeps_trans; [eapply keeps_sub; [|exact Hk2]; rewrite used_app; set_solver|].
      by rewrite used_free_mid in Hk3.
  - apply wp_bind, wp_ret. eapply wp_mono; [apply (unlink_tail h); exact Hwf|].
    intros _ h' (m3 & e3 & -> & Hwf3 & Hk3). exists m3, e3, (l1 ++ Cell p n false :: l2), n.
    split; [done|]. split; [split; [exact Hwf3|]|].
    + apply coal_mid. split_and!; [done|by rewrite andb_false_r|by eapply coal_weaken].
    + split_and!; [apply used_used_mid|lia|done|lia|done].
Qed.

(** A free slot of at least [len] bytes. *)
Definition fits (len : Z) (c : cell) : Prop := c_free c = true ∧ c_addr c + len ≤ c_next c.

Lemma find_slot_ok h l len :
  heap_wf h l → len mod 4 = 0 → 8 ≤ len < 2147480000 →
  wp (find_slot len) h (λ p h',
    (p = 0 ∧ h' = h ∧ ∀ c, c ∈ l → ¬ fits len c) ∨ (p ≠ 0 ∧ took h l p len h')).
Proof.
  intros Hok Hl4 Hl8. pose proof Hok as [Hwf _]. pose proof Hwf as [Hg [Hlo Hb4] Hh _ _ Hf].
  unfold find_slot. apply wp_bind, wp_gets, wp_bind, wp_gets. change (2 * PTRSIZE) with 8.
  rewrite (fseg_head _ _ _ Hf). set (n := (Z.to_nat ((h_top h - h_bottom h) / 8) + 1)%nat).
  assert (length (frees l) < n)%nat as Hn.
  { pose proof (length_frees l). pose proof (geo_length _ _ _ Hg). unfold n. mlia. }
  change 0 with (lastd (frees [])) at 1.
  assert (∀ l2 l1 n, l = l1 ++ l2 → (∀ c, c ∈ l1 → ¬ fits len c) → (length (frees l2) < n)%nat →
    wp (loop n (λ '(prev, p),
      if p =? 0 then ret (inr 0) else
      let* next := NextSlot p in
      let new := u32 (p + len) in
      if (new >? next) || (new <=? p) then
        let* nf := NextFree p in
        ret (inl (p, nf))
      else
        take_slot prev p new next ;;
        ret (inr p)) (lastd (frees l1), headd (frees l2))) h (λ p h',
    (p = 0 ∧ h' = h ∧ ∀ c, c ∈ l → ¬ fits len c) ∨ (p ≠ 0 ∧ took h l p len h'))) as Hloop;
    [|by apply (Hloop l []); [|intros c ?%not_elem_of_nil|]].
  clear Hn n. induction l2 as [|[p q f] l2 IH]; intros l1 n El Hno Hn.
  - destruct n as [|n]; [simpl in Hn; lia|]. cbn [loop]. apply wp_bind, wp_ret, wp_ret. left.
    rewrite app_nil_r in El. by subst l1.
  - assert (l = (l1 ++ [Cell p q f]) ++ l2) as El' by (by rewrite El, <- app_assoc).
    rewrite frees_cons in Hn |- *. destruct f; cbn [c_free c_addr app] in Hn |- *.
    2:{ specialize (IH (l1 ++ [Cell p q false]) n El'). rewrite frees_app in IH.
        change (frees [Cell p q false]) with (@nil Z) in IH. rewrite app_nil_r in IH. apply IH; [|done].
        intros c [Hc| ->%list_elem_of_singleton]%elem_of_app; [auto|]. by intros [? _]. }
    destruct n as [|n]; [simpl in Hn; lia|]. cbn [loop]. change (headd (p :: frees l2)) with p.
    rewrite El in Hwf. destruct (wf_sub _ _ _ _ _ _ _ _ _ Hwf) as (_ & Hq & _ & _ & _ & Hbp & Hqt & _ & Hnp).
    rewrite (proj2 (Z.eqb_neq p 0)) by lia. apply wp_bind, wp_bind, wp_gets.
    change (p - PTRSIZE) with (p - 4). rewrite Hnp, u32_small by lia.
    rewrite (proj2 (Z.leb_gt (p + len) p)), orb_false_r by lia. rewrite Z.gtb_ltb.
    destruct (Z.ltb_spec q (p + len)) as [Hlt|Hge].
    + apply wp_bind, wp_gets, wp_ret. destruct (wf_unlink _ _ _ _ _ _ _ _ Hwf) as [-> _].
      specialize (IH (l1 ++ [Cell p q true]) n El'). rewrite frees_app, frees_cons in IH.
      change (frees []) with (@nil Z) in IH. cbn [c_free c_addr app] in IH. unfold lastd in IH at 1.
      rewrite last_snoc in IH. apply IH; [|simpl in Hn; lia].
      intros c [Hc| ->%list_elem_of_singleton]%elem_of_app; [auto|]. intros [_ Hc]. simpl in Hc. lia.
    + rewrite El in Hok |- *. eapply wp_bind_mono; [apply take_slot_ok; [exact Hok|done|lia|lia]|].
      intros [] h' Ht. apply wp_ret, wp_ret. right. split; [lia|exact Ht].
Qed.

Section break.
Variable grant : Z → bool.
(** The kernel grants no break beyond the address space of a process. *)
Hypothesis grant_small : ∀ p, grant p = true → p < 2147483648.

(** Before the first call the heap is empty; [h_brk] is the end of the program. *)
Definition heap_inv (h : heap) (l : list cell) : Prop :=
  heap_wf h l ∨ (h_bottom h = 0 ∧ h_empty h = 0 ∧ l = [] ∧ 4 ≤ h_brk h < 2147483600).

Lemma wp_brk h p (Q : Z → heap → Prop) :
  (if grant p then Q 0 (mkHeap (h_mem h) (h_bottom h) (h_top h) (h_empty h) p) else Q (-1) h) →
  wp (brk grant p) h Q.
Proof. unfold wp, brk. by destruct (grant p). Qed.

Lemma wp_sbrk h n (Q : Z → heap → Prop) :
  (if grant (h_brk h + n) then Q (h_brk h) (mkHeap (h_mem h) (h_bottom h) (h_top h) (h_empty h) (h_brk h + n))
   else Q (-1) h) →
  wp (sbrk grant n) h Q.
Proof. unfold wp, sbrk. by destruct (grant _). Qed.

Lemma first_slot_ok h l :
  heap_inv h l →
  wp (first_slot grant) h (λ r h',
    if r : bool then heap_wf h' l ∧ keeps (used l) (h_mem h) (h_mem h') ∧ (heap_wf h l → h' = h)
    else h' = h ∧ grant (h_brk h + 8) = false).
Proof.
  intros Hinv. unfold first_slot. apply wp_bind, wp_gets.
  destruct Hinv as [Hok|(Eb & Ee & -> & Hbrk)].
  - destruct (wf_low _ _ _ _ _ (proj1 Hok)). rewrite (proj2 (Z.eqb_neq (h_bottom h) 0)) by lia.
    apply wp_ret. by split_and!.
  - rewrite Eb. cbn [Z.eqb negb]. apply wp_bind, wp_sbrk. change (2 * PTRSIZE) with 8.
    destruct (grant (h_brk h + 8)) eqn:Eg; [|by apply wp_ret].
    rewrite (proj2 (Z.eqb_neq (h_brk h) (-1))) by lia.
    change PTRSIZE with 4. destruct (Align_4 (h_brk h)) as [Ha Ha4]; [lia|]. rewrite u32_small by lia.
    apply wp_bind, wp_assert; [apply Z.gtb_lt; lia|]. apply wp_bind, wp_modify, wp_bind, wp_modify, wp_bind, wp_modify, wp_ret.
    simpl. split_and!; [|by intros ??? ?%not_elem_of_nil|].
    + split; [|done]. split; simpl; [done|split; [lia|mlia]|lia|by intros ? ?%not_elem_of_nil|by apply ldp_stp|done].
    + intros [Hwf _]. destruct (wf_low _ _ _ _ _ Hwf). lia.
Qed.

Lemma grow_ok h l len :
  heap_wf h l → len mod 4 = 0 → 8 ≤ len < 2147480000 →
  wp (grow grant len) h (λ g h',
    (g = 0 ∧ h' = h ∧ grant (Align (h_top h + len) BRKSIZE) = false) ∨
    (g = 1 ∧ ∃ l', heap_wf h' l' ∧ used l' = used l ∧ keeps (used l) (h_mem h) (h_mem h') ∧
      ∃ c, c ∈ l' ∧ fits len c)).
Proof.
  intros [Hwf Hc] Hl4 Hl8. pose proof Hwf as [Hg [Hlo Hb4] Hh _ Ht _].
  pose proof (geo_le _ _ _ Hg) as Hbt. pose proof (geo_aligned _ _ _ Hg Hb4) as Ht4.
  unfold grow. apply wp_bind, wp_gets, wp_bind, wp_gets. change (h_top h - PTRSIZE) with (h_top h - 4). rewrite Ht.
  apply wp_bind, wp_assert; [done|]. rewrite u32_small by lia. change BRKSIZE with 1024.
  destruct (Align_1024 (h_top h + len)) as [Hp Hp10]; [lia|]. set (p := Align (h_top h + len) 1024) in *.
  rewrite (proj2 (Z.ltb_ge p (h_top h))) by lia.
  apply wp_bind, wp_brk. destruct (grant p) eqn:Eg.
  2:{ cbn. left. by split_and!. }
  specialize (grant_small p Eg). cbn [Z.eqb negb]. apply wp_bind, wp_modify, wp_bind, wp_modify.
  change (h_top h - PTRSIZE) with (h_top h - 4). change (p - PTRSIZE) with (p - 4). simpl.
  destruct (wf_grow _ _ _ _ _ p Hwf ltac:(mlia) ltac:(lia)) as [Hwf1 Hk1].
  set (m1 := stp (stp (h_mem h) (h_top h - 4) p) (p - 4) 0) in *.
  set (h1 := mkHeap m1 (h_bottom h) (h_top h) (h_empty h) p).
  change (with_mem _ (with_mem _ _)) with h1.
  eapply wp_bind_mono; [apply (free_ok h1 l (h_top h) p [] (h_bottom h) p); [exact Hwf1| |]|].
  - apply coal_mid. split_and!; [done|by rewrite andb_false_r|done].
  - pose proof (length_frees l). pose proof (geo_length _ _ _ Hg). simpl. mlia.
  - intros _ h2 (m2 & e2 & l2 & -> & Hwf2 & Hc2 & Hu & Hk2 & c & Hcl & Hcf & Hca & Hcn). rewrite app_nil_r in *.
    apply wp_bind, wp_modify, wp_ret. right. split; [done|]. exists l2. split_and!; [by split|done|by eapply keeps_trans|].
    exists c. split; [done|]. split; [done|lia].
Qed.

(** What malloc() returns: an area of its own, or NULL because the kernel refused. *)
Definition mallocd (h : heap) (l : list cell) (size p : Z) (h' : heap) : Prop :=
  ∃ l', heap_inv h' l' ∧ keeps (used l) (h_mem h) (h_mem h') ∧
    if p =? 0 then used l' = used l ∧ ∃ q, grant q = false ∧ q ≤ Z.max (h_top h') (h_brk h') + size + 1034
    else ∃ n, used l' ≡ₚ (p, n) :: used l ∧ p + size + 4 ≤ n ∧ p mod 4 = 0 ∧ 0 < p ∧ heap_wf h' l'.

Lemma malloc_try_ok n h l size :
  heap_inv h l → 0 < size < 2147479000 → (0 < n)%nat →
  (n = 1%nat → heap_wf h l ∧ ∃ c, c ∈ l ∧ fits (Align size 4 + 4) c) →
  wp (malloc_try grant n size) h (λ p h', mallocd h l size p h').
Proof.
  revert h l. induction n as [|n IH]; intros h l Hinv Hs Hn Hlast; [lia|]. cbn [malloc_try].
  change PTRSIZE with 4. destruct (Align_4 size) as [Ha Ha4]; [lia|]. rewrite u32_small by lia.
  set (len := Align size 4 + 4) in *. assert (len mod 4 = 0) as Hl4 by (unfold len; mlia).
  assert (8 ≤ len < 2147480000) as Hl8 by (unfold len; mlia).
  rewrite (proj2 (Z.ltb_ge len (2 * 4))) by lia.
  eapply wp_bind_mono; [by apply first_slot_ok|]. intros [] h1; cbn [negb].
  2:{ intros [-> Hg]. apply wp_ret. exists l. split; [done|]. split; [done|]. simpl. split; [done|].
      exists (h_brk h + 8). split; [done|]. lia. }
  intros (Hok1 & Hk1 & Heq).
  eapply wp_bind_mono; [by apply (find_slot_ok h1 l len)|].
  intros p h2 [(-> & -> & Hno)|(Hp & m' & e' & l' & q & -> & Hok & Hu & Hq & Hp4 & Hp0 & Hk)]; cbn [Z.eqb negb].
  2:{ rewrite (proj2 (Z.eqb_neq p 0)) by done. apply wp_ret. exists l'. split; [by left|].
      split; [by eapply keeps_trans|]. rewrite (proj2 (Z.eqb_neq p 0)) by done. exists q. split_and!; try done.
      unfold len in Hq. lia. }
  eapply wp_bind_mono; [by apply (grow_ok h1 l len)|].
  intros g h2 [(-> & -> & Hg)|(-> & l2 & Hok2 & Hu2 & Hk2 & Hfit)]; cbn [Z.eqb].
  { apply wp_ret. exists l. split; [by left|]. split; [done|]. simpl. split; [done|].
    exists (Align (h_top h1 + len) BRKSIZE). split; [done|]. change BRKSIZE with 1024.
    pose proof (geo_le _ _ _ (wf_geo _ _ _ _ _ (proj1 Hok1))). pose proof (wf_low _ _ _ _ _ (proj1 Hok1)).
    pose proof (wf_high _ _ _ _ _ (proj1 Hok1)).
    destruct (Align_1024 (h_top h1 + len)) as [? _]; [lia|]. unfold len in *. lia. }
  destruct n as [|n].
  { destruct (Hlast eq_refl) as (Hok0 & c & Hc & Hcf). by destruct (Hno c Hc). }
  assert (heap_inv h2 l2) as Hinv2 by by left.
  eapply wp_mono; [apply (IH h2 l2 Hinv2 Hs); [lia|by intros]|].
  intros p h3 (l3 & Hinv3 & Hk3 & Hres). exists l3. split; [done|]. rewrite Hu2 in Hk3, Hres.
  split; [|done]. eapply keeps_trans; [exact Hk1|]. by eapply keeps_trans.
Qed.

Lemma malloc_ok h l size :
  heap_inv h l → 0 ≤ size < 2147479000 →
  wp (malloc grant size) h (λ p h', mallocd h l (if size =? 0 then PTRSIZE else size) p h').
Proof.
  intros Hinv Hs. unfold malloc. apply malloc_try_ok; [done| |lia|done].
  destruct (Z.eqb_spec size 0); unfold PTRSIZE; lia.
Qed.

(** free() of an area in use. *)
Lemma free_used h l p n :
  heap_inv h l → (p, n) ∈ used l →
  wp (free p) h (λ _ h', ∃ l', heap_inv h' l' ∧ h_brk h' = h_brk h ∧ used l ≡ₚ (p, n) :: used l' ∧
    keeps (used l') (h_mem h) (h_mem h') ∧ heap_wf h' l').
Proof.
  intros Hinv Hu. destruct Hinv as [[Hwf Hc]|(_ & _ & -> & _)]; [|by apply not_elem_of_nil in Hu].
  apply elem_of_used, list_elem_of_split in Hu as (l1 & l2 & ->).
  eapply wp_mono; [apply (free_ok h l1 p n l2 (h_bottom h) (h_top h)); [done|done|]|].
  - destruct (wf_sub _ _ _ _ _ _ _ _ _ Hwf) as (G1 & Hn & _ & _ & G2 & _).
    pose proof (length_frees l1). pose proof (geo_length _ _ _ G1). pose proof (geo_le _ _ _ G2). mlia.
  - intros _ h' (m' & e' & l' & -> & Hwf' & Hc' & Hu & Hk & _). exists l'. rewrite Hu.
    assert (heap_wf (with_links m' e' h) l') as Hok by done.
    split_and!; [by left|done|apply used_used_mid|done|done].
Qed.
End break.

(** ** realloc() *)

Lemma stp_comm m a b u v z :
  a mod 4 = 0 → b mod 4 = 0 → a ≠ b → stp (stp m a u) b v z = stp (stp m b v) a u z.
Proof.
  intros Ha Hb Hne. unfold stp.
  destruct (Z.leb_spec a z), (Z.ltb_spec z (a + 4)), (Z.leb_spec b z), (Z.ltb_spec z (b + 4)); simpl; try done; mlia.
Qed.

Lemma fseg_ext m m' f e z : (∀ a, m' a = m a) → fseg m f e z → fseg m' f e z.
Proof. intros Hm. apply fseg_frame. intros. apply ldp_ext. auto. Qed.

Lemma wf_ext m m' e l b t : (∀ a, m' a = m a) → wf m e l b t → wf m' e l b t.
Proof.
  intros Hm [Hg Hl Hh Hs Ht Hf]. assert (∀ a, ldp m' a = ldp m a) as Hw by (intros; apply ldp_ext; auto).
  split; try done; [intros; by rewrite Hw, Hs|by rewrite Hw|by eapply fseg_ext].
Qed.

(** The free slot after [old] is taken off the list and added to [old]. *)
Lemma wf_absorb m e l1 old p n2 l2 b t :
  wf m e (l1 ++ Cell old p false :: Cell p n2 true :: l2) b t →
  let m1 := stp m (old - 4) n2 in
  ldp m1 p = headd (frees l2) ∧
  let '(m', e') := relink m1 e (frees l1) (headd (frees l2)) in
  wf m' e' (l1 ++ Cell old n2 false :: l2) b t ∧ ldp m' (old - 4) = n2 ∧
  keeps ((old, p) :: used (l1 ++ l2)) m m'.
Proof.
  intros Hwf m1. destruct (wf_sub _ _ _ _ _ _ _ _ _ Hwf) as (G1 & Hp & Hp4 & Ho4 & G2 & Hbo & Hpt & Ht4 & _).
  destruct (wf_low _ _ _ _ _ Hwf) as [Hlo Hb4].
  assert (wf m e ((l1 ++ [Cell old p false]) ++ Cell p n2 true :: l2) b t) as Hwf0 by (by rewrite <- app_assoc).
  destruct (wf_unlink _ _ _ _ _ _ _ _ Hwf0) as [E Hun].
  split; [unfold m1; rewrite ldp_stp_ne by mlia; exact E|].
  assert (frees (l1 ++ [Cell old p false]) = frees l1) as Ef
    by (rewrite frees_app; change (frees [Cell old p false]) with (@nil Z); apply app_nil_r).
  rewrite Ef in Hun. unfold relink in *.
  assert (used ((l1 ++ [Cell old p false]) ++ l2) ≡ₚ (old, p) :: used (l1 ++ l2)) as Hperm
    by (rewrite <- app_assoc; apply used_used_mid).
  destruct (last (frees l1)) as [y|] eqn:El.
  - destruct Hun as [Hwf1 Hk1]. rewrite <- app_assoc in Hwf1. destruct (wf_join _ _ _ _ _ _ _ _ _ Hwf1) as [Hwf2 Hk2].
    destruct (last_free _ _ El) as (c & Hc & _ & <-). pose proof (geo_in _ _ _ _ G1 Hb4 Hc).
    assert (∀ a, stp m1 (c_addr c) (headd (frees l2)) a =
      stp (stp m (c_addr c) (headd (frees l2))) (old - 4) n2 a) as Hm by (intros; apply stp_comm; mlia).
    assert (wf (stp m1 (c_addr c) (headd (frees l2))) e (l1 ++ Cell old n2 false :: l2) b t) as Hwf3
      by (by eapply wf_ext).
    split; [exact Hwf3|]. split; [apply (wf_slots _ _ _ _ _ Hwf3 (Cell old n2 false)); list_in|].
    intros x q a Hu Ha. rewrite Hm, (Hk2 x q), (Hk1 x q); [done| |done|done|done]. by rewrite Hperm.
  - destruct Hun as [Hwf1 Hk1]. rewrite <- app_assoc in Hwf1. destruct (wf_join _ _ _ _ _ _ _ _ _ Hwf1) as [Hwf2 Hk2].
    split; [exact Hwf2|]. split; [apply (wf_slots _ _ _ _ _ Hwf2 (Cell old n2 false)); list_in|exact Hk2].
Qed.

(** What the loop of realloc() leaves: [old] ends at [next'] now. *)
Definition extended (h : heap) (l1 : list cell) (old next : Z) (l2 : list cell) (next' : Z) (h' : heap) : Prop :=
  ∃ m' e' l2', h' = with_links m' e' h ∧ heap_wf h' (l1 ++ Cell old next' false :: l2') ∧ next ≤ next' ∧
    used l2' = used l2 ∧ keeps ((old, next) :: used (l1 ++ l2)) (h_mem h) m'.

Lemma extended_same h l1 old next l2 :
  heap_wf h (l1 ++ Cell old next false :: l2) → extended h l1 old next l2 next h.
Proof.
  intros Hok. exists (h_mem h), (h_empty h), l2.
  assert (with_links (h_mem h) (h_empty h) h = h) as -> by (by destruct h). by split_and!.
Qed.

(** The round that finds [next] free. *)
Lemma extend_absorb h l1 old next n2 l2 :
  heap_wf h (l1 ++ Cell old next false :: Cell next n2 true :: l2) →
  wp (extend_round old next (lastd (frees l1), next)) h (λ r h', ∃ q, r = inr q ∧
    extended h l1 old next (Cell next n2 true :: l2) q h').
Proof.
  intros [Hwf Hc]. destruct (wf_sub _ _ _ _ _ _ _ _ _ Hwf) as (G1 & Hn & Hn4 & Ho4 & G2 & Hbo & Hnt & Ht4 & Hno).
  destruct G2 as (_ & Hn2 & _). simpl in Hn2. destruct (wf_low _ _ _ _ _ Hwf) as [Hlo Hb4].
  unfold extend_round. rewrite (proj2 (Z.eqb_neq next 0)) by lia. rewrite Z.gtb_ltb, Z.ltb_irrefl, Z.eqb_refl.
  apply wp_bind, wp_gets. change (next - PTRSIZE) with (next - 4).
  assert (ldp (h_mem h) (next - 4) = n2) as -> by (apply (wf_slots _ _ _ _ _ Hwf (Cell next n2 true)); list_in).
  apply wp_bind, wp_modify, wp_bind, wp_gets. change (old - PTRSIZE) with (old - 4). cbn [h_mem with_mem].
  destruct (wf_absorb _ _ _ _ _ _ _ _ _ Hwf) as [E Hab]. rewrite E.
  set (m1 := stp (h_mem h) (old - 4) n2) in *.
  pose proof (wp_relink (with_mem m1 h) (frees l1) (headd (frees l2))) as Hrl. cbn [h_mem h_empty with_mem] in Hrl.
  destruct (relink m1 (h_empty h) (frees l1) (headd (frees l2))) as [m' e']. destruct Hab as (Hwf' & En & Hk).
  assert (wp (if negb (lastd (frees l1) =? 0) then set_NextFree (lastd (frees l1)) (headd (frees l2))
              else set_empty (headd (frees l2))) (with_mem m1 h) (λ _ h', h' = with_links m' e' h)) as Hset.
  { specialize (Hrl (λ _ h', h' = with_links m' e' h)). destruct (lastd (frees l1) =? 0); cbn [negb];
      (apply Hrl; [intros y Hy; pose proof (frees_in _ _ _ _ G1 Hb4 Hy); lia|done]). }
  eapply wp_bind_mono; [exact Hset|]. intros _ h' ->. apply wp_bind, wp_gets. cbn [h_mem with_links].
  change (old - PTRSIZE) with (old - 4). rewrite En. apply wp_ret. exists n2. split; [done|].
  apply coal_mid in Hc as (Hc1 & Hlf & _ & Hc2). exists m', e', l2. split; [done|]. split; [split; [exact Hwf'|]|].
  - apply coal_mid. split_and!; [done|by rewrite andb_false_r|by eapply coal_weaken].
  - split_and!; [lia|by rewrite used_cons|by rewrite used_free_mid].
Qed.

(** The round after the free slots before [old]. *)
Lemma extend_last h l1 old next l2 :
  heap_wf h (l1 ++ Cell old next false :: l2) →
  wp (extend_round old next (lastd (frees l1), headd (frees l2))) h (λ r h', ∃ q, r = inr q ∧
    extended h l1 old next l2 q h').
Proof.
  intros Hok. pose proof (extended_same _ _ _ _ _ Hok) as Hsame.
  destruct (wf_sub _ _ _ _ _ _ _ _ _ (proj1 Hok)) as (_ & Hn & Hn4 & _ & G2 & Hbo & _).
  destruct (wf_low _ _ _ _ _ (proj1 Hok)) as [Hlo Hb4]. destruct l2 as [|[x n2 f] l2].
  - apply wp_ret. by exists next.
  - destruct G2 as (Ex & Hn2 & Hn24 & G2). simpl in Ex, Hn2, Hn24, G2. subst x.
    rewrite frees_cons. destruct f; cbn [c_free c_addr app]; [by apply extend_absorb|].
    unfold extend_round. destruct (Z.eqb_spec (headd (frees l2)) 0) as [|Hne]; [apply wp_ret; by exists next|].
    assert (next < headd (frees l2)) as Hlt.
    { destruct (frees l2) as [|y fr] eqn:E; [done|]. unfold headd. simpl.
      assert (y ∈ frees l2) as Hy by (rewrite E; by left). pose proof (frees_in _ _ _ _ G2 Hn24 Hy). lia. }
    rewrite Z.gtb_ltb, (proj2 (Z.ltb_lt next _)) by done. apply wp_ret. by exists next.
Qed.

Lemma extend_slot_ok h l1 old next l2 :
  heap_wf h (l1 ++ Cell old next false :: l2) →
  wp (extend_slot old next) h (λ q h', extended h l1 old next l2 q h').
Proof.
  intros Hok. pose proof Hok as [Hwf _].
  destruct (wf_sub _ _ _ _ _ _ _ _ _ Hwf) as (G1 & Hn & Hn4 & Ho4 & G2 & Hbo & Hnt & Ht4 & Hno).
  destruct (wf_low _ _ _ _ _ Hwf) as [Hlo Hb4]. pose proof (wf_free _ _ _ _ _ Hwf) as Hf.
  rewrite frees_app, frees_cons in Hf. cbn [c_free app] in Hf.
  unfold extend_slot. apply wp_bind, wp_gets, wp_bind, wp_gets. change (2 * PTRSIZE) with 8.
  assert (length (frees l1) < Z.to_nat ((h_top h - h_bottom h) / 8) + 1)%nat as Hlen.
  { pose proof (length_frees l1). pose proof (geo_length _ _ _ G1). pose proof (geo_le _ _ _ G2). mlia. }
  assert (∀ f1 prev e n, (∀ x, x ∈ f1 → 0 < x < next) → fseg (h_mem h) (f1 ++ frees l2) e 0 →
    default prev (last f1) = lastd (frees l1) → (length f1 < n)%nat →
    wp (loop n (extend_round old next) (prev, e)) h (λ q h', extended h l1 old next l2 q h')) as Hwalk.
  { induction f1 as [|x f1 IH]; intros prev e n Hx Hs El Hn0; (destruct n as [|n]; [simpl in Hn0; lia|]); cbn [loop].
    - apply fseg_head in Hs. simpl in Hs, El. subst e. rewrite El.
      eapply wp_bind_mono; [by apply extend_last|]. by intros r h' (q & -> & Hq).
    - destruct Hs as [-> Hs]. destruct (Hx e) as [H1 H2]; [by left|]. unfold extend_round at 1.
      rewrite (proj2 (Z.eqb_neq e 0)), Z.gtb_ltb, (proj2 (Z.ltb_ge next e)), (proj2 (Z.eqb_neq e next)) by lia.
      apply wp_bind, wp_bind, wp_gets, wp_ret. apply IH; [intros; apply Hx; by right|exact Hs| |simpl in Hn0; lia].
      rewrite <- El. destruct f1 as [|y f1] using rev_ind; [done|]. by rewrite app_comm_cons, !last_snoc. }
  apply (Hwalk (frees l1)); [|done..]. intros x Hx. pose proof (frees_in _ _ _ _ G1 Hb4 Hx). lia.
Qed.

(** The owner of an area may write to it. *)
Lemma wf_user m e l b t x n m' :
  wf m e l b t → (x, n) ∈ used l → (∀ a, ¬ (x ≤ a < n - 4) → m' a = m a) → wf m' e l b t.
Proof.
  intros Hwf Hu%elem_of_used Hm. pose proof Hwf as [Hg [Hlo Hb4] Hh Hs Ht Hf].
  pose proof (geo_in _ _ _ _ Hg Hb4 Hu) as (Hbx & Hx & Hnt & Hx4 & Hn4). simpl in *.
  split; try done.
  - intros c Hc. rewrite <- Hs by done. apply ldp_ext. intros a Ha. apply Hm.
    pose proof (geo_in _ _ _ _ Hg Hb4 Hc).
    destruct (geo_sep _ _ _ _ _ Hg Hb4 Hu Hc) as [<-|Hsep]; simpl in *; lia.
  - rewrite <- Ht. apply ldp_ext. intros a Ha. apply Hm. lia.
  - eapply fseg_frame; [|exact Hf]. intros y (c & Hc & Hcf & <-)%elem_of_frees. apply ldp_ext. intros a Ha.
    apply Hm. pose proof (geo_in _ _ _ _ Hg Hb4 Hc).
    destruct (geo_sep _ _ _ _ _ Hg Hb4 Hu Hc) as [<-|Hsep]; simpl in *; [done|lia].
Qed.

Lemma keeps_user l b t u x n m m' :
  geo l b t → b mod 4 = 0 → used l ≡ₚ (x, n) :: u → (∀ a, ¬ (x ≤ a < n - 4) → m' a = m a) → keeps u m m'.
Proof.
  intros Hg Hb Hp Hm y q a Hu Ha. apply Hm.
  assert (NoDup (used l)) as Hnd.
  { clear -Hg Hb. revert b Hg Hb. induction l as [|c l IH]; intros b Hg Hb; [constructor|].
    rewrite used_cons. destruct Hg as (<- & H1 & H2 & H3). destruct (c_free c); simpl; [eauto|].
    constructor; [|eauto]. intros Hin%elem_of_used. pose proof (geo_in _ _ _ _ H3 H2 Hin). simpl in *. lia. }
  assert ((y, q) ∈ used l) as Hy by (rewrite Hp; by right). assert ((x, n) ∈ used l) as Hx by (rewrite Hp; by left).
  apply elem_of_used in Hy, Hx. pose proof (geo_in _ _ _ _ Hg Hb Hy). pose proof (geo_in _ _ _ _ Hg Hb Hx).
  destruct (geo_sep _ _ _ _ _ Hg Hb Hx Hy) as [E|Hsep]; simpl in *; [|lia].
  injection E as -> ->. rewrite Hp in Hnd. by apply NoDup_cons in Hnd as [? _].
Qed.

Section realloc.
Variable grant : Z → bool.
Hypothesis grant_small : ∀ p, grant p = true → p < 2147483648.

(** What realloc() leaves: the area at its new place with the bytes it had, or
    NULL and the area where it was. *)
Definition moved_to (h : heap) (old n : Z) (rest : list (Z * Z)) (size p : Z) (h' : heap) : Prop :=
  ∃ l', heap_wf h' l' ∧ keeps rest (h_mem h) (h_mem h') ∧
    if p =? 0 then ∃ n', n ≤ n' ∧ used l' ≡ₚ (old, n') :: rest ∧ keeps [(old, n)] (h_mem h) (h_mem h')
    else ∃ q, used l' ≡ₚ (p, q) :: rest ∧ p + size + 4 ≤ q ∧
      ∀ i, 0 ≤ i < Z.min size (n - 4 - old) → h_mem h' (p + i) = h_mem h (old + i).

(** The slot is big enough: the rest of it is freed. *)
Lemma realloc_in_place h l1 old next l2 len :
  heap_wf h (l1 ++ Cell old next false :: l2) → len mod 4 = 0 → 8 ≤ len → old + len ≤ next →
  wp (if u32 (old + len + PTRSIZE) <? next then
        ASSERT (u32 (old + len + PTRSIZE) >? old + len) ;;
        set_NextSlot (old + len) next ;;
        set_NextSlot old (old + len) ;;
        free (old + len)
      else ret tt) h (λ _ h', ∃ l' q, heap_wf h' l' ∧ used l' ≡ₚ (old, q) :: used (l1 ++ l2) ∧ old + len ≤ q ∧
        keeps ((old, old + len) :: used (l1 ++ l2)) (h_mem h) (h_mem h')).
Proof.
  intros [Hwf Hc] Hl4 Hl8 Hfit. destruct (wf_sub _ _ _ _ _ _ _ _ _ Hwf) as (G1 & Hn & Hn4 & Ho4 & G2 & Hbo & Hnt & Ht4 & Hno).
  destruct (wf_low _ _ _ _ _ Hwf) as [Hlo Hb4]. pose proof (wf_high _ _ _ _ _ Hwf) as Hh.
  change PTRSIZE with 4. set (new := old + len) in *. rewrite (u32_small (new + 4)) by lia.
  destruct (Z.ltb_spec (new + 4) next) as [Hlt|Hge].
  - assert (new + 8 ≤ next) as Hnew by mlia. assert (new mod 4 = 0) as Hnew4 by (unfold new; mlia).
    destruct (wf_split _ _ _ _ _ _ _ _ _ new Hwf Hnew4 ltac:(lia) Hnew) as [Hwf1 Hk1].
    apply coal_mid in Hc as (Hc1 & Hlf & Hc2).
    apply wp_bind, wp_assert; [apply Z.gtb_lt; lia|]. apply wp_bind, wp_modify, wp_bind, wp_modify.
    change (old - PTRSIZE) with (old - 4). change (new - PTRSIZE) with (new - 4). cbn [h_mem with_mem].
    set (m1 := stp (stp (h_mem h) (new - 4) next) (old - 4) new) in *.
    change (with_mem m1 (with_mem _ h)) with (with_mem m1 h).
    assert (wf m1 (h_empty h) ((l1 ++ [Cell old new false]) ++ Cell new next false :: l2) (h_bottom h) (h_top h)) as Hwf2
      by (by rewrite <- app_assoc).
    eapply wp_mono; [apply (free_ok (with_mem m1 h) (l1 ++ [Cell old new false]) new next l2 (h_bottom h) (h_top h)); [exact Hwf2| |]|].
    + rewrite <- app_assoc. apply coal_mid. simpl. by rewrite andb_false_r.
    + rewrite frees_app. change (frees [Cell old new false]) with (@nil Z). rewrite app_nil_r. simpl.
      pose proof (length_frees l1). pose proof (geo_length _ _ _ G1). pose proof (geo_le _ _ _ G2). mlia.
    + intros _ h' (m' & e' & l' & -> & Hwf' & Hc' & Hu & Hk & _). rewrite <- app_assoc in Hu, Hk. cbn [app] in Hu, Hk.
      exists l', new. split; [by split|]. rewrite Hu. split; [apply used_used_mid|]. split; [lia|]. simpl.
      eapply keeps_trans; [exact Hk1|]. eapply keeps_sub; [|exact Hk]. intros y. by rewrite used_used_mid.
  - apply wp_ret. exists (l1 ++ Cell old next false :: l2), next. split; [by split|].
    split; [apply used_used_mid|]. split; [lia|done].
Qed.

(** The slot is too small: the bytes move to a new one. *)
Lemma realloc_move h l old n next rest size :
  heap_wf h l → used l ≡ₚ (old, next) :: rest → n ≤ next → 0 < size < 2147479000 → n mod 4 = 0 → old + 8 ≤ n →
  n - old ≤ Align size 4 →
  wp (let* new := malloc grant size in
      if new =? 0 then ret 0 else
      let* m := gets h_mem in
      match bcopy old new (n - old) m with
      | None => fault "address error in memcpy"
      | Some m' => modify (with_mem m') ;; free old ;; ret new
      end) h (λ p h', moved_to h old n rest size p h').
Proof.
  intros Hok Hu Hnn Hs Hn4 Hn Hfit.
  eapply wp_bind_mono; [apply (malloc_ok grant grant_small h l size); [by left|lia]|].
  rewrite (proj2 (Z.eqb_neq size 0)) by lia. intros p h1 (l1 & Hinv1 & Hk1 & Hres).
  assert (keeps rest (h_mem h) (h_mem h1) ∧ keeps [(old, n)] (h_mem h) (h_mem h1)) as [Hk1r Hk1o].
  { split; [eapply keeps_sub; [|exact Hk1]; intros y Hy; rewrite Hu; by right|].
    intros y q a [= -> ->]%list_elem_of_singleton Ha. apply (Hk1 old next); [rewrite Hu; by left|lia]. }
  destruct (Z.eqb_spec p 0) as [->|Hp].
  { destruct Hres as [Hu1 _]. apply wp_ret. exists l1. assert (heap_wf h1 l1) as Hok1.
    { destruct Hinv1 as [|(_ & _ & -> & _)]; [done|]. rewrite <- Hu1 in Hu.
      by apply Permutation_nil_cons in Hu. }
    split; [done|]. split; [done|]. simpl. exists next. rewrite Hu1. by split_and!. }
  destruct Hres as (q & Hu1 & Hq & Hp4 & Hp0 & Hok1). destruct (Align_4 size) as [Ha Ha4]; [lia|].
  pose proof (proj1 Hok1) as [Hg1 [Hlo1 Hb41] _ _ _ _].
  assert ((p, q) ∈ used l1) as Hpq by (rewrite Hu1; by left).
  pose proof (geo_in _ _ _ _ Hg1 Hb41 (proj1 (elem_of_used _ _ _) Hpq)) as (_ & _ & _ & _ & Hq4). simpl in Hq4.
  apply wp_bind, wp_gets. destruct (bcopy_ok old p (n - old) (h_mem h1)) as (m2 & -> & Hc1 & Hc2); [lia|].
  apply wp_bind, wp_modify. set (h2 := with_mem m2 h1).
  assert (∀ a, ¬ (p ≤ a < q - 4) → m2 a = h_mem h1 a) as Hout.
  { intros a Hna. apply Hc2. intros Hin. apply Hna. split; [lia|]. mlia. }
  assert (heap_wf h2 l1) as Hok2 by (split; [by eapply wf_user; [apply Hok1|exact Hpq|]|apply Hok1]).
  assert (keeps (used l) (h_mem h1) m2) as Hk2 by (by eapply keeps_user).
  assert ((old, next) ∈ used l1) as Hold by (rewrite Hu1, Hu; right; by left).
  eapply wp_bind_mono; [apply (free_used h2 l1 old next); [by left|exact Hold]|].
  intros _ h3 (l3 & _ & _ & Hu3 & Hk3 & Hok3). apply wp_ret. exists l3. split; [exact Hok3|].
  assert (used l3 ≡ₚ (p, q) :: rest) as Hu3'.
  { apply (Permutation_cons_inv (a := (old, next))). rewrite <- Hu3, Hu1, Hu. apply Permutation_swap. }
  split.
  - eapply keeps_trans; [exact Hk1r|]. eapply keeps_trans.
    + eapply keeps_sub; [|exact Hk2]. intros y Hy. rewrite Hu. by right.
    + eapply keeps_sub; [|exact Hk3]. intros y Hy. rewrite Hu3'. by right.
  - rewrite (proj2 (Z.eqb_neq p 0)) by done. exists q. split_and!; [done|lia|]. intros i Hi.
    rewrite (Hk3 p q); [|rewrite Hu3'; by left|mlia]. simpl. rewrite Hc1 by lia.
    apply (Hk1o old n); [by apply list_elem_of_singleton|lia].
Qed.

Lemma realloc_ok h l old n rest size :
  heap_wf h l → used l ≡ₚ (old, n) :: rest → 0 < size < 2147479000 →
  wp (realloc grant old size) h (λ p h', moved_to h old n rest size p h').
Proof.
  intros Hok Hu Hs. assert ((old, n) ∈ used l) as Hin by (rewrite Hu; by left).
  apply elem_of_used, list_elem_of_split in Hin as (l1 & l2 & ->).
  assert (used (l1 ++ l2) ≡ₚ rest) as Hr.
  { apply (Permutation_cons_inv (a := (old, n))). by rewrite <- Hu, used_used_mid. }
  destruct (wf_sub _ _ _ _ _ _ _ _ _ (proj1 Hok)) as (_ & Hn & Hn4 & Ho4 & _ & Hbo & Hnt & _ & Hno).
  destruct (wf_low _ _ _ _ _ (proj1 Hok)) as [Hlo _]. pose proof (wf_high _ _ _ _ _ (proj1 Hok)) as Hh.
  destruct (Align_4 size) as [Ha Ha4]; [lia|]. unfold realloc. change PTRSIZE with 4.
  destruct (Z.gtb_spec size (4294967296 - 2 * 4)); [lia|]. rewrite (u32_small (Align size 4 + 4)) by lia.
  apply wp_bind, wp_gets. change (old - PTRSIZE) with (old - 4). rewrite Hno, (u32_small (n - old)) by lia.
  set (len := Align size 4 + 4).
  eapply wp_bind_mono; [by apply extend_slot_ok|].
  intros next h1 (m1 & e1 & l2' & -> & Hok1 & Hnn & Hu2 & Hk1). set (h1 := with_links m1 e1 h) in *.
  assert (used (l1 ++ l2') ≡ₚ rest) as Hr1 by (by rewrite used_app, Hu2, <- used_app).
  assert (keeps rest (h_mem h) m1 ∧ keeps [(old, n)] (h_mem h) m1) as [Hkr Hko].
  { split; (eapply keeps_sub; [|exact Hk1]); intros y; rewrite ?list_elem_of_singleton.
    - rewrite <- Hr. by right.
    - intros ->. by left. }
  rewrite (u32_small (old + len)) by (unfold len; lia).
  rewrite (Z.geb_leb (old + len) old), (proj2 (Z.leb_le old (old + len))), andb_true_r by (unfold len; lia).
  destruct (Z.leb_spec (old + len) next) as [Hle|Hgt].
  - eapply wp_bind_mono; [apply (realloc_in_place h1 l1 old next l2' len); [done|unfold len; mlia..|done]|].
    intros _ h2 (l3 & q & Hok3 & Hu3 & Hq & Hk3). apply wp_ret. exists l3. split; [exact Hok3|]. split.
    + eapply keeps_trans; [exact Hkr|]. eapply keeps_sub; [|exact Hk3]. intros y. rewrite Hr1. by right.
    + rewrite (proj2 (Z.eqb_neq old 0)) by lia. exists q. rewrite Hu3, Hr1. split_and!; [done|unfold len in *; lia|].
      intros i Hi. rewrite (Hk3 old (old + len)); [|by left|unfold len; lia].
      apply (Hko old n); [by apply list_elem_of_singleton|lia].
  - eapply wp_mono; [apply (realloc_move h1 (l1 ++ Cell old next false :: l2') old n next rest size); try done|].
    + by rewrite used_used_mid, Hr1.
    + unfold len in Hgt. mlia.
    + intros p h2 (l3 & Hok3 & Hk3 & Hres). exists l3. split; [done|]. split; [by eapply keeps_trans|].
      destruct (p =? 0).
      * destruct Hres as (n' & Hn' & Hu3 & Hk4). exists n'. split_and!; [done|done|by eapply keeps_trans].
      * destruct Hres as (q & Hu3 & Hq & Hb). exists q. split_and!; [done|done|]. intros i Hi. rewrite Hb by done.
        apply (Hko old n); [by apply list_elem_of_singleton|lia].
Qed.
End realloc.

(** * The theorems on malloc(), free() and realloc() *)

Lemma used_apart h l x n y q :
  heap_wf h l → (x, n) ∈ used l → (y, q) ∈ used l → (x, n) = (y, q) ∨ n ≤ y ∨ q ≤ x.
Proof.
  intros [[Hg [_ Hb] _ _ _ _] _] Hx%elem_of_used Hy%elem_of_used.
  destruct (geo_sep _ _ _ _ _ Hg Hb Hx Hy) as [E|?]; [left; by injection E as -> ->|by right].
Qed.

Lemma used_nodup l a b : geo l a b → a mod 4 = 0 → NoDup (used l).
Proof.
  revert a. induction l as [|c l IH]; intros a; [constructor|]. intros (<- & H1 & H2 & H3) Ha.
  rewrite used_cons. destruct (c_free c); simpl; [eauto|]. constructor; [|eauto].
  intros Hin%elem_of_used. pose proof (geo_in _ _ _ _ H3 H2 Hin). simpl in *. lia.
Qed.

Section claims.
Variable grant : Z → bool.
Hypothesis grant_small : ∀ p, grant p = true → p < 2147483648.

(** C23.  malloc() returns either an aligned area of at least the bytes asked for,
    apart from every area in use, or NULL, and NULL only because the kernel
    refused a break that is not far beyond the heap and the request.  In both
    cases the areas in use stay in use with the bytes they hold, no assertion
    fails, and the heap stays in order: the slots follow each other, the free
    list has the free slots, and no two free slots are neighbours. *)
Theorem malloc_allocates h l size :
  heap_inv h l → 0 ≤ size < 2147479000 →
  wp (malloc grant size) h (λ p h', ∃ l', heap_inv h' l' ∧ keeps (used l) (h_mem h) (h_mem h') ∧
    if p =? 0
    then used l' = used l ∧ ∃ q, grant q = false ∧ q ≤ Z.max (h_top h') (h_brk h') + size + 1038
    else ∃ n, used l' ≡ₚ (p, n) :: used l ∧ p + size + 4 ≤ n ∧ p mod 4 = 0 ∧
         ∀ x q, (x, q) ∈ used l → q ≤ p ∨ n ≤ x).
Proof.
  intros Hinv Hs. eapply wp_mono; [by apply malloc_ok|].
  intros p h' (l' & Hinv' & Hk & Hres). exists l'. split; [done|]. split; [done|].
  assert (size ≤ (if size =? 0 then PTRSIZE else size) ≤ size + 4) as Hsz
    by (destruct (Z.eqb_spec size 0); unfold PTRSIZE; lia).
  destruct (Z.eqb_spec p 0).
  - destruct Hres as (Hu & q & Hq & Hle). split; [done|]. exists q. split; [done|lia].
  - destruct Hres as (n' & Hu & Hn & Hp4 & Hp0 & Hok). exists n'. split_and!; [done|lia|done|].
    intros x q Hx. destruct (used_apart h' l' x q p n' Hok) as [E|]; [rewrite Hu; by right|rewrite Hu; by left| |lia].
    injection E as -> ->. pose proof (proj1 Hok) as [Hg [_ Hb] _ _ _ _].
    pose proof (used_nodup _ _ _ Hg Hb) as Hnd. rewrite Hu in Hnd. by apply NoDup_cons in Hnd as [? _].
Qed.

(** C25.  realloc() to a size other than zero returns the area, in place or moved,
    with at least the bytes asked for and with the bytes it held, as far as
    both sizes go, or NULL with the area as it was; the other areas keep their
    bytes. *)
Theorem realloc_preserves h l old n rest size :
  heap_wf h l → used l ≡ₚ (old, n) :: rest → 0 < size < 2147479000 →
  wp (realloc grant old size) h (λ p h', ∃ l', heap_wf h' l' ∧ keeps rest (h_mem h) (h_mem h') ∧
    if p =? 0 then ∃ n', n ≤ n' ∧ used l' ≡ₚ (old, n') :: rest ∧ keeps [(old, n)] (h_mem h) (h_mem h')
    else ∃ q, used l' ≡ₚ (p, q) :: rest ∧ p + size + 4 ≤ q ∧
      ∀ i, 0 ≤ i < Z.min size (n - 4 - old) → h_mem h' (p + i) = h_mem h (old + i)).
Proof. apply realloc_ok, grant_small. Qed.
End claims.

(** C24.  free() of an area in use ends its use and nothing else: the other areas
    stay in use with the bytes they hold, and the heap stays in order, with
    the slot merged with its free neighbours. *)
Theorem free_gives_back h l p n :
  heap_inv h l → (p, n) ∈ used l →
  wp (free p) h (λ _ h', ∃ l', heap_inv h' l' ∧ used l ≡ₚ (p, n) :: used l' ∧ coal false l' ∧
    keeps (used l') (h_mem h) (h_mem h')).
Proof.
  intros Hinv Hu. eapply wp_mono; [by apply free_used|].
  intros _ h' (l' & Hinv' & _ & Hu' & Hk & Hok). exists l'. split_and!; [done|done|apply Hok|done].
Qed.

(** ** Witnesses and counterexamples *)

(** A process whose program ends at 0x100000, on 64K of memory. *)
Definition small_grant (p : Z) : bool := p <? 1110000.
Definition fresh_heap : heap := mkHeap (λ _, 0) 0 0 0 1048576.

Lemma small_grant_small p : small_grant p = true → p < 2147483648.
Proof. unfold small_grant. intros ?%Z.ltb_lt. lia. Qed.

Lemma fresh_heap_inv : heap_inv fresh_heap [].
Proof. right. split_and!; [done..|simpl; lia|simpl; lia]. Qed.

(** The same heap after malloc(10). *)
Definition one_slots : list cell := [Cell 1048580 1048596 false; Cell 1048596 1049600 true].
Definition one_heap : heap :=
  mkHeap (stp (stp (stp (λ a, if a <? 1048590 then a - 1048570 else 0) 1048576 1048596) 1048592 1049600) 1049596 0)
    1048580 1049600 1048596 1049600.

Lemma one_heap_wf : heap_wf one_heap one_slots.
Proof.
  split; [|done]. split; [simpl; split_and!; done || lia|simpl; split; [lia|done]|simpl; lia| |reflexivity|].
  2:{ split; [reflexivity|]. reflexivity. }
  intros c [-> | [-> | Hc%not_elem_of_nil]%elem_of_cons]%elem_of_cons; done || reflexivity.
Qed.

Lemma malloc_allocates_witness :
  wp (malloc small_grant 20) one_heap (λ p h', ∃ l', heap_inv h' l' ∧
    keeps [(1048580, 1048596)] (h_mem one_heap) (h_mem h')).
Proof.
  eapply wp_mono.
  - apply (malloc_allocates small_grant small_grant_small one_heap one_slots 20); [left; exact one_heap_wf|lia].
  - intros p h' (l' & Hinv & Hk & _). exists l'. split; [exact Hinv|exact Hk].
Defined.

Lemma realloc_preserves_witness :
  wp (realloc small_grant 1048580 2000) one_heap (λ p h',
    p ≠ 0 → ∀ i, 0 ≤ i < 12 → h_mem h' (p + i) = h_mem one_heap (1048580 + i)).
Proof.
  eapply wp_mono.
  - apply (realloc_preserves small_grant small_grant_small one_heap one_slots 1048580 1048596 [] 2000);
      [exact one_heap_wf|reflexivity|lia].
  - intros p h' (l' & _ & _ & Hres) Hp. rewrite (proj2 (Z.eqb_neq p 0) Hp) in Hres.
    destruct Hres as (q & _ & _ & Hb). intros i Hi. apply Hb. lia.
Defined.

Lemma free_gives_back_witness :
  wp (free 1048580) one_heap (λ _ h', ∃ l', heap_inv h' l' ∧ [(1048580, 1048596)] ≡ₚ (1048580, 1048596) :: used l').
Proof.
  eapply wp_mono.
  - apply (free_gives_back one_heap one_slots 1048580 1048596); [left; exact one_heap_wf|apply list_elem_of_singleton; reflexivity].
  - intros _ h' (l' & Hinv & Hu & _). exists l'. split; [exact Hinv|exact Hu].
Defined.

