(* ===== verification/Libstdio.v ===== *)
(** * Buffered streams of the C library (lib/stdio)

    One FILE.  [_p] is an index into the buffer it points into: the ungetc
    buffer while there is one, the main buffer otherwise.  The descriptor below
    the stream is part of the state: [s_sink] is what write() has taken so far,
    [s_wscript] how the next calls of write() will go, [s_src] what read() will
    deliver.  fstat(), isatty() and malloc() are parameters.  A store past the
    end of a buffer is a fault.  The walks over all streams that __srefill() and
    fflush(NULL) make concern other FILEs and are left out. *)

From S2P Require Import Prelude Bytes Params.

Definition SLBF : Z := 1.
Definition SNBF : Z := 2.
Definition SRD : Z := 4.
Definition SWR : Z := 8.
Definition SRW : Z := 16.
Definition SEOF : Z := 32.
Definition SERR : Z := 64.
Definition SMBF : Z := 128.
Definition SAPP : Z := 256.
Definition SSTR : Z := 512.
Definition SOPT : Z := 1024.
Definition SNPT : Z := 2048.
Definition SOFF : Z := 4096.
Definition SMOD : Z := 8192.

Definition BUFSIZ : Z := 1024.
Definition EOF : Z := -1.

(** What a call of read() delivers: bytes (none at the end of the file) or an error. *)
Inductive reading := RData (bs : list Z) | RErr.

Record FILE := mkFILE {
  s_p : Z;
  s_r : Z;
  s_w : Z;
  s_flags : Z;
  s_bf : option (list Z);       (* [_bf]: None for a NULL [_base] *)
  s_lbfsize : Z;
  s_ub : option (list Z);       (* [_ub] *)
  s_up : Z;
  s_ur : Z;
  s_sink : list Z;
  s_wscript : list Z;
  s_src : list reading;
}.

(** What the rest of the system says about the descriptor. *)
Record fdinfo := mkFd {
  fd_stat : option (Z * Z);     (* [st_mode & S_IFMT] and [st_blksize], None when fstat() fails *)
  fd_isatty : bool;
  fd_malloc : Z → bool;         (* does malloc() of this size succeed? *)
  fd_close : Z;                 (* what close() returns *)
}.

Definition S_IFCHR : Z := 8192.
Definition S_IFREG : Z := 32768.

Definition set_p (v : Z) (s : FILE) : FILE :=
  mkFILE v (s_r s) (s_w s) (s_flags s) (s_bf s) (s_lbfsize s) (s_ub s) (s_up s) (s_ur s) (s_sink s) (s_wscript s) (s_src s).
Definition set_r (v : Z) (s : FILE) : FILE :=
  mkFILE (s_p s) v (s_w s) (s_flags s) (s_bf s) (s_lbfsize s) (s_ub s) (s_up s) (s_ur s) (s_sink s) (s_wscript s) (s_src s).
Definition set_w (v : Z) (s : FILE) : FILE :=
  mkFILE (s_p s) (s_r s) v (s_flags s) (s_bf s) (s_lbfsize s) (s_ub s) (s_up s) (s_ur s) (s_sink s) (s_wscript s) (s_src s).
Definition set_flags (v : Z) (s : FILE) : FILE :=
  mkFILE (s_p s) (s_r s) (s_w s) v (s_bf s) (s_lbfsize s) (s_ub s) (s_up s) (s_ur s) (s_sink s) (s_wscript s) (s_src s).
Definition set_bf (v : option (list Z)) (s : FILE) : FILE :=
  mkFILE (s_p s) (s_r s) (s_w s) (s_flags s) v (s_lbfsize s) (s_ub s) (s_up s) (s_ur s) (s_sink s) (s_wscript s) (s_src s).
Definition set_lbfsize (v : Z) (s : FILE) : FILE :=
  mkFILE (s_p s) (s_r s) (s_w s) (s_flags s) (s_bf s) v (s_ub s) (s_up s) (s_ur s) (s_sink s) (s_wscript s) (s_src s).
Definition set_ub (v : option (list Z)) (s : FILE) : FILE :=
  mkFILE (s_p s) (s_r s) (s_w s) (s_flags s) (s_bf s) (s_lbfsize s) v (s_up s) (s_ur s) (s_sink s) (s_wscript s) (s_src s).
Definition set_saved (up ur : Z) (s : FILE) : FILE :=
  mkFILE (s_p s) (s_r s) (s_w s) (s_flags s) (s_bf s) (s_lbfsize s) (s_ub s) up ur (s_sink s) (s_wscript s) (s_src s).
Definition set_out (sink script : list Z) (s : FILE) : FILE :=
  mkFILE (s_p s) (s_r s) (s_w s) (s_flags s) (s_bf s) (s_lbfsize s) (s_ub s) (s_up s) (s_ur s) sink script (s_src s).
Definition set_src (v : list reading) (s : FILE) : FILE :=
  mkFILE (s_p s) (s_r s) (s_w s) (s_flags s) (s_bf s) (s_lbfsize s) (s_ub s) (s_up s) (s_ur s) (s_sink s) (s_wscript s) v.

Definition hasf (f : Z) (s : FILE) : bool := negb (Z.land (s_flags s) f =? 0).
Definition addf (f : Z) (s : FILE) : FILE := set_flags (Z.lor (s_flags s) f) s.
(** [_flags &= ~f] *)
Definition delf (f : Z) (s : FILE) : FILE := set_flags (Z.ldiff (s_flags s) f) s.
Definition HASUB (s : FILE) : bool := bool_decide (is_Some (s_ub s)).
(** [_bf._size] *)
Definition bfsize (s : FILE) : Z := match s_bf s with Some b => zlen b | None => 0 end.

(** ** The descriptor (stdio.c) *)

(** write(): the script says how many bytes are taken, or the error; when it has ended all are. *)
Definition fd_write (bs : list Z) : M FILE Z := λ s,
  match s_wscript s with
  | [] => Ret (zlen bs) (set_out (s_sink s ++ bs) [] s)
  | t :: l =>
      let t := Z.min t (zlen bs) in
      Ret t (set_out (if t <=? 0 then s_sink s else s_sink s ++ slice bs 0 t) l s)
  end.

(** With __SAPP the descriptor is moved to the end of the file first, where the sink is. *)
Definition swrite (bs : list Z) : M FILE Z :=
  modify (delf SOFF) ;;
  fd_write bs.

(** read() of up to [n] bytes *)
Definition sread (n : Z) : M FILE (Z * list Z) := λ s,
  match s_src s with
  | [] => Ret (0, []) s
  | RErr :: l => Ret (-1, []) (delf SOFF (set_src l s))
  | RData bs :: l =>
      let got := slice bs 0 n in
      Ret (zlen got, got) (set_src (if zlen bs <=? n then l else RData (drop (Z.to_nat n) bs) :: l) s)
  end.

(** [*_p] and [*_p = c], [bcopy(bs, _p, n)], in the main buffer *)
Definition COPY (bs : list Z) : M FILE unit := λ s,
  match s_bf s with
  | Some b =>
      if (0 <=? s_p s) && (s_p s + zlen bs <=? zlen b)
      then Ret tt (set_bf (Some (splice b (s_p s) bs)) s)
      else Fault "write past the end of a buffer"
  | None => Fault "write through a NULL pointer"
  end.

(** ** Flushing (fflush.c) *)

Definition sflush_loop (data : list Z) : M FILE Z :=
  loop (length data + 1) (λ data,
    if zlen data >? 0 then
      let* t := swrite data in
      if t <=? 0 then modify (addf SERR) ;; ret (inr EOF)
      else ret (inl (drop (Z.to_nat t) data))
    else ret (inr 0)) data.

Definition sflush : M FILE Z :=
  let* s := gets (λ s, s) in
  if negb (hasf SWR s) then ret 0 else
  match s_bf s with
  | None => ret 0
  | Some b =>
      let n := s_p s in
      modify (set_p 0) ;;
      modify (set_w (if hasf (Z.lor SLBF SNBF) s then 0 else zlen b)) ;;
      sflush_loop (slice b 0 n)
  end.

Definition fflush : M FILE Z :=
  let* s := gets (λ s, s) in
  if negb (hasf (Z.lor SWR SRW) s) then ret EOF else sflush.

Section stdio.
Variable fd : fdinfo.

(** ** Buffers (makebuf.c) *)

(** The flags, the size and whether it could be a terminal. *)
Definition swhatbuf : Z * Z * bool :=
  match fd_stat fd with
  | None => (SNPT, BUFSIZ, false)
  | Some (fmt, blksize) =>
      let couldbetty := fmt =? S_IFCHR in
      if blksize <=? 0 then (SNPT, BUFSIZ, couldbetty)
      else (if fmt =? S_IFREG then SOPT else SNPT, blksize, couldbetty)
  end.

Definition smakebuf : M FILE unit :=
  let* s := gets (λ s, s) in
  if hasf SNBF s then modify (λ s, set_p 0 (set_bf (Some [0]) s)) else
  let '(flags, size, couldbetty) := swhatbuf in
  if negb (fd_malloc fd size) then
    modify (addf SNBF) ;;
    modify (λ s, set_p 0 (set_bf (Some [0]) s))
  else
    let flags := Z.lor flags SMBF in
    modify (λ s, set_p 0 (set_bf (Some (zeros size)) s)) ;;
    modify (addf (if couldbetty && fd_isatty fd then Z.lor flags SLBF else flags)).

(** ** Writing (wsetup.c, wbuf.c, fvwrite.c) *)

Definition swsetup : M FILE Z :=
  let* s := gets (λ s, s) in
  if negb (hasf SWR s) && negb (hasf SRW s) then ret EOF else
  (if negb (hasf SWR s) then
     (if hasf SRD s then
        modify (set_ub None) ;;
        modify (delf (Z.lor SRD SEOF)) ;;
        modify (set_r 0) ;;
        modify (set_p 0)
      else ret tt) ;;
     modify (addf SWR)
   else ret tt) ;;
  (if bool_decide (s_bf s = None) then smakebuf else ret tt) ;;
  let* s := gets (λ s, s) in
  (if hasf SLBF s then modify (λ s, set_lbfsize (- bfsize s) (set_w 0 s))
   else modify (set_w (if hasf SNBF s then 0 else bfsize s))) ;;
  ret 0.

Definition cantwrite : M FILE bool :=
  let* s := gets (λ s, s) in
  if negb (hasf SWR s) || bool_decide (s_bf s = None)
  then let* r := swsetup in ret (negb (r =? 0))
  else ret false.

Definition swbuf (c : Z) : M FILE Z :=
  modify (λ s, set_w (s_lbfsize s) s) ;;
  let* cant := cantwrite in
  if cant : bool then ret EOF else
  let c := u8 c in
  let* s := gets (λ s, s) in
  let n := s_p s in
  let* r := (if n >=? bfsize s then
               let* r := fflush in ret (if r =? 0 then Some 0 else None)
             else ret (Some n)) in
  match r with
  | None => ret EOF
  | Some n =>
      modify (λ s, set_w (s_w s - 1) s) ;;
      COPY [c] ;;
      modify (λ s, set_p (s_p s + 1) s) ;;
      if (n + 1 =? bfsize s) || (hasf SLBF s && (c =? 10))
      then let* r := fflush in ret (if r =? 0 then c else EOF)
      else ret c
  end.

(** The inline __sputc() of stdio.h. *)
Definition putc (c : Z) : M FILE Z :=
  modify (λ s, set_w (s_w s - 1) s) ;;
  let* s := gets (λ s, s) in
  if (s_w s >=? 0) || ((s_w s >=? s_lbfsize s) && negb (u8 c =? 10)) then
    COPY [u8 c] ;;
    modify (λ s, set_p (s_p s + 1) s) ;;
    ret (u8 c)
  else swbuf c.

(** GETIOV: the rest of the current region and the regions after it, the first of them not empty. *)
Fixpoint GETIOV (p : list Z) (iov : list (list Z)) : option (list Z * list (list Z)) :=
  match p, iov with
  | _ :: _, _ => Some (p, iov)
  | [], [] => None
  | [], p :: iov => GETIOV p iov
  end.

(** [memchr(p, '\n', len)]: the distance to the first newline, included. *)
Fixpoint newline_dist (p : list Z) : Z :=
  match p with
  | [] => 1
  | c :: p => if c =? 10 then 1 else 1 + newline_dist p
  end.

(** One round for an unbuffered stream: the number of bytes written, or an error. *)
Definition put_unbuffered (p : list Z) : M FILE (option Z) :=
  let* w := swrite (slice p 0 (Z.min (zlen p) BUFSIZ)) in
  ret (if w <=? 0 then None else Some w).

(** [COPY(w); _p += w], and [_w -= w] where the code does it *)
Definition copy_in (bs : list Z) : M FILE unit :=
  COPY bs ;;
  modify (λ s, set_p (s_p s + zlen bs) s).
Definition fill (bs : list Z) : M FILE unit :=
  COPY bs ;;
  modify (λ s, set_w (s_w s - zlen bs) s) ;;
  modify (λ s, set_p (s_p s + zlen bs) s).

(** The three ways to write some of [p] into a buffer that has room for [room] bytes more. *)
Definition put_some (p : list Z) (room : Z) : M FILE (option Z) :=
  let* s := gets (λ s, s) in
  if (s_p s >? 0) && (zlen p >? room) then
    copy_in (slice p 0 room) ;;
    let* r := fflush in
    ret (if r =? 0 then Some room else None)
  else if zlen p >=? bfsize s then
    let* w := swrite (slice p 0 (bfsize s)) in
    ret (if w <=? 0 then None else Some w)
  else
    fill p ;; ret (Some (zlen p)).

Definition put_full (p : list Z) : M FILE (option Z) :=
  let* s := gets (λ s, s) in
  if hasf SSTR s then
    fill (slice p 0 (Z.min (s_w s) (zlen p))) ;; ret (Some (zlen p))
  else put_some p (s_w s).

(** One round for a line buffered stream; [nldist] is the distance to the newline. *)
Definition put_line (p : list Z) (nldist : Z) : M FILE (option Z) :=
  let* s := gets (λ s, s) in
  let* r := put_some (slice p 0 (Z.min (zlen p) nldist)) (s_w s + bfsize s) in
  match r with
  | Some w =>
      if nldist - w =? 0 then
        let* e := fflush in ret (if e =? 0 then Some w else None)
      else ret (Some w)
  | None => ret None
  end.

(** The loops of __sfvwrite(): the bytes that are left when it ends, [resid]. *)
Definition sfvwrite_loop (iov : list (list Z)) (resid : Z) : M FILE (Z * Z) :=
  loop (2 * Z.to_nat resid + 2) (λ '(p, iov, nl, resid),
    match GETIOV p iov with
    | None => fault "__sfvwrite: past the last region"
    | Some (p', iov) =>
        let* s := gets (λ s, s) in
        let nl := match p, nl with _ :: _, Some d => d | _, _ => newline_dist p' end in
        let* r := (if hasf SNBF s then put_unbuffered p'
                   else if hasf SLBF s then put_line p' nl else put_full p') in
        match r with
        | None => modify (addf SERR) ;; ret (inr (EOF, resid))
        | Some w =>
            if resid - w =? 0 then ret (inr (0, 0))
            else ret (inl (drop (Z.to_nat w) p', iov, if nl - w =? 0 then None else Some (nl - w), resid - w))
        end
    end) ([], iov, None, resid).

(** The result, and [uio_resid] when it ends. *)
Definition sfvwrite (iov : list (list Z)) : M FILE (Z * Z) :=
  let resid := zlen (concat iov) in
  if resid =? 0 then ret (0, 0) else
  let* cant := cantwrite in
  if cant : bool then ret (EOF, resid) else sfvwrite_loop iov resid.

(** [count] objects of [size] bytes *)
Definition fwrite (buf : list Z) (size count : Z) : M FILE Z :=
  let n := u32 (count * size) in
  let* r := sfvwrite [slice buf 0 n] in
  if fst r =? 0 then ret count else ret ((n - snd r) / size).

(** A string argument is its characters, without the NUL. *)
Definition fputs (str : list Z) : M FILE Z :=
  let* r := sfvwrite [str] in ret (fst r).
Definition puts (str : list Z) : M FILE Z :=
  let* r := sfvwrite [str; [10]] in ret (if fst r =? 0 then 10 else EOF).

Definition fclose : M FILE Z :=
  let* s := gets (λ s, s) in
  if s_flags s =? 0 then ret EOF else
  let* r := (if hasf SWR s then sflush else ret 0) in
  let r := if fd_close fd <? 0 then EOF else r in
  modify (set_ub None) ;;
  modify (set_flags 0) ;;
  ret r.
End stdio.
