(* ===== verification/LibstdioSpec.v ===== *)
(** * Buffered output: what reaches the descriptor

    The bytes a program has written to a stream are those the descriptor has
    taken followed by those that wait in the buffer. *)

From S2P Require Import Prelude Bytes Params Libstdio.

Definition pending (s : FILE) : list Z :=
  match s_bf s with Some b => slice b 0 (s_p s) | None => [] end.
Definition contents (s : FILE) : list Z := s_sink s ++ pending s.

(** A stream that is set up for writing.  [_w] counts down to the end of the
    buffer when the stream is fully buffered and below zero when it is line
    buffered, where no line that has ended waits in the buffer. *)
Record wbase (s : FILE) : Prop := {
  wb_wr : hasf SWR s = true;
  wb_str : hasf SSTR s = false;
  wb_bf : ∃ b, s_bf s = Some b ∧ 1 ≤ zlen b ∧ 0 ≤ s_p s ≤ zlen b;
  wb_mode :
    (hasf SNBF s = true ∧ hasf SLBF s = false ∧ s_p s = 0 ∧ s_w s = 0 ∧ s_lbfsize s = 0 ∧ bfsize s = 1) ∨
    (hasf SNBF s = false ∧ hasf SLBF s = true ∧ s_w s = - s_p s ∧ s_lbfsize s = - bfsize s) ∨
    (hasf SNBF s = false ∧ hasf SLBF s = false ∧ s_w s = bfsize s - s_p s ∧ s_lbfsize s = 0);
}.

(** The same but for [_w], which the code leaves behind before a flush. *)
Record wpre (s : FILE) : Prop := {
  wp_wr : hasf SWR s = true;
  wp_str : hasf SSTR s = false;
  wp_bf : ∃ b, s_bf s = Some b ∧ 1 ≤ zlen b ∧ 0 ≤ s_p s ≤ zlen b;
  wp_mode :
    (hasf SNBF s = true ∧ hasf SLBF s = false ∧ s_lbfsize s = 0 ∧ bfsize s = 1) ∨
    (hasf SNBF s = false ∧ hasf SLBF s = true ∧ s_lbfsize s = - bfsize s) ∨
    (hasf SNBF s = false ∧ hasf SLBF s = false ∧ s_lbfsize s = 0);
}.

Lemma wbase_pre s : wbase s → wpre s.
Proof. intros [A B C D]. split; [done..|]. naive_solver. Qed.

Definition lines_out (s : FILE) : Prop := hasf SLBF s = true → 10 ∉ pending s.
Definition wstream (s : FILE) : Prop := wbase s ∧ lines_out s.

(** A stream that fopen() has just opened for writing. *)
Record wfresh (s : FILE) : Prop := {
  wf_wr : hasf SWR s = true;
  wf_str : hasf SSTR s = false;
  wf_lbf : hasf SLBF s = false;
  wf_bf : s_bf s = None;
  wf_p : s_p s = 0;
  wf_w : s_w s = 0;
  wf_lbfsize : s_lbfsize s = 0;
}.

Definition writable (s : FILE) : Prop := wstream s ∨ wfresh s.

(** ** Flags *)

(** The flags that say how the stream is buffered. *)
Definition MODE : Z := 523.

Lemma hasf_mode f s s' :
  Z.land MODE f = f → Z.land (s_flags s') MODE = Z.land (s_flags s) MODE → hasf f s' = hasf f s.
Proof. intros Hf E. unfold hasf. by rewrite <- Hf, !Z.land_assoc, E. Qed.

Lemma land_lor_other x a b : Z.land a b = 0 → Z.land (Z.lor x a) b = Z.land x b.
Proof. intros E. by rewrite Z.land_lor_distr_l, E, Z.lor_0_r. Qed.

Lemma land_ldiff_other x a b : Z.ldiff b a = b → Z.land (Z.ldiff x a) b = Z.land x b.
Proof. intros E. rewrite <- E at 2. by rewrite !Z.ldiff_land, <- Z.land_assoc, (Z.land_comm (Z.lnot a)). Qed.

Lemma hasf_or f g s : hasf (Z.lor f g) s = hasf f s || hasf g s.
Proof.
  unfold hasf. rewrite Z.land_lor_distr_r.
  destruct (Z.eqb_spec (Z.land (s_flags s) f) 0) as [->|H1]; simpl; [done|].
  destruct (Z.eqb_spec (Z.lor (Z.land (s_flags s) f) (Z.land (s_flags s) g)) 0) as [E|]; [|done].
  apply Z.lor_eq_0_iff in E as [E _]. done.
Qed.

(** ** Steps that only involve the descriptor *)

Definition io (s s' : FILE) : Prop :=
  ∃ fl sk sc, s' = set_flags fl (set_out sk sc s) ∧ Z.land fl MODE = Z.land (s_flags s) MODE.

Lemma io_refl s : io s s.
Proof. exists (s_flags s), (s_sink s), (s_wscript s). by destruct s. Qed.

Lemma io_trans s1 s2 s3 : io s1 s2 → io s2 s3 → io s1 s3.
Proof.
  intros (f1 & k1 & c1 & -> & E1) (f2 & k2 & c2 & -> & E2). exists f2, k2, c2. split; [done|].
  simpl in E2. congruence.
Qed.

Lemma io_pending s s' : io s s' → pending s' = pending s.
Proof. by intros (fl & sk & sc & -> & _). Qed.

Lemma io_hasf f s s' : Z.land MODE f = f → io s s' → hasf f s' = hasf f s.
Proof. intros Hf (fl & sk & sc & -> & E). by apply hasf_mode. Qed.

Lemma io_wbase s s' : io s s' → wbase s → wbase s'.
Proof.
  intros Hio [A B (b & Hb & L & P) M].
  rewrite <- (io_hasf SWR s s') in A by done. rewrite <- (io_hasf SSTR s s') in B by done.
  rewrite <- (io_hasf SNBF s s'), <- (io_hasf SLBF s s') in M by done.
  destruct Hio as (fl & sk & sc & -> & E). split; [done|done|by exists b|done].
Qed.

Lemma io_lines s s' : io s s' → lines_out s → lines_out s'.
Proof. intros Hio Hl. unfold lines_out. by rewrite (io_hasf SLBF s s'), (io_pending s s'). Qed.

Lemma io_add f s : Z.land f MODE = 0 → io s (addf f s).
Proof.
  intros E. exists (Z.lor (s_flags s) f), (s_sink s), (s_wscript s). split; [by destruct s|]. by apply land_lor_other.
Qed.

Lemma swrite_ok bs s :
  wp (swrite bs) s (λ t s', io s s' ∧ t ≤ zlen bs ∧ s_sink s' = s_sink s ++ slice bs 0 t).
Proof.
  unfold swrite. apply wp_bind, wp_modify. unfold wp, fd_write. simpl.
  assert (Z.land (Z.ldiff (s_flags s) SOFF) MODE = Z.land (s_flags s) MODE) as E by (by apply land_ldiff_other).
  destruct (s_wscript s) as [|t l]; simpl.
  - split; [by eexists _, _, _|]. split; [done|]. by rewrite slice_all.
  - split; [by eexists _, _, _|]. split; [lia|]. destruct (Z.leb_spec (Z.min t (zlen bs)) 0); [|done].
    unfold slice. replace (Z.to_nat (Z.min t (zlen bs))) with 0%nat by lia. by rewrite take_0, app_nil_r.
Qed.

(** ** Flushing *)

Lemma sflush_loop_ok data s :
  wp (sflush_loop data) s (λ r s', io s s' ∧
    ((r = 0 ∧ s_sink s' = s_sink s ++ data) ∨
     (r = EOF ∧ hasf SERR s' = true ∧ s_sink s' `prefix_of` s_sink s ++ data ∧ s_sink s `prefix_of` s_sink s'))).
Proof.
  unfold sflush_loop.
  eapply (wp_loop _ (λ n d s1, n = length d ∧ io s s1 ∧ ∃ out, data = out ++ d ∧ s_sink s1 = s_sink s ++ out)
    _ ) with (n := length data); [|lia|].
  2: { split; [done|]. split; [apply io_refl|]. exists []. by rewrite app_nil_r. }
  intros n d s1 (-> & Hio & out & -> & Hs). rewrite Z.gtb_ltb. destruct (Z.ltb_spec 0 (zlen d)) as [Hd|Hd].
  - eapply wp_bind_mono; [apply swrite_ok|]. intros t s2 (Hio2 & Ht & Hs2). destruct (Z.leb_spec t 0) as [Hle|Hgt].
    + apply wp_bind, wp_modify, wp_ret. unfold slice in Hs2. replace (Z.to_nat t) with 0%nat in Hs2 by lia.
      rewrite take_0, app_nil_r in Hs2. split.
      * eapply io_trans; [exact Hio|]. eapply io_trans; [exact Hio2|]. by apply io_add.
      * right. simpl. rewrite Hs2, Hs. split; [done|]. split.
        -- unfold hasf, addf. simpl. rewrite Z.land_lor_distr_l. change (Z.land SERR SERR) with 64.
           destruct (Z.eqb_spec (Z.lor (Z.land (s_flags s2) SERR) 64) 0) as [E|]; [|done].
           apply Z.lor_eq_0_iff in E as [_ E]. done.
        -- split; [rewrite app_assoc|]; by eexists.
    + apply wp_ret. exists (length (drop (Z.to_nat t) d)). split.
      { rewrite length_drop. unfold zlen in *. lia. }
      split; [done|]. split; [by eapply io_trans|]. exists (out ++ take (Z.to_nat t) d).
      split; [by rewrite <- app_assoc, take_drop|]. rewrite Hs2, Hs, app_assoc. unfold slice. by rewrite drop_0.
  - apply wp_ret. split; [done|]. left. split; [done|]. destruct d; [|unfold zlen in Hd; simpl in Hd; lia].
    by rewrite app_nil_r in *.
Qed.

(** What a flush that returns [r] does. *)
Record flushed (s : FILE) (r : Z) (s' : FILE) : Prop := {
  fl_wbase : wbase s';
  fl_p : s_p s' = 0;
  fl_mode : Z.land (s_flags s') MODE = Z.land (s_flags s) MODE;
  fl_size : bfsize s' = bfsize s;
  fl_grows : s_sink s `prefix_of` s_sink s';
  fl_done : (r = 0 ∧ s_sink s' = contents s) ∨
            (r = EOF ∧ hasf SERR s' = true ∧ s_sink s' `prefix_of` contents s);
}.

Lemma flushed_pending s r s' : flushed s r s' → pending s' = [].
Proof. intros Hf. unfold pending. rewrite (fl_p _ _ _ Hf). by destruct (s_bf s'). Qed.

Lemma flushed_wstream s r s' : flushed s r s' → wstream s'.
Proof.
  intros Hf. split; [by eapply fl_wbase|]. intros _. rewrite (flushed_pending _ _ _ Hf). by apply not_elem_of_nil.
Qed.

Lemma sflush_ok s : wpre s → wp sflush s (flushed s).
Proof.
  intros [A B (b & Hbf & L & P) Md]. unfold sflush. apply wp_bind, wp_gets.
  rewrite A, Hbf. simpl negb. cbv iota. do 2 (apply wp_bind, wp_modify).
  set (s1 := set_w _ _). assert (wbase s1) as H1.
  { split; [done|done|exists b; simpl; split; [done|lia]|]. simpl. unfold hasf in Md |- *. simpl.
    fold (hasf (Z.lor SLBF SNBF) s). rewrite hasf_or. unfold hasf, bfsize in *. simpl. rewrite Hbf in *.
    destruct Md as [(E1 & E2 & E3 & E4)|[(E1 & E2 & E3)|(E1 & E2 & E3)]]; rewrite E1, E2; simpl.
    - left. by split_and!.
    - right. left. by split_and!.
    - right. right. split_and!; try done. lia. }
  eapply wp_mono; [apply sflush_loop_ok|]. intros r s' [Hio Hr].
  assert (contents s = s_sink s ++ slice b 0 (s_p s)) as Ec by (unfold contents, pending; by rewrite Hbf).
  destruct Hio as (fl & sk & sc & -> & E). split.
  - eapply io_wbase; [|exact H1]. by exists fl, sk, sc.
  - done.
  - done.
  - done.
  - simpl in *. destruct Hr as [[-> ->]|(-> & _ & _ & ?)]; [by eexists|done].
  - rewrite Ec. simpl in *. tauto.
Qed.

Lemma fflush_ok s : wpre s → wp fflush s (flushed s).
Proof.
  intros Hb. unfold fflush. apply wp_bind, wp_gets. rewrite hasf_or, (wp_wr _ Hb). by apply sflush_ok.
Qed.

(** ** Moving bytes into the buffer *)

Lemma pending_splice s b bs :
  s_bf s = Some b → 0 ≤ s_p s → s_p s + zlen bs ≤ zlen b →
  slice (splice b (s_p s) bs) 0 (s_p s + zlen bs) = pending s ++ bs.
Proof.
  intros Hb Hp Hl. unfold pending. rewrite Hb. unfold slice, splice, zlen in *. rewrite !drop_0.
  replace (Z.to_nat (s_p s + Z.of_nat (length bs))) with (Z.to_nat (s_p s) + length bs)%nat by lia.
  rewrite app_assoc, take_app_le by (rewrite length_app, length_take; lia).
  apply take_ge. rewrite length_app, length_take. lia.
Qed.

Lemma COPY_ok s b bs (Q : unit → FILE → Prop) :
  s_bf s = Some b → 0 ≤ s_p s → s_p s + zlen bs ≤ zlen b →
  Q tt (set_bf (Some (splice b (s_p s) bs)) s) → wp (COPY bs) s Q.
Proof.
  intros Hb Hp Hl HQ. unfold wp, COPY. rewrite Hb.
  rewrite (proj2 (Z.leb_le 0 (s_p s)) Hp), (proj2 (Z.leb_le _ _) Hl). done.
Qed.

(** A stream that is buffered: [room] bytes fit. *)
Lemma wbase_room s : wbase s → hasf SNBF s = false →
  (if hasf SLBF s then s_w s + bfsize s else s_w s) = bfsize s - s_p s.
Proof.
  intros [_ _ _ [(E & _)|[(_ & -> & -> & _)|(_ & -> & -> & _)]]] Hn; [congruence|lia|lia].
Qed.

(** The stream after [bs] went into its buffer, with [_w] adjusted. *)
Definition filled (b bs : list Z) (s : FILE) : FILE :=
  set_p (s_p s + zlen bs) (set_w (s_w s - zlen bs) (set_bf (Some (splice b (s_p s) bs)) s)).

Lemma filled_wbase s b bs :
  wbase s → hasf SNBF s = false → s_bf s = Some b → s_p s + zlen bs ≤ zlen b → wbase (filled b bs s).
Proof.
  intros [A B (b' & Hb' & L & P) M] Hn Hb Hl. rewrite Hb in Hb'. injection Hb' as <-.
  pose proof (zlen_nonneg bs). assert (zlen (splice b (s_p s) bs) = zlen b) as El by (rewrite zlen_splice; lia).
  split; [done|done| |].
  - exists (splice b (s_p s) bs). simpl. rewrite El. split; [done|lia].
  - unfold filled, bfsize in *. simpl. rewrite El. rewrite Hb in M.
    destruct M as [(E & _)|[(E1 & E2 & E3 & E4)|(E1 & E2 & E3 & E4)]]; [congruence| |].
    + right. left. split_and!; try done. lia.
    + right. right. split_and!; try done. lia.
Qed.

(** Whatever [_w] is after it. *)
Lemma filled_wpre s b bs v :
  wpre s → s_bf s = Some b → s_p s + zlen bs ≤ zlen b → wpre (set_w v (filled b bs s)).
Proof.
  intros [A B (b' & Hb' & L & P) M] Hb Hl. rewrite Hb in Hb'. injection Hb' as <-.
  pose proof (zlen_nonneg bs). assert (zlen (splice b (s_p s) bs) = zlen b) as El by (rewrite zlen_splice; lia).
  split; [done|done| |].
  - exists (splice b (s_p s) bs). simpl. rewrite El. split; [done|lia].
  - unfold filled, bfsize in *. simpl. rewrite El. by rewrite Hb in M.
Qed.

Lemma filled_contents s b bs :
  s_bf s = Some b → 0 ≤ s_p s → s_p s + zlen bs ≤ zlen b →
  pending (filled b bs s) = pending s ++ bs ∧ contents (filled b bs s) = contents s ++ bs.
Proof.
  intros Hb Hp Hl. assert (pending (filled b bs s) = pending s ++ bs) as E by (by apply pending_splice).
  split; [done|]. unfold contents. rewrite E, app_assoc. done.
Qed.

(** ** One round of the loops of __sfvwrite() *)

(** A round that gets rid of [w] of the bytes [p], or fails. *)
Record round (s : FILE) (p : list Z) (r : option Z) (s' : FILE) : Prop := {
  ro_wstream : wstream s';
  ro_mode : Z.land (s_flags s') MODE = Z.land (s_flags s) MODE;
  ro_grows : s_sink s `prefix_of` s_sink s';
  ro_done : match r with
    | Some w => 0 ≤ w ≤ zlen p ∧ contents s' = contents s ++ take (Z.to_nat w) p ∧
                (w = 0 → 0 < s_p s ∧ s_p s' = 0) ∧ (hasf SLBF s = true → w ≤ newline_dist p)
    | None => s_sink s' `prefix_of` contents s ++ p
    end;
}.

Lemma contents_empty s : pending s = [] → contents s = s_sink s.
Proof. unfold contents. intros ->. by rewrite app_nil_r. Qed.

Lemma flushed_contents s s' : flushed s 0 s' → contents s' = contents s.
Proof.
  intros Hf. rewrite contents_empty by (by eapply flushed_pending).
  destruct (fl_done _ _ _ Hf) as [[_ E]|[E _]]; [done|discriminate].
Qed.

Lemma flushed_prefix s r s' : flushed s r s' → s_sink s' `prefix_of` contents s.
Proof. intros Hf. destruct (fl_done _ _ _ Hf) as [[_ ->]|(_ & _ & ?)]; done. Qed.

Lemma flushed_result s r s' : flushed s r s' → r = 0 ∨ r = EOF.
Proof. intros Hf. destruct (fl_done _ _ _ Hf) as [[-> _]|[-> _]]; auto. Qed.

Lemma slice_take (p : list Z) n : slice p 0 n = take (Z.to_nat n) p.
Proof. unfold slice. by rewrite drop_0. Qed.

(** What put_some() does, before line buffering has its say. *)
Record some_put (s : FILE) (p : list Z) (r : option Z) (s' : FILE) : Prop := {
  sp_wbase : wbase s';
  sp_mode : Z.land (s_flags s') MODE = Z.land (s_flags s) MODE;
  sp_grows : s_sink s `prefix_of` s_sink s';
  sp_done : match r with
    | Some w => 0 ≤ w ≤ zlen p ∧ contents s' = contents s ++ take (Z.to_nat w) p ∧
                (w = 0 → 0 < s_p s ∧ s_p s' = 0) ∧ (pending s' = [] ∨ (w = zlen p ∧ pending s' = pending s ++ p))
    | None => pending s' = [] ∧ s_sink s' `prefix_of` contents s ++ p
    end;
}.

Section put_some.
Variables (s : FILE) (p b : list Z).
Hypothesis Hb : wbase s.
Hypothesis Hn : hasf SNBF s = false.
Hypothesis Hbf : s_bf s = Some b.
Hypothesis Hlp : 1 ≤ zlen p.

Lemma put_flush room :
  0 < s_p s → room = zlen b - s_p s → room < zlen p →
  wp (copy_in (slice p 0 room) ;; let* r := fflush in ret (if r =? 0 then Some room else None)) s (some_put s p).
Proof.
  intros H0 Er Hr. destruct (wb_bf _ Hb) as (b' & Hb' & L & P). rewrite Hbf in Hb'. injection Hb' as <-.
  set (bs := slice p 0 room).
  assert (zlen bs = room) as Ebs by (unfold bs, slice, zlen in *; rewrite drop_0, length_take; lia).
  apply wp_bind, wp_bind. apply (COPY_ok s b); [done|lia|lia|]. apply wp_modify, wp_bind.
  destruct (filled_contents s b bs) as [_ Ec]; [done|lia|lia|].
  set (s1 := set_p _ _). assert (wpre s1) as Hf.
  { change (wpre (set_w (s_w s) (filled b bs s))). apply filled_wpre; [by apply wbase_pre|done|lia]. }
  change (contents (filled b bs s)) with (contents s1) in Ec.
  eapply wp_mono; [apply (fflush_ok _ Hf)|]. intros r s' Hfl. apply wp_ret. split; [by eapply fl_wbase|apply (fl_mode _ _ _ Hfl)|apply (fl_grows _ _ _ Hfl)|].
  destruct (flushed_result _ _ _ Hfl) as [-> | ->]; simpl.
  - split; [lia|]. rewrite (flushed_contents _ _ Hfl), Ec. split; [by unfold bs; rewrite slice_take|].
    split; [intros _; split; [lia|apply (fl_p _ _ _ Hfl)]|]. left. by eapply flushed_pending.
  - split; [by eapply flushed_pending|]. etrans; [by eapply flushed_prefix|]. rewrite Ec.
    apply prefix_app. unfold bs. rewrite slice_take. apply prefix_take.
Qed.

Lemma put_direct bs :
  s_p s = 0 → bs `prefix_of` p →
  wp (let* w := swrite bs in ret (if w <=? 0 then None else Some w)) s (some_put s p).
Proof.
  intros H0 [rest Ep]. assert (pending s = []) as Epn by (unfold pending; by rewrite Hbf, H0).
  eapply wp_bind_mono; [apply swrite_ok|]. intros w s' (Hio & Hw & Hs). apply wp_ret.
  assert (zlen bs ≤ zlen p) by (rewrite Ep; unfold zlen; rewrite length_app; lia). split.
  - by eapply io_wbase.
  - by destruct Hio as (fl & sk & sc & -> & E).
  - rewrite Hs. by eexists.
  - rewrite (contents_empty s Epn). destruct (Z.leb_spec w 0) as [Hle|Hgt].
    + rewrite (io_pending _ _ Hio). split; [done|]. rewrite Hs. unfold slice. replace (Z.to_nat w) with 0%nat by lia.
      rewrite take_0. apply prefix_app, prefix_nil.
    + rewrite contents_empty by (by rewrite (io_pending _ _ Hio)). split; [lia|]. split.
      * rewrite Hs, slice_take, Ep, take_app_le by (unfold zlen in *; lia). done.
      * split; [lia|]. left. by rewrite (io_pending _ _ Hio).
Qed.

Lemma put_fill :
  s_p s + zlen p ≤ zlen b → wp (fill p ;; ret (Some (zlen p))) s (some_put s p).
Proof.
  intros Hl. destruct (wb_bf _ Hb) as (b' & Hb' & L & P). rewrite Hbf in Hb'. injection Hb' as <-.
  apply wp_bind, wp_bind. apply (COPY_ok s b); [done|lia|lia|]. apply wp_bind, wp_modify, wp_modify, wp_ret.
  destruct (filled_contents s b p) as [Epn Ec]; [done|lia|lia|].
  enough (some_put s p (Some (zlen p)) (filled b p s)) by done. split.
  - by apply filled_wbase.
  - done.
  - exists []. by rewrite app_nil_r.
  - split; [lia|]. split; [rewrite Ec; f_equal; symmetry; apply take_ge; unfold zlen; lia|]. split; [lia|]. by right.
Qed.

Lemma put_some_ok : wp (put_some p (bfsize s - s_p s)) s (some_put s p).
Proof.
  destruct (wb_bf _ Hb) as (b' & Hb' & L & P). rewrite Hbf in Hb'. injection Hb' as <-.
  assert (bfsize s = zlen b) as Es by (unfold bfsize; by rewrite Hbf).
  unfold put_some. apply wp_bind, wp_gets. rewrite !Z.gtb_ltb, Es.
  destruct (Z.ltb_spec 0 (s_p s)), (Z.ltb_spec (zlen b - s_p s) (zlen p)); simpl andb; cbv iota.
  - by apply put_flush.
  - destruct (Z.geb_spec (zlen p) (zlen b)); [lia|]. apply put_fill. lia.
  - destruct (Z.geb_spec (zlen p) (zlen b)); [|lia]. apply put_direct; [lia|]. rewrite slice_take. apply prefix_take.
  - destruct (Z.geb_spec (zlen p) (zlen b)); [apply put_direct; [lia|rewrite slice_take; apply prefix_take]|].
    apply put_fill. lia.
Qed.
End put_some.

Lemma some_put_round s p r s' : hasf SLBF s = false → some_put s p r s' → round s p r s'.
Proof.
  intros Hl [B M G D]. split; [|done|done|].
  - split; [done|]. intros E. rewrite (hasf_mode SLBF s s') in E by done. congruence.
  - destruct r; [|by destruct D]. destruct D as (? & ? & ? & _). split_and!; congruence || tauto || done.
Qed.

Lemma put_full_ok s p :
  wstream s → hasf SNBF s = false → hasf SLBF s = false → p ≠ [] → wp (put_full p) s (round s p).
Proof.
  intros [Hb Hl] Hn Hlb Hp. destruct (wb_bf _ Hb) as (b & Hbf & _). unfold put_full. apply wp_bind, wp_gets.
  rewrite (wb_str _ Hb). pose proof (wbase_room s Hb Hn) as Er. rewrite Hlb in Er. rewrite Er.
  eapply wp_mono; [apply (put_some_ok s p b); try done|]; [destruct p; [done|unfold zlen; simpl; lia]|].
  intros r s'. by apply some_put_round.
Qed.

Lemma put_unbuffered_ok s p :
  wstream s → hasf SNBF s = true → p ≠ [] → wp (put_unbuffered p) s (round s p).
Proof.
  intros [Hb Hl] Hn Hp. destruct (wb_bf _ Hb) as (b & Hbf & _).
  destruct (wb_mode _ Hb) as [(_ & Hlb & H0 & _)|[(E & _)|(E & _)]]; [|congruence..].
  eapply wp_mono; [apply (put_direct s p b)|]; try done; [rewrite slice_take; apply prefix_take|].
  intros r s'. by apply some_put_round.
Qed.

(** *** Line buffering *)

Lemma newline_dist_pos p : 1 ≤ newline_dist p.
Proof. induction p as [|c p IH]; simpl; [lia|]. destruct (c =? 10); lia. Qed.

Lemma newline_dist_drop p w :
  0 ≤ w < newline_dist p → newline_dist (drop (Z.to_nat w) p) = newline_dist p - w.
Proof.
  revert w. induction p as [|c p IH]; simpl; intros w Hw.
  - assert (w = 0) as -> by lia. done.
  - destruct (decide (w = 0)) as [->|]; [simpl; lia|]. destruct (Z.eqb_spec c 10); [lia|].
    replace (Z.to_nat w) with (S (Z.to_nat (w - 1))) by lia. simpl. rewrite IH; lia.
Qed.

Lemma newline_dist_none p : zlen p < newline_dist p → 10 ∉ p.
Proof.
  unfold zlen. induction p as [|c p IH]; simpl; intros Hp; [by apply not_elem_of_nil|].
  destruct (Z.eqb_spec c 10) as [|Hc]; [lia|]. apply not_elem_of_cons. split; [congruence|apply IH; lia].
Qed.

Lemma put_line_ok s p :
  wstream s → hasf SNBF s = false → hasf SLBF s = true → p ≠ [] →
  wp (put_line p (newline_dist p)) s (round s p).
Proof.
  intros [Hb Hl] Hn Hlb Hp. destruct (wb_bf _ Hb) as (b & Hbf & _). unfold put_line. apply wp_bind, wp_gets.
  pose proof (wbase_room s Hb Hn) as Er. rewrite Hlb in Er. rewrite Er.
  pose proof (newline_dist_pos p) as Hd. set (nl := newline_dist p) in *. set (q := slice p 0 _).
  assert (1 ≤ zlen p) as Hlp by (destruct p; [done|unfold zlen; simpl; lia]).
  assert (q = take (Z.to_nat (Z.min (zlen p) nl)) p) as Eq by apply slice_take.
  assert (zlen q = Z.min (zlen p) nl) as El by (rewrite Eq; unfold zlen in *; rewrite length_take; lia).
  apply wp_bind. eapply wp_mono; [apply (put_some_ok s q b); try done; lia|].
  intros r s1 [B M G D]. destruct r as [w|].
  - destruct D as (Hw & Ec & Hz & Hpn).
    assert (contents s1 = contents s ++ take (Z.to_nat w) p) as Ec'
      by (rewrite Ec, Eq, take_take; do 2 f_equal; lia).
    destruct (Z.eqb_spec (nl - w) 0) as [Ez|Ez].
    + apply wp_bind. eapply wp_mono; [apply (fflush_ok _ (wbase_pre _ B))|]. intros r s2 Hf. apply wp_ret.
      split; [by eapply flushed_wstream|rewrite (fl_mode _ _ _ Hf); exact M|etrans; [exact G|apply (fl_grows _ _ _ Hf)]|].
      destruct (flushed_result _ _ _ Hf) as [-> | ->]; simpl.
      * rewrite (flushed_contents _ _ Hf). split; [lia|]. split; [done|]. fold nl. lia.
      * etrans; [by eapply flushed_prefix|]. rewrite Ec'. apply prefix_app, prefix_take.
    + apply wp_ret. split; [split; [done|]|done|done|split; [lia|split; [done|split; [done|fold nl; lia]]]]. intros _.
      destruct Hpn as [-> | [Ew ->]]; [by apply not_elem_of_nil|]. apply not_elem_of_app. split; [by apply Hl|].
      intros Hin. apply (newline_dist_none p); [fold nl; lia|]. rewrite Eq in Hin.
      rewrite <- (take_drop (Z.to_nat (Z.min (zlen p) nl)) p). apply elem_of_app. by left.
  - apply wp_ret. destruct D as [Epn Hpre]. split; [split; [done|]|done|done|].
    + intros _. rewrite Epn. by apply not_elem_of_nil.
    + etrans; [exact Hpre|]. rewrite Eq. apply prefix_app, prefix_take.
Qed.

(** ** __sfvwrite() *)

Lemma GETIOV_ok p iov :
  p ++ concat iov ≠ [] →
  ∃ p' iov', GETIOV p iov = Some (p', iov') ∧ p' ≠ [] ∧ p' ++ concat iov' = p ++ concat iov ∧ (p ≠ [] → p' = p).
Proof.
  revert p. induction iov as [|q iov IH]; intros [|c p] Hne; simpl; simpl in Hne.
  - done.
  - by exists (c :: p), [].
  - destruct (IH q Hne) as (p' & iov' & E & Hp & Ec & _). by exists p', iov'.
  - by exists (c :: p), (q :: iov).
Qed.

(** What a call that writes [d] does: all of it and [true], or an error. *)
Record wrote (s : FILE) (d : list Z) (ok : bool) (s' : FILE) : Prop := {
  wr_ok : writable s';
  wr_grows : s_sink s `prefix_of` s_sink s';
  wr_done : if ok then contents s' = contents s ++ d
            else hasf SERR s' = true ∧ s_sink s' `prefix_of` contents s ++ d;
}.

Lemma wstream_err s : wstream s → wstream (addf SERR s) ∧ hasf SERR (addf SERR s) = true.
Proof.
  intros [Hb Hl]. assert (io s (addf SERR s)) as Hio by (by apply io_add). split.
  - split; [by eapply io_wbase|by eapply io_lines].
  - unfold hasf, addf. simpl. rewrite Z.land_lor_distr_l. change (Z.land SERR SERR) with 64.
    destruct (Z.eqb_spec (Z.lor (Z.land (s_flags s) SERR) 64) 0) as [E|]; [|done].
    by apply Z.lor_eq_0_iff in E as [_ E].
Qed.

(** The state of the loop: [p] and the regions [iov] are still to be written. *)
Definition to_write (s0 : FILE) (d : list Z) (n : nat) (a : list Z * list (list Z) * option Z * Z) (s : FILE) : Prop :=
  let '(p, iov, nl, resid) := a in
  wstream s ∧ s_sink s0 `prefix_of` s_sink s ∧ resid = zlen (p ++ concat iov) ∧ 0 < resid ∧
  contents s0 ++ d = contents s ++ p ++ concat iov ∧
  (hasf SLBF s = true → p ≠ [] → nl = None ∨ nl = Some (newline_dist p)) ∧
  n = (2 * Z.to_nat resid + if decide (0 < s_p s)%Z then 1 else 0)%nat.

Lemma put_round_ok s p nl :
  wstream s → p ≠ [] → (hasf SLBF s = true → nl = newline_dist p) →
  wp (if hasf SNBF s then put_unbuffered p else if hasf SLBF s then put_line p nl else put_full p) s (round s p).
Proof.
  intros Hs Hp Hnl. destruct (hasf SNBF s) eqn:E1; [by apply put_unbuffered_ok|].
  destruct (hasf SLBF s) eqn:E2; [rewrite Hnl by done; by apply put_line_ok|by apply put_full_ok].
Qed.

Lemma sfvwrite_loop_ok s iov :
  wstream s → 0 < zlen (concat iov) →
  wp (sfvwrite_loop iov (zlen (concat iov))) s (λ r s', wrote s (concat iov) (fst r =? 0) s' ∧ (fst r ≠ 0 → 0 < snd r)).
Proof.
  intros Hs Hlen. unfold sfvwrite_loop.
  eapply (wp_loop _ (to_write s (concat iov)))
    with (n := (2 * Z.to_nat (zlen (concat iov)) + if decide (0 < s_p s)%Z then 1 else 0)%nat).
  - intros n [[[p iv] nl] resid] s1 (Hs1 & Hg & Er & Hr & Ec & Hnl & ->).
    destruct (GETIOV_ok p iv) as (p' & iv' & -> & Hp' & Ep & Hpp).
    { intros E. rewrite E in Er. unfold zlen in Er. simpl in Er. lia. }
    apply wp_bind, wp_gets. set (d := match p, nl with _ :: _, Some d => d | _, _ => newline_dist p' end).
    assert (hasf SLBF s1 = true → d = newline_dist p') as Ed.
    { intros Hlb. unfold d. destruct p as [|c p]; [done|]. destruct nl as [n|]; [|done]. rewrite Hpp by done.
      by destruct (Hnl Hlb ltac:(done)) as [|[= ->]]. }
    clearbody d. apply wp_bind. eapply wp_mono; [by apply put_round_ok|]. intros r s2 [W2 M2 G2 D2].
    rewrite <- Ep in Ec, Er. destruct r as [w|].
    + destruct D2 as (Hw & Ec2 & Hz & Hwn). pose proof (zlen_nonneg (concat iv')) as Hcn.
      assert (zlen (drop (Z.to_nat w) p') = zlen p' - w) as Edl by (unfold zlen in *; rewrite length_drop; lia).
      assert (contents s ++ concat iov = contents s2 ++ drop (Z.to_nat w) p' ++ concat iv') as Ec3.
      { rewrite Ec, Ec2, <- app_assoc. f_equal. by rewrite app_assoc, take_drop. }
      rewrite zlen_app in Er. destruct (Z.eqb_spec (resid - w) 0) as [E0|E0]; apply wp_ret.
      * split; [|done]. split; [by left|by etrans|]. simpl. rewrite Ec3.
        assert (drop (Z.to_nat w) p' ++ concat iv' = []) as ->; [|by rewrite app_nil_r].
        apply nil_length_inv. rewrite length_app. unfold zlen in *. lia.
      * eexists. split; [|split_and!; [done|by etrans|rewrite zlen_app; lia|lia|done| |reflexivity]].
        -- destruct (decide (0 < s_p s2)), (decide (0 < s_p s1)); destruct (decide (w = 0)) as [->|]; try lia;
             destruct Hz; lia.
        -- rewrite (hasf_mode SLBF s1 s2) by done. intros Hlb Hne. rewrite (Ed Hlb).
           specialize (Hwn Hlb). destruct (Z.eqb_spec (newline_dist p' - w) 0); [by left|].
           right. f_equal. symmetry. apply newline_dist_drop. lia.
    + apply wp_bind, wp_modify, wp_ret. destruct (wstream_err _ W2) as [W3 E3]. split; [|done]. split; [by left|by etrans|]. simpl.
      split; [done|]. rewrite Ec, app_assoc. etrans; [exact D2|]. by eexists.
  - destruct (decide (0 < s_p s)); lia.
  - split_and!; try done.
Qed.

(** ** Setting up, and single characters *)

Section streams.
Variable fd : fdinfo.

Lemma swhatbuf_size : 1 ≤ snd (fst (swhatbuf fd)).
Proof.
  unfold swhatbuf. destruct (fd_stat fd) as [[fmt blksize]|]; [|done].
  destruct (Z.leb_spec blksize 0); simpl; [done|lia].
Qed.

Lemma swhatbuf_flags : Z.land (fst (fst (swhatbuf fd))) MODE = 0.
Proof.
  unfold swhatbuf. destruct (fd_stat fd) as [[fmt blksize]|]; [|done]. destruct (_ <=? _); [done|]. by destruct (_ =? _).
Qed.

(** What the set-up has in common with its start: nothing has been written. *)
Definition set_up (s s' : FILE) : Prop :=
  wstream s' ∧ s_sink s' = s_sink s ∧ pending s' = [] ∧ pending s = [].

Lemma smakebuf_ok s :
  hasf SLBF s = false → wp (smakebuf fd) s (λ _ s', ∃ fl b, s' = set_p 0 (set_bf (Some b) (set_flags fl s)) ∧ 1 ≤ zlen b ∧
    (Z.land fl SNBF ≠ 0 → zlen b = 1) ∧
    Z.land fl SWR = Z.land (s_flags s) SWR ∧ Z.land fl SSTR = Z.land (s_flags s) SSTR ∧
    (Z.land fl SNBF ≠ 0 → Z.land fl SLBF = 0)).
Proof.
  intros Hl. assert (Z.land (s_flags s) SLBF = 0) as Hl'.
  { unfold hasf in Hl. by destruct (Z.eqb_spec (Z.land (s_flags s) SLBF) 0). }
  unfold smakebuf. apply wp_bind, wp_gets. pose proof swhatbuf_size as Hz. pose proof swhatbuf_flags as Hf.
  destruct (hasf SNBF s) eqn:En.
  { apply wp_modify. exists (s_flags s), [0]. split; [by destruct s|]. done. }
  destruct (swhatbuf fd) as [[flags size] tty]. simpl in Hz, Hf. destruct (fd_malloc fd size); simpl negb; cbv iota.
  - apply wp_bind, wp_modify, wp_modify.
    exists (Z.lor (s_flags s) (if tty && fd_isatty fd then Z.lor (Z.lor flags SMBF) SLBF else Z.lor flags SMBF)), (zeros size).
    split; [by destruct s|].
    split; [rewrite zlen_zeros; lia|].
    assert (∀ g, Z.land MODE g = g → Z.land flags g = 0) as Hg.
    { intros g E. by rewrite <- E, Z.land_assoc, Hf. }
    assert (Z.land (s_flags s) SNBF = 0) as Hn by (unfold hasf in En; by destruct (Z.eqb_spec (Z.land (s_flags s) SNBF) 0)).
    destruct (tty && fd_isatty fd); rewrite !Z.land_lor_distr_l, !Hg, ?Hn by done;
      (split; [|split; [exact (Z.lor_0_r _)|split; [exact (Z.lor_0_r _)|]]]); intros Hx; exfalso; apply Hx; reflexivity.
  - apply wp_bind, wp_modify, wp_modify. exists (Z.lor (s_flags s) SNBF), [0]. split; [by destruct s|].
    split; [done|]. split; [done|]. split; [by apply land_lor_other|]. split; [by apply land_lor_other|].
    intros _. by rewrite land_lor_other.
Qed.

Lemma swsetup_fresh s : wfresh s → wp (swsetup fd) s (λ r s', r = 0 ∧ set_up s s').
Proof.
  intros [A B C D E F G]. unfold swsetup. apply wp_bind, wp_gets. rewrite A. simpl negb. simpl andb. cbv iota.
  apply wp_bind, wp_ret. rewrite bool_decide_eq_true_2 by done. eapply wp_bind_mono; [by apply smakebuf_ok|].
  intros [] s1 (fl & b & -> & Hb & F0 & F1 & F2 & F3). apply wp_bind, wp_gets. set (s1 := set_p 0 _).
  assert (hasf SWR s1 = true) as A1 by (unfold hasf in *; simpl; by rewrite F1).
  assert (hasf SSTR s1 = false) as B1 by (unfold hasf in *; simpl; by rewrite F2).
  assert (pending s = []) as P0 by (unfold pending; by rewrite D).
  destruct (hasf SLBF s1) eqn:El.
  - apply wp_bind, wp_modify, wp_ret. split; [done|]. split; [split|done].
    + split; [done|done|exists b; simpl; split; [done|lia]|]. right. left. split_and!; [|done|done|done].
      unfold hasf in El |- *. simpl in *. destruct (Z.eqb_spec (Z.land fl SNBF) 0); [done|].
      rewrite F3 in El by done. done.
    + intros _. by apply not_elem_of_nil.
  - apply wp_bind, wp_modify, wp_ret. split; [done|]. split; [split|done].
    + split; [done|done|exists b; simpl; split; [done|lia]|]. destruct (hasf SNBF s1) eqn:En.
      * left. split_and!; [exact En|exact El|done..|]. apply F0. intros E0. unfold hasf in En. simpl in En. by rewrite E0 in En.
      * right. right. split_and!; [exact En|exact El| |done]. simpl. unfold bfsize. simpl. lia.
    + intros _. by apply not_elem_of_nil.
Qed.

Lemma cantwrite_ok s : writable s →
  wp (cantwrite fd) s (λ cant s', cant = false ∧ ((wstream s ∧ s' = s) ∨ (wfresh s ∧ set_up s s'))).
Proof.
  intros [Hs|Hf]; unfold cantwrite; apply wp_bind, wp_gets.
  - destruct Hs as [Hb Hl]. destruct (wb_bf _ Hb) as (b & Hbf & _). rewrite (wb_wr _ Hb), bool_decide_eq_false_2 by congruence.
    apply wp_ret. split; [done|]. left. by split.
  - rewrite (wf_wr _ Hf), bool_decide_eq_true_2 by apply Hf. simpl.
    eapply wp_bind_mono; [by apply swsetup_fresh|]. intros r s' [-> Hu]. apply wp_ret. split; [done|]. by right.
Qed.

Lemma set_up_wrote s s1 d ok s' : set_up s s1 → wrote s1 d ok s' → wrote s d ok s'.
Proof.
  intros (_ & Es & P1 & P0) [A B C]. assert (contents s1 = contents s) as Ec by (rewrite !contents_empty; done).
  split; [done|by rewrite <- Es|]. by rewrite <- Ec.
Qed.

Lemma wrote_nothing s : writable s → wrote s [] true s.
Proof. intros Hs. split; [done|done|by rewrite app_nil_r]. Qed.

Lemma sfvwrite_ok iov s : writable s →
  wp (sfvwrite fd iov) s (λ r s', wrote s (concat iov) (fst r =? 0) s' ∧ (fst r ≠ 0 → 0 < snd r)).
Proof.
  intros Hs. unfold sfvwrite. destruct (Z.eqb_spec (zlen (concat iov)) 0) as [E|E].
  { apply wp_ret. replace (concat iov) with (@nil Z) by (destruct (concat iov); [done|unfold zlen in E; simpl in E; lia]).
    split; [by apply wrote_nothing|done]. }
  pose proof (zlen_nonneg (concat iov)). eapply wp_bind_mono; [by apply cantwrite_ok|].
  intros cant s1 (-> & [[Hw ->]|[_ Hu]]); [apply sfvwrite_loop_ok; [done|lia]|].
  eapply wp_mono; [apply sfvwrite_loop_ok; [apply Hu|lia]|]. intros r s' [Hw Hr]. split; [by eapply set_up_wrote|done].
Qed.

(** *** One character *)

(** The end of __swbuf(): [c] goes into a buffer that is not full, which is
    flushed if that fills it or ends a line. *)
Definition put_char (c n : Z) (s : FILE) : M FILE Z :=
  modify (λ s, set_w (s_w s - 1) s) ;;
  COPY [c] ;;
  modify (λ s, set_p (s_p s + 1) s) ;;
  if (n + 1 =? bfsize s) || (hasf SLBF s && (c =? 10))
  then let* r := fflush in ret (if r =? 0 then c else EOF)
  else ret c.

Lemma put_char_ok c n s0 s :
  n = s_p s → 0 ≤ c → wpre s → s_p s < bfsize s → bfsize s0 = bfsize s → hasf SLBF s0 = hasf SLBF s →
  (wstream s ∧ hasf SNBF s = false) ∨ s_p s + 1 = bfsize s ∨ (hasf SLBF s = true ∧ c = 10) →
  wp (put_char c n s0) s (λ r s', wrote s [c] (negb (r =? EOF)) s').
Proof.
  intros -> Hc Hp Hlt Es El Hcase. destruct (wp_bf _ Hp) as (b & Hbf & L & P).
  assert (bfsize s = zlen b) as Eb by (unfold bfsize; by rewrite Hbf). unfold put_char. rewrite Es, El, Eb.
  apply wp_bind, wp_modify, wp_bind. apply (COPY_ok _ b); [done|simpl; lia|change (zlen [c]) with 1; simpl; lia|].
  apply wp_bind, wp_modify. simpl s_p.
  set (s1 := set_p (s_p s + 1) _). change s1 with (filled b [c] s).
  destruct (filled_contents s b [c]) as [Epn Ec]; [done|lia|change (zlen [c]) with 1; lia|].
  assert ((c =? EOF) = false) as Hce by (apply Z.eqb_neq; unfold EOF; lia).
  destruct ((s_p s + 1 =? zlen b) || (hasf SLBF s && (c =? 10))) eqn:E.
  - assert (wpre (filled b [c] s)) as Hf by (apply (filled_wpre s b [c] (s_w s - 1)); [done|done|change (zlen [c]) with 1; lia]).
    apply wp_bind. eapply wp_mono; [apply (fflush_ok _ Hf)|]. intros r s' Hfl. apply wp_ret.
    split; [left; by eapply flushed_wstream|apply (fl_grows _ _ _ Hfl)|].
    destruct (fl_done _ _ _ Hfl) as [[-> Hs]|(-> & He & Hs)]; simpl.
    + rewrite Hce. simpl. by rewrite (flushed_contents _ _ Hfl).
    + split; [done|]. by rewrite <- Ec.
  - apply orb_false_iff in E as [E1%Z.eqb_neq E2]. destruct Hcase as [[[Hb Hl] Hn]|[?|[E3 ->]]]; [|lia|by rewrite E3 in E2].
    apply wp_ret. rewrite Hce. simpl. split; [left; split|by exists []; rewrite app_nil_r|done].
    + apply filled_wbase; [done..|change (zlen [c]) with 1; lia].
    + intros E3. change (hasf SLBF s = true) in E3. rewrite E3 in E2. apply Z.eqb_neq in E2.
      rewrite Epn. apply not_elem_of_app. split; [by apply Hl|]. by apply not_elem_of_cons; split; [congruence|apply not_elem_of_nil].
Qed.

Lemma wrote_from s s1 d ok s' :
  contents s1 = contents s → s_sink s `prefix_of` s_sink s1 → wrote s1 d ok s' → wrote s d ok s'.
Proof. intros Ec Hg [A B C]. split; [done|by etrans|]. by rewrite <- Ec. Qed.

(** __swbuf(), when putc() has no room in the buffer or a line ends. *)
Lemma swbuf_ok c v s :
  writable s →
  (wstream s → hasf SNBF s = true ∨ s_p s = bfsize s ∨ (hasf SLBF s = true ∧ u8 c = 10)) →
  wp (swbuf fd c) (set_w v s) (λ r s', wrote s [u8 c] (negb (r =? EOF)) s').
Proof.
  intros Hs Hcall. unfold swbuf. apply wp_bind, wp_modify. simpl s_lbfsize.
  change (set_w (s_lbfsize s) (set_w v s)) with (set_w (s_lbfsize s) s). set (s1 := set_w _ s).
  pose proof (u8_range c) as Hc. destruct Hs as [Hs|Hf].
  - destruct Hs as [Hb Hl]. destruct (wb_bf _ Hb) as (b & Hbf & L & P).
    assert (bfsize s = zlen b) as Eb by (unfold bfsize; by rewrite Hbf).
    assert (wpre s1) as Hp1 by (destruct (wbase_pre s Hb); by split).
    apply wp_bind. unfold cantwrite. apply wp_bind, wp_gets. change (hasf SWR s1) with (hasf SWR s).
    change (s_bf s1) with (s_bf s). rewrite (wb_wr _ Hb), bool_decide_eq_false_2 by congruence. apply wp_ret.
    apply wp_bind, wp_gets. change (s_p s1) with (s_p s). change (bfsize s1) with (bfsize s).
    destruct (Z.geb_spec (s_p s) (bfsize s)) as [Hge|Hlt].
    + apply wp_bind, wp_bind. eapply wp_mono; [by apply fflush_ok|]. intros r s2 Hfl. apply wp_ret.
      destruct (fl_done _ _ _ Hfl) as [[-> Hsk]|(-> & He & Hsk)].
      * rewrite Z.eqb_refl. eapply wp_mono; [apply (put_char_ok (u8 c) 0 s1 s2)|].
        -- symmetry. apply (fl_p _ _ _ Hfl).
        -- lia.
        -- apply wbase_pre, (fl_wbase _ _ _ Hfl).
        -- rewrite (fl_p _ _ _ Hfl), (fl_size _ _ _ Hfl). change (bfsize s1) with (bfsize s). lia.
        -- by rewrite (fl_size _ _ _ Hfl).
        -- symmetry. apply hasf_mode; [done|apply (fl_mode _ _ _ Hfl)].
        -- destruct (hasf SNBF s2) eqn:En; [|left; split; [by eapply flushed_wstream|done]]. exfalso.
           rewrite (hasf_mode SNBF s1 s2) in En by (done || apply (fl_mode _ _ _ Hfl)).
           change (hasf SNBF s = true) in En.
           destruct (wb_mode _ Hb) as [(_ & _ & E & _)|[(E & _)|(E & _)]]; [lia|congruence..].
        -- intros r s'. apply wrote_from; [apply (flushed_contents _ _ Hfl)|apply (fl_grows _ _ _ Hfl)].
      * change (EOF =? 0) with false. apply wp_ret.
        split; [left; by eapply flushed_wstream|apply (fl_grows _ _ _ Hfl)|]. split; [done|].
        etrans; [exact Hsk|]. by eexists.
    + apply wp_bind, wp_ret. eapply wp_mono; [apply (put_char_ok (u8 c) (s_p s) s1 s1)|]; try done; [lia| |intros r s1'; by apply (wrote_from s s1)].
      destruct (Hcall (conj Hb Hl)) as [Hn|[?|?]]; [|lia|by right; right]. right. left.
      change (s_p s + 1 = bfsize s). destruct (wb_mode _ Hb) as [(_ & _ & -> & _ & _ & ->)|[(E & _)|(E & _)]]; [done|congruence..].
  - assert (s1 = s) as -> by (unfold s1; rewrite (wf_lbfsize _ Hf); pose proof (wf_w _ Hf); destruct s; simpl in *; by subst).
    apply wp_bind. eapply wp_mono; [apply cantwrite_ok; by right|].
    intros cant s2 (-> & [[[Hb _] _]|[_ Hu]]).
    { exfalso. destruct (wb_bf _ Hb) as (b & Hbf & _). rewrite (wf_bf _ Hf) in Hbf. done. }
    pose proof Hu as ([Hb Hl] & _ & Hpn & _). destruct (wb_bf _ Hb) as (b & Hbf & L & P).
    assert (bfsize s2 = zlen b) as Eb by (unfold bfsize; by rewrite Hbf).
    assert (s_p s2 = 0) as H0.
    { unfold pending in Hpn. rewrite Hbf, slice_take in Hpn. apply (f_equal length) in Hpn.
      rewrite length_take in Hpn. unfold zlen in *. simpl in Hpn. lia. }
    apply wp_bind, wp_gets. destruct (Z.geb_spec (s_p s2) (bfsize s2)); [lia|]. apply wp_bind, wp_ret.
    eapply wp_mono; [apply (put_char_ok (u8 c) (s_p s2) s2 s2)|]; try done; [lia|by apply wbase_pre| |].
    + destruct (hasf SNBF s2) eqn:En; [|by left]. right. left.
      destruct (wb_mode _ Hb) as [(_ & _ & _ & _ & _ & ->)|[(E & _)|(E & _)]]; [lia|congruence..].
    + intros r s'. by apply set_up_wrote.
Qed.

Lemma putc_ok c s : writable s → wp (putc fd c) s (λ r s', wrote s [u8 c] (negb (r =? EOF)) s').
Proof.
  intros Hs. unfold putc. apply wp_bind, wp_modify, wp_bind, wp_gets. simpl s_w. simpl s_lbfsize.
  pose proof (u8_range c) as Hc. assert ((u8 c =? EOF) = false) as Hce by (apply Z.eqb_neq; unfold EOF; lia).
  destruct Hs as [[Hb Hl]|Hf].
  2: { rewrite (wf_w _ Hf), (wf_lbfsize _ Hf). simpl. apply swbuf_ok; [by right|]. intros [Hb _].
       destruct (wb_bf _ Hb) as (b & Hbf & _). rewrite (wf_bf _ Hf) in Hbf. done. }
  destruct (wb_bf _ Hb) as (b & Hbf & L & P). assert (bfsize s = zlen b) as Eb by (unfold bfsize; by rewrite Hbf).
  destruct ((s_w s - 1 >=? 0) || ((s_w s - 1 >=? s_lbfsize s) && negb (u8 c =? 10))) eqn:E.
  - assert (s_p s < zlen b ∧ hasf SNBF s = false ∧ (hasf SLBF s = true → u8 c ≠ 10)) as (Hlt & Hn & Hnl).
    { rewrite !Z.geb_leb in E. destruct (Z.leb_spec 0 (s_w s - 1)), (Z.leb_spec (s_lbfsize s) (s_w s - 1)), (Z.eqb_spec (u8 c) 10);
        simpl in E; try discriminate;
        destruct (wb_mode _ Hb) as [(E1 & E2 & E3 & E4 & E5 & E6)|[(E1 & E2 & E3 & E4)|(E1 & E2 & E3 & E4)]];
        split_and!; try lia; try done; congruence. }
    apply wp_bind. apply (COPY_ok _ b); [done|simpl; lia|change (zlen [u8 c]) with 1; simpl; lia|].
    apply wp_bind, wp_modify, wp_ret. rewrite Hce. simpl negb. set (s1 := set_p _ _). change s1 with (filled b [u8 c] s).
    destruct (filled_contents s b [u8 c]) as [Epn Ec]; [done|lia|change (zlen [u8 c]) with 1; lia|].
    split; [left; split|by exists []; rewrite app_nil_r|done].
    + apply filled_wbase; [done..|change (zlen [u8 c]) with 1; lia].
    + intros E3. rewrite Epn. apply not_elem_of_app. split; [by apply Hl|].
      apply not_elem_of_cons. split; [intros E4; by apply Hnl|apply not_elem_of_nil].
  - apply swbuf_ok; [by left|]. intros _. rewrite !Z.geb_leb in E.
    destruct (Z.leb_spec 0 (s_w s - 1)), (Z.leb_spec (s_lbfsize s) (s_w s - 1)), (Z.eqb_spec (u8 c) 10);
      simpl in E; try discriminate;
      destruct (wb_mode _ Hb) as [(E1 & E2 & E3 & E4 & E5 & E6)|[(E1 & E2 & E3 & E4)|(E1 & E2 & E3 & E4)]];
      auto; right; left; lia.
Qed.
End streams.
