(* ===== verification/LibstdioRead.v ===== *)
(** * Buffered input of the C library (lib/stdio)

    refill.c, rget.c, fread.c, fgets.c and ungetc.c on the FILE of Libstdio.v. *)

From S2P Require Import Prelude Bytes Params Libstdio.

Section input.
Variable fd : fdinfo.

(** The buffer that [_p] points into. *)
Definition active (s : FILE) : list Z :=
  match s_ub s with Some u => u | None => match s_bf s with Some b => b | None => [] end end.

(** [_p[0] .. _p[n-1]], which must lie in the buffer *)
Definition peek (n : Z) : M FILE (list Z) := λ s,
  if (0 <=? s_p s) && (0 <=? n) && (s_p s + n <=? zlen (active s))
  then Ret (slice (active s) (s_p s) n) s else Fault "read past the end of a buffer".

(** [_p += n; _r -= n] *)
Definition advance (n : Z) : M FILE unit := modify (λ s, set_p (s_p s + n) (set_r (s_r s - n) s)).

(** The read of __srefill(), once there is a buffer and it is empty. *)
Definition read_buffer : M FILE Z :=
  let* s := gets (λ s, s) in
  (if bool_decide (s_bf s = None) then smakebuf fd else ret tt) ;;
  modify (set_p 0) ;;
  let* s := gets (λ s, s) in
  let* r := sread (bfsize s) in
  let '(n, got) := r in
  modify (λ s, set_bf (match s_bf s with Some b => Some (splice b 0 got) | None => None end) s) ;;
  modify (delf SMOD) ;;
  if n >? 0 then modify (set_r n) ;; ret 0
  else if n =? 0 then modify (set_r 0) ;; modify (addf SEOF) ;; ret EOF
  else modify (set_r 0) ;; modify (addf SERR) ;; ret EOF.

Definition srefill : M FILE Z :=
  modify (set_r 0) ;;
  let* s := gets (λ s, s) in
  if hasf SEOF s then ret EOF else
  if negb (hasf SRD s) then
    if negb (hasf SRW s) then ret EOF else
    let* r := (if hasf SWR s then sflush else ret 0) in
    if negb (r =? 0) then ret EOF else
    (if hasf SWR s then modify (delf SWR) ;; modify (set_w 0) ;; modify (set_lbfsize 0) else ret tt) ;;
    modify (addf SRD) ;;
    read_buffer
  else
    (if HASUB s then modify (set_ub None) ;; modify (set_r (s_ur s)) else ret tt) ;;
    if HASUB s && negb (s_ur s =? 0) then modify (set_p (s_up s)) ;; ret 0
    else read_buffer.

(** [*_p++], with [_r] already counted down *)
Definition take_char : M FILE Z :=
  let* c := peek 1 in
  modify (λ s, set_p (s_p s + 1) s) ;;
  ret (byte c 0).

Definition srget : M FILE Z :=
  let* r := srefill in
  if r =? 0 then modify (λ s, set_r (s_r s - 1) s) ;; take_char else ret EOF.

Definition getc : M FILE Z :=
  modify (λ s, set_r (s_r s - 1) s) ;;
  let* s := gets (λ s, s) in
  if s_r s <? 0 then srget else take_char.

(** The result, and the bytes that are stored in the buffer of the caller. *)
Definition fread (size count : Z) : M FILE (Z * list Z) :=
  let total := u32 (count * size) in
  if total =? 0 then ret (0, []) else
  modify (λ s, if s_r s <? 0 then set_r 0 s else s) ;;
  loop (2 * Z.to_nat total + 2) (λ '(resid, got),
    let* s := gets (λ s, s) in
    if resid >? s_r s then
      let* bs := peek (s_r s) in
      modify (λ s, set_p (s_p s + s_r s) s) ;;
      let resid := resid - s_r s in
      let* e := srefill in
      if negb (e =? 0) then ret (inr ((total - resid) / size, got ++ bs))
      else ret (inl (resid, got ++ bs))
    else
      let* bs := peek resid in
      advance resid ;;
      ret (inr (count, got ++ bs))) (total, []).

(** [memchr(p, '\n', len)]: the number of bytes up to the newline, included. *)
Definition line_end (p : list Z) : option Z :=
  if newline_dist p <=? zlen p then Some (newline_dist p) else None.

(** The string stored, without its NUL; None for a NULL result. *)
Definition fgets (n : Z) : M FILE (option (list Z)) :=
  if n <? 2 then ret None else
  loop (2 * Z.to_nat n + 2) (λ '(n, got),
    let* s := gets (λ s, s) in
    let* e := (if s_r s =? 0 then srefill else ret 0) in
    if negb (e =? 0) then ret (inr (if bool_decide (got = []) then None else Some got)) else
    let* s := gets (λ s, s) in
    let len := if (s_r s <? 0) || (s_r s >? n) then n else s_r s in   (* [len] is unsigned *)
    let* bs := peek len in
    match line_end bs with
    | Some d =>
        advance d ;; ret (inr (Some (got ++ slice bs 0 d)))
    | None =>
        advance len ;;
        if n - len =? 0 then ret (inr (Some (got ++ bs))) else ret (inl (n - len, got ++ bs))
    end) (n - 1, []).

(** __submore(): a larger ungetc buffer, its bytes at the end.  The one of
    [_ubuf] has 3 bytes, those from malloc() at least BUFSIZ. *)
Definition submore : M FILE bool :=
  let* s := gets (λ s, s) in
  match s_ub s with
  | None => fault "__submore: no ungetc buffer"
  | Some u =>
      let n := if zlen u =? 3 then BUFSIZ else Z.shiftl (zlen u) 1 in
      if negb (fd_malloc fd n) then ret false else
      modify (λ s, set_p (n - zlen u) (set_ub (Some ((if zlen u =? 3 then zeros (n - zlen u) else u) ++ u)) s)) ;;
      ret true
  end.

(** [*--_p = c; _r++] in the ungetc buffer *)
Definition push_char (c : Z) : M FILE unit := λ s,
  match s_ub s with
  | Some u =>
      if (0 <? s_p s) && (s_p s <=? zlen u)
      then Ret tt (set_r (s_r s + 1) (set_p (s_p s - 1) (set_ub (Some (splice u (s_p s - 1) [c])) s)))
      else Fault "write before the start of a buffer"
  | None => Fault "write through a NULL pointer"
  end.

Definition ungetc (c : Z) : M FILE Z :=
  if c =? EOF then ret EOF else
  let* s := gets (λ s, s) in
  if negb (hasf SRD s) && negb (hasf SRW s) then ret EOF else
  let* r := (if negb (hasf SRD s) && hasf SWR s then sflush else ret 0) in
  if negb (r =? 0) then ret EOF else
  (if negb (hasf SRD s) then
     (if hasf SWR s then modify (delf SWR) ;; modify (set_w 0) ;; modify (set_lbfsize 0) else ret tt) ;;
     modify (addf SRD)
   else ret tt) ;;
  let c := u8 c in
  let* s := gets (λ s, s) in
  match s_ub s with
  | Some u =>
      let* more := (if s_r s >=? zlen u then submore else ret true) in
      if negb more then ret EOF else push_char c ;; ret c
  | None =>
      match s_bf s with
      | Some b =>
          if (s_p s >? 0) && (byte b (s_p s - 1) =? c) then
            modify (λ s, set_r (s_r s + 1) (set_p (s_p s - 1) s)) ;; ret c
          else
            modify (λ s, set_r 1 (set_p 2 (set_ub (Some [0; 0; c]) (set_saved (s_p s) (s_r s) s)))) ;; ret c
      | None =>
          modify (λ s, set_r 1 (set_p 2 (set_ub (Some [0; 0; c]) (set_saved (s_p s) (s_r s) s)))) ;; ret c
      end
  end.
End input.
