(* ===== verification/LibstdioReadSpec.v ===== *)
(** * Buffered input: a stream as the list of bytes to come *)

From S2P Require Import Prelude Bytes Params Libstdio LibstdioSpec LibstdioRead.

(** What read() will deliver before the end of the file or an error. *)
Fixpoint src_bytes (l : list reading) : list Z :=
  match l with
  | RData (c :: bs) :: l => c :: bs ++ src_bytes l
  | _ => []
  end.

(** The bytes pushed back or buffered, and those to come. *)
Definition buffered (s : FILE) : list Z :=
  slice (active s) (s_p s) (s_r s) ++
  match s_ub s, s_bf s with Some _, Some b => slice b (s_up s) (s_ur s) | _, _ => [] end.
Definition coming (s : FILE) : list Z :=
  buffered s ++ (if hasf SEOF s then [] else src_bytes (s_src s)).

(** A stream that is open for reading. *)
Record rstream (s : FILE) : Prop := {
  rs_rd : hasf SRD s = true;
  rs_bounds : 0 ≤ s_p s ∧ 0 ≤ s_r s ∧ s_p s + s_r s ≤ zlen (active s);
  rs_ub : ∀ u, s_ub s = Some u → s_p s + s_r s = zlen u ∧ 3 ≤ zlen u ∧ 0 ≤ s_up s ∧ 0 ≤ s_ur s ∧ s_up s + s_ur s ≤ bfsize s;
  rs_bf : ∀ b, s_bf s = Some b → 1 ≤ zlen b;
  rs_eof : hasf SEOF s = true → match s_ub s with None => s_p s = 0 ∧ s_r s = 0 | Some _ => s_ur s = 0 end;
}.

(** No read() fails. *)
Definition clean (s : FILE) : Prop := RErr ∉ s_src s.

(** ** Flags that reading leaves alone *)

Lemma hasf_add f g s : Z.land g f = 0 → hasf f (addf g s) = hasf f s.
Proof. intros E. unfold hasf, addf. simpl. by rewrite land_lor_other. Qed.

Lemma hasf_del f g s : Z.ldiff f g = f → hasf f (delf g s) = hasf f s.
Proof. intros E. unfold hasf, delf. simpl. by rewrite land_ldiff_other. Qed.

Lemma hasf_added f s : 0 < f → hasf f (addf f s) = true.
Proof.
  intros Hf. unfold hasf, addf. simpl. rewrite Z.land_lor_distr_l, Z.land_diag.
  destruct (Z.eqb_spec (Z.lor (Z.land (s_flags s) f) f) 0) as [E|]; [|done].
  apply Z.lor_eq_0_iff in E as [_ E]. lia.
Qed.

Section input.
Variable fd : fdinfo.

(** How a refill ends: there is something in the buffer again, or the bytes have come to an end. *)
Definition refilled (s : FILE) (e : Z) (s' : FILE) : Prop :=
  rstream s' ∧ (clean s → clean s') ∧
  ((e = 0 ∧ 0 < s_r s' ∧ coming s' = coming s ∧ hasf SEOF s' = false ∧ hasf SEOF s = false) ∨
   (e = EOF ∧ s_r s' = 0 ∧ coming s = [] ∧
    ((hasf SEOF s' = true ∧ coming s' = []) ∨ (hasf SERR s' = true ∧ RErr ∈ s_src s)))).

(** The buffer that is there after smakebuf(). *)
Lemma smakebuf_read s :
  wp (smakebuf fd) s (λ _ s', ∃ fl b, s' = set_p 0 (set_bf (Some b) (set_flags fl s)) ∧ 1 ≤ zlen b ∧
    Z.land fl SRD = Z.land (s_flags s) SRD ∧ Z.land fl SEOF = Z.land (s_flags s) SEOF).
Proof.
  unfold smakebuf. apply wp_bind, wp_gets. pose proof (swhatbuf_size fd) as Hz.
  assert (∀ g, g = SRD ∨ g = SEOF → Z.land (fst (fst (swhatbuf fd))) g = 0) as Hg.
  { intros g Hg. unfold swhatbuf. destruct (fd_stat fd) as [[fmt blksize]|]; [|by destruct Hg as [-> | ->]].
    destruct (_ <=? _); [by destruct Hg as [-> | ->]|]. destruct (_ =? _); by destruct Hg as [-> | ->]. }
  destruct (hasf SNBF s).
  { apply wp_modify. exists (s_flags s), [0]. by destruct s. }
  destruct (swhatbuf fd) as [[flags size] tty]. simpl in Hz, Hg. destruct (fd_malloc fd size); simpl negb; cbv iota.
  - apply wp_bind, wp_modify, wp_modify.
    exists (Z.lor (s_flags s) (if tty && fd_isatty fd then Z.lor (Z.lor flags SMBF) SLBF else Z.lor flags SMBF)), (zeros size).
    split; [by destruct s|]. split; [rewrite zlen_zeros; lia|].
    destruct (tty && fd_isatty fd); rewrite !Z.land_lor_distr_l, !Hg by auto; by split; exact (Z.lor_0_r _).
  - apply wp_bind, wp_modify, wp_modify. exists (Z.lor (s_flags s) SNBF), [0]. split; [by destruct s|].
    split; [done|]. by rewrite !land_lor_other.
Qed.

Lemma src_bytes_take bs l n :
  1 ≤ n → bs ≠ [] →
  src_bytes (RData bs :: l) =
    slice bs 0 n ++ src_bytes (if zlen bs <=? n then l else RData (drop (Z.to_nat n) bs) :: l).
Proof.
  intros Hn Hb. assert (∀ x, x ≠ [] → src_bytes (RData x :: l) = x ++ src_bytes l) as Hx by (by intros [|c x]).
  rewrite slice_take, Hx by done. destruct (Z.leb_spec (zlen bs) n) as [Hl|Hl].
  - rewrite take_ge by (unfold zlen in *; lia). done.
  - rewrite Hx, app_assoc, take_drop; [done|]. intros E. apply (f_equal length) in E. rewrite length_drop in E.
    unfold zlen in *. simpl in E. lia.
Qed.

Lemma slice_0 {A} (l : list A) off : take (Z.to_nat 0) (drop (Z.to_nat off) l) = [].
Proof. done. Qed.

(** The state in which __srefill() reads. *)
Record hungry (s : FILE) : Prop := {
  hu_rd : hasf SRD s = true;
  hu_eof : hasf SEOF s = false;
  hu_ub : s_ub s = None;
  hu_r : s_r s = 0;
  hu_bf : ∀ b, s_bf s = Some b → 1 ≤ zlen b;
}.

Lemma hungry_coming s : hungry s → coming s = src_bytes (s_src s).
Proof. intros [A B C D E]. unfold coming, buffered. rewrite B, C, D. done. Qed.

(** A stream with the buffer [b], of which [n] bytes can be read. *)
Lemma rstream_fresh s b n :
  hasf SRD s = true → s_ub s = None → s_bf s = Some b → s_p s = 0 → s_r s = n → 0 ≤ n ≤ zlen b → 1 ≤ zlen b →
  (hasf SEOF s = true → n = 0) → rstream s.
Proof.
  intros A B C D E F G I. assert (active s = b) as Ha by (unfold active; by rewrite B, C). split; [done| | | |].
  - rewrite Ha. lia.
  - intros u Hu. congruence.
  - intros b' Hb'. congruence.
  - rewrite B. intros He. split; [done|]. rewrite E. auto.
Qed.

Lemma have_buffer_ok s : hungry s →
  wp (if bool_decide (s_bf s = None) then smakebuf fd else ret ()) s
    (λ _ s1, hungry s1 ∧ s_src s1 = s_src s ∧ ∃ b, s_bf s1 = Some b).
Proof.
  intros Hh. destruct (s_bf s) as [b|] eqn:Hb.
  - rewrite bool_decide_eq_false_2 by done. apply wp_ret. split; [done|]. split; [done|]. by exists b.
  - rewrite bool_decide_eq_true_2 by done. eapply wp_mono; [apply smakebuf_read|].
    intros _ s1 (fl & b & -> & Hlb & F1 & F2). destruct Hh as [A B C D E]. split; [|split; [done|by exists b]].
    split; unfold hasf in *; simpl; [by rewrite F1|by rewrite F2|done|done|]. by intros b' [= <-].
Qed.

(** The end of read_buffer(), with what the read returned. *)
Definition finish_read (n : Z) (got : list Z) : M FILE Z :=
  modify (λ s, set_bf (match s_bf s with Some b => Some (splice b 0 got) | None => None end) s) ;;
  modify (delf SMOD) ;;
  if n >? 0 then modify (set_r n) ;; ret 0
  else if n =? 0 then modify (set_r 0) ;; modify (addf SEOF) ;; ret EOF
  else modify (set_r 0) ;; modify (addf SERR) ;; ret EOF.

Definition after_read (b got : list Z) (n : Z) (s : FILE) : FILE :=
  set_r n (delf SMOD (set_bf (Some (splice b 0 got)) s)).

Lemma finish_read_eq s b n got : s_bf s = Some b →
  finish_read n got s =
    if n >? 0 then Ret 0 (after_read b got n s)
    else if n =? 0 then Ret EOF (addf SEOF (after_read b got 0 s)) else Ret EOF (addf SERR (after_read b got 0 s)).
Proof. intros Hb. unfold finish_read, bind, modify, ret. rewrite Hb. destruct (n >? 0); [done|]. by destruct (n =? 0). Qed.

Lemma after_read_rstream s b got n :
  hungry s → s_bf s = Some b → s_p s = 0 → zlen got ≤ zlen b → 0 ≤ n ≤ zlen b → rstream (after_read b got n s).
Proof.
  intros Hh Hb Hp Hg Hn. pose proof (hu_bf _ Hh b Hb) as Hlb.
  assert (zlen (splice b 0 got) = zlen b) as El by (apply zlen_splice; lia).
  apply (rstream_fresh _ (splice b 0 got) n); try done; rewrite ?El; try lia; [|apply Hh|].
  - change (hasf SRD (delf SMOD s) = true). rewrite hasf_del by done. apply Hh.
  - change (hasf SEOF (delf SMOD s) = true → n = 0). rewrite hasf_del, (hu_eof _ Hh) by done. done.
Qed.

Lemma rstream_add f s : Z.land f SRD = 0 → s_ub s = None → s_p s = 0 → s_r s = 0 → rstream s → rstream (addf f s).
Proof. intros Hf Hu Hp Hr [A B C D _]. split; [by rewrite hasf_add|done..|]. intros _. simpl. by rewrite Hu. Qed.

Lemma after_read_coming s b got n :
  hungry s → s_bf s = Some b → s_p s = 0 → zlen got ≤ zlen b → 0 ≤ n ≤ zlen got →
  buffered (after_read b got n s) = slice got 0 n.
Proof.
  intros Hh Hb Hp Hg Hn. unfold buffered, active, after_read. simpl. rewrite (hu_ub _ Hh), Hp, app_nil_r.
  unfold slice, splice. rewrite !drop_0. simpl. unfold zlen in *. rewrite take_app_le by lia. done.
Qed.

Lemma hungry_src l s : hungry s → hungry (set_src l s).
Proof. intros [A B C D E]. by split. Qed.

Lemma hungry_del s : hungry s → hungry (delf SOFF s).
Proof. intros [A B C D E]. split; [by rewrite hasf_del|by rewrite hasf_del|done..]. Qed.

(** A read that returned nothing. *)
Lemma after_read_none s b f :
  hungry s → s_bf s = Some b → s_p s = 0 → Z.land f SRD = 0 →
  rstream (addf f (after_read b [] 0 s)) ∧ (f = SEOF → coming (addf f (after_read b [] 0 s)) = []).
Proof.
  intros Hh Hb Hp Hf. pose proof (hu_bf _ Hh b Hb) as Hlb. assert (zlen (@nil Z) = 0) as Hz by done. split.
  - apply rstream_add; [done|apply Hh|done|done|]. apply after_read_rstream; try done; lia.
  - intros ->. unfold coming. rewrite hasf_added, app_nil_r by done.
    apply (after_read_coming s b [] 0); done || lia.
Qed.

(** A read of some bytes of [bs]. *)
Lemma after_read_some s b bs l :
  hungry s → s_bf s = Some b → s_p s = 0 → bs ≠ [] → s_src s = RData bs :: l →
  let got := slice bs 0 (zlen b) in
  let s' := after_read b got (zlen got) (set_src (if zlen bs <=? zlen b then l else RData (drop (Z.to_nat (zlen b)) bs) :: l) s) in
  0 < zlen got ∧ rstream s' ∧ coming s' = src_bytes (s_src s) ∧ hasf SEOF s' = false.
Proof.
  intros Hh Hb Hp Hne Hsrc got s'. pose proof (hu_bf _ Hh b Hb) as Hlb.
  assert (zlen got = Z.min (zlen b) (zlen bs)) as Hg by (unfold got, slice, zlen; rewrite drop_0, length_take; lia).
  assert (1 ≤ zlen bs) by (destruct bs; [done|unfold zlen; simpl; lia]).
  set (src' := if zlen bs <=? zlen b then _ else _) in *. pose proof (hungry_src src' s Hh) as Hh'.
  split; [lia|]. split; [apply after_read_rstream; try done; lia|].
  assert (hasf SEOF s' = false) as He.
  { change (hasf SEOF (delf SMOD (set_src src' s)) = false). rewrite hasf_del by done. apply Hh'. }
  split; [|done]. unfold coming. rewrite He. unfold s'. rewrite (after_read_coming _ b got) by (done || lia).
  rewrite Hsrc, (src_bytes_take bs l (zlen b)) by done. f_equal. rewrite slice_take, take_ge by (unfold zlen; lia). done.
Qed.

Lemma read_buffer_ok s : hungry s → wp (read_buffer fd) s (refilled s).
Proof.
  intros Hh. unfold read_buffer. apply wp_bind, wp_gets. eapply wp_bind_mono; [by apply have_buffer_ok|].
  intros [] s1 (Hh1 & Es & b & Hb).
  assert (coming s = src_bytes (s_src s1)) as Ec by (rewrite Es; by apply hungry_coming).
  pose proof (hu_eof _ Hh) as He. unfold refilled, clean. rewrite <- Es, Ec, He. clear Es Ec Hh He.
  apply wp_bind, wp_modify, wp_bind, wp_gets. set (s2 := set_p 0 s1).
  assert (hungry s2) as Hh2 by (by destruct Hh1; split). assert (s_bf s2 = Some b) as Hb2 by done.
  replace (bfsize s2) with (zlen b) by (unfold bfsize; by rewrite Hb2).
  change (s_src s1) with (s_src s2). assert (s_p s2 = 0) as Hp2 by done. clearbody s2. clear s1 Hh1 Hb.
  apply wp_bind. unfold wp at 1, sread. destruct (s_src s2) as [|[[|c bs]|] l] eqn:Esrc.
  - destruct (after_read_none s2 b SEOF Hh2 Hb2 Hp2 eq_refl) as [H1 H2].
    match goal with |- wp _ ?t ?Q => change (wp (finish_read 0 []) t Q) end.
    unfold wp. rewrite (finish_read_eq s2 b) by done. simpl. split; [done|]. split; [by rewrite Esrc|].
    right. split_and!; try done. left. split; [by apply hasf_added|by apply H2].
  - set (s3 := set_src _ s2). assert (hungry s3) as Hh3 by by apply hungry_src.
    destruct (after_read_none s3 b SEOF Hh3 Hb2 Hp2 eq_refl) as [H1 H2].
    replace (slice [] 0 (zlen b)) with (@nil Z) by (unfold slice; by rewrite drop_nil, take_nil).
    match goal with |- wp _ ?t ?Q => change (wp (finish_read 0 []) t Q) end.
    unfold wp. rewrite (finish_read_eq s3 b) by done. simpl. split; [done|].
    split; [unfold s3; simpl; rewrite (proj2 (Z.leb_le _ _)) by (unfold zlen; simpl; lia); set_solver|].
    right. split_and!; try done. left. split; [by apply hasf_added|by apply H2].
  - destruct (after_read_some s2 b (c :: bs) l Hh2 Hb2 Hp2 ltac:(done) Esrc) as (Hg & H1 & H2 & H3).
    match goal with |- wp _ ?t ?Q => change (wp (finish_read (zlen (slice (c :: bs) 0 (zlen b))) (slice (c :: bs) 0 (zlen b))) t Q) end.
    unfold wp. rewrite (finish_read_eq _ b) by done. rewrite (proj2 (Z.gtb_lt _ _)) by done. rewrite <- Esrc.
    split; [exact H1|]. split; [|left; split_and!; [done|exact Hg|exact H2|exact H3|done]].
    rewrite Esrc. simpl. destruct (_ <=? _); set_solver.
  - set (s3 := delf SOFF _). assert (hungry s3) as Hh3 by by apply hungry_del, hungry_src.
    destruct (after_read_none s3 b SERR Hh3 Hb2 Hp2 eq_refl) as [H1 _].
    match goal with |- wp _ ?t ?Q => change (wp (finish_read (-1) []) t Q) end.
    unfold wp. rewrite (finish_read_eq s3 b) by done. simpl. split; [done|]. split; [set_solver|].
    right. split_and!; try done. right. split; [by apply hasf_added|set_solver].
Qed.

Lemma srefill_ok v s : rstream s → s_r s = 0 → wp (srefill fd) (set_r v s) (refilled s).
Proof.
  intros Hs Hr. unfold srefill. apply wp_bind, wp_modify, wp_bind, wp_gets.
  assert (set_r 0 (set_r v s) = s) as -> by (destruct s; simpl in *; by subst).
  assert (buffered s = match s_ub s, s_bf s with Some _, Some b => slice b (s_up s) (s_ur s) | _, _ => [] end) as Eb
    by (unfold buffered; by rewrite Hr).
  destruct (hasf SEOF s) eqn:He.
  { pose proof (rs_eof _ Hs He) as Hu. apply wp_ret. split; [done|]. split; [done|]. right.
    assert (coming s = []) as Ec; [|split_and!; try done; by left].
    unfold coming. rewrite He, Eb. destruct (s_ub s); [|done]. rewrite Hu. by destruct (s_bf s). }
  rewrite (rs_rd _ Hs). simpl negb. cbv iota. unfold HASUB. destruct (s_ub s) as [u|] eqn:Hu.
  - rewrite bool_decide_eq_true_2 by done. simpl andb. apply wp_bind, wp_bind, wp_modify, wp_modify.
    destruct (rs_ub _ Hs u Hu) as (Hpr & Hlu & Hup & Hur & Hl).
    set (s1 := set_r (s_ur s) (set_ub None s)).
    destruct (Z.eqb_spec (s_ur s) 0) as [E0|E0]; simpl negb; cbv iota.
    + assert (hungry s1) as Hh by (split; [apply Hs|done|done|done|apply Hs]).
      assert (coming s1 = coming s) as Ec.
      { rewrite (hungry_coming s1 Hh). unfold coming. rewrite He, Eb, E0. by destruct (s_bf s). }
      eapply wp_mono; [apply (read_buffer_ok s1 Hh)|]. intros e s'. unfold refilled, clean.
      change (hasf SEOF s1) with (hasf SEOF s). by rewrite Ec.
    + apply wp_bind, wp_modify, wp_ret. destruct (s_bf s) as [b|] eqn:Hb; [|unfold bfsize in Hl; rewrite Hb in Hl; lia].
      assert (bfsize s = zlen b) as Ebf by (unfold bfsize; by rewrite Hb).
      split; [|split; [done|left; split; [done|]]].
      * split; simpl; [apply (rs_rd _ Hs)| |done|apply (rs_bf _ Hs)|intros E; change (hasf SEOF s = true) in E; congruence]. unfold active. simpl. rewrite Hb. lia.
      * split; [simpl; lia|]. split; [|by split]. unfold coming. change (hasf SEOF _) with (hasf SEOF s). rewrite Eb, He. f_equal.
        unfold buffered, active. simpl. by rewrite Hb, app_nil_r.
  - rewrite bool_decide_eq_false_2 by (by intros []). simpl andb. cbv iota. apply wp_bind, wp_ret.
    apply read_buffer_ok. split; [apply Hs|done|done|done|apply Hs].
Qed.

(** ** Taking bytes *)

Lemma buffered_split s n : 0 ≤ n ≤ s_r s →
  buffered s = slice (active s) (s_p s) n ++ buffered (set_p (s_p s + n) (set_r (s_r s - n) s)) ∨ s_p s < 0.
Proof.
  intros Hn. destruct (Z.ltb_spec (s_p s) 0); [by right|]. left. unfold buffered. simpl. rewrite app_assoc. f_equal.
  unfold active. simpl. unfold slice. rewrite <- (take_drop (Z.to_nat n) (take (Z.to_nat (s_r s)) _)).
  rewrite take_take, skipn_firstn_comm, drop_drop. f_equal; [f_equal; lia|]. f_equal; [lia|f_equal; lia].
Qed.

Lemma peek_ok s n : rstream s → 0 ≤ n ≤ s_r s → peek n s = Ret (take (Z.to_nat n) (coming s)) s.
Proof.
  intros Hs Hn. destruct (rs_bounds _ Hs) as (Hp & Hr & Hl). unfold peek.
  rewrite (proj2 (Z.leb_le 0 _) Hp), (proj2 (Z.leb_le 0 n)), (proj2 (Z.leb_le _ _)) by lia. simpl. f_equal.
  destruct (buffered_split s n Hn) as [E|]; [|lia]. unfold coming. rewrite E, <- app_assoc, take_app_le.
  - rewrite take_ge; [done|]. unfold slice. rewrite length_take. lia.
  - unfold slice, zlen in *. rewrite length_take, length_drop. lia.
Qed.

(** The stream [n] bytes on. *)
Definition moved_on (n : Z) (s : FILE) : FILE := set_p (s_p s + n) (set_r (s_r s - n) s).

Lemma moved_on_ok s n : rstream s → 0 ≤ n ≤ s_r s →
  rstream (moved_on n s) ∧ coming (moved_on n s) = drop (Z.to_nat n) (coming s) ∧
  hasf SEOF (moved_on n s) = hasf SEOF s ∧ (clean s → clean (moved_on n s)).
Proof.
  intros Hs Hn. destruct (rs_bounds _ Hs) as (Hp & Hr & Hl). split_and!; [|  |done|done].
  - split; [apply (rs_rd _ Hs)| | |apply (rs_bf _ Hs)|].
    3: { intros He. pose proof (rs_eof _ Hs He). simpl. destruct (s_ub s); [done|]. lia. }
    + unfold moved_on, active in *. simpl. lia.
    + intros u Hu. destruct (rs_ub _ Hs u Hu) as (? & ? & ?). simpl. split; [lia|done].
  - destruct (buffered_split s n Hn) as [E|]; [|lia]. fold (moved_on n s) in E. unfold coming.
    change (hasf SEOF (moved_on n s)) with (hasf SEOF s). change (s_src (moved_on n s)) with (s_src s).
    rewrite E, <- app_assoc, drop_app_length'; [done|]. unfold slice, zlen in *. rewrite length_take, length_drop. lia.
Qed.

Lemma peek_r v n s a : peek n s = Ret a s → peek n (set_r v s) = Ret a (set_r v s).
Proof.
  unfold peek. change (active (set_r v s)) with (active s). simpl s_p.
  destruct ((0 <=? s_p s) && (0 <=? n) && _); [|done]. by intros [= <-].
Qed.

Lemma take_char_ok s :
  rstream s → 1 ≤ s_r s →
  ∃ c l, coming s = c :: l ∧ take_char (set_r (s_r s - 1) s) = Ret c (moved_on 1 s).
Proof.
  intros Hs Hr. pose proof (peek_ok s 1 Hs ltac:(lia)) as Hpk.
  destruct (moved_on_ok s 1 Hs ltac:(lia)) as (_ & Hc & _).
  assert (coming s ≠ []) as Hne.
  { intros E. destruct (rs_bounds _ Hs) as (Hp & _ & Hl). destruct (buffered_split s 1 ltac:(lia)) as [Eb|]; [|lia].
    unfold coming in E. apply app_nil in E as [E _]. rewrite E in Eb. symmetry in Eb. apply app_nil in Eb as [Eb _].
    apply (f_equal length) in Eb. unfold slice in Eb. rewrite length_take, length_drop in Eb.
    unfold zlen in *. change (length []) with 0%nat in Eb. lia. }
  destruct (coming s) as [|c l] eqn:Ec; [done|]. exists c, l. split; [done|].
  unfold take_char, bind. by rewrite (peek_r _ _ _ _ Hpk).
Qed.

(** The end of the bytes, without an error. *)
Definition ended (s s' : FILE) : Prop := coming s = [] ∧ coming s' = [] ∧ hasf SEOF s' = true.

Lemma refilled_clean s e s' : clean s → refilled s e s' →
  rstream s' ∧ clean s' ∧
  ((e = 0 ∧ 1 ≤ s_r s' ∧ coming s' = coming s ∧ hasf SEOF s' = hasf SEOF s) ∨ (e = EOF ∧ ended s s')).
Proof.
  intros Hc (Hs & Hcl & H). split; [done|]. split; [auto|].
  destruct H as [(-> & Hr & Ec & E1 & E2)|(-> & _ & Ec & [[E1 E2]|[_ E]])].
  - left. rewrite E1, E2. split_and!; [done|lia|done|done].
  - by right.
  - by apply Hc in E.
Qed.

Lemma getc_ok s : rstream s → clean s →
  wp (getc fd) s (λ r s', rstream s' ∧ clean s' ∧
    ((∃ l, coming s = r :: l ∧ coming s' = l ∧ hasf SEOF s' = hasf SEOF s) ∨ (r = EOF ∧ ended s s'))).
Proof.
  intros Hs Hc. destruct (rs_bounds _ Hs) as (Hp & Hr & Hl). unfold getc. apply wp_bind, wp_modify, wp_bind, wp_gets.
  simpl s_r. destruct (Z.ltb_spec (s_r s - 1) 0) as [Hlt|Hge].
  - unfold srget. apply wp_bind. assert (s_r s = 0) as H0 by lia.
    eapply wp_mono; [by apply srefill_ok|]. intros e s1 (H1 & Hc1 & H)%(refilled_clean s); [|done].
    destruct H as [(-> & Hr1 & Ec & Ee)|[-> He]].
    + simpl. apply wp_bind, wp_modify. destruct (take_char_ok s1 H1 Hr1) as (c & l & E1 & E2). unfold wp. rewrite E2.
      destruct (moved_on_ok s1 1 H1 ltac:(lia)) as (H2 & Ec2 & Ee2 & Hc2). split; [done|]. split; [auto|]. left. exists l.
      rewrite <- Ec, Ec2, Ee2, E1. done.
    + apply wp_ret. split; [done|]. split; [done|]. by right.
  - destruct (take_char_ok s Hs ltac:(lia)) as (c & l & E1 & E2). unfold wp. rewrite E2.
    destruct (moved_on_ok s 1 Hs ltac:(lia)) as (H2 & Ec2 & Ee2 & Hc2). split; [done|]. split; [auto|]. left. exists l.
    by rewrite Ec2, E1.
Qed.

(** ** fread() *)

Lemma coming_length s : rstream s → s_r s ≤ zlen (coming s).
Proof.
  intros Hs. destruct (rs_bounds _ Hs) as (Hp & Hr & Hl). unfold coming, buffered. rewrite !zlen_app.
  pose proof (zlen_nonneg (match s_ub s, s_bf s with Some _, Some b => slice b (s_up s) (s_ur s) | _, _ => [] end)).
  pose proof (zlen_nonneg (if hasf SEOF s then [] else src_bytes (s_src s))).
  unfold slice at 1. unfold zlen in *. rewrite length_take, length_drop. lia.
Qed.

Lemma zlen_take (l : list Z) n : 0 ≤ n ≤ zlen l → zlen (take (Z.to_nat n) l) = n.
Proof. unfold zlen. intros. rewrite length_take. lia. Qed.

(** The loop of fread(): [got] has been copied, [resid] bytes are wanted. *)
Definition reading_on (s : FILE) (total : Z) (m : nat) (a : Z * list Z) (s1 : FILE) : Prop :=
  let '(resid, got) := a in
  rstream s1 ∧ clean s1 ∧ got ++ coming s1 = coming s ∧ 0 < resid ∧ zlen got + resid = total ∧
  hasf SEOF s1 = hasf SEOF s ∧ m = (2 * Z.to_nat resid + if (s_r s1 =? 0)%Z then 1 else 0)%nat.

Lemma fread_ok s size count :
  rstream s → clean s → 0 < size → 0 ≤ count → count * size < 4294967296 →
  wp (fread fd size count) s (λ r s', rstream s' ∧ clean s' ∧
    let n := count * size in let got := take (Z.to_nat n) (coming s) in
    r = (zlen got / size, got) ∧ coming s' = drop (Z.to_nat n) (coming s) ∧
    hasf SEOF s' = hasf SEOF s || (zlen (coming s) <? n)).
Proof.
  intros Hs Hc Hsz Hct Hn. unfold fread. rewrite u32_small by nia. set (total := count * size).
  assert (0 ≤ total) as Ht by (unfold total; nia). destruct (Z.eqb_spec total 0) as [E0|E0].
  { apply wp_ret. rewrite E0. split; [done|]. split; [done|]. simpl. split; [done|]. split; [done|].
    rewrite (proj2 (Z.ltb_ge _ _)) by (unfold zlen; lia). by rewrite orb_false_r. }
  apply wp_bind, wp_modify. replace (if s_r s <? 0 then set_r 0 s else s) with s
    by (destruct (rs_bounds _ Hs) as (_ & ? & _); destruct (Z.ltb_spec (s_r s) 0); [lia|done]).
  eapply (wp_loop _ (reading_on s total)) with (n := (2 * Z.to_nat total + if (s_r s =? 0)%Z then 1 else 0)%nat).
  2: destruct (s_r s =? 0); lia.
  2: { split_and!; try done; lia. }
  intros m [resid got] s1 (H1 & Hc1 & Ec & Hre & Etot & Ee & ->). apply wp_bind, wp_gets.
  destruct (rs_bounds _ H1) as (_ & Hr1 & _). pose proof (coming_length s1 H1) as Hcl.
  assert (zlen (coming s) = zlen got + zlen (coming s1)) as Els by (by rewrite <- Ec, zlen_app).
  rewrite Z.gtb_ltb. destruct (Z.ltb_spec (s_r s1) resid) as [Hlt|Hge].
  - apply wp_bind. unfold wp at 1. rewrite peek_ok by (done || lia). apply wp_bind, wp_modify, wp_bind.
    assert (set_p (s_p s1 + s_r s1) s1 = set_r (s_r s1) (moved_on (s_r s1) s1)) as -> by (by destruct s1).
    destruct (moved_on_ok s1 (s_r s1) H1 ltac:(lia)) as (Hm & Em & Eem & Hcm).
    eapply wp_mono; [apply srefill_ok; [done|simpl; lia]|]. intros e s2 Hf.
    apply refilled_clean in Hf as (H2 & Hc2 & Hf); [|auto].
    set (bs := take (Z.to_nat (s_r s1)) (coming s1)). assert (zlen bs = s_r s1) as Ebs by (apply zlen_take; lia).
    assert (coming s1 = bs ++ coming (moved_on (s_r s1) s1)) as Eb by (by rewrite Em; unfold bs; rewrite take_drop).
    destruct Hf as [(-> & Hr2 & Ec2 & Ee2)|[-> (Ec2 & Ec3 & Ee2)]].
    + apply wp_ret. eexists. split; [|split_and!; [done|done| | | | |reflexivity]].
      * destruct (Z.eqb_spec (s_r s1) 0), (Z.eqb_spec (s_r s2) 0); lia.
      * by rewrite Ec2, <- app_assoc, <- Eb.
      * lia.
      * rewrite zlen_app. lia.
      * congruence.
    + apply wp_ret. split; [done|]. split; [done|]. rewrite Ec2, app_nil_r in Eb.
      assert (coming s = got ++ bs) as Eall by (rewrite <- Ec; by f_equal).
      assert (zlen (coming s) < total) as Hshort by (rewrite Els, Eb; lia).
      rewrite (take_ge (coming s)), (drop_ge (coming s)) by (unfold zlen in Hshort; lia).
      split; [rewrite Eall; do 2 f_equal; rewrite zlen_app; lia|]. split; [done|].
      rewrite Ee2, (proj2 (Z.ltb_lt _ _)) by lia. by rewrite orb_true_r.
  - apply wp_bind. unfold wp at 1. rewrite peek_ok by (done || lia). apply wp_bind. unfold advance. apply wp_modify, wp_ret.
    destruct (moved_on_ok s1 resid H1 ltac:(lia)) as (Hm & Em & Eem & Hcm). fold (moved_on resid s1).
    split; [done|]. split; [auto|]. assert (Z.to_nat total = length got + Z.to_nat resid)%nat as -> by (unfold zlen in *; lia).
    rewrite <- Ec, take_app_add, drop_app_add. split; [|split; [done|]].
    + f_equal. rewrite zlen_app, zlen_take by lia. rewrite Etot. unfold total. by rewrite Z.div_mul by lia.
    + rewrite Eem, Ee, (proj2 (Z.ltb_ge _ _)) by (rewrite Ec; lia). by rewrite orb_false_r.
Qed.

(** ** fgets() *)

Lemma newline_dist_app p q : 10 ∉ p → newline_dist (p ++ q) = zlen p + newline_dist q.
Proof.
  unfold zlen. induction p as [|c p IH]; intros Hp; simpl app; [simpl; lia|]. apply not_elem_of_cons in Hp as [Hc Hp].
  simpl. destruct (Z.eqb_spec c 10) as [E|_]; [by rewrite E in Hc|]. rewrite (IH Hp). lia.
Qed.

Lemma newline_dist_here p q : newline_dist p ≤ zlen p → newline_dist (p ++ q) = newline_dist p.
Proof.
  unfold zlen. induction p as [|c p IH]; simpl; intros Hp; [lia|]. destruct (c =? 10); [done|]. rewrite IH; lia.
Qed.

(** The loop of fgets(): [got] has been copied, [n] characters fit. *)
Definition line_on (s : FILE) (total : Z) (m : nat) (a : Z * list Z) (s1 : FILE) : Prop :=
  let '(n, got) := a in
  rstream s1 ∧ clean s1 ∧ got ++ coming s1 = coming s ∧ 0 < n ∧ zlen got + n = total ∧ (10 ∉ got) ∧
  hasf SEOF s1 = hasf SEOF s ∧ m = Z.to_nat n.

(** The string that fgets() returns for the bytes [l], and the flag. *)
Definition fgets_result (l : list Z) (total : Z) (eof : bool) (r : option (list Z)) (s' : FILE) : Prop :=
  let d := Z.min total (newline_dist l) in
  r = (if bool_decide (l = []) then None else Some (take (Z.to_nat d) l)) ∧
  coming s' = drop (Z.to_nat d) l ∧ hasf SEOF s' = eof || (zlen l <? d).

(** A line that ends after [d] bytes, all of them there. *)
Lemma fgets_result_at l total eof got bs rest s' :
  l = got ++ bs ++ rest → bs ≠ [] → Z.min total (newline_dist l) = zlen (got ++ bs) →
  coming s' = rest → hasf SEOF s' = eof → fgets_result l total eof (Some (got ++ bs)) s'.
Proof.
  intros El Hb Ed Hc He. unfold fgets_result. rewrite Ed. unfold zlen. rewrite Nat2Z.id, El, app_assoc.
  rewrite take_app_length, drop_app_length. split; [|split; [done|]].
  - rewrite bool_decide_eq_false_2; [done|]. intros E. apply app_nil in E as [E _]. apply app_nil in E as [_ E]. done.
  - rewrite He, (proj2 (Z.ltb_ge _ _)); [by rewrite orb_false_r|]. rewrite (length_app (got ++ bs)). lia.
Qed.

Lemma fgets_ok s n :
  rstream s → clean s →
  wp (fgets fd n) s (λ r s', rstream s' ∧ clean s' ∧
    if n <? 2 then r = None ∧ coming s' = coming s ∧ hasf SEOF s' = hasf SEOF s
    else fgets_result (coming s) (n - 1) (hasf SEOF s) r s').
Proof.
  intros Hs Hc. unfold fgets. destruct (Z.ltb_spec n 2) as [Hn|Hn]; [by apply wp_ret|].
  eapply (wp_loop _ (line_on s (n - 1))) with (n := Z.to_nat (n - 1)); [|lia|split_and!; try done; [lia|by apply not_elem_of_nil]].
  intros m [k got] s1 (H1 & Hc1 & Ec & Hk & Etot & Hnl & Ee & ->). apply wp_bind, wp_gets, wp_bind.
  assert (wp (if s_r s1 =? 0 then srefill fd else ret 0) s1 (λ e s2, rstream s2 ∧ clean s2 ∧
    ((e = 0 ∧ 1 ≤ s_r s2 ∧ coming s2 = coming s1 ∧ hasf SEOF s2 = hasf SEOF s1) ∨ (e = EOF ∧ ended s1 s2)))) as Hfill.
  { destruct (rs_bounds _ H1) as (_ & Hr1 & _). destruct (Z.eqb_spec (s_r s1) 0) as [E0|E0].
    - replace s1 with (set_r 0 s1) at 1 by (destruct s1; simpl in *; by subst).
      eapply wp_mono; [by apply srefill_ok|]. intros e s2 Hf. by apply refilled_clean.
    - apply wp_ret. split; [done|]. split; [done|]. left. split_and!; done || lia. }
  eapply wp_mono; [exact Hfill|]. clear Hfill. intros e s2 (H2 & Hc2 & [(-> & Hr2 & Ec2 & Ee2)|[-> (Ea & Eb & Ee2)]]).
  2: { apply wp_ret. split; [done|]. split; [done|]. rewrite Ea, app_nil_r in Ec. subst got. unfold fgets_result.
       replace (newline_dist (coming s)) with (zlen (coming s) + 1)
         by (rewrite <- (app_nil_r (coming s)) at 2; rewrite newline_dist_app by done; done).
       rewrite take_ge, drop_ge by (unfold zlen in *; lia). rewrite Eb, Ee2, (proj2 (Z.ltb_lt _ _)) by lia.
       by rewrite orb_true_r. }
  apply wp_bind, wp_gets. destruct (Z.ltb_spec (s_r s2) 0) as [|_]; [lia|]. simpl orb.
  set (len := if (s_r s2 >? k) then k else s_r s2).
  assert (len = Z.min (s_r s2) k) as Elen by (unfold len; rewrite Z.gtb_ltb; destruct (Z.ltb_spec k (s_r s2)); lia).
  clearbody len. subst len. set (len := Z.min (s_r s2) k) in *. pose proof (coming_length s2 H2) as Hcl.
  apply wp_bind. unfold wp at 1. rewrite peek_ok by (done || lia). set (bs := take (Z.to_nat len) (coming s2)).
  assert (zlen bs = len) as Ebs by (apply zlen_take; lia).
  assert (coming s = got ++ bs ++ drop (Z.to_nat len) (coming s2)) as Es by (rewrite <- Ec, <- Ec2; unfold bs; by rewrite take_drop).
  unfold line_end. destruct (Z.leb_spec (newline_dist bs) (zlen bs)) as [Hd|Hd].
  - pose proof (newline_dist_pos bs) as Hd1. set (d := newline_dist bs) in *. apply wp_bind. unfold advance. apply wp_modify, wp_ret.
    destruct (moved_on_ok s2 d H2 ltac:(lia)) as (Hm & Em & Eem & Hcm). fold (moved_on d s2).
    split; [done|]. split; [auto|]. rewrite slice_take. eapply fgets_result_at with (rest := drop (Z.to_nat d) (coming s2)).
    + rewrite <- Ec, <- Ec2. unfold bs. rewrite take_take. f_equal. replace (Z.to_nat d `min` Z.to_nat len)%nat with (Z.to_nat d) by lia.
      by rewrite take_drop.
    + intros E. apply (f_equal length) in E. rewrite length_take in E. unfold zlen in *. simpl in E. lia.
    + rewrite Es, newline_dist_app, newline_dist_here by done. fold d. rewrite zlen_app, zlen_take by lia. lia.
    + done.
    + congruence.
  - apply wp_bind. unfold advance. apply wp_modify.
    destruct (moved_on_ok s2 len H2 ltac:(lia)) as (Hm & Em & Eem & Hcm). fold (moved_on len s2).
    assert (10 ∉ bs) as Hnb by (by apply newline_dist_none). assert (10 ∉ got ++ bs) as Hn2 by (apply not_elem_of_app; done).
    destruct (Z.eqb_spec (k - len) 0) as [E0|E0]; apply wp_ret.
    + split; [done|]. split; [auto|]. eapply fgets_result_at with (rest := drop (Z.to_nat len) (coming s2)); try done.
      * intros E. rewrite E in Ebs. unfold zlen in Ebs. simpl in Ebs. lia.
      * rewrite Es, app_assoc, newline_dist_app by done. rewrite zlen_app in *.
        pose proof (newline_dist_pos (drop (Z.to_nat len) (coming s2))). lia.
      * congruence.
    + exists (Z.to_nat (k - len)). split; [lia|]. split_and!; [done|auto| |lia|rewrite zlen_app; lia|done|congruence|done].
      rewrite Em, <- app_assoc. done.
Qed.

(** ** ungetc() *)

Lemma slice_cons (l : list Z) p r :
  0 < p → 0 ≤ r → p + r ≤ zlen l → slice l (p - 1) (r + 1) = byte l (p - 1) :: slice l p r.
Proof.
  intros Hp Hr Hl. unfold slice, byte. replace (Z.to_nat (r + 1)) with (S (Z.to_nat r)) by lia.
  rewrite (drop_S l (nth (Z.to_nat (p - 1)) l 0) (Z.to_nat (p - 1))).
  - simpl. do 2 f_equal. f_equal. lia.
  - rewrite nth_lookup. destruct (lookup_lt_is_Some_2 l (Z.to_nat (p - 1))) as [x Hx]; [unfold zlen in Hl; lia|].
    by rewrite Hx.
Qed.

(** A character put before the bytes of the ungetc buffer. *)
Lemma push_char_ok s u c :
  rstream s → s_ub s = Some u → 0 < s_p s →
  wp (push_char c) s (λ _ s', rstream s' ∧ (clean s → clean s') ∧ coming s' = c :: coming s ∧ hasf SEOF s' = hasf SEOF s).
Proof.
  intros Hs Hu Hp. destruct (rs_ub _ Hs u Hu) as (Hpr & Hlu & Hup & Hur & Hl). destruct (rs_bounds _ Hs) as (_ & Hr & _).
  unfold wp, push_char. rewrite Hu, (proj2 (Z.ltb_lt _ _) Hp), (proj2 (Z.leb_le _ _)) by lia. simpl andb. cbv iota.
  set (u' := splice u (s_p s - 1) [c]). assert (zlen [c] = 1) as E1 by done.
  assert (zlen u' = zlen u) as El by (apply zlen_splice; lia). split_and!; [|done| |done].
  - split; simpl; [apply (rs_rd _ Hs)| | |apply (rs_bf _ Hs)|].
    + unfold active. simpl. rewrite El. lia.
    + intros v [= <-]. rewrite El. split; [lia|done].
    + intros E. pose proof (rs_eof _ Hs E) as H0. by rewrite Hu in H0.
  - unfold coming. change (hasf SEOF _) with (hasf SEOF s) at 1. simpl s_src. rewrite app_comm_cons. f_equal.
    unfold buffered, active. simpl. rewrite Hu, slice_cons by (rewrite ?El; lia).
    rewrite app_comm_cons. f_equal. f_equal.
    + unfold u'. rewrite byte_splice_in by (rewrite ?E1; lia). by rewrite Z.sub_diag.
    + unfold slice. rewrite !take_ge by (rewrite length_drop; unfold zlen in *; lia).
      unfold u', splice. rewrite app_assoc, drop_app_length'; [f_equal; simpl; lia|].
      rewrite length_app, length_take. unfold zlen in *. simpl. lia.
Qed.

Lemma submore_ok s u :
  rstream s → s_ub s = Some u → zlen u ≤ s_r s → (∀ n, fd_malloc fd n = true) →
  wp (submore fd) s (λ more s', more = true ∧ rstream s' ∧ (clean s → clean s') ∧ coming s' = coming s ∧
    hasf SEOF s' = hasf SEOF s ∧ 0 < s_p s' ∧ ∃ u', s_ub s' = Some u').
Proof.
  intros Hs Hu Hge Hm. destruct (rs_ub _ Hs u Hu) as (Hpr & Hlu & Hup & Hur & Hl). destruct (rs_bounds _ Hs) as (Hp & Hr & _).
  unfold submore. apply wp_bind, wp_gets. rewrite Hu. set (n := if zlen u =? 3 then BUFSIZ else Z.shiftl (zlen u) 1).
  rewrite Hm. simpl negb. cbv iota. apply wp_bind, wp_modify, wp_ret.
  set (pre := if zlen u =? 3 then zeros (n - zlen u) else u).
  assert (zlen pre = n - zlen u ∧ 0 < n - zlen u) as [Epre Hpre].
  { unfold pre, n. destruct (Z.eqb_spec (zlen u) 3) as [->|]; [by vm_compute|]. rewrite Z.shiftl_mul_pow2 by lia.
    change (2 ^ 1) with 2. lia. }
  split; [done|]. split_and!; [|done| |done|simpl; lia|by eexists].
  - split; simpl; [apply (rs_rd _ Hs)| | |apply (rs_bf _ Hs)|].
    + unfold active. simpl. rewrite zlen_app. lia.
    + intros v [= <-]. rewrite zlen_app. split; [lia|]. split; [lia|done].
    + intros E. pose proof (rs_eof _ Hs E) as H0. by rewrite Hu in H0.
  - unfold coming. change (hasf SEOF _) with (hasf SEOF s) at 1. simpl s_src. f_equal.
    unfold buffered, active. simpl. rewrite Hu. f_equal. unfold slice.
    rewrite !take_ge by (rewrite length_drop, ?length_app; unfold zlen in *; lia).
    rewrite drop_app_length' by (unfold zlen in *; lia). replace (Z.to_nat (s_p s)) with 0%nat by lia. done.
Qed.

Lemma ungetc_ok s c :
  rstream s → (∀ n, fd_malloc fd n = true) → c ≠ EOF →
  wp (ungetc fd c) s (λ r s', r = u8 c ∧ rstream s' ∧ (clean s → clean s') ∧
    coming s' = u8 c :: coming s ∧ hasf SEOF s' = hasf SEOF s).
Proof.
  intros Hs Hm Hc. unfold ungetc. rewrite (proj2 (Z.eqb_neq _ _) Hc). apply wp_bind, wp_gets.
  rewrite (rs_rd _ Hs). simpl negb. simpl andb. cbv iota. apply wp_bind, wp_ret. simpl. apply wp_bind, wp_ret, wp_bind, wp_gets.
  destruct (rs_bounds _ Hs) as (Hp & Hr & Hl). destruct (s_ub s) as [u|] eqn:Hu.
  - destruct (rs_ub _ Hs u Hu) as (Hpr & Hlu & _). apply wp_bind. destruct (Z.geb_spec (s_r s) (zlen u)) as [Hge|Hlt].
    + eapply wp_mono; [by apply (submore_ok s u); [..|lia|]|]. intros more s1 (-> & H1 & Hc1 & Ec1 & He1 & Hp1 & u' & Hu').
      simpl negb. cbv iota. eapply wp_bind_mono; [by apply (push_char_ok s1 u')|]. intros [] s2 (H2 & Hc2 & Ec2 & He2).
      apply wp_ret. split_and!; try done; [auto|congruence..].
    + apply wp_ret. simpl negb. cbv iota. eapply wp_bind_mono; [apply (push_char_ok s u); try done; lia|].
      intros [] s2 (H2 & Hc2 & Ec2 & He2). by apply wp_ret.
  - assert (∀ b, s_bf s = Some b ∨ (s_bf s = None ∧ b = []) → active s = b ∧ bfsize s = zlen b) as Hact.
    { intros b [Hb|[Hb ->]]; unfold active, bfsize; by rewrite Hu, Hb. }
    assert (wp (modify (λ s, set_r 1 (set_p 2 (set_ub (Some [0; 0; u8 c]) (set_saved (s_p s) (s_r s) s)))) ;; ret (u8 c)) s
      (λ r s', r = u8 c ∧ rstream s' ∧ (clean s → clean s') ∧ coming s' = u8 c :: coming s ∧ hasf SEOF s' = hasf SEOF s)) as Hnew.
    { apply wp_bind, wp_modify, wp_ret. split_and!; [done| |done| |done].
      - split; simpl; [apply (rs_rd _ Hs)|unfold active, zlen; simpl; lia| |apply (rs_bf _ Hs)|].
        + intros v [= <-]. unfold bfsize. simpl. unfold active in Hl. rewrite Hu in Hl. unfold zlen at 1. simpl length.
          split_and!; try done; try (unfold zlen; simpl; lia). by destruct (s_bf s).
        + intros E. pose proof (rs_eof _ Hs E) as H0. rewrite Hu in H0. tauto.
      - unfold coming. change (hasf SEOF _) with (hasf SEOF s) at 1. simpl s_src. rewrite app_comm_cons. f_equal.
        unfold buffered, active. simpl. rewrite Hu, app_nil_r. unfold slice at 1. simpl. f_equal.
        destruct (s_bf s) as [b|] eqn:Hb; [done|]. unfold slice. by rewrite drop_nil, take_nil. }
    destruct (s_bf s) as [b|] eqn:Hb; [|exact Hnew]. rewrite Z.gtb_ltb.
    destruct (Z.ltb_spec 0 (s_p s)) as [Hp0|]; [|exact Hnew]. destruct (Z.eqb_spec (byte b (s_p s - 1)) (u8 c)) as [Eb|]; [|exact Hnew].
    simpl andb. cbv iota. destruct (Hact b) as [Ha Hbs]; [by left|]. apply wp_bind, wp_modify, wp_ret.
    split_and!; [done| |done| |done].
    + split; simpl; [apply (rs_rd _ Hs)| | |apply (rs_bf _ Hs)|]; [|by rewrite Hu|].
      * change (active _) with (active s). lia.
      * intros E. pose proof (rs_eof _ Hs E) as H0. rewrite Hu in H0. lia.
    + unfold coming. change (hasf SEOF _) with (hasf SEOF s) at 1. simpl s_src. rewrite app_comm_cons. f_equal.
      unfold buffered. change (active (set_r _ _)) with (active s). simpl. rewrite Hu, Ha, !app_nil_r.
      rewrite slice_cons by (rewrite ?Ha in Hl; lia). by rewrite Eb.
Qed.
End input.
