(* ===== verification/LibstdioProps.v ===== *)
(** * Buffered streams: the theorems *)

From S2P Require Import Prelude Bytes Params Libstdio LibstdioSpec LibstdioRead LibstdioReadSpec.

(** ** Programs that write to a stream *)

Inductive wop :=
| WPutc (c : Z)
| WFputs (str : list Z)
| WPuts (str : list Z)
| WFwrite (buf : list Z) (size count : Z)
| WFflush.

Definition op_bytes (o : wop) : list Z :=
  match o with
  | WPutc c => [u8 c]
  | WFputs str => str
  | WPuts str => str ++ [10]
  | WFwrite buf size count => slice buf 0 (count * size)
  | WFflush => []
  end.

(** The arguments of fwrite() describe an object of less than 2^32 bytes. *)
Definition op_ok (o : wop) : Prop :=
  match o with
  | WFwrite buf size count => 0 < size ∧ 0 ≤ count ∧ count * size ≤ zlen buf ∧ count * size < 4294967296
  | _ => True
  end.

Section output.
Variable fd : fdinfo.

(** Did the call report success? *)
Definition run_op (o : wop) : M FILE bool :=
  match o with
  | WPutc c => let* r := putc fd c in ret (negb (r =? EOF))
  | WFputs str => let* r := fputs fd str in ret (r =? 0)
  | WPuts str => let* r := puts fd str in ret (negb (r =? EOF))
  | WFwrite buf size count => let* r := fwrite fd buf size count in ret (r =? count)
  | WFflush => let* r := fflush in ret (r =? 0)
  end.

(** A program that stops at the first error. *)
Fixpoint run_ops (l : list wop) : M FILE bool :=
  match l with
  | [] => ret true
  | o :: l => let* ok := run_op o in if ok : bool then run_ops l else ret false
  end.

Lemma fflush_writable s : writable s → wp fflush s (λ r s', wrote s [] (r =? 0) s').
Proof.
  intros [[Hb Hl]|Hf].
  - eapply wp_mono; [by apply fflush_ok, wbase_pre|]. intros r s' Hfl.
    split; [left; by eapply flushed_wstream|apply (fl_grows _ _ _ Hfl)|]. rewrite app_nil_r.
    destruct (fl_done _ _ _ Hfl) as [[-> _]|(-> & He & Hs)]; simpl; [by apply flushed_contents|done].
  - unfold fflush. apply wp_bind, wp_gets. rewrite hasf_or, (wf_wr _ Hf). simpl. unfold sflush.
    apply wp_bind, wp_gets. rewrite (wf_wr _ Hf), (wf_bf _ Hf). simpl. apply wp_ret. apply wrote_nothing. by right.
Qed.

Lemma run_op_ok o s : op_ok o → writable s → wp (run_op o) s (λ ok s', wrote s (op_bytes o) ok s').
Proof.
  intros Ho Hs. destruct o as [c|str|str|buf size count|]; simpl.
  - eapply wp_bind_mono; [by apply putc_ok|]. intros r s' Hw. by apply wp_ret.
  - unfold fputs. apply wp_bind. eapply wp_bind_mono; [by apply sfvwrite_ok|]. intros r s' [Hw _].
    apply wp_ret, wp_ret. simpl in Hw. by rewrite app_nil_r in Hw.
  - unfold puts. apply wp_bind. eapply wp_bind_mono; [by apply sfvwrite_ok|]. intros r s' [Hw _].
    apply wp_ret, wp_ret. simpl in Hw. by destruct (fst r =? 0).
  - destruct Ho as (Hsz & Hc & Hl & Hn). unfold fwrite. rewrite u32_small by nia. apply wp_bind.
    eapply wp_bind_mono; [by apply sfvwrite_ok|]. intros [r resid] s' [Hw Hr]. simpl in *. rewrite app_nil_r in Hw.
    destruct (Z.eqb_spec r 0) as [->|Hne]; apply wp_ret, wp_ret; [by rewrite Z.eqb_refl|].
    assert ((count * size - resid) / size < count) by (apply Z.div_lt_upper_bound; [done|specialize (Hr Hne); lia]).
    destruct (Z.eqb_spec ((count * size - resid) / size) count); [lia|done].
  - eapply wp_bind_mono; [by apply fflush_writable|]. intros r s' Hw. by apply wp_ret.
Qed.

Lemma run_ops_ok l s : Forall op_ok l → writable s →
  wp (run_ops l) s (λ ok s', wrote s (concat (map op_bytes l)) ok s').
Proof.
  intros Hl. revert s. induction Hl as [|o l Ho _ IH]; intros s Hs; simpl.
  { apply wp_ret. by apply wrote_nothing. }
  eapply wp_bind_mono; [by apply run_op_ok|]. intros [] s1 [W1 G1 D1].
  - eapply wp_mono; [by apply IH|]. intros ok s2 [W2 G2 D2]. split; [done|by etrans|].
    rewrite app_assoc, <- D1. done.
  - apply wp_ret. split; [done|done|]. destruct D1 as [He Hp]. split; [done|]. etrans; [exact Hp|].
    rewrite app_assoc. by eexists.
Qed.

(** C26.  Output through a stream arrives complete and in order, whatever write()
    does: it may take fewer bytes than it is given or fail at any time.  A
    program that writes with putc(), fputs(), puts(), fwrite() and fflush(),
    checking each result, has, as long as every call succeeds, the bytes of all
    its calls in order in the file and the buffer; when a call fails, the error
    flag is set and what reached the file is a prefix of them.  Nothing is written
    outside a buffer.  A line buffered stream holds no finished line back, an
    unbuffered one nothing, and fclose() that succeeds leaves all of it in the file. *)
Theorem stdio_output l s :
  Forall op_ok l → writable s →
  wp (run_ops l) s (λ ok s',
    s_sink s `prefix_of` s_sink s' ∧
    (if ok then contents s' = contents s ++ concat (map op_bytes l)
     else hasf SERR s' = true ∧ s_sink s' `prefix_of` contents s ++ concat (map op_bytes l)) ∧
    (hasf SLBF s' = true → 10 ∉ pending s') ∧ (hasf SNBF s' = true → pending s' = []) ∧
    wp (fclose fd) s' (λ r s'', ok = true → r = 0 → s_sink s'' = contents s ++ concat (map op_bytes l))).
Proof.
  intros Hl Hs. eapply wp_mono; [by apply run_ops_ok|]. intros ok s' [W G D]. split_and!; [done|done| | |].
  - destruct W as [[_ W]|W]; [done|]. rewrite (wf_lbf _ W). done.
  - destruct W as [[W _]|W]; [|unfold pending; by rewrite (wf_bf _ W)]. intros Hn.
    destruct (wb_mode _ W) as [(_ & _ & E & _)|[(E & _)|(E & _)]]; [|congruence..].
    unfold pending. rewrite E. by destruct (s_bf s').
  - unfold fclose. apply wp_bind, wp_gets. assert (hasf SWR s' = true) as Hw by (destruct W as [[W _]|W]; apply W).
    destruct (Z.eqb_spec (s_flags s') 0) as [E0|_]; [unfold hasf in Hw; by rewrite E0 in Hw|].
    rewrite Hw. eapply wp_bind_mono.
    { assert (wp sflush s' (λ r s1, r = 0 → s_sink s1 = contents s')) as Hx; [|exact Hx]. destruct W as [[W _]|W].
      - eapply wp_mono; [by apply sflush_ok, wbase_pre|]. intros r s1 Hfl ->.
        destruct (fl_done _ _ _ Hfl) as [[_ E]|[E _]]; [done|discriminate].
      - unfold sflush. apply wp_bind, wp_gets. rewrite Hw, (wf_bf _ W). simpl. apply wp_ret. intros _.
        symmetry. apply contents_empty. unfold pending. by rewrite (wf_bf _ W). }
    intros r s1 Hr. apply wp_bind, wp_modify, wp_bind, wp_modify, wp_ret. intros -> Hz. simpl.
    destruct (fd_close fd <? 0); [discriminate|]. rewrite <- D. by apply Hr.
Qed.
End output.

(** A terminal with a buffer of 8 bytes whose write() takes 3, 2, 1 and 7 bytes at first. *)
Definition tty_fd : fdinfo := mkFd (Some (S_IFCHR, 8)) true (λ _, true) 0.
Definition new_stream : FILE := mkFILE 0 0 0 SWR None 0 None 0 0 [] [3; 2; 1; 7] [].

Definition tty_ops : list wop := [WPutc 65; WFputs [66; 67; 10; 68]; WFwrite (replicate 20 69) 4 3; WPuts [70]].
Definition tty_end : FILE :=
  mkFILE 0 0 0 2185 (Some [69; 69; 69; 69; 69; 70; 10; 69]) (-8) None 0 0
    ([65; 66; 67; 10; 68] ++ replicate 12 69 ++ [70; 10]) [] [].

Lemma tty_run : run_ops tty_fd tty_ops new_stream = Ret true tty_end.
Proof. vm_compute. reflexivity. Qed.

Lemma tty_ops_ok : Forall op_ok tty_ops.
Proof.
  apply Forall_cons; split; [exact I|]. apply Forall_cons; split; [exact I|].
  apply Forall_cons; split; [|apply Forall_cons; split; [exact I|by apply Forall_nil]].
  change (0 < 4 ∧ 0 ≤ 3 ∧ 3 * 4 ≤ 20 ∧ 3 * 4 < 4294967296). lia.
Qed.

Lemma stdio_output_witness :
  contents tty_end = [] ++ concat (map op_bytes tty_ops) ∧ 10 ∉ pending tty_end.
Proof.
  assert (writable new_stream) as Hs by (right; by split).
  destruct (wp_Ret _ _ _ _ _ (stdio_output tty_fd tty_ops new_stream tty_ops_ok Hs) tty_run) as (_ & H & Hl & _).
  split; [exact H|]. apply Hl. reflexivity.
Defined.

(** ** Programs that read from a stream *)

Inductive rop :=
| RGetc
| RFread (size count : Z)
| RFgets (n : Z)
| RUngetc (c : Z).

Inductive rresult :=
| VChar (c : Z)
| VBytes (count : Z) (bs : list Z)
| VString (str : option (list Z)).

(** The specification: a stream is the bytes that are still to come, and
    whether their end has been seen. *)
Definition abs_op (o : rop) (st : list Z * bool) : rresult * (list Z * bool) :=
  let '(l, eof) := st in
  match o with
  | RGetc => match l with [] => (VChar EOF, ([], true)) | c :: l => (VChar c, (l, eof)) end
  | RFread size count =>
      let n := count * size in let got := take (Z.to_nat n) l in
      (VBytes (zlen got / size) got, (drop (Z.to_nat n) l, eof || (zlen l <? n)))
  | RFgets n =>
      if n <? 2 then (VString None, (l, eof)) else
      let d := Z.min (n - 1) (newline_dist l) in
      (VString (if bool_decide (l = []) then None else Some (take (Z.to_nat d) l)),
       (drop (Z.to_nat d) l, eof || (zlen l <? d)))
  | RUngetc c => if c =? EOF then (VChar EOF, (l, eof)) else (VChar (u8 c), (u8 c :: l, eof))
  end.

Fixpoint abs_run (ops : list rop) (st : list Z * bool) : list rresult * (list Z * bool) :=
  match ops with
  | [] => ([], st)
  | o :: ops => let '(r, st) := abs_op o st in let '(rs, st) := abs_run ops st in (r :: rs, st)
  end.

Definition rop_ok (o : rop) : Prop :=
  match o with
  | RFread size count => 0 < size ∧ 0 ≤ count ∧ count * size < 4294967296
  | _ => True
  end.

Section input.
Variable fd : fdinfo.
Hypothesis Hmalloc : ∀ n, fd_malloc fd n = true.

Definition run_rop (o : rop) : M FILE rresult :=
  match o with
  | RGetc => let* c := getc fd in ret (VChar c)
  | RFread size count => let* r := fread fd size count in ret (VBytes (fst r) (snd r))
  | RFgets n => let* r := fgets fd n in ret (VString r)
  | RUngetc c => let* c := ungetc fd c in ret (VChar c)
  end.

Fixpoint run_rops (ops : list rop) : M FILE (list rresult) :=
  match ops with
  | [] => ret []
  | o :: ops => let* r := run_rop o in let* rs := run_rops ops in ret (r :: rs)
  end.

Lemma run_rop_ok o s :
  rop_ok o → rstream s → clean s →
  wp (run_rop o) s (λ r s', rstream s' ∧ clean s' ∧ abs_op o (coming s, hasf SEOF s) = (r, (coming s', hasf SEOF s'))).
Proof.
  intros Ho Hs Hc. destruct o as [|size count|n|c]; simpl.
  - eapply wp_bind_mono; [by apply getc_ok|].
    intros c s' (H1 & H2 & [(l & El & El' & Ee)|(-> & El & El' & Ee)]); apply wp_ret; by rewrite El, El', Ee.
  - destruct Ho as (Hsz & Hct & Hn). eapply wp_bind_mono; [by apply fread_ok|].
    intros x s' (H1 & H2 & -> & Ec & Ee). apply wp_ret. by rewrite Ec, Ee.
  - eapply wp_bind_mono; [by apply fgets_ok|]. intros x s' (H1 & H2 & H3). apply wp_ret.
    destruct (n <? 2); destruct H3 as (-> & Ec & Ee); by rewrite Ec, Ee.
  - destruct (Z.eqb_spec c EOF) as [->|Hne]; [apply wp_bind; unfold ungetc; simpl; by apply wp_ret, wp_ret|].
    eapply wp_bind_mono; [by apply ungetc_ok|]. intros x s' (-> & H1 & H2 & Ec & Ee). apply wp_ret.
    split_and!; [done|auto|]. by rewrite Ec, Ee.
Qed.

(** C27.  Buffered input refines a plain list of bytes.  However read() cuts the
    data into pieces and whatever the buffering, a program that calls getc(),
    fread(), fgets() and ungetc() in any order gets the results it would get from
    the list of the bytes to come: each byte once and in order, lines cut at their
    newlines, pushed-back characters first, and the end of the file when the list
    is empty.  No buffer is read outside its bounds, and the loops end. *)
Theorem stdio_input_refines ops s :
  Forall rop_ok ops → rstream s → clean s →
  wp (run_rops ops) s (λ rs s', abs_run ops (coming s, hasf SEOF s) = (rs, (coming s', hasf SEOF s'))).
Proof.
  intros Ho. revert s. induction Ho as [|o ops Ho _ IH]; intros s Hs Hc; cbn [run_rops abs_run]; [by apply wp_ret|].
  eapply wp_bind_mono; [by apply run_rop_ok|]. intros r s1 (H1 & H2 & ->).
  eapply wp_bind_mono; [by apply IH|]. intros rs s2 ->. by apply wp_ret.
Qed.
End input.

(** A file of two lines that read() delivers in pieces of 3, 4 and 1 bytes. *)
Definition piece_stream : FILE :=
  mkFILE 0 0 0 SRD None 0 None 0 0 [] [] [RData [65; 66; 10]; RData [67; 68; 69; 70]; RData [71]].
Definition piece_ops : list rop :=
  [RGetc; RUngetc 90; RUngetc 89; RFgets 80; RFgets 3; RUngetc 68; RFread 2 2; RFgets 80; RUngetc 71; RGetc; RGetc].

Lemma piece_stream_ok : rstream piece_stream ∧ clean piece_stream.
Proof.
  split; [split; simpl; try done; split_and!; done|]. unfold clean, piece_stream. simpl. set_solver.
Qed.

Lemma piece_ops_ok : Forall rop_ok piece_ops.
Proof. unfold piece_ops. repeat (apply Forall_cons; split); try exact I; [simpl; lia|by apply Forall_nil]. Qed.

Lemma stdio_input_refines_witness :
  wp (run_rops tty_fd piece_ops) piece_stream (λ rs _, rs =
    [VChar 65; VChar 90; VChar 89; VString (Some [89; 90; 66; 10]); VString (Some [67; 68]); VChar 68;
     VBytes 2 [68; 69; 70; 71]; VString None; VChar 71; VChar 71; VChar EOF]).
Proof.
  destruct piece_stream_ok as [Hs Hc].
  eapply wp_mono; [apply (stdio_input_refines tty_fd (λ _, eq_refl) piece_ops piece_stream); [exact piece_ops_ok|exact Hs|exact Hc]|].
  intros rs s' E. vm_compute in E. injection E as <- _ _. reflexivity.
Defined.
