(* ===== verification/Libsort.v ===== *)
(** * Searching and sorting arrays (lib/stdlib/bsearch.c, heapsort.c)

    An array of [nmemb] objects is a list; a pointer to an object is its
    index.  The comparison function is a parameter, as it is in C. *)

From S2P Require Import Prelude Bytes.
From Stdlib Require Import Sorting.

(** ** bsearch() *)

Section bsearch.
Context {A : Type} `{Inhabited A}.

(** [compar x] is [( *compar)(key, x)]. *)
Variable compar : A → Z.

(** The loop with [fuel] rounds to go; [Some None] is NULL. *)
Fixpoint bsearch_loop (fuel : nat) (arr : list A) (base lim : Z) : option (option Z) :=
  match fuel with
  | O => None
  | S fuel =>
      if lim =? 0 then Some None
      else
        let p := base + Z.shiftr lim 1 in
        let cmp := compar (arr !!! Z.to_nat p) in
        if cmp =? 0 then Some (Some p)
        else if cmp >? 0 then bsearch_loop fuel arr (p + 1) (Z.shiftr (lim - 1) 1)
        else bsearch_loop fuel arr base (Z.shiftr lim 1)
  end.

(** [lim] is an [int]: 32 rounds halve it to 0. *)
Definition bsearch (arr : list A) : option (option Z) := bsearch_loop 33 arr 0 (s32 (zlen arr)).

(** The array is in ascending order as far as [key] can tell. *)
Definition ordered_for (arr : list A) : Prop :=
  ∀ i j x y, (i < j)%nat → arr !! i = Some x → arr !! j = Some y →
    (compar y > 0 → compar x > 0) ∧ (compar x < 0 → compar y < 0).

Lemma bsearch_loop_ok arr fuel base lim :
  ordered_for arr → 0 ≤ base → 0 ≤ lim → base + lim ≤ zlen arr → lim < 2 ^ (Z.of_nat fuel - 1) →
  (∀ i x, arr !! i = Some x → Z.of_nat i < base → compar x > 0) →
  (∀ i x, arr !! i = Some x → base + lim ≤ Z.of_nat i → compar x < 0) →
  match bsearch_loop fuel arr base lim with
  | Some (Some p) => 0 ≤ p ∧ ∃ x, arr !! Z.to_nat p = Some x ∧ compar x = 0
  | Some None => ∀ x, x ∈ arr → compar x ≠ 0
  | None => False
  end.
Proof.
  intros Hord. revert base lim. induction fuel as [|fuel IH]; intros base lim Hb Hl Hbl Hf Hlow Hhigh.
  { simpl in Hf. lia. }
  cbn [bsearch_loop]. rewrite !Z.shiftr_div_pow2 by lia. change (2 ^ 1) with 2.
  destruct (Z.eqb_spec lim 0) as [->|Hl0].
  { intros x [i Hi]%list_elem_of_lookup. destruct (decide (Z.of_nat i < base)) as [Hlt|].
    - specialize (Hlow _ _ Hi Hlt). lia.
    - specialize (Hhigh _ _ Hi ltac:(lia)). lia. }
  pose proof (Z.div_mod lim 2 ltac:(lia)). pose proof (Z.mod_pos_bound lim 2 ltac:(lia)).
  pose proof (Z.div_mod (lim - 1) 2 ltac:(lia)). pose proof (Z.mod_pos_bound (lim - 1) 2 ltac:(lia)).
  assert (2 ^ (Z.of_nat (S fuel) - 1) = 2 * 2 ^ (Z.of_nat fuel - 1)) as Epow.
  { destruct fuel as [|fuel]; [change (2 ^ (Z.of_nat 1 - 1)) with 1 in Hf; lia|].
    rewrite <- Z.pow_succ_r by lia. f_equal. lia. }
  set (p := base + lim / 2).
  destruct (lookup_lt_is_Some_2 arr (Z.to_nat p)) as [x Hx]; [unfold p, zlen in *; lia|].
  rewrite (list_lookup_total_correct _ _ _ Hx).
  destruct (Z.eqb_spec (compar x) 0) as [E|E]; [split; [unfold p; lia|by exists x]|].
  destruct (Z.gtb_spec (compar x) 0).
  - apply IH; try (unfold p; lia); [|intros i y Hy Hi; apply (Hhigh _ _ Hy); unfold p in Hi; lia].
    intros i y Hy Hi. destruct (decide (i = Z.to_nat p)) as [->|]; [simplify_eq; lia|].
    apply (Hord i (Z.to_nat p) y x); [lia|done|done|lia].
  - apply IH; try (unfold p; lia); [done|].
    intros i y Hy Hi. destruct (decide (i = Z.to_nat p)) as [->|]; [simplify_eq; lia|].
    apply (Hord (Z.to_nat p) i x y); [unfold p in *; lia|done|done|lia].
Qed.

(** bsearch() on an ordered array of less than 2^31 objects ends, and finds
    an object that compares equal to the key exactly when there is one. *)
Theorem bsearch_finds arr :
  ordered_for arr → zlen arr < 2147483648 →
  match bsearch arr with
  | Some (Some p) => 0 ≤ p ∧ ∃ x, arr !! Z.to_nat p = Some x ∧ compar x = 0
  | Some None => ∀ x, x ∈ arr → compar x ≠ 0
  | None => False
  end.
Proof.
  intros Hord Hn. pose proof (zlen_nonneg arr). unfold bsearch. rewrite s32_small by lia.
  apply bsearch_loop_ok; [done|lia|lia|lia|simpl; lia|intros; lia|].
  intros i x Hi ?. apply lookup_lt_Some in Hi. unfold zlen in *. lia.
Qed.
End bsearch.


(** ** heapsort()

    Items are numbered from 1, as in the code. *)

Section heapsort.
Context {A : Type} `{Inhabited A}.
Variable compar : A → A → Z.

Definition item (arr : list A) (i : nat) : A := arr !!! (i - 1)%nat.

(** SWAP: the bytes of two items are exchanged. *)
Definition swap (arr : list A) (i j : nat) : list A :=
  <[(i - 1)%nat := item arr j]> (<[(j - 1)%nat := item arr i]> arr).

(** HEAP(initval), from item [i] down. *)
Fixpoint heap (fuel : nat) (nmemb : nat) (arr : list A) (i : nat) : option (list A) :=
  match fuel with
  | O => None
  | S fuel =>
      let j := (i * 2)%nat in
      if (j <=? nmemb)%nat then
        let j := if (j <? nmemb)%nat && (compar (item arr j) (item arr (j + 1)) <? 0)
                 then (j + 1)%nat else j in
        if compar (item arr j) (item arr i) <=? 0 then Some arr
        else heap fuel nmemb (swap arr i j) j
      else Some arr
  end.

(** [for (l = nmemb / 2 + 1; --l;) HEAP(l);] *)
Fixpoint build (l : nat) (nmemb : nat) (arr : list A) : option (list A) :=
  match l with
  | O => Some arr
  | S l' => arr ← heap (S nmemb) nmemb arr l; build l' nmemb arr
  end.

(** [while (nmemb > 1)]: the largest item goes to its final slot. *)
Fixpoint drain (nmemb : nat) (arr : list A) : option (list A) :=
  match nmemb with
  | O | S O => Some arr
  | S n => arr ← heap (S n) n (swap arr 1 nmemb) 1; drain n arr
  end.

(** The result of heapsort() and the array. *)
Definition heapsort (arr : list A) (size : Z) : option (Z * list A) :=
  let nmemb := length arr in
  if (nmemb <=? 1)%nat then Some (0, arr)
  else if size =? 0 then Some (-1, arr)
  else
    arr ← build (nmemb / 2) nmemb arr;
    arr ← drain nmemb arr;
    Some (0, arr).

(** *** What the comparison function must be: a total preorder *)

Definition le (x y : A) : Prop := compar x y ≤ 0.
Hypothesis compar_flip : ∀ x y, compar x y < 0 ↔ compar y x > 0.
Hypothesis le_trans : ∀ x y z, le x y → le y z → le x z.

Lemma le_total x y : le x y ∨ le y x.
Proof. unfold le. pose proof (compar_flip x y). pose proof (compar_flip y x). lia. Qed.

Lemma le_refl x : le x x.
Proof. destruct (le_total x x); done. Qed.

(** *** Items and swaps *)

Lemma length_swap arr i j : length (swap arr i j) = length arr.
Proof. unfold swap. by rewrite !length_insert. Qed.

Lemma item_lookup arr i : (1 ≤ i ≤ length arr)%nat → arr !! (i - 1)%nat = Some (item arr i).
Proof. intros. apply list_lookup_lookup_total_lt. lia. Qed.

Lemma swap_perm arr i j :
  (1 ≤ i ≤ length arr)%nat → (1 ≤ j ≤ length arr)%nat → swap arr i j ≡ₚ arr.
Proof.
  intros Hi Hj. unfold swap. by apply Permutation_insert_swap; apply item_lookup.
Qed.

Lemma item_swap arr i j k :
  (1 ≤ i ≤ length arr)%nat → (1 ≤ j ≤ length arr)%nat → (1 ≤ k)%nat →
  item (swap arr i j) k = if decide (k = i) then item arr j else if decide (k = j) then item arr i else item arr k.
Proof.
  intros Hi Hj Hk. unfold swap. unfold item at 1. case_decide; [subst|].
  { rewrite list_lookup_total_insert_eq; [done|]. rewrite length_insert. lia. }
  rewrite list_lookup_total_insert_ne by lia. case_decide; [subst|].
  - rewrite list_lookup_total_insert_eq; [done|lia].
  - by rewrite list_lookup_total_insert_ne by lia.
Qed.

(** *** The heap *)

Definition child (i j : nat) : Prop := j = (i * 2)%nat ∨ j = (i * 2 + 1)%nat.

(** From item [k] on every item is at least as large as its children. *)
Definition heaped (k : nat) (arr : list A) : Prop :=
  ∀ i j, (k ≤ i)%nat → child i j → (j ≤ length arr)%nat → le (item arr j) (item arr i).

(** The same but for item [i0], whose children are not larger than its parent. *)
Definition hole (k i0 : nat) (arr : list A) : Prop :=
  (∀ i j, (k ≤ i)%nat → i ≠ i0 → child i j → (j ≤ length arr)%nat → le (item arr j) (item arr i)) ∧
  (∀ i j, (k ≤ i)%nat → child i i0 → child i0 j → (j ≤ length arr)%nat → le (item arr j) (item arr i)).

(** The larger child, as HEAP chooses it. *)
Lemma larger_child arr i :
  let n := length arr in
  let j0 := (i * 2)%nat in
  let j := if (j0 <? n)%nat && (compar (item arr j0) (item arr (j0 + 1)) <? 0) then (j0 + 1)%nat else j0 in
  (j0 ≤ n)%nat →
  child i j ∧ (j ≤ n)%nat ∧ ∀ c, child i c → (c ≤ n)%nat → le (item arr c) (item arr j).
Proof.
  intros n j0 j Hj0. unfold j, child. destruct (Nat.ltb_spec j0 n) as [Hlt|Hge]; cbn [andb].
  - destruct (Z.ltb_spec (compar (item arr j0) (item arr (j0 + 1))) 0) as [Hc|Hc].
    + split_and!; [by right|lia|]. intros c [-> | ->] _; [unfold le, j0 in *; lia|apply le_refl].
    + split_and!; [by left|lia|]. intros c [-> | ->] _; [apply le_refl|]. unfold le.
      pose proof (compar_flip (item arr j0) (item arr (j0 + 1))). unfold j0 in *. lia.
  - split_and!; [by left|lia|]. intros c [-> | ->] ?; [apply le_refl|]. unfold j0 in *. lia.
Qed.

Lemma hole_swap k arr i j :
  (1 ≤ k ≤ i)%nat → hole k i arr → child i j → (j ≤ length arr)%nat →
  (∀ c, child i c → (c ≤ length arr)%nat → le (item arr c) (item arr j)) →
  le (item arr i) (item arr j) → hole k j (swap arr i j).
Proof.
  intros Hk [Hh1 Hh2] Hj Hjn Hmax Hij.
  assert (i < j)%nat by (unfold child in Hj; lia).
  assert (∀ c, (1 ≤ c)%nat → item (swap arr i j) c =
    if decide (c = i) then item arr j else if decide (c = j) then item arr i else item arr c) as Hitem
    by (intros; apply item_swap; lia).
  split; intros p c Hp; rewrite length_swap.
  - intros Hne Hc Hcn. assert (1 ≤ c)%nat by (unfold child in Hc; lia). rewrite !Hitem by lia.
    destruct (decide (p = i)) as [->|Hpi].
    { rewrite (decide_False (P := c = i)) by (unfold child in Hc; lia). case_decide; auto. }
    rewrite (decide_False (P := p = j)) by done. destruct (decide (c = i)) as [->|]; [by apply Hh2|].
    rewrite decide_False by (unfold child in *; lia). by apply Hh1.
  - intros Hpj Hc Hcn. assert (p = i) as -> by (unfold child in *; lia).
    rewrite !Hitem by (unfold child in Hc; lia).
    rewrite (decide_True (P := i = i)) by done. rewrite !decide_False by (unfold child in *; lia). apply Hh1; try lia; done.
Qed.

Lemma heap_ok k fuel : ∀ arr i,
  (1 ≤ k ≤ i)%nat → hole k i arr → (length arr - i < fuel)%nat →
  ∃ arr', heap fuel (length arr) arr i = Some arr' ∧ arr' ≡ₚ arr ∧ heaped k arr'.
Proof.
  induction fuel as [|fuel IH]; intros arr i Hk Hh Hfuel; [lia|]. cbn [heap].
  destruct (Nat.leb_spec (i * 2) (length arr)) as [Hle|Hgt].
  2: { exists arr. split_and!; [done|done|]. intros p c Hp Hc Hcn.
       destruct (decide (p = i)) as [->|]; [unfold child in Hc; lia|]. by apply (proj1 Hh). }
  destruct (larger_child arr i Hle) as (Hj & Hjn & Hmax). cbv zeta in *.
  set (j := if _ && _ then _ else _) in *.
  destruct (Z.leb_spec (compar (item arr j) (item arr i)) 0) as [Hc|Hc].
  - exists arr. split_and!; [done|done|]. intros p c Hp Hpc Hcn.
    destruct (decide (p = i)) as [->|]; [|by apply (proj1 Hh)]. apply le_trans with (item arr j); auto.
  - destruct (IH (swap arr i j) j) as (arr' & E & Hperm & Hheap).
    + unfold child in Hj. lia.
    + apply hole_swap; try done. unfold le. pose proof (compar_flip (item arr i) (item arr j)). lia.
    + rewrite length_swap. unfold child in Hj. lia.
    + rewrite length_swap in E. exists arr'. split_and!; [done| |done].
      rewrite Hperm. apply swap_perm; unfold child in Hj; lia.
Qed.

Lemma build_ok : ∀ l arr,
  heaped (S l) arr →
  ∃ arr', build l (length arr) arr = Some arr' ∧ arr' ≡ₚ arr ∧ heaped 1 arr'.
Proof.
  induction l as [|l IH]; intros arr Hh; cbn [build]; [by exists arr|].
  destruct (heap_ok (S l) (S (length arr)) arr (S l)) as (arr1 & -> & Hp1 & Hh1); [lia| |lia|].
  { split; intros i j Hi; [|intros; unfold child in *; lia]. intros. apply Hh; [lia|done|done]. }
  simpl. rewrite <- (Permutation_length Hp1). destruct (IH arr1 Hh1) as (arr' & -> & Hp & Hh').
  exists arr'. split_and!; [done|by rewrite Hp|done].
Qed.

Lemma heap_max arr : heaped 1 arr → ∀ i, (1 ≤ i ≤ length arr)%nat → le (item arr i) (item arr 1).
Proof.
  intros Hh i. induction (lt_wf i) as [i _ IH]. intros Hi.
  destruct (decide (i = 1%nat)) as [->|]; [apply le_refl|].
  pose proof (Nat.div_mod_eq i 2). pose proof (Nat.mod_upper_bound i 2 ltac:(lia)).
  apply le_trans with (item arr (i / 2)).
  - apply Hh; [lia|unfold child; lia|lia].
  - apply IH; lia.
Qed.

(** *** The second phase *)

Lemma item_app h s i : (1 ≤ i ≤ length h)%nat → item (h ++ s) i = item h i.
Proof. intros. unfold item. apply lookup_total_app_l. lia. Qed.

Lemma swap_app h s i j :
  (1 ≤ i ≤ length h)%nat → (1 ≤ j ≤ length h)%nat → swap (h ++ s) i j = swap h i j ++ s.
Proof.
  intros. unfold swap. rewrite !item_app by done. rewrite insert_app_l by lia.
  rewrite insert_app_l; [done|]. rewrite length_insert. lia.
Qed.

Lemma heap_app s fuel : ∀ h i,
  (1 ≤ i)%nat → heap fuel (length h) (h ++ s) i = (λ h', h' ++ s) <$> heap fuel (length h) h i.
Proof.
  induction fuel as [|fuel IH]; intros h i Hi; [done|]. cbn [heap].
  destruct (Nat.leb_spec (i * 2) (length h)) as [Hle|]; [|done].
  assert ((i * 2 <? length h)%nat && (compar (item (h ++ s) (i * 2)) (item (h ++ s) (i * 2 + 1)) <? 0) =
    (i * 2 <? length h)%nat && (compar (item h (i * 2)) (item h (i * 2 + 1)) <? 0)) as ->.
  { destruct (Nat.ltb_spec (i * 2) (length h)); [|done]. by rewrite !item_app by lia. }
  destruct (larger_child h i Hle) as (Hj & Hjn & _). cbv zeta in *. set (j := if _ && _ then _ else _) in *.
  rewrite !item_app by (unfold child in Hj; lia). destruct (_ <=? 0); [done|].
  rewrite swap_app by (unfold child in Hj; lia).
  rewrite <- (length_swap h i j). apply IH. unfold child in Hj. lia.
Qed.

Lemma swap_ends x m y : swap (x :: m ++ [y]) 1 (S (S (length m))) = y :: m ++ [x].
Proof.
  unfold swap, item. simpl. f_equal.
  - rewrite lookup_total_app_r by lia. by rewrite Nat.sub_diag.
  - rewrite insert_app_r_alt by lia. by rewrite Nat.sub_diag.
Qed.

Lemma elem_item h x : x ∈ h → ∃ i, (1 ≤ i ≤ length h)%nat ∧ item h i = x.
Proof.
  intros [i Hi]%list_elem_of_lookup. exists (S i). pose proof (lookup_lt_Some _ _ _ Hi). split; [lia|].
  unfold item. simpl. rewrite Nat.sub_0_r. by apply list_lookup_total_correct.
Qed.

Lemma drain_ok n : ∀ h s,
  length h = n → heaped 1 h → StronglySorted le s → (∀ x y, x ∈ h → y ∈ s → le x y) →
  ∃ arr', drain n (h ++ s) = Some arr' ∧ arr' ≡ₚ h ++ s ∧ StronglySorted le arr'.
Proof.
  induction n as [|n IH]; intros h s Hlen Hh Hs Hle.
  { apply length_zero_iff_nil in Hlen as ->. by exists s. }
  destruct n as [|n].
  { destruct h as [|x [|]]; [done| |done]. exists (x :: s). split_and!; [done|done|].
    constructor; [done|]. apply Forall_forall. intros y Hy. apply Hle; [left|done]. }
  destruct h as [|x h]; [done|]. destruct (exists_last (l := h)) as (m & y & ->).
  { intros ->. done. }
  assert (S (length m) = S n) as Hm by (simpl in Hlen; rewrite length_app in Hlen; simpl in Hlen; lia).
  injection Hm as <-. cbn [drain].
  rewrite swap_app by (simpl; rewrite ?length_app; simpl; lia). rewrite swap_ends.
  change (y :: m ++ [x]) with ((y :: m) ++ [x]). rewrite <- app_assoc. cbn [app].
  change (S (length m)) with (length (y :: m)).
  replace (heap _ _ (y :: m ++ x :: s) 1)
    with ((λ h', h' ++ x :: s) <$> heap (S (length (y :: m))) (length (y :: m)) (y :: m) 1)
    by (symmetry; apply (heap_app (x :: s)); lia).
  destruct (heap_ok 1 (S (length (y :: m))) (y :: m) 1) as (h' & -> & Hp & Hh'); [lia| |lia|].
  { split; intros i j Hi; [|intros; unfold child in *; lia]. intros Hne Hc Hjn.
    assert (∀ k, (2 ≤ k ≤ length (y :: m))%nat → item (y :: m) k = item (x :: m ++ [y]) k) as E.
    { intros k Hk. unfold item. destruct k as [|[|k]]; [lia..|]. simpl in *.
      by rewrite lookup_total_app_l by lia. }
    simpl in Hjn. rewrite !E by (unfold child in Hc; simpl; lia). apply Hh; [lia|done|].
    simpl. rewrite length_app. simpl. lia. }
  cbn [fmap option_fmap option_map mbind option_bind].
  assert (∀ z, z ∈ h' → z ∈ x :: m ++ [y]) as Hin by (intros z; rewrite Hp, !elem_of_cons, elem_of_app, list_elem_of_singleton; tauto).
  destruct (IH h' (x :: s)) as (arr' & E & Hp' & Hs').
  - rewrite (Permutation_length Hp). done.
  - done.
  - constructor; [done|]. apply Forall_forall. intros z Hz. apply Hle; [left|done].
  - intros z w Hz [-> | Hw]%elem_of_cons; [|apply Hle; auto].
    destruct (elem_item _ _ (Hin z Hz)) as (i & Hi & <-).
    change x with (item (x :: m ++ [y]) 1) at 2. by apply heap_max.
  - exists arr'. split_and!; [done| |done]. rewrite Hp', Hp. simpl.
    rewrite <- Permutation_middle, <- app_assoc. simpl. rewrite <- Permutation_middle. apply perm_swap.
Qed.

(** heapsort() ends; with at least two items of a size that is not 0 it
    returns 0 and the array holds the same items in ascending order.  The
    comparison function has to be a total preorder. *)
Theorem heapsort_sorts arr size :
  size ≠ 0 →
  ∃ arr', heapsort arr size = Some (0, arr') ∧ arr' ≡ₚ arr ∧ StronglySorted le arr'.
Proof.
  intros Hsize. unfold heapsort. destruct (Nat.leb_spec (length arr) 1) as [Hle|Hgt].
  { exists arr. split_and!; [done|done|]. destruct arr as [|x [|]]; [constructor|by repeat constructor|].
    simpl in Hle. lia. }
  rewrite (proj2 (Z.eqb_neq size 0) Hsize).
  destruct (build_ok (length arr / 2) arr) as (arr1 & -> & Hp1 & Hh1).
  { intros i j Hi Hc Hj. pose proof (Nat.div_mod_eq (length arr) 2).
    pose proof (Nat.mod_upper_bound (length arr) 2 ltac:(lia)). unfold child in Hc. lia. }
  cbn [mbind option_bind].
  destruct (drain_ok (length arr) arr1 []) as (arr' & E & Hp & Hs);
    [by apply Permutation_length|done|constructor|by intros ? ? ? ?%not_elem_of_nil|].
  rewrite app_nil_r in E, Hp. rewrite E. cbn [mbind option_bind].
  exists arr'. split_and!; [done|by rewrite Hp|done].
Qed.
End heapsort.

