(* ===== verification/Libnum.v ===== *)
(** * Numbers in text (lib/stdlib/strtol.c, strtoul.c, atoi.c, atol.c)

    A string is a list of bytes; [long] has 32 bits.  The character classes
    are those of the default locale (lib/locale/table.c). *)

From S2P Require Import Prelude Bytes.

Definition isspace (c : Z) : bool := ((9 <=? c) && (c <=? 13)) || (c =? 32).
Definition isdigit (c : Z) : bool := (48 <=? c) && (c <=? 57).
Definition isupper (c : Z) : bool := (65 <=? c) && (c <=? 90).
Definition isalpha (c : Z) : bool := isupper c || ((97 <=? c) && (c <=? 122)).

Definition LONG_MAX : Z := 2147483647.
Definition LONG_MIN : Z := -2147483648.
Definition ULONG_MAX : Z := 4294967295.

(** The value of a character as a digit: the first lines of the conversion loop. *)
Definition digit (c : Z) : option Z :=
  if isdigit c then Some (c - 48)
  else if isalpha c then Some (c - (if isupper c then 65 - 10 else 97 - 10))
  else None.

(** The number of characters the first loop skips. *)
Fixpoint skip_space (s : list Z) : Z :=
  match s with
  | [] => 0
  | c :: s => if isspace c then 1 + skip_space s else 0
  end.

(** Sign and prefix: is the number negative, its base, and the index of its first digit. *)
Definition sign_and_base (nptr : list Z) (base : Z) : bool * Z * Z :=
  let i := skip_space nptr in
  let '(neg, i) :=
    if byte nptr i =? 45 then (true, i + 1)
    else if byte nptr i =? 43 then (false, i + 1)
    else (false, i) in
  let '(i, base) :=
    if ((base =? 0) || (base =? 16)) && (byte nptr i =? 48) &&
       ((byte nptr (i + 1) =? 120) || (byte nptr (i + 1) =? 88))
    then (i + 2, 16) else (i, base) in
  let base := if base =? 0 then if byte nptr i =? 48 then 8 else 10 else base in
  (neg, base, i).

(** The conversion loop on the characters [l]: the accumulator, [any], and the
    number of characters converted. *)
Fixpoint convert (l : list Z) (base cutoff cutlim : Z) (acc any n : Z) : Z * Z * Z :=
  match l with
  | [] => (acc, any, n)
  | c :: l =>
      match digit c with
      | None => (acc, any, n)
      | Some d =>
          if d >=? base then (acc, any, n)
          else if (any <? 0) || (acc >? cutoff) || ((acc =? cutoff) && (d >? cutlim))
          then convert l base cutoff cutlim acc (-1) (n + 1)
          else convert l base cutoff cutlim (u32 (u32 (acc * base) + d)) 1 (n + 1)
      end
  end.

(** The result, whether [errno] is set to ERANGE, and the index stored in [*endptr]. *)
Definition strtol (nptr : list Z) (base : Z) : Z * bool * Z :=
  let '(neg, base, i) := sign_and_base nptr base in
  let limit := if neg then 2147483648 else LONG_MAX in
  let '(acc, any, n) := convert (drop (Z.to_nat i) nptr) base (limit / base) (limit mod base) 0 0 0 in
  let '(acc, erange) :=
    if any <? 0 then (if neg then LONG_MIN else LONG_MAX, true)
    else (if neg then u32 (- acc) else acc, false) in
  (s32 acc, erange, if negb (any =? 0) then i + n else 0).

Definition strtoul (nptr : list Z) (base : Z) : Z * bool * Z :=
  let '(neg, base, i) := sign_and_base nptr base in
  let '(acc, any, n) :=
    convert (drop (Z.to_nat i) nptr) base (ULONG_MAX / base) (ULONG_MAX mod base) 0 0 0 in
  let '(acc, erange) :=
    if any <? 0 then (ULONG_MAX, true) else (if neg then u32 (- acc) else acc, false) in
  (acc, erange, if negb (any =? 0) then i + n else 0).

Definition atol (str : list Z) : Z := fst (fst (strtol str 10)).
Definition atoi (str : list Z) : Z := s32 (fst (fst (strtol str 10))).

(** ** The value of a numeral *)

Definition is_digit_of (base c : Z) : bool :=
  match digit c with Some d => d <? base | None => false end.

(** The value of the digits [ds], most significant first. *)
Definition numeral (base : Z) (ds : list Z) : Z :=
  foldl (λ v c, v * base + default 0 (digit c)) 0 ds.

Lemma digit_range c d : digit c = Some d → 0 ≤ d < 36.
Proof.
  unfold digit, isdigit, isalpha, isupper.
  destruct (Z.leb_spec 48 c), (Z.leb_spec c 57), (Z.leb_spec 65 c), (Z.leb_spec c 90),
    (Z.leb_spec 97 c), (Z.leb_spec c 122); simpl; intros [= <-]; lia.
Qed.

(** The test for overflow: the new value would be beyond the limit. *)
Lemma cutoff_test limit base acc d :
  0 < base → 0 ≤ d < base → 0 ≤ acc →
  (acc >? limit / base) || ((acc =? limit / base) && (d >? limit mod base)) = (acc * base + d >? limit).
Proof.
  intros Hb Hd Ha. pose proof (Z.div_mod limit base ltac:(lia)). pose proof (Z.mod_pos_bound limit base Hb).
  set (q := limit / base) in *. set (r := limit mod base) in *. clearbody q r. subst limit.
  destruct (Z.gtb_spec acc q); simpl.
  - destruct (Z.gtb_spec (acc * base + d) (base * q + r)); [done|]. nia.
  - destruct (Z.eqb_spec acc q) as [->|]; simpl.
    + destruct (Z.gtb_spec d r), (Z.gtb_spec (q * base + d) (base * q + r)); try done; lia.
    + destruct (Z.gtb_spec (acc * base + d) (base * q + r)); [|done]. nia.
Qed.

(** The characters after a numeral. *)
Definition ends_numeral (base : Z) (rest : list Z) : Prop :=
  match rest with c :: _ => is_digit_of base c = false | [] => True end.

Definition add_digit (base v c : Z) : Z := v * base + default 0 (digit c).

Lemma numeral_mono base ds : ∀ v, 2 ≤ base → 0 ≤ v → v ≤ foldl (add_digit base) v ds.
Proof.
  induction ds as [|c ds IH]; intros v Hb Hv; simpl; [lia|].
  assert (0 ≤ default 0 (digit c)).
  { destruct (digit c) as [d|] eqn:E; simpl; [|lia]. pose proof (digit_range _ _ E). lia. }
  assert (v ≤ add_digit base v c) by (unfold add_digit; nia). specialize (IH (add_digit base v c)). lia.
Qed.

Lemma convert_end base cutoff cutlim rest acc any n :
  ends_numeral base rest → convert rest base cutoff cutlim acc any n = (acc, any, n).
Proof.
  destruct rest as [|c rest]; [done|]. simpl. unfold is_digit_of. destruct (digit c) as [d|]; [|done].
  intros Hd%Z.ltb_ge. destruct (Z.geb_spec d base); [done|lia].
Qed.

(** One digit of the loop. *)
Lemma convert_digit base cutoff cutlim c l acc any n :
  is_digit_of base c = true →
  convert (c :: l) base cutoff cutlim acc any n =
    (if (any <? 0) || (acc >? cutoff) || ((acc =? cutoff) && (default 0 (digit c) >? cutlim))
     then convert l base cutoff cutlim acc (-1) (n + 1)
     else convert l base cutoff cutlim (u32 (u32 (acc * base) + default 0 (digit c))) 1 (n + 1)).
Proof.
  unfold is_digit_of. simpl. destruct (digit c) as [d|]; [|done]. intros Hd%Z.ltb_lt.
  destruct (Z.geb_spec d base); [lia|done].
Qed.

(** Once the limit has been passed. *)
Lemma convert_over base cutoff cutlim rest : ∀ ds acc n,
  forallb (is_digit_of base) ds = true → ends_numeral base rest →
  convert (ds ++ rest) base cutoff cutlim acc (-1) n = (acc, -1, n + zlen ds).
Proof.
  induction ds as [|c ds IH]; intros acc n Hds Hr.
  - rewrite app_nil_l, convert_end by done. f_equal. unfold zlen. simpl. lia.
  - simpl in Hds. apply andb_prop in Hds as [Hc Hds]. cbn [app]. rewrite convert_digit by done. cbn [Z.ltb orb].
    rewrite IH by done. f_equal. unfold zlen. simpl. lia.
Qed.

(** The loop on the digits [ds], after digits of value [v]. *)
Lemma convert_ok base limit rest : ∀ ds any n v,
  2 ≤ base → limit < 4294967296 → forallb (is_digit_of base) ds = true → ends_numeral base rest →
  0 ≤ any → 0 ≤ v ≤ limit →
  let w := foldl (add_digit base) v ds in
  ∃ acc' any',
    convert (ds ++ rest) base (limit / base) (limit mod base) v any n = (acc', any', n + zlen ds) ∧
    ((any' = -1 ∧ limit < w) ∨
     (acc' = w ∧ w ≤ limit ∧ any' = match ds with [] => any | _ => 1 end)).
Proof.
  induction ds as [|c ds IH]; intros any n v Hb Hlim Hds Hr Ha Hv w.
  - exists v, any. rewrite app_nil_l, convert_end by done. split; [|by right; split_and!; [|apply Hv|]].
    f_equal. unfold zlen. simpl. lia.
  - simpl in Hds. apply andb_prop in Hds as [Hc Hds]. unfold w. cbn [foldl app].
    rewrite convert_digit by done. unfold is_digit_of in Hc. unfold add_digit at 2 4 6.
    destruct (digit c) as [d|] eqn:Ed; [|done]. apply Z.ltb_lt in Hc. pose proof (digit_range _ _ Ed).
    change (default 0 (Some d)) with d. rewrite (proj2 (Z.ltb_ge any 0)) by lia. cbn [orb]. rewrite cutoff_test by lia.
    assert (n + zlen (c :: ds) = n + 1 + zlen ds) as -> by (unfold zlen; simpl; lia).
    assert (0 ≤ v * base) by nia.
    destruct (Z.gtb_spec (v * base + d) limit).
    + rewrite convert_over by done. eexists _, _. split; [done|]. left. split; [done|].
      pose proof (numeral_mono base ds (v * base + d)). lia.
    + rewrite (u32_small (v * base)) by lia. rewrite u32_small by lia.
      destruct (IH 1 (n + 1) (v * base + d)) as (acc' & any' & -> & H'); try done; try lia.
      exists acc', any'. split; [done|]. destruct H' as [?|(?&?&->)]; [by left|right].
      split_and!; [done|done|by destruct ds].
Qed.

(** ** strtol() on a numeral *)

Inductive sign := NoSign | Plus | Minus.
Definition sign_chars (s : sign) : list Z :=
  match s with NoSign => [] | Plus => [43] | Minus => [45] end.
Definition negative (s : sign) : bool := match s with Minus => true | _ => false end.

Lemma digit_not_sign base c : is_digit_of base c = true → isspace c = false ∧ c ≠ 45 ∧ c ≠ 43.
Proof.
  unfold is_digit_of, digit, isdigit, isalpha, isupper, isspace.
  destruct (Z.leb_spec 48 c); simpl.
  { intros _. split_and!; [|lia..]. destruct (Z.leb_spec 9 c), (Z.leb_spec c 13), (Z.eqb_spec c 32); (done || lia). }
  destruct (Z.leb_spec 65 c), (Z.leb_spec 97 c); simpl; (done || lia).
Qed.

Lemma skip_space_app sp t :
  forallb isspace sp = true → isspace (byte t 0) = false → skip_space (sp ++ t) = zlen sp.
Proof.
  intros Hsp Ht. induction sp as [|c sp IH]; simpl in *.
  - destruct t as [|c t]; [done|]. simpl. unfold byte in Ht. simpl in Ht. by rewrite Ht.
  - apply andb_prop in Hsp as [Hc Hsp]. rewrite Hc, IH by done. unfold zlen. simpl. lia.
Qed.

(** A "0x" that base 16 would skip. *)
Definition hex_prefix (s : list Z) : bool :=
  (byte s 0 =? 48) && ((byte s 1 =? 120) || (byte s 1 =? 88)).

Lemma sign_and_base_ok sp sg ds rest base :
  2 ≤ base → forallb isspace sp = true → ds ≠ [] → forallb (is_digit_of base) ds = true →
  (base = 16 → hex_prefix (ds ++ rest) = false) →
  sign_and_base (sp ++ sign_chars sg ++ ds ++ rest) base =
    (negative sg, base, zlen sp + zlen (sign_chars sg)).
Proof.
  intros Hb Hsp Hne Hds Hhex. destruct ds as [|c ds]; [done|].
  simpl in Hds. apply andb_prop in Hds as [Hc _]. destruct (digit_not_sign base c Hc) as (Hs & H45 & H43).
  set (num := (c :: ds) ++ rest) in *. assert (byte num 0 = c) as Hc0 by done.
  assert (∀ i, 0 ≤ i → byte (sp ++ sign_chars sg ++ num) (zlen sp + i) = byte (sign_chars sg ++ num) i) as B1.
  { intros i Hi. rewrite byte_app_r by (unfold zlen; lia). f_equal. lia. }
  unfold sign_and_base. rewrite skip_space_app.
  2: done.
  2: { destruct sg; [by rewrite app_nil_l, Hc0|done..]. }
  pose proof (B1 0 ltac:(lia)) as B0. rewrite Z.add_0_r in B0. rewrite B0.
  assert (∀ j, (if ((base =? 0) || (base =? 16)) && (byte num 0 =? 48) &&
       ((byte num 1 =? 120) || (byte num 1 =? 88)) then (j + 2, 16) else (j, base)) = (j, base)) as Hx.
  { intros j. rewrite (proj2 (Z.eqb_neq base 0)) by lia. destruct (Z.eqb_spec base 16) as [E|]; [|done].
    cbn [orb andb]. specialize (Hhex E). unfold hex_prefix in Hhex. by rewrite Hhex. }
  assert ((base =? 0) = false) as Eb by (apply Z.eqb_neq; lia).
  destruct sg.
  - change (sign_chars NoSign ++ num) with num in *. rewrite <- Hc0 in H45, H43.
    rewrite (proj2 (Z.eqb_neq _ 45)), (proj2 (Z.eqb_neq _ 43)) by done.
    rewrite (B1 1), B0, Hx, Eb by lia. unfold zlen. simpl. f_equal. lia.
  - change (byte (sign_chars Plus ++ num) 0) with 43. cbn [Z.eqb Pos.eqb].
    rewrite <- Z.add_assoc, (B1 1), (B1 (1 + 1)) by lia.
    change (byte (sign_chars Plus ++ num) 1) with (byte num 0).
    change (byte (sign_chars Plus ++ num) (1 + 1)) with (byte num 1).
    by rewrite Hx, Eb.
  - change (byte (sign_chars Minus ++ num) 0) with 45. cbn [Z.eqb Pos.eqb].
    rewrite <- Z.add_assoc, (B1 1), (B1 (1 + 1)) by lia.
    change (byte (sign_chars Minus ++ num) 1) with (byte num 0).
    change (byte (sign_chars Minus ++ num) (1 + 1)) with (byte num 1).
    by rewrite Hx, Eb.
Qed.

(** C40.  strtol() of white space, a sign and digits of the base returns the number
    they denote; a number that does not fit in a [long] gives LONG_MAX or
    LONG_MIN and ERANGE; and [*endptr] is left after the last digit. *)
Theorem strtol_value sp sg ds rest base :
  2 ≤ base ≤ 36 → forallb isspace sp = true → ds ≠ [] → forallb (is_digit_of base) ds = true →
  ends_numeral base rest → (base = 16 → hex_prefix (ds ++ rest) = false) →
  let v := if negative sg then - numeral base ds else numeral base ds in
  strtol (sp ++ sign_chars sg ++ ds ++ rest) base =
    (Z.max LONG_MIN (Z.min LONG_MAX v), (v <? LONG_MIN) || (v >? LONG_MAX),
     zlen (sp ++ sign_chars sg ++ ds)).
Proof.
  intros Hb Hsp Hne Hds Hrest Hhex v. unfold strtol. rewrite sign_and_base_ok by (done || lia).
  rewrite app_assoc, (app_assoc _ _ rest). rewrite <- app_assoc.
  replace (zlen sp + zlen (sign_chars sg)) with (zlen (sp ++ sign_chars sg)) by (unfold zlen; rewrite length_app; lia).
  assert (drop (Z.to_nat (zlen (sp ++ sign_chars sg))) ((sp ++ sign_chars sg) ++ ds ++ rest) = ds ++ rest) as ->.
  { unfold zlen. rewrite Nat2Z.id. apply drop_app_length. }
  set (limit := if negative sg then 2147483648 else LONG_MAX).
  destruct (convert_ok base limit rest ds 0 0 0) as (acc & any & -> & Hcase); try done; try lia.
  { unfold limit. destruct sg; done. }
  { unfold limit. destruct sg; done. }
  fold (numeral base ds) in Hcase. change (foldl (add_digit base) 0 ds) with (numeral base ds) in Hcase.
  pose proof (numeral_mono base ds 0 ltac:(lia) ltac:(lia)) as Hpos.
  change (foldl (add_digit base) 0 ds) with (numeral base ds) in Hpos.
  assert (zlen ((sp ++ sign_chars sg) ++ ds) = zlen (sp ++ sign_chars sg) + (0 + zlen ds)) as Elen
    by (unfold zlen; rewrite !length_app; lia).
  rewrite app_assoc, Elen. unfold limit, v in *. destruct Hcase as [[-> Hbig]|(-> & Hle & ->)].
  - cbn [Z.ltb Z.compare Z.eqb negb]. destruct sg; cbn [negative] in *; f_equal; f_equal;
      unfold LONG_MIN, LONG_MAX in *; rewrite ?s32_small by lia; lia.
  - destruct ds as [|c ds]; [done|]. set (w := numeral base (c :: ds)) in *. clearbody w.
    cbn [Z.ltb Z.compare Z.eqb negb]. destruct sg; cbn [negative] in *; unfold LONG_MIN, LONG_MAX in *.
    1,2: rewrite s32_small by lia; f_equal; f_equal; lia.
    assert (s32 (u32 (- w)) = - w) as ->; [|f_equal; f_equal; lia].
    unfold s32, u32. rewrite Zplus_mod_idemp_l. rewrite Z.mod_small; lia.
Qed.

(** "  -42z" in base 10, and a number that is too big. *)
Lemma strtol_value_witness :
  strtol [32; 32; 45; 52; 50; 122] 10 = (-42, false, 5) ∧
  strtol [57; 57; 57; 57; 57; 57; 57; 57; 57; 57] 10 = (2147483647, true, 10).
Proof.
  split.
  - exact (strtol_value [32; 32] Minus [52; 50] [122] 10 ltac:(lia) eq_refl ltac:(discriminate) eq_refl
      eq_refl ltac:(discriminate)).
  - exact (strtol_value [] NoSign [57; 57; 57; 57; 57; 57; 57; 57; 57; 57] [] 10 ltac:(lia) eq_refl
      ltac:(discriminate) eq_refl I ltac:(discriminate)).
Defined.
