(* ===== verification/Sh.v ===== *)
(** * The shell (cmds/simple/sh.c)

    The parser works on the line that readline() returned and on the nodes it
    allocates.  A [char *] into the line is an index of [sh_line]; a
    [struct cmd *] is the number of a node of [sh_heap].  Nodes are mutable and
    shared: parseexec() goes on filling the argument array of its node after
    parseredirs() has wrapped other nodes around it.  [sh_room] is the number of
    nodes that malloc() will still grant; the code does not test for NULL, so a
    refusal is an access through NULL.

    panic() of the shell prints its message and exits: [Panic].  runcmd() makes
    system calls and forks; it is a [proc], the tree of the calls that the
    process makes with a continuation for each result. *)

From S2P Require Import Prelude Bytes Kstring KstringSpec Libstring LibstringSpec.

Definition MAXARGS : nat := 10.

Definition O_RDONLY : Z := 0.
Definition O_WRONLY : Z := 1.
Definition O_APPEND : Z := 8.
Definition O_CREAT : Z := 512.
Definition O_TRUNC : Z := 1024.

(** ** Parsed commands *)

Inductive node : Type :=
| EXEC (argv eargv : list (option nat))
| REDIR (cmd : nat) (file efile : nat) (mode fd : Z)
| PIPE (left right : nat)
| LIST (left right : nat)
| BACK (cmd : nat).

Record shst : Type := Shst {
  sh_line : list Z;
  sh_heap : list node;
  sh_room : nat
}.

(** [*s], and [*s = c]. *)
Definition deref (s : nat) : M shst Z := λ st,
  match sh_line st !! s with Some c => Ret c st | None => Fault "line" end.
Definition store (s : nat) (c : Z) : M shst unit := λ st,
  match sh_line st !! s with
  | Some _ => Ret tt (Shst (<[s:=c]> (sh_line st)) (sh_heap st) (sh_room st))
  | None => Fault "line"
  end.

(** [cmd = malloc(sizeof( *cmd))] and the stores that initialise the node. *)
Definition new (n : node) : M shst nat := λ st,
  match sh_room st with
  | O => Fault "malloc"
  | S room => Ret (length (sh_heap st)) (Shst (sh_line st) (sh_heap st ++ [n]) room)
  end.

Definition execcmd : M shst nat := new (EXEC (replicate MAXARGS None) (replicate MAXARGS None)).
Definition redircmd (subcmd file efile : nat) (mode fd : Z) : M shst nat :=
  new (REDIR subcmd file efile mode fd).
Definition pipecmd (left right : nat) : M shst nat := new (PIPE left right).
Definition listcmd (left right : nat) : M shst nat := new (LIST left right).
Definition backcmd (subcmd : nat) : M shst nat := new (BACK subcmd).

(** [cmd->argv[argc] = q; cmd->eargv[argc] = eq;] *)
Definition set_arg (cmd argc : nat) (q eq : option nat) : M shst unit := λ st,
  match sh_heap st !! cmd with
  | Some (EXEC argv eargv) =>
      if (argc <? MAXARGS)%nat then
        Ret tt (Shst (sh_line st) (<[cmd := EXEC (<[argc:=q]> argv) (<[argc:=eq]> eargv)]> (sh_heap st)) (sh_room st))
      else Fault "argv"
  | _ => Fault "cmd"
  end.

(** ** Tokens *)

(** ["\t\r\n\v"] with a leading space, and ["<|>&;()"]. *)
Definition whitespace : list Z := [32; 9; 13; 10; 11].
Definition symbols : list Z := [60; 124; 62; 38; 59; 40; 41].

Definition strchr (s : list Z) (c : Z) : bool := bool_decide (is_Some (index s c)).

(** [while (s < es && p( *s)) s++;] *)
Definition scan (p : Z → bool) (es s : nat) : M shst nat :=
  loop (S (es - s)) (λ s,
    if (s <? es)%nat then
      let* c := deref s in
      ret (if p c then inl (S s) else inr s)
    else ret (inr s)) s.

(** The switch of gettoken(): the token at [s], and [s] after it. *)
Definition token_at (es s : nat) : M shst (Z * nat) :=
  let* c := deref s in
  if c =? 0 then ret (c, s)
  else if (c =? 124) || (c =? 40) || (c =? 41) || (c =? 59) || (c =? 38) || (c =? 60) then ret (c, S s)
  else if c =? 62 then
    let* c' := deref (S s) in
    ret (if c' =? 62 then (43, S (S s)) else (c, S s))
  else
    let* s := scan (λ c, negb (strchr whitespace c) && negb (strchr symbols c)) es s in
    ret (97, s).

(** The token, the pointers [*q] and [*eq] and the new [*ps]. *)
Definition gettoken (es ps : nat) : M shst (Z * nat * nat * nat) :=
  let* s := scan (strchr whitespace) es ps in
  let q := s in
  let* '(tok, s) := token_at es s in
  let eq := s in
  let* s := scan (strchr whitespace) es s in
  ret (tok, q, eq, s).

Definition peek (es ps : nat) (toks : list Z) : M shst (bool * nat) :=
  let* s := scan (strchr whitespace) es ps in
  let* c := deref s in
  ret (negb (c =? 0) && strchr toks c, s).

(** ** The recursive descent *)

(** The loop of parseredirs(); [cmd] and [*ps] change. *)
Definition redirs_body (es : nat) (v : nat * nat) : M shst (nat * nat + nat * nat) :=
  let '(cmd, ps) := v in
  let* '(more, ps) := peek es ps [60; 62] in
  if more then
    let* '(tok, _, _, ps) := gettoken es ps in
    let* '(tok', q, eq, ps) := gettoken es ps in
    if negb (tok' =? 97) then panic "missing file for redirection"
    else if tok =? 60 then
      let* cmd := redircmd cmd q eq O_RDONLY 0 in ret (inl (cmd, ps))
    else if tok =? 62 then
      let* cmd := redircmd cmd q eq (Z.lor (Z.lor O_WRONLY O_CREAT) O_TRUNC) 1 in ret (inl (cmd, ps))
    else if tok =? 43 then
      let* cmd := redircmd cmd q eq (Z.lor (Z.lor O_WRONLY O_CREAT) O_APPEND) 1 in ret (inl (cmd, ps))
    else ret (inl (cmd, ps))
  else ret (inr (cmd, ps)).

Definition parseredirs (cmd es ps : nat) : M shst (nat * nat) :=
  loop (S (es - ps)) (redirs_body es) (cmd, ps).

(** The argument loop of parseexec(): [ret], [argc] and [*ps] change. *)
Definition args_body (cmd es : nat) (v : nat * nat * nat) : M shst (nat * nat * nat + nat * nat * nat) :=
  let '(rt, argc, ps) := v in
  let* '(stop, ps) := peek es ps [124; 41; 38; 59] in
  if stop then ret (inr (rt, argc, ps))
  else
    let* '(tok, q, eq, ps) := gettoken es ps in
    if tok =? 0 then ret (inr (rt, argc, ps))
    else if negb (tok =? 97) then panic "syntax"
    else
      set_arg cmd argc (Some q) (Some eq) ;;
      let argc := S argc in
      if (MAXARGS <=? argc)%nat then panic "too many args"
      else
        let* '(rt, ps) := parseredirs rt es ps in
        ret (inl (rt, argc, ps)).

Definition parseargs (cmd es : nat) (rt ps : nat) : M shst (nat * nat * nat) :=
  loop (S (es - ps)) (args_body cmd es) (rt, O, ps).

(** [while (peek(ps, es, "&")) { gettoken(ps, es, 0, 0); cmd = backcmd(cmd); }] *)
Definition backs_body (es : nat) (v : nat * nat) : M shst (nat * nat + nat * nat) :=
  let '(cmd, ps) := v in
  let* '(more, ps) := peek es ps [38] in
  if more then
    let* '(_, _, _, ps) := gettoken es ps in
    let* cmd := backcmd cmd in ret (inl (cmd, ps))
  else ret (inr (cmd, ps)).

Definition parsebacks (cmd es ps : nat) : M shst (nat * nat) :=
  loop (S (es - ps)) (backs_body es) (cmd, ps).

Fixpoint parseline (fuel : nat) (es ps : nat) : M shst (nat * nat) :=
  match fuel with
  | O => spin
  | S fuel =>
      let* '(cmd, ps) := parsepipe fuel es ps in
      let* '(cmd, ps) := parsebacks cmd es ps in
      let* '(more, ps) := peek es ps [59] in
      if more then
        let* '(_, _, _, ps) := gettoken es ps in
        let* '(rgt, ps) := parseline fuel es ps in
        let* cmd := listcmd cmd rgt in ret (cmd, ps)
      else ret (cmd, ps)
  end
with parsepipe (fuel : nat) (es ps : nat) : M shst (nat * nat) :=
  match fuel with
  | O => spin
  | S fuel =>
      let* '(cmd, ps) := parseexec fuel es ps in
      let* '(more, ps) := peek es ps [124] in
      if more then
        let* '(_, _, _, ps) := gettoken es ps in
        let* '(rgt, ps) := parsepipe fuel es ps in
        let* cmd := pipecmd cmd rgt in ret (cmd, ps)
      else ret (cmd, ps)
  end
with parseexec (fuel : nat) (es ps : nat) : M shst (nat * nat) :=
  match fuel with
  | O => spin
  | S fuel =>
      let* '(block, ps) := peek es ps [40] in
      if block then parseblock fuel es ps
      else
        let* cmd := execcmd in
        let* '(rt, ps) := parseredirs cmd es ps in
        let* '(rt, argc, ps) := parseargs cmd es rt ps in
        set_arg cmd argc None None ;;
        ret (rt, ps)
  end
with parseblock (fuel : nat) (es ps : nat) : M shst (nat * nat) :=
  match fuel with
  | O => spin
  | S fuel =>
      let* '(opens, ps) := peek es ps [40] in
      if negb opens then panic "parseblock"
      else
        let* '(_, _, _, ps) := gettoken es ps in
        let* '(cmd, ps) := parseline fuel es ps in
        let* '(closes, ps) := peek es ps [41] in
        if negb closes then panic "syntax - missing )"
        else
          let* '(_, _, _, ps) := gettoken es ps in
          parseredirs cmd es ps
  end.

(** ** NUL-terminating the counted strings *)

(** [for (i = 0; ecmd->argv[i]; i++) *ecmd->eargv[i] = 0;] with [n] elements of the arrays left. *)
Fixpoint nulargs (argv eargv : list (option nat)) : M shst unit :=
  match argv, eargv with
  | Some _ :: argv, Some e :: eargv => store e 0 ;; nulargs argv eargv
  | None :: _, _ => ret tt
  | _, _ => fault "argv"
  end.

Definition node_at (cmd : nat) : M shst node := λ st,
  match sh_heap st !! cmd with Some n => Ret n st | None => Fault "cmd" end.

Fixpoint nulterminate (fuel : nat) (cmd : option nat) : M shst unit :=
  match cmd, fuel with
  | None, _ => ret tt
  | _, O => spin
  | Some cmd, S fuel =>
      let* n := node_at cmd in
      match n with
      | EXEC argv eargv => nulargs argv eargv
      | REDIR sub _ efile _ _ => nulterminate fuel (Some sub) ;; store efile 0
      | PIPE lft rgt => nulterminate fuel (Some lft) ;; nulterminate fuel (Some rgt)
      | LIST lft rgt => nulterminate fuel (Some lft) ;; nulterminate fuel (Some rgt)
      | BACK sub => nulterminate fuel (Some sub)
      end
  end.

(** parsecmd() of the string at the start of [sh_line]. *)
Definition parsecmd : M shst nat :=
  let* line := gets sh_line in
  let es := Z.to_nat (strlen line) in
  let* '(cmd, ps) := parseline (4 * es + 4) es 0 in
  let* '(_, ps) := peek es ps [] in
  if negb (ps =? es)%nat then panic "syntax"
  else
    nulterminate (S cmd) (Some cmd) ;;
    ret cmd.

(** ** Running a command *)

(** The system calls of a process, each with what the process does after it. *)
Inductive proc : Type :=
| Exit (status : Z)
| Execv (path : list Z) (argv : list (list Z)) (failed : proc)
| Fprintf (msg : list (list Z)) (next : proc)
| Close (fd : Z) (next : proc)
| Open (file : list Z) (mode : Z) (failed opened : proc)
| Dup (fd : Z) (next : proc)
| Pipe2 (failed : proc) (next : Z → Z → proc)
| Fork (failed child parent : proc)
| Wait (next : proc)
| Chdir (dir : list Z) (failed next : proc)
| Quit (msg : string)
| Crash (why : string)
| Diverge
| Idle.

(** panic() of the shell: the message, and exit(1). *)
Definition shpanic (msg : string) : proc := Quit msg.

Definition fork1 (child parent : proc) : proc := Fork (shpanic "fork") child parent.

(** The string at index [s] of the line. *)
Definition string_at (line : list Z) (s : nat) : list Z := cstr (drop s line).

(** The strings of an argument array, up to its NULL. *)
Fixpoint strings (line : list Z) (argv : list (option nat)) : list (list Z) :=
  match argv with
  | Some s :: argv => string_at line s :: strings line argv
  | _ => []
  end.

Fixpoint runcmd (line : list Z) (heap : list node) (fuel : nat) (cmd : option nat) : proc :=
  match cmd, fuel with
  | None, _ => Exit 1
  | _, O => Diverge
  | Some cmd, S fuel =>
      match heap !! cmd with
      | None => Crash "cmd"
      | Some (EXEC argv _) =>
          match strings line argv with
          | [] => Exit 1
          | (argv0 :: _) as args =>
              Execv argv0 args
                ((* strcpy(&binbuf[5], ecmd->argv[0]) *)
                 if 100 <? 5 + zlen argv0 + 1 then Crash "binbuf"
                 else Execv ([47; 98; 105; 110; 47] ++ argv0) args
                   (Fprintf [[101; 120; 101; 99; 32]; argv0; [32; 102; 97; 105; 108; 101; 100; 10]] (Exit 1)))
          end
      | Some (REDIR sub file _ mode fd) =>
          Close fd
            (Open (string_at line file) mode
              (Fprintf [[111; 112; 101; 110; 32]; string_at line file; [32; 102; 97; 105; 108; 101; 100; 10]] (Exit 1))
              (runcmd line heap fuel (Some sub)))
      | Some (LIST lft rgt) =>
          fork1 (runcmd line heap fuel (Some lft))
            (Wait (runcmd line heap fuel (Some rgt)))
      | Some (PIPE lft rgt) =>
          Pipe2 (shpanic "pipe") (λ p0 p1,
            fork1 (Close 1 (Dup p1 (Close p0 (Close p1 (runcmd line heap fuel (Some lft))))))
              (fork1 (Close 0 (Dup p0 (Close p0 (Close p1 (runcmd line heap fuel (Some rgt))))))
                (Close p0 (Close p1 (Wait (Wait (Exit 1)))))))
      | Some (BACK sub) =>
          fork1 (runcmd line heap fuel (Some sub)) (Exit 1)
      end
  end.

(** ** The main loop *)

(** [runcmd(parsecmd(buf))], in the child. *)
Definition command (room : nat) (buf : list Z) : proc :=
  match parsecmd (Shst buf [] room) with
  | Ret cmd st => runcmd (sh_line st) (sh_heap st) (S cmd) (Some cmd)
  | Panic msg => shpanic msg
  | Fault why => Crash why
  | Spin => Diverge
  end.

(** main() on the results of its calls of readline(); [None] is NULL.  [Idle] is the wait for more input. *)
Fixpoint main (room : nat) (lines : list (option (list Z))) : proc :=
  match lines with
  | [] => Idle
  | None :: _ => Crash "buf[0]"
  | Some buf :: lines =>
      if byte buf 0 =? 0 then main room lines
      else if (byte buf 0 =? 99) && (byte buf 1 =? 100) && (byte buf 2 =? 32) then
        Chdir (cstr (drop 3 buf))
          (Fprintf [[99; 97; 110; 110; 111; 116; 32; 99; 100; 32]; cstr (drop 3 buf); [10]] (main room lines))
          (main room lines)
      else fork1 (command room buf) (Wait (main room lines))
  end.
