(* ===== verification/ShSpec.v ===== *)
(** * The grammar of the shell: tokens, the reference parser and printing

    [tree W] is a command with its words in [W].  The reference parser works on
    a list of tokens, without pointers; [show] prints any command so that it
    parses to itself.  ShParse shows that sh.c implements the reference. *)

From S2P Require Import Prelude Bytes Kstring KstringSpec Libstring LibstringSpec Sh.

(** ** Characters *)

Definition white (c : Z) : bool := bool_decide (c ∈ whitespace).
Definition symbol (c : Z) : bool := bool_decide (c ∈ symbols).
Definition wordchar (c : Z) : bool := negb (white c) && negb (symbol c) && negb (c =? 0).
Definition char_ok (c : Z) : Prop := 0 < c < 256.

(** ** Tokens: a word, or one of the symbols; 43 ('+') stands for ">>" *)

Inductive token (W : Type) : Type :=
| Word (w : W)
| Sym (c : Z).
Arguments Word {W} w.
Arguments Sym {W} c.

Definition token_map {A B} (f : A → B) (t : token A) : token B :=
  match t with Word w => Word (f w) | Sym c => Sym c end.

Definition flush (cur : option nat) (s : nat) : list (token (nat * nat)) :=
  match cur with Some q => [Word (q, s)] | None => [] end.

(** The tokens of the text from index [s] on; [cur] is the start of the word being read. *)
Fixpoint lex (s : nat) (cur : option nat) (text : list Z) : list (token (nat * nat)) :=
  match text with
  | [] => flush cur s
  | c :: r =>
      if white c then flush cur s ++ lex (S s) None r
      else if symbol c then
        flush cur s ++
        match r with
        | c' :: r' =>
            if (c =? 62) && (c' =? 62) then Sym 43 :: lex (S (S s)) None r'
            else Sym c :: lex (S s) None r
        | [] => [Sym c]
        end
      else lex (S s) (Some (default s cur)) r
  end.

(** The text of a word. *)
Definition word_text (text : list Z) (w : nat * nat) : list Z := take (w.2 - w.1) (drop w.1 text).

Definition tokens (text : list Z) : list (token (list Z)) :=
  token_map (word_text text) <$> lex 0 None text.

(** ** Commands *)

Inductive tree (W : Type) : Type :=
| TExec (args : list W)
| TRedir (t : tree W) (file : W) (mode fd : Z)
| TPipe (l r : tree W)
| TList (l r : tree W)
| TBack (t : tree W).
Arguments TExec {W} args.
Arguments TRedir {W} t file mode fd.
Arguments TPipe {W} l r.
Arguments TList {W} l r.
Arguments TBack {W} t.

Fixpoint tree_map {A B} (f : A → B) (t : tree A) : tree B :=
  match t with
  | TExec args => TExec (f <$> args)
  | TRedir t w m fd => TRedir (tree_map f t) (f w) m fd
  | TPipe l r => TPipe (tree_map f l) (tree_map f r)
  | TList l r => TList (tree_map f l) (tree_map f r)
  | TBack t => TBack (tree_map f t)
  end.

Fixpoint words {W} (t : tree W) : list W :=
  match t with
  | TExec args => args
  | TRedir t w _ _ => words t ++ [w]
  | TPipe l r | TList l r => words l ++ words r
  | TBack t => words t
  end.

(** ** The reference parser *)

Inductive result (W A : Type) : Type :=
| Ok (a : A) (rest : list (token W))
| Err (msg : string)
| Out.
Arguments Ok {W A} a rest.
Arguments Err {W A} msg.
Arguments Out {W A}.

Definition rbind {W A B} (r : result W A) (f : A → list (token W) → result W B) : result W B :=
  match r with Ok a rest => f a rest | Err m => Err m | Out => Out end.

Definition rmap {V W A B} (f : V → W) (g : A → B) (r : result V A) : result W B :=
  match r with Ok a rest => Ok (g a) (token_map f <$> rest) | Err m => Err m | Out => Out end.

(** The redirection tokens, with the open() mode and the descriptor they stand for. *)
Definition redirtok (c : Z) : bool := bool_decide (c ∈ [60; 62; 43]).
Definition redir_mode (c : Z) : Z := if c =? 60 then 0 else if c =? 62 then 1537 else 521.
Definition redir_fd (c : Z) : Z := if c =? 60 then 0 else 1.
(** The tokens that end a simple command. *)
Definition endtok (c : Z) : bool := bool_decide (c ∈ [124; 41; 38; 59]).

Section reference.
Context {W : Type}.
Implicit Types toks rest : list (token W).

(** A redirection is the word and the token; the last one read comes first. *)
Definition wrap (rs : list (W * Z)) (t : tree W) : tree W :=
  foldr (λ r t, TRedir t r.1 (redir_mode r.2) (redir_fd r.2)) t rs.

Fixpoint p_redirs toks (rs : list (W * Z)) : result W (list (W * Z)) :=
  match toks with
  | Sym c :: rest =>
      if redirtok c then
        match rest with
        | Word w :: rest => p_redirs rest ((w, c) :: rs)
        | _ => Err "missing file for redirection"
        end
      else Ok rs toks
  | _ => Ok rs toks
  end.

Fixpoint p_simple toks (args : list W) (rs : list (W * Z)) : result W (tree W) :=
  match toks with
  | [] => Ok (wrap rs (TExec args)) toks
  | Word w :: rest =>
      if (MAXARGS <=? S (length args))%nat then Err "too many args"
      else p_simple rest (args ++ [w]) rs
  | Sym c :: rest =>
      if redirtok c then
        match rest with
        | Word w :: rest => p_simple rest args ((w, c) :: rs)
        | _ => Err "missing file for redirection"
        end
      else if endtok c then Ok (wrap rs (TExec args)) toks
      else Err "syntax"
  end.

Fixpoint p_backs toks (t : tree W) : tree W * list (token W) :=
  match toks with
  | Sym c :: rest => if c =? 38 then p_backs rest (TBack t) else (t, toks)
  | _ => (t, toks)
  end.

(** [peek] for one symbol. *)
Definition at_sym (c : Z) toks : option (list (token W)) :=
  match toks with Sym c' :: rest => if c' =? c then Some rest else None | _ => None end.

Fixpoint p_line (fuel : nat) toks : result W (tree W) :=
  match fuel with
  | O => Out
  | S fuel =>
      rbind (p_pipe fuel toks) (λ t rest,
        let '(t, rest) := p_backs rest t in
        match at_sym 59 rest with
        | Some rest => rbind (p_line fuel rest) (λ r rest, Ok (TList t r) rest)
        | None => Ok t rest
        end)
  end
with p_pipe (fuel : nat) toks : result W (tree W) :=
  match fuel with
  | O => Out
  | S fuel =>
      rbind (p_exec fuel toks) (λ t rest,
        match at_sym 124 rest with
        | Some rest => rbind (p_pipe fuel rest) (λ r rest, Ok (TPipe t r) rest)
        | None => Ok t rest
        end)
  end
with p_exec (fuel : nat) toks : result W (tree W) :=
  match fuel with
  | O => Out
  | S fuel =>
      match at_sym 40 toks with
      | Some rest => p_block fuel rest
      | None => p_simple toks [] []
      end
  end
with p_block (fuel : nat) toks : result W (tree W) :=
  match fuel with
  | O => Out
  | S fuel =>
      rbind (p_line fuel toks) (λ t rest,
        match at_sym 41 rest with
        | Some rest => rbind (p_redirs rest []) (λ rs rest, Ok (wrap rs t) rest)
        | None => Err "syntax - missing )"
        end)
  end.
End reference.

(** The command of a text, or the message of the syntax error. *)
Definition parse (text : list Z) : tree (list Z) + string :=
  match p_line (4 * length text + 4) (tokens text) with
  | Ok t [] => inl t
  | Ok _ _ => inr "syntax"%string
  | Err m => inr m
  | Out => inr "fuel"%string
  end.

(** ** Printing

    A command is printed at a level: 0 for a list, 1 for background commands,
    2 for pipes, 3 for simple commands and blocks; a command of a lower level is
    put in parentheses, which leave no trace in the tree. *)

Definition redir_tok (mode : Z) : Z := if mode =? 0 then 60 else if mode =? 1537 then 62 else 43.

Definition own {W} (t : tree W) : nat :=
  match t with TExec _ | TRedir _ _ _ _ => 3 | TPipe _ _ => 2 | TBack _ => 1 | TList _ _ => 0 end%nat.

Definition paren {W} (p : bool) (toks : list (token W)) : list (token W) :=
  if p then Sym 40 :: toks ++ [Sym 41] else toks.

Fixpoint unparse {W} (lvl : nat) (t : tree W) : list (token W) :=
  paren (own t <? lvl)%nat
    match t with
    | TExec args => Word <$> args
    | TRedir t w mode _ => unparse 3 t ++ [Sym (redir_tok mode); Word w]
    | TPipe l r => unparse 3 l ++ Sym 124 :: unparse 2 r
    | TBack t => unparse 1 t ++ [Sym 38]
    | TList l r => unparse 1 l ++ Sym 59 :: unparse 0 r
    end.

Definition token_text (t : token (list Z)) : list Z :=
  match t with Word w => w | Sym c => if c =? 43 then [62; 62] else [c] end.

Definition show_tokens (toks : list (token (list Z))) : list Z :=
  concat ((λ t, token_text t ++ [32]) <$> toks).

Definition show (t : tree (list Z)) : list Z := show_tokens (unparse 0 t).

(** The commands that the shell has a syntax for. *)
Definition word_ok (w : list Z) : Prop := w ≠ [] ∧ Forall (λ c, char_ok c ∧ wordchar c = true) w.

Fixpoint tree_ok {W} (ok : W → Prop) (t : tree W) : Prop :=
  match t with
  | TExec args => Forall ok args ∧ (length args < MAXARGS)%nat
  | TRedir t w mode fd =>
      tree_ok ok t ∧ ok w ∧ mode = redir_mode (redir_tok mode) ∧ fd = redir_fd (redir_tok mode)
  | TPipe l r | TList l r => tree_ok ok l ∧ tree_ok ok r
  | TBack t => tree_ok ok t
  end.

(** ** The reference parser inverts the printer *)

Section print_parse.
Context {W : Type} (ok : W → Prop).
Implicit Types (t : tree W) (rest toks : list (token W)) (rs : list (W * Z)).

(** What may follow a command, at each level. *)
Definition ends (cs : list Z) rest : Prop :=
  match rest with [] => True | Sym c :: _ => c ∈ cs | Word _ :: _ => False end.

Definition rtoks rs : list (token W) := mjoin ((λ r, [Sym r.2; Word r.1]) <$> rs).

Lemma rtoks_cons w c rs : rtoks ((w, c) :: rs) = Sym c :: Word w :: rtoks rs.
Proof. done. Qed.

Lemma ends_sub cs cs' rest : ends cs rest → (∀ c, c ∈ cs → c ∈ cs') → ends cs' rest.
Proof. destruct rest as [|[w|c] rest]; simpl; auto. Qed.

Lemma p_redirs_rtoks rs : ∀ rest acc,
  Forall (λ r, redirtok r.2 = true) rs → ends [124; 41; 38; 59] rest →
  p_redirs (rtoks rs ++ rest) acc = Ok (reverse rs ++ acc) rest.
Proof.
  induction rs as [|[w c] rs IH]; intros rest acc Hrs Hrest; simpl.
  - destruct rest as [|[w|c] rest]; simpl in *; [done..|].
    destruct (redirtok c) eqn:E; [|done]. apply bool_decide_eq_true in E. set_solver.
  - apply Forall_cons in Hrs as [Hc Hrs]. simpl in Hc. rewrite Hc, IH by done.
    by rewrite reverse_cons, <- app_assoc.
Qed.

Lemma p_simple_rtoks rs : ∀ rest args acc,
  Forall (λ r, redirtok r.2 = true) rs → ends [124; 41; 38; 59] rest →
  p_simple (rtoks rs ++ rest) args acc = Ok (wrap (reverse rs ++ acc) (TExec args)) rest.
Proof.
  induction rs as [|[w c] rs IH]; intros rest args acc Hrs Hrest; simpl.
  - destruct rest as [|[w|c] rest]; simpl in *; [done..|].
    destruct (redirtok c) eqn:E; [apply bool_decide_eq_true in E; set_solver|].
    unfold endtok. by rewrite bool_decide_true.
  - apply Forall_cons in Hrs as [Hc Hrs]. simpl in Hc. rewrite Hc, IH by done.
    by rewrite reverse_cons, <- app_assoc.
Qed.

Lemma p_simple_words ws : ∀ toks args acc,
  (length args + length ws < MAXARGS)%nat →
  p_simple ((Word <$> ws) ++ toks) args acc = p_simple toks (args ++ ws) acc.
Proof.
  induction ws as [|w ws IH]; intros toks args acc Hlen; cbn [fmap list_fmap app]; [by rewrite app_nil_r|].
  cbn [p_simple]. simpl length in Hlen. destruct (Nat.leb_spec MAXARGS (S (length args))); [lia|].
  rewrite IH; [by rewrite <- app_assoc|]. rewrite length_app. simpl. lia.
Qed.

Lemma length_unparse_0 lvl t : (length (unparse 0 t) ≤ length (unparse lvl t))%nat.
Proof.
  destruct t; cbn [unparse]; destruct (own _ <? lvl)%nat; simpl; rewrite ?length_app; simpl; lia.
Qed.

Lemma unparse_eq lvl t : unparse lvl t = paren (own t <? lvl)%nat (unparse 0 t).
Proof. by destruct t; simpl. Qed.

(** The statement at each level. *)
Definition reads_exec t : Prop := ∀ rs rest fuel,
  Forall (λ r, redirtok r.2 = true) rs → ends [124; 41; 38; 59] rest →
  (4 * length (unparse 3 t ++ rtoks rs ++ rest) + 1 < fuel)%nat →
  p_exec fuel (unparse 3 t ++ rtoks rs ++ rest) = Ok (wrap (reverse rs) t) rest.
Definition reads_pipe t : Prop := ∀ rest fuel,
  ends [41; 38; 59] rest → (4 * length (unparse 2 t ++ rest) + 2 < fuel)%nat →
  p_pipe fuel (unparse 2 t ++ rest) = Ok t rest.
Definition reads_backs t : Prop := ∀ rest fuel,
  ends [41; 38; 59] rest → (4 * length (unparse 1 t ++ rest) + 2 < fuel)%nat →
  rbind (p_pipe fuel (unparse 1 t ++ rest)) (λ t rest, Ok (p_backs rest t) []) = Ok (p_backs rest t) [].
Definition reads_line t : Prop := ∀ rest fuel,
  ends [41] rest → (4 * length (unparse 0 t ++ rest) + 3 < fuel)%nat →
  p_line fuel (unparse 0 t ++ rest) = Ok t rest.

Lemma at_sym_ends cs c rest : ends cs rest → c ∉ cs → at_sym c rest = None.
Proof.
  destruct rest as [|[w|c'] rest]; simpl; [done..|]. intros H1 H2. destruct (Z.eqb_spec c' c); [congruence|done].
Qed.

Lemma p_backs_ends cs rest t : ends cs rest → 38 ∉ cs → p_backs rest t = (t, rest).
Proof.
  destruct rest as [|[w|c'] rest]; simpl; [done..|]. intros H1 H2. destruct (Z.eqb_spec c' 38); [congruence|done].
Qed.

Lemma exec_pipe t : (own t ≠ 2)%nat → reads_exec t → reads_pipe t.
Proof.
  intros Ho He rest fuel Hr Hf.
  assert (unparse 2 t = unparse 3 t) as E by (rewrite (unparse_eq 2 t), (unparse_eq 3 t); by destruct t).
  rewrite E in *. destruct fuel as [|fuel]; [lia|]. simpl.
  pose proof (He [] rest fuel) as H. simpl in H. rewrite H; [|done| |lia].
  - simpl. by rewrite (at_sym_ends _ _ _ Hr) by set_solver.
  - eapply ends_sub; [done|set_solver].
Qed.

Lemma pipe_backs t : own t ≠ 1%nat → reads_pipe t → reads_backs t.
Proof.
  intros Ho Hp rest fuel Hr Hf.
  assert (unparse 1 t = unparse 2 t) as E by (rewrite (unparse_eq 1 t), (unparse_eq 2 t); by destruct t).
  rewrite E in *. by rewrite Hp.
Qed.

Lemma rbind_backs {B} (r : result W (tree W)) (x : tree W * list (token W)) (k : tree W → list (token W) → result W B) :
  rbind r (λ t rest, Ok (p_backs rest t) []) = Ok x [] →
  rbind r (λ t rest, let '(t, rest) := p_backs rest t in k t rest) = k x.1 x.2.
Proof. destruct r; simpl; intros [=]. subst x. by destruct (p_backs _ _). Qed.

Lemma backs_line t : own t ≠ 0%nat → reads_backs t → reads_line t.
Proof.
  intros Ho Hb rest fuel Hr Hf.
  assert (unparse 0 t = unparse 1 t) as E by (rewrite (unparse_eq 1 t); by destruct t).
  rewrite E in *. destruct fuel as [|fuel]; [lia|]. simpl.
  erewrite rbind_backs; [|apply Hb; [eapply ends_sub; [done|set_solver]|lia]].
  rewrite (p_backs_ends _ _ _ Hr) by set_solver. simpl. by rewrite (at_sym_ends _ _ _ Hr) by set_solver.
Qed.

(** A command in parentheses. *)
Lemma line_exec t : own t ≠ 3%nat → reads_line t → reads_exec t.
Proof.
  intros Ho Hl rs rest fuel Hrs Hr.
  rewrite unparse_eq. replace (own t <? 3)%nat with true by (by destruct t).
  cbn [paren app length]. rewrite <- app_assoc. intros Hf. destruct fuel as [|[|fuel]]; [lia..|].
  cbn [p_exec at_sym Z.eqb Pos.eqb p_block].
  rewrite Hl; [|simpl; set_solver| rewrite !length_app in *; simpl in *; rewrite ?length_app in *; lia].
  cbn [rbind app at_sym Z.eqb Pos.eqb]. rewrite p_redirs_rtoks by done. simpl. by rewrite app_nil_r.
Qed.

Lemma redir_tok_redirtok mode : redirtok (redir_tok mode) = true.
Proof.
  unfold redir_tok. destruct (mode =? 0); [done|]. by destruct (mode =? 1537).
Qed.

(** Every command is read back, at every level. *)
Lemma unparse_reads t : tree_ok ok t → reads_exec t ∧ reads_pipe t ∧ reads_backs t ∧ reads_line t.
Proof.
  intros Ht. induction t as [args|t IH w mode fd|l IHl r IHr|l IHl r IHr|t IH].
  - assert (reads_exec (TExec args)); [|eauto 10 using exec_pipe, pipe_backs, backs_line].
    destruct Ht as [_ Hlen]. intros rs rest [|fuel] Hrs Hr Hf; [lia|]. cbn [unparse own paren Nat.ltb Nat.leb].
    simpl p_exec.
    assert (at_sym 40 ((Word <$> args) ++ rtoks rs ++ rest) = None) as ->.
    { destruct args; [|done]. destruct rs as [|[w c] rs]; simpl; [by rewrite (at_sym_ends _ _ _ Hr) by set_solver|].
      apply Forall_cons in Hrs as [Hc _]. apply bool_decide_eq_true in Hc. simpl in Hc.
      destruct (Z.eqb_spec c 40); [set_solver|done]. }
    rewrite p_simple_words by done. simpl. rewrite p_simple_rtoks by done. by rewrite app_nil_r.
  - assert (reads_exec (TRedir t w mode fd)); [|eauto 10 using exec_pipe, pipe_backs, backs_line].
    destruct Ht as (Ht & Hw & Hm & Hfd). destruct (IH Ht) as [He _]. intros rs rest fuel Hrs Hr.
    cbn [unparse own paren Nat.ltb Nat.leb]. rewrite <- app_assoc. cbn [app]. intros Hf.
    specialize (He ((w, redir_tok mode) :: rs) rest fuel).
    rewrite rtoks_cons in He. cbn [app] in He.
    rewrite He; [|constructor; [apply redir_tok_redirtok|done]|done|exact Hf].
    rewrite reverse_cons. unfold wrap. rewrite foldr_app. simpl. by rewrite <- Hm, <- Hfd.
  - assert (reads_pipe (TPipe l r)); [|eauto 10 using pipe_backs, backs_line, line_exec].
    destruct Ht as [Hl Hr]. destruct (IHl Hl) as [He _], (IHr Hr) as (_ & Hp & _).
    intros rest [|fuel] Hrest; [lia|]. cbn [unparse own paren Nat.ltb Nat.leb]. rewrite <- app_assoc. intros Hf.
    rewrite !length_app in Hf. simpl in Hf. rewrite ?length_app in Hf.
    simpl. pose proof (He [] ((Sym 124 :: unparse 2 r) ++ rest) fuel) as H. cbn [rtoks fmap list_fmap mjoin list_join app] in H.
    rewrite H; [|done|simpl; set_solver|rewrite !length_app; simpl; rewrite ?length_app; lia].
    cbn [rbind at_sym Z.eqb Pos.eqb]. rewrite Hp; [done|done|rewrite length_app; lia].
  - assert (reads_line (TList l r)); [|eauto 10 using exec_pipe, pipe_backs, line_exec].
    destruct Ht as [Hl Hr]. destruct (IHl Hl) as (_ & _ & Hb & _), (IHr Hr) as (_ & _ & _ & Hl').
    intros rest [|fuel] Hrest; [lia|]. cbn [unparse own paren Nat.ltb Nat.leb]. rewrite <- app_assoc. intros Hf.
    rewrite !length_app in Hf. simpl in Hf. rewrite ?length_app in Hf.
    simpl. erewrite rbind_backs; [|apply Hb; [simpl; set_solver|rewrite !length_app; simpl; rewrite ?length_app; lia]].
    cbn [p_backs Z.eqb Pos.eqb fst snd at_sym]. rewrite Hl'; [done|done|rewrite length_app; lia].
  - assert (reads_backs (TBack t)) as Hb; [|eauto 10 using exec_pipe, line_exec, backs_line].
    destruct (IH Ht) as (_ & _ & Hb & _). intros rest fuel Hrest. cbn [unparse own paren Nat.ltb Nat.leb].
    rewrite <- app_assoc. intros Hf. rewrite Hb; [done|simpl; set_solver|done].
Qed.
End print_parse.

(** ** The reference parser ends

    Every recursive call has fewer tokens, but for three calls down the grammar. *)

Section total.
Context {W : Type}.
Implicit Types (t : tree W) (rest toks : list (token W)) (rs : list (W * Z)).

(** The result is not [Out], and what is left is no longer than before. *)
Definition ends_within {A} toks (r : result W A) : Prop :=
  match r with Ok _ rest => (length rest ≤ length toks)%nat | Err _ => True | Out => False end.

Lemma ends_within_refl {A} (a : A) toks : ends_within toks (Ok a toks).
Proof. simpl. lia. Qed.
Hint Resolve ends_within_refl : core.

Lemma ends_within_le {A} toks toks' (r : result W A) :
  ends_within toks r → (length toks ≤ length toks')%nat → ends_within toks' r.
Proof. destruct r; simpl; intros; [lia|done..]. Qed.

Lemma rbind_ends {A B} toks (r : result W A) (f : A → list (token W) → result W B) :
  ends_within toks r →
  (∀ a rest, (length rest ≤ length toks)%nat → ends_within rest (f a rest)) →
  ends_within toks (rbind r f).
Proof. destruct r; simpl; intros H Hf; [|done..]. by eapply ends_within_le; [apply Hf|]. Qed.

Lemma p_redirs_ends n : ∀ toks rs, (length toks ≤ n)%nat → ends_within toks (p_redirs toks rs).
Proof.
  induction n as [|n IH]; intros [|[w|c] toks] rs Hn; simpl in *; try done; try lia.
  destruct (redirtok c); [|auto]. destruct toks as [|[w|c'] toks]; [done| |done].
  simpl in *. eapply ends_within_le; [apply IH; lia|simpl; lia].
Qed.

Lemma p_simple_ends n : ∀ toks args rs, (length toks ≤ n)%nat → ends_within toks (p_simple toks args rs).
Proof.
  induction n as [|n IH]; intros [|[w|c] toks] args rs Hn; cbn [p_simple length] in *; try (simpl; lia).
  - destruct (_ <=? _)%nat; [done|]. eapply ends_within_le; [apply IH; lia|simpl; lia].
  - destruct (redirtok c); [|destruct (endtok c); by auto]. destruct toks as [|[w|c'] toks]; [done| |done].
    simpl in *. eapply ends_within_le; [apply IH; lia|simpl; lia].
Qed.

Lemma p_backs_length toks : ∀ t, (length (p_backs toks t).2 ≤ length toks)%nat.
Proof.
  induction toks as [|[w|c] toks IH]; intros t; simpl; [done..|].
  destruct (c =? 38); [|done]. etransitivity; [apply IH|lia].
Qed.

Lemma at_sym_length c toks rest : at_sym c toks = Some rest → length toks = S (length rest).
Proof. destruct toks as [|[w|c'] toks]; simpl; [done..|]. destruct (c' =? c); [|done]. by intros [= ->]. Qed.

Lemma p_ends fuel : ∀ toks,
  ((4 * length toks + 3 < fuel)%nat → ends_within toks (p_line fuel toks)) ∧
  ((4 * length toks + 2 < fuel)%nat → ends_within toks (p_pipe fuel toks)) ∧
  ((4 * length toks + 1 < fuel)%nat → ends_within toks (p_exec fuel toks)) ∧
  ((4 * length toks + 4 < fuel)%nat → ends_within toks (p_block fuel toks)).
Proof.
  induction fuel as [|fuel IH]; intros toks; [split_and!; lia|].
  split_and!; intros Hf; simpl.
  - apply rbind_ends; [apply IH; lia|]. intros t rest Hr.
    pose proof (p_backs_length rest t) as Hb. destruct (p_backs rest t) as [t' rest'] eqn:E. simpl in Hb.
    destruct (at_sym 59 rest') as [r|] eqn:Ea; [|by auto]. apply at_sym_length in Ea.
    eapply ends_within_le; [apply rbind_ends; [apply IH; lia|auto]|lia].
  - apply rbind_ends; [apply IH; lia|]. intros t rest Hr.
    destruct (at_sym 124 rest) as [r|] eqn:Ea; [|by auto]. apply at_sym_length in Ea.
    eapply ends_within_le; [apply rbind_ends; [apply IH; lia|auto]|lia].
  - destruct (at_sym 40 toks) as [r|] eqn:Ea; [|by eapply p_simple_ends]. apply at_sym_length in Ea.
    eapply ends_within_le; [apply IH; lia|lia].
  - apply rbind_ends; [apply IH; lia|]. intros t rest Hr.
    destruct (at_sym 41 rest) as [r|] eqn:Ea; [|by auto]. apply at_sym_length in Ea.
    eapply ends_within_le; [apply rbind_ends; [by eapply p_redirs_ends|auto]|lia].
Qed.
End total.

(** ** What the reference parser returns is well formed *)

Definition token_words {W} (P : W → Prop) (t : token W) : Prop := match t with Word w => P w | Sym _ => True end.

Section typed.
Context {W : Type} (ok : W → Prop).
Implicit Types (t : tree W) (rest ts : list (token W)) (rs : list (W * Z)).

Definition gives {A} (P : A → Prop) (r : result W A) : Prop :=
  match r with Ok a rest => P a ∧ Forall (token_words ok) rest | _ => True end.

Definition redirs_ok rs : Prop := Forall (λ r, ok r.1) rs.

Lemma rbind_gives {A B} (P : A → Prop) (Q : B → Prop) (r : result W A) f :
  gives P r → (∀ a rest, P a → Forall (token_words ok) rest → gives Q (f a rest)) → gives Q (rbind r f).
Proof. destruct r; simpl; [|done..]. intros [? ?] Hf. by apply Hf. Qed.

Lemma redir_mode_tok c : redir_mode c = redir_mode (redir_tok (redir_mode c)) ∧ redir_fd c = redir_fd (redir_tok (redir_mode c)).
Proof. unfold redir_mode, redir_fd, redir_tok. destruct (c =? 60); [done|]. by destruct (c =? 62). Qed.

Lemma wrap_ok rs t : redirs_ok rs → tree_ok ok t → tree_ok ok (wrap rs t).
Proof. induction 1 as [|[w c] rs Hw Hrs IH]; simpl; [done|]. intros Ht. split_and!; [by apply IH|done|apply redir_mode_tok..]. Qed.

Lemma p_redirs_ok n : ∀ ts rs, (length ts ≤ n)%nat →
  Forall (token_words ok) ts → redirs_ok rs → gives redirs_ok (p_redirs ts rs).
Proof.
  induction n as [|n IH]; intros [|[w|c] ts] rs Hn Hts Hrs; simpl in *; try done; try lia.
  destruct (redirtok c); [|done]. destruct ts as [|[w|c'] ts]; [done| |done]. simpl in Hn.
  inversion_clear Hts as [|? ? _ Hts']. inversion_clear Hts' as [|? ? Hw Hts]. apply IH; [lia|done|by constructor].
Qed.

Lemma p_simple_ok n : ∀ ts args rs, (length ts ≤ n)%nat →
  Forall (token_words ok) ts → Forall ok args → (length args < MAXARGS)%nat → redirs_ok rs →
  gives (tree_ok ok) (p_simple ts args rs).
Proof.
  assert (∀ ts args rs, Forall (token_words ok) ts → Forall ok args → (length args < MAXARGS)%nat → redirs_ok rs →
    gives (tree_ok ok) (Ok (wrap rs (TExec args)) ts)) as Hend.
  { intros ts args rs Hts Ha Hl Hrs. split; [|done]. by apply wrap_ok. }
  induction n as [|n IH]; intros [|[w|c] ts] args rs Hn Hts Ha Hl Hrs; cbn [length] in Hn; try lia; [by apply Hend..| |].
  - cbn [p_simple]. inversion_clear Hts as [|? ? Hw Hts']. destruct (Nat.leb_spec MAXARGS (S (length args))); [done|].
    apply IH; [lia|done| | |done]; [|rewrite length_app; simpl; lia].
    apply Forall_app. split; [done|]. by constructor.
  - cbn [p_simple]. destruct (redirtok c); [|destruct (endtok c); [by apply Hend|done]].
    destruct ts as [|[w|c'] ts]; [done| |done]. simpl in Hn.
    inversion_clear Hts as [|? ? _ Hts']. inversion_clear Hts' as [|? ? Hw Hts]. apply IH; [lia|done..|by constructor].
Qed.

Lemma p_backs_ok ts : ∀ t, Forall (token_words ok) ts → tree_ok ok t →
  tree_ok ok (p_backs ts t).1 ∧ Forall (token_words ok) (p_backs ts t).2.
Proof.
  induction ts as [|[w|c] ts IH]; intros t Hts Ht; simpl; [done..|]. destruct (c =? 38); [|done].
  inversion_clear Hts. by apply IH.
Qed.

Lemma at_sym_ok c ts rest : at_sym c ts = Some rest → Forall (token_words ok) ts → Forall (token_words ok) rest.
Proof.
  destruct ts as [|[w|c'] ts]; simpl; [done..|]. destruct (c' =? c); [|done]. intros [= <-] Hts. by inversion_clear Hts.
Qed.

Lemma p_ok fuel : ∀ ts, Forall (token_words ok) ts →
  gives (tree_ok ok) (p_line fuel ts) ∧ gives (tree_ok ok) (p_pipe fuel ts) ∧
  gives (tree_ok ok) (p_exec fuel ts) ∧ gives (tree_ok ok) (p_block fuel ts).
Proof.
  induction fuel as [|fuel IH]; intros ts Hts; [done|]. split_and!; simpl.
  - eapply rbind_gives; [by apply IH|]. intros t rest Ht Hrest. destruct (p_backs_ok rest t Hrest Ht) as [Ht' Hrest'].
    destruct (p_backs rest t) as [t' rest']. simpl in *. destruct (at_sym 59 rest') as [r|] eqn:E; [|done].
    eapply rbind_gives; [by eapply IH, at_sym_ok|done].
  - eapply rbind_gives; [by apply IH|]. intros t rest Ht Hrest. destruct (at_sym 124 rest) as [r|] eqn:E; [|done].
    eapply rbind_gives; [by eapply IH, at_sym_ok|done].
  - destruct (at_sym 40 ts) as [r|] eqn:E; [by eapply IH, at_sym_ok|].
    eapply p_simple_ok; [done|done|constructor|unfold MAXARGS; simpl; lia|constructor].
  - eapply rbind_gives; [by apply IH|]. intros t rest Ht Hrest. destruct (at_sym 41 rest) as [r|] eqn:E; [|done].
    eapply rbind_gives; [eapply p_redirs_ok; [done|by eapply at_sym_ok|constructor]|].
    intros rs rest' Hrs Hrest'. split; [by apply wrap_ok|done].
Qed.

Lemma tree_ok_words t : tree_ok ok t → Forall ok (words t).
Proof.
  induction t as [args|t IH w m fd|l IHl r IHr|l IHl r IHr|t IH]; simpl; rewrite ?Forall_app; intros H; destruct_and?; auto.
Qed.
End typed.

Lemma tree_ok_map {V W} (f : V → W) (P : V → Prop) (Q : W → Prop) t :
  (∀ v, P v → Q (f v)) → tree_ok P t → tree_ok Q (tree_map f t).
Proof.
  intros Hf. induction t as [args|t IH w m fd|l IHl r IHr|l IHl r IHr|t IH]; simpl; intros H; destruct_and?; auto.
  rewrite Forall_fmap, length_fmap. split; [|done]. by eapply Forall_impl.
Qed.

(** ** The parser does not look at the words *)

Section parametric.
Context {V W : Type} (f : V → W).

Definition redir_map (r : V * Z) : W * Z := (f r.1, r.2).

Lemma wrap_map rs (t : tree V) : tree_map f (wrap rs t) = wrap (redir_map <$> rs) (tree_map f t).
Proof. induction rs as [|r rs IH]; simpl; [done|]. by rewrite IH. Qed.

Lemma rmap_rbind {A B C D} (g : A → B) (h : C → D) (r : result V A) k k' :
  (∀ a rest, rmap f h (k a rest) = k' (g a) (token_map f <$> rest)) →
  rmap f h (rbind r k) = rbind (rmap f g r) k'.
Proof. intros H. destruct r; simpl; [apply H|done..]. Qed.

Lemma p_redirs_map n : ∀ toks rs, (length toks ≤ n)%nat →
  rmap f (fmap redir_map) (p_redirs toks rs) = p_redirs (token_map f <$> toks) (redir_map <$> rs).
Proof.
  induction n as [|n IH]; intros [|[w|c] toks] rs Hn; simpl in *; try done; try lia.
  destruct (redirtok c); [|done]. destruct toks as [|[w|c'] toks]; [done| |done].
  simpl in *. by rewrite IH by lia.
Qed.

Lemma p_simple_map n : ∀ toks args rs, (length toks ≤ n)%nat →
  rmap f (tree_map f) (p_simple toks args rs) = p_simple (token_map f <$> toks) (f <$> args) (redir_map <$> rs).
Proof.
  induction n as [|n IH]; intros [|[w|c] toks] args rs Hn; cbn [length] in Hn; try lia.
  1,2: simpl; by rewrite wrap_map.
  - cbn [p_simple fmap list_fmap token_map]. rewrite length_fmap. destruct (_ <=? _)%nat; [done|].
    rewrite IH by lia. by rewrite fmap_app.
  - cbn [p_simple fmap list_fmap token_map].
    destruct (redirtok c); [|destruct (endtok c); [by simpl; rewrite wrap_map|done]].
    destruct toks as [|[w|c'] toks]; [done| |done]. simpl in *. by rewrite IH by lia.
Qed.

Lemma p_backs_map toks : ∀ t,
  p_backs (token_map f <$> toks) (tree_map f t) =
  (tree_map f (p_backs toks t).1, token_map f <$> (p_backs toks t).2).
Proof.
  induction toks as [|[w|c] toks IH]; intros t; simpl; [done..|].
  destruct (c =? 38); [|done]. by rewrite <- (IH (TBack t)).
Qed.

Lemma at_sym_map c (toks : list (token V)) :
  at_sym c (token_map f <$> toks) = (λ r : list (token V), token_map f <$> r) <$> at_sym c toks.
Proof. destruct toks as [|[w|c'] toks]; simpl; [done..|]. by destruct (c' =? c). Qed.

Lemma p_map fuel : ∀ toks,
  rmap f (tree_map f) (p_line fuel toks) = p_line fuel (token_map f <$> toks) ∧
  rmap f (tree_map f) (p_pipe fuel toks) = p_pipe fuel (token_map f <$> toks) ∧
  rmap f (tree_map f) (p_exec fuel toks) = p_exec fuel (token_map f <$> toks) ∧
  rmap f (tree_map f) (p_block fuel toks) = p_block fuel (token_map f <$> toks).
Proof.
  induction fuel as [|fuel IH]; intros toks; [done|].
  pose proof (λ toks, proj1 (IH toks)) as IHl. pose proof (λ toks, proj1 (proj2 (IH toks))) as IHp.
  pose proof (λ toks, proj1 (proj2 (proj2 (IH toks)))) as IHe.
  pose proof (λ toks, proj2 (proj2 (proj2 (IH toks)))) as IHb.
  split_and!; simpl.
  - rewrite <- IHp. apply rmap_rbind. intros t rest. rewrite p_backs_map.
    destruct (p_backs rest t) as [t' rest']. simpl. rewrite at_sym_map.
    destruct (at_sym 59 rest'); simpl; [|done]. rewrite <- IHl. by apply rmap_rbind.
  - rewrite <- IHe. apply rmap_rbind. intros t rest. rewrite at_sym_map.
    destruct (at_sym 124 rest); simpl; [|done]. rewrite <- IHp. by apply rmap_rbind.
  - rewrite at_sym_map. destruct (at_sym 40 toks); simpl; [apply IHb|]. by eapply (p_simple_map _ toks [] []).
  - rewrite <- IHl. apply rmap_rbind. intros t rest. rewrite at_sym_map.
    destruct (at_sym 41 rest) as [r|]; simpl; [|done]. change (@nil (W * Z)) with (redir_map <$> []).
    rewrite <- (p_redirs_map _ r [] (le_n _)). apply rmap_rbind. intros rs rest'. simpl. by rewrite wrap_map.
Qed.
End parametric.

(** ** The tokens of a printed command *)

Lemma wordchar_not c : wordchar c = true → white c = false ∧ symbol c = false ∧ c ≠ 0.
Proof.
  unfold wordchar. rewrite !andb_true_iff, !negb_true_iff, Z.eqb_neq. tauto.
Qed.

Lemma lex_word w : ∀ s q text,
  Forall (λ c, char_ok c ∧ wordchar c = true) w → lex s (Some q) (w ++ text) = lex (s + length w) (Some q) text.
Proof.
  induction w as [|c w IH]; intros s q text Hw; simpl; [by rewrite Nat.add_0_r|].
  apply Forall_cons in Hw as [[_ Hc] Hw]. apply wordchar_not in Hc as (-> & -> & _).
  rewrite IH by done. f_equal. lia.
Qed.

Definition token_ok (t : token (list Z)) : Prop :=
  match t with Word w => word_ok w | Sym c => c ∈ 43 :: symbols end.

Lemma lex_token t s text : token_ok t →
  lex s None (token_text t ++ 32 :: text) =
  match t with Word w => Word (s, s + length w)%nat | Sym c => Sym c end
  :: lex (S (s + length (token_text t))) None text.
Proof.
  destruct t as [w|c]; simpl.
  - intros [Hn Hw]. destruct w as [|c w]; [done|]. apply Forall_cons in Hw as [[_ Hc] Hw].
    simpl. pose proof (wordchar_not _ Hc) as (-> & -> & _). rewrite lex_word by done. simpl.
    replace (s + S (length w))%nat with (S (s + length w)) by lia. done.
  - intros Hc. unfold symbols in Hc. rewrite !elem_of_cons in Hc.
    rewrite Nat.add_comm. destruct_or? Hc; [subst c; done..|by apply elem_of_nil in Hc].
Qed.

Lemma show_tokens_cons t toks : show_tokens (t :: toks) = token_text t ++ 32 :: show_tokens toks.
Proof. unfold show_tokens. simpl. by rewrite <- app_assoc. Qed.

Lemma lex_show toks : ∀ pre,
  Forall token_ok toks →
  token_map (word_text (pre ++ show_tokens toks)) <$> lex (length pre) None (show_tokens toks) = toks.
Proof.
  induction toks as [|t toks IH]; intros pre Ht; [done|]. apply Forall_cons in Ht as [Ht Hts].
  rewrite show_tokens_cons, lex_token by done. rewrite fmap_cons. f_equal.
  - destruct t as [w|c]; simpl; [|done]. f_equal. unfold word_text. simpl.
    rewrite drop_app_length, Nat.add_comm, Nat.add_sub. by rewrite take_app_length.
  - specialize (IH (pre ++ token_text t ++ [32]) Hts). rewrite !length_app in IH. simpl in IH.
    rewrite <- !app_assoc in IH. simpl in IH.
    replace (length pre + (length (token_text t) + 1))%nat with (S (length pre + length (token_text t))) in IH by lia.
    exact IH.
Qed.

Lemma unparse_ok t : ∀ lvl, tree_ok word_ok t → Forall token_ok (unparse lvl t).
Proof.
  assert (∀ p toks, Forall token_ok toks → Forall token_ok (paren p toks)) as Hp.
  { intros [] toks H; simpl; [|done]. constructor; [simpl; unfold symbols; set_solver|].
    apply Forall_app. split; [done|]. constructor; [simpl; unfold symbols; set_solver|constructor]. }
  assert (∀ mode, redir_tok mode ∈ 43 :: symbols) as Hm.
  { intros mode. unfold redir_tok, symbols. destruct (mode =? 0); [|destruct (mode =? 1537)]; set_solver. }
  induction t as [args|t IH w mode fd|l IHl r IHr|l IHl r IHr|t IH]; intros lvl Ht; simpl in *; apply Hp.
  - apply Forall_fmap. destruct Ht as [Ht _]. eapply Forall_impl; [exact Ht|done].
  - destruct Ht as (Ht & Hw & _). apply Forall_app. split; [by apply IH|].
    constructor; [apply Hm|]. by constructor.
  - destruct Ht. apply Forall_app. split; [by apply IHl|]. constructor; [simpl; unfold symbols; set_solver|by apply IHr].
  - destruct Ht. apply Forall_app. split; [by apply IHl|]. constructor; [simpl; unfold symbols; set_solver|by apply IHr].
  - apply Forall_app. split; [by apply IH|]. constructor; [simpl; unfold symbols; set_solver|constructor].
Qed.

Lemma tokens_show t : tree_ok word_ok t → tokens (show t) = unparse 0 t.
Proof. intros Ht. unfold tokens, show. apply (lex_show _ []). by apply unparse_ok. Qed.

Lemma show_tokens_length toks : (length toks ≤ length (show_tokens toks))%nat.
Proof.
  induction toks as [|t toks IH]; [done|]. rewrite show_tokens_cons, length_app. simpl. lia.
Qed.

(** Parsing inverts printing. *)
Lemma parse_show t : tree_ok word_ok t → parse (show t) = inl t.
Proof.
  intros Ht. unfold parse. rewrite tokens_show by done.
  destruct (unparse_reads word_ok t Ht) as (_ & _ & _ & Hl).
  specialize (Hl [] (4 * length (show t) + 4)%nat I). rewrite app_nil_r in Hl. rewrite Hl; [done|].
  pose proof (show_tokens_length (unparse 0 t)). unfold show. lia.
Qed.

Lemma show_char_ok t : tree_ok word_ok t → Forall char_ok (show t).
Proof.
  intros Ht%(unparse_ok _ 0). unfold show. induction Ht as [|tok toks Htok _ IH]; [constructor|].
  rewrite show_tokens_cons. apply Forall_app. split; [|constructor; [unfold char_ok; lia|done]].
  destruct tok as [w|c]; simpl.
  - destruct Htok as [_ Hw]. eapply Forall_impl; [exact Hw|]. by intros c [? _].
  - simpl in Htok. unfold symbols in Htok. rewrite !elem_of_cons, elem_of_nil in Htok.
    destruct Htok as [->|Htok]; [by repeat (constructor; [unfold char_ok; lia|])|].
    assert (char_ok c ∧ c ≠ 43) as [Hc Hn] by (unfold char_ok; lia).
    rewrite (proj2 (Z.eqb_neq c 43) Hn). by constructor.
Qed.
