(* ===== verification/ShParse.v ===== *)
(** * The tokens that gettoken() and peek() of the shell find

    [toks s] are the tokens of the line from index [s] on.  The routines of
    sh.c that look at characters are shown to compute on them. *)

From S2P Require Import Prelude Bytes Kstring KstringSpec Libstring LibstringSpec Sh ShSpec.

(** ** Characters *)

Lemma index_loop_elem ch : ∀ s i, ch ≠ 0 → Forall (λ c, c ≠ 0) s →
  is_Some (index_loop s ch i) ↔ ch ∈ s.
Proof.
  induction s as [|c s IH]; intros i Hch Hs; cbn [index_loop].
  - destruct (Z.eqb_spec 0 ch); [congruence|]. split; [by intros [? [=]]|by intros ?%not_elem_of_nil].
  - apply Forall_cons in Hs as [Hc Hs]. rewrite elem_of_cons. destruct (Z.eqb_spec c ch) as [->|Hne].
    + split; [by left|by eexists].
    + destruct (Z.eqb_spec c 0); [done|]. rewrite IH by done. split; [by right|by intros [->|?]].
Qed.

Lemma strchr_elem s c : 0 < c < 256 → Forall (λ c, c ≠ 0) s → strchr s c = bool_decide (c ∈ s).
Proof.
  intros Hc Hs. unfold strchr, index. rewrite u8_small by lia.
  apply bool_decide_ext. apply index_loop_elem; [lia|done].
Qed.

Lemma nul_free (l : list Z) : forallb (λ c, negb (c =? 0)) l = true → Forall (λ c, c ≠ 0) l.
Proof. rewrite forallb_forall, Forall_forall. intros H x Hx%list_elem_of_In. specialize (H x Hx). lia. Qed.

Lemma strchr_white c : char_ok c → strchr whitespace c = white c.
Proof. intros. by rewrite strchr_elem by (done || by apply nul_free). Qed.

Lemma strchr_word c : char_ok c → negb (strchr whitespace c) && negb (strchr symbols c) = wordchar c.
Proof.
  intros Hc. rewrite !strchr_elem by (done || by apply nul_free). unfold wordchar, white, symbol.
  destruct (Z.eqb_spec c 0); [unfold char_ok in *; lia|]. by rewrite andb_true_r.
Qed.

(** The length of the longest prefix of characters that satisfy [p]. *)
Fixpoint span (p : Z → bool) (l : list Z) : nat :=
  match l with c :: l => if p c then S (span p l) else O | [] => O end.

Lemma span_le p l : (span p l ≤ length l)%nat.
Proof. induction l as [|c l IH]; simpl; [lia|]. destruct (p c); lia. Qed.

Lemma span_stops p l c r : drop (span p l) l = c :: r → p c = false.
Proof.
  induction l as [|c' l IH]; simpl; [done|]. destruct (p c') eqn:E; [done|]. simpl. by intros [= -> ->].
Qed.

Lemma white_not_word c : white c = true → wordchar c = false.
Proof. unfold wordchar. by intros ->. Qed.
Lemma symbol_not_word c : symbol c = true → wordchar c = false.
Proof. unfold wordchar. intros ->. by rewrite andb_false_r. Qed.

(** ** The tokens of the rest of the line *)

Lemma lex_skip l : ∀ s, lex s None l = lex (s + span white l) None (drop (span white l) l).
Proof.
  induction l as [|c l IH]; intros s; simpl; [done|].
  destruct (white c) eqn:E; simpl.
  - rewrite IH. f_equal. lia.
  - by rewrite Nat.add_0_r, E.
Qed.

Lemma lex_span l : ∀ s q, Forall char_ok l →
  lex s (Some q) l = Word (q, s + span wordchar l)%nat :: lex (s + span wordchar l) None (drop (span wordchar l) l).
Proof.
  induction l as [|c l IH]; intros s q Hl; simpl; [by rewrite Nat.add_0_r|].
  apply Forall_cons in Hl as [Hc Hl].
  destruct (white c) eqn:Ew.
  { rewrite (white_not_word _ Ew). simpl. by rewrite Nat.add_0_r, Ew. }
  destruct (symbol c) eqn:Es.
  { rewrite (symbol_not_word _ Es). simpl. by rewrite Nat.add_0_r, Ew, Es. }
  assert (wordchar c = true) as ->.
  { unfold wordchar. rewrite Ew, Es. simpl. unfold char_ok in Hc. destruct (Z.eqb_spec c 0); [lia|done]. }
  simpl. rewrite IH by done. replace (S s + span wordchar l)%nat with (s + S (span wordchar l))%nat by lia. done.
Qed.

Section line.
Context (text extra : list Z) (Htext : Forall char_ok text).

Definition the_line : list Z := text ++ 0 :: extra.
Definition toks (s : nat) : list (token (nat * nat)) := lex s None (drop s text).
Definition skip (s : nat) : nat := (s + span white (drop s text))%nat.

Local Notation "'es'" := (length text).

Lemma skip_bounds s : (s ≤ es → s ≤ skip s ≤ es)%nat.
Proof. unfold skip. pose proof (span_le white (drop s text)) as H. rewrite length_drop in H. lia. Qed.

Lemma toks_skip s : toks (skip s) = toks s.
Proof. unfold toks, skip. rewrite (lex_skip (drop s text)). by rewrite drop_drop. Qed.

Lemma toks_end : toks es = [].
Proof. unfold toks. by rewrite drop_all. Qed.

Lemma lookup_line s c r : drop s text = c :: r → the_line !! s = Some c ∧ (s < es)%nat ∧ char_ok c.
Proof.
  intros E. assert (text !! s = Some c) as H by (by rewrite <- (Nat.add_0_r s), <- lookup_drop, E).
  split_and!; [|by eapply lookup_lt_Some|by eapply Forall_lookup_1].
  unfold the_line. apply lookup_app_l_Some. done.
Qed.

Lemma lookup_nul s : drop s text = [] → (s ≤ es)%nat → the_line !! s = Some 0 ∧ s = es.
Proof.
  intros E%(f_equal length) Hs. rewrite length_drop in E. simpl in E. assert (s = es) as -> by lia.
  split; [|done]. unfold the_line. by rewrite list_lookup_middle.
Qed.

Implicit Types st : shst.

Lemma deref_eq st s c : sh_line st !! s = Some c → deref s st = Ret c st.
Proof. unfold deref. by intros ->. Qed.

(** A scan goes to the end of the characters that satisfy the test. *)
Lemma scan_loop (p p' : Z → bool) st (Hp : ∀ c, char_ok c → p c = p' c) (Hst : sh_line st = the_line) n :
  ∀ s, (s ≤ es)%nat → (es - s < n)%nat →
  loop n (λ s, if (s <? es)%nat then let* c := deref s in ret (if p c then @inl nat nat (S s) else inr s)
               else ret (inr s)) s st = Ret (s + span p' (drop s text))%nat st.
Proof.
  induction n as [|n IH]; intros s Hs Hn; [lia|]. simpl. unfold bind.
  destruct (Nat.ltb_spec s es).
  - destruct (drop s text) as [|c r] eqn:E.
    { apply lookup_nul in E as [_ ->]; lia. }
    apply lookup_line in E as H'. destruct H' as (Hl & _ & Hc).
    rewrite (deref_eq st s c) by congruence. cbn. rewrite (Hp c Hc). destruct (p' c).
    + rewrite IH by lia. replace (drop (S s) text) with r; [f_equal; lia|].
      by rewrite <- Nat.add_1_r, <- drop_drop, E.
    + by rewrite Nat.add_0_r.
  - cbn. assert (s = es) as -> by lia. rewrite drop_all. simpl. by rewrite Nat.add_0_r.
Qed.

Lemma scan_white st s : sh_line st = the_line → (s ≤ es)%nat → scan (strchr whitespace) es s st = Ret (skip s) st.
Proof. intros. unfold scan. apply (scan_loop _ white); [apply strchr_white|done..|lia]. Qed.

Lemma scan_word st s : sh_line st = the_line → (s ≤ es)%nat →
  scan (λ c, negb (strchr whitespace c) && negb (strchr symbols c)) es s st =
  Ret (s + span wordchar (drop s text))%nat st.
Proof. intros. unfold scan. apply (scan_loop _ wordchar); [apply strchr_word|done..|lia]. Qed.

(** ** peek() and gettoken() *)

Definition head_sym (c : Z) : Z := if c =? 43 then 62 else c.
Definition starts (cs : list Z) (ts : list (token (nat * nat))) : bool :=
  match ts with Sym c :: _ => bool_decide (head_sym c ∈ cs) | _ => false end.

(** What is at the next token. *)
Lemma next_cases s : (s ≤ es)%nat →
  (drop (skip s) text = [] ∧ toks s = [] ∧ skip s = es) ∨
  (∃ c r, drop (skip s) text = c :: r ∧ char_ok c ∧ the_line !! skip s = Some c ∧ (skip s < es)%nat ∧
     ((wordchar c = true ∧
         let e := (skip s + span wordchar (c :: r))%nat in
         toks s = Word (skip s, e) :: toks e ∧ (skip s < e ≤ es)%nat) ∨
      (symbol c = true ∧ white c = false ∧
         ((c = 62 ∧ (∃ r', r = 62 :: r') ∧ toks s = Sym 43 :: toks (S (S (skip s))) ∧ (S (S (skip s)) ≤ es)%nat) ∨
          (¬ (c = 62 ∧ ∃ r', r = 62 :: r') ∧ toks s = Sym c :: toks (S (skip s))))))).
Proof.
  intros Hs. pose proof (skip_bounds s Hs) as Hb. rewrite <- (toks_skip s).
  assert (toks (skip s) = lex (skip s) None (drop (skip s) text)) as -> by done.
  destruct (drop (skip s) text) as [|c r] eqn:E.
  { left. split_and!; [done..|]. by apply lookup_nul in E as [_ ?]; [|lia]. }
  right. exists c, r. apply lookup_line in E as H'. destruct H' as (Hl & Hlt & Hc). split_and!; [done..|].
  assert (white c = false) as Hw.
  { unfold skip in E. rewrite <- drop_drop in E. by eapply span_stops. }
  assert (∀ n, drop (skip s + n) text = drop n (c :: r)) as Hd by (intros; by rewrite <- drop_drop, E).
  assert (length (c :: r) = es - skip s)%nat as Hlen by (rewrite <- E, length_drop; lia).
  destruct (symbol c) eqn:Es.
  - right. split_and!; [done..|]. simpl. rewrite Hw, Es. simpl. pose proof (Hd 1%nat) as Hd1. pose proof (Hd 2%nat) as Hd2.
    rewrite Nat.add_1_r in Hd1. replace (skip s + 2)%nat with (S (S (skip s))) in Hd2 by lia.
    unfold toks. rewrite Hd1, Hd2. destruct r as [|c' r'].
    + right. split; [by intros [_ [? ?]]|]. done.
    + simpl. destruct (Z.eqb_spec c 62), (Z.eqb_spec c' 62); simpl.
      1: left; subst; split_and!; [done|by eexists|done|simpl in Hlen; lia].
      all: right; split; [intros [? [? [= ? ?]]]; congruence|done].
  - left. assert (wordchar c = true) as Hwc.
    { unfold wordchar. rewrite Hw, Es. simpl. unfold char_ok in Hc. destruct (Z.eqb_spec c 0); [lia|done]. }
    split; [done|]. simpl. rewrite Hw, Es, Hwc. simpl.
    assert (Forall char_ok r) as Hr.
    { apply (Forall_drop _ (skip s)) in Htext. rewrite E in Htext. by apply Forall_cons in Htext as [_ ?]. }
    rewrite lex_span by done. unfold toks. pose proof (span_le wordchar r).
    replace (skip s + S (span wordchar r))%nat with (S (skip s) + span wordchar r)%nat by lia.
    split; [|simpl in Hlen; lia]. do 2 f_equal. replace (S (skip s) + span wordchar r)%nat with (skip s + S (span wordchar r))%nat by lia.
    by rewrite Hd.
Qed.

Lemma starts_char cs c : char_ok c → Forall (λ c, c ∈ symbols) cs →
  negb (c =? 0) && strchr cs c = bool_decide (c ∈ cs).
Proof.
  intros Hc Hcs. rewrite strchr_elem; [|done|].
  - unfold char_ok in Hc. by destruct (Z.eqb_spec c 0); [lia|].
  - eapply Forall_impl; [exact Hcs|]. intros x Hx ->. unfold symbols in Hx. set_solver.
Qed.

Lemma starts_word cs c : wordchar c = true → Forall (λ c, c ∈ symbols) cs → bool_decide (c ∈ cs) = false.
Proof.
  intros Hc Hcs. apply bool_decide_eq_false. intros Hin.
  apply wordchar_not in Hc as (_ & Hs & _). apply bool_decide_eq_false in Hs.
  rewrite Forall_forall in Hcs. by apply Hs, Hcs.
Qed.

Lemma peek_spec st s cs : sh_line st = the_line → (s ≤ es)%nat → Forall (λ c, c ∈ symbols) cs →
  peek es s cs st = Ret (starts cs (toks s), skip s) st.
Proof.
  intros Hst Hs Hcs. unfold peek, bind. rewrite scan_white by done.
  destruct (next_cases s Hs) as [(E & Ht & Hend)|(c & r & E & Hc & Hl & Hlt & Hcase)].
  - rewrite (deref_eq _ _ 0); [by rewrite Ht|]. rewrite Hst. by apply lookup_nul; [|rewrite Hend].
  - rewrite (deref_eq _ _ c) by congruence. unfold ret. do 2 f_equal. rewrite starts_char by done.
    destruct Hcase as [[Hw [-> _]]|(Hsy & _ & [(-> & _ & -> & _)|(Hn & ->)])].
    + by rewrite starts_word.
    + done.
    + simpl. unfold head_sym. destruct (Z.eqb_spec c 43) as [->|]; [done|done].
Qed.

(** What a call of gettoken() returns, for the tokens [ts]. *)
Definition token_of (ts : list (token (nat * nat))) (s : nat) (r : Z * nat * nat * nat) : Prop :=
  let '(tok, q, e, s') := r in
  match ts with
  | [] => tok = 0 ∧ s' = es
  | Sym c :: rest => tok = c ∧ toks s' = rest ∧ (s < s' ≤ es)%nat ∧ c ∈ 43 :: symbols
  | Word w :: rest => tok = 97 ∧ (q, e) = w ∧ toks s' = rest ∧ (s < s' ≤ es)%nat
  end.

Lemma skip_end : skip es = es.
Proof. pose proof (skip_bounds es). lia. Qed.

Lemma symbol_cases c : symbol c = true → c ∈ symbols.
Proof. apply bool_decide_eq_true_1. Qed.

Lemma token_at_word st c r s : sh_line st = the_line → drop s text = c :: r → wordchar c = true →
  token_at es s st = Ret (97, (s + span wordchar (c :: r))%nat) st.
Proof.
  intros Hst E Hw. destruct (lookup_line _ _ _ E) as (Hl & Hlt & Hc). unfold token_at, bind.
  rewrite (deref_eq _ _ c) by congruence.
  apply wordchar_not in Hw as (_ & Hns & H0). apply bool_decide_eq_false in Hns.
  assert (c ≠ 124 ∧ c ≠ 40 ∧ c ≠ 41 ∧ c ≠ 59 ∧ c ≠ 38 ∧ c ≠ 60 ∧ c ≠ 62) as (?&?&?&?&?&?&?).
  { split_and!; intros ->; apply Hns; unfold symbols; set_solver. }
  repeat match goal with H : c ≠ ?x |- _ => rewrite (proj2 (Z.eqb_neq c x) H); clear H end. cbn [orb].
  rewrite scan_word by (done || lia). by rewrite E.
Qed.

Lemma token_at_append st s r : sh_line st = the_line → drop s text = 62 :: 62 :: r →
  token_at es s st = Ret (43, S (S s)) st.
Proof.
  intros Hst E. destruct (lookup_line _ _ _ E) as (Hl & _). unfold token_at, bind.
  rewrite (deref_eq _ _ 62) by congruence. cbn. rewrite (deref_eq _ _ 62); [done|].
  rewrite Hst. apply (lookup_line _ _ r). by rewrite <- (Nat.add_1_r s), <- drop_drop, E.
Qed.

(** The character after a character of the text: the next one, or the NUL. *)
Lemma next_char s c r : drop s text = c :: r → the_line !! S s = Some (default 0 (head r)).
Proof.
  intros E. assert (drop (S s) text = r) as Er by (by rewrite <- (Nat.add_1_r s), <- drop_drop, E).
  destruct (lookup_line _ _ _ E) as (_ & Hlt & _).
  destruct r as [|c' r]; [apply lookup_nul; [done|lia]|by eapply lookup_line].
Qed.

Lemma token_at_symbol st s c r : sh_line st = the_line → drop s text = c :: r → symbol c = true →
  ¬ (c = 62 ∧ ∃ r', r = 62 :: r') → token_at es s st = Ret (c, S s) st.
Proof.
  intros Hst E Hs Hn. destruct (lookup_line _ _ _ E) as (Hl & _). unfold token_at, bind.
  rewrite (deref_eq _ _ c) by congruence. apply symbol_cases in Hs. unfold symbols in Hs.
  rewrite !elem_of_cons, elem_of_nil in Hs. destruct (decide (c = 62)) as [->|]; [|destruct_or? Hs; subst; done].
  cbn. rewrite (deref_eq _ _ (default 0 (head r))); [|rewrite Hst; by eapply next_char].
  destruct r as [|c' r]; [done|]. cbn. destruct (Z.eqb_spec c' 62) as [->|]; [|done].
  exfalso. apply Hn. by eauto.
Qed.

Lemma gettoken_spec st s : sh_line st = the_line → (s ≤ es)%nat →
  ∃ r, gettoken es s st = Ret r st ∧ token_of (toks s) s r.
Proof.
  intros Hst Hs. pose proof (skip_bounds s Hs) as Hb. unfold gettoken, bind. rewrite scan_white by done.
  assert (∀ e, (e ≤ es)%nat → scan (strchr whitespace) es e st = Ret (skip e) st ∧ toks (skip e) = toks e ∧
    (e ≤ skip e ≤ es)%nat) as Hskip.
  { intros e He. split_and!; [by apply scan_white|apply toks_skip|by apply skip_bounds..]. }
  destruct (next_cases s Hs) as [(E & -> & Hend)|(c & r & E & Hc & Hl & Hlt & Hcase)].
  - unfold token_at, bind. rewrite (deref_eq _ _ 0); [|rewrite Hst; by apply lookup_nul; [|rewrite Hend]].
    cbn -[scan]. rewrite Hend, scan_white by done. eexists. split; [done|]. simpl. by rewrite skip_end.
  - destruct Hcase as [[Hw [-> He]]|(Hsy & _ & [(-> & [r' ->] & -> & Hle)|(Hn & ->)])].
    + rewrite (token_at_word _ c r) by done. destruct (Hskip (skip s + span wordchar (c :: r))%nat) as (-> & H1 & H2); [lia|].
      eexists. split; [done|]. simpl. split_and!; [done..|simpl in *; lia|simpl in *; lia].
    + rewrite (token_at_append _ _ r') by done. destruct (Hskip _ Hle) as (-> & H1 & H2).
      eexists. split; [done|]. simpl. split_and!; [done..|lia|lia|unfold symbols; set_solver].
    + rewrite (token_at_symbol _ _ c r) by done. destruct (Hskip (S (skip s))) as (-> & H1 & H2); [lia|].
      eexists. split; [done|]. simpl. split_and!; [done..|lia|lia|]. apply symbol_cases in Hsy. set_solver.
Qed.
End line.

(** * The parser of the shell implements the reference parser

    [repr heap p t] says that the pointer [p] leads to the nodes of the command
    [t], whose words are index pairs into the line.  The routines of sh.c are
    shown to do on the line and the nodes what the reference parser of ShSpec
    does on the tokens, error messages included. *)

(** ** Commands in memory *)

Definition pad (l : list nat) : list (option nat) := (Some <$> l) ++ replicate (MAXARGS - length l) None.

Fixpoint repr (heap : list node) (p : nat) (t : tree (nat * nat)) : Prop :=
  match t with
  | TExec args => heap !! p = Some (EXEC (pad args.*1) (pad args.*2)) ∧ (length args < MAXARGS)%nat
  | TRedir t w mode fd => ∃ c, (c < p)%nat ∧ heap !! p = Some (REDIR c w.1 w.2 mode fd) ∧ repr heap c t
  | TPipe l r => ∃ a b, (a < p)%nat ∧ (b < p)%nat ∧ heap !! p = Some (PIPE a b) ∧ repr heap a l ∧ repr heap b r
  | TList l r => ∃ a b, (a < p)%nat ∧ (b < p)%nat ∧ heap !! p = Some (LIST a b) ∧ repr heap a l ∧ repr heap b r
  | TBack t => ∃ c, (c < p)%nat ∧ heap !! p = Some (BACK c) ∧ repr heap c t
  end.

(** [p] leads through the nodes of the redirections [rs], the last one first, to [base]. *)
Fixpoint chain (heap : list node) (base : nat) (rs : list (nat * nat * Z)) (p : nat) : Prop :=
  match rs with
  | [] => p = base
  | (w, c) :: rs => ∃ p', (base ≤ p' < p)%nat ∧
      heap !! p = Some (REDIR p' w.1 w.2 (redir_mode c) (redir_fd c)) ∧ chain heap base rs p'
  end.

Lemma prefix_lookup {A} (l k : list A) i x : l `prefix_of` k → l !! i = Some x → k !! i = Some x.
Proof. intros [m ->] H. by apply lookup_app_l_Some. Qed.

Lemma repr_mono heap heap' t : ∀ p, heap `prefix_of` heap' → repr heap p t → repr heap' p t.
Proof.
  induction t as [args|t IH w mode fd|l IHl r IHr|l IHl r IHr|t IH]; intros p Hh; simpl.
  - intros [E ?]. split; [by eapply prefix_lookup|done].
  - intros (c & ? & E & ?). exists c. eauto using prefix_lookup.
  - intros (a & b & ? & ? & E & ? & ?). exists a, b. eauto 10 using prefix_lookup.
  - intros (a & b & ? & ? & E & ? & ?). exists a, b. eauto 10 using prefix_lookup.
  - intros (c & ? & E & ?). exists c. eauto using prefix_lookup.
Qed.

Lemma repr_lt heap t p : repr heap p t → (p < length heap)%nat.
Proof.
  assert (∀ n, heap !! p = Some n → (p < length heap)%nat) by (intros; by eapply lookup_lt_Some).
  destruct t; simpl; naive_solver.
Qed.

Lemma chain_mono heap heap' base rs : ∀ p, heap `prefix_of` heap' → chain heap base rs p → chain heap' base rs p.
Proof.
  induction rs as [|[w c] rs IH]; intros p Hh; simpl; [done|].
  intros (p' & ? & E & ?). exists p'. eauto using prefix_lookup.
Qed.

Lemma chain_repr heap base t rs : ∀ p, repr heap base t → chain heap base rs p → repr heap p (wrap rs t).
Proof.
  induction rs as [|[w c] rs IH]; intros p Hb; simpl; [by intros ->|].
  intros (p' & Hlt & E & Hc). exists p'. split_and!; [lia|done|by apply IH].
Qed.

(** A store to the node at the base leaves the chain alone. *)
Lemma chain_insert heap base n rs : ∀ p, chain heap base rs p → chain (<[base:=n]> heap) base rs p.
Proof.
  induction rs as [|[w c] rs IH]; intros p; simpl; [done|].
  intros (p' & Hlt & E & Hc). exists p'. split_and!; [lia|lia| |by apply IH].
  rewrite list_lookup_insert_ne by lia. done.
Qed.

Lemma chain_ge heap base rs p : chain heap base rs p → (base ≤ p)%nat.
Proof. destruct rs as [|[w c] rs]; simpl; [lia|]. intros (p' & ? & _). lia. Qed.

Lemma prefix_insert {A} (l k : list A) i x : l `prefix_of` k → (length l ≤ i)%nat → l `prefix_of` <[i:=x]> k.
Proof. intros [m ->] Hi. rewrite insert_app_r_alt by done. by eexists. Qed.

Lemma pad_snoc l q : (S (length l) ≤ MAXARGS)%nat → <[length l:=Some q]> (pad l) = pad (l ++ [q]).
Proof.
  intros Hl. unfold pad. rewrite insert_app_r_alt by (by rewrite length_fmap). rewrite length_fmap, Nat.sub_diag.
  rewrite fmap_app, length_app. simpl. replace (MAXARGS - length l)%nat with (S (MAXARGS - (length l + 1))) by lia.
  by rewrite <- app_assoc.
Qed.

Lemma pad_stop l : (length l < MAXARGS)%nat → <[length l:=None]> (pad l) = pad l.
Proof.
  intros Hl. unfold pad. rewrite insert_app_r_alt by (by rewrite length_fmap). rewrite length_fmap, Nat.sub_diag.
  by replace (MAXARGS - length l)%nat with (S (MAXARGS - length l - 1)) by lia.
Qed.

(** ** Simulation *)

(** The routine returns where the reference does, with [Q], and has the same message where it fails. *)
Definition sim {A B} (Q : A → list (token (nat * nat)) → B → shst → Prop)
    (r : result (nat * nat) A) (o : outcome shst B) : Prop :=
  match r with
  | Ok a rest => match o with Ret b st => Q a rest b st | _ => False end
  | Err m => o = Panic m
  | Out => True
  end.

Lemma sim_bind {A A' B B'} (Q : A → _ → B → shst → Prop) (Q' : A' → _ → B' → shst → Prop) r m k f st :
  sim Q r (m st) →
  (∀ a rest b st', Q a rest b st' → sim Q' (k a rest) (f b st')) →
  sim Q' (rbind r k) (bind m f st).
Proof. unfold sim at 1, bind. intros H Hk. destruct r; simpl; [|by rewrite H|done]. destruct (m st); [auto|done..]. Qed.

Lemma sim_mono {A B} (Q Q' : A → _ → B → shst → Prop) r o :
  sim Q r o → (∀ a rest b st', Q a rest b st' → Q' a rest b st') → sim Q' r o.
Proof. unfold sim. intros H HQ. destruct r; [|done..]. destruct o; [auto|done..]. Qed.

Lemma new_Ret n st : (0 < sh_room st)%nat →
  new n st = Ret (length (sh_heap st)) (Shst (sh_line st) (sh_heap st ++ [n]) (pred (sh_room st))).
Proof. unfold new. destruct (sh_room st); [lia|done]. Qed.

Lemma new_node (heap : list node) n : (heap ++ [n]) !! length heap = Some n.
Proof. by rewrite list_lookup_middle. Qed.

Section parser.
Context (text extra : list Z) (Htext : Forall char_ok text).
Local Notation "'es'" := (length text).
Local Notation "'line'" := (the_line text extra).
Implicit Types (st : shst) (s : nat).

Lemma peek_Ret st s cs : sh_line st = line → (s ≤ es)%nat → Forall (λ c, c ∈ symbols) cs →
  ∃ s', peek es s cs st = Ret (starts cs (toks text s), s') st ∧ toks text s' = toks text s ∧ (s ≤ s' ≤ es)%nat.
Proof.
  intros. exists (skip text s). split_and!; [by eapply peek_spec|apply toks_skip|by apply skip_bounds..].
Qed.

Lemma loop_Ret {A B} n (body : A → M shst (A + B)) a st r st' :
  body a st = Ret r st' → loop (S n) body a st = match r with inl a' => loop n body a' st' | inr b => Ret b st' end.
Proof. intros H. simpl. rewrite (bind_Ret _ _ _ _ _ H). by destruct r. Qed.

Lemma loop_bind {A B C} n (body : A → M shst (A + B)) a st (m : M shst C) f st1 :
  body a st = bind m f st1 →
  loop (S n) body a st = bind m (λ x, bind (f x) (λ r, match r with inl a' => loop n body a' | inr b => ret b end)) st1.
Proof. intros H. simpl. unfold bind in *. rewrite H. by destruct (m st1). Qed.

Lemma loop_Panic {A B} n (body : A → M shst (A + B)) a st m :
  body a st = Panic m → loop (S n) body a st = Panic m.
Proof. intros H. simpl. unfold bind. by rewrite H. Qed.

Lemma redirtok_starts c rest : redirtok c = starts [60; 62] (Sym c :: rest).
Proof.
  unfold redirtok, starts, head_sym. destruct (Z.eqb_spec c 43) as [->|Hc]; [done|].
  apply bool_decide_ext. set_solver.
Qed.

(** What parseredirs() adds: nodes for the redirections [rs'] on top of [base]. *)
Definition redirs_post st s base (rs' : list (nat * nat * Z)) rest (r : nat * nat) st' : Prop :=
  (s ≤ r.2 ≤ es)%nat ∧ toks text r.2 = rest ∧ starts [60; 62] rest = false ∧
  chain (sh_heap st') base rs' r.1 ∧ sh_line st' = line ∧ sh_heap st `prefix_of` sh_heap st' ∧
  (sh_room st + s ≤ sh_room st' + r.2)%nat.

(** One turn of the loop, with a redirection. *)
Lemma redirs_turn st s cmd c w rest :
  sh_line st = line → (s ≤ es)%nat → (es - s ≤ sh_room st)%nat →
  toks text s = Sym c :: Word w :: rest → redirtok c = true →
  ∃ s', redirs_body es (cmd, s) st =
    Ret (inl (length (sh_heap st), s'))
      (Shst line (sh_heap st ++ [REDIR cmd w.1 w.2 (redir_mode c) (redir_fd c)]) (pred (sh_room st))) ∧
    toks text s' = rest ∧ (s + 1 < s' ≤ es)%nat.
Proof.
  intros Hl Hs Hroom Ht Hc. unfold redirs_body.
  destruct (peek_Ret st s [60; 62]) as (s1 & Hp & Ht1 & Hs1); [done..|by repeat (constructor; [unfold symbols; set_solver|])|].
  rewrite (bind_Ret _ _ _ _ _ Hp), Ht, <- redirtok_starts, Hc.
  destruct (gettoken_spec text extra Htext st s1) as ([[[tok q] e] s2] & Hg & Hok); [done|lia|].
  rewrite (bind_Ret _ _ _ _ _ Hg). rewrite Ht1, Ht in Hok. destruct Hok as (-> & Ht2 & Hs2 & _).
  destruct (gettoken_spec text extra Htext st s2) as ([[[tok' q'] e'] s3] & Hg' & Hok); [done|lia|].
  rewrite (bind_Ret _ _ _ _ _ Hg'). rewrite Ht2 in Hok. destruct Hok as (-> & <- & Ht3 & Hs3).
  exists s3. split; [|split; [done|lia]]. cbn [negb Z.eqb Pos.eqb].
  assert (∀ n, new n st = Ret (length (sh_heap st)) (Shst line (sh_heap st ++ [n]) (pred (sh_room st)))) as Hnew.
  { intros n. rewrite new_Ret by lia. by rewrite Hl. }
  apply bool_decide_eq_true in Hc. rewrite !elem_of_cons, elem_of_nil in Hc.
  destruct Hc as [->|[->|[->|[]]]]; unfold redircmd; cbn [Z.eqb Pos.eqb]; by rewrite (bind_Ret _ _ _ _ _ (Hnew _)).
Qed.

Lemma redirs_missing st s cmd c rest :
  sh_line st = line → (s ≤ es)%nat → toks text s = Sym c :: rest → redirtok c = true →
  match rest with Word _ :: _ => False | _ => True end →
  redirs_body es (cmd, s) st = Panic "missing file for redirection".
Proof.
  intros Hl Hs Ht Hc Hrest. unfold redirs_body.
  destruct (peek_Ret st s [60; 62]) as (s1 & Hp & Ht1 & Hs1); [done..|by repeat (constructor; [unfold symbols; set_solver|])|].
  rewrite (bind_Ret _ _ _ _ _ Hp), Ht, <- redirtok_starts, Hc.
  destruct (gettoken_spec text extra Htext st s1) as ([[[tok q] e] s2] & Hg & Hok); [done|lia|].
  rewrite (bind_Ret _ _ _ _ _ Hg). rewrite Ht1, Ht in Hok. destruct Hok as (-> & Ht2 & Hs2 & _).
  destruct (gettoken_spec text extra Htext st s2) as ([[[tok' q'] e'] s3] & Hg' & Hok); [done|lia|].
  rewrite (bind_Ret _ _ _ _ _ Hg'). rewrite Ht2 in Hok.
  assert (tok' ≠ 97) as Hne.
  { destruct rest as [|[w|c'] rest]; [by destruct Hok as [-> _]|done|].
    destruct Hok as (-> & _ & _ & Hin). intros ->. unfold symbols in Hin. set_solver. }
  by rewrite (proj2 (Z.eqb_neq tok' 97) Hne).
Qed.

Lemma redirs_stop st s cmd :
  sh_line st = line → (s ≤ es)%nat → starts [60; 62] (toks text s) = false →
  ∃ s', redirs_body es (cmd, s) st = Ret (inr (cmd, s')) st ∧ toks text s' = toks text s ∧ (s ≤ s' ≤ es)%nat.
Proof.
  intros Hl Hs Hst. unfold redirs_body.
  destruct (peek_Ret st s [60; 62]) as (s1 & Hp & Ht1 & Hs1); [done..|by repeat (constructor; [unfold symbols; set_solver|])|].
  exists s1. by rewrite (bind_Ret _ _ _ _ _ Hp), Hst.
Qed.

Lemma p_redirs_stop (ts : list (token (nat * nat))) rs : starts [60; 62] ts = false → p_redirs ts rs = Ok rs ts.
Proof. destruct ts as [|[w|c] ts]; [done..|]. rewrite <- redirtok_starts. simpl. by intros ->. Qed.

Lemma redirs_loop n : ∀ st s cmd base rs,
  sh_line st = line → (s ≤ es)%nat → (es - s < n)%nat → (es - s ≤ sh_room st)%nat →
  chain (sh_heap st) base rs cmd → (cmd < length (sh_heap st))%nat →
  sim (redirs_post st s base) (p_redirs (toks text s) rs) (loop n (redirs_body es) (cmd, s) st).
Proof.
  induction n as [|n IH]; intros st s cmd base rs Hl Hs Hn Hroom Hch Hlt; [lia|].
  destruct (starts [60; 62] (toks text s)) eqn:Est.
  - destruct (toks text s) as [|[w|c] rest] eqn:Et; [done..|].
    rewrite <- redirtok_starts in Est. cbn [p_redirs]. rewrite Est.
    assert (match rest with Word _ :: _ => False | _ => True end →
      loop (S n) (redirs_body es) (cmd, s) st = Panic "missing file for redirection") as Hmiss.
    { intros Hm. by eapply loop_Panic, redirs_missing. }
    destruct rest as [|[w|c'] rest]; [by apply Hmiss| |by apply Hmiss].
    destruct (redirs_turn st s cmd c w rest) as (s' & E & <- & Hs'); [done..|].
    rewrite (loop_Ret _ _ _ _ _ _ E). eapply sim_mono; [apply (IH _ s' _ base); simpl; [done|lia..| |]|].
    + exists cmd. split_and!; [by eapply chain_ge|done|apply new_node|].
      eapply chain_mono; [|done]. by eexists.
    + rewrite length_app. simpl. lia.
    + intros rs' rest' [p s''] st' (H1 & H2 & H3 & H4 & H5 & H6 & H7). simpl in *.
      split_and!; simpl; [lia|lia|done..| |lia]. etransitivity; [|exact H6]. by eexists.
  - rewrite p_redirs_stop by done. destruct (redirs_stop st s cmd) as (s' & E & Ht & Hs'); [done..|].
    rewrite (loop_Ret _ _ _ _ _ _ E). split_and!; simpl; [lia|lia|done..|lia].
Qed.

Lemma parseredirs_sim st s cmd base rs :
  sh_line st = line → (s ≤ es)%nat → (es - s ≤ sh_room st)%nat →
  chain (sh_heap st) base rs cmd → (cmd < length (sh_heap st))%nat →
  sim (redirs_post st s base) (p_redirs (toks text s) rs) (parseredirs cmd es s st).
Proof. intros. unfold parseredirs. apply redirs_loop; (done || lia). Qed.

(** ** The arguments of a simple command *)

Lemma endtok_starts c rest : endtok c = starts [124; 41; 38; 59] (Sym c :: rest).
Proof.
  unfold endtok, starts, head_sym. destruct (Z.eqb_spec c 43) as [->|Hc]; [done|]. done.
Qed.

Lemma p_simple_redirs n : ∀ (ts : list (token (nat * nat))) args rs, (length ts ≤ n)%nat →
  p_simple ts args rs = rbind (p_redirs ts rs) (λ rs rest, p_simple rest args rs).
Proof.
  induction n as [|n IH]; intros [|[w|c] ts] args rs Hn; try done; [simpl in Hn; lia|].
  cbn [p_redirs]. destruct (redirtok c) eqn:E; [|done]. cbn [p_simple]. rewrite E.
  destruct ts as [|[w|c'] ts]; [done| |done]. apply IH. simpl in Hn. lia.
Qed.

Lemma set_arg_Ret st n0 argc q e argv eargv :
  sh_heap st !! n0 = Some (EXEC argv eargv) → (argc < MAXARGS)%nat →
  set_arg n0 argc q e st =
  Ret tt (Shst (sh_line st) (<[n0 := EXEC (<[argc:=q]> argv) (<[argc:=e]> eargv)]> (sh_heap st)) (sh_room st)).
Proof.
  intros E Ha. unfold set_arg. rewrite E. by rewrite (proj2 (Nat.ltb_lt argc MAXARGS) Ha).
Qed.

(** The state in the argument loop: [args] are in the node [n0], under the redirections [rs]. *)
Definition args_inv heap0 n0 (args : list (nat * nat)) (rs : list (nat * nat * Z)) rt st : Prop :=
  sh_line st = line ∧ heap0 `prefix_of` sh_heap st ∧ (length heap0 ≤ n0)%nat ∧
  sh_heap st !! n0 = Some (EXEC (pad args.*1) (pad args.*2)) ∧ (length args < MAXARGS)%nat ∧
  chain (sh_heap st) n0 rs rt ∧ (rt < length (sh_heap st))%nat.

Definition args_post heap0 n0 st s (t : tree (nat * nat)) rest (r : nat * nat * nat) st' : Prop :=
  ∃ args rs, t = wrap rs (TExec args) ∧ r.1.2 = length args ∧ args_inv heap0 n0 args rs r.1.1 st' ∧
    (s ≤ r.2 ≤ es)%nat ∧ toks text r.2 = rest ∧ (sh_room st + s ≤ sh_room st' + r.2)%nat.

Lemma args_inv_redirs heap0 n0 args rs rt st s rs' rest r st' :
  args_inv heap0 n0 args rs rt st → redirs_post st s n0 rs' rest r st' → args_inv heap0 n0 args rs' r.1 st'.
Proof.
  intros (H1 & H2 & H3 & H4 & H5 & H6 & H7) (P1 & P2 & P3 & P4 & P5 & P6 & P7).
  split_and!; [done|by etransitivity|done|by eapply prefix_lookup|done|done|].
  destruct rs' as [|[w c] rs']; simpl in P4.
  - subst. apply lookup_lt_Some in H4. apply prefix_length in P6. lia.
  - destruct P4 as (p' & _ & E & _). by eapply lookup_lt_Some.
Qed.

Lemma args_inv_snoc heap0 n0 args rs rt st w :
  args_inv heap0 n0 args rs rt st → (S (length args) < MAXARGS)%nat →
  args_inv heap0 n0 (args ++ [w]) rs rt
    (Shst (sh_line st) (<[n0 := EXEC (<[length args := Some w.1]> (pad args.*1))
      (<[length args := Some w.2]> (pad args.*2))]> (sh_heap st)) (sh_room st)).
Proof.
  intros (H1 & H2 & H3 & H4 & H5 & H6 & H7) Hlen. split_and!; simpl; [done|by apply prefix_insert|done| |..].
  - rewrite list_lookup_insert_eq by (by eapply lookup_lt_Some). rewrite !fmap_app. simpl.
    rewrite <- (length_fmap fst args) at 1. rewrite <- (length_fmap snd args) at 1.
    by rewrite !pad_snoc by (rewrite length_fmap; lia).
  - rewrite length_app. simpl. lia.
  - by apply chain_insert.
  - by rewrite length_insert.
Qed.

Lemma args_peek st s : sh_line st = line → (s ≤ es)%nat →
  ∃ s', peek es s [124; 41; 38; 59] st = Ret (starts [124; 41; 38; 59] (toks text s), s') st ∧
    toks text s' = toks text s ∧ (s ≤ s' ≤ es)%nat.
Proof. intros. apply peek_Ret; [done..|]. by repeat (constructor; [unfold symbols; set_solver|]). Qed.

(** One turn of the loop, with a word. *)
Lemma args_turn st s heap0 n0 args rs rt w rest :
  args_inv heap0 n0 args rs rt st → (s ≤ es)%nat → toks text s = Word w :: rest →
  ∃ s' st1, toks text s' = rest ∧ (s < s' ≤ es)%nat ∧ sh_room st1 = sh_room st ∧
    ((MAXARGS ≤ S (length args))%nat → args_body n0 es (rt, length args, s) st = Panic "too many args") ∧
    ((S (length args) < MAXARGS)%nat → args_inv heap0 n0 (args ++ [w]) rs rt st1 ∧
       args_body n0 es (rt, length args, s) st =
       bind (parseredirs rt es s') (λ '(rt, ps), ret (inl (rt, S (length args), ps))) st1).
Proof.
  intros HI Hs Et. pose proof HI as (Hl & _ & _ & Hn0 & Hlen & _ & _).
  destruct (args_peek st s Hl Hs) as (s1 & Hp & Ht1 & Hs1).
  destruct (gettoken_spec text extra Htext st s1) as ([[[tok q] e] s2] & Hg & Hok); [done|lia|]. rewrite Ht1, Et in Hok.
  destruct Hok as (-> & <- & Ht2 & Hs2). rewrite Et in Hp. cbn [starts] in Hp.
  pose proof (set_arg_Ret st n0 (length args) (Some q) (Some e) _ _ Hn0 Hlen) as Hset.
  match type of Hset with _ = Ret _ ?st1 => exists s2, st1 end. split_and!; [done|lia|lia|done|..].
  all: intros Hm; unfold args_body; rewrite (bind_Ret _ _ _ _ _ Hp), (bind_Ret _ _ _ _ _ Hg); cbn [Z.eqb Pos.eqb negb];
    rewrite (bind_Ret _ _ _ _ _ Hset).
  - by rewrite (proj2 (Nat.leb_le _ _) Hm).
  - split; [by apply (args_inv_snoc _ _ _ _ _ _ (q, e))|]. by rewrite (proj2 (Nat.leb_gt _ _) Hm).
Qed.

Lemma args_loop n : ∀ st s heap0 n0 args rs rt,
  args_inv heap0 n0 args rs rt st → (s ≤ es)%nat → (es - s < n)%nat → (es - s ≤ sh_room st)%nat →
  starts [60; 62] (toks text s) = false →
  sim (args_post heap0 n0 st s) (p_simple (toks text s) args rs)
    (loop n (args_body n0 es) (rt, length args, s) st).
Proof.
  induction n as [|n IH]; intros st s heap0 n0 args rs rt HI Hs Hn Hroom Hnr; [lia|].
  pose proof HI as (Hl & _ & _ & Hn0 & Hlen & _ & _).
  destruct (args_peek st s Hl Hs) as (s1 & Hp & Ht1 & Hs1).
  destruct (gettoken_spec text extra Htext st s1) as ([[[tok q] e] s2] & Hg & Hok); [done|lia|]. rewrite Ht1 in Hok.
  destruct (toks text s) as [|[w|c] rest] eqn:Et.
  - destruct Hok as [-> ->].
    assert (args_body n0 es (rt, length args, s) st = Ret (inr (rt, length args, es)) st) as E.
    { unfold args_body. rewrite (bind_Ret _ _ _ _ _ Hp). cbn [starts]. by rewrite (bind_Ret _ _ _ _ _ Hg). }
    rewrite (loop_Ret _ _ _ _ _ _ E). exists args, rs. split_and!; simpl; [done..|lia|lia|apply toks_end|lia].
  - destruct (args_turn st s heap0 n0 args rs rt w rest) as (s' & st1 & <- & Hs' & Hr1 & Hmany & Hturn); [done..|].
    cbn [p_simple]. destruct (Nat.leb_spec MAXARGS (S (length args))) as [Hm|Hm]; [by apply loop_Panic, Hmany|].
    destruct (Hturn Hm) as [HI1 Hbody]. rewrite (p_simple_redirs (length (toks text s'))) by done.
    rewrite (loop_bind _ _ _ _ _ _ _ Hbody). pose proof HI1 as (Hl1 & _ & _ & _ & _ & Hch1 & Hrt1).
    eapply sim_bind; [apply (parseredirs_sim st1 s' rt n0 rs); [done|lia|lia|done|done]|].
    intros rs' rest' [rt' s''] st' Hpost. pose proof Hpost as (Hs'' & <- & Hnr' & _ & _ & _ & Hr2). simpl in Hs'', Hr2.
    cbn. replace (S (length args)) with (length (args ++ [w])) by (rewrite length_app; simpl; lia).
    eapply sim_mono; [apply (IH st' s'' heap0 n0); [by apply (args_inv_redirs _ _ _ _ _ _ _ _ _ _ _ HI1 Hpost)|lia|lia|lia|done]|].
    intros t rest2 [[rt2 argc2] s2'] st2 (args2 & rs2 & H1 & H2 & H3 & H4 & H5 & H6). simpl in *.
    exists args2, rs2. split_and!; simpl; [done..|lia|lia|done|lia].
  - rewrite <- redirtok_starts in Hnr. cbn [p_simple]. rewrite Hnr. rewrite <- endtok_starts in Hp.
    destruct Hok as (-> & _ & _ & Hin). destruct (endtok c) eqn:Ee.
    + assert (args_body n0 es (rt, length args, s) st = Ret (inr (rt, length args, s1)) st) as E.
      { unfold args_body. by rewrite (bind_Ret _ _ _ _ _ Hp). }
      rewrite (loop_Ret _ _ _ _ _ _ E). exists args, rs. split_and!; simpl; [done..|lia|lia|done|lia].
    + apply loop_Panic. unfold args_body. rewrite (bind_Ret _ _ _ _ _ Hp), (bind_Ret _ _ _ _ _ Hg).
      assert (c ≠ 0 ∧ c ≠ 97) as [H0 H97] by (split; intros ->; unfold symbols in Hin; set_solver).
      by rewrite (proj2 (Z.eqb_neq c 0) H0), (proj2 (Z.eqb_neq c 97) H97).
Qed.

(** ** Lines, pipes and blocks *)

Lemma peek_sym st s c : sh_line st = line → (s ≤ es)%nat → c ∈ [38; 59; 124; 40; 41] →
  ∃ s', peek es s [c] st = Ret (bool_decide (is_Some (at_sym c (toks text s))), s') st ∧
    toks text s' = toks text s ∧ (s ≤ s' ≤ es)%nat.
Proof.
  intros Hl Hs Hc. destruct (peek_Ret st s [c]) as (s' & Hp & H); [done..| |].
  { constructor; [|constructor]. unfold symbols. set_solver. }
  exists s'. split; [|done]. rewrite Hp. do 2 f_equal.
  destruct (toks text s) as [|[w|c'] rest]; [done..|]. simpl. unfold head_sym.
  destruct (Z.eqb_spec c' c) as [->|Hne].
  - rewrite (bool_decide_true (is_Some _)) by (by eexists). apply bool_decide_true.
    destruct (Z.eqb_spec c 43); [subst; set_solver|set_solver].
  - rewrite (bool_decide_false (is_Some None)) by (by intros []). apply bool_decide_false.
    destruct (Z.eqb_spec c' 43); [set_solver|set_solver].
Qed.

Lemma get_sym st s c rest : sh_line st = line → (s ≤ es)%nat → at_sym c (toks text s) = Some rest →
  ∃ tok q e s', gettoken es s st = Ret (tok, q, e, s') st ∧ toks text s' = rest ∧ (s < s' ≤ es)%nat.
Proof.
  intros Hl Hs Ha. destruct (gettoken_spec text extra Htext st s) as ([[[tok q] e] s'] & Hg & Hok); [done..|].
  exists tok, q, e, s'. split; [done|]. destruct (toks text s) as [|[w|c'] rest']; [done..|]. simpl in Ha.
  destruct (c' =? c); [|done]. injection Ha as <-. by destruct Hok as (_ & ? & ? & _).
Qed.

(** What a parsing routine leaves: the nodes of [t] are new, two at most for each character. *)
Definition parse_post st s (t : tree (nat * nat)) rest (r : nat * nat) st' : Prop :=
  (s ≤ r.2 ≤ es)%nat ∧ toks text r.2 = rest ∧ repr (sh_heap st') r.1 t ∧ sh_line st' = line ∧
  sh_heap st `prefix_of` sh_heap st' ∧ (sh_room st + 2 * s ≤ sh_room st' + 2 * r.2 + 1)%nat.

Lemma backs_loop n : ∀ st s cmd t,
  sh_line st = line → (s ≤ es)%nat → (es - s < n)%nat → (es - s ≤ sh_room st)%nat → repr (sh_heap st) cmd t →
  ∃ p s' st', loop n (backs_body es) (cmd, s) st = Ret (p, s') st' ∧
    (s ≤ s' ≤ es)%nat ∧ toks text s' = (p_backs (toks text s) t).2 ∧ repr (sh_heap st') p (p_backs (toks text s) t).1 ∧
    sh_line st' = line ∧ sh_heap st `prefix_of` sh_heap st' ∧ (sh_room st + s ≤ sh_room st' + s')%nat.
Proof.
  induction n as [|n IH]; intros st s cmd t Hl Hs Hn Hroom Hr; [lia|].
  destruct (peek_sym st s 38) as (s1 & Hp & Ht1 & Hs1); [done..|set_solver|].
  destruct (at_sym 38 (toks text s)) as [rest|] eqn:Ea; [rewrite bool_decide_true in Hp by (by eexists)|rewrite bool_decide_false in Hp by (by intros [])].
  - destruct (get_sym st s1 38 rest) as (tok & q & e & s2 & Hg & Ht2 & Hs2); [done|lia|congruence|].
    assert (backs_body es (cmd, s) st = Ret (inl (length (sh_heap st), s2))
      (Shst (sh_line st) (sh_heap st ++ [BACK cmd]) (pred (sh_room st)))) as E.
    { unfold backs_body, backcmd. rewrite (bind_Ret _ _ _ _ _ Hp), (bind_Ret _ _ _ _ _ Hg).
      rewrite (bind_Ret _ _ _ _ _ (new_Ret (BACK cmd) st ltac:(lia))). done. }
    rewrite (loop_Ret _ _ _ _ _ _ E).
    edestruct (IH (Shst (sh_line st) (sh_heap st ++ [BACK cmd]) (pred (sh_room st))) s2 (length (sh_heap st)) (TBack t))
      as (p & s' & st' & H1 & H2 & H3 & H4 & H5 & H6 & H7); simpl; [done|lia|lia|lia| |].
    { exists cmd. split_and!; [by eapply repr_lt|apply new_node|]. eapply repr_mono; [|done]. by eexists. }
    assert (p_backs (toks text s) t = p_backs (toks text s2) (TBack t)) as ->.
    { rewrite Ht2. destruct (toks text s) as [|[w|c] r]; [done..|]. simpl in *. destruct (c =? 38); [|done]. congruence. }
    exists p, s', st'. simpl in *. split_and!; [done|lia|lia|done..| |lia]. etransitivity; [|exact H6]. by eexists.
  - assert (backs_body es (cmd, s) st = Ret (inr (cmd, s1)) st) as E.
    { unfold backs_body. by rewrite (bind_Ret _ _ _ _ _ Hp). }
    rewrite (loop_Ret _ _ _ _ _ _ E).
    assert (p_backs (toks text s) t = (t, toks text s)) as ->.
    { destruct (toks text s) as [|[w|c] r]; [done..|]. simpl in *. by destruct (c =? 38). }
    exists cmd, s1, st. split_and!; [done|lia|lia|done..|lia].
Qed.

(** A pipe or list node on top of two commands parsed one after the other. *)
Lemma join_sim (mk : nat → nat → node) (T : tree (nat * nat) → tree (nat * nat) → tree (nat * nat)) st s l p1 s1 st1 s2 r rest p2 s3 st2 :
  (∀ heap p a b l r, (a < p)%nat → (b < p)%nat → heap !! p = Some (mk a b) →
     repr heap a l → repr heap b r → repr heap p (T l r)) →
  (2 * (es - s) + 1 ≤ sh_room st)%nat →
  parse_post st s l (toks text s1) (p1, s1) st1 → (s1 < s2)%nat →
  parse_post st1 s2 r rest (p2, s3) st2 →
  sim (parse_post st s) (Ok (T l r) rest) (bind (new (mk p1 p2)) (λ cmd, ret (cmd, s3)) st2).
Proof.
  intros HT Hroom (A1 & _ & A3 & A4 & A5 & A6) Hs12 (B1 & B2 & B3 & B4 & B5 & B6). simpl in *.
  unfold bind. rewrite new_Ret by lia. cbn.
  assert (sh_heap st2 `prefix_of` sh_heap st2 ++ [mk p1 p2]) as Hpre by (by eexists).
  split_and!; simpl; [lia|lia|done| |done| |lia].
  - apply (HT _ _ p1 p2).
    + eapply Nat.lt_le_trans; [by eapply repr_lt|by apply prefix_length].
    + by eapply repr_lt.
    + apply new_node.
    + eapply repr_mono; [|exact A3]. by etransitivity.
    + by eapply repr_mono.
  - etransitivity; [exact A5|]. by etransitivity.
Qed.

Lemma repr_PIPE heap p a b l r : (a < p)%nat → (b < p)%nat → heap !! p = Some (PIPE a b) →
  repr heap a l → repr heap b r → repr heap p (TPipe l r).
Proof. simpl. eauto 10. Qed.
Lemma repr_LIST heap p a b l r : (a < p)%nat → (b < p)%nat → heap !! p = Some (LIST a b) →
  repr heap a l → repr heap b r → repr heap p (TList l r).
Proof. simpl. eauto 10. Qed.

(** The simple command of parseexec(). *)
Lemma simple_sim st s : sh_line st = line → (s ≤ es)%nat → (2 * (es - s) + 1 ≤ sh_room st)%nat →
  sim (parse_post st s) (p_simple (toks text s) [] [])
    ((let* cmd := execcmd in
      let* '(rt, ps) := parseredirs cmd es s in
      let* '(rt, argc, ps) := parseargs cmd es rt ps in
      set_arg cmd argc None None ;;
      ret (rt, ps)) st).
Proof.
  intros Hl Hs Hroom. unfold execcmd at 1.
  rewrite (bind_Ret _ _ _ _ _ (new_Ret (EXEC (replicate MAXARGS None) (replicate MAXARGS None)) st ltac:(lia))).
  set (st0 := Shst _ _ _). set (n0 := length (sh_heap st)).
  assert (args_inv (sh_heap st) n0 [] [] n0 st0) as HI.
  { split_and!; simpl; [done|by eexists|done|apply new_node|unfold MAXARGS; lia|done|]. rewrite length_app. simpl. lia. }
  rewrite (p_simple_redirs (length (toks text s))) by done.
  eapply sim_bind; [apply (parseredirs_sim st0 s n0 n0 []); [done|done|simpl; lia|done|apply HI]|].
  intros rs rest [rt s1] st1 Hpost. pose proof Hpost as (Hs1 & <- & Hnr & _ & _ & _ & Hr1). simpl in Hs1, Hr1.
  pose proof (args_inv_redirs _ _ _ _ _ _ _ _ _ _ _ HI Hpost) as HI1. simpl in HI1.
  assert (sim (args_post (sh_heap st) n0 st1 s1) (p_simple (toks text s1) [] rs) (parseargs n0 es rt s1 st1)) as Hargs.
  { apply args_loop; [done|lia|lia|lia|done]. }
  unfold sim in *. destruct (p_simple _ _ _) as [t rest|m|]; [|by unfold bind; rewrite Hargs|done].
  destruct (parseargs n0 es rt s1 st1) as [[[rt2 argc] s2] st2| | |] eqn:E; [|done..].
  rewrite (bind_Ret _ _ _ _ _ E). destruct Hargs as (args & rs2 & -> & Hargc & HI2 & Hs2 & Ht2 & Hr2). simpl in *. subst argc.
  destruct HI2 as (C1 & C2 & C3 & C4 & C5 & C6 & C7).
  rewrite (bind_Ret _ _ _ _ _ (set_arg_Ret st2 n0 (length args) None None _ _ C4 C5)). unfold ret.
  rewrite <- (length_fmap fst args) at 1. rewrite pad_stop by (by rewrite length_fmap).
  rewrite <- (length_fmap snd args) at 1. rewrite pad_stop by (by rewrite length_fmap).
  rewrite list_insert_id by done.
  split_and!; simpl; [lia|lia|done|eapply chain_repr; [|done]; by split|done..|lia].
Qed.

(** The routines with [fuel] follow the reference from every state with room enough. *)
Definition room_ok st s : Prop := sh_line st = line ∧ (s ≤ es)%nat ∧ (2 * (es - s) + 1 ≤ sh_room st)%nat.

Definition follows fuel : Prop := ∀ st s, room_ok st s →
  sim (parse_post st s) (p_line fuel (toks text s)) (parseline fuel es s st) ∧
  sim (parse_post st s) (p_pipe fuel (toks text s)) (parsepipe fuel es s st) ∧
  sim (parse_post st s) (p_exec fuel (toks text s)) (parseexec fuel es s st) ∧
  (∀ rest, at_sym 40 (toks text s) = Some rest →
     sim (parse_post st s) (p_block fuel rest) (parseblock fuel es s st)).

Lemma line_step fuel st s : follows fuel → room_ok st s →
  sim (parse_post st s) (p_line (S fuel) (toks text s)) (parseline (S fuel) es s st).
Proof.
  intros IH (Hl & Hs & Hroom).
  cbn [p_line parseline]. eapply sim_bind; [by apply IH; split_and!|].
  intros t rest [p s1] st1 Hpost. pose proof Hpost as (A1 & <- & A3 & A4 & A5 & A6). cbn [fst snd] in *.
  destruct (backs_loop (S (es - s1)) st1 s1 p t) as (p' & s' & st' & E & B1 & B2 & B3 & B4 & B5 & B6); [done|lia|lia|lia|done|].
  assert (parsebacks p es s1 st1 = Ret (p', s') st') as Hb by done. rewrite (bind_Ret _ _ _ _ _ Hb).
  destruct (p_backs (toks text s1) t) as [t' rest'] eqn:Eb. simpl in B2, B3. subst rest'.
  assert (parse_post st s t' (toks text s') (p', s') st') as Hpost'.
  { split_and!; simpl; [lia|lia|done..|by etransitivity|lia]. }
  destruct (peek_sym st' s' 59) as (s2 & Hp & Ht2 & Hs2); [done|lia|set_solver|].
  rewrite (bind_Ret _ _ _ _ _ Hp). destruct (at_sym 59 (toks text s')) as [rest|] eqn:Ea.
  - rewrite bool_decide_true by (by eexists).
    destruct (get_sym st' s2 59 rest) as (tok & q & e & s3 & Hg & <- & Hs3); [done|lia|congruence|].
    rewrite (bind_Ret _ _ _ _ _ Hg). eapply sim_bind; [apply IH; split_and!; [done|lia|lia]|].
    intros r rest [p2 s4] st2 Hr. eapply (join_sim LIST TList); [apply repr_LIST|done|done| |exact Hr]. lia.
  - rewrite bool_decide_false by (by intros []). destruct Hpost' as (C1 & C2 & C3 & C4 & C5 & C6). simpl in *.
    split_and!; simpl; [lia|lia|done..|lia].
Qed.

Lemma pipe_step fuel st s : follows fuel → room_ok st s →
  sim (parse_post st s) (p_pipe (S fuel) (toks text s)) (parsepipe (S fuel) es s st).
Proof.
  intros IH (Hl & Hs & Hroom).
  cbn [p_pipe parsepipe]. eapply sim_bind; [by apply IH; split_and!|].
  intros t rest [p s1] st1 Hpost. pose proof Hpost as (A1 & <- & A3 & A4 & A5 & A6). cbn [fst snd] in *.
  destruct (peek_sym st1 s1 124) as (s2 & Hp & Ht2 & Hs2); [done|lia|set_solver|].
  rewrite (bind_Ret _ _ _ _ _ Hp). destruct (at_sym 124 (toks text s1)) as [rest|] eqn:Ea.
  - rewrite bool_decide_true by (by eexists).
    destruct (get_sym st1 s2 124 rest) as (tok & q & e & s3 & Hg & <- & Hs3); [done|lia|congruence|].
    rewrite (bind_Ret _ _ _ _ _ Hg). eapply sim_bind; [apply IH; split_and!; [done|lia|lia]|].
    intros r rest [p2 s4] st2 Hr. eapply (join_sim PIPE TPipe); [apply repr_PIPE|done|done| |exact Hr]. lia.
  - rewrite bool_decide_false by (by intros []). split_and!; simpl; [lia|lia|done..|lia].
Qed.

Lemma exec_step fuel st s : follows fuel → room_ok st s →
  sim (parse_post st s) (p_exec (S fuel) (toks text s)) (parseexec (S fuel) es s st).
Proof.
  intros IH (Hl & Hs & Hroom).
  cbn [p_exec parseexec]. destruct (peek_sym st s 40) as (s1 & Hp & Ht1 & Hs1); [done..|set_solver|].
  rewrite (bind_Ret _ _ _ _ _ Hp). destruct (at_sym 40 (toks text s)) as [rest|] eqn:Ea.
  - rewrite bool_decide_true by (by eexists).
    eapply sim_mono; [apply IH; [split_and!; [done|lia|lia]|congruence]|].
    intros t r [p s'] st' (H1 & H2 & H3 & H4 & H5 & H6). simpl in *. split_and!; simpl; [lia|lia|done..|lia].
  - rewrite bool_decide_false by (by intros []). rewrite <- Ht1.
    eapply sim_mono; [apply simple_sim; [done|lia|lia]|].
    intros t r [p s'] st' (H1 & H2 & H3 & H4 & H5 & H6). simpl in *. split_and!; simpl; [lia|lia|done..|lia].
Qed.

Lemma block_step fuel st s : follows fuel → room_ok st s →
  ∀ rest, at_sym 40 (toks text s) = Some rest →
  sim (parse_post st s) (p_block (S fuel) rest) (parseblock (S fuel) es s st).
Proof.
  intros IH (Hl & Hs & Hroom).
  intros rest Ha. cbn [p_block parseblock].
  destruct (peek_sym st s 40) as (s1 & Hp & Ht1 & Hs1); [done..|set_solver|].
  rewrite (bind_Ret _ _ _ _ _ Hp), Ha, bool_decide_true by (by eexists). cbn [negb].
  destruct (get_sym st s1 40 rest) as (tok & q & e & s2 & Hg & <- & Hs2); [done|lia|congruence|].
  rewrite (bind_Ret _ _ _ _ _ Hg). eapply sim_bind; [apply IH; split_and!; [done|lia|lia]|].
  intros t rest [p s3] st1 (A1 & <- & A3 & A4 & A5 & A6). cbn [fst snd] in *.
  destruct (peek_sym st1 s3 41) as (s4 & Hp4 & Ht4 & Hs4); [done|lia|set_solver|].
  rewrite (bind_Ret _ _ _ _ _ Hp4). destruct (at_sym 41 (toks text s3)) as [rest|] eqn:Ea.
  - rewrite bool_decide_true by (by eexists). cbn [negb].
    destruct (get_sym st1 s4 41 rest) as (tok' & q' & e' & s5 & Hg5 & <- & Hs5); [done|lia|congruence|].
    rewrite (bind_Ret _ _ _ _ _ Hg5).
    assert (sim (redirs_post st1 s5 p) (p_redirs (toks text s5) []) (parseredirs p es s5 st1)) as Hr.
    { apply parseredirs_sim; [done|lia|lia|done|by eapply repr_lt]. }
    unfold sim in *. destruct (p_redirs _ _) as [rs rest|m|]; [|done..]. cbn [rbind].
    destruct (parseredirs p es s5 st1) as [[p' s6] st2| | |]; [|done..].
    destruct Hr as (B1 & B2 & B3 & B4 & B5 & B6 & B7). simpl in *.
    split_and!; simpl; [lia|lia|done| |done|by etransitivity|lia].
    eapply chain_repr; [|done]. by eapply repr_mono.
  - by rewrite bool_decide_false by (by intros []).
Qed.

Lemma parse_follows fuel : follows fuel.
Proof.
  induction fuel as [|fuel IH]; intros st s Hok; [done|].
  split_and!; [by apply line_step|by apply pipe_step|by apply exec_step|by apply block_step].
Qed.
End parser.
