(* ===== verification/ShRun.v ===== *)
(** * What the shell does with a line

    [load] reads a command back from the line and the nodes, after the words
    have been NUL-terminated.  parsecmd() leaves the command that the reference
    parser gives, or stops with its message. *)

From S2P Require Import Prelude Bytes Kstring KstringSpec Libstring LibstringSpec Sh ShSpec ShParse.

Fixpoint load (fuel : nat) (line : list Z) (heap : list node) (p : nat) : option (tree (list Z)) :=
  match fuel with
  | O => None
  | S fuel =>
      match heap !! p with
      | None => None
      | Some (EXEC argv _) => Some (TExec (strings line argv))
      | Some (REDIR c file _ mode fd) =>
          t ← load fuel line heap c; Some (TRedir t (string_at line file) mode fd)
      | Some (PIPE a b) => l ← load fuel line heap a; r ← load fuel line heap b; Some (TPipe l r)
      | Some (LIST a b) => l ← load fuel line heap a; r ← load fuel line heap b; Some (TList l r)
      | Some (BACK c) => t ← load fuel line heap c; Some (TBack t)
      end
  end.

(** ** nulterminate() *)

(** The stores of NUL at the ends of words. *)
Definition nuls (line : list Z) (ws : list (nat * nat)) : list Z := foldl (λ l w, <[w.2:=0]> l) line ws.

Lemma nuls_app line ws ws' : nuls line (ws ++ ws') = nuls (nuls line ws) ws'.
Proof. apply foldl_app. Qed.

Lemma length_nuls ws : ∀ line, length (nuls line ws) = length line.
Proof. induction ws as [|w ws IH]; intros line; simpl; [done|]. by rewrite IH, length_insert. Qed.

Lemma nuls_lookup_ne ws : ∀ line i, i ∉ ws.*2 → nuls line ws !! i = line !! i.
Proof.
  induction ws as [|w ws IH]; intros line i Hi; simpl in *; [done|]. apply not_elem_of_cons in Hi as [Hi1 Hi2].
  rewrite IH by done. by rewrite list_lookup_insert_ne.
Qed.

Lemma nuls_lookup ws : ∀ line i, i ∈ ws.*2 → (i < length line)%nat → nuls line ws !! i = Some 0.
Proof.
  induction ws as [|w ws IH]; intros line i Hi Hlt; simpl in *; [by apply not_elem_of_nil in Hi|].
  destruct (decide (i ∈ ws.*2)) as [Hin|Hni]; [apply IH; [done|by rewrite length_insert]|].
  rewrite nuls_lookup_ne by done. apply elem_of_cons in Hi as [->|Hi]; [|done]. by apply list_lookup_insert_eq.
Qed.

Definition ends_in (line : list Z) (ws : list (nat * nat)) : Prop := Forall (λ w, (w.2 < length line)%nat) ws.

Lemma ends_in_nuls line ws ws' : ends_in line ws → ends_in (nuls line ws') ws.
Proof. unfold ends_in. by rewrite length_nuls. Qed.

Lemma store_Ret st e : (e < length (sh_line st))%nat →
  store e 0 st = Ret tt (Shst (<[e:=0]> (sh_line st)) (sh_heap st) (sh_room st)).
Proof. intros [c E]%lookup_lt_is_Some. unfold store. by rewrite E. Qed.

Lemma nulargs_Ret args : ∀ st k, ends_in (sh_line st) args → (0 < k)%nat →
  nulargs ((Some <$> args.*1) ++ replicate k None) ((Some <$> args.*2) ++ replicate k None) st =
  Ret tt (Shst (nuls (sh_line st) args) (sh_heap st) (sh_room st)).
Proof.
  induction args as [|[q e] args IH]; intros st k Ha Hk; simpl.
  - destruct k; [lia|]. by destruct st.
  - apply Forall_cons in Ha as [He Ha]. rewrite (bind_Ret _ _ _ _ _ (store_Ret st e He)).
    rewrite IH; [done| |done]. unfold ends_in in *. simpl. by rewrite length_insert.
Qed.

Lemma nulterminate_Ret t : ∀ fuel st p,
  repr (sh_heap st) p t → (p < fuel)%nat → ends_in (sh_line st) (words t) →
  nulterminate fuel (Some p) st = Ret tt (Shst (nuls (sh_line st) (words t)) (sh_heap st) (sh_room st)).
Proof.
  induction t as [args|t IH w mode fd|l IHl r IHr|l IHl r IHr|t IH]; intros [|fuel] st p Hr Hf Hw; try lia;
    cbn [nulterminate]; unfold node_at, bind at 1; simpl in Hr, Hw.
  - destruct Hr as [-> Hlen]. unfold pad. rewrite !length_fmap. apply nulargs_Ret; [done|lia].
  - destruct Hr as (c & Hc & -> & Hr). apply Forall_app in Hw as [Hw1 Hw2].
    rewrite (bind_Ret _ _ _ _ _ (IH fuel st c Hr ltac:(lia) Hw1)).
    rewrite store_Ret; simpl; [by rewrite nuls_app|]. rewrite length_nuls. by inversion Hw2.
  - destruct Hr as (a & b & Ha & Hb & -> & Hl & Hr). apply Forall_app in Hw as [Hw1 Hw2].
    rewrite (bind_Ret _ _ _ _ _ (IHl fuel st a Hl ltac:(lia) Hw1)).
    rewrite IHr; simpl; [by rewrite nuls_app|done|lia|by apply ends_in_nuls].
  - destruct Hr as (a & b & Ha & Hb & -> & Hl & Hr). apply Forall_app in Hw as [Hw1 Hw2].
    rewrite (bind_Ret _ _ _ _ _ (IHl fuel st a Hl ltac:(lia) Hw1)).
    rewrite IHr; simpl; [by rewrite nuls_app|done|lia|by apply ends_in_nuls].
  - destruct Hr as (c & Hc & -> & Hr). by apply IH; [|lia|].
Qed.

(** ** Reading the words back *)

Lemma cstr_prefix (l : list Z) : ∀ n, (∀ i, (i < n)%nat → ∃ c, l !! i = Some c ∧ c ≠ 0) → l !! n = Some 0 →
  cstr l = take n l.
Proof.
  induction l as [|c l IH]; intros [|n] Hl Hn; simpl in *; try done.
  - injection Hn as ->. done.
  - destruct (Hl O) as (c' & [= ->] & Hc'); [lia|]. rewrite (proj2 (Z.eqb_neq c' 0) Hc'). f_equal.
    apply IH; [|done]. intros i Hi. by apply (Hl (S i)); lia.
Qed.

(** A word of the text: word characters, with something else after them. *)
Definition word_at (text : list Z) (w : nat * nat) : Prop :=
  (w.1 < w.2 ≤ length text)%nat ∧
  (∀ i, (w.1 ≤ i < w.2)%nat → ∃ c, text !! i = Some c ∧ wordchar c = true) ∧
  (∀ c, text !! w.2 = Some c → wordchar c = false).

Section words.
Context (text extra : list Z).

Lemma line_lookup i c : text !! i = Some c → the_line text extra !! i = Some c.
Proof. intros. by apply lookup_app_l_Some. Qed.

(** NULs at the ends of words do not touch the words. *)
Lemma word_kept ws w : Forall (word_at text) ws → w ∈ ws →
  string_at (nuls (the_line text extra) ws) w.1 = word_text text w.
Proof.
  intros Hws Hw. pose proof Hws as Hall. rewrite Forall_forall in Hall.
  destruct (Hall w Hw) as (Hb & Hin & _). destruct w as [q e]. simpl in *.
  assert (∀ i, (q ≤ i < e)%nat → ∃ c, nuls (the_line text extra) ws !! i = Some c ∧ text !! i = Some c ∧ c ≠ 0) as Hkept.
  { intros i Hi. destruct (Hin i Hi) as (c & Hc & Hwc). exists c. apply wordchar_not in Hwc as Hn.
    split_and!; [|done|by destruct Hn as (_ & _ & ?)]. rewrite nuls_lookup_ne; [by apply line_lookup|].
    intros (w' & -> & Hw')%list_elem_of_fmap. destruct (Hall w' Hw') as (_ & _ & Hend). by rewrite (Hend c Hc) in Hwc. }
  unfold string_at. rewrite (cstr_prefix _ (e - q)).
  - unfold word_text. simpl. apply list_eq. intros i. destruct (decide (i < e - q)%nat).
    + rewrite !lookup_take_lt, !lookup_drop by lia. destruct (Hkept (q + i)%nat) as (c & -> & -> & _); [lia|done].
    + by rewrite !lookup_take_ge by lia.
  - intros i Hi. rewrite lookup_drop. destruct (Hkept (q + i)%nat) as (c & -> & _ & ?); [lia|eauto].
  - rewrite lookup_drop. replace (q + (e - q))%nat with e by lia. apply nuls_lookup; [|].
    + apply list_elem_of_fmap. by exists (q, e).
    + unfold the_line. rewrite length_app. simpl. lia.
Qed.

Lemma strings_pad line args : (length args < MAXARGS)%nat → strings line (pad args) = string_at line <$> args.
Proof.
  unfold pad. intros Hl. destruct (MAXARGS - length args)%nat eqn:E; [lia|]. clear. induction args; simpl; [done|].
  by f_equal.
Qed.

Lemma load_repr line heap f t : ∀ fuel p,
  repr heap p t → (p < fuel)%nat → (∀ w, w ∈ words t → string_at line w.1 = f w) →
  load fuel line heap p = Some (tree_map f t).
Proof.
  induction t as [args|t IH w mode fd|l IHl r IHr|l IHl r IHr|t IH]; intros [|fuel] p Hr Hf Hw; try lia;
    cbn [load tree_map]; simpl in Hr, Hw.
  - destruct Hr as [-> Hlen]. rewrite strings_pad by (by rewrite length_fmap). do 2 f_equal.
    rewrite <- list_fmap_compose. apply list_fmap_ext. intros i w Hi. apply Hw. by eapply list_elem_of_lookup_2.
  - destruct Hr as (c & Hc & -> & Hr). rewrite IH; [|done|lia|intros; apply Hw, elem_of_app; auto].
    simpl. do 2 f_equal. apply Hw, elem_of_app. right. by apply list_elem_of_singleton.
  - destruct Hr as (a & b & Ha & Hb & -> & Hl & Hr). by rewrite (IHl fuel a), (IHr fuel b) by (done || lia || (intros; apply Hw, elem_of_app; auto)).
  - destruct Hr as (a & b & Ha & Hb & -> & Hl & Hr). by rewrite (IHl fuel a), (IHr fuel b) by (done || lia || (intros; apply Hw, elem_of_app; auto)).
  - destruct Hr as (c & Hc & -> & Hr). by rewrite IH by (done || lia).
Qed.
End words.

(** ** The words of the tokens are words of the text *)

Definition cur_ok (text : list Z) (s : nat) (cur : option nat) : Prop :=
  match cur with
  | Some q => (q < s)%nat ∧ ∀ i, (q ≤ i < s)%nat → ∃ c, text !! i = Some c ∧ wordchar c = true
  | None => True
  end.

Lemma flush_words text s cur : cur_ok text s cur → (s ≤ length text)%nat →
  (∀ c, text !! s = Some c → wordchar c = false) → Forall (token_words (word_at text)) (flush cur s).
Proof.
  destruct cur as [q|]; simpl; [|by constructor]. intros [Hq Hc] Hs He. constructor; [|constructor].
  by split_and!; simpl.
Qed.

Lemma lex_words text n : Forall char_ok text → ∀ l s cur,
  (length l ≤ n)%nat → l = drop s text → (s ≤ length text)%nat → cur_ok text s cur →
  Forall (token_words (word_at text)) (lex s cur l).
Proof.
  intros Htext. induction n as [|n IH]; intros [|c r] s cur Hn El Hs Hcur; simpl in Hn; try lia.
  1, 2: apply flush_words; [done..|]; intros c Hc; apply (f_equal length) in El; rewrite length_drop in El;
    apply lookup_lt_Some in Hc; simpl in El; lia.
  assert (text !! s = Some c) as Hc by (by rewrite <- (Nat.add_0_r s), <- lookup_drop, <- El).
  assert (∀ k, drop k (c :: r) = drop (s + k) text) as Hd by (intros; by rewrite El, drop_drop).
  assert (length (c :: r) = length text - s)%nat as Hlen by (rewrite El, length_drop; lia).
  assert (∀ k l, (S k ≤ length (c :: r))%nat → l = drop (S k) (c :: r) →
    Forall (token_words (word_at text)) (lex (s + S k) None l)) as Hgo.
  { intros k l Hk ->. apply IH; [rewrite length_drop; simpl in *; lia|apply Hd|lia|done]. }
  assert (wordchar c = false → Forall (token_words (word_at text)) (flush cur s)) as Hflush.
  { intros Hw. apply flush_words; [done..|]. intros c' Hc'. congruence. }
  assert (char_ok c) as Hok by (by eapply Forall_lookup_1).
  cbn [lex]. destruct (white c) eqn:Ew; [|destruct (symbol c) eqn:Es].
  - apply Forall_app. split; [by apply Hflush, white_not_word|].
    specialize (Hgo O r). rewrite Nat.add_1_r in Hgo. by apply Hgo; [simpl; lia|].
  - apply Forall_app. split; [by apply Hflush, symbol_not_word|].
    destruct r as [|c' r']; [by repeat constructor|]. destruct (_ && _); constructor; try done.
    + specialize (Hgo 1%nat r'). replace (s + 2)%nat with (S (S s)) in Hgo by lia. by apply Hgo; [simpl; lia|].
    + specialize (Hgo O (c' :: r')). rewrite Nat.add_1_r in Hgo. by apply Hgo; [simpl; lia|].
  - assert (wordchar c = true) as Hw.
    { unfold wordchar. rewrite Ew, Es. simpl. unfold char_ok in Hok. destruct (Z.eqb_spec c 0); [lia|done]. }
    apply IH; [lia| |simpl in Hlen; lia|].
    + specialize (Hd 1%nat). by rewrite Nat.add_1_r in Hd.
    + destruct cur as [q|]; simpl in *; (split; [lia|]); intros i Hi; destruct (decide (i = s)) as [->|]; eauto.
      * destruct Hcur as [_ Hcur]. apply Hcur. lia.
      * lia.
Qed.

(** ** parsecmd() *)

Lemma strlen_line text extra : Forall char_ok text → Z.to_nat (strlen (text ++ 0 :: extra)) = length text.
Proof.
  intros Ht. rewrite strlen_length. unfold zlen. rewrite Nat2Z.id. induction text as [|c text IH]; [done|].
  apply Forall_cons in Ht as [Hc Ht]. simpl. unfold char_ok in Hc. destruct (Z.eqb_spec c 0); [lia|]. simpl. by rewrite IH.
Qed.

Lemma lex_length l : ∀ s cur, (length (lex s cur l) ≤ length l + length (flush cur s))%nat.
Proof.
  enough (∀ n l s cur, length l ≤ n → length (lex s cur l) ≤ length l + length (flush cur s))%nat by eauto.
  intros n. induction n as [|n IH]; intros [|c r] s cur Hn; simpl in *; try lia.
  destruct (white c); [|destruct (symbol c)].
  - rewrite length_app. pose proof (IH r (S s) None ltac:(lia)). simpl in *. lia.
  - rewrite length_app. destruct r as [|c' r]; [simpl; lia|]. pose proof (IH r (S (S s)) None ltac:(simpl in *; lia)) as H1.
    pose proof (IH (c' :: r) (S s) None ltac:(simpl in *; lia)) as H2. simpl length in H1, H2.
    destruct (_ && _); simpl length in *; lia.
  - pose proof (IH r (S s) (Some (default s cur)) ltac:(lia)) as H. destruct cur; simpl in *; lia.
Qed.

Section parsecmd.
Context (text extra : list Z) (Htext : Forall char_ok text).

Lemma tokens_toks : tokens text = token_map (word_text text) <$> toks text 0.
Proof. done. Qed.

(** The reference on positions gives the reference on words. *)
Lemma parse_positions fuel :
  p_line fuel (tokens text) = rmap (word_text text) (tree_map (word_text text)) (p_line fuel (toks text 0)).
Proof. rewrite tokens_toks. symmetry. apply p_map. Qed.

Lemma p_line_total : p_line (4 * length text + 4) (toks text 0) ≠ Out.
Proof.
  assert (length (toks text 0) ≤ length text)%nat as Hlen.
  { pose proof (lex_length text 0 None) as H. simpl in H. unfold toks. rewrite drop_0. lia. }
  pose proof (proj1 (p_ends (4 * length text + 4) (toks text 0)) ltac:(lia)) as H. by intros E; rewrite E in H.
Qed.

(** The last test: is the whole line used up? *)
Lemma leftovers st s : sh_line st = the_line text extra → (s ≤ length text)%nat →
  ∃ b s', peek (length text) s [] st = Ret (b, s') st ∧
    (s' =? length text)%nat = match toks text s with [] => true | _ => false end.
Proof.
  intros Hl Hs. exists (starts [] (toks text s)), (skip text s). split; [by eapply peek_spec|].
  destruct (next_cases text extra Htext s Hs) as [(_ & -> & ->)|(c & r & E & _ & _ & Hlt & Hcase)]; [by apply Nat.eqb_refl|].
  rewrite (proj2 (Nat.eqb_neq _ _)) by lia.
  destruct Hcase as [[_ [-> _]]|(_ & _ & [(_ & _ & -> & _)|(_ & ->)])]; done.
Qed.

Lemma parsecmd_run st : sh_line st = the_line text extra →
  parsecmd st =
  (let* '(cmd, ps) := parseline (4 * length text + 4) (length text) 0 in
   let* '(_, ps) := peek (length text) ps [] in
   if negb (ps =? length text)%nat then panic "syntax"
   else nulterminate (S cmd) (Some cmd) ;; ret cmd) st.
Proof.
  intros Hst. unfold parsecmd. unfold bind at 1, gets. rewrite Hst. unfold the_line. by rewrite strlen_line.
Qed.

Lemma words_end_in ws : Forall (word_at text) ws → ends_in (the_line text extra) ws.
Proof.
  intros H. eapply Forall_impl; [exact H|]. intros w (Hb & _). unfold the_line. rewrite length_app. simpl. lia.
Qed.

Lemma parsecmd_spec heap room :
  (2 * length text + 1 ≤ room)%nat →
  match parse text with
  | inl c => wp parsecmd (Shst (the_line text extra) heap room)
      (λ p st, load (S p) (sh_line st) (sh_heap st) p = Some c)
  | inr m => parsecmd (Shst (the_line text extra) heap room) = Panic m
  end.
Proof.
  intros Hroom. set (st := Shst _ _ _). unfold parse. rewrite parse_positions. unfold wp.
  pose proof (lex_words text (length text) Htext text 0 None (le_n _) eq_refl (le_0_n _) I) as Hw.
  pose proof p_line_total as Htot.
  pose proof (proj1 (parse_follows text extra Htext (4 * length text + 4) st O ltac:(split_and!; simpl; lia || done))) as Hsim.
  rewrite parsecmd_run by done.
  destruct (p_line (4 * length text + 4) (toks text 0)) as [t rest|m|] eqn:E; [| |done]; cbn [sim rmap] in *.
  2: { unfold bind. by rewrite Hsim. }
  destruct (parseline _ _ _ _) as [[p s] st1| | |] eqn:Ep; [|done..].
  destruct Hsim as (A1 & <- & A3 & A4 & A5 & A6). cbn [fst snd] in *.
  rewrite (bind_Ret _ _ _ _ _ Ep). destruct (leftovers st1 s A4 ltac:(lia)) as (b & s' & Hp & Hend).
  rewrite (bind_Ret _ _ _ _ _ Hp), Hend. destruct (toks text s) as [|tok rest] eqn:Et; [|done]. cbn [negb fmap list_fmap].
  pose proof (proj1 (p_ok (word_at text) (4 * length text + 4) (toks text 0) Hw)) as Hok. rewrite E in Hok.
  assert (Forall (word_at text) (words t)) as Hws by (by apply tree_ok_words, Hok).
  assert (ends_in (sh_line st1) (words t)) as Hends by (rewrite A4; by apply words_end_in).
  rewrite (bind_Ret _ _ _ _ _ (nulterminate_Ret t (S p) st1 p A3 ltac:(lia) Hends)). cbn [ret sh_line sh_heap].
  rewrite A4. apply load_repr; [done|lia|]. intros w Hin. by apply word_kept.
Qed.
(** The command is well formed. *)
Lemma parse_ok c : parse text = inl c → tree_ok word_ok c.
Proof.
  unfold parse. rewrite parse_positions. intros Hp.
  pose proof (lex_words text (length text) Htext text 0 None (le_n _) eq_refl (le_0_n _) I) as Hw.
  pose proof (proj1 (p_ok (word_at text) (4 * length text + 4) (toks text 0) Hw)) as Hok.
  destruct (p_line _ _) as [t [|]| |]; simpl in Hp; [|done..]. injection Hp as <-. destruct Hok as [Hok _].
  eapply tree_ok_map; [|exact Hok]. intros [q e] (Hb & Hc & _). simpl in *. split.
  - unfold word_text. simpl. intros E%(f_equal length). rewrite length_take, length_drop in E. simpl in E. lia.
  - apply Forall_lookup. unfold word_text. simpl. intros i c [E Hi]%lookup_take_Some. rewrite lookup_drop in E.
    destruct (Hc (q + i)%nat) as (c' & E' & Hw'); [lia|]. assert (c' = c) as -> by congruence.
    split; [by eapply Forall_lookup_1|done].
Qed.
End parsecmd.

(** * What a command line runs

    [launch] follows the system calls of a process and of the processes it
    forks, with the descriptor table of each: descriptors are allocated lowest
    first, as fdalloc() of the kernel does.  [wire] says directly which program
    a command runs on which descriptors.  The two agree: all the closing,
    duplicating and opening of runcmd() has the effect that the command means,
    and no process keeps an end of a pipe that it should not have. *)

(** What a descriptor leads to: something inherited, a file that was opened, an end of a pipe. *)
Inductive desc : Type :=
| Inherited (n : Z)
| Opened (file : list Z) (mode : Z)
| ReadEnd (id : list nat)
| WriteEnd (id : list nat).

Definition table : Type := list (option desc).

(** The processes that come of one: what each runs, on which table, and in which order. *)
Inductive plan : Type :=
| Runs (path : list Z) (argv : list (list Z)) (tab : table)
| Ends (status : Z)
| Says (msg : list Z) (next : plan)
| Forks (child parent : plan)
| Waits (tab : table) (next : plan)
| Fails (why : string).

Definition fd_alloc (d : desc) (tab : table) : option (nat * table) :=
  match list_find (λ o, o = None) tab with
  | Some (i, _) => Some (i, <[i := Some d]> tab)
  | None => None
  end.

Definition fd_close (fd : Z) (tab : table) : table := <[Z.to_nat fd := None]> tab.

Section world.
(** Which programs can be executed, which files opened, and when fork() and pipe() succeed. *)
Context (can_exec : list Z → bool) (can_open : list Z → Z → bool) (fork_ok pipe_ok : list nat → bool).

(** [name] is the process, [k] counts the forks and pipes it has made. *)
Fixpoint launch (p : proc) (name : list nat) (k : nat) (tab : table) : plan :=
  match p with
  | Exit status => Ends status
  | Execv path argv failed => if can_exec path then Runs path argv tab else launch failed name k tab
  | Fprintf msg next => Says (mjoin msg) (launch next name k tab)
  | Close fd next => launch next name k (fd_close fd tab)
  | Open file mode failed opened =>
      if can_open file mode then
        match fd_alloc (Opened file mode) tab with
        | Some (_, tab) => launch opened name k tab
        | None => launch failed name k tab
        end
      else launch failed name k tab
  | Dup fd next =>
      match tab !! Z.to_nat fd with
      | Some (Some d) =>
          match fd_alloc d tab with
          | Some (_, tab) => launch next name k tab
          | None => launch next name k tab
          end
      | _ => launch next name k tab
      end
  | Pipe2 failed next =>
      if pipe_ok (name ++ [k]) then
        match fd_alloc (ReadEnd (name ++ [k])) tab with
        | Some (p0, tab') =>
            match fd_alloc (WriteEnd (name ++ [k])) tab' with
            | Some (p1, tab'') => launch (next (Z.of_nat p0) (Z.of_nat p1)) name (S k) tab''
            | None => launch failed name k tab
            end
        | None => launch failed name k tab
        end
      else launch failed name k tab
  | Fork failed child parent =>
      if fork_ok (name ++ [k]) then Forks (launch child (name ++ [k]) 0 tab) (launch parent name (S k) tab)
      else launch failed name k tab
  | Wait next => Waits tab (launch next name k tab)
  | Quit msg => Fails msg
  | _ => Fails "crash"
  end.

(** Standard input, output and error, and nothing else open. *)
Definition std (i o e : desc) : table := [Some i; Some o; Some e] ++ replicate 13 None.

Definition bin (path : list Z) : list Z := [47; 98; 105; 110; 47] ++ path.

(** The meaning of a command on three descriptors. *)
Fixpoint wire (c : tree (list Z)) (name : list nat) (k : nat) (i o e : desc) : plan :=
  match c with
  | TExec [] => Ends 1
  | TExec ((a :: _) as args) =>
      if can_exec a then Runs a args (std i o e)
      else if 94 <? zlen a then Fails "crash"
      else if can_exec (bin a) then Runs (bin a) args (std i o e)
      else Says ([101; 120; 101; 99; 32] ++ a ++ [32; 102; 97; 105; 108; 101; 100; 10]) (Ends 1)
  | TRedir c file mode fd =>
      if can_open file mode then
        if fd =? 0 then wire c name k (Opened file mode) o e else wire c name k i (Opened file mode) e
      else Says ([111; 112; 101; 110; 32] ++ file ++ [32; 102; 97; 105; 108; 101; 100; 10]) (Ends 1)
  | TList l r =>
      if fork_ok (name ++ [k]) then
        Forks (wire l (name ++ [k]) 0 i o e) (Waits (std i o e) (wire r name (S k) i o e))
      else Fails "fork"
  | TPipe l r =>
      if pipe_ok (name ++ [k]) then
        if fork_ok (name ++ [S k]) then
          Forks (wire l (name ++ [S k]) 0 i (WriteEnd (name ++ [k])) e)
            (if fork_ok (name ++ [S (S k)]) then
               Forks (wire r (name ++ [S (S k)]) 0 (ReadEnd (name ++ [k])) o e)
                 (Waits (std i o e) (Waits (std i o e) (Ends 1)))
             else Fails "fork")
        else Fails "fork"
      else Fails "pipe"
  | TBack c =>
      if fork_ok (name ++ [k]) then Forks (wire c (name ++ [k]) 0 i o e) (Ends 1) else Fails "fork"
  end.

(** The redirections are of descriptor 0 or 1. *)
Fixpoint fds_ok (c : tree (list Z)) : Prop :=
  match c with
  | TExec _ => True
  | TRedir c _ _ fd => fds_ok c ∧ (fd = 0 ∨ fd = 1)
  | TPipe l r | TList l r => fds_ok l ∧ fds_ok r
  | TBack c => fds_ok c
  end.

(** runcmd() of a command in memory does what the command means. *)
Lemma runcmd_wire line heap : ∀ fuel p c name k i o e,
  load fuel line heap p = Some c → fds_ok c →
  launch (runcmd line heap fuel (Some p)) name k (std i o e) = wire c name k i o e.
Proof.
  induction fuel as [|fuel IH]; intros p c name k i o e Hload Hfd; [done|].
  simpl in Hload. cbn [runcmd]. destruct (heap !! p) as [[argv eargv|sub file efile mode fd|l r|l r|sub]|]; [..|done].
  - injection Hload as <-. destruct (strings line argv) as [|a args]; [done|]. simpl. destruct (can_exec a); [done|].
    replace (100 <? 5 + zlen a + 1) with (94 <? zlen a) by lia. destruct (94 <? zlen a); [done|]. cbn [launch].
    unfold bin. simpl. by destruct (can_exec _); rewrite ?app_nil_r.
  - destruct (load fuel line heap sub) as [c'|] eqn:E; [|done]. injection Hload as <-. destruct Hfd as [Hfd [-> | ->]];
      simpl; (destruct (can_open _ _); [by apply IH|done]).
  - destruct (load fuel line heap l) as [l'|] eqn:El; [|done]. destruct (load fuel line heap r) as [r'|] eqn:Er; [|done].
    injection Hload as <-. destruct Hfd as [Hl Hr]. simpl. destruct (pipe_ok _); [|done].
    destruct (fork_ok _); [|done]. f_equal; [by apply (IH l)|]. destruct (fork_ok _); [|done]. f_equal. by apply (IH r).
  - destruct (load fuel line heap l) as [l'|] eqn:El; [|done]. destruct (load fuel line heap r) as [r'|] eqn:Er; [|done].
    injection Hload as <-. destruct Hfd as [Hl Hr]. simpl. destruct (fork_ok _); [|done].
    f_equal; [by apply IH|]. f_equal. by apply IH.
  - destruct (load fuel line heap sub) as [c'|] eqn:E; [|done]. injection Hload as <-. simpl. destruct (fork_ok _); [|done].
    f_equal. by apply IH.
Qed.
End world.

Lemma tree_ok_fds c : tree_ok word_ok c → fds_ok c.
Proof.
  induction c as [args|c IH w m fd|l IHl r IHr|l IHl r IHr|c IH]; simpl; intros H; destruct_and?; auto.
  split; [auto|]. subst fd. unfold redir_fd. destruct (_ =? 60); auto.
Qed.

(** ** Claims *)

(** C13.  On every line without NUL characters before its end, parsecmd() ends
    without an access outside the line, the nodes or the argument arrays: with
    the nodes of the command that the reference parser finds in the tokens of
    the line, its words NUL-terminated in place, or with the message of the
    first error.  Two nodes for each character are memory enough. *)
Theorem parsecmd_ends text extra heap room :
  Forall char_ok text → (2 * length text + 1 ≤ room)%nat →
  match parse text with
  | inl c => wp parsecmd (Shst (text ++ 0 :: extra) heap room)
      (λ p st, load (S p) (sh_line st) (sh_heap st) p = Some c)
  | inr m => parsecmd (Shst (text ++ 0 :: extra) heap room) = Panic m
  end.
Proof. intros. by apply parsecmd_spec. Qed.

(** C14.  parsecmd() inverts printing: every command, however nested, with words
    of word characters, at most nine arguments and the three kinds of
    redirection, printed with parentheses where they are needed, is parsed to
    the same command. *)
Theorem parsecmd_show c extra heap room :
  tree_ok word_ok c → (2 * length (show c) + 1 ≤ room)%nat →
  wp parsecmd (Shst (show c ++ 0 :: extra) heap room)
    (λ p st, load (S p) (sh_line st) (sh_heap st) p = Some c).
Proof.
  intros Hc Hroom. pose proof (parsecmd_spec (show c) extra (show_char_ok c Hc) heap room Hroom) as H.
  by rewrite parse_show in H.
Qed.

(** C15.  Every command that parsecmd() returns is well formed: its nodes form a
    tree, its argument arrays end with NULL before MAXARGS, its words are not
    empty and have no blanks and no symbols, and its redirections open
    descriptor 0 for reading or 1 for writing. *)
Theorem parsecmd_typed text extra heap room p st :
  Forall char_ok text → (2 * length text + 1 ≤ room)%nat →
  parsecmd (Shst (text ++ 0 :: extra) heap room) = Ret p st →
  ∃ c, load (S p) (sh_line st) (sh_heap st) p = Some c ∧ tree_ok word_ok c.
Proof.
  intros Ht Hroom E. pose proof (parsecmd_spec text extra Ht heap room Hroom) as H. unfold the_line in H.
  destruct (parse text) as [c|m] eqn:Ep; [|congruence]. exists c.
  split; [by apply (wp_Ret _ _ _ _ _ H)|by eapply parse_ok].
Qed.

(** C12.  The child that the shell forks for a line runs the programs of the
    command on the descriptors that the command says: a redirection replaces
    one descriptor, the two sides of a pipe get its two ends, lists run in
    order, and each program and each waiting shell has three descriptors open
    and no other, so that the end of a pipe closes when its side ends. *)
Theorem command_wires can_exec can_open fork_ok pipe_ok text extra room c name k i o e :
  Forall char_ok text → (2 * length text + 1 ≤ room)%nat → parse text = inl c →
  launch can_exec can_open fork_ok pipe_ok (command room (text ++ 0 :: extra)) name k (std i o e) =
  wire can_exec can_open fork_ok pipe_ok c name k i o e.
Proof.
  intros Ht Hroom Ep. pose proof (parsecmd_spec text extra Ht [] room Hroom) as H. rewrite Ep in H.
  apply wp_outcome in H as (p & st & E & Hload). unfold the_line in E. unfold command. rewrite E.
  apply runcmd_wire; [done|]. by eapply tree_ok_fds, parse_ok.
Qed.

(** ** A sample line: "ls <a|(cat;wc >>b)&" *)

Definition sample_line : list Z :=
  [108; 115; 32; 60; 97; 124; 40; 99; 97; 116; 59; 119; 99; 32; 62; 62; 98; 41; 38].
Definition sample_cmd : tree (list Z) :=
  TBack (TPipe (TRedir (TExec [[108; 115]]) [97] 0 0)
    (TList (TExec [[99; 97; 116]]) (TRedir (TExec [[119; 99]]) [98] 521 1))).

Lemma sample_chars : Forall char_ok sample_line.
Proof. unfold sample_line, char_ok. repeat (constructor; [lia|]). constructor. Qed.

Lemma sample_parse : parse sample_line = inl sample_cmd.
Proof. vm_compute. reflexivity. Qed.

Lemma sample_cmd_ok : tree_ok word_ok sample_cmd.
Proof. by eapply parse_ok; [apply sample_chars|apply sample_parse]. Qed.

Lemma sample_run : ∃ p st, parsecmd (Shst (sample_line ++ [0]) [] 39) = Ret p st.
Proof. vm_compute. by eexists _, _. Qed.

Lemma parsecmd_ends_witness : wp parsecmd (Shst (sample_line ++ [0]) [] 39)
  (λ p st, load (S p) (sh_line st) (sh_heap st) p = Some sample_cmd).
Proof.
  pose proof (parsecmd_ends sample_line [] [] 39 sample_chars ltac:(vm_compute; lia)) as H.
  rewrite sample_parse in H. exact H.
Defined.

Lemma parsecmd_show_witness : wp parsecmd (Shst (show sample_cmd ++ [0]) [] 80)
  (λ p st, load (S p) (sh_line st) (sh_heap st) p = Some sample_cmd).
Proof. exact (parsecmd_show sample_cmd [] [] 80 sample_cmd_ok ltac:(vm_compute; lia)). Defined.

Lemma parsecmd_typed_witness : ∃ p st c, parsecmd (Shst (sample_line ++ [0]) [] 39) = Ret p st ∧
  load (S p) (sh_line st) (sh_heap st) p = Some c ∧ tree_ok word_ok c.
Proof.
  destruct sample_run as (p & st & E).
  destruct (parsecmd_typed sample_line [] [] 39 p st sample_chars ltac:(vm_compute; lia) E) as (c & H1 & H2).
  exists p, st, c. split; [exact E|split; [exact H1|exact H2]].
Defined.

(** With every program in /bin, ls reads "a" and writes the pipe, which cat reads. *)
Lemma command_wires_witness :
  launch (λ path, bool_decide (path ≠ [108; 115])) (λ _ _, true) (λ _, true) (λ _, true)
    (command 39 (sample_line ++ [0])) [] 0 (std (Inherited 0) (Inherited 1) (Inherited 2)) =
  Forks
    (Forks (Runs (bin [108; 115]) [[108; 115]] (std (Opened [97] 0) (WriteEnd [0; 0]%nat) (Inherited 2)))
      (Forks (Forks (Runs [99; 97; 116] [[99; 97; 116]] (std (ReadEnd [0; 0]%nat) (Inherited 1) (Inherited 2)))
               (Waits (std (ReadEnd [0; 0]%nat) (Inherited 1) (Inherited 2))
                 (Runs [119; 99] [[119; 99]] (std (ReadEnd [0; 0]%nat) (Opened [98] 521) (Inherited 2)))))
        (Waits (std (Inherited 0) (Inherited 1) (Inherited 2))
          (Waits (std (Inherited 0) (Inherited 1) (Inherited 2)) (Ends 1)))))
    (Ends 1).
Proof.
  rewrite (command_wires _ _ _ _ sample_line [] 39 sample_cmd [] 0 (Inherited 0) (Inherited 1) (Inherited 2)
    sample_chars ltac:(vm_compute; lia) sample_parse).
  vm_compute. reflexivity.
Defined.
