(* ===== verification/Readline.v ===== *)
(** * The line editor (lib/other/readline.c and readline_fn.c)

    The static variables of the file are a record.  The line is the array
    [input]; its pointers rl_base, rl_end, rl_cursor and rl_bufend are indices
    (rl_base is 0), and so are the pointers into the history buffer.  An access
    outside an array is a fault.  [char] is signed on the target.

    The keys are a list of results of read().  What the terminal gets is
    collected in [r_out], and what is written to descriptor 2 in [r_err].  The
    directory that opendir(".") lists, whether strdup() finds memory, whether
    descriptor 0 is a terminal and what the timeout function returns are
    parameters. *)

From S2P Require Import Prelude Bytes Params KstringSpec Libstring.

Definition MAX_HIST : Z := 8.
Definition CTRL (x : Z) : Z := Z.land x 31.
Definition ECHO : Z := 8.

(** The history: rl_hbuffer (and whether it is not NULL), rl_hend, rl_hbufend,
    hptr, hlen, histp, histend. *)
Record hist := mkHist {
  h_on : bool;
  h_data : list Z;
  h_end : Z;
  h_bufend : Z;
  h_ptr : list Z;
  h_len : list Z;
  h_p : Z;
  h_cnt : Z;
}.

(** The terminal: its c_lflag, saved_term.c_lflag, do_cleanup, and the number
    of times that exit_cleanup() is registered with atexit(). *)
Record tty := mkTty {
  t_lflag : Z;
  t_saved : Z;
  t_cleanup : Z;
  t_atexit : Z;
}.

Record rl := mkRl {
  r_buf : list Z;
  r_bufend : Z;
  r_end : Z;
  r_cursor : Z;
  r_inhist : bool;
  r_hist : hist;
  r_tty : tty;
  r_out : list Z;
  r_err : list Z;
}.

Definition set_buf b s := mkRl b (r_bufend s) (r_end s) (r_cursor s) (r_inhist s) (r_hist s) (r_tty s) (r_out s) (r_err s).
Definition set_end e s := mkRl (r_buf s) (r_bufend s) e (r_cursor s) (r_inhist s) (r_hist s) (r_tty s) (r_out s) (r_err s).
Definition set_cursor c s := mkRl (r_buf s) (r_bufend s) (r_end s) c (r_inhist s) (r_hist s) (r_tty s) (r_out s) (r_err s).
Definition set_inhist i s := mkRl (r_buf s) (r_bufend s) (r_end s) (r_cursor s) i (r_hist s) (r_tty s) (r_out s) (r_err s).
Definition set_hist h s := mkRl (r_buf s) (r_bufend s) (r_end s) (r_cursor s) (r_inhist s) h (r_tty s) (r_out s) (r_err s).
Definition set_tty t s := mkRl (r_buf s) (r_bufend s) (r_end s) (r_cursor s) (r_inhist s) (r_hist s) t (r_out s) (r_err s).
Definition set_out o s := mkRl (r_buf s) (r_bufend s) (r_end s) (r_cursor s) (r_inhist s) (r_hist s) (r_tty s) o (r_err s).
Definition set_err o s := mkRl (r_buf s) (r_bufend s) (r_end s) (r_cursor s) (r_inhist s) (r_hist s) (r_tty s) (r_out s) o.
Definition on_hist (f : hist → hist) s := set_hist (f (r_hist s)) s.

(** [write(rl_fd, bs, n)] *)
Definition emit (bs : list Z) : M rl unit := modify (λ s, set_out (r_out s ++ bs) s).

(** Accesses to the line. *)
Definition in_array (d : list Z) (p n : Z) : bool := (0 <=? p) && (0 <=? n) && (p + n <=? zlen d).
Definition rd (p : Z) : M rl Z :=
  let* b := gets r_buf in
  if in_array b p 1 then ret (byte b p) else fault "line".
Definition wr (p c : Z) : M rl unit :=
  let* b := gets r_buf in
  if in_array b p 1 then modify (set_buf (splice b p [c])) else fault "line".
Definition mv (dst src n : Z) : M rl unit :=
  let* b := gets r_buf in
  if in_array b dst n && in_array b src n then modify (set_buf (splice b dst (slice b src n))) else fault "line".

(** ** The history *)

Definition history_set : M rl unit :=
  let* s := gets id in
  let h := r_hist s in
  let n := h_len h !!! Z.to_nat (h_p h) in
  let n := if n >? r_bufend s then r_bufend s else n in
  let p := h_ptr h !!! Z.to_nat (h_p h) in
  if in_array (h_data h) p n && in_array (r_buf s) 0 n then
    modify (set_buf (splice (r_buf s) 0 (slice (h_data h) p n))) ;;
    modify (set_end n) ;;
    modify (set_cursor n)
  else fault "history".

(** The body of the loop of history_add(): the oldest entry removed. *)
Definition history_shift (h : hist) : option hist :=
  let l := h_len h !!! 0%nat in
  let hend := h_end h - l in
  if in_array (h_data h) 0 hend && in_array (h_data h) l hend then
    Some (mkHist (h_on h) (splice (h_data h) 0 (slice (h_data h) l hend)) hend (h_bufend h)
      (((λ p, p - l) <$> tail (h_ptr h)) ++ [h_ptr h !!! 7%nat])
      (tail (h_len h) ++ [h_len h !!! 7%nat])
      (if h_p h =? 0 then 0 else h_p h - 1)
      (u8 (h_cnt h - 1)))
  else None.

Definition history_add : M rl unit :=
  let* on := gets (λ s, h_on (r_hist s)) in
  if negb on then ret tt
  else
    let* n := gets r_end in
    let* cnt := gets (λ s, h_cnt (r_hist s)) in
    loop (Z.to_nat cnt + 1) (λ _ : unit,
      let* h := gets r_hist in
      if (h_cnt h =? MAX_HIST) || (h_end h + n >=? h_bufend h) then
        match history_shift h with
        | Some h => modify (set_hist h) ;; ret (inl tt)
        | None => fault "history"
        end
      else ret (inr tt)) tt ;;
    let* s := gets id in
    let h := r_hist s in
    if in_array (h_data h) (h_end h) n && in_array (r_buf s) 0 n && (h_cnt h <? MAX_HIST) then
      modify (set_hist (mkHist (h_on h) (splice (h_data h) (h_end h) (slice (r_buf s) 0 n)) (h_end h + n) (h_bufend h)
        (<[Z.to_nat (h_cnt h) := h_end h]> (h_ptr h)) (<[Z.to_nat (h_cnt h) := n]> (h_len h))
        (h_p h) (u8 (h_cnt h + 1))))
    else fault "history".

Definition history_droplast : M rl unit :=
  let* h := gets r_hist in
  let cnt := u8 (h_cnt h - 1) in
  if cnt <? MAX_HIST then
    modify (set_hist (mkHist (h_on h) (h_data h) (h_end h - h_len h !!! Z.to_nat cnt) (h_bufend h)
      (h_ptr h) (h_len h) (h_p h) cnt))
  else fault "history".

Definition history_replace : M rl unit := history_droplast ;; history_add.

Definition rl_hinit (buffer : list Z) (len : Z) (h : hist) : hist :=
  mkHist true buffer 0 len (h_ptr h) (h_len h) (h_p h) (h_cnt h).

(** ** Echo *)

Definition quoted_putchar (c : Z) : M rl unit :=
  if c <? 32 then emit [94; u8 (c + 64)] else emit [c].

Definition backspace (c : Z) : M rl unit := emit (if schar c <? 32 then [8; 8] else [8]).

(** [while (p < end) quoted_putchar( *p++)], for [n = end - p] characters. *)
Fixpoint put_chars (n : nat) (p : Z) : M rl unit :=
  match n with
  | O => ret tt
  | S n => let* c := rd p in quoted_putchar c ;; put_chars n (p + 1)
  end.

(** [while (p > start) backspace( *--p)], for [n = p - start] characters. *)
Fixpoint back_chars (n : nat) (p : Z) : M rl unit :=
  match n with
  | O => ret tt
  | S n => let* c := rd (p - 1) in backspace c ;; back_chars n (p - 1)
  end.

Definition reprint_end (c : Z) : M rl unit :=
  let* s := gets id in
  let n := Z.to_nat (r_end s - r_cursor s) in
  put_chars n (r_cursor s) ;;
  emit (if schar c <? 32 then [32; 32; 8; 8] else [32; 8]) ;;
  back_chars n (r_cursor s + Z.of_nat n).

Definition reprint_start : M rl unit :=
  let* cur := gets r_cursor in
  put_chars (Z.to_nat (cur + 1)) 0.

(** ** Editing *)

Definition insert_char (c : Z) : M rl unit :=
  let* s := gets id in
  if r_end s <? r_bufend s then
    if negb (r_cursor s =? r_end s) then
      mv (r_cursor s + 1) (r_cursor s) (r_end s - r_cursor s) ;;
      wr (r_cursor s) c ;;
      modify (set_cursor (r_cursor s + 1)) ;;
      modify (set_end (r_end s + 1)) ;;
      quoted_putchar c ;;
      reprint_end 32
    else
      wr (r_cursor s) c ;;
      modify (set_cursor (r_cursor s + 1)) ;;
      modify (set_end (r_end s + 1)) ;;
      quoted_putchar c
  else ret tt.

Definition exit_cleanup : M rl unit :=
  let* t := gets r_tty in
  if t_cleanup t =? 1 then modify (set_tty (mkTty (t_saved t) (t_saved t) 2 (t_atexit t))) else ret tt.

Definition bspace : M rl unit :=
  let* s := gets id in
  let p := r_cursor s - 1 in
  modify (set_cursor p) ;;
  let* c := rd p in
  backspace c ;;
  mv p (p + 1) (r_end s - p) ;;
  modify (set_end (r_end s - 1)) ;;
  reprint_end c.

(** The line erased from the screen, from the position [p], back to its start. *)
Fixpoint erase_chars (n : nat) (p : Z) : M rl unit :=
  match n with
  | O => ret tt
  | S n =>
      let* c := rd (p - 1) in
      emit (if schar c <? 32 then [32; 32; 8; 8] else [32; 8]) ;;
      backspace c ;;
      erase_chars n (p - 1)
  end.

Definition history (dir : Z) : M rl unit :=
  let* s := gets id in
  if negb (h_on (r_hist s)) then ret tt
  else
    (if negb (r_inhist s) then
       modify (on_hist (λ h, mkHist (h_on h) (h_data h) (h_end h) (h_bufend h) (h_ptr h) (h_len h) (h_cnt h) (h_cnt h)))
     else ret tt) ;;
    let* h := gets r_hist in
    if (h_p h + dir <? 0) || (h_p h + dir >=? h_cnt h) then ret tt
    else
      let p := Z.max (r_cursor s) (r_end s) in
      put_chars (Z.to_nat (r_end s - r_cursor s)) (r_cursor s) ;;
      erase_chars (Z.to_nat p) p ;;
      emit [32; 32; 8; 8] ;;
      (if h_p h + (if r_inhist s then 1 else 0) =? h_cnt h then
         if r_inhist s then history_replace else history_add
       else ret tt) ;;
      modify (set_inhist true) ;;
      modify (on_hist (λ h, mkHist (h_on h) (h_data h) (h_end h) (h_bufend h) (h_ptr h) (h_len h) (u8 (h_p h + dir)) (h_cnt h))) ;;
      history_set ;;
      let* e := gets r_end in
      put_chars (Z.to_nat e) 0 ;;
      modify (set_cursor e).

(** ** Completion *)

Section editor.
Context (listing : option (list (list Z))) (dup_ok : list Z → bool).
Context (is_tty : bool) (has_timeout : bool).

(** [for (filename = rl_cursor; filename > rl_base; filename--)
       if ( *filename == ' ') { filename++; break; }] *)
Fixpoint find_word (n : nat) (p : Z) : M rl Z :=
  match n with
  | O => ret p
  | S n => let* c := rd p in if c =? 32 then ret (p + 1) else find_word n (p - 1)
  end.

(** The loop over the entries of the directory: [matchname]. *)
Fixpoint find_match (filename : list Z) (entries : list (list Z)) (matchname : option (list Z)) : option (list Z) :=
  match entries with
  | [] => matchname
  | d_name :: entries =>
      if byte d_name 0 =? 0 then find_match filename entries matchname
      else if strncmp filename d_name (strlen filename) =? 0 then
        match matchname with
        | Some _ => None
        | None =>
            let rest := cstr (drop (Z.to_nat (strlen filename)) d_name) in
            find_match filename entries (if dup_ok rest then Some rest else None)
        end
      else find_match filename entries matchname
  end.

Fixpoint insert_all (cs : list Z) : M rl unit :=
  match cs with [] => ret tt | c :: cs => insert_char c ;; insert_all cs end.

Definition tab_complete : M rl unit :=
  let* cur := gets r_cursor in
  wr cur 0 ;;
  let* p := find_word (Z.to_nat cur) cur in
  let* b := gets r_buf in
  let filename := drop (Z.to_nat p) b in
  if strlen filename =? 0 then ret tt
  else
    match listing with
    | None => ret tt
    | Some entries =>
        match find_match filename entries None with
        | None => ret tt
        | Some rest => insert_all rest ;; insert_char 32
        end
    end.

(** ** The loop over the keys *)

(** A result of [read(fd, &c, 1)]: a character, or the value [r] other than 1,
    errno, and what the timeout function returns if it is asked. *)
Inductive event :=
| Key (c : Z)
| NoKey (r err : Z) (redraw : bool).

(** "PNFB   A     E"[i] *)
Definition esc_key (i : Z) : Z :=
  byte [80; 78; 70; 66; 32; 32; 32; 65; 32; 32; 32; 32; 32; 69] i.

Definition at_start (s : rl) : bool := r_cursor s =? 0.

(** The switch: the result of the function if the key ends it, with -1 for the
    end of the input. *)
Definition key (prompt : list Z) (c : Z) : M rl (option Z) :=
  let* s := gets id in
  if c =? CTRL 73 then tab_complete ;; ret None
  else if c =? CTRL 67 then
    modify (λ s, set_err (r_err s ++ [94; 67; 10]) s) ;; exit_cleanup ;; ret (Some (-2))
  else if c =? CTRL 68 then ret (Some (-1))
  else if (c =? 8) || (c =? 127) then
    (if negb (at_start s) then bspace else ret tt) ;; ret None
  else if (c =? CTRL 85) || (c =? CTRL 88) then
    loop (Z.to_nat (r_cursor s) + 1) (λ _ : unit,
      let* start := gets at_start in
      if start then ret (inr tt) else bspace ;; ret (inl tt)) tt ;; ret None
  else if c =? CTRL 70 then
    (if r_cursor s <? r_end s then
       let* x := rd (r_cursor s) in modify (set_cursor (r_cursor s + 1)) ;; quoted_putchar x
     else ret tt) ;; ret None
  else if c =? CTRL 66 then
    (if r_cursor s >? 0 then
       let* x := rd (r_cursor s - 1) in modify (set_cursor (r_cursor s - 1)) ;; backspace x
     else ret tt) ;; ret None
  else if c =? CTRL 69 then
    put_chars (Z.to_nat (r_end s - r_cursor s)) (r_cursor s) ;;
    modify (set_cursor (Z.max (r_cursor s) (r_end s))) ;; ret None
  else if c =? CTRL 65 then
    back_chars (Z.to_nat (r_cursor s)) (r_cursor s) ;; modify (set_cursor 0) ;; ret None
  else if c =? CTRL 80 then history (-1) ;; ret None
  else if c =? CTRL 78 then history 1 ;; ret None
  else if c =? CTRL 82 then
    emit [10] ;; emit prompt ;; reprint_start ;; reprint_end 32 ;; ret None
  else (if c >? 31 then insert_char c else ret tt) ;; ret None.

(** The variables [quote] and [esc] are 0 or 1.  The result is [None] for
    another round, and [Some (inl v)] to return [v] at once or [Some (inr r)]
    to go to [out] with the variable [r]. *)
Definition edit_round (prompt : list Z) (quote esc : bool) (e : event) : M rl (option (Z + Z) * bool * bool) :=
  let switch (c : Z) (esc : bool) :=
    if c =? 27 then ret (None, false, true)
    else if c =? 13 then ret (None, false, esc)
    else if c =? CTRL 86 then ret (None, true, esc)
    else
      let* x := key prompt c in
      match x with
      | None => ret (None, false, esc)
      | Some v => ret (Some (if v =? -1 then inr 0 else inl v), false, esc)
      end in
  match e with
  | NoKey r err redraw =>
      if negb (err =? EAGAIN) then ret (Some (inr r), quote, esc)
      else if negb has_timeout then fault "timeout_fn"
      else if negb redraw then ret (None, quote, esc)
      else
        let* x := key prompt (CTRL 82) in ret (None, quote, esc)
  | Key c =>
      if quote then insert_char c ;; ret (None, false, esc)
      else if esc then
        if c =? 91 then ret (None, false, true)
        else switch (if (65 <=? c) && (c <=? 78) then CTRL (esc_key (c - 65)) else c) false
      else if (c =? 10) || (c =? 13) then ret (Some (inr 1), false, esc)
      else switch c esc
  end.

(** The loop of rl_edit_timeout(); it waits for ever when the keys run out. *)
Fixpoint edit_loop (prompt : list Z) (quote esc : bool) (keys : list event) : M rl (Z + Z) :=
  match keys with
  | [] => spin
  | e :: keys =>
      let* r := edit_round prompt quote esc e in
      match r with
      | (None, quote, esc) => edit_loop prompt quote esc keys
      | (Some v, _, _) => ret v
      end
  end.

Definition rl_start (prompt input : list Z) (len : Z) : M rl unit :=
  modify (λ s, mkRl input (len - 1) 0 0 false (r_hist s) (r_tty s) (r_out s) (r_err s)) ;;
  emit prompt ;;
  if is_tty then
    modify (λ s, let t := r_tty s in
      set_tty (mkTty (Z.land (t_lflag t) (Z.lnot ECHO)) (t_lflag t) 1
        (if t_cleanup t =? 0 then t_atexit t + 1 else t_atexit t)) s)
  else ret tt.

Definition rl_out (r : Z) : M rl Z :=
  let* s := gets id in
  (if r_inhist s then
     if negb (r_end s =? 0) then history_replace else history_droplast
   else if negb (r_end s =? 0) then history_add else ret tt) ;;
  emit [10] ;;
  exit_cleanup ;;
  let* e := gets r_end in
  if (e =? 0) && (r =? 0) then ret (-1) else ret e.

Definition rl_edit_timeout (prompt input : list Z) (len : Z) (keys : list event) : M rl Z :=
  rl_start prompt input len ;;
  let* v := edit_loop prompt false false keys in
  match v with
  | inl v => ret v
  | inr r => rl_out r
  end.

End editor.

(** There is no timeout function. *)
Definition rl_edit (listing : option (list (list Z))) (dup_ok : list Z → bool) (is_tty : bool)
    (prompt input : list Z) (len : Z) (keys : list event) : M rl Z :=
  rl_edit_timeout listing dup_ok is_tty false prompt input len keys.

(** readline() of readline_fn.c: [p] is what malloc(256) returned, and the
    result is the memory that the string it returns starts.  The flush of
    stdout is not part of the state. *)
Definition readline (listing : option (list (list Z))) (dup_ok : list Z → bool) (is_tty : bool)
    (prompt : list Z) (p : option (list Z)) (keys : list event) : M rl (option (list Z)) :=
  match p with
  | None => ret None
  | Some p =>
      let* len := rl_edit listing dup_ok is_tty prompt p 255 keys in
      if len <? 0 then ret None
      else
        wr len 0 ;;
        let* b := gets r_buf in
        ret (Some b)
  end.
