(* ===== verification/ReadlineSpec.v ===== *)
(** * What the line editor promises

    The abstract editor: a line with a cursor is two lists of bytes, the
    history is a list of lines.  Every key is a function on it, and says what
    is written to the terminal. *)

From S2P Require Import Prelude Bytes Params KstringSpec Libstring LibstringSpec Readline.

(** ** The abstract editor *)

Record ed := mkEd {
  e_left : list Z;
  e_right : list Z;
  e_hist : list (list Z);
  e_at : option nat;
}.

Definition e_line (e : ed) : list Z := e_left e ++ e_right e.
Definition set_line (l r : list Z) (e : ed) : ed := mkEd l r (e_hist e) (e_at e).

(** ** Echo *)

Definition vis (c : Z) : list Z := if c <? 32 then [94; u8 (c + 64)] else [c].
Definition bs (c : Z) : list Z := if schar c <? 32 then [8; 8] else [8].
Definition wipe (c : Z) : list Z := if schar c <? 32 then [32; 32; 8; 8] else [32; 8].

Definition render (l : list Z) : list Z := mjoin (vis <$> l).
Definition unrender (l : list Z) : list Z := mjoin (bs <$> reverse l).

(** The text right of the cursor written again, and [c] erased after it. *)
Definition retype (c : Z) (r : list Z) : list Z := render r ++ wipe c ++ unrender r.

(** ** Editing *)

Section abstract.
Context (cap : Z).

Definition a_insert (c : Z) (e : ed) : ed :=
  if zlen (e_line e) <? cap then set_line (e_left e ++ [c]) (e_right e) e else e.
Definition o_insert (c : Z) (e : ed) : list Z :=
  if zlen (e_line e) <? cap then vis c ++ (if decide (e_right e = []) then [] else retype 32 (e_right e)) else [].

Fixpoint a_inserts (cs : list Z) (e : ed) : ed :=
  match cs with [] => e | c :: cs => a_inserts cs (a_insert c e) end.
Fixpoint o_inserts (cs : list Z) (e : ed) : list Z :=
  match cs with [] => [] | c :: cs => o_insert c e ++ o_inserts cs (a_insert c e) end.

Definition a_bspace (e : ed) : ed := set_line (take (length (e_left e) - 1) (e_left e)) (e_right e) e.
Definition o_bspace (e : ed) : list Z :=
  match last (e_left e) with None => [] | Some c => bs c ++ retype c (e_right e) end.

(** The characters before the cursor, from the last one, erased one by one. *)
Definition o_kill (e : ed) : list Z := mjoin ((λ c, bs c ++ retype c (e_right e)) <$> reverse (e_left e)).

Definition a_forward (e : ed) : ed :=
  match e_right e with [] => e | c :: r => set_line (e_left e ++ [c]) r e end.
Definition a_backward (e : ed) : ed :=
  match last (e_left e) with
  | None => e
  | Some c => set_line (take (length (e_left e) - 1) (e_left e)) (c :: e_right e) e
  end.

(** ** The history *)

Context (hcap : Z).

Definition total (H : list (list Z)) : Z := zlen (mjoin H).

(** The oldest lines dropped until a line of [n] bytes fits. *)
Fixpoint fit (n : Z) (H : list (list Z)) : list (list Z) :=
  match H with
  | [] => []
  | x :: T => if (zlen H =? MAX_HIST) || (total H + n >=? hcap) then fit n T else H
  end.

Definition a_add (x : list Z) (H : list (list Z)) : list (list Z) := fit (zlen x) H ++ [x].
Definition dropped (x : list Z) (H : list (list Z)) : Z := zlen H - zlen (fit (zlen x) H).

Definition drop_last (H : list (list Z)) : list (list Z) := take (length H - 1) H.

(** The line being edited is kept as the newest one while older ones are
    shown: the history then, and the position in it. *)
Definition a_store (e : ed) : list (list Z) * Z :=
  let H := e_hist e in
  let x := e_line e in
  match e_at e with
  | None => (a_add x H, Z.max 0 (zlen H - dropped x H))
  | Some p =>
      if Z.of_nat p + 1 =? zlen H then (a_add x (drop_last H), Z.max 0 (Z.of_nat p - dropped x (drop_last H)))
      else (H, Z.of_nat p)
  end.

Definition a_pos (e : ed) : Z := match e_at e with None => zlen (e_hist e) | Some p => Z.of_nat p end.
Definition at_limit (dir : Z) (e : ed) : bool := (a_pos e + dir <? 0) || (a_pos e + dir >=? zlen (e_hist e)).

(** The line of the history that a step up or down shows. *)
Definition a_history (dir : Z) (e : ed) : ed :=
  if at_limit dir e then e
  else
    let '(H, p) := a_store e in
    mkEd (take (Z.to_nat cap) (H !!! Z.to_nat (p + dir))) [] H (Some (Z.to_nat (p + dir))).

(** The history after the line is done. *)
Definition a_close (e : ed) : list (list Z) :=
  let x := e_line e in
  match e_at e with
  | None => if decide (x = []) then e_hist e else a_add x (e_hist e)
  | Some _ => if decide (x = []) then drop_last (e_hist e) else a_add x (drop_last (e_hist e))
  end.

(** The line erased from the screen from its end, and the new one. *)
Definition o_erase (l : list Z) : list Z := mjoin ((λ c, wipe c ++ bs c) <$> reverse l).
Definition o_history (dir : Z) (e : ed) : list Z :=
  if at_limit dir e then []
  else render (e_right e) ++ o_erase (e_line e) ++ [32; 32; 8; 8] ++ render (e_left (a_history dir e)).
End abstract.

(** ** Completion *)

(** The start of the word before position [p] of [l]: after the last space, but
    a space at the start of the line counts as part of the word. *)
Fixpoint word_start (l : list Z) (p : nat) : nat :=
  match p with
  | O => O
  | S q => if byte l (Z.of_nat p) =? 32 then S p else word_start l q
  end.

Definition word (l : list Z) : list Z := drop (word_start l (length l)) l.

Section complete.
Context (listing : option (list (list Z))) (dup_ok : list Z → bool) (cap : Z).

(** What completion inserts after the word. *)
Definition completion (w : list Z) : list Z :=
  if strlen w =? 0 then []
  else match listing with
       | None => []
       | Some entries => match find_match dup_ok w entries None with None => [] | Some rest => rest ++ [32] end
       end.

(** The character at the cursor is overwritten, if there is one. *)
Definition a_clobber (e : ed) : ed :=
  match e_right e with [] => e | _ :: r => set_line (e_left e) (0 :: r) e end.
Definition a_tab (e : ed) : ed := a_inserts cap (completion (word (e_left e))) (a_clobber e).
Definition o_tab (e : ed) : list Z := o_inserts cap (completion (word (e_left e))) (a_clobber e).
End complete.

(** ** The line in memory *)

Record line_ok (s : rl) (l r : list Z) : Prop := {
  lo_text : slice (r_buf s) 0 (r_end s) = l ++ r;
  lo_end : r_end s = zlen l + zlen r;
  lo_cursor : r_cursor s = zlen l;
  lo_fit : r_end s ≤ r_bufend s;
  lo_room : r_bufend s < zlen (r_buf s);
}.

(** What editing leaves alone. *)
Record same (s s' : rl) : Prop := {
  sm_bufend : r_bufend s' = r_bufend s;
  sm_room : zlen (r_buf s') = zlen (r_buf s);
  sm_inhist : r_inhist s' = r_inhist s;
  sm_hist : r_hist s' = r_hist s;
  sm_tty : r_tty s' = r_tty s;
  sm_err : r_err s' = r_err s;
}.

Lemma same_refl s : same s s.
Proof. done. Qed.
Lemma same_trans s1 s2 s3 : same s1 s2 → same s2 s3 → same s1 s3.
Proof. intros [] []. split; congruence. Qed.

(** The line is now [l] and [r], and [out] was written. *)
Record edited (s s' : rl) (l r out : list Z) : Prop := {
  et_line : line_ok s' l r;
  et_same : same s s';
  et_out : r_out s' = r_out s ++ out;
}.

Lemma in_array_ok d p n : 0 ≤ p → 0 ≤ n → p + n ≤ zlen d → in_array d p n = true.
Proof. intros. unfold in_array. rewrite !andb_true_iff, !Z.leb_le. lia. Qed.

Section line.
Context (s : rl) (l r : list Z) (HL : line_ok s l r).

Lemma line_bounds : 0 ≤ zlen l ∧ 0 ≤ zlen r ∧ zlen l + zlen r < zlen (r_buf s).
Proof.
  destruct HL as [_ E _ F R]. pose proof (zlen_nonneg l). pose proof (zlen_nonneg r). lia.
Qed.

Lemma line_byte i : 0 ≤ i < zlen l + zlen r → byte (r_buf s) i = byte (l ++ r) i.
Proof.
  intros Hi. rewrite <- (lo_text _ _ _ HL), byte_slice by (rewrite ?(lo_end _ _ _ HL); lia). f_equal.
Qed.

Lemma line_left : slice (r_buf s) 0 (zlen l) = l.
Proof.
  pose proof line_bounds. apply byte_ext; [apply zlen_slice; lia|]. rewrite zlen_slice by lia. intros i Hi.
  rewrite byte_slice by lia. replace (0 + i) with i by lia. rewrite line_byte by lia. apply byte_app_l. lia.
Qed.

Lemma line_right : slice (r_buf s) (zlen l) (zlen r) = r.
Proof.
  pose proof line_bounds. apply byte_ext; [apply zlen_slice; lia|]. rewrite zlen_slice by lia. intros i Hi.
  rewrite byte_slice, line_byte, byte_app_r by lia. f_equal. lia.
Qed.
End line.

(** ** Output *)

Lemma wp_emit bs s (Q : unit → rl → Prop) : Q tt (set_out (r_out s ++ bs) s) → wp (emit bs) s Q.
Proof. done. Qed.

Lemma wp_rd p s (Q : Z → rl → Prop) : 0 ≤ p < zlen (r_buf s) → Q (byte (r_buf s) p) s → wp (rd p) s Q.
Proof. intros Hp HQ. unfold rd. apply wp_bind, wp_gets. by rewrite in_array_ok by lia. Qed.

Lemma wp_wr p c s (Q : unit → rl → Prop) :
  0 ≤ p < zlen (r_buf s) → Q tt (set_buf (splice (r_buf s) p [c]) s) → wp (wr p c) s Q.
Proof. intros Hp HQ. unfold wr. apply wp_bind, wp_gets. by rewrite in_array_ok by lia. Qed.

Lemma wp_mv d p n s (Q : unit → rl → Prop) :
  0 ≤ n → 0 ≤ d → d + n ≤ zlen (r_buf s) → 0 ≤ p → p + n ≤ zlen (r_buf s) →
  Q tt (set_buf (splice (r_buf s) d (slice (r_buf s) p n)) s) → wp (mv d p n) s Q.
Proof. intros. unfold mv. apply wp_bind, wp_gets. by rewrite !in_array_ok by lia. Qed.

Lemma set_out_out a b s : set_out a (set_out b s) = set_out a s.
Proof. done. Qed.

Lemma wp_quoted c s (Q : unit → rl → Prop) : Q tt (set_out (r_out s ++ vis c) s) → wp (quoted_putchar c) s Q.
Proof. unfold quoted_putchar, vis. by destruct (c <? 32). Qed.

Lemma line_slice_cons d p n : 0 ≤ p < zlen d → 0 < n → slice d p n = byte d p :: slice d (p + 1) (n - 1).
Proof.
  unfold slice, byte, zlen. intros Hp Hn. replace (Z.to_nat n) with (S (Z.to_nat (n - 1))) by lia.
  destruct (lookup_lt_is_Some_2 d (Z.to_nat p)) as [x Hx]; [lia|].
  rewrite (drop_S _ _ _ Hx). cbn [take]. rewrite nth_lookup, Hx. simpl. do 2 f_equal. f_equal. lia.
Qed.

Lemma slice_snoc d p n : 0 ≤ p → 0 < n → p + n ≤ zlen d → slice d p n = slice d p (n - 1) ++ [byte d (p + n - 1)].
Proof.
  intros Hp Hn Hd. apply byte_ext; [rewrite zlen_app, !zlen_slice by lia; unfold zlen; simpl; lia|].
  rewrite zlen_slice by lia. intros i Hi. rewrite byte_slice by lia. destruct (decide (i < n - 1)).
  - rewrite byte_app_l, byte_slice by (rewrite ?zlen_slice; lia). done.
  - rewrite byte_app_r by (rewrite zlen_slice; lia). rewrite zlen_slice by lia.
    replace (i - (n - 1)) with 0 by lia. unfold byte at 2. simpl. f_equal. lia.
Qed.

Lemma put_chars_ok n p s (Q : unit → rl → Prop) :
  0 ≤ p → p + Z.of_nat n ≤ zlen (r_buf s) →
  Q tt (set_out (r_out s ++ render (slice (r_buf s) p (Z.of_nat n))) s) → wp (put_chars n p) s Q.
Proof.
  revert p s. induction n as [|n IH]; intros p s Hp Hn HQ; cbn [put_chars].
  - apply wp_ret. change (slice (r_buf s) p (Z.of_nat 0)) with (@nil Z) in HQ. unfold render in HQ. simpl in HQ.
    rewrite app_nil_r in HQ. by destruct s.
  - apply wp_bind, wp_rd; [lia|]. apply wp_bind, wp_quoted. apply IH; [lia|simpl; lia|]. simpl.
    rewrite line_slice_cons in HQ by lia. replace (Z.of_nat (S n) - 1) with (Z.of_nat n) in HQ by lia.
    unfold render in *. simpl in HQ. by rewrite set_out_out, <- app_assoc.
Qed.

Lemma back_chars_ok n p s (Q : unit → rl → Prop) :
  0 ≤ p - Z.of_nat n → p ≤ zlen (r_buf s) →
  Q tt (set_out (r_out s ++ unrender (slice (r_buf s) (p - Z.of_nat n) (Z.of_nat n))) s) → wp (back_chars n p) s Q.
Proof.
  revert p s. induction n as [|n IH]; intros p s Hp Hn HQ; cbn [back_chars].
  - apply wp_ret. change (slice (r_buf s) _ (Z.of_nat 0)) with (@nil Z) in HQ. unfold unrender in HQ. simpl in HQ.
    rewrite app_nil_r in HQ. by destruct s.
  - apply wp_bind, wp_rd; [lia|]. apply wp_bind, wp_emit. apply IH; [lia|simpl; lia|]. simpl.
    rewrite slice_snoc in HQ by lia. replace (Z.of_nat (S n) - 1) with (Z.of_nat n) in HQ by lia.
    replace (p - Z.of_nat (S n) + Z.of_nat (S n) - 1) with (p - 1) in HQ by lia.
    replace (p - Z.of_nat (S n)) with (p - 1 - Z.of_nat n) in HQ by lia.
    unfold unrender in *. rewrite reverse_app in HQ. simpl in HQ. by rewrite set_out_out, <- app_assoc.
Qed.
