(* ===== verification/ReadlineEdit.v ===== *)
(** * The editing keys

    Each editing routine of lib/other/readline.c changes the line in memory as
    the abstract editor says, inside the array, and writes what it says. *)

From S2P Require Import Prelude Bytes Params KstringSpec Libstring LibstringSpec Readline ReadlineSpec.

Section edit.
Context (s : rl) (l r : list Z) (HL : line_ok s l r).

Lemma reprint_end_ok c (Q : unit → rl → Prop) :
  Q tt (set_out (r_out s ++ retype c r) s) → wp (reprint_end c) s Q.
Proof.
  intros HQ. pose proof (line_bounds _ _ _ HL) as Hb. pose proof HL as [_ Ee Ec _ _]. unfold reprint_end.
  apply wp_bind, wp_gets. unfold id. rewrite Ee, Ec. replace (zlen l + zlen r - zlen l) with (zlen r) by lia.
  apply wp_bind, put_chars_ok; [lia|lia|]. rewrite Z2Nat.id, (line_right _ _ _ HL) by lia.
  apply wp_bind, wp_emit. apply back_chars_ok; simpl; [lia|lia|]. rewrite Z2Nat.id by lia.
  replace (zlen l + zlen r - zlen r) with (zlen l) by lia. rewrite (line_right _ _ _ HL), !set_out_out.
  unfold retype, wipe in HQ. by rewrite <- !app_assoc.
Qed.

Lemma edited_refl : edited s s l r [].
Proof. split; [done|done|by rewrite app_nil_r]. Qed.
End edit.

Lemma edited_trans s1 s2 s3 l r l' r' o o' :
  edited s1 s2 l r o → edited s2 s3 l' r' o' → edited s1 s3 l' r' (o ++ o').
Proof.
  intros [L1 S1 O1] [L2 S2 O2]. split; [done|by eapply same_trans|]. by rewrite O2, O1, app_assoc.
Qed.

Lemma line_ok_out o s l r : line_ok s l r → line_ok (set_out o s) l r.
Proof. by intros []. Qed.

Lemma byte_cons c d i : 0 < i → byte (c :: d) i = byte d (i - 1).
Proof. intros Hi. unfold byte. by replace (Z.to_nat i) with (S (Z.to_nat (i - 1))) by lia. Qed.

Lemma zlen_single (c : Z) : zlen [c] = 1.
Proof. done. Qed.

(** Moving the cursor. *)
Lemma line_move s l r l' r' :
  line_ok s l r → l' ++ r' = l ++ r → line_ok (set_cursor (zlen l') s) l' r'.
Proof.
  intros [T E C F R] Eq. apply (f_equal zlen) in Eq as Ez. rewrite !zlen_app in Ez.
  split; simpl; try done; [by rewrite Eq|lia].
Qed.

(** The array after an insertion at the cursor. *)
Lemma line_inserted s l r c d :
  line_ok s l r → r_end s < r_bufend s → zlen d = zlen (r_buf s) →
  (∀ i, 0 ≤ i < zlen l + zlen r + 1 → byte d i = byte (l ++ c :: r) i) →
  line_ok (set_end (r_end s + 1) (set_cursor (r_cursor s + 1) (set_buf d s))) (l ++ [c]) r.
Proof.
  intros HL Hf Hd Hb. pose proof (line_bounds _ _ _ HL) as Hn. destruct HL as [T E C F R].
  split; cbn [set_end set_cursor set_buf r_buf r_end r_cursor r_bufend]; rewrite ?zlen_app; try (unfold zlen in *; simpl; lia).
  rewrite <- app_assoc. simpl. apply byte_ext.
  - rewrite zlen_slice, zlen_app by lia. unfold zlen in *. simpl. lia.
  - rewrite zlen_slice by lia. intros i Hi. rewrite byte_slice by lia. rewrite <- Hb by lia. f_equal.
Qed.

Lemma insert_bytes s l r c i : line_ok s l r → 0 ≤ i < zlen l + zlen r + 1 →
  byte (splice (splice (r_buf s) (zlen l + 1) (slice (r_buf s) (zlen l) (zlen r))) (zlen l) [c]) i = byte (l ++ c :: r) i.
Proof.
  intros HL Hi. pose proof (line_bounds _ _ _ HL) as Hb. set (m := slice (r_buf s) _ _).
  assert (m = r) as -> by by apply line_right. assert (zlen (splice (r_buf s) (zlen l + 1) r) = zlen (r_buf s)) as Em by (apply zlen_splice; lia).
  destruct (decide (i = zlen l)) as [->|Hne].
  - rewrite byte_splice_in, byte_app_r by (rewrite ?zlen_single; lia). by rewrite !Z.sub_diag.
  - rewrite byte_splice_out by (rewrite ?zlen_single; lia). destruct (decide (i < zlen l)).
    + rewrite byte_splice_out by lia. rewrite (line_byte _ _ _ HL), !byte_app_l by lia. done.
    + rewrite byte_splice_in, byte_app_r, byte_cons by lia. f_equal. lia.
Qed.

Lemma insert_char_ok s e c :
  line_ok s (e_left e) (e_right e) →
  wp (insert_char c) s (λ _ s', let e' := a_insert (r_bufend s) c e in
    edited s s' (e_left e') (e_right e') (o_insert (r_bufend s) c e)).
Proof.
  intros HL. set (l := e_left e) in *. set (r := e_right e) in *. pose proof (line_bounds _ _ _ HL) as Hb.
  pose proof HL as [T Ee Ec F R]. unfold insert_char, a_insert, o_insert, e_line. fold l r. rewrite zlen_app, <- Ee.
  apply wp_bind, wp_gets. unfold id. destruct (Z.ltb_spec (r_end s) (r_bufend s)) as [Hf|Hf].
  2:{ apply wp_ret. by apply edited_refl. }
  cbn [set_line e_left e_right]. fold r. destruct (Z.eqb_spec (r_cursor s) (r_end s)) as [Eq|Eq]; cbn [negb].
  - assert (r = []) as Er by (destruct r; [done|unfold zlen in *; simpl in *; lia]). rewrite Er in *.
    change (zlen []) with 0 in *. apply wp_bind, wp_wr; [lia|]. apply wp_bind, wp_modify. apply wp_bind, wp_modify. apply wp_quoted.
    rewrite decide_True, app_nil_r by done. split; [apply line_ok_out|split; try done; apply zlen_splice; rewrite ?zlen_single; lia|done].
    apply (line_inserted s l [] c); try done; [apply zlen_splice; rewrite ?zlen_single; lia|].
    change (zlen []) with 0. intros i Hi. destruct (decide (i = zlen l)) as [->|].
    + rewrite byte_splice_in, byte_app_r by (rewrite ?zlen_single; lia). f_equal. lia.
    + rewrite byte_splice_out by (rewrite ?zlen_single; lia).
      rewrite (line_byte _ _ _ HL), !byte_app_l by (change (zlen []) with 0; lia). done.
  - rewrite decide_False by (intros E; rewrite E in Ee; change (zlen []) with 0 in Ee; lia).
    assert (zlen (splice (r_buf s) (r_cursor s + 1) (slice (r_buf s) (r_cursor s) (r_end s - r_cursor s))) = zlen (r_buf s)) as Hm
      by (apply zlen_splice; rewrite ?zlen_slice; lia).
    apply wp_bind, wp_mv; [lia..|]. apply wp_bind, wp_wr; [cbn [set_buf r_buf]; lia|].
    apply wp_bind, wp_modify. apply wp_bind, wp_modify. apply wp_bind, wp_quoted. cbn [set_buf r_buf].
    set (d := splice (splice _ _ _) _ _).
    assert (zlen d = zlen (r_buf s)) as Hd.
    { unfold d. rewrite zlen_splice; rewrite ?Hm, ?zlen_single; lia. }
    assert (line_ok (set_end (r_end s + 1) (set_cursor (r_cursor s + 1) (set_buf d s))) (l ++ [c]) r) as HL'.
    { apply line_inserted; try done. intros i Hi. unfold d. rewrite Ec, Ee.
      replace (zlen l + zlen r - zlen l) with (zlen r) by lia. by apply (insert_bytes s l r c). }
    eapply (reprint_end_ok _ (l ++ [c]) r); [by apply line_ok_out|].
    split; [by do 2 apply line_ok_out|by split|]. simpl. by rewrite <- app_assoc.
Qed.

(** ** Erasing *)

Lemma take_last_split (l : list Z) c : last l = Some c → l = take (length l - 1) l ++ [c] ∧ zlen (take (length l - 1) l) = zlen l - 1.
Proof.
  intros Hc. apply last_Some in Hc as [t ->]. rewrite length_app. simpl.
  replace (length t + 1 - 1)%nat with (length t) by lia. rewrite take_app_length. split; [done|].
  rewrite zlen_app. unfold zlen. simpl. lia.
Qed.

Lemma bspace_ok s e : line_ok s (e_left e) (e_right e) → e_left e ≠ [] →
  wp bspace s (λ _ s', let e' := a_bspace e in edited s s' (e_left e') (e_right e') (o_bspace e)).
Proof.
  intros HL Hne. destruct (last (e_left e)) as [c|] eqn:Hc; [|by apply last_None in Hc].
  destruct (take_last_split _ _ Hc) as [El Ez]. unfold a_bspace, o_bspace. rewrite Hc. cbv zeta. cbn [set_line e_left e_right].
  set (l := take _ _) in *. set (r := e_right e) in *. rewrite El in HL. pose proof (line_bounds _ _ _ HL) as Hb.
  pose proof HL as [T Ee Ec F R]. rewrite zlen_app, zlen_single in *. unfold bspace.
  apply wp_bind, wp_gets. unfold id. replace (r_cursor s - 1) with (zlen l) by lia. apply wp_bind, wp_modify.
  pose proof (zlen_nonneg l) as Hl0. apply wp_bind, wp_rd; cbn [set_cursor r_buf]; [lia|].
  assert (byte (r_buf s) (zlen l) = c) as ->.
  { rewrite (line_byte _ _ _ HL) by (rewrite zlen_app, zlen_single; pose proof (zlen_nonneg l); lia). rewrite <- app_assoc.
    rewrite byte_app_r by lia. by rewrite Z.sub_diag. }
  apply wp_bind, wp_emit.
  apply wp_bind, wp_mv; cbn [set_out set_cursor r_buf]; [lia..|]. apply wp_bind, wp_modify.
  replace (r_end s - zlen l) with (zlen r + 1) by lia. replace (r_end s - 1) with (zlen l + zlen r) by lia.
  set (d := splice _ _ _). assert (zlen d = zlen (r_buf s)) as Hd by (apply zlen_splice; rewrite ?zlen_slice; lia).
  set (s1 := set_end _ _). assert (line_ok s1 l r) as HL'.
  { split; cbn; try lia. apply byte_ext; [rewrite zlen_slice, zlen_app by lia; done|].
    rewrite zlen_slice by lia. intros i Hi. rewrite byte_slice by lia. replace (0 + i) with i by lia.
    unfold d. destruct (decide (i < zlen l)).
    - rewrite byte_splice_out by (rewrite ?zlen_slice; lia).
      rewrite (line_byte _ _ _ HL), <- app_assoc, !byte_app_l by (rewrite ?zlen_app, ?zlen_single; lia). done.
    - rewrite byte_splice_in by (rewrite ?zlen_slice; lia). rewrite byte_slice by lia.
      rewrite (line_byte _ _ _ HL) by (rewrite ?zlen_app, ?zlen_single; lia).
      rewrite byte_app_r by (rewrite ?zlen_app, ?zlen_single; lia). rewrite zlen_app, zlen_single, byte_app_r by lia. f_equal. lia. }
  apply (reprint_end_ok s1 l r HL'). split; [by apply line_ok_out|by split|]. simpl. by rewrite <- app_assoc.
Qed.

(** [while (rl_cursor != rl_base) bspace();] *)
Lemma erase_left_ok s e : line_ok s (e_left e) (e_right e) →
  wp (loop (Z.to_nat (r_cursor s) + 1) (λ _ : unit,
      let* start := gets at_start in
      if start then ret (inr tt) else bspace ;; ret (inl tt)) tt) s
    (λ _ s', edited s s' [] (e_right e) (o_kill e)).
Proof.
  intros HL. set (l := e_left e) in *. set (r := e_right e) in *.
  apply (wp_loop _ (λ n _ s', edited s s' (take n l) r (mjoin ((λ c, bs c ++ retype c r) <$> reverse (drop n l))) ∧ (n ≤ length l)%nat))
    with (n := length l); [| |].
  - intros n [] s1 [Ed Hn]. apply wp_bind, wp_gets. pose proof (et_line _ _ _ _ _ Ed) as HL1.
    assert (at_start s1 = bool_decide (n = 0%nat)) as ->.
    { unfold at_start. rewrite (lo_cursor _ _ _ HL1). unfold zlen. rewrite length_take_le by done.
      destruct n; [done|]. by rewrite bool_decide_eq_false_2. }
    case_bool_decide as E; [subst n; by apply wp_ret|].
    set (e1 := mkEd (take n l) r [] None). assert (last (take n l) = Some (l !!! (n - 1)%nat)) as Hlast.
    { rewrite last_lookup, length_take_le by done. replace (pred n) with (n - 1)%nat by lia.
      rewrite lookup_take_lt by lia. apply list_lookup_lookup_total_lt. lia. }
    eapply wp_bind_mono; [apply (bspace_ok s1 e1 HL1)|].
    { intros E0. simpl in E0. by rewrite E0 in Hlast. }
    intros [] s2 Ed2. apply wp_ret. exists (n - 1)%nat. split; [lia|]. split; [|lia].
    unfold a_bspace, o_bspace in Ed2. cbn [e1 e_left e_right set_line] in Ed2. rewrite Hlast in Ed2.
    rewrite length_take_le, take_take in Ed2 by done. replace ((n - 1) `min` n)%nat with (n - 1)%nat in Ed2 by lia.
    pose proof (edited_trans _ _ _ _ _ _ _ _ _ Ed Ed2) as Ed3.
    erewrite (drop_S l _ (n - 1)) by (apply list_lookup_lookup_total_lt; lia).
    replace (S (n - 1)) with n by lia. rewrite reverse_cons, fmap_app, join_app. cbn [fmap list_fmap mjoin list_join].
    by rewrite app_nil_r.
  - rewrite (lo_cursor _ _ _ HL). unfold zlen. lia.
  - rewrite take_ge, drop_ge by done. split; [by apply edited_refl|done].
Qed.

(** ** Moving *)

Lemma moved s l r l' r' out : line_ok s l r → l' ++ r' = l ++ r →
  edited s (set_out (r_out s ++ out) (set_cursor (zlen l') s)) l' r' out.
Proof. intros HL E. split; [by eapply line_ok_out, line_move|done|done]. Qed.

Lemma forward_ok s e : line_ok s (e_left e) (e_right e) →
  wp (if r_cursor s <? r_end s then
        let* x := rd (r_cursor s) in modify (set_cursor (r_cursor s + 1)) ;; quoted_putchar x
      else ret tt) s
    (λ _ s', let e' := a_forward e in
      edited s s' (e_left e') (e_right e') (match e_right e with [] => [] | c :: _ => vis c end)).
Proof.
  intros HL. unfold a_forward. pose proof (line_bounds _ _ _ HL) as Hb. pose proof HL as [_ Ee Ec _ _].
  destruct (e_right e) as [|c r] eqn:Er.
  - rewrite (proj2 (Z.ltb_ge _ _)) by (change (zlen []) with 0 in Ee; lia). apply wp_ret. rewrite Er. by apply edited_refl.
  - assert (0 < zlen (c :: r)) by (unfold zlen; simpl; lia). rewrite (proj2 (Z.ltb_lt _ _)) by lia.
    apply wp_bind, wp_rd; [lia|]. apply wp_bind, wp_modify. apply wp_quoted.
    assert (byte (r_buf s) (r_cursor s) = c) as ->.
    { rewrite Ec, (line_byte _ _ _ HL), byte_app_r by lia. by rewrite Z.sub_diag. }
    replace (r_cursor s + 1) with (zlen (e_left e ++ [c])) by (rewrite zlen_app, zlen_single; lia).
    apply (moved s (e_left e) (c :: r) (e_left e ++ [c]) r (vis c)); [done|]. by rewrite <- app_assoc.
Qed.

Lemma backward_ok s e : line_ok s (e_left e) (e_right e) →
  wp (if r_cursor s >? 0 then
        let* x := rd (r_cursor s - 1) in modify (set_cursor (r_cursor s - 1)) ;; backspace x
      else ret tt) s
    (λ _ s', let e' := a_backward e in
      edited s s' (e_left e') (e_right e') (match last (e_left e) with None => [] | Some c => bs c end)).
Proof.
  intros HL. unfold a_backward. pose proof (line_bounds _ _ _ HL) as Hb. pose proof HL as [_ Ee Ec _ _].
  destruct (last (e_left e)) as [c|] eqn:El.
  - destruct (take_last_split _ _ El) as [Es Ez]. set (l := take _ _) in *. pose proof (zlen_nonneg l).
    rewrite (proj2 (Z.gtb_lt _ _)) by lia. apply wp_bind, wp_rd; [lia|]. apply wp_bind, wp_modify. apply wp_emit.
    assert (byte (r_buf s) (r_cursor s - 1) = c) as ->.
    { rewrite (line_byte _ _ _ HL) by lia. rewrite Es, <- app_assoc, byte_app_r by lia. by replace (r_cursor s - 1 - zlen l) with 0 by lia. }
    replace (r_cursor s - 1) with (zlen l) by lia. apply (moved s (e_left e) (e_right e) l (c :: e_right e) (bs c)); [done|]. rewrite Es at 1. by rewrite <- app_assoc.
  - apply last_None in El. rewrite El in Ec. change (zlen []) with 0 in Ec. rewrite Ec. apply wp_ret. by apply edited_refl.
Qed.

Lemma end_ok s e : line_ok s (e_left e) (e_right e) →
  wp (put_chars (Z.to_nat (r_end s - r_cursor s)) (r_cursor s) ;; modify (set_cursor (Z.max (r_cursor s) (r_end s)))) s
    (λ _ s', edited s s' (e_line e) [] (render (e_right e))).
Proof.
  intros HL. pose proof (line_bounds _ _ _ HL) as Hb. pose proof HL as [_ Ee Ec _ _].
  rewrite Ee, Ec. replace (zlen (e_left e) + zlen (e_right e) - zlen (e_left e)) with (zlen (e_right e)) by lia.
  apply wp_bind, put_chars_ok; [lia|lia|]. rewrite Z2Nat.id, (line_right _ _ _ HL) by lia. apply wp_modify.
  rewrite Z.max_r by lia. unfold e_line. rewrite <- zlen_app. apply (moved s (e_left e) (e_right e) _ [] (render (e_right e))); [done|]. by rewrite app_nil_r.
Qed.

Lemma home_ok s e : line_ok s (e_left e) (e_right e) →
  wp (back_chars (Z.to_nat (r_cursor s)) (r_cursor s) ;; modify (set_cursor 0)) s
    (λ _ s', edited s s' [] (e_line e) (unrender (e_left e))).
Proof.
  intros HL. pose proof (line_bounds _ _ _ HL) as Hb. pose proof HL as [_ Ee Ec _ _]. rewrite Ec.
  apply wp_bind, back_chars_ok; [lia|lia|]. rewrite Z2Nat.id, Z.sub_diag, (line_left _ _ _ HL) by lia.
  apply wp_modify. by apply (moved s (e_left e) (e_right e) [] (e_line e) (unrender (e_left e))).
Qed.

(** ** Completion *)

Lemma edited_cap s s' l r o : edited s s' l r o → r_bufend s' = r_bufend s.
Proof. intros [_ [E _ _ _ _ _] _]. done. Qed.

Lemma insert_all_ok cs s e : line_ok s (e_left e) (e_right e) →
  wp (insert_all cs) s (λ _ s', let e' := a_inserts (r_bufend s) cs e in
    edited s s' (e_left e') (e_right e') (o_inserts (r_bufend s) cs e)).
Proof.
  revert s e. induction cs as [|c cs IH]; intros s e HL; cbn [insert_all a_inserts o_inserts].
  - apply wp_ret. by apply edited_refl.
  - eapply wp_bind_mono; [by apply insert_char_ok|]. intros [] s1 Ed. pose proof (edited_cap _ _ _ _ _ Ed) as Ecap.
    eapply wp_mono; [apply IH, Ed|]. intros [] s2. rewrite Ecap. intros Ed2. by eapply edited_trans.
Qed.

Lemma a_inserts_app cap cs ds e : a_inserts cap (cs ++ ds) e = a_inserts cap ds (a_inserts cap cs e).
Proof. revert e. induction cs as [|c cs IH]; intros e; [done|]. simpl. apply IH. Qed.
Lemma o_inserts_app cap cs ds e : o_inserts cap (cs ++ ds) e = o_inserts cap cs e ++ o_inserts cap ds (a_inserts cap cs e).
Proof. revert e. induction cs as [|c cs IH]; intros e; [done|]. simpl. by rewrite IH, app_assoc. Qed.

Lemma find_word_ok n s : (n < length (r_buf s))%nat →
  wp (find_word n (Z.of_nat n)) s (λ p s', p = Z.of_nat (word_start (r_buf s) n) ∧ s' = s).
Proof.
  induction n as [|n IH]; intros Hn; cbn [find_word word_start]; [by apply wp_ret|].
  apply wp_bind, wp_rd; [unfold zlen; lia|]. destruct (_ =? 32); [apply wp_ret; split; [lia|done]|].
  replace (Z.of_nat (S n) - 1) with (Z.of_nat n) by lia. apply IH. lia.
Qed.

Lemma word_start_ext d d' n : (∀ i, 0 < i ≤ Z.of_nat n → byte d i = 32 ↔ byte d' i = 32) → word_start d n = word_start d' n.
Proof.
  induction n as [|n IH]; intros H; [done|]. cbn [word_start]. specialize (IH ltac:(intros; apply H; lia)).
  pose proof (H (Z.of_nat (S n)) ltac:(lia)) as E.
  destruct (Z.eqb_spec (byte d (Z.of_nat (S n))) 32), (Z.eqb_spec (byte d' (Z.of_nat (S n))) 32); tauto.
Qed.

Lemma word_start_le d n : (word_start d n ≤ n + 1)%nat.
Proof. induction n as [|n IH]; simpl; [lia|]. destruct (_ =? 32); lia. Qed.

Lemma find_match_ext dup_ok f f' entries m : cstr f = cstr f' → find_match dup_ok f entries m = find_match dup_ok f' entries m.
Proof.
  intros E. assert (strlen f = strlen f') as El by (rewrite !strlen_length; by rewrite E).
  revert m. induction entries as [|d entries IH]; intros m; [done|]. cbn [find_match].
  assert ((strncmp f d (strlen f) =? 0) = (strncmp f' d (strlen f') =? 0)) as ->.
  { unfold strncmp. rewrite El. apply eq_true_iff_eq. by rewrite !Z.eqb_eq, !strncmp_loop_zero, E. }
  rewrite El, !IH. destruct (byte d 0 =? 0); [done|]. destruct (_ =? 0); [|done]. by destruct m.
Qed.

Lemma cstr_stop a b : cstr (a ++ 0 :: b) = cstr a.
Proof. induction a as [|x a IH]; [done|]. simpl. destruct (x =? 0); [done|]. by rewrite IH. Qed.

(** The line after [*rl_cursor = 0]. *)
Lemma clobber_ok s e : line_ok s (e_left e) (e_right e) →
  let s1 := set_buf (splice (r_buf s) (r_cursor s) [0]) s in
  edited s s1 (e_left e) (e_right (a_clobber e)) [] ∧ ∃ rest, r_buf s1 = e_left e ++ 0 :: rest.
Proof.
  intros HL s1. pose proof (line_bounds _ _ _ HL) as Hb. pose proof HL as [T Ee Ec F R].
  assert (zlen (splice (r_buf s) (r_cursor s) [0]) = zlen (r_buf s)) as Hz by (apply zlen_splice; rewrite ?zlen_single; lia).
  split.
  - split; [|by split|by rewrite app_nil_r]. unfold a_clobber. destruct (e_right e) as [|c r] eqn:Er.
    + rewrite Er. split; cbn [s1 set_buf r_buf r_end r_cursor r_bufend]; try done; [|lia]. rewrite <- T.
      apply slice_splice_other; rewrite ?zlen_single; change (zlen []) with 0 in *; lia.
    + assert (zlen (c :: r) = 1 + zlen r) as Ezc by (unfold zlen; simpl; lia). pose proof (zlen_nonneg r). cbn [set_line e_right].
      assert (zlen (0 :: r) = 1 + zlen r) as Ez0 by (unfold zlen; simpl; lia).
      split; cbn [s1 set_buf r_buf r_end r_cursor r_bufend]; try done; try lia.
      apply byte_ext; [rewrite zlen_slice, zlen_app by lia; lia|]. rewrite zlen_slice by lia. intros i Hi.
      rewrite byte_slice by lia. replace (0 + i) with i by lia. destruct (decide (i = zlen (e_left e))) as [->|Hne].
      * rewrite byte_splice_in, byte_app_r by (rewrite ?zlen_single; lia). by rewrite Ec, !Z.sub_diag.
      * rewrite byte_splice_out by (rewrite ?zlen_single; lia). rewrite (line_byte _ _ _ HL) by lia.
        destruct (decide (i < zlen (e_left e))); [by rewrite !byte_app_l by lia|].
        rewrite !byte_app_r by lia. rewrite !byte_cons by lia. done.
  - exists (drop (Z.to_nat (r_cursor s) + 1) (r_buf s)). simpl. unfold splice. f_equal.
    pose proof (line_left _ _ _ HL) as El. unfold slice in El. rewrite Ec. exact El.
Qed.

Lemma word_of_line l rest : word_start (l ++ 0 :: rest) (length l) = word_start l (length l).
Proof.
  apply word_start_ext. intros i Hi. destruct (decide (i < zlen l)) as [H|H]; [by rewrite byte_app_l by lia|].
  unfold zlen in H. assert (i = zlen l) as -> by (unfold zlen; lia). rewrite byte_app_r, Z.sub_diag by lia.
  assert (byte l (zlen l) = 0) as -> by (unfold byte, zlen; apply nth_overflow; lia). done.
Qed.

Lemma word_start_inside l : (word_start l (length l) ≤ length l)%nat.
Proof.
  destruct l as [|x l]; [done|]. cbn [length word_start]. destruct (Z.eqb_spec (byte (x :: l) (Z.of_nat (S (length l)))) 32) as [E|E].
  - unfold byte in E. rewrite nth_overflow in E by (simpl; lia). done.
  - pose proof (word_start_le (x :: l) (length l)). lia.
Qed.

Lemma tab_complete_ok listing dup_ok s e : line_ok s (e_left e) (e_right e) →
  wp (tab_complete listing dup_ok) s (λ _ s', let e' := a_tab listing dup_ok (r_bufend s) e in
    edited s s' (e_left e') (e_right e') (o_tab listing dup_ok (r_bufend s) e)).
Proof.
  intros HL. pose proof (line_bounds _ _ _ HL) as Hb. pose proof HL as [T Ee Ec F R].
  destruct (clobber_ok s e HL) as [Ed1 [rest Eb]]. unfold tab_complete. apply wp_bind, wp_gets.
  apply wp_bind, wp_wr; [lia|]. set (s1 := set_buf _ s) in *. rewrite Ec.
  eapply wp_bind_mono; [unfold zlen at 2; rewrite <- (Nat2Z.id (length (e_left e))) at 1; fold (zlen (e_left e))|].
  { unfold zlen. rewrite Nat2Z.id. apply find_word_ok. rewrite Eb, length_app. simpl. lia. }
  intros p s2 [-> ->]. apply wp_bind, wp_gets. rewrite Eb, word_of_line, Nat2Z.id.
  set (l := e_left e) in *. pose proof (word_start_inside l) as Hw. rewrite drop_app_le by done. fold (word l).
  assert (cstr (word l ++ 0 :: rest) = cstr (word l)) as Ecs by apply cstr_stop.
  assert (strlen (word l ++ 0 :: rest) = strlen (word l)) as -> by (rewrite !strlen_length; by rewrite Ecs).
  set (e1 := a_clobber e) in *. assert (e_left e1 = l) as El1 by (unfold e1, a_clobber; by destruct (e_right e)).
  pose proof (et_line _ _ _ _ _ Ed1) as HL1. fold l in HL1. rewrite <- El1 in HL1.
  assert (r_bufend s1 = r_bufend s) as Ecap by done.
  unfold a_tab, o_tab, completion. fold l e1. destruct (strlen (word l) =? 0); [apply wp_ret; simpl; by rewrite El1|].
  destruct listing as [entries|]; [|apply wp_ret; simpl; by rewrite El1].
  rewrite (find_match_ext _ _ (word l)) by done. destruct (find_match dup_ok (word l) entries None) as [m|]; [|apply wp_ret; simpl; by rewrite El1].
  eapply wp_bind_mono; [by apply insert_all_ok|]. intros [] s2 Ed2. pose proof (edited_cap _ _ _ _ _ Ed2) as Ecap2.
  eapply wp_mono; [apply insert_char_ok, Ed2|]. intros [] s3 Ed3. rewrite Ecap2, Ecap in Ed3. rewrite Ecap in Ed2.
  pose proof (edited_trans _ _ _ _ _ _ _ _ _ Ed1 (edited_trans _ _ _ _ _ _ _ _ _ Ed2 Ed3)) as Ed.
  cbv zeta. rewrite a_inserts_app, o_inserts_app. simpl in *. by rewrite app_nil_r.
Qed.
