(* ===== verification/ReadlineHist.v ===== *)
(** * The history of the line editor

    The lines of the history lie one after the other in the history buffer;
    hptr and hlen say where.  Adding a line drops the oldest ones until it
    fits. *)

From S2P Require Import Prelude Bytes Params KstringSpec Libstring LibstringSpec Readline ReadlineSpec ReadlineEdit.

Record hist_ok (h : hist) (H : list (list Z)) : Prop := {
  ho_on : h_on h = true;
  ho_arrays : length (h_ptr h) = 8%nat ∧ length (h_len h) = 8%nat;
  ho_cnt : h_cnt h = zlen H ∧ zlen H ≤ MAX_HIST;
  ho_size : zlen (h_data h) = h_bufend h;
  ho_end : h_end h = total H ∧ total H < h_bufend h;
  ho_data : slice (h_data h) 0 (h_end h) = mjoin H;
  ho_entry : ∀ i x, H !! i = Some x → h_ptr h !!! i = total (take i H) ∧ h_len h !!! i = zlen x;
}.

Lemma total_cons x T : total (x :: T) = zlen x + total T.
Proof. unfold total. simpl. apply zlen_app. Qed.
Lemma total_snoc T x : total (T ++ [x]) = total T + zlen x.
Proof. unfold total. rewrite join_app, zlen_app. simpl. by rewrite app_nil_r. Qed.
Lemma hist_total_nonneg T : 0 ≤ total T.
Proof. apply zlen_nonneg. Qed.

Lemma zlen_cons {A} (x : A) l : zlen (x :: l) = zlen l + 1.
Proof. unfold zlen. simpl. lia. Qed.

(** The oldest line removed. *)
Lemma history_shift_ok h x T : hist_ok h (x :: T) → 0 ≤ h_p h →
  ∃ h', history_shift h = Some h' ∧ hist_ok h' T ∧ h_p h' = Z.max 0 (h_p h - 1) ∧ h_bufend h' = h_bufend h.
Proof.
  intros [On [Lp Ll] [Cn Cm] Sz [Ee Et] Da En] Hp. destruct (En 0%nat x eq_refl) as [_ E0].
  rewrite total_cons, zlen_cons in *. pose proof (hist_total_nonneg T). pose proof (zlen_nonneg x). pose proof (zlen_nonneg T).
  unfold history_shift. rewrite E0, Ee. replace (zlen x + total T - zlen x) with (total T) by lia.
  rewrite !in_array_ok by lia. cbn [andb]. eexists. split; [done|].
  assert (slice (h_data h) (zlen x) (total T) = mjoin T) as Es.
  { apply byte_ext; [rewrite zlen_slice by lia; done|]. rewrite zlen_slice by lia. intros i Hi. rewrite byte_slice by lia.
    assert (byte (slice (h_data h) 0 (h_end h)) (zlen x + i) = byte (mjoin (x :: T)) (zlen x + i)) as E by by rewrite Da.
    rewrite byte_slice in E by lia. simpl in E. rewrite byte_app_r in E by lia.
    replace (zlen x + i - zlen x) with i in E by lia. exact E. }
  split_and!; cbn; [split; cbn|destruct (Z.eqb_spec (h_p h) 0); lia|done].
  - done.
  - rewrite !length_app, length_map, !length_tl, Lp, Ll. done.
  - rewrite u8_small by (unfold MAX_HIST in *; lia). unfold MAX_HIST in *. lia.
  - rewrite zlen_splice; rewrite ?zlen_slice; lia.
  - lia.
  - rewrite Es. apply slice_splice_same; [lia|fold (total T); lia|done].
  - intros i y Hy. destruct (En (S i) y Hy) as [E1 E2]. pose proof (lookup_lt_Some _ _ _ Hy) as Hi. unfold zlen, MAX_HIST in Cm.
    cbn [take] in E1. rewrite total_cons in E1. destruct (h_ptr h) as [|p ps]; [done|]. destruct (h_len h) as [|n ns]; [done|].
    simpl in Lp, Ll, E1, E2. cbn [tail]. split.
    + rewrite lookup_total_app_l by (rewrite length_map; lia). destruct (lookup_lt_is_Some_2 ps i) as [q Hq]; [lia|].
      rewrite (list_lookup_total_correct _ _ _ Hq) in E1. apply list_lookup_total_correct. rewrite list_lookup_fmap, Hq. simpl. f_equal. lia.
    + by rewrite lookup_total_app_l by lia.
Qed.

(** ** Dropping until a line fits *)

Lemma fit_suffix hcap n H : ∃ T, H = T ++ fit hcap n H.
Proof.
  induction H as [|x H IH]; [by exists []|]. cbn [fit]. destruct (_ || _); [|by exists []].
  destruct IH as [T E]. exists (x :: T). simpl. by rewrite <- E.
Qed.

Lemma fit_room hcap n H : n < hcap → zlen H ≤ MAX_HIST → zlen (fit hcap n H) < MAX_HIST ∧ total (fit hcap n H) + n < hcap.
Proof.
  intros Hn. induction H as [|x H IH]; intros Hz; [by split|]. cbn [fit].
  destruct (Z.eqb_spec (zlen (x :: H)) MAX_HIST), (Z.geb_spec (total (x :: H) + n) hcap); cbn [orb];
    try (apply IH; rewrite zlen_cons in Hz; lia). split; lia.
Qed.

(** The last line stays if there is room for it and the new one. *)
Lemma fit_keeps hcap n H x : zlen (H ++ [x]) ≤ MAX_HIST → zlen x + n < hcap → last (fit hcap n (H ++ [x])) = Some x.
Proof.
  intros Hz Hn. induction H as [|y H IH].
  - cbn [app fit]. rewrite total_cons. change (total []) with 0. change (zlen [x]) with 1.
    rewrite (proj2 (Z.eqb_neq 1 MAX_HIST)) by done. rewrite Z.geb_leb, (proj2 (Z.leb_gt _ _)) by lia. done.
  - cbn [app fit]. destruct (_ || _); [|by rewrite app_comm_cons, last_snoc].
    apply IH. cbn [app] in Hz. rewrite zlen_cons in Hz. lia.
Qed.

(** Bytes put after the bytes of interest. *)
Lemma slice_append d a x : slice d 0 (zlen a) = a → zlen a + zlen x ≤ zlen d →
  slice (splice d (zlen a) x) 0 (zlen a + zlen x) = a ++ x.
Proof.
  intros Ha Hd. pose proof (zlen_nonneg a). pose proof (zlen_nonneg x).
  assert (zlen (splice d (zlen a) x) = zlen d) as Hz by (apply zlen_splice; lia).
  apply byte_ext; [rewrite zlen_slice, zlen_app by lia; done|]. rewrite zlen_slice by lia. intros i Hi.
  rewrite byte_slice by lia. replace (0 + i) with i by lia. destruct (decide (i < zlen a)).
  - rewrite byte_splice_out, byte_app_l by lia.
    assert (byte (slice d 0 (zlen a)) i = byte a i) as E by by rewrite Ha. by rewrite byte_slice in E by lia.
  - by rewrite byte_splice_in, byte_app_r by lia.
Qed.

Section add.
Context (s : rl) (l r : list Z) (HL : line_ok s l r).
Context (H : list (list Z)) (HH : hist_ok (r_hist s) H) (Hp : 0 ≤ h_p (r_hist s)).
Let hcap := h_bufend (r_hist s).
Context (Hfit : zlen l + zlen r < hcap).

(** The loop of history_add(). *)
Lemma history_loop_ok :
  wp (loop (Z.to_nat (h_cnt (r_hist s)) + 1) (λ _ : unit,
      let* h := gets r_hist in
      if (h_cnt h =? MAX_HIST) || (h_end h + r_end s >=? h_bufend h) then
        match history_shift h with
        | Some h => modify (set_hist h) ;; ret (inl tt)
        | None => fault "history"
        end
      else ret (inr tt)) tt) s
    (λ _ s', ∃ h', s' = set_hist h' s ∧ hist_ok h' (fit hcap (r_end s) H) ∧ h_bufend h' = hcap ∧
      h_p h' = Z.max 0 (h_p (r_hist s) - (zlen H - zlen (fit hcap (r_end s) H)))).
Proof.
  apply (wp_loop _ (λ n _ s', ∃ h' K, s' = set_hist h' s ∧ n = length K ∧ hist_ok h' K ∧ h_bufend h' = hcap ∧
    fit hcap (r_end s) K = fit hcap (r_end s) H ∧ zlen K ≤ zlen H ∧ h_p h' = Z.max 0 (h_p (r_hist s) - (zlen H - zlen K))))
    with (n := length H).
  - intros n [] s1 (h & K & -> & -> & HK & Eb & Ef & Hz & Ep). apply wp_bind, wp_gets. cbn [set_hist r_hist].
    pose proof (ho_cnt _ _ HK) as [Ec _]. pose proof (ho_end _ _ HK) as [Ee _]. rewrite Ec, Ee, Eb.
    destruct K as [|x K].
    + pose proof (lo_end _ _ _ HL) as El. change (total []) with 0. change (zlen []) with 0 at 1.
      rewrite (proj2 (Z.eqb_neq 0 MAX_HIST)), Z.geb_leb, (proj2 (Z.leb_gt hcap _)) by (done || lia). cbn [orb].
      apply wp_ret. exists h. rewrite <- Ef. cbn [fit]. by split_and!.
    + cbn [fit] in Ef. destruct (_ || _).
      * destruct (history_shift_ok h x K HK) as (h1 & E1 & HK1 & Ep1 & Eb1); [lia|]. rewrite E1.
        apply wp_bind, wp_modify. apply wp_ret. exists (length K). rewrite zlen_cons in *. split; [simpl; lia|].
        exists h1, K. split_and!; try done; [congruence|lia|lia].
      * apply wp_ret. exists h. rewrite <- Ef. by split_and!.
  - destruct (ho_cnt _ _ HH) as [-> _]. unfold zlen. lia.
  - exists (r_hist s), H. split_and!; try done; [by destruct s|lia].
Qed.

(** history_add(). *)
Lemma history_add_ok :
  wp history_add s (λ _ s', ∃ h', s' = set_hist h' s ∧ hist_ok h' (a_add hcap (l ++ r) H) ∧ h_bufend h' = hcap ∧
    h_p h' = Z.max 0 (h_p (r_hist s) - dropped hcap (l ++ r) H)).
Proof.
  unfold history_add. apply wp_bind, wp_gets. rewrite (ho_on _ _ HH). cbn [negb]. apply wp_bind, wp_gets. apply wp_bind, wp_gets.
  eapply wp_bind_mono; [apply history_loop_ok|]. intros [] s1 (h & -> & HK & Eb & Ep).
  pose proof (line_bounds _ _ _ HL) as Hb. pose proof HL as [T El Ec F R].
  assert (r_end s = zlen (l ++ r)) as Er by (rewrite zlen_app; lia). rewrite Er in *. unfold dropped, a_add.
  destruct (fit_room hcap (zlen (l ++ r)) H) as [Hm Ht]; [lia|apply HH|]. set (K := fit _ _ _) in *.
  pose proof HK as [On [Lp Ll] [Cn Cm] Sz [Ee Et] Da En]. pose proof (zlen_nonneg K). pose proof (zlen_nonneg (l ++ r)).
  apply wp_bind, wp_gets. unfold id. cbn [set_hist r_hist r_buf]. rewrite T, Cn, Ee.
  rewrite !in_array_ok by (rewrite ?zlen_app in *; pose proof (hist_total_nonneg K); lia).
  rewrite (proj2 (Z.ltb_lt _ _)) by done. cbn [andb]. apply wp_modify. eexists. split; [done|]. split_and!; [|done|done].
  pose proof (hist_total_nonneg K) as Hk0. unfold MAX_HIST in *. split; cbn.
  - done.
  - by rewrite !length_insert.
  - rewrite u8_small by lia. rewrite zlen_app, zlen_cons. change (zlen (@nil (list Z))) with 0. unfold MAX_HIST. lia.
  - rewrite zlen_splice; lia.
  - rewrite total_snoc. lia.
  - rewrite join_app. cbn [mjoin list_join]. rewrite app_nil_r. apply (slice_append (h_data h) (mjoin K)).
    + rewrite Ee in Da. exact Da.
    + fold (total K). lia.
  - intros i x Hi. assert (length K = Z.to_nat (zlen K)) as EK by (unfold zlen; lia). rewrite <- EK.
    destruct (decide (i = length K)) as [->|Hne].
    + rewrite list_lookup_middle in Hi by done. injection Hi as <-. rewrite take_app_length.
      rewrite !list_lookup_total_insert_eq by lia. done.
    + pose proof (lookup_lt_Some _ _ _ Hi) as Hl. rewrite length_app in Hl. simpl in Hl.
      rewrite lookup_app_l in Hi by lia. rewrite !list_lookup_total_insert_ne, take_app_le by lia. by apply En.
Qed.
End add.

(** ** Dropping the last line, and showing one *)

Lemma drop_last_snoc T x : drop_last (T ++ [x]) = T.
Proof. unfold drop_last. rewrite length_app. simpl. replace (length T + 1 - 1)%nat with (length T) by lia. apply take_app_length. Qed.

Lemma history_droplast_ok s T x : hist_ok (r_hist s) (T ++ [x]) →
  wp history_droplast s (λ _ s', ∃ h', s' = set_hist h' s ∧ hist_ok h' T ∧
    h_bufend h' = h_bufend (r_hist s) ∧ h_p h' = h_p (r_hist s)).
Proof.
  intros [On [Lp Ll] [Cn Cm] Sz [Ee Et] Da En]. rewrite zlen_app, zlen_cons, total_snoc in *. change (zlen (@nil (list Z))) with 0 in *.
  pose proof (zlen_nonneg T). pose proof (zlen_nonneg x). pose proof (hist_total_nonneg T). unfold MAX_HIST in *.
  unfold history_droplast. apply wp_bind, wp_gets. rewrite Cn, u8_small by lia. replace (zlen T + (0 + 1) - 1) with (zlen T) by lia.
  unfold MAX_HIST. rewrite (proj2 (Z.ltb_lt _ _)) by lia. apply wp_modify. eexists. split; [done|].
  destruct (En (length T) x) as [_ Ex]; [by apply list_lookup_middle|].
  replace (Z.to_nat (zlen T)) with (length T) by (unfold zlen; lia). rewrite Ex, Ee.
  split_and!; [split; cbn|done|done]; try done; unfold MAX_HIST; try lia.
  - replace (total T + zlen x - zlen x) with (total T) by lia. rewrite join_app in Da. cbn [mjoin list_join] in Da. rewrite app_nil_r, Ee in Da.
    apply byte_ext; [rewrite zlen_slice by lia; done|]. rewrite zlen_slice by lia. intros i Hi.
    assert (byte (slice (h_data (r_hist s)) 0 (total T + zlen x)) i = byte (mjoin T ++ x) i) as E by by rewrite Da.
    rewrite byte_slice in E by lia. rewrite byte_slice by lia. by rewrite E, byte_app_l by done.
  - intros i y Hy. pose proof (lookup_lt_Some _ _ _ Hy). destruct (En i y) as [E1 E2]; [by rewrite lookup_app_l by lia|].
    by rewrite take_app_le in E1 by lia.
Qed.

Lemma history_replace_ok s l r T x :
  line_ok s l r → hist_ok (r_hist s) (T ++ [x]) → 0 ≤ h_p (r_hist s) → zlen l + zlen r < h_bufend (r_hist s) →
  wp history_replace s (λ _ s', ∃ h', s' = set_hist h' s ∧ hist_ok h' (a_add (h_bufend (r_hist s)) (l ++ r) T) ∧
    h_bufend h' = h_bufend (r_hist s) ∧
    h_p h' = Z.max 0 (h_p (r_hist s) - dropped (h_bufend (r_hist s)) (l ++ r) T)).
Proof.
  intros HL HH Hp Hf. unfold history_replace. eapply wp_bind_mono; [by eapply history_droplast_ok|].
  intros [] s1 (h & -> & HK & Eb & Ep). eapply wp_mono; [apply (history_add_ok (set_hist h s) l r)|].
  - by destruct HL.
  - exact HK.
  - cbn. lia.
  - cbn. lia.
  - intros [] s2 (h2 & -> & HK2 & Eb2 & Ep2). cbn [set_hist r_hist] in *. rewrite Eb in *. rewrite Ep in Ep2. by exists h2.
Qed.

Lemma history_set_ok s H y : hist_ok (r_hist s) H → 0 ≤ h_p (r_hist s) → H !! Z.to_nat (h_p (r_hist s)) = Some y →
  0 ≤ r_bufend s < zlen (r_buf s) →
  wp history_set s (λ _ s', line_ok s' (take (Z.to_nat (r_bufend s)) y) [] ∧ same s s' ∧ r_out s' = r_out s).
Proof.
  intros HH Hp Hy Hb. pose proof HH as [On _ [Cn Cm] Sz [Ee Et] Da En]. destruct (En _ _ Hy) as [E1 E2].
  unfold history_set. apply wp_bind, wp_gets. unfold id. rewrite E1, E2. set (i := Z.to_nat (h_p (r_hist s))) in *.
  set (n := if zlen y >? r_bufend s then r_bufend s else zlen y). set (t := take (Z.to_nat (r_bufend s)) y).
  assert (zlen t = n) as Et'. { unfold t, n, zlen. rewrite length_take. destruct (Z.gtb_spec (Z.of_nat (length y)) (r_bufend s)); lia. }
  assert (0 ≤ n ≤ zlen y ∧ n ≤ r_bufend s) as [Hn1 Hn2].
  { pose proof (zlen_nonneg y). unfold n. destruct (Z.gtb_spec (zlen y) (r_bufend s)); lia. }
  pose proof (hist_total_nonneg (take i H)) as Hp0.
  assert (mjoin H = mjoin (take i H) ++ y ++ mjoin (drop (S i) H)) as EM.
  { rewrite <- (take_drop_middle H i y Hy) at 1. by rewrite join_app. }
  assert (total H = total (take i H) + zlen y + total (drop (S i) H)) as EH.
  { unfold total. rewrite EM, !zlen_app. lia. }
  pose proof (hist_total_nonneg (drop (S i) H)) as Hd0.
  assert (slice (h_data (r_hist s)) (total (take i H)) n = t) as Es.
  { apply byte_ext; [rewrite zlen_slice by lia; done|]. rewrite zlen_slice by lia. intros j Hj. rewrite byte_slice by lia.
    assert (byte (slice (h_data (r_hist s)) 0 (h_end (r_hist s))) (total (take i H) + j) = byte (mjoin H) (total (take i H) + j)) as E by by rewrite Da.
    rewrite byte_slice in E by lia. rewrite EM in E.
    rewrite byte_app_r in E by (unfold total; lia). fold (total (take i H)) in E.
    rewrite Z.add_simpl_l, byte_app_l in E by lia.
    rewrite Z.add_0_l in E. rewrite E. unfold t, byte. symmetry. apply nth_take_lt. lia. }
  rewrite !in_array_ok by lia. cbn [andb]. wp_steps.
  assert (zlen (splice (r_buf s) 0 (slice (h_data (r_hist s)) (total (take i H)) n)) = zlen (r_buf s)) as Hz
    by (apply zlen_splice; rewrite ?Es; lia).
  split; [|by split]. split; cbn; rewrite ?app_nil_r, ?Hz, ?Et'; try lia; try (change (zlen []) with 0; lia).
  rewrite Es. apply slice_splice_same; lia.
Qed.

(** ** The editor and its history in memory *)

Record edit_ok (s : rl) (e : ed) : Prop := {
  eo_line : line_ok s (e_left e) (e_right e);
  eo_hist : if h_on (r_hist s)
            then hist_ok (r_hist s) (e_hist e) ∧ 2 * r_bufend s < h_bufend (r_hist s) ∧
                 Forall (λ x, zlen x ≤ r_bufend s) (e_hist e)
            else e_hist e = [] ∧ e_at e = None;
  eo_p : 0 ≤ h_p (r_hist s);
  eo_at : match e_at e with
          | None => r_inhist s = false
          | Some p => r_inhist s = true ∧ h_p (r_hist s) = Z.of_nat p ∧ (p < length (e_hist e))%nat
          end;
}.

(** What a key leaves alone. *)
Record keeps (s s' : rl) : Prop := {
  kp_bufend : r_bufend s' = r_bufend s;
  kp_room : zlen (r_buf s') = zlen (r_buf s);
  kp_tty : r_tty s' = r_tty s;
  kp_err : r_err s' = r_err s;
  kp_on : h_on (r_hist s') = h_on (r_hist s);
  kp_hcap : h_bufend (r_hist s') = h_bufend (r_hist s);
}.

Lemma rl_keeps_refl s : keeps s s.
Proof. done. Qed.
Lemma rl_keeps_trans s1 s2 s3 : keeps s1 s2 → keeps s2 s3 → keeps s1 s3.
Proof. intros [] []. split; congruence. Qed.
Lemma same_keeps s s' : same s s' → keeps s s'.
Proof. intros [E1 E2 _ E3 E4 E5]. split; [done..| |]; by rewrite E3. Qed.

(** The editing keys keep the history. *)
Lemma edited_ok s s' e l r out : edit_ok s e → edited s s' l r out →
  edit_ok s' (set_line l r e) ∧ keeps s s' ∧ r_out s' = r_out s ++ out.
Proof.
  intros [L H P A] [L' S O]. pose proof (same_keeps _ _ S) as K. destruct S as [E1 E2 E3 E4 E5 E6].
  split_and!; [split|done|done]; cbn [set_line e_left e_right e_hist e_at]; rewrite ?E4, ?E1, ?E3; done.
Qed.

Lemma line_fits s l r : line_ok s l r → zlen (l ++ r) ≤ r_bufend s ∧ 0 ≤ r_bufend s < zlen (r_buf s).
Proof. intros HL. pose proof (line_bounds _ _ _ HL). destruct HL as [_ E _ F R]. rewrite zlen_app. lia. Qed.

Lemma Forall_fit P hcap n H : Forall P H → Forall P (fit hcap n H).
Proof. intros HF. destruct (fit_suffix hcap n H) as [T E]. rewrite E in HF. by apply Forall_app in HF as [_ HF]. Qed.

(** Adding to a history that is not empty leaves a line to go back to. *)
Lemma add_position hcap x T y : zlen (T ++ [y]) ≤ MAX_HIST → zlen y + zlen x < hcap →
  let K := fit hcap (zlen x) (T ++ [y]) in
  Z.max 0 (zlen (T ++ [y]) - dropped hcap x (T ++ [y])) = zlen K ∧ 1 ≤ zlen K.
Proof.
  intros Hz Hf K. pose proof (fit_keeps hcap (zlen x) T y Hz Hf) as Hl. fold K in Hl. unfold dropped. fold K.
  pose proof (zlen_nonneg K). split; [lia|]. destruct K; [done|]. rewrite zlen_cons. pose proof (zlen_nonneg K). lia.
Qed.

Lemma snoc_inv (H : list (list Z)) n : zlen H = n + 1 → 0 ≤ n → ∃ T x, H = T ++ [x] ∧ zlen T = n.
Proof.
  intros Hz Hn. destruct H as [|x T _] using rev_ind; [unfold zlen in Hz; simpl in Hz; lia|]. exists T, x. split; [done|].
  rewrite zlen_app, zlen_cons in Hz. change (zlen (@nil (list Z))) with 0 in Hz. lia.
Qed.

Lemma store_ok s e dir :
  edit_ok s e → h_on (r_hist s) = true → h_p (r_hist s) = a_pos e → dir = -1 ∨ dir = 1 → at_limit dir e = false →
  let hcap := h_bufend (r_hist s) in
  wp (if h_p (r_hist s) + (if r_inhist s then 1 else 0) =? h_cnt (r_hist s)
      then if r_inhist s then history_replace else history_add else ret tt) s
    (λ _ s', ∃ h', s' = set_hist h' s ∧ hist_ok h' (a_store hcap e).1 ∧ h_bufend h' = hcap ∧
      h_p h' = (a_store hcap e).2 ∧ 0 ≤ (a_store hcap e).2 + dir < zlen (a_store hcap e).1 ∧
      Forall (λ x, zlen x ≤ r_bufend s) (a_store hcap e).1).
Proof.
  intros [HL HH Hp Ha] On Ep Hdir Hlim hcap. rewrite On in HH. destruct HH as (HH & Hcap & Hsm).
  destruct (line_fits _ _ _ HL) as [Hf Hb]. pose proof (ho_cnt _ _ HH) as [Ec Em]. rewrite Ep, Ec.
  unfold at_limit, a_pos in Hlim. apply orb_false_iff in Hlim as [Hl1%Z.ltb_ge Hl2]. rewrite Z.geb_leb in Hl2. apply Z.leb_gt in Hl2.
  assert (∀ (T : list (list Z)) (y : list Z), Forall (λ x : list Z, zlen x ≤ r_bufend s) (T ++ [y]) → zlen y + zlen (e_line e) < hcap) as Hlast.
  { intros T y [_ Hy]%Forall_app. inversion_clear Hy. unfold e_line, hcap. lia. }
  assert (∀ T : list (list Z), Forall (λ x : list Z, zlen x ≤ r_bufend s) T → Forall (λ x : list Z, zlen x ≤ r_bufend s) (a_add hcap (e_line e) T)) as Hall.
  { intros T HT. unfold a_add. apply Forall_app. split; [by apply Forall_fit|]. by repeat constructor. }
  unfold a_store, a_pos in *. destruct (e_at e) as [p|].
  - destruct Ha as (-> & Ep' & Hlt). destruct (Z.eqb_spec (Z.of_nat p + 1) (zlen (e_hist e))) as [E|E].
    + destruct (snoc_inv (e_hist e) (Z.of_nat p) (eq_sym E)) as (T & x & EH & ET); [lia|]. rewrite EH, drop_last_snoc in *.
      destruct T as [|y T _] using rev_ind; [change (zlen (@nil (list Z))) with 0 in ET; lia|].
      eapply wp_mono; [eapply history_replace_ok; [done|done|done|rewrite <- zlen_app; lia]|].
      intros [] s' (h' & -> & HK & Eb & Epp). fold hcap in HK, Eb, Epp. exists h'. rewrite Ep' in Epp.
      apply Forall_app in Hsm as [Hsm _]. rewrite zlen_app in Em, E. change (zlen [x]) with 1 in *.
      destruct (add_position hcap (e_line e) T y) as [Ez Hz]; [lia|by eapply Hlast|]. rewrite ET in Ez.
      cbn [fst snd]. rewrite Ez. split_and!; try done; [by rewrite Epp|lia| |by apply Hall].
      unfold a_add. rewrite zlen_app. change (zlen [e_line e]) with 1. rewrite zlen_app in Hl2. change (zlen [x]) with 1 in Hl2. lia.
    + apply wp_ret. exists (r_hist s). cbn [fst snd]. split_and!; try done; by destruct s.
  - rewrite Ha, Z.add_0_r, Z.eqb_refl. destruct (e_hist e) as [|y T _] using rev_ind.
    { change (zlen (@nil (list Z))) with 0 in *. lia. }
    eapply wp_mono; [eapply history_add_ok; [done|done|done|rewrite <- zlen_app; lia]|].
    intros [] s' (h' & -> & HK & Eb & Epp). fold hcap in HK, Eb, Epp. exists h'. rewrite Ep in Epp.
    destruct (add_position hcap (e_line e) T y) as [Ez Hz]; [done|by eapply Hlast|].
    cbn [fst snd]. rewrite Ez. split_and!; try done; [by rewrite Epp|lia| |by apply Hall].
    unfold a_add. rewrite zlen_app. change (zlen [e_line e]) with 1. lia.
Qed.

(** ** A step up or down *)

Lemma erase_chars_ok n p s (Q : unit → rl → Prop) :
  0 ≤ p - Z.of_nat n → p ≤ zlen (r_buf s) →
  Q tt (set_out (r_out s ++ o_erase (slice (r_buf s) (p - Z.of_nat n) (Z.of_nat n))) s) → wp (erase_chars n p) s Q.
Proof.
  revert p s. induction n as [|n IH]; intros p s Hp Hn HQ; cbn [erase_chars].
  - apply wp_ret. change (slice (r_buf s) _ (Z.of_nat 0)) with (@nil Z) in HQ. unfold o_erase in HQ. simpl in HQ.
    rewrite app_nil_r in HQ. by destruct s.
  - apply wp_bind, wp_rd; [lia|]. apply wp_bind, wp_emit. apply wp_bind, wp_emit. apply IH; [lia|simpl; lia|]. simpl.
    rewrite slice_snoc in HQ by lia. replace (Z.of_nat (S n) - 1) with (Z.of_nat n) in HQ by lia.
    replace (p - Z.of_nat (S n) + Z.of_nat (S n) - 1) with (p - 1) in HQ by lia.
    replace (p - Z.of_nat (S n)) with (p - 1 - Z.of_nat n) in HQ by lia.
    unfold o_erase in *. rewrite reverse_app in HQ. simpl in HQ. unfold wipe, bs in HQ. rewrite !set_out_out.
    by rewrite <- !app_assoc in *.
Qed.

(** The terminal during a step: the line goes, whatever it was. *)
Lemma erase_line_ok s l r (Q : unit → rl → Prop) : line_ok s l r →
  Q tt (set_out (r_out s ++ render r ++ o_erase (l ++ r) ++ [32; 32; 8; 8]) s) →
  wp (put_chars (Z.to_nat (r_end s - r_cursor s)) (r_cursor s) ;;
      erase_chars (Z.to_nat (Z.max (r_cursor s) (r_end s))) (Z.max (r_cursor s) (r_end s)) ;;
      emit [32; 32; 8; 8]) s Q.
Proof.
  intros HL HQ. pose proof (line_bounds _ _ _ HL) as Hb. pose proof HL as [T Ee Ec _ _]. rewrite Z.max_r by lia.
  apply wp_bind, put_chars_ok; [lia|lia|]. replace (Z.of_nat (Z.to_nat (r_end s - r_cursor s))) with (zlen r) by lia.
  rewrite Ec, (line_right _ _ _ HL). apply wp_bind, erase_chars_ok; cbn [set_out r_buf r_out]; [lia|lia|].
  rewrite Z2Nat.id, Z.sub_diag, T by lia. apply wp_emit. cbn [set_out r_out]. by rewrite !set_out_out, <- !app_assoc.
Qed.

Definition with_p (p : Z) (h : hist) : hist :=
  mkHist (h_on h) (h_data h) (h_end h) (h_bufend h) (h_ptr h) (h_len h) p (h_cnt h).

Lemma hist_ok_p p h H : hist_ok h H → hist_ok (with_p p h) H.
Proof. by intros []. Qed.

(** The line of the history at the new position, shown. *)
Lemma show_ok s H dir : hist_ok (r_hist s) H → 0 ≤ h_p (r_hist s) + dir < zlen H →
  2 * r_bufend s < h_bufend (r_hist s) → Forall (λ x, zlen x ≤ r_bufend s) H → 0 ≤ r_bufend s < zlen (r_buf s) →
  let p := h_p (r_hist s) + dir in
  let l := take (Z.to_nat (r_bufend s)) (H !!! Z.to_nat p) in
  wp (modify (set_inhist true) ;;
      modify (on_hist (λ h, mkHist (h_on h) (h_data h) (h_end h) (h_bufend h) (h_ptr h) (h_len h) (u8 (h_p h + dir)) (h_cnt h))) ;;
      history_set ;;
      let* e := gets r_end in
      put_chars (Z.to_nat e) 0 ;;
      modify (set_cursor e)) s
    (λ _ s', edit_ok s' (mkEd l [] H (Some (Z.to_nat p))) ∧ keeps s s' ∧ r_out s' = r_out s ++ render l).
Proof.
  intros HH Hp Hcap Hsm Hb p l. pose proof HH as [On _ [_ Cm] _ _ _ _]. unfold MAX_HIST in Cm.
  apply wp_bind, wp_modify. apply wp_bind, wp_modify.
  unfold on_hist. cbn [set_inhist r_hist]. rewrite u8_small by lia. fold p. set (s1 := set_hist _ _).
  assert (hist_ok (r_hist s1) H) as HH1 by (by apply (hist_ok_p p)).
  destruct (lookup_lt_is_Some_2 H (Z.to_nat p)) as [y Hy]; [unfold zlen in Hp; lia|].
  assert (l = take (Z.to_nat (r_bufend s)) y) as El by (unfold l; by rewrite (list_lookup_total_correct _ _ _ Hy)).
  eapply wp_bind_mono; [apply (history_set_ok s1 H y HH1); [cbn; lia|done|done]|].
  intros [] s2 (HL & SM & Eo). change (r_bufend s1) with (r_bufend s) in HL. rewrite <- El in HL.
  pose proof (line_bounds _ _ _ HL) as Hn. pose proof HL as [T Ee Ec F R]. change (zlen []) with 0 in *.
  apply wp_bind, wp_gets. apply wp_bind, put_chars_ok; [lia|lia|]. rewrite Z2Nat.id, T, app_nil_r by lia. apply wp_modify.
  replace (r_end s2) with (zlen l) by lia. pose proof (same_keeps _ _ SM) as K. destruct SM as [E1 E2 E3 E4 E5 E6].
  split_and!; [split; cbn|by destruct K|cbn; by rewrite Eo].
  - eapply line_move; [by apply line_ok_out|done].
  - rewrite E4, E1. by rewrite (ho_on _ _ HH1).
  - rewrite E4. simpl. lia.
  - rewrite E4, E3. simpl. split_and!; [done|lia|unfold zlen in Hp; lia].
Qed.

Lemma edit_ok_p s e p : edit_ok s e → e_at e = None → 0 ≤ p → edit_ok (set_hist (with_p p (r_hist s)) s) e.
Proof.
  intros [L H P A] E Hp. rewrite E in *. split; cbn; try done; [by destruct L|rewrite E|by rewrite E].
  destruct (h_on (r_hist s)); [|done]. destruct H as (HH & H2). split; [by apply hist_ok_p|done].
Qed.

(** history(). *)
Lemma history_ok s e dir : edit_ok s e → dir = -1 ∨ dir = 1 →
  let cap := r_bufend s in let hcap := h_bufend (r_hist s) in
  wp (history dir) s (λ _ s',
    edit_ok s' (a_history cap hcap dir e) ∧ keeps s s' ∧ r_out s' = r_out s ++ o_history cap hcap dir e).
Proof.
  intros HE Hdir cap hcap. unfold history. apply wp_bind, wp_gets. unfold id.
  destruct (h_on (r_hist s)) eqn:On; cbn [negb].
  2:{ pose proof (eo_hist _ _ HE) as HH. rewrite On in HH. destruct HH as [Eh Ea]. apply wp_ret.
      assert (at_limit dir e = true) as El.
      { unfold at_limit, a_pos. rewrite Ea, Eh. change (zlen []) with 0. by destruct Hdir as [->| ->]. }
      unfold a_history, o_history. rewrite El, app_nil_r. by split_and!. }
  apply (wp_bind_mono _ _ _ (λ _ s1, edit_ok s1 e ∧ s1 = set_hist (with_p (a_pos e) (r_hist s)) s)).
  { pose proof (eo_hist _ _ HE) as HH. rewrite On in HH. destruct HH as (HH & _ & _). destruct (ho_cnt _ _ HH) as [Ec _].
    pose proof (eo_at _ _ HE) as HA. unfold a_pos. destruct (e_at e) as [p|] eqn:Ea.
    - destruct HA as (-> & Ep & _). apply wp_ret. split; [done|]. rewrite <- Ep. by destruct s as [? ? ? ? ? [] ? ? ?].
    - rewrite HA. apply wp_modify. unfold on_hist. rewrite <- Ec. fold (with_p (h_cnt (r_hist s)) (r_hist s)).
      split; [|done]. rewrite Ec. apply (edit_ok_p s e (zlen (e_hist e))); [done|done|apply zlen_nonneg]. }
  intros [] s1 [HE1 E1]. apply wp_bind, wp_gets.
  pose proof (eo_hist _ _ HE1) as HH. rewrite E1 in HH. cbn [set_hist r_hist with_p h_on] in HH. rewrite On in HH.
  destruct HH as (HH & _ & _). destruct (ho_cnt _ _ HH) as [Ec _].
  change (h_cnt (with_p (a_pos e) (r_hist s))) with (h_cnt (r_hist s)) in Ec.
  rewrite E1. cbn [set_hist r_hist with_p h_p h_cnt]. rewrite Ec. fold (at_limit dir e).
  unfold o_history, a_history. destruct (at_limit dir e) eqn:Hlim.
  { apply wp_ret. rewrite E1 in HE1. by rewrite app_nil_r. }
  rewrite <- E1. pose proof (eo_line _ _ HE1) as HL1.
  assert (r_end s = r_end s1 ∧ r_cursor s = r_cursor s1 ∧ r_inhist s = r_inhist s1 ∧ h_p (r_hist s1) = a_pos e ∧
    h_cnt (r_hist s1) = zlen (e_hist e)) as (-> & -> & -> & Ep & Ec') by by rewrite E1.
  apply wp_bind_assoc3, wp_bind. apply (erase_line_ok _ _ _ _ HL1).
  set (s2 := set_out _ s1). assert (edit_ok s2 e) as HE2 by (destruct HE1 as [L ? ? ?]; split; [by destruct L|done..]).
  eapply wp_bind_mono.
  { change (r_inhist s1) with (r_inhist s2). rewrite <- Ec', <- Ep. apply (store_ok s2 e dir HE2); [unfold s2; by rewrite E1|done..]. }
  intros [] s3 (h & -> & HH3 & Eb3 & Ep3 & Hr & Hsm). assert (h_bufend (r_hist s2) = hcap) as Eh by (unfold s2; by rewrite E1).
  rewrite Eh in *. destruct (a_store hcap e) as [H p]. cbn [fst snd] in *.
  assert (r_bufend s2 = cap) as Eb by (unfold s2; by rewrite E1). destruct (line_fits _ _ _ (eo_line _ _ HE2)) as [_ Hb].
  assert (2 * r_bufend s2 < hcap) as Hcap.
  { pose proof (eo_hist _ _ HE) as H0. rewrite On in H0. rewrite Eb. apply H0. }
  eapply wp_mono; [eapply (show_ok (set_hist h s2) H dir HH3); cbn [set_hist r_hist r_buf r_bufend];
    [by rewrite Ep3|by rewrite Eb3|done|done]|].
  intros [] s4 (HE4 & K4 & O4). cbn [set_hist r_hist r_bufend r_out] in HE4, O4. rewrite Ep3, Eb in *.
  split_and!; [done| |].
  - apply (rl_keeps_trans s s1); [by rewrite E1|]. destruct K4 as [K1 K2 K3 K4 K5 K6]. split; try done; cbn [set_hist r_hist] in *.
    + rewrite K5, (ho_on _ _ HH3), E1. done.
    + rewrite K6, Eb3. by rewrite <- Eh.
  - rewrite O4. cbn [e_left]. unfold s2. cbn [set_out r_out]. rewrite E1 at 1. cbn [set_hist r_out]. unfold e_line. by rewrite <- !app_assoc.
Qed.
