(* ===== verification/ReadlineProps.v ===== *)
(** * The keys of the line editor

    The keyboard as the editor understands it: the bytes that arrive, with the
    escape sequences of the arrow keys and the quoting of the next character,
    are commands on the abstract editor.  Each round of the loop of
    rl_edit_timeout() does one command. *)

From S2P Require Import Prelude Bytes Params KstringSpec Libstring LibstringSpec Readline ReadlineSpec ReadlineEdit ReadlineHist.

Inductive cmd :=
| CInsert (c : Z) | CComplete | CErase | CKill | CRight | CLeft | CEnd | CHome | CUp | CDown | CRedraw
| CNothing | CInterrupt | CDone (r : Z).

(** The command of a control key; other characters are inserted. *)
Definition command (c : Z) : cmd :=
  if c =? 9 then CComplete
  else if c =? 3 then CInterrupt
  else if c =? 4 then CDone 0
  else if (c =? 8) || (c =? 127) then CErase
  else if (c =? 21) || (c =? 24) then CKill
  else if c =? 6 then CRight
  else if c =? 2 then CLeft
  else if c =? 5 then CEnd
  else if c =? 1 then CHome
  else if c =? 16 then CUp
  else if c =? 14 then CDown
  else if c =? 18 then CRedraw
  else if 31 <? c then CInsert c
  else CNothing.

(** The key after ESC or ESC [: A to D are the arrows, H is home, N is end and
    the other letters up to N do nothing. *)
Definition arrow (c : Z) : Z :=
  if c =? 65 then 16
  else if c =? 66 then 14
  else if c =? 67 then 6
  else if c =? 68 then 2
  else if c =? 72 then 1
  else if c =? 78 then 5
  else if (65 <=? c) && (c <=? 78) then 0
  else c.

(** The command, whether the next byte is quoted, and whether it continues an
    escape sequence. *)
Definition decode (quote esc : bool) (ev : event) : cmd * bool * bool :=
  let plain c :=
    if c =? 27 then (CNothing, false, true)
    else if c =? 22 then (CNothing, true, false)
    else (command c, false, false) in
  match ev with
  | NoKey r err redraw =>
      (if negb (err =? EAGAIN) then CDone r else if redraw then CRedraw else CNothing, quote, esc)
  | Key c =>
      if quote then (CInsert c, false, esc)
      else if esc then if c =? 91 then (CNothing, false, true) else plain (arrow c)
      else if (c =? 10) || (c =? 13) then (CDone 1, false, false)
      else plain c
  end.

(** How a command ends the line: [None] for the interrupt, and what the last
    read() counts as. *)
Definition ending (k : cmd) : option (option Z) :=
  match k with CInterrupt => Some None | CDone r => Some (Some r) | _ => None end.

Section keys.
Context (listing : option (list (list Z))) (dup_ok : list Z → bool) (cap hcap : Z) (prompt : list Z).

Definition a_cmd (k : cmd) (e : ed) : ed :=
  match k with
  | CInsert c => a_insert cap c e
  | CComplete => a_tab listing dup_ok cap e
  | CErase => a_bspace e
  | CKill => set_line [] (e_right e) e
  | CRight => a_forward e
  | CLeft => a_backward e
  | CEnd => set_line (e_line e) [] e
  | CHome => set_line [] (e_line e) e
  | CUp => a_history cap hcap (-1) e
  | CDown => a_history cap hcap 1 e
  | _ => e
  end.

(** What a command writes.  The redraw writes the byte at the cursor, which is
    not part of the line when the cursor is at its end. *)
Definition cmd_out (k : cmd) (e : ed) (out : list Z) : Prop :=
  match k with
  | CInsert c => out = o_insert cap c e
  | CComplete => out = o_tab listing dup_ok cap e
  | CErase => out = o_bspace e
  | CKill => out = o_kill e
  | CRight => out = match e_right e with [] => [] | c :: _ => vis c end
  | CLeft => out = match last (e_left e) with None => [] | Some c => bs c end
  | CEnd => out = render (e_right e)
  | CHome => out = unrender (e_left e)
  | CUp => out = o_history cap hcap (-1) e
  | CDown => out = o_history cap hcap 1 e
  | CRedraw => ∃ x, (∀ y, head (e_right e) = Some y → x = y) ∧
      out = [10] ++ prompt ++ render (e_left e ++ [x]) ++ retype 32 (e_right e)
  | _ => out = []
  end.

(** The commands up to the one that ends the line. *)
Fixpoint a_loop (quote esc : bool) (keys : list event) (e : ed) : option (option Z * ed) :=
  match keys with
  | [] => None
  | ev :: keys =>
      let '(k, quote, esc) := decode quote esc ev in
      match ending k with
      | Some res => Some (res, e)
      | None => a_loop quote esc keys (a_cmd k e)
      end
  end.

(** What they write. *)
Fixpoint a_loop_out (quote esc : bool) (keys : list event) (e : ed) (out : list Z) : Prop :=
  match keys with
  | [] => False
  | ev :: keys =>
      let '(k, quote, esc) := decode quote esc ev in
      match ending k with
      | Some _ => out = []
      | None => ∃ o1 o2, cmd_out k e o1 ∧ a_loop_out quote esc keys (a_cmd k e) o2 ∧ out = o1 ++ o2
      end
  end.
End keys.

Definition interrupted (s : rl) : rl :=
  let s := set_err (r_err s ++ [94; 67; 10]) s in
  let t := r_tty s in
  if t_cleanup t =? 1 then set_tty (mkTty (t_saved t) (t_saved t) 2 (t_atexit t)) s else s.

Section refine.
Context (listing : option (list (list Z))) (dup_ok : list Z → bool) (has_timeout : bool) (prompt : list Z).

(** A command that goes on with the line. *)
Definition step (k : cmd) (s : rl) (e : ed) (s' : rl) : Prop :=
  edit_ok s' (a_cmd listing dup_ok (r_bufend s) (h_bufend (r_hist s)) k e) ∧ keeps s s' ∧
  ∃ out, cmd_out listing dup_ok (r_bufend s) (h_bufend (r_hist s)) prompt k e out ∧ r_out s' = r_out s ++ out.

Definition key_post (k : cmd) (s : rl) (e : ed) (x : option Z) (s' : rl) : Prop :=
  match k with
  | CInterrupt => x = Some (-2) ∧ s' = interrupted s
  | CDone r => x = Some (-1) ∧ r = 0 ∧ s' = s
  | _ => x = None ∧ step k s e s'
  end.

Lemma redraw_ok s e : edit_ok s e →
  wp (emit [10] ;; emit prompt ;; reprint_start ;; reprint_end 32 ;; ret (@None Z)) s (λ x s', x = None ∧ step CRedraw s e s').
Proof.
  intros HE. pose proof (eo_line _ _ HE) as HL. pose proof (line_bounds _ _ _ HL) as Hb. pose proof HL as [T Ee Ec F R].
  apply wp_bind, wp_emit. apply wp_bind, wp_emit. apply wp_bind. unfold reprint_start.
  apply wp_bind, wp_gets. cbn [set_out r_cursor r_out]. rewrite Ec. apply put_chars_ok; [lia|cbn; lia|].
  rewrite Z2Nat.id by lia. cbn [set_out r_buf r_out]. rewrite slice_snoc by lia.
  replace (zlen (e_left e) + 1 - 1) with (zlen (e_left e)) by lia. rewrite (line_left _ _ _ HL).
  apply wp_bind. eapply (reprint_end_ok _ (e_left e) (e_right e)); [by do 3 apply line_ok_out|]. apply wp_ret. split; [done|]. rewrite !set_out_out. cbn [set_out r_out].
  set (x := byte _ _). split_and!; [|done|exists ([10] ++ prompt ++ render (e_left e ++ [x]) ++ retype 32 (e_right e)); split].
  - destruct HE as [? ? ? ?]. by split; try apply line_ok_out.
  - exists x. split; [|done]. intros y Hy. destruct (e_right e) as [|z r] eqn:Er; [done|]. injection Hy as ->.
    unfold x. assert (0 < zlen (y :: r)) by (unfold zlen; simpl; lia). rewrite (line_byte _ _ _ HL), byte_app_r by lia.
    by replace (0 + (zlen (e_left e) + 1) - 1 - zlen (e_left e)) with 0 by lia.
  - cbn [set_out r_out]. by rewrite <- !app_assoc.
Qed.

Lemma edited_step k s e s' l r out : edit_ok s e → edited s s' l r out →
  set_line l r e = a_cmd listing dup_ok (r_bufend s) (h_bufend (r_hist s)) k e →
  cmd_out listing dup_ok (r_bufend s) (h_bufend (r_hist s)) prompt k e out → step k s e s'.
Proof.
  intros HE Ed E O. destruct (edited_ok _ _ _ _ _ _ HE Ed) as (H1 & H2 & H3). rewrite E in H1. by split_and!; [..|exists out].
Qed.

(** The editing commands keep the history. *)
Lemma set_line_eq (e x : ed) : e_hist x = e_hist e ∧ e_at x = e_at e → set_line (e_left x) (e_right x) e = x.
Proof. destruct x. intros [E1 E2]. simpl in *. unfold set_line. by rewrite <- E1, <- E2. Qed.

Lemma insert_keeps cap c e : e_hist (a_insert cap c e) = e_hist e ∧ e_at (a_insert cap c e) = e_at e.
Proof. unfold a_insert. by destruct (_ <? _). Qed.

Lemma inserts_keep cap cs e : e_hist (a_inserts cap cs e) = e_hist e ∧ e_at (a_inserts cap cs e) = e_at e.
Proof.
  revert e. induction cs as [|c cs IH]; intros e; [done|]. cbn [a_inserts]. destruct (IH (a_insert cap c e)) as [-> ->].
  apply insert_keeps.
Qed.

Definition edits (k : cmd) : bool := match k with CUp | CDown => false | _ => true end.

Lemma edits_keep cap hcap k e : edits k = true →
  let x := a_cmd listing dup_ok cap hcap k e in e_hist x = e_hist e ∧ e_at x = e_at e.
Proof.
  destruct k; intros Hk; try done; cbn [a_cmd].
  - apply insert_keeps.
  - unfold a_tab. destruct (inserts_keep cap (completion listing dup_ok (word (e_left e))) (a_clobber e)) as [-> ->].
    unfold a_clobber. by destruct (e_right e).
  - unfold a_forward. by destruct (e_right e).
  - unfold a_backward. by destruct (last _).
Qed.

(** An editing routine followed by the end of its case. *)
Lemma wp_edit k (m : M rl unit) s e l r out : edit_ok s e → edits k = true →
  wp m s (λ _ s', edited s s' l r out) →
  l = e_left (a_cmd listing dup_ok (r_bufend s) (h_bufend (r_hist s)) k e) →
  r = e_right (a_cmd listing dup_ok (r_bufend s) (h_bufend (r_hist s)) k e) →
  cmd_out listing dup_ok (r_bufend s) (h_bufend (r_hist s)) prompt k e out →
  wp (m ;; ret (@None Z)) s (λ x s', x = None ∧ step k s e s').
Proof.
  intros HE Hk Hm -> -> Ho. eapply wp_bind_mono; [exact Hm|]. intros [] s' Ed. apply wp_ret. split; [done|].
  eapply edited_step; [done|done| |done]. apply set_line_eq. by apply edits_keep.
Qed.

Lemma wp_edit2 k (m1 m2 : M rl unit) s e l r out : edit_ok s e → edits k = true →
  wp (m1 ;; m2) s (λ _ s', edited s s' l r out) →
  l = e_left (a_cmd listing dup_ok (r_bufend s) (h_bufend (r_hist s)) k e) →
  r = e_right (a_cmd listing dup_ok (r_bufend s) (h_bufend (r_hist s)) k e) →
  cmd_out listing dup_ok (r_bufend s) (h_bufend (r_hist s)) prompt k e out →
  wp (m1 ;; m2 ;; ret (@None Z)) s (λ x s', x = None ∧ step k s e s').
Proof. intros. apply wp_bind_assoc. by eapply wp_edit. Qed.

Lemma erase_ok s e : line_ok s (e_left e) (e_right e) →
  wp (if negb (at_start s) then bspace else ret tt) s
    (λ _ s', edited s s' (e_left (a_bspace e)) (e_right e) (o_bspace e)).
Proof.
  intros HL. unfold at_start. rewrite (lo_cursor _ _ _ HL). destruct (e_left e) as [|c l] eqn:El.
  - apply wp_ret. unfold a_bspace, o_bspace. rewrite El. by apply edited_refl.
  - rewrite (proj2 (Z.eqb_neq _ _)) by (unfold zlen; simpl; lia). rewrite <- El in HL. apply bspace_ok; [done|by rewrite El].
Qed.

Lemma nothing_ok k s e : edit_ok s e → (k = CNothing ∨ k = CInterrupt ∨ ∃ r, k = CDone r) → step k s e s.
Proof. intros HE Hk. split_and!; [|done|exists []; rewrite app_nil_r]; by destruct Hk as [->|[->|[r ->]]]. Qed.

Lemma history_step dir k s e : edit_ok s e → dir = -1 ∧ k = CUp ∨ dir = 1 ∧ k = CDown →
  wp (history dir ;; ret (@None Z)) s (λ x s', x = None ∧ step k s e s').
Proof.
  intros HE Hd. eapply wp_bind_mono; [apply (history_ok s e dir HE); naive_solver|]. intros [] s' (H1 & H2 & H3).
  apply wp_ret. split; [done|]. destruct Hd as [[-> ->]|[-> ->]]; (split_and!; [done|done|by eexists]).
Qed.

Lemma key_ok c s e : edit_ok s e →
  wp (key listing dup_ok prompt c) s (λ x s', key_post (command c) s e x s').
Proof.
  intros HE. pose proof (eo_line _ _ HE) as HL. unfold key, command. apply wp_bind, wp_gets. unfold id.
  change (CTRL 73) with 9. change (CTRL 67) with 3. change (CTRL 68) with 4. change (CTRL 85) with 21. change (CTRL 88) with 24.
  change (CTRL 70) with 6. change (CTRL 66) with 2. change (CTRL 69) with 5. change (CTRL 65) with 1. change (CTRL 80) with 16.
  change (CTRL 78) with 14. change (CTRL 82) with 18.
  destruct (c =? 9); [|destruct (c =? 3); [|destruct (c =? 4); [|destruct (_ || _); [|destruct (_ || _); [|destruct (c =? 6);
    [|destruct (c =? 2); [|destruct (c =? 5); [|destruct (c =? 1); [|destruct (c =? 16); [|destruct (c =? 14); [|destruct (c =? 18)]]]]]]]]]]].
  - eapply (wp_edit CComplete); [done|done|by apply tab_complete_ok|done..].
  - apply wp_bind, wp_modify. unfold exit_cleanup. apply wp_bind. apply wp_bind, wp_gets. unfold key_post, interrupted.
    destruct (_ =? 1); by apply wp_ret || by apply wp_modify.
  - by apply wp_ret.
  - eapply (wp_edit CErase); [done|done|by apply erase_ok|done..].
  - eapply (wp_edit CKill); [done|done|by apply erase_left_ok|done..].
  - eapply (wp_edit CRight); [done|done|by apply forward_ok|done..].
  - eapply (wp_edit CLeft); [done|done|by apply backward_ok|done..].
  - eapply (wp_edit2 CEnd); [done|done|by apply end_ok|done..].
  - eapply (wp_edit2 CHome); [done|done|by apply home_ok|done..].
  - apply history_step; [done|by left].
  - apply history_step; [done|by right].
  - by apply redraw_ok.
  - rewrite Z.gtb_ltb. destruct (31 <? c).
    + eapply (wp_edit (CInsert c)); [done|done|by apply insert_char_ok|done..].
    + apply wp_bind, wp_ret, wp_ret. split; [done|]. apply nothing_ok; [done|by left].
Qed.

(** ** A round of the loop *)

(** A read() that would block needs a timeout function. *)
Definition answered (ev : event) : bool :=
  match ev with NoKey _ err _ => has_timeout || negb (err =? EAGAIN) | Key _ => true end.

Definition round_post (d : cmd * bool * bool) (s : rl) (e : ed) (x : option (Z + Z) * bool * bool) (s' : rl) : Prop :=
  let '(k, quote, esc) := d in
  match ending k with
  | Some None => x.1.1 = Some (inl (-2)) ∧ s' = interrupted s
  | Some (Some r) => x.1.1 = Some (inr r) ∧ s' = s
  | None => x = (None, quote, esc) ∧ step k s e s'
  end.

(** The two ways to find the arrow keys agree. *)
Lemma arrow_spec c : (if (65 <=? c) && (c <=? 78) then CTRL (esc_key (c - 65)) else c) = arrow c.
Proof.
  unfold arrow. destruct (Z.leb_spec 65 c), (Z.leb_spec c 78); cbn [andb];
    repeat match goal with |- context [c =? ?n] => destruct (Z.eqb_spec c n); [subst c; done || lia|] end; try done.
  assert (c = 69 ∨ c = 70 ∨ c = 71 ∨ c = 73 ∨ c = 74 ∨ c = 75 ∨ c = 76 ∨ c = 77) as Hc by lia.
  by repeat destruct Hc as [->|Hc]; [..|subst c].
Qed.

Definition plain (c : Z) : cmd * bool * bool :=
  if c =? 27 then (CNothing, false, true) else if c =? 22 then (CNothing, true, false) else (command c, false, false).

Lemma switch_ok c s e : edit_ok s e →
  wp (if c =? 27 then ret (None, false, true)
      else if c =? 13 then ret (None, false, false)
      else if c =? CTRL 86 then ret (None, true, false)
      else
        let* x := key listing dup_ok prompt c in
        match x with
        | None => ret (None, false, false)
        | Some v => ret (Some (if v =? -1 then inr 0 else inl v), false, false)
        end) s (λ x s', round_post (plain c) s e x s').
Proof.
  intros HE. assert (step CNothing s e s) as Hn by (apply nothing_ok; [done|by left]). unfold plain. change (CTRL 86) with 22.
  destruct (c =? 27); [by apply wp_ret|]. destruct (Z.eqb_spec c 13) as [->|]; [by apply wp_ret|].
  destruct (c =? 22); [by apply wp_ret|]. eapply wp_bind_mono; [by apply key_ok|]. intros x s' HK. unfold round_post.
  destruct (command c); cbn [key_post] in HK; try (destruct HK as [-> HK]; by apply wp_ret).
  destruct HK as (-> & -> & ->). by apply wp_ret.
Qed.

Lemma round_ok quote esc ev s e : edit_ok s e → answered ev = true →
  wp (edit_round listing dup_ok has_timeout prompt quote esc ev) s (λ x s', round_post (decode quote esc ev) s e x s').
Proof.
  intros HE Ha. assert (step CNothing s e s) as Hn by (apply nothing_ok; [done|by left]).
  destruct ev as [c|r err redraw]; unfold edit_round; cbv zeta.
  - change (decode quote esc (Key c)) with (if quote then (CInsert c, false, esc)
      else if esc then if c =? 91 then (CNothing, false, true) else plain (arrow c)
      else if (c =? 10) || (c =? 13) then (CDone 1, false, false) else plain c). destruct quote.
    { eapply wp_bind_mono; [apply insert_char_ok, HE|]. intros [] s' Ed. apply wp_ret. split; [done|].
      eapply edited_step; [done|done| |done]. apply set_line_eq, insert_keeps. }
    destruct esc.
    + destruct (c =? 91); [by apply wp_ret|]. rewrite arrow_spec. by apply switch_ok.
    + destruct (_ || _); [by apply wp_ret|]. by apply switch_ok.
  - cbn [answered decode] in *. destruct (err =? EAGAIN); cbn [negb]; [|by apply wp_ret]. rewrite orb_false_r in Ha. rewrite Ha. cbn [negb].
    destruct redraw; cbn [negb]; [|by apply wp_ret]. eapply wp_bind_mono; [by apply key_ok|].
    intros x s' [_ HK]. by apply wp_ret.
Qed.

(** ** The loop *)

Lemma loop_ok keys quote esc s e res e' :
  let cap := r_bufend s in let hcap := h_bufend (r_hist s) in
  edit_ok s e → Forall (λ ev, answered ev = true) keys →
  a_loop listing dup_ok cap hcap quote esc keys e = Some (res, e') →
  wp (edit_loop listing dup_ok has_timeout prompt quote esc keys) s (λ v s', ∃ s1 out,
    edit_ok s1 e' ∧ keeps s s1 ∧ a_loop_out listing dup_ok cap hcap prompt quote esc keys e out ∧ r_out s1 = r_out s ++ out ∧
    match res with
    | None => v = inl (-2) ∧ s' = interrupted s1
    | Some r => v = inr r ∧ s' = s1
    end).
Proof.
  revert quote esc s e. induction keys as [|ev keys IH]; intros quote esc s e cap hcap HE Ha Hl; [done|].
  inversion_clear Ha as [|? ? Ha1 Ha2]. cbn [edit_loop a_loop a_loop_out] in *.
  eapply wp_bind_mono; [by apply round_ok|]. intros [[x q'] e1'] s1 HR. unfold round_post in HR.
  destruct (decode quote esc ev) as [[k q] e1]. destruct (ending k) as [res'|] eqn:Ek.
  - injection Hl as -> ->. destruct res as [r|], HR as [Ex ->]; cbn in Ex; subst x; apply wp_ret; exists s, [];
      by rewrite app_nil_r.
  - destruct HR as [[= -> -> ->] (HE1 & K1 & o1 & C1 & O1)].
    assert (r_bufend s1 = cap ∧ h_bufend (r_hist s1) = hcap) as [Eb Eh] by by destruct K1.
    eapply wp_mono; [eapply (IH q e1 s1 _ HE1 Ha2)|].
    { rewrite Eb, Eh. exact Hl. }
    intros v s' (s2 & o2 & HE2 & K2 & C2 & O2 & Hres). rewrite Eb, Eh in C2. exists s2, (o1 ++ o2).
    split_and!; [done|by eapply rl_keeps_trans|by exists o1, o2|by rewrite O2, O1, app_assoc|done].
Qed.
End refine.

(** * A line read with the line editor

    rl_edit_timeout() and readline() return the line that the commands of the
    keys make, keep the history, and leave the terminal as it was. *)

(** The history between two lines, for lines of at most [cap] bytes. *)
Definition stored (cap : Z) (h : hist) (H : list (list Z)) : Prop :=
  0 ≤ h_p h ∧
  if h_on h then hist_ok h H ∧ 2 * cap < h_bufend h ∧ Forall (λ x, zlen x ≤ cap) H else H = [].

(** The terminal after the line: as it was. *)
Definition tty_after (is_tty : bool) (t : tty) : tty :=
  if is_tty then mkTty (t_lflag t) (t_lflag t) 2 (if t_cleanup t =? 0 then t_atexit t + 1 else t_atexit t) else t.

(** The terminal during the line. *)
Definition tty_during (is_tty : bool) (t : tty) : tty :=
  if is_tty then mkTty (Z.land (t_lflag t) (Z.lnot ECHO)) (t_lflag t) 1 (if t_cleanup t =? 0 then t_atexit t + 1 else t_atexit t) else t.

(** The history when the line is done. *)
Definition closed (h : hist) (e : ed) : list (list Z) := if h_on h then a_close (h_bufend h) e else [].

Lemma rl_start_ok is_tty prompt input len H s : 1 ≤ len ≤ zlen input → stored (len - 1) (r_hist s) H →
  wp (rl_start is_tty prompt input len) s (λ _ s', edit_ok s' (mkEd [] [] H None) ∧ r_bufend s' = len - 1 ∧
    r_hist s' = r_hist s ∧ zlen (r_buf s') = zlen input ∧ r_tty s' = tty_during is_tty (r_tty s) ∧
    r_err s' = r_err s ∧ r_out s' = r_out s ++ prompt).
Proof.
  intros Hl [Hp Hs]. unfold rl_start. apply wp_bind, wp_modify. apply wp_bind, wp_emit.
  assert (∀ s', r_bufend s' = len - 1 → r_buf s' = input → r_hist s' = r_hist s → r_inhist s' = false → r_end s' = 0 → r_cursor s' = 0 →
    edit_ok s' (mkEd [] [] H None)) as HE.
  { intros s' E1 E2 E3 E4 E5 E6. split; cbn; [split|..]; rewrite ?E1, ?E2, ?E3, ?E4, ?E5, ?E6; try done; try lia.
    destruct (h_on (r_hist s)); done. }
  unfold tty_during. destruct is_tty; [apply wp_modify|apply wp_ret]; (split; [by apply HE|done]).
Qed.

Lemma stored_on cap h H hcap : hist_ok h H → 0 ≤ h_p h → h_bufend h = hcap → 2 * cap < hcap →
  Forall (λ x, zlen x ≤ cap) H → stored cap h H.
Proof. intros HH Hp <- Hc HF. split; [done|]. by rewrite (ho_on _ _ HH). Qed.

Lemma Forall_add hcap cap x H : Forall (λ y, zlen y ≤ cap) H → zlen x ≤ cap → Forall (λ y, zlen y ≤ cap) (a_add hcap x H).
Proof. intros HF Hx. apply Forall_app. split; [by apply Forall_fit|]. by repeat constructor. Qed.

(** The history after the line. *)
Lemma close_ok s e : edit_ok s e →
  wp (if r_inhist s then
        if negb (r_end s =? 0) then history_replace else history_droplast
      else if negb (r_end s =? 0) then history_add else ret tt) s
    (λ _ s', ∃ h', s' = set_hist h' s ∧ stored (r_bufend s) h' (closed (r_hist s) e)).
Proof.
  intros [HL HH Hp Ha]. pose proof HL as [_ Ee _ _ _]. destruct (line_fits _ _ _ HL) as [Hf Hb].
  assert ((r_end s =? 0) = bool_decide (e_line e = [])) as ->.
  { rewrite Ee, <- zlen_app. unfold e_line. destruct (e_left e ++ e_right e) as [|c t]; [done|].
    rewrite zlen_cons, bool_decide_eq_false_2 by done. apply Z.eqb_neq. pose proof (zlen_nonneg t). lia. }
  unfold closed, a_close. rewrite zlen_app in Hf. destruct (h_on (r_hist s)) eqn:On.
  2:{ destruct HH as [_ Ea]. rewrite Ea in Ha. rewrite Ha. unfold history_add.
      assert (∃ h', s = set_hist h' s ∧ stored (r_bufend s) h' []) as Hr.
      { exists (r_hist s). split; [by destruct s|]. split; [done|by rewrite On]. }
      case_bool_decide; cbn [negb]; [by apply wp_ret|]. apply wp_bind, wp_gets. rewrite On. by apply wp_ret. }
  destruct HH as (HH & Hcap & Hsm). destruct (e_at e) as [p|].
  - destruct Ha as (-> & _ & Hlt). destruct (e_hist e) as [|x T _] using rev_ind; [simpl in Hlt; lia|].
    apply Forall_app in Hsm as [Hsm _]. rewrite drop_last_snoc. case_bool_decide as Hx; cbn [negb].
    + rewrite decide_True by done. eapply wp_mono; [by eapply history_droplast_ok|]. intros [] s' (h & -> & H1 & H2 & H3).
      exists h. split; [done|]. eapply stored_on; [done|lia|done..].
    + rewrite decide_False by done. eapply wp_mono; [eapply history_replace_ok; [done|done|done|lia]|].
      intros [] s' (h & -> & H1 & H2 & H3). exists h. split; [done|]. eapply stored_on; [done|lia|done|done|].
      apply Forall_add; [done|]. unfold e_line. rewrite zlen_app. lia.
  - rewrite Ha. case_bool_decide as Hx; cbn [negb].
    + rewrite decide_True by done. apply wp_ret. exists (r_hist s). split; [by destruct s|]. by eapply stored_on.
    + rewrite decide_False by done. eapply wp_mono; [eapply history_add_ok; [done|done|done|lia]|].
      intros [] s' (h & -> & H1 & H2 & H3). exists h. split; [done|]. eapply stored_on; [done|lia|done|done|].
      apply Forall_add; [done|]. unfold e_line. rewrite zlen_app. lia.
Qed.

(** The result of the function. *)
Definition result (res : option Z) (line : list Z) : Z :=
  match res with
  | None => -2
  | Some r => if decide (line = []) then if r =? 0 then -1 else 0 else zlen line
  end.

Lemma cleanup_ok is_tty t : t_cleanup t ≠ 1 →
  let d := tty_during is_tty t in
  (if t_cleanup d =? 1 then mkTty (t_saved d) (t_saved d) 2 (t_atexit d) else d) = tty_after is_tty t.
Proof. intros Ht. unfold tty_during, tty_after. destruct is_tty; cbn; [done|]. by rewrite (proj2 (Z.eqb_neq _ _)). Qed.

Lemma line_text s e : edit_ok s e →
  r_end s = zlen (e_line e) ∧ slice (r_buf s) 0 (zlen (e_line e)) = e_line e ∧ zlen (e_line e) ≤ r_bufend s.
Proof.
  intros HE. pose proof (eo_line _ _ HE) as HL. pose proof HL as [T Ee _ F _]. rewrite <- zlen_app in Ee.
  fold (e_line e) in Ee, T. rewrite <- Ee. by split_and!.
Qed.

Lemma rl_out_ok is_tty t s e r : edit_ok s e → r_tty s = tty_during is_tty t → t_cleanup t ≠ 1 →
  wp (rl_out r) s (λ v s', v = result (Some r) (e_line e) ∧ r_buf s' = r_buf s ∧ stored (r_bufend s) (r_hist s') (closed (r_hist s) e) ∧
    r_tty s' = tty_after is_tty t ∧ r_err s' = r_err s ∧ r_out s' = r_out s ++ [10]).
Proof.
  intros HE Et Ht. destruct (line_text s e HE) as (Ee & _ & _). unfold rl_out. apply wp_bind, wp_gets. unfold id.
  eapply wp_bind_mono; [by apply close_ok|]. intros [] s' (h & -> & Hs). apply wp_bind, wp_emit. pose proof (cleanup_ok is_tty t Ht) as Hc.
  cbv zeta in Hc. rewrite <- Et in Hc.
  apply wp_bind. unfold exit_cleanup. apply wp_bind, wp_gets. cbn [set_out set_hist r_tty].
  assert (∀ s1, r_end s1 = r_end s → wp (let* e := gets r_end in if (e =? 0) && (r =? 0) then ret (-1) else ret e) s1
    (λ v s2, v = result (Some r) (e_line e) ∧ s2 = s1)) as Hr.
  { intros s1 E1. apply wp_bind, wp_gets. rewrite E1, Ee. unfold result. destruct (e_line e) as [|c l].
    - change (zlen []) with 0. rewrite decide_True by done. cbn [Z.eqb andb]. by destruct (r =? 0); apply wp_ret.
    - rewrite decide_False, (proj2 (Z.eqb_neq _ _)) by (done || (rewrite zlen_cons; pose proof (zlen_nonneg l); lia)). by apply wp_ret. }
  destruct (t_cleanup (r_tty s) =? 1); [apply wp_modify|apply wp_ret]; (eapply wp_mono; [by apply Hr|]);
    intros v s2 [-> ->]; by split_and!.
Qed.

Section reading.
Context (listing : option (list (list Z))) (dup_ok : list Z → bool) (is_tty has_timeout : bool).
Context (s : rl) (H : list (list Z)) (prompt input : list Z) (len : Z) (keys : list event).
Context (res : option Z) (e : ed).
Let hcap := h_bufend (r_hist s).

Definition start : ed := mkEd [] [] H None.

Context (Hlen : 1 ≤ len ≤ zlen input) (Hs : stored (len - 1) (r_hist s) H) (Ht : t_cleanup (r_tty s) ≠ 1).
Context (Ha : Forall (λ ev, answered has_timeout ev = true) keys).
Context (Hl : a_loop listing dup_ok (len - 1) hcap false false keys start = Some (res, e)).

Lemma rl_edit_timeout_ok :
  wp (rl_edit_timeout listing dup_ok is_tty has_timeout prompt input len keys) s (λ v s',
    v = result res (e_line e) ∧ zlen (e_line e) ≤ len - 1 ∧ slice (r_buf s') 0 (zlen (e_line e)) = e_line e ∧
    zlen (r_buf s') = zlen input ∧ r_tty s' = tty_after is_tty (r_tty s) ∧
    stored (len - 1) (r_hist s') (match res with None => e_hist e | Some _ => closed (r_hist s) e end) ∧
    r_err s' = r_err s ++ (match res with None => [94; 67; 10] | Some _ => [] end) ∧
    ∃ out, a_loop_out listing dup_ok (len - 1) hcap prompt false false keys start out ∧
      r_out s' = r_out s ++ prompt ++ out ++ (match res with None => [] | Some _ => [10] end)).
Proof.
  unfold rl_edit_timeout. eapply wp_bind_mono; [by apply rl_start_ok|]. intros [] s1 (HE1 & Eb & Eh & Ez & Et & Er & Eo).
  eapply wp_bind_mono; [apply (loop_ok listing dup_ok has_timeout prompt keys false false s1 _ res e HE1 Ha); rewrite Eb, Eh; exact Hl|].
  intros v s2 (s3 & out & HE3 & [K1 K2 K3 K4 K5 K6] & Ho & O3 & Hres). rewrite Eb, Eh in *. destruct (line_text s3 e HE3) as (_ & Tx & Tz).
  rewrite K1 in Tz. destruct res as [r|].
  - destruct Hres as [-> ->]. eapply wp_mono; [eapply (rl_out_ok is_tty (r_tty s) s3 e r HE3); [congruence|done]|].
    intros v s4 (-> & Ebuf & St & Tt & Er4 & Eo4). rewrite K1 in St.
    assert (closed (r_hist s3) e = closed (r_hist s) e) as E by (unfold closed; by rewrite K5, K6). rewrite E in St. rewrite Ebuf.
    split_and!; [done|done|done|congruence|done|done|rewrite app_nil_r; congruence|]. exists out. split; [done|].
    rewrite Eo4, O3, Eo. by rewrite <- !app_assoc.
  - destruct Hres as [-> ->]. apply wp_ret. pose proof (cleanup_ok is_tty (r_tty s) Ht) as Hc. cbv zeta in Hc. rewrite <- Et, <- K3 in Hc.
    assert (stored (len - 1) (r_hist s3) (e_hist e)) as St.
    { destruct HE3 as [_ HH Hp _]. rewrite K1 in HH. split; [done|]. destruct (h_on (r_hist s3)); [done|]. apply HH. }
    unfold interrupted. cbn [set_err r_tty].
    destruct (t_cleanup (r_tty s3) =? 1); cbn; (split_and!; [done|done|done|congruence|done|done|congruence|]; exists out; split; [done|];
      rewrite app_nil_r, O3, Eo; by rewrite <- app_assoc).
Qed.
End reading.
