(* ===== verification/ReadlineRun.v ===== *)
(** * What the line editor shows

    A terminal: a row of cells with a cursor, which a character written moves
    to the right, a backspace to the left, and a newline to the start of an
    empty row.  The row has no end.  Whatever keys are typed, the row shows the
    prompt and the line with the cursor in its place.  Left aside are the keys
    for which this is not so: completion in the middle of a line, the redraw,
    quoted control characters, and characters beyond ASCII. *)

From S2P Require Import Prelude Bytes Params KstringSpec Libstring LibstringSpec Readline ReadlineSpec ReadlineEdit ReadlineHist ReadlineProps.

Record screen := mkScr { sc_left : list Z; sc_right : list Z }.

Definition put (sc : screen) (c : Z) : screen :=
  if c =? 8 then
    match last (sc_left sc) with
    | None => sc
    | Some x => mkScr (take (length (sc_left sc) - 1) (sc_left sc)) (x :: sc_right sc)
    end
  else if c =? 10 then mkScr [] []
  else mkScr (sc_left sc ++ [c]) (drop 1 (sc_right sc)).

Definition term (out : list Z) (sc : screen) : screen := fold_left put out sc.

Definition blanks (n : nat) : list Z := replicate n 32.

(** The cursor is after the prompt [P] and the left part of the line; right of
    it are the rest of the line and blank cells. *)
Definition shown (P : list Z) (e : ed) (sc : screen) : Prop :=
  sc_left sc = P ++ e_left e ∧ ∃ n, sc_right sc = e_right e ++ blanks n.

Definition printable (c : Z) : Prop := 32 ≤ c < 127.

Record printable_ed (e : ed) : Prop := {
  pe_left : Forall printable (e_left e);
  pe_right : Forall printable (e_right e);
  pe_hist : Forall (Forall printable) (e_hist e);
}.

(** ** The terminal *)

Lemma term_app a b sc : term (a ++ b) sc = term b (term a sc).
Proof. apply fold_left_app. Qed.

Lemma put_char L R c : printable c → put (mkScr L R) c = mkScr (L ++ [c]) (drop 1 R).
Proof. unfold printable, put. intros Hc. by rewrite !(proj2 (Z.eqb_neq _ _)) by lia. Qed.

Lemma put_back L x R : put (mkScr (L ++ [x]) R) 8 = mkScr L (x :: R).
Proof.
  unfold put. cbn [Z.eqb sc_left sc_right]. rewrite last_snoc, length_app. simpl.
  replace (length L + 1 - 1)%nat with (length L) by lia. by rewrite take_app_length.
Qed.

Lemma term_text t L R : Forall printable t → term t (mkScr L R) = mkScr (L ++ t) (drop (length t) R).
Proof.
  revert L R. induction t as [|c t IH]; intros L R Ht; [by rewrite app_nil_r|]. inversion_clear Ht.
  cbn [term fold_left]. rewrite put_char by done. fold (term t (mkScr (L ++ [c]) (drop 1 R))).
  rewrite IH, <- app_assoc by done. by rewrite drop_drop.
Qed.

Lemma term_back t L R : term (replicate (length t) 8) (mkScr (L ++ t) R) = mkScr L (t ++ R).
Proof.
  revert R. induction t as [|c t IH] using rev_ind; intros R; [by rewrite app_nil_r|].
  rewrite length_app, Nat.add_comm. simpl. rewrite app_assoc, put_back. fold (term (replicate (length t) 8) (mkScr (L ++ t) (c :: R))).
  rewrite IH. by rewrite <- app_assoc.
Qed.

(** ** Printable characters *)

Lemma vis_printable c : printable c → vis c = [c].
Proof. unfold printable, vis. intros Hc. by rewrite (proj2 (Z.ltb_ge _ _)) by lia. Qed.

Lemma schar_printable c : printable c → (schar c <? 32) = false.
Proof. unfold printable, schar. intros Hc. rewrite (proj2 (Z.ltb_lt c 128)) by lia. apply Z.ltb_ge. lia. Qed.

Lemma bs_printable c : printable c → bs c = [8].
Proof. intros Hc. unfold bs. by rewrite schar_printable. Qed.

Lemma wipe_printable c : printable c → wipe c = [32; 8].
Proof. intros Hc. unfold wipe. by rewrite schar_printable. Qed.

Lemma render_printable t : Forall printable t → render t = t.
Proof.
  induction 1 as [|c t Hc Ht IH]; [done|]. change (render (c :: t)) with (vis c ++ render t). by rewrite vis_printable, IH.
Qed.

Lemma unrender_printable t : Forall printable t → unrender t = replicate (length t) 8.
Proof.
  unfold unrender. intros Ht. rewrite <- length_reverse. apply Forall_reverse in Ht.
  induction Ht as [|c u Hc Hu IH]; [done|]. change (mjoin (bs <$> c :: u)) with (bs c ++ mjoin (bs <$> u)).
  by rewrite bs_printable, IH.
Qed.

Lemma printable_blank : printable 32.
Proof. unfold printable. lia. Qed.

Lemma drop_blanks k n : drop k (blanks n) = blanks (n - k).
Proof. apply drop_replicate. Qed.

Lemma drop_past k r n : drop (length r + k) (r ++ blanks n) = blanks (n - k).
Proof. by rewrite drop_app_add, drop_blanks. Qed.

(** The text right of the cursor written again over what is there. *)
Lemma term_retype r L R c : Forall printable r → printable c →
  term (retype c r) (mkScr L R) = mkScr L (r ++ 32 :: drop (S (length r)) R).
Proof.
  intros Hr Hc. unfold retype. rewrite render_printable, wipe_printable, unrender_printable by done.
  rewrite !term_app, term_text by done. cbn [term fold_left]. rewrite put_char by apply printable_blank. rewrite put_back.
  fold (term (replicate (length r) 8) (mkScr (L ++ r) (32 :: drop 1 (drop (length r) R)))). rewrite term_back.
  by rewrite drop_drop, Nat.add_1_r.
Qed.

(** ** The commands *)

Section shown.
Context (P : list Z) (cap hcap : Z).

Lemma insert_shown c e sc : printable_ed e → printable c → shown P e sc →
  shown P (a_insert cap c e) (term (o_insert cap c e) sc).
Proof.
  destruct sc as [L R]. intros [Hl Hr _] Hc [E1 [n E2]]. cbn in E1, E2. subst. unfold a_insert, o_insert.
  destruct (_ <? _); [|by split; [|exists n]]. rewrite vis_printable, term_app by done. change (term [c] ?x) with (put x c).
  rewrite put_char by done. split; case_decide as Er.
  - cbn. by rewrite <- app_assoc.
  - rewrite term_retype by (done || apply printable_blank). cbn. by rewrite <- app_assoc.
  - exists (n - 1)%nat. cbn [sc_right set_line e_right]. by rewrite Er, !app_nil_l, drop_blanks.
  - exists (S (n - 2)). rewrite term_retype by (done || apply printable_blank). cbn [sc_right set_line e_right].
    rewrite drop_drop. replace (1 + S (length (e_right e)))%nat with (length (e_right e) + 2)%nat by lia. by rewrite drop_past.
Qed.

Lemma bspace_shown e sc : printable_ed e → shown P e sc → shown P (a_bspace e) (term (o_bspace e) sc).
Proof.
  destruct sc as [L R]. intros [Hl Hr _] [E1 [n E2]]. cbn in E1, E2. subst. unfold o_bspace.
  destruct (last (e_left e)) as [c|] eqn:Hc.
  2:{ apply last_None in Hc. unfold a_bspace. rewrite Hc. by split; [|exists n]; rewrite ?Hc. }
  destruct (take_last_split _ _ Hc) as [El _]. unfold a_bspace. set (l := take _ _) in *. rewrite El in *.
  apply Forall_app in Hl as [Hl Hc']. inversion_clear Hc' as [|? ? Hp _]. rewrite bs_printable by done.
  rewrite term_app, (app_assoc P l [c]). change (term [8] ?x) with (put x 8). rewrite put_back.
  rewrite term_retype by done.
  split; [done|]. exists (S n). cbn [sc_right set_line e_right drop]. rewrite <- (Nat.add_0_r (length (e_right e))), drop_past. by rewrite Nat.sub_0_r.
Qed.

Lemma printable_bspace e : printable_ed e → printable_ed (a_bspace e).
Proof. intros [Hl Hr Hh]. split; [by apply Forall_take|done|done]. Qed.

Lemma kill_shown e sc : printable_ed e → shown P e sc → shown P (set_line [] (e_right e) e) (term (o_kill e) sc).
Proof.
  destruct e as [l r H a]. revert sc. induction l as [|c l IH] using rev_ind; intros sc HE Hs; [done|].
  assert (a_bspace (mkEd (l ++ [c]) r H a) = mkEd l r H a) as Eb.
  { unfold a_bspace, set_line. cbn. rewrite length_app. simpl. replace (length l + 1 - 1)%nat with (length l) by lia. by rewrite take_app_length. }
  assert (o_kill (mkEd (l ++ [c]) r H a) = o_bspace (mkEd (l ++ [c]) r H a) ++ o_kill (mkEd l r H a)) as ->.
  { unfold o_kill, o_bspace. cbn [e_left e_right]. by rewrite last_snoc, reverse_app. }
  rewrite term_app. apply IH; rewrite <- Eb; [by apply printable_bspace|by apply bspace_shown].
Qed.

Lemma right_shown e sc : printable_ed e → shown P e sc →
  shown P (a_forward e) (term (match e_right e with [] => [] | c :: _ => vis c end) sc).
Proof.
  destruct sc as [L R]. intros [Hl Hr _] [E1 [n E2]]. cbn in E1, E2. subst. unfold a_forward.
  destruct (e_right e) as [|c r] eqn:Er; [by split; [|exists n; rewrite Er]|]. inversion_clear Hr. rewrite vis_printable by done.
  change (term [c] ?x) with (put x c). rewrite put_char by done. split; [cbn; by rewrite <- app_assoc|by exists n].
Qed.

Lemma left_shown e sc : printable_ed e → shown P e sc →
  shown P (a_backward e) (term (match last (e_left e) with None => [] | Some c => bs c end) sc).
Proof.
  destruct sc as [L R]. intros [Hl Hr _] [E1 [n E2]]. cbn in E1, E2. subst. unfold a_backward.
  destruct (last (e_left e)) as [c|] eqn:Hc; [|by split; [|exists n]].
  destruct (take_last_split _ _ Hc) as [El _]. set (l := take _ _) in *. rewrite El in *.
  apply Forall_app in Hl as [Hl Hc']. inversion_clear Hc'. rewrite bs_printable by done.
  change (term [8] ?x) with (put x 8). rewrite app_assoc, put_back. by split; [|exists n].
Qed.

Lemma end_shown e sc : printable_ed e → shown P e sc → shown P (set_line (e_line e) [] e) (term (render (e_right e)) sc).
Proof.
  destruct sc as [L R]. intros [Hl Hr _] [E1 [n E2]]. cbn in E1, E2. subst.
  rewrite render_printable, term_text by done. split; [by rewrite <- app_assoc|]. exists n. cbn. by rewrite drop_app_length.
Qed.

Lemma home_shown e sc : printable_ed e → shown P e sc → shown P (set_line [] (e_line e) e) (term (unrender (e_left e)) sc).
Proof.
  destruct sc as [L R]. intros [Hl Hr _] [E1 [n E2]]. cbn in E1, E2. subst.
  rewrite unrender_printable, term_back by done. split; [cbn; by rewrite app_nil_r|]. exists n. cbn. unfold e_line. by rewrite <- app_assoc.
Qed.

(** Erasing backwards: the cell at the cursor may still hold a character. *)
Lemma erase_shown l R : Forall printable l → (∃ m, drop 1 R = blanks m) →
  ∃ R', term (o_erase l) (mkScr (P ++ l) R) = mkScr P R' ∧ ∃ m, drop 1 R' = blanks m.
Proof.
  revert R. induction l as [|c l IH] using rev_ind; intros R Hl [m Hm]; [rewrite app_nil_r; exists R; eauto|].
  apply Forall_app in Hl as [Hl Hc']. inversion_clear Hc' as [|? ? Hp _].
  assert (o_erase (l ++ [c]) = (wipe c ++ bs c) ++ o_erase l) as ->.
  { unfold o_erase. by rewrite reverse_app. }
  rewrite term_app, wipe_printable, bs_printable by done. cbn [app term fold_left]. rewrite put_char by apply printable_blank.
  rewrite put_back, app_assoc, put_back. apply IH; [done|]. exists (S m). by rewrite Hm.
Qed.

Lemma history_shown dir e sc : printable_ed e → Forall printable (e_left (a_history cap hcap dir e)) → shown P e sc →
  shown P (a_history cap hcap dir e) (term (o_history cap hcap dir e) sc).
Proof.
  intros HE Hn Hs. unfold o_history. destruct (at_limit dir e) eqn:El; [unfold a_history; by rewrite El|].
  pose proof (end_shown e sc HE Hs) as H1. destruct (term (render (e_right e)) sc) as [L R] eqn:Et.
  destruct H1 as [E1 [n E2]]. cbn in E1, E2. subst. destruct HE as [Hl Hr _].
  destruct (erase_shown (e_line e) (blanks n)) as (R' & Er & m & Em); [by apply Forall_app|exists (n - 1)%nat; apply drop_blanks|].
  rewrite !term_app, Et, Er. change (term [32; 32; 8; 8] ?x) with (put (put (put (put x 32) 32) 8) 8).
  rewrite !put_char by apply printable_blank. rewrite !put_back, Em, drop_blanks. rewrite render_printable, term_text by done.
  split; [done|]. assert (e_right (a_history cap hcap dir e) = []) as ->.
  { unfold a_history. rewrite El. by destruct (a_store hcap e). }
  eexists. apply (drop_blanks _ (S (S (m - 1)))).
Qed.
End shown.

(** ** The keys *)

Definition tidy (k : cmd) : Prop :=
  match k with CInsert c => printable c | CComplete | CRedraw => False | _ => True end.

(** ASCII without TAB, ^R and ^V, and no redraw by the timeout function. *)
Definition tidy_key (ev : event) : bool :=
  match ev with
  | Key c => (0 <=? c) && (c <? 128) && negb ((c =? 9) || (c =? 18) || (c =? 22))
  | NoKey _ err redraw => negb ((err =? EAGAIN) && redraw)
  end.

Lemma command_tidy c : 0 ≤ c < 128 → c ≠ 9 → c ≠ 18 → tidy (command c).
Proof.
  intros Hc H9 H18. unfold command. rewrite (proj2 (Z.eqb_neq c 9)), (proj2 (Z.eqb_neq c 18)) by done.
  destruct (c =? 3); [done|]. destruct (c =? 4); [done|]. destruct (c =? 8); [done|]. destruct (Z.eqb_spec c 127); [done|].
  cbn [orb]. destruct (_ || _); [done|]. repeat (destruct (c =? _); [done|]). destruct (Z.ltb_spec 31 c); [|done].
  unfold tidy, printable. lia.
Qed.

Lemma arrow_tidy c : 0 ≤ c < 128 → c ≠ 9 → c ≠ 18 → c ≠ 22 → 0 ≤ arrow c < 128 ∧ arrow c ≠ 9 ∧ arrow c ≠ 18 ∧ arrow c ≠ 22.
Proof. intros. unfold arrow. repeat (destruct (c =? _); [lia|]). destruct (_ && _); lia. Qed.

Lemma decode_tidy esc ev : tidy_key ev = true → ∃ k esc', decode false esc ev = (k, false, esc') ∧ tidy k.
Proof.
  intros Ht. destruct ev as [c|r err redraw]; cbn [tidy_key] in Ht.
  2:{ cbn [decode]. do 2 eexists. split; [done|]. by destruct (err =? EAGAIN), redraw. }
  rewrite negb_orb, negb_orb, !andb_true_iff, !negb_true_iff, !Z.eqb_neq, Z.leb_le, Z.ltb_lt in Ht. destruct Ht as [Hc [[H9 H18] H22]].
  assert (∀ x, 0 ≤ x < 128 → x ≠ 9 → x ≠ 18 → x ≠ 22 → ∃ k esc', plain x = (k, false, esc') ∧ tidy k) as Hp.
  { intros x Hx1 Hx2 Hx3 Hx4. unfold plain. destruct (x =? 27); [by do 2 eexists|]. rewrite (proj2 (Z.eqb_neq x 22)) by done.
    do 2 eexists. split; [done|]. by apply command_tidy. }
  change (decode false esc (Key c)) with (if esc then if c =? 91 then (CNothing, false, true) else plain (arrow c)
    else if (c =? 10) || (c =? 13) then (CDone 1, false, false) else plain c).
  destruct esc.
  - destruct (c =? 91); [by do 2 eexists|]. destruct (arrow_tidy c Hc H9 H18 H22) as (? & ? & ? & ?). by apply Hp.
  - destruct (_ || _); [by do 2 eexists|]. by apply Hp.
Qed.

Section commands.
Context (listing : option (list (list Z))) (dup_ok : list Z → bool) (cap hcap : Z) (prompt : list Z).

Lemma store_printable e : printable_ed e → Forall (Forall printable) (a_store hcap e).1.
Proof.
  intros [Hl Hr Hh]. assert (Forall printable (e_line e)) as Hx by by apply Forall_app.
  assert (∀ T, Forall (Forall printable) T → Forall (Forall printable) (a_add hcap (e_line e) T)) as Ha.
  { intros T HT. apply Forall_app. split; [by apply Forall_fit|by apply Forall_singleton]. }
  unfold a_store. destruct (e_at e) as [p|]; [|by apply Ha]. destruct (_ =? _); [|done]. by apply Ha, Forall_take.
Qed.

Lemma history_printable dir e : printable_ed e → printable_ed (a_history cap hcap dir e).
Proof.
  intros HE. pose proof (store_printable e HE) as HS. unfold a_history. destruct (at_limit dir e); [done|].
  destruct (a_store hcap e) as [H p]. cbn [fst] in HS. split; cbn; [|done|done]. apply Forall_take.
  rewrite list_lookup_total_alt. destruct (H !! _) as [x|] eqn:Hx; [|done]. by eapply Forall_lookup_1 in HS.
Qed.

Lemma cmd_printable k e : tidy k → printable_ed e → printable_ed (a_cmd listing dup_ok cap hcap k e).
Proof.
  intros Hk HE. pose proof HE as [Hl Hr Hh]. destruct k; try done; cbn [a_cmd tidy] in *.
  - unfold a_insert. destruct (_ <? _); [|done]. split; [|done|done]. apply Forall_app_2; [done|by apply Forall_singleton].
  - by apply printable_bspace.
  - unfold a_forward. destruct (e_right e) as [|c r]; [done|]. inversion_clear Hr. split; [|done|done]. apply Forall_app_2; [done|by apply Forall_singleton].
  - unfold a_backward. destruct (last (e_left e)) as [c|] eqn:El; [|done]. destruct (take_last_split _ _ El) as [E _].
    rewrite E in Hl. apply Forall_app in Hl as [Hl Hc]. inversion_clear Hc. split; [done|by constructor|done].
  - split; [by apply Forall_app|done|done].
  - split; [done|by apply Forall_app|done].
  - by apply history_printable.
  - by apply history_printable.
Qed.

Lemma cmd_shown k e sc out : tidy k → printable_ed e → shown prompt e sc →
  cmd_out listing dup_ok cap hcap prompt k e out → shown prompt (a_cmd listing dup_ok cap hcap k e) (term out sc).
Proof.
  intros Hk HE Hs Ho. destruct k; try done; cbn [a_cmd cmd_out tidy] in *; subst out.
  - by apply insert_shown.
  - by apply bspace_shown.
  - by apply kill_shown.
  - by apply right_shown.
  - by apply left_shown.
  - by apply end_shown.
  - by apply home_shown.
  - apply history_shown; [done|by apply history_printable|done].
  - apply history_shown; [done|by apply history_printable|done].
  - done.
  - done.
  - done.
Qed.
End commands.

(** The rounds of the loop for the keys typed so far. *)
Fixpoint edit_keys (listing : option (list (list Z))) (dup_ok : list Z → bool) (has_timeout : bool) (prompt : list Z)
    (quote esc : bool) (keys : list event) : M rl (option (Z + Z)) :=
  match keys with
  | [] => ret None
  | ev :: keys =>
      let* r := edit_round listing dup_ok has_timeout prompt quote esc ev in
      match r with
      | (None, quote, esc) => edit_keys listing dup_ok has_timeout prompt quote esc keys
      | (Some v, _, _) => ret (Some v)
      end
  end.

(** They are the start of the loop. *)
Lemma edit_loop_app listing dup_ok has_timeout prompt keys more quote esc s v s' :
  edit_keys listing dup_ok has_timeout prompt quote esc keys s = Ret (Some v) s' →
  edit_loop listing dup_ok has_timeout prompt quote esc (keys ++ more) s = Ret v s'.
Proof.
  revert quote esc s. induction keys as [|ev keys IH]; intros quote esc s Hk; [done|]. cbn [edit_keys edit_loop app] in *.
  unfold bind in *. destruct (edit_round _ _ _ _ _ _ _ s) as [[[[w|] q] e1] s1| | |]; try done; [by injection Hk as -> ->|by apply IH].
Qed.

Section screen.
Context (listing : option (list (list Z))) (dup_ok : list Z → bool) (is_tty has_timeout : bool) (prompt : list Z).

Lemma interrupted_line s l r : line_ok s l r → line_ok (interrupted s) l r ∧ r_out (interrupted s) = r_out s.
Proof. intros [T E C F R]. unfold interrupted. by destruct (_ =? 1). Qed.

Lemma keys_shown keys esc s e sc : edit_ok s e → printable_ed e →
  Forall (λ ev, tidy_key ev = true ∧ answered has_timeout ev = true) keys → shown prompt e sc →
  wp (edit_keys listing dup_ok has_timeout prompt false esc keys) s (λ _ s', ∃ out e',
    r_out s' = r_out s ++ out ∧ line_ok s' (e_left e') (e_right e') ∧ shown prompt e' (term out sc)).
Proof.
  revert esc s e sc. induction keys as [|ev keys IH]; intros esc s e sc HE Hp Hk Hs; cbn [edit_keys].
  { apply wp_ret. exists [], e. rewrite app_nil_r. by destruct HE. }
  inversion_clear Hk as [|? ? [Ht Ha] Hks]. destruct (decode_tidy esc ev Ht) as (k & esc' & Ed & Hk).
  eapply wp_bind_mono; [by apply round_ok|]. intros [[y q] e1] s1 HR. unfold round_post in HR. rewrite Ed in HR.
  destruct (ending k) as [[r|]|].
  - destruct HR as [Ex ->]. cbn in Ex. subst y. apply wp_ret. exists [], e. rewrite app_nil_r. by destruct HE.
  - destruct HR as [Ex ->]. cbn in Ex. subst y. apply wp_ret. exists [], e. rewrite app_nil_r.
    destruct HE as [HL _ _ _]. by destruct (interrupted_line s _ _ HL).
  - destruct HR as [[= -> -> ->] (HE1 & _ & o1 & C1 & O1)].
    eapply wp_mono; [eapply IH; [exact HE1|by apply cmd_printable|done|by eapply cmd_shown]|].
    intros v s' (o2 & e' & O2 & L2 & S2). exists (o1 ++ o2), e'. rewrite O2, O1, <- app_assoc, term_app. done.
Qed.

Lemma start_shown H s input len keys :
  1 ≤ len ≤ zlen input → stored (len - 1) (r_hist s) H → Forall (Forall printable) H → Forall printable prompt →
  Forall (λ ev, tidy_key ev = true ∧ answered has_timeout ev = true) keys →
  wp (rl_start is_tty prompt input len ;; edit_keys listing dup_ok has_timeout prompt false false keys) s (λ _ s',
    ∃ out l r, r_out s' = r_out s ++ out ∧ line_ok s' l r ∧
      ∃ n, term out (mkScr [] []) = mkScr (prompt ++ l) (r ++ blanks n)).
Proof.
  intros Hl Hs HP Hpr Hk. eapply wp_bind_mono; [by apply rl_start_ok|]. intros [] s1 (HE & _ & _ & _ & _ & _ & Eo).
  eapply wp_mono; [apply (keys_shown keys false s1 _ (mkScr prompt []) HE); [by split|done|]|].
  { split; [cbn; by rewrite app_nil_r|by exists 0%nat]. }
  intros v s' (out & e' & O & L & S). exists (prompt ++ out), (e_left e'), (e_right e').
  split_and!; [by rewrite O, Eo, app_assoc|done|]. rewrite term_app, term_text, drop_nil by done.
  destruct (term out _) as [A B]. destruct S as [E1 [n E2]]. cbn in E1, E2. exists n. by rewrite E1, E2.
Qed.
End screen.

(** * What the line editor does for its user *)

(** ** Completion *)

(** A name of the directory that the word is the start of. *)
Definition candidate (w n : list Z) : Prop := n ≠ [] ∧ w `prefix_of` n.

#[export] Instance candidate_dec w n : Decision (candidate w n).
Proof. unfold candidate. apply _. Defined.

(** What a unique candidate adds to the word. *)
Definition unique_rest (w : list Z) (names : list (list Z)) : option (list Z) :=
  match filter (candidate w) names with [n] => Some (drop (length w) n) | _ => None end.

Lemma strncmp_candidate w d : (byte d 0 =? 0) = false →
  (strncmp w d (strlen w) =? 0) = bool_decide (candidate (cstr w) (cstr d)).
Proof.
  intros Hd. apply Z.eqb_neq in Hd.
  assert (cstr d ≠ []) as Hne. { destruct d as [|c d]; [done|]. unfold byte in Hd. simpl in *. by rewrite (proj2 (Z.eqb_neq _ _)). }
  assert (strncmp w d (strlen w) = 0 ↔ cstr w `prefix_of` cstr d) as Hiff.
  { rewrite <- strncmp_prefix. unfold strncmp. rewrite !strncmp_loop_zero. naive_solver. }
  case_bool_decide as Hc; [apply Z.eqb_eq, Hiff, Hc|]. apply Z.eqb_neq. intros E. by apply Hc; split; [|apply Hiff].
Qed.

Lemma candidate_empty w d : (byte d 0 =? 0) = true → ¬ candidate w (cstr d).
Proof.
  intros Hd [Hne _]. apply Hne. destruct d as [|c d]; [done|]. unfold byte in Hd. simpl in *. by rewrite Hd.
Qed.

Lemma cstr_drop_inside k d : (k ≤ length (cstr d))%nat → cstr (drop k d) = drop k (cstr d).
Proof.
  revert k. induction d as [|c d IH]; intros [|k] Hk; try done. simpl in *. destruct (c =? 0); simpl in *; [lia|]. apply IH. lia.
Qed.

Lemma candidate_rest w d : candidate (cstr w) (cstr d) →
  cstr (drop (Z.to_nat (strlen w)) d) = drop (length (cstr w)) (cstr d).
Proof.
  intros [_ Hp]. rewrite strlen_length. unfold zlen. rewrite Nat2Z.id. apply cstr_drop_inside. by apply prefix_length.
Qed.

Lemma find_match_some w entries m :
  find_match (λ _, true) w entries (Some m) =
  match filter (candidate (cstr w)) (cstr <$> entries) with [] => Some m | _ => None end.
Proof.
  induction entries as [|d entries IH]; [done|]. cbn [find_match]. rewrite fmap_cons. destruct (byte d 0 =? 0) eqn:Hd.
  - rewrite filter_cons_False by by apply candidate_empty. done.
  - rewrite strncmp_candidate by done. case_bool_decide as Hc.
    + by rewrite filter_cons_True.
    + by rewrite filter_cons_False.
Qed.

(** The loop over the directory finds the unique candidate. *)
Lemma find_match_unique w entries :
  find_match (λ _, true) w entries None = unique_rest (cstr w) (cstr <$> entries).
Proof.
  unfold unique_rest. induction entries as [|d entries IH]; [done|]. cbn [find_match]. rewrite fmap_cons. destruct (byte d 0 =? 0) eqn:Hd.
  - rewrite filter_cons_False by by apply candidate_empty. done.
  - rewrite strncmp_candidate by done. case_bool_decide as Hc.
    + rewrite filter_cons_True by done. rewrite find_match_some, candidate_rest by done. by destruct (filter _ _).
    + by rewrite filter_cons_False.
Qed.

(** Characters inserted at the end of the line, as far as they fit. *)
Lemma inserts_end cap cs l H a : zlen l ≤ cap →
  let l' := take (Z.to_nat cap) (l ++ cs) in
  a_inserts cap cs (mkEd l [] H a) = mkEd l' [] H a ∧ o_inserts cap cs (mkEd l [] H a) = render (drop (length l) l').
Proof.
  revert l. induction cs as [|c cs IH]; intros l Hl; cbv zeta.
  - rewrite app_nil_r, take_ge by (unfold zlen in Hl; lia). by rewrite drop_all.
  - cbn [a_inserts o_inserts]. unfold a_insert, o_insert, e_line. cbn [e_left e_right]. rewrite app_nil_r.
    destruct (Z.ltb_spec (zlen l) cap).
    + destruct (IH (l ++ [c])) as [E1 E2]; [rewrite zlen_app; change (zlen [c]) with 1; lia|]. unfold set_line. cbn [e_hist e_at e_right].
      rewrite <- app_assoc in E1, E2. rewrite E1, E2. split; [done|]. rewrite decide_True, app_nil_r by done.
      set (t := take (Z.to_nat cap - length l - 1) cs). assert (take (Z.to_nat cap) (l ++ [c] ++ cs) = (l ++ [c]) ++ t) as Et.
      { unfold zlen in *. rewrite app_assoc, take_app_ge, length_app by (rewrite length_app; simpl; lia). simpl. do 2 f_equal. lia. }
      change (l ++ c :: cs) with (l ++ [c] ++ cs). rewrite Et, drop_app_length, <- app_assoc, drop_app_length. done.
    + destruct (IH l Hl) as [E1 E2]. rewrite E1, E2. assert (zlen l = cap) by lia. unfold zlen in *. 
      rewrite !take_app_le, !take_ge, !drop_all by lia. done.
Qed.

(** What completion adds to a line. *)
Definition completes (names : list (list Z)) (l : list Z) : list Z :=
  if decide (word l = []) then []
  else match unique_rest (word l) names with None => [] | Some rest => rest ++ [32] end.

Lemma word_nozero l : Forall (λ c, c ≠ 0) l → cstr (word l) = word l.
Proof.
  intros Hl. apply cstr_nozero. intros c Hc. rewrite Forall_forall in Hl. apply Hl.
  unfold word in Hc. rewrite <- (take_drop (word_start l (length l)) l). apply elem_of_app. by right.
Qed.

Lemma completion_completes entries l : Forall (λ c, c ≠ 0) l →
  completion (Some entries) (λ _, true) (word l) = completes (cstr <$> entries) l.
Proof.
  intros Hl. unfold completion, completes. rewrite find_match_unique, strlen_length, word_nozero by done.
  destruct (word l) as [|c w]; [done|]. rewrite (proj2 (Z.eqb_neq _ _)); [|rewrite zlen_cons; pose proof (zlen_nonneg w); lia].
  by rewrite decide_False.
Qed.

(** C18.  tab_complete() with the cursor at the end of the line: if exactly one
    name of the directory starts with the word before the cursor, the rest of
    the name and a space are added to the line and to the screen, as far as the
    line has room; otherwise nothing changes. *)
Theorem tab_completes s l entries :
  line_ok s l [] → Forall (λ c, c ≠ 0) l →
  let l' := take (Z.to_nat (r_bufend s)) (l ++ completes (cstr <$> entries) l) in
  wp (tab_complete (Some entries) (λ _, true)) s (λ _ s', edited s s' l' [] (render (drop (length l) l'))).
Proof.
  intros HL Hl l'. eapply wp_mono; [apply (tab_complete_ok (Some entries) (λ _, true) s (mkEd l [] [] None) HL)|].
  intros [] s' Ed. destruct (line_fits _ _ _ HL) as [Hf _]. rewrite app_nil_r in Hf.
  unfold a_tab, o_tab, a_clobber in Ed. cbn [e_left e_right] in Ed. rewrite completion_completes in Ed by done.
  destruct (inserts_end (r_bufend s) (completes (cstr <$> entries) l) l [] None Hf) as [E1 E2]. by rewrite E1, E2 in Ed.
Qed.

(** The shell's buffers, smaller. *)
Definition history0 : hist := rl_hinit (zeros 64) 64 (mkHist false [] 0 0 (replicate 8 0) (replicate 8 0) 0 0).
Definition editor0 : rl := mkRl (zeros 20) 19 0 0 false history0 (mkTty 10 0 0 0) [] [].
Definition typed : list event := Key <$> [108; 115; 32; 108; 2; 45; 5; 10].

Lemma stored0 : stored 19 (r_hist editor0) [].
Proof. by split; [|split_and!; [split|..]]. Qed.

(** On "a l" with the names "lsa" and "ms" the word becomes "lsa ". *)
Lemma tab_completes_witness :
  let s := mkRl ([97; 32; 108] ++ zeros 17) 19 3 3 false history0 (mkTty 10 0 0 0) [] [] in
  wp (tab_complete (Some [[108; 115; 97]; [109; 115]]) (λ _, true)) s (λ _ s',
    edited s s' [97; 32; 108; 115; 97; 32] [] [115; 97; 32]).
Proof.
  intros s. eapply wp_mono; [apply (tab_completes s [97; 32; 108] [[108; 115; 97]; [109; 115]]); [by split|by repeat constructor]|].
  intros [] s' Ed. exact Ed.
Defined.

(** ** A line *)



(** readline() returns the line as a string in the memory that it
    allocated, or NULL when there is no memory, on the interrupt, and on the end
    of the input at an empty line. *)
Theorem readline_returns listing dup_ok is_tty s H prompt p keys res e :
  let hcap := h_bufend (r_hist s) in
  zlen p = 256 → stored 254 (r_hist s) H → t_cleanup (r_tty s) ≠ 1 →
  Forall (λ ev, answered false ev = true) keys →
  a_loop listing dup_ok 254 hcap false false keys (start H) = Some (res, e) →
  readline listing dup_ok is_tty prompt None keys s = Ret None s ∧
  wp (readline listing dup_ok is_tty prompt (Some p) keys) s (λ v s',
    stored 254 (r_hist s') (match res with None => e_hist e | Some _ => closed (r_hist s) e end) ∧
    r_tty s' = tty_after is_tty (r_tty s) ∧
    (result res (e_line e) < 0 → v = None) ∧
    (0 ≤ result res (e_line e) → ∃ rest, v = Some (e_line e ++ 0 :: rest) ∧ zlen (e_line e ++ 0 :: rest) = 256)).
Proof.
  intros hcap Hp Hs Ht Ha Hl. split; [done|]. unfold readline, rl_edit.
  eapply wp_bind_mono; [apply (rl_edit_timeout_ok listing dup_ok is_tty false s H prompt p 255 keys res e); [lia|done..]|].
  intros v s' (-> & Hz & Es & Ez & Et & St & _). set (t := e_line e) in *. pose proof (zlen_nonneg t).
  destruct (Z.ltb_spec (result res t) 0); [apply wp_ret; split_and!; [done|done|done|lia]|].
  assert (result res t = zlen t) as ->.
  { unfold result in *. destruct res as [r|]; [|lia]. case_decide as E; [|done]. rewrite E. by destruct (r =? 0). }
  apply wp_bind, wp_wr; [lia|]. apply wp_bind, wp_gets. apply wp_ret. split_and!; [done|done|lia|]. intros _.
  cbn [set_buf r_buf]. set (b := splice (r_buf s') (zlen t) [0]).
  assert (zlen b = 256) as Hb by (unfold b; rewrite zlen_splice; rewrite ?zlen_single; lia).
  exists (drop (length t + 1) (r_buf s')). assert (b = t ++ 0 :: drop (length t + 1) (r_buf s')) as <-; [|done].
  unfold b, splice. unfold slice, zlen in Es |- *. rewrite Nat2Z.id in *. rewrite drop_0 in Es. by rewrite Es.
Qed.

(** ** The screen *)

(** C17.  While a line is typed the row of the terminal shows the prompt and the
    line as it is in the buffer, with the cursor at its place in the line and
    nothing after the line: after any ASCII keys but TAB, ^R and ^V. *)
Theorem screen_shows_line listing dup_ok is_tty has_timeout H s prompt input len keys :
  1 ≤ len ≤ zlen input → stored (len - 1) (r_hist s) H → Forall (Forall printable) H → Forall printable prompt →
  Forall (λ ev, tidy_key ev = true ∧ answered has_timeout ev = true) keys →
  wp (rl_start is_tty prompt input len ;; edit_keys listing dup_ok has_timeout prompt false false keys) s (λ _ s',
    ∃ out l r n, r_out s' = r_out s ++ out ∧ line_ok s' l r ∧
      term out (mkScr [] []) = mkScr (prompt ++ l) (r ++ blanks n)).
Proof.
  intros Hl Hs HP Hpr Hk. eapply wp_mono; [by apply (start_shown listing dup_ok is_tty has_timeout prompt H)|]. intros v s' (out & l & r & O & L & n & S). by exists out, l, r, n.
Qed.

Lemma screen_shows_line_witness :
  wp (rl_start true [36; 32] (zeros 20) 20 ;; edit_keys None (λ _, true) false [36; 32] false false (take 6 typed)) editor0 (λ _ s',
    ∃ out l r n, r_out s' = out ∧ line_ok s' l r ∧ term out (mkScr [] []) = mkScr ([36; 32] ++ l) (r ++ blanks n)).
Proof.
  eapply wp_mono; [apply (screen_shows_line None (λ _, true) true false [] editor0 [36; 32] (zeros 20) 20 (take 6 typed));
    [done|apply stored0|done| |]|intros v s' Hs; exact Hs].
  - apply Forall_cons_2; [|apply Forall_singleton]; unfold printable; lia.
  - by repeat constructor.
Defined.
