(* ===== verification/Libqsort.v ===== *)
(** * qsort() (lib/stdlib/qsort.c)

    An array of objects is a list, and a pointer to an object is its index.
    The comparison function is a parameter, as it is in C.  Bytes are moved
    object by object. *)

From S2P Require Import Prelude Bytes.
From Stdlib Require Import Sorting.

Definition MTHRESH : nat := 6.
Definition THRESH : nat := 4.

Section qsort.
Context {A : Type} `{Inhabited A}.
Variable compar : A → A → Z.

(** SWAP(a, b) *)
Definition qswap (arr : list A) (a b : nat) : list A := <[a := arr !!! b]> (<[b := arr !!! a]> arr).

(** [for (t2 = t1; (t2 -= size) >= bot && compar(t1, t2) < 0;);] and
    [t2 += size], with [k] objects from [bot] to [t1]. *)
Fixpoint find_place (k : nat) (arr : list A) (t1 bot : nat) : nat :=
  match k with
  | O => bot
  | S k => if compar (arr !!! t1) (arr !!! (bot + k)%nat) <? 0 then find_place k arr t1 bot else (bot + S k)%nat
  end.

(** [for (s1 = s2 = t1; (s2 -= size) >= t2; s1 = s2) *s1 = *s2; *s1 = ch;] with
    [k] objects from [t2] to [s1]. *)
Fixpoint bubble (k : nat) (ch : A) (arr : list A) (s1 : nat) : list A :=
  match k with
  | O => <[s1 := ch]> arr
  | S k => bubble k ch (<[s1 := arr !!! (s1 - 1)%nat]> arr) (s1 - 1)
  end.

(** The loop of insertion_sort(), with [n] objects to go. *)
Fixpoint insert_from (n : nat) (arr : list A) (bot t1 : nat) : list A :=
  match n with
  | O => arr
  | S n =>
      let t2 := find_place (t1 - bot) arr t1 bot in
      let arr := if negb (t1 =? t2)%nat then bubble (t1 - t2) (arr !!! t1) arr t1 else arr in
      insert_from n arr bot (S t1)
  end.

Definition insertion_sort (arr : list A) (bot nmemb : nat) : list A := insert_from (nmemb - 1) arr bot (bot + 1).

(** SORT(bot, n) *)
Definition SORT (arr : list A) (bot n : nat) : list A :=
  if (1 <? n)%nat then
    if (n =? 2)%nat then
      if compar (arr !!! (bot + 1)%nat) (arr !!! bot) <? 0 then qswap arr (bot + 1) bot else arr
    else insertion_sort arr bot n
  else arr.

(** [for (; bot < mid && compar(bot, mid) <= 0; bot += size);] *)
Fixpoint scan_up (n : nat) (arr : list A) (bot mid : nat) : nat :=
  match n with
  | O => bot
  | S n => if compar (arr !!! bot) (arr !!! mid) <=? 0 then scan_up n arr (S bot) mid else bot
  end.

(** The loop [while (top > mid)] up to its goto. *)
Fixpoint scan_down (n : nat) (arr : list A) (mid top : nat) : nat :=
  match n with
  | O => top
  | S n => if compar (arr !!! mid) (arr !!! top) <=? 0 then scan_down n arr mid (top - 1) else top
  end.

(** The loop [for (bsv = bot;;)]: the array, mid and didswap. *)
Fixpoint partition (fuel : nat) (arr : list A) (bot mid top : nat) (didswap : bool) : option (list A * nat * bool) :=
  match fuel with
  | O => None
  | S fuel =>
      let bot := scan_up (mid - bot) arr bot mid in
      let top := scan_down (top - mid) arr mid top in
      if (mid <? top)%nat then
        if (bot =? mid)%nat then partition fuel (qswap arr bot top) (S bot) top top true
        else partition fuel (qswap arr bot top) (S bot) mid (top - 1) true
      else if (bot =? mid)%nat then Some (arr, mid, didswap)
      else partition fuel (qswap arr bot mid) bot bot (top - 1) true
  end.

(** The first, the last or the middle object: the median. *)
Definition median (arr : list A) (bot mid top : nat) : nat :=
  let n1 := compar (arr !!! bot) (arr !!! mid) in
  let n2 := compar (arr !!! mid) (arr !!! top) in
  if (n1 <? 0) && (n2 >? 0) then if compar (arr !!! bot) (arr !!! top) <? 0 then top else bot
  else if (n1 >? 0) && (n2 <? 0) then if compar (arr !!! bot) (arr !!! top) >? 0 then top else bot
  else mid.

(** From the label [partition], with [rounds] jumps back to it at most; [rec]
    is the recursive call. *)
Fixpoint parts (rounds : nat) (rec : list A → nat → nat → option (list A)) (arr : list A) (bot nmemb : nat) : option (list A) :=
  match rounds with
  | O => None
  | S rounds =>
      let mid := (bot + nmemb / 2)%nat in
      let top := (bot + (nmemb - 1))%nat in
      let arr :=
        if (MTHRESH <=? nmemb)%nat then
          let t1 := median arr bot mid top in
          if negb (t1 =? mid)%nat then qswap arr t1 mid else arr
        else arr in
      '(arr, mid, didswap) ← partition nmemb arr bot mid top false;
      if negb didswap then Some (insertion_sort arr bot nmemb)
      else
        let nlower := (mid - bot)%nat in
        let mid := S mid in
        let nupper := (nmemb - nlower - 1)%nat in
        if (nupper <? nlower)%nat then
          if (THRESH <=? nupper)%nat then arr ← rec arr mid nupper; parts rounds rec arr bot nlower
          else
            let arr := SORT arr mid nupper in
            if (nlower <? THRESH)%nat then Some (SORT arr bot nlower) else parts rounds rec arr bot nlower
        else
          if (THRESH <=? nlower)%nat then arr ← rec arr bot nlower; parts rounds rec arr mid nupper
          else
            let arr := SORT arr bot nlower in
            if (nupper <? THRESH)%nat then Some (SORT arr mid nupper) else parts rounds rec arr mid nupper
  end.

(** quick_sort() with room for [depth] nested calls on the stack. *)
Fixpoint quick_sort (depth : nat) (arr : list A) (bot nmemb : nat) : option (list A) :=
  match depth with
  | O => None
  | S depth => parts nmemb (quick_sort depth) arr bot nmemb
  end.

Definition qsort (depth : nat) (arr : list A) : option (list A) :=
  let nmemb := length arr in
  if (nmemb <=? 1)%nat then Some arr
  else if (THRESH <=? nmemb)%nat then quick_sort depth arr 0 nmemb
  else Some (insertion_sort arr 0 nmemb).

(** ** What the comparison function must be: a total preorder *)

Definition cle (x y : A) : Prop := compar x y ≤ 0.
Hypothesis cflip : ∀ x y, compar x y < 0 ↔ compar y x > 0.
Hypothesis cle_trans : ∀ x y z, cle x y → cle y z → cle x z.

Lemma cle_of_lt x y : compar x y < 0 → cle x y.
Proof. unfold cle. lia. Qed.
Lemma cle_of_ge x y : 0 ≤ compar x y → cle y x.
Proof. unfold cle. pose proof (cflip x y). pose proof (cflip y x). lia. Qed.
Lemma cle_refl x : cle x x.
Proof. unfold cle. pose proof (cflip x x). lia. Qed.

(** ** Permutations of a part of the array *)

Record shuffles (b n : nat) (arr arr' : list A) : Prop := {
  sh_length : length arr' = length arr;
  sh_perm : arr' ≡ₚ arr;
  sh_out : ∀ i, (i < b ∨ b + n ≤ i)%nat → arr' !!! i = arr !!! i;
  sh_in : ∀ i, (b ≤ i < b + n)%nat → ∃ j, (b ≤ j < b + n)%nat ∧ arr' !!! i = arr !!! j;
}.

Lemma shuffle_refl b n arr : shuffles b n arr arr.
Proof. split; [done..|]. intros i Hi. by exists i. Qed.

Lemma shuffle_trans b n a1 a2 a3 : shuffles b n a1 a2 → shuffles b n a2 a3 → shuffles b n a1 a3.
Proof.
  intros [L1 P1 O1 I1] [L2 P2 O2 I2]. split; [lia|by rewrite P2|by intros i Hi; rewrite O2, O1|].
  intros i Hi. destruct (I2 i Hi) as (j & Hj & ->). by apply I1.
Qed.

Lemma shuffle_mono b n b' n' arr arr' : shuffles b n arr arr' → (b' ≤ b)%nat → (b + n ≤ b' + n')%nat → shuffles b' n' arr arr'.
Proof.
  intros [L P O I] Hb Hn. split; [done|done|intros i Hi; apply O; lia|]. intros i Hi.
  destruct (decide (b ≤ i < b + n)%nat) as [Hin|]; [|exists i; split; [done|apply O; lia]].
  destruct (I i Hin) as (j & Hj & E). exists j. split; [lia|done].
Qed.

Lemma length_qswap arr a b : length (qswap arr a b) = length arr.
Proof. unfold qswap. by rewrite !length_insert. Qed.

Lemma qswap_at arr a b k : (a < length arr)%nat → (b < length arr)%nat →
  qswap arr a b !!! k = if decide (k = a) then arr !!! b else if decide (k = b) then arr !!! a else arr !!! k.
Proof.
  intros Ha Hb. unfold qswap. case_decide; [subst; rewrite list_lookup_total_insert_eq; [done|by rewrite length_insert]|].
  rewrite list_lookup_total_insert_ne by done. case_decide; [subst; by rewrite list_lookup_total_insert_eq|].
  by rewrite list_lookup_total_insert_ne.
Qed.

Lemma shuffle_swap b n arr i j : (b ≤ i < b + n)%nat → (b ≤ j < b + n)%nat → (b + n ≤ length arr)%nat →
  shuffles b n arr (qswap arr i j).
Proof.
  intros Hi Hj Hn. split.
  - apply length_qswap.
  - unfold qswap. apply Permutation_insert_swap; apply list_lookup_lookup_total_lt; lia.
  - intros k Hk. rewrite qswap_at by lia. by rewrite !decide_False by lia.
  - intros k Hk. rewrite qswap_at by lia. repeat case_decide; eauto.
Qed.

Definition sorted_part (b n : nat) (arr : list A) : Prop :=
  ∀ i j, (b ≤ i)%nat → (i ≤ j)%nat → (j < b + n)%nat → cle (arr !!! i) (arr !!! j).

Record sorts (b n : nat) (arr arr' : list A) : Prop := {
  so_shuffles : shuffles b n arr arr';
  so_sorted : sorted_part b n arr';
}.

(** ** Insertion sort *)

Lemma find_place_ok k arr t1 bot : let p := find_place k arr t1 bot in
  (bot ≤ p ≤ bot + k)%nat ∧ (∀ i, (p ≤ i < bot + k)%nat → compar (arr !!! t1) (arr !!! i) < 0) ∧
  ((bot < p)%nat → 0 ≤ compar (arr !!! t1) (arr !!! (p - 1)%nat)).
Proof.
  induction k as [|k IH]; cbn [find_place]; cbv zeta in *; [split_and!; intros; lia|].
  destruct (Z.ltb_spec (compar (arr !!! t1) (arr !!! (bot + k)%nat)) 0) as [Hlt|Hge].
  - destruct IH as (H1 & H2 & H3). split_and!; [lia..| |done]. intros i Hi. destruct (decide (i = bot + k)%nat) as [->|]; [done|].
    apply H2. lia.
  - split_and!; [lia..|intros; lia|]. intros _. by replace (bot + S k - 1)%nat with (bot + k)%nat by lia.
Qed.

Lemma bubble_ok k ch : ∀ arr s1, (k ≤ s1 < length arr)%nat →
  let r := bubble k ch arr s1 in
  shuffles (s1 - k) (k + 1) (<[s1 := ch]> arr) r ∧ r !!! (s1 - k)%nat = ch ∧
  ∀ i, (s1 - k < i ≤ s1)%nat → r !!! i = arr !!! (i - 1)%nat.
Proof.
  induction k as [|k IH]; intros arr s1 Hk; cbn [bubble]; cbv zeta.
  { split_and!; [apply shuffle_refl|rewrite Nat.sub_0_r; apply list_lookup_total_insert_eq; lia|intros; lia]. }
  set (arr1 := <[s1 := arr !!! (s1 - 1)%nat]> arr). assert (length arr1 = length arr) as El by apply length_insert.
  destruct (IH arr1 (s1 - 1)%nat) as (H1 & H2 & H3); [lia|]. replace (s1 - 1 - k)%nat with (s1 - S k)%nat in * by lia.
  assert (<[(s1 - 1)%nat := ch]> arr1 = qswap (<[s1 := ch]> arr) s1 (s1 - 1)) as E.
  { unfold qswap, arr1. rewrite list_lookup_total_insert_ne by lia. rewrite list_lookup_total_insert_eq by lia.
    rewrite (list_insert_insert_ne _ s1 (s1 - 1)) by lia. by rewrite list_insert_insert_eq. }
  split_and!; [|done|].
  - eapply shuffle_trans; [|eapply shuffle_mono; [exact H1|lia..]]. rewrite E. apply shuffle_swap; rewrite ?length_insert; lia.
  - intros i Hi. destruct (decide (i = s1)) as [->|].
    + destruct H1 as [_ _ O _]. rewrite O by lia. rewrite list_lookup_total_insert_ne by lia.
      unfold arr1. by rewrite list_lookup_total_insert_eq by lia.
    + rewrite H3 by lia. unfold arr1. by rewrite list_lookup_total_insert_ne by lia.
Qed.

(** One object put in its place. *)
Lemma insert_one arr bot t1 : (bot ≤ t1 < length arr)%nat → sorted_part bot (t1 - bot) arr →
  let t2 := find_place (t1 - bot) arr t1 bot in
  sorts bot (t1 - bot + 1) arr (if negb (t1 =? t2)%nat then bubble (t1 - t2) (arr !!! t1) arr t1 else arr).
Proof.
  intros Ht Hs t2. destruct (find_place_ok (t1 - bot) arr t1 bot) as (H1 & H2 & H3). fold t2 in H1, H2, H3.
  set (x := arr !!! t1) in *. replace (bot + (t1 - bot))%nat with t1 in * by lia.
  match goal with |- sorts _ _ _ ?z => set (r := z) end.
  assert (shuffles bot (t1 - bot + 1) arr r ∧ r !!! t2 = x ∧ ∀ i, (t2 < i ≤ t1)%nat → r !!! i = arr !!! (i - 1)%nat) as (R1 & R2 & R3).
  { unfold r. destruct (Nat.eqb_spec t1 t2) as [E|E]; cbn [negb].
    - split_and!; [apply shuffle_refl|by rewrite <- E|intros; lia].
    - destruct (bubble_ok (t1 - t2) x arr t1) as (B1 & B2 & B3); [lia|]. replace (t1 - (t1 - t2))%nat with t2 in * by lia.
      unfold x in B1. rewrite list_insert_id in B1 by (apply list_lookup_lookup_total_lt; lia).
      split_and!; [eapply shuffle_mono; [exact B1|lia..]|done|done]. }
  assert (∀ i, (i < t2)%nat → r !!! i = arr !!! i) as R4.
  { intros i Hi. unfold r. destruct (Nat.eqb_spec t1 t2) as [E|E]; cbn [negb]; [done|].
    destruct (bubble_ok (t1 - t2) x arr t1) as ([_ _ B _] & _ & _); [lia|]. rewrite B by lia. by rewrite list_lookup_total_insert_ne by lia. }
  split; [done|]. intros i j Hi Hij Hj.
  assert (∀ k, (bot ≤ k < t2)%nat → cle (arr !!! k) x) as Hlow.
  { intros k Hk. eapply cle_trans; [apply (Hs k (t2 - 1)%nat); lia|]. apply cle_of_ge, H3. lia. }
  assert (∀ k, (t2 ≤ k < t1)%nat → cle x (arr !!! k)) as Hhigh by (intros k Hk; apply cle_of_lt, H2; lia).
  destruct (decide (j < t2)%nat); [rewrite !R4 by lia; apply Hs; lia|].
  destruct (decide (j = t2)) as [->|].
  - rewrite R2. destruct (decide (i = t2)) as [->|]; [rewrite R2; apply cle_refl|]. rewrite R4 by lia. apply Hlow. lia.
  - rewrite (R3 j) by lia. destruct (decide (i < t2)%nat); [rewrite R4 by lia; apply Hs; lia|].
    destruct (decide (i = t2)) as [->|]; [rewrite R2; apply Hhigh; lia|]. rewrite (R3 i) by lia. apply Hs; lia.
Qed.

Lemma insert_from_ok n : ∀ arr bot t1, (bot ≤ t1)%nat → (t1 + n ≤ length arr)%nat → sorted_part bot (t1 - bot) arr →
  sorts bot (t1 - bot + n) arr (insert_from n arr bot t1).
Proof.
  induction n as [|n IH]; intros arr bot t1 Hb Hn Hs; cbn [insert_from].
  { split; [apply shuffle_refl|]. by rewrite Nat.add_0_r. }
  destruct (insert_one arr bot t1) as [S1 S2]; [lia|done|]. match type of S1 with shuffles _ _ _ ?z => set (arr1 := z) in * end.
  replace (t1 - bot + 1)%nat with (S t1 - bot)%nat in * by lia.
  destruct (IH arr1 bot (S t1)) as [S3 S4]; [lia|rewrite (sh_length _ _ _ _ S1); lia|done|].
  replace (t1 - bot + S n)%nat with (S t1 - bot + n)%nat by lia.
  split; [|done]. eapply shuffle_trans; [eapply shuffle_mono; [exact S1|lia..]|done].
Qed.

Lemma sorted_one b arr : sorted_part b 1 arr.
Proof. intros i j Hi Hij Hj. replace j with i by lia. apply cle_refl. Qed.

Lemma insertion_sort_ok arr bot nmemb : (bot + nmemb ≤ length arr)%nat → sorts bot nmemb arr (insertion_sort arr bot nmemb).
Proof.
  intros Hn. unfold insertion_sort. destruct nmemb as [|n].
  { split; [apply shuffle_refl|]. intros i j. lia. }
  destruct (insert_from_ok n arr bot (bot + 1)) as [S1 S2]; [lia|lia|replace (bot + 1 - bot)%nat with 1%nat by lia; apply sorted_one|].
  replace (bot + 1 - bot + n)%nat with (S n) in * by lia. simpl. rewrite Nat.sub_0_r. by split.
Qed.

Lemma SORT_ok arr bot n : (bot + n ≤ length arr)%nat → sorts bot n arr (SORT arr bot n).
Proof.
  intros Hn. unfold SORT. destruct (Nat.ltb_spec 1 n) as [H1|H1].
  2:{ split; [apply shuffle_refl|]. intros i j Hi Hij Hj. replace j with i by lia. apply cle_refl. }
  destruct (Nat.eqb_spec n 2) as [->|]; [|by apply insertion_sort_ok].
  destruct (Z.ltb_spec (compar (arr !!! (bot + 1)%nat) (arr !!! bot)) 0) as [Hlt|Hge].
  - split; [apply shuffle_swap; lia|]. intros i j Hi Hij Hj. rewrite !qswap_at by lia.
    destruct (decide (i = j)) as [->|]; [apply cle_refl|]. assert (i = bot ∧ j = bot + 1)%nat as [-> ->] by lia.
    rewrite (decide_False (P := bot = (bot + 1)%nat)), !decide_True by lia. by apply cle_of_lt.
  - split; [apply shuffle_refl|]. intros i j Hi Hij Hj. destruct (decide (i = j)) as [->|]; [apply cle_refl|].
    assert (i = bot ∧ j = bot + 1)%nat as [-> ->] by lia. by apply cle_of_ge.
Qed.

(** ** Partitioning *)

Lemma scan_up_ok n arr mid : ∀ bot, let p := scan_up n arr bot mid in
  (bot ≤ p ≤ bot + n)%nat ∧ (∀ i, (bot ≤ i < p)%nat → cle (arr !!! i) (arr !!! mid)) ∧
  ((p < bot + n)%nat → 0 < compar (arr !!! p) (arr !!! mid)).
Proof.
  induction n as [|n IH]; intros bot; cbn [scan_up]; cbv zeta in *; [split_and!; intros; lia|].
  destruct (Z.leb_spec (compar (arr !!! bot) (arr !!! mid)) 0); [|split_and!; intros; lia].
  destruct (IH (S bot)) as (H1 & H2 & H3). split_and!; [lia..| |intros; apply H3; lia].
  intros i Hi. destruct (decide (i = bot)) as [->|]; [done|]. apply H2. lia.
Qed.

Lemma scan_down_ok n arr mid : ∀ top, (n ≤ top)%nat → let p := scan_down n arr mid top in
  (top - n ≤ p ≤ top)%nat ∧ (∀ i, (p < i ≤ top)%nat → cle (arr !!! mid) (arr !!! i)) ∧
  ((top - n < p)%nat → 0 < compar (arr !!! mid) (arr !!! p)).
Proof.
  induction n as [|n IH]; intros top Hn; cbn [scan_down]; cbv zeta in *; [split_and!; intros; lia|].
  destruct (Z.leb_spec (compar (arr !!! mid) (arr !!! top)) 0); [|split_and!; intros; lia].
  destruct (IH (top - 1)%nat) as (H1 & H2 & H3); [lia|]. split_and!; [lia..| |intros; apply H3; lia].
  intros i Hi. destruct (decide (i = top)) as [->|]; [done|]. apply H2. lia.
Qed.

(** The objects before [lo] are not larger, those after [hi] not smaller, than
    the one at [mid]. *)
Record split_at (b t : nat) (arr : list A) (lo mid hi : nat) : Prop := {
  sp_range : (b ≤ lo ≤ mid)%nat ∧ (mid ≤ hi ≤ t)%nat ∧ (t < length arr)%nat;
  sp_low : ∀ i, (b ≤ i < lo)%nat → cle (arr !!! i) (arr !!! mid);
  sp_high : ∀ i, (hi < i ≤ t)%nat → cle (arr !!! mid) (arr !!! i);
}.

Section steps.
Context (b t : nat) (arr : list A) (lo mid hi : nat) (HS : split_at b t arr lo mid hi).

Lemma split_scan : split_at b t arr (scan_up (mid - lo) arr lo mid) mid (scan_down (hi - mid) arr mid hi).
Proof.
  destruct HS as [(R1 & R2 & R3) L U]. destruct (scan_up_ok (mid - lo) arr mid lo) as (A1 & A2 & A3).
  destruct (scan_down_ok (hi - mid) arr mid hi) as (B1 & B2 & B3); [lia|]. split; [lia|..].
  - intros i Hi. destruct (decide (i < lo)%nat); [apply L; lia|apply A2; lia].
  - intros i Hi. destruct (decide (hi < i)%nat); [apply U; lia|apply B2; lia].
Qed.

(** top <-> mid *)
Lemma split_top : lo = mid → (mid < hi)%nat → 0 < compar (arr !!! mid) (arr !!! hi) →
  split_at b t (qswap arr lo hi) (S lo) hi hi.
Proof.
  intros -> Hm Hc. destruct HS as [(R1 & R2 & R3) L U]. split; [rewrite length_qswap; lia|..].
  - intros i Hi. rewrite !qswap_at by lia. rewrite (decide_False (P := hi = mid)), (decide_True (P := hi = hi)) by lia.
    destruct (decide (i = mid)) as [->|]; [apply cle_of_ge; lia|]. rewrite decide_False by lia. apply L. lia.
  - intros i Hi. rewrite !qswap_at by lia. rewrite (decide_False (P := hi = mid)), (decide_True (P := hi = hi)), !decide_False by lia.
    apply U. lia.
Qed.

(** bot <-> top *)
Lemma split_both : (lo < mid)%nat → (mid < hi)%nat → 0 < compar (arr !!! lo) (arr !!! mid) → 0 < compar (arr !!! mid) (arr !!! hi) →
  split_at b t (qswap arr lo hi) (S lo) mid (hi - 1).
Proof.
  intros Hl Hm C1 C2. destruct HS as [(R1 & R2 & R3) L U]. split; [rewrite length_qswap; lia|..].
  - intros i Hi. rewrite !qswap_at by lia. rewrite (decide_False (P := mid = lo)), (decide_False (P := mid = hi)) by lia.
    destruct (decide (i = lo)) as [->|]; [apply cle_of_ge; lia|]. rewrite decide_False by lia. apply L. lia.
  - intros i Hi. rewrite !qswap_at by lia. rewrite (decide_False (P := mid = lo)), (decide_False (P := mid = hi)), (decide_False (P := i = lo)) by lia.
    destruct (decide (i = hi)) as [->|]; [apply cle_of_ge; lia|]. apply U. lia.
Qed.

(** bot <-> mid *)
Lemma split_bot : (lo < mid)%nat → hi = mid → 0 < compar (arr !!! lo) (arr !!! mid) →
  split_at b t (qswap arr lo mid) lo lo (hi - 1).
Proof.
  intros Hl -> C1. destruct HS as [(R1 & R2 & R3) L U]. split; [rewrite length_qswap; lia|..].
  - intros i Hi. rewrite !qswap_at by lia. rewrite (decide_True (P := lo = lo)), !decide_False by lia. apply L. lia.
  - intros i Hi. rewrite !qswap_at by lia. rewrite (decide_True (P := lo = lo)), (decide_False (P := i = lo)) by lia.
    destruct (decide (i = mid)) as [->|]; [apply cle_of_ge; lia|]. apply U. lia.
Qed.

Lemma split_swap_shuffle i j : (b ≤ i ≤ t)%nat → (b ≤ j ≤ t)%nat → shuffles b (t + 1 - b) arr (qswap arr i j).
Proof. intros Hi Hj. destruct HS as [(R1 & R2 & R3) L U]. apply shuffle_swap; lia. Qed.
End steps.

Lemma partition_ok b t fuel : ∀ arr lo mid hi d, split_at b t arr lo mid hi → (hi - lo < fuel)%nat →
  ∃ arr' m d', partition fuel arr lo mid hi d = Some (arr', m, d') ∧ shuffles b (t + 1 - b) arr arr' ∧ split_at b t arr' m m m.
Proof.
  induction fuel as [|fuel IH]; intros arr lo mid hi d HS Hf; [lia|]. cbn [partition].
  pose proof (split_scan _ _ _ _ _ _ HS) as HS1. pose proof (sp_range _ _ _ _ _ _ HS) as R0.
  destruct (scan_up_ok (mid - lo) arr mid lo) as (A1 & _ & A3).
  destruct (scan_down_ok (hi - mid) arr mid hi) as (B1 & _ & B3); [lia|].
  set (lo1 := scan_up _ _ _ _) in *. set (hi1 := scan_down _ _ _ _) in *. pose proof (sp_range _ _ _ _ _ _ HS1) as R1.
  assert (∀ arr2 lo2 mid2 hi2, split_at b t arr2 lo2 mid2 hi2 → (hi2 - lo2 < hi - lo)%nat → shuffles b (t + 1 - b) arr arr2 →
    ∃ arr' m d', partition fuel arr2 lo2 mid2 hi2 true = Some (arr', m, d') ∧ shuffles b (t + 1 - b) arr arr' ∧ split_at b t arr' m m m) as Hnext.
  { intros arr2 lo2 mid2 hi2 H1 H2 H3. destruct (IH arr2 lo2 mid2 hi2 true H1) as (arr' & m & d' & -> & E2 & E3); [lia|].
    exists arr', m, d'. split_and!; [done|by eapply shuffle_trans|done]. }
  destruct (Nat.ltb_spec mid hi1), (Nat.eqb_spec lo1 mid).
  - apply Hnext; [apply (split_top b t arr lo1 mid hi1); try done; apply B3; lia|lia|apply (split_swap_shuffle b t arr lo1 mid hi1); [done|lia..]].
  - apply Hnext; [apply split_both; try done; [lia|apply A3; lia|apply B3; lia]|lia|apply (split_swap_shuffle b t arr lo1 mid hi1); [done|lia..]].
  - exists arr, mid, d. split_and!; [done|apply shuffle_refl|]. replace hi1 with mid in HS1 by lia. by replace lo1 with mid in HS1 by lia.
  - apply Hnext; [apply split_bot; try done; [lia|lia|apply A3; lia]|lia|apply (split_swap_shuffle b t arr lo1 mid hi1); [done|lia..]].
Qed.

(** ** The partitions sorted *)

Lemma sorts_after b n a1 a2 a3 : shuffles b n a1 a2 → sorts b n a2 a3 → sorts b n a1 a3.
Proof. intros H1 [H2 H3]. split; [by eapply shuffle_trans|done]. Qed.

Lemma sorted_keep b n b' n' arr arr' : sorted_part b n arr → shuffles b' n' arr arr' → (b + n ≤ b' ∨ b' + n' ≤ b)%nat →
  sorted_part b n arr'.
Proof. intros Hs [_ _ O _] Hd i j Hi Hij Hj. rewrite !O by lia. by apply Hs. Qed.

Section joined.
Context (b t m : nat) (arr arr' : list A) (HS : split_at b t arr m m m).

Lemma split_low : shuffles b (m - b) arr arr' → split_at b t arr' m m m.
Proof.
  intros [El _ O I]. destruct HS as [(R1 & R2 & R3) L U]. split; [lia|..].
  - intros i Hi. rewrite (O m) by lia. destruct (I i) as (j & Hj & ->); [lia|]. apply L. lia.
  - intros i Hi. rewrite !O by lia. by apply U.
Qed.

Lemma split_high : shuffles (S m) (t - m) arr arr' → split_at b t arr' m m m.
Proof.
  intros [El _ O I]. destruct HS as [(R1 & R2 & R3) L U]. split; [lia|..].
  - intros i Hi. rewrite !O by lia. by apply L.
  - intros i Hi. rewrite (O m) by lia. destruct (I i) as (j & Hj & ->); [lia|]. apply U. lia.
Qed.

Lemma split_sorted : sorted_part b (m - b) arr → sorted_part (S m) (t - m) arr → sorted_part b (t + 1 - b) arr.
Proof.
  intros S1 S2 i j Hi Hij Hj. destruct HS as [(R1 & R2 & R3) L U]. destruct (decide (j < m)%nat); [apply S1; lia|].
  destruct (decide (m < i)%nat); [apply S2; lia|].
  apply (cle_trans _ (arr !!! m)).
  - destruct (decide (i = m)) as [->|]; [apply cle_refl|apply L; lia].
  - destruct (decide (j = m)) as [->|]; [apply cle_refl|apply U; lia].
Qed.
End joined.

(** In whichever order the two partitions are sorted. *)
Lemma low_high b t m a1 a2 a3 : split_at b t a1 m m m → sorts b (m - b) a1 a2 → sorts (S m) (t - m) a2 a3 → sorts b (t + 1 - b) a1 a3.
Proof.
  intros HS [H1 S1] [H2 S2]. pose proof (sp_range _ _ _ _ _ _ HS) as R. split.
  - eapply shuffle_trans; [eapply shuffle_mono; [exact H1|lia..]|eapply shuffle_mono; [exact H2|lia..]].
  - pose proof (split_low _ _ _ _ _ HS H1) as HS2. pose proof (split_high _ _ _ _ _ HS2 H2) as HS3.
    apply (split_sorted b t m a3 HS3); [|done]. eapply sorted_keep; [exact S1|exact H2|lia].
Qed.

Lemma high_low b t m a1 a2 a3 : split_at b t a1 m m m → sorts (S m) (t - m) a1 a2 → sorts b (m - b) a2 a3 → sorts b (t + 1 - b) a1 a3.
Proof.
  intros HS [H1 S1] [H2 S2]. pose proof (sp_range _ _ _ _ _ _ HS) as R. split.
  - eapply shuffle_trans; [eapply shuffle_mono; [exact H1|lia..]|eapply shuffle_mono; [exact H2|lia..]].
  - pose proof (split_high _ _ _ _ _ HS H1) as HS2. pose proof (split_low _ _ _ _ _ HS2 H2) as HS3.
    apply (split_sorted b t m a3 HS3); [done|]. eapply sorted_keep; [exact S1|exact H2|lia].
Qed.

(** ** The recursion *)

Lemma median_in arr bot mid top : median arr bot mid top = bot ∨ median arr bot mid top = mid ∨ median arr bot mid top = top.
Proof. unfold median. repeat case_match; auto. Qed.

Section rec.
Context (bound : nat) (rec : list A → nat → nat → option (list A)).
Context (Hrec : ∀ arr bot n, (0 < n < bound)%nat → (bot + n ≤ length arr)%nat → ∃ arr', rec arr bot n = Some arr' ∧ sorts bot n arr arr').

Lemma parts_ok rounds : ∀ arr bot nmemb, (0 < nmemb ≤ rounds)%nat → (nmemb < 2 * bound)%nat → (bot + nmemb ≤ length arr)%nat →
  ∃ arr', parts rounds rec arr bot nmemb = Some arr' ∧ sorts bot nmemb arr arr'.
Proof.
  induction rounds as [|rounds IH]; intros arr bot nmemb Hn Hb Hl; [lia|]. cbn [parts].
  pose proof (Nat.div_lt nmemb 2 ltac:(lia) ltac:(lia)) as Hdiv. set (mid := (bot + nmemb / 2)%nat). set (top := (bot + (nmemb - 1))%nat).
  match goal with |- context [partition nmemb ?a _ _ _ _] => set (arr1 := a) end.
  assert (shuffles bot nmemb arr arr1) as H1.
  { unfold arr1. destruct (_ <=? _)%nat; [|apply shuffle_refl]. destruct (negb _); [|apply shuffle_refl].
    apply shuffle_swap; [|unfold mid; lia|lia]. destruct (median_in arr bot mid top) as [->|[->| ->]]; unfold mid, top; lia. }
  assert (split_at bot top arr1 bot mid top) as HS.
  { split; [rewrite (sh_length _ _ _ _ H1); unfold mid, top; lia|intros; lia|intros; lia]. }
  destruct (partition_ok bot top nmemb arr1 bot mid top false HS) as (arr2 & m & d & -> & H2 & HS2); [unfold top; lia|].
  assert (top + 1 - bot = nmemb)%nat as En by (unfold top; lia). rewrite En in H2. cbn [mbind option_bind].
  pose proof (sp_range _ _ _ _ _ _ HS2) as R. pose proof (shuffle_trans _ _ _ _ _ H1 H2) as H12.
  assert (length arr2 = length arr) as El by apply H12.
  assert (nmemb - (m - bot) - 1 = top - m)%nat as Eu by lia. rewrite Eu.
  destruct d; cbn [negb].
  2:{ eexists. split; [done|]. eapply sorts_after; [exact H12|]. apply insertion_sort_ok. lia. }
  assert (∀ a a', sorts bot (top + 1 - bot) arr2 a' → a = Some a' → ∃ arr', a = Some arr' ∧ sorts bot nmemb arr arr') as Hdone.
  { intros a a' Hs ->. exists a'. split; [done|]. rewrite En in Hs. by eapply sorts_after. }
  assert (length (SORT arr2 (S m) (top - m)) = length arr2 ∧ length (SORT arr2 bot (m - bot)) = length arr2) as [L1 L2].
  { split; [apply (SORT_ok arr2 (S m) (top - m)); lia|apply (SORT_ok arr2 bot (m - bot)); lia]. }
  unfold THRESH. destruct (Nat.ltb_spec (top - m) (m - bot)).
  - destruct (Nat.leb_spec 4 (top - m)).
    + destruct (Hrec arr2 (S m) (top - m)) as (a3 & -> & K3); [lia|lia|]. cbn [mbind option_bind].
      destruct (IH a3 bot (m - bot)%nat) as (a4 & E4 & K4); [lia|lia|rewrite (sh_length _ _ _ _ (so_shuffles _ _ _ _ K3)); lia|].
      eapply Hdone; [by eapply high_low|done].
    + pose proof (SORT_ok arr2 (S m) (top - m) ltac:(lia)) as K3. destruct (Nat.ltb_spec (m - bot) 4).
      * eapply Hdone; [eapply high_low; [done|exact K3|apply SORT_ok; lia]|done].
      * destruct (IH (SORT arr2 (S m) (top - m)) bot (m - bot)%nat) as (a4 & E4 & K4); [lia..|]. eapply Hdone; [by eapply high_low|done].
  - destruct (Nat.leb_spec 4 (m - bot)).
    + destruct (Hrec arr2 bot (m - bot)%nat) as (a3 & -> & K3); [lia|lia|]. cbn [mbind option_bind].
      destruct (IH a3 (S m) (top - m)%nat) as (a4 & E4 & K4); [lia|lia|rewrite (sh_length _ _ _ _ (so_shuffles _ _ _ _ K3)); lia|].
      eapply Hdone; [by eapply low_high|done].
    + pose proof (SORT_ok arr2 bot (m - bot) ltac:(lia)) as K3. destruct (Nat.ltb_spec (top - m) 4).
      * eapply Hdone; [eapply low_high; [done|exact K3|apply SORT_ok; lia]|done].
      * destruct (IH (SORT arr2 bot (m - bot)) (S m) (top - m)%nat) as (a4 & E4 & K4); [lia..|]. eapply Hdone; [by eapply low_high|done].
Qed.
End rec.

Lemma quick_sort_ok depth : ∀ arr bot nmemb, (0 < nmemb < 2 ^ depth)%nat → (bot + nmemb ≤ length arr)%nat →
  ∃ arr', quick_sort depth arr bot nmemb = Some arr' ∧ sorts bot nmemb arr arr'.
Proof.
  induction depth as [|depth IH]; intros arr bot nmemb Hn Hl; [simpl in Hn; lia|]. cbn [quick_sort].
  apply (parts_ok (2 ^ depth)); [done|lia|simpl in Hn; lia|done].
Qed.

Lemma sorted_whole arr : sorted_part 0 (length arr) arr → StronglySorted cle arr.
Proof.
  induction arr as [|x arr IH]; intros Hs; [constructor|]. constructor.
  - apply IH. intros i j Hi Hij Hj. apply (Hs (S i) (S j)); simpl in *; lia.
  - apply Forall_lookup. intros i y Hy. pose proof (lookup_lt_Some _ _ _ Hy).
    specialize (Hs 0%nat (S i) ltac:(lia) ltac:(lia) ltac:(simpl; lia)). simpl in Hs.
    by rewrite (list_lookup_total_correct _ _ _ Hy) in Hs.
Qed.

(** C28.  qsort() ends, with a sorted permutation of the array; quick_sort() is
    never nested deeper than the number of binary digits of the number of
    objects, as its comment promises.  The comparison function has to be a total
    preorder. *)
Theorem qsort_sorts arr depth : (length arr < 2 ^ depth)%nat →
  ∃ arr', qsort depth arr = Some arr' ∧ arr' ≡ₚ arr ∧ StronglySorted cle arr'.
Proof.
  intros Hd. unfold qsort. destruct (Nat.leb_spec (length arr) 1).
  { exists arr. split_and!; [done|done|]. destruct arr as [|x [|]]; [constructor|by repeat constructor|simpl in *; lia]. }
  assert (∃ arr', (if (THRESH <=? length arr)%nat then quick_sort depth arr 0 (length arr) else Some (insertion_sort arr 0 (length arr))) = Some arr' ∧
    sorts 0 (length arr) arr arr') as (arr' & E & [H1 H2]).
  { destruct (_ <=? _)%nat; [apply quick_sort_ok; lia|]. eexists. split; [done|]. by apply insertion_sort_ok. }
  exists arr'. split_and!; [done|apply H1|]. apply sorted_whole. by rewrite (sh_length _ _ _ _ H1).
Qed.
End qsort.

Lemma qsort_sorts_witness :
  ∃ arr', qsort (λ x y, x - y) 4 [5; 3; 8; 1; 9; 2; 2; 7; 0; 11; 4] = Some arr' ∧
    arr' ≡ₚ [5; 3; 8; 1; 9; 2; 2; 7; 0; 11; 4] ∧ StronglySorted (cle (λ x y, x - y)) arr'.
Proof.
  apply (qsort_sorts (λ x y, x - y)).
  - intros x y. lia.
  - unfold cle. intros x y z. lia.
  - simpl. lia.
Defined.
