(* ===== verification/Getopt.v ===== *)
(** * Command line options (lib/stdlib/getopt.c)

    The globals of the module and the static pointer [place] are a record; a
    pointer into an argument is the rest of the argument.  [nargc] is the length
    of [nargv].  What is written to stderr is returned. *)

From S2P Require Import Prelude Bytes KstringSpec Libstring.

Record gopt := mkGopt {
  g_optind : nat;
  g_optarg : option (list Z);
  g_optopt : Z;
  g_place : list Z;
}.

Definition getopt0 : gopt := mkGopt 1 None 0 [].

Definition BADCH : Z := 63.
Definition NOOPT : Z := 58.

Definition cstring (s : string) : list Z := (λ a, Z.of_nat (Ascii.nat_of_ascii a)) <$> String.list_ascii_of_string s.

Section getopt.
Context (nargv : list (list Z)) (opterr : bool) (ostr : list Z).

Definition progname : list Z :=
  let name := nargv !!! 0%nat in
  match rindex name 47 with None => name | Some i => drop (Z.to_nat (i + 1)) name end.

Definition complain (msg : string) (optopt : Z) : list Z :=
  if opterr && negb (first ostr =? 58) then progname ++ cstring msg ++ [u8 optopt; 10] else [].

(** The update of [place]: [inr] when the call returns -1. *)
Definition next_place (g : gopt) : gopt + gopt :=
  if negb (first (g_place g) =? 0) then inl g
  else if (length nargv <=? g_optind g)%nat then inr (mkGopt (g_optind g) (g_optarg g) (g_optopt g) [])
  else
    let place := nargv !!! g_optind g in
    if negb (first place =? 45) then inr (mkGopt (g_optind g) (g_optarg g) (g_optopt g) [])
    else if byte place 1 =? 0 then inl (mkGopt (g_optind g) (g_optarg g) (g_optopt g) place)
    else if byte place 1 =? 45 then inr (mkGopt (S (g_optind g)) (g_optarg g) (g_optopt g) [])
    else inl (mkGopt (g_optind g) (g_optarg g) (g_optopt g) (tail place)).

(** [if (!*place) ++optind;] *)
Definition bump_ind (place : list Z) (optind : nat) : nat := if first place =? 0 then S optind else optind.

(** The result, the globals and what is written. *)
Definition getopt (g : gopt) : Z * gopt * list Z :=
  match next_place g with
  | inr g => (-1, g, [])
  | inl g =>
      let optopt := schar (first (g_place g)) in
      let place := tail (g_place g) in
      let optind := g_optind g in
      match (if optopt =? 58 then None else index ostr optopt) with
      | None =>
          if optopt =? 45 then (-1, mkGopt optind (g_optarg g) optopt place, [])
          else (BADCH, mkGopt (bump_ind place optind) (g_optarg g) optopt place, complain ": illegal option -- " optopt)
      | Some oli =>
          if negb (byte ostr (oli + 1) =? 58) then (optopt, mkGopt (bump_ind place optind) None optopt place, [])
          else if negb (first place =? 0) then (optopt, mkGopt (S optind) (Some place) optopt [], [])
          else if (length nargv <=? S optind)%nat then
            (if first ostr =? 58 then NOOPT else BADCH, mkGopt (S optind) (g_optarg g) optopt [],
             complain ": option requires an argument -- " optopt)
          else (optopt, mkGopt (S (S optind)) (Some (nargv !!! S optind)) optopt [], [])
      end
  end.

(** The calls of getopt() up to the one that returns -1, with the result, the
    argument and the message of each. *)
Fixpoint getopt_all (fuel : nat) (g : gopt) : option (list (Z * option (list Z) * list Z) * gopt) :=
  match fuel with
  | O => None
  | S fuel =>
      let '(c, g, msg) := getopt g in
      if c =? -1 then Some ([], g)
      else match getopt_all fuel g with
           | None => None
           | Some (l, g') => Some ((c, g_optarg g, msg) :: l, g')
           end
  end.

(** ** What the arguments mean *)

Inductive item := Opt (c : Z) (arg : option (list Z)) | Bad (c : Z) | Missing (c : Z).

(** Whether the option takes an argument, if it is one. *)
Definition letter (c : Z) : option bool :=
  if c =? 58 then None else match index ostr c with None => None | Some i => Some (byte ostr (i + 1) =? 58) end.

(** The letters of one argument, and the arguments after them; [None] at a minus
    sign, where the options end with this argument as the first operand. *)
Fixpoint cluster (p : list Z) (rest : list (list Z)) : list item * option (list (list Z)) :=
  match p with
  | [] => ([], Some rest)
  | c :: q =>
      match letter c with
      | None => if c =? 45 then ([], None) else let x := cluster q rest in (Bad c :: x.1, x.2)
      | Some false => let x := cluster q rest in (Opt c None :: x.1, x.2)
      | Some true =>
          match q, rest with
          | _ :: _, _ => ([Opt c (Some q)], Some rest)
          | [], [] => ([Missing c], Some [])
          | [], a :: rest => ([Opt c (Some a)], Some rest)
          end
      end
  end.

(** The options and the operands. *)
Fixpoint scan (fuel : nat) (args : list (list Z)) : list item * list (list Z) :=
  match fuel, args with
  | S fuel, (m :: ((d :: _) as p)) :: rest =>
      if negb (m =? 45) then ([], args)
      else if d =? 45 then ([], rest)
      else
        let x := cluster p rest in
        match x.2 with
        | None => (x.1, args)
        | Some rest => let y := scan fuel rest in (x.1 ++ y.1, y.2)
        end
  | _, _ => ([], args)
  end.

Definition shows (i : item) (r : Z * option (list Z) * list Z) : Prop :=
  match i with
  | Opt c arg => r = (c, arg, [])
  | Bad c => r.1.1 = BADCH ∧ r.2 = complain ": illegal option -- " c
  | Missing c => r.1.1 = (if first ostr =? 58 then NOOPT else BADCH) ∧ r.2 = complain ": option requires an argument -- " c
  end.

(** ** The calls of getopt() *)

Context (ostr_ascii : Forall (λ c, 0 < c < 128) ostr) (no_minus : 45 ∉ ostr).
Context (argv_bytes : Forall (Forall (λ c, 0 < c < 256)) nargv).

Abbreviation good := (Forall (λ c : Z, 0 < c < 256)).

Lemma index_loop_in s ch : ∀ i j, Forall (λ c, 0 < c < 128) s → ch ≠ 0 → index_loop s ch i = Some j → ch ∈ s.
Proof.
  induction s as [|c s IH]; intros i j Hs H0; cbn [index_loop].
  - by rewrite (proj2 (Z.eqb_neq 0 ch)) by lia.
  - apply Forall_cons in Hs as [Hc Hs]. destruct (Z.eqb_spec c ch) as [->|_]; [left|].
    rewrite (proj2 (Z.eqb_neq c 0)) by lia. intros H. right. by eapply IH.
Qed.

Lemma index_elem ch j : 0 < ch < 256 → index ostr ch = Some j → 0 < ch < 128 ∧ ch ≠ 45.
Proof.
  unfold index, u8. intros Hc H. rewrite Z.mod_small in H by lia.
  apply index_loop_in in H; [|done|lia]. split; [exact (proj1 (Forall_forall _ _) ostr_ascii _ H)|by intros ->].
Qed.

Lemma index_schar ch : 0 < ch < 256 → index ostr (schar ch) = index ostr ch.
Proof. intros Hc. unfold index. rewrite schar_byte by lia. unfold u8. by rewrite Z.mod_small by lia. Qed.

Lemma schar_test ch k : 0 < ch < 256 → 0 ≤ k < 128 → (schar ch =? k) = (ch =? k).
Proof.
  intros Hc Hk. destruct (Z.eqb_spec ch k) as [->|Hn].
  - unfold schar. rewrite (proj2 (Z.ltb_lt k 128)) by lia. apply Z.eqb_refl.
  - apply Z.eqb_neq. intros E. apply Hn. apply schar_eq; [lia|lia|done].
Qed.

Lemma first_good p : good p → (first p =? 0) = match p with [] => true | _ => false end.
Proof. intros [|c q Hc _]; [reflexivity|]. change (first (c :: q)) with c. lia. Qed.

Lemma complain_schar msg c : 0 < c < 256 → complain msg (schar c) = complain msg c.
Proof. intros Hc. unfold complain. rewrite schar_byte by lia. unfold u8. by rewrite Z.mod_small by lia. Qed.

Lemma drop_next i a rest : drop i nargv = a :: rest →
  nargv !!! i = a ∧ drop (S i) nargv = rest ∧ (length nargv <=? i)%nat = false ∧ good a ∧ Forall good rest.
Proof.
  intros E. pose proof (Forall_drop _ i _ argv_bytes) as Hg. rewrite E in Hg. apply Forall_cons in Hg as [Ha Hr].
  assert (nargv !! i = Some a) as Hi by (by rewrite <- (Nat.add_0_r i), <- lookup_drop, E).
  pose proof (lookup_lt_Some _ _ _ Hi). split_and!; try done.
  - by apply list_lookup_total_correct.
  - by rewrite <- (Nat.add_1_r i), <- drop_drop, E.
  - apply Nat.leb_gt. lia.
Qed.

Lemma drop_none i : drop i nargv = [] → (length nargv <=? i)%nat = true.
Proof. intros E%(f_equal length). rewrite length_drop in E. cbn in E. apply Nat.leb_le. lia. Qed.

(** One letter of an argument. *)
Lemma getopt_letter g c q a rest : g_place g = c :: q → good (c :: q) → drop (g_optind g) nargv = a :: rest →
  let i' := match q with [] => S (g_optind g) | _ => g_optind g end in
  match letter c with
  | None => if c =? 45 then ∃ g', getopt g = (-1, g', []) ∧ g_optind g' = g_optind g
            else ∃ g' v msg, getopt g = (v, g', msg) ∧ v ≠ -1 ∧ shows (Bad c) (v, g_optarg g', msg) ∧ g_optind g' = i' ∧ g_place g' = q
  | Some false => getopt g = (c, mkGopt i' None c q, [])
  | Some true =>
      match q, rest with
      | _ :: _, _ => getopt g = (c, mkGopt (S (g_optind g)) (Some q) c [], [])
      | [], [] => ∃ g' v msg, getopt g = (v, g', msg) ∧ v ≠ -1 ∧ shows (Missing c) (v, g_optarg g', msg) ∧ g_optind g' = S (g_optind g) ∧ g_place g' = []
      | [], b :: _ => getopt g = (c, mkGopt (S (S (g_optind g))) (Some b) c [], [])
      end
  end.
Proof.
  intros Hp Hg Hd. apply drop_next in Hd as (_ & Hd & _ & _ & _).
  apply Forall_cons in Hg as [Hc Hq]. unfold getopt, next_place, letter. rewrite Hp.
  change (first (c :: q)) with c. rewrite (proj2 (Z.eqb_neq c 0)) by lia. cbn [negb tail]. rewrite Hp. cbn [tail].
  change (first (c :: q)) with c. rewrite !schar_test, index_schar, !complain_schar by lia.
  assert (bump_ind q (g_optind g) = match q with [] => S (g_optind g) | _ => g_optind g end) as Hb
    by (unfold bump_ind; rewrite first_good by done; by destruct q).
  destruct (c =? 58).
  { destruct (c =? 45); [by eexists|]. eexists _, _, _. split; [reflexivity|]. split; [done|]. split; [done|]. by split. }
  destruct (index ostr c) as [i|] eqn:Ei.
  2:{ destruct (c =? 45); [by eexists|]. eexists _, _, _. split; [reflexivity|]. split; [done|]. split; [done|]. by split. }
  apply index_elem in Ei as [Hc1 _]; [|lia]. assert (schar c = c) as -> by (unfold schar; by rewrite (proj2 (Z.ltb_lt c 128)) by lia).
  destruct (byte ostr (i + 1) =? 58); cbn [negb]; [|by rewrite Hb].
  rewrite first_good by done. destruct q as [|d q]; [|done]. cbn [negb]. destruct rest as [|b rest].
  - rewrite drop_none by done. eexists _, _, _. split; [reflexivity|]. split; [by destruct (first ostr =? 58)|]. split; [done|]. by split.
  - apply drop_next in Hd as (-> & _ & -> & _ & _). done.
Qed.

Definition tot (args : list (list Z)) : nat := sum_list_with (λ a, length a) args.

Lemma cluster_short p rest l rest' : cluster p rest = (l, Some rest') → (length rest' ≤ length rest)%nat.
Proof.
  revert l. induction p as [|c q IH]; intros l; cbn [cluster]; [by intros [= _ ->]|].
  destruct (letter c) as [[]|].
  - destruct q; [|by intros [= _ <-]]. destruct rest as [|a rest]; intros [= _ <-]; cbn; lia.
  - destruct (cluster q rest) as [x y] eqn:E. cbn. intros [= <- ->]. by eapply IH.
  - destruct (c =? 45); [done|]. destruct (cluster q rest) as [x y] eqn:E. cbn. intros [= <- ->]. by eapply IH.
Qed.

Lemma scan_fuel n : ∀ m args, (length args ≤ n)%nat → (length args ≤ m)%nat → scan n args = scan m args.
Proof.
  induction n as [|n IH]; intros m args Hn Hm; [by destruct args, m; cbn in *; try lia|].
  destruct args as [|a rest]; [by destruct m|]. destruct m as [|m]; [cbn in *; lia|]. cbn in Hn, Hm.
  destruct a as [|c [|d p]]; cbn [scan]; [done|done|].
  destruct (negb (c =? 45)); [done|]. destruct (d =? 45); [done|].
  destruct (cluster (d :: p) rest) as [l [rest'|]] eqn:E; cbn [fst snd]; [|done].
  apply cluster_short in E. by rewrite (IH m rest') by lia.
Qed.

(** The options and operands when the rest [p] of the argument [a] is left. *)
Definition after (p a : list Z) (rest : list (list Z)) : list item * list (list Z) :=
  let x := cluster p rest in
  match x.2 with
  | None => (x.1, a :: rest)
  | Some rest' => let y := scan (length rest') rest' in (x.1 ++ y.1, y.2)
  end.

Lemma scan_cons c d p rest : scan (S (length rest)) ((c :: d :: p) :: rest) =
  if negb (c =? 45) then ([], (c :: d :: p) :: rest) else if d =? 45 then ([], rest) else after (d :: p) (c :: d :: p) rest.
Proof.
  cbn [scan]. destruct (negb (c =? 45)); [done|]. destruct (d =? 45); [done|]. unfold after.
  destruct (cluster (d :: p) rest) as [l [rest'|]] eqn:E; cbn [fst snd]; [|done].
  apply cluster_short in E. by rewrite (scan_fuel _ (length rest') rest') by lia.
Qed.

(** [getopt_all] from [g] gives the options and leaves the operands of [x]. *)
Definition yields (fuel : nat) (g : gopt) (x : list item * list (list Z)) : Prop :=
  ∃ tr g', getopt_all fuel g = Some (tr, g') ∧ Forall2 shows x.1 tr ∧ drop (g_optind g') nargv = x.2.

Lemma yields_stop fuel g g' ops : getopt g = (-1, g', []) → drop (g_optind g') nargv = ops → yields (S fuel) g ([], ops).
Proof. intros E Hd. exists [], g'. cbn [getopt_all]. rewrite E. by split_and!. Qed.

Lemma yields_step fuel g g' c msg i l ops : getopt g = (c, g', msg) → c ≠ -1 → shows i (c, g_optarg g', msg) →
  yields fuel g' (l, ops) → yields (S fuel) g (i :: l, ops).
Proof.
  intros E Hr Hs (tr & g2 & E2 & Hf & Hd). exists ((c, g_optarg g', msg) :: tr), g2. cbn [getopt_all]. rewrite E.
  rewrite (proj2 (Z.eqb_neq _ _)) by done. rewrite E2. split_and!; [done|by constructor|done].
Qed.

Lemma run_letters fuel (IHp : ∀ g p a rest, p ≠ [] → g_place g = p → good p → drop (g_optind g) nargv = a :: rest →
    (length p + tot rest < fuel)%nat → yields fuel g (after p a rest))
  (IHq : ∀ g args, g_place g = [] → drop (g_optind g) nargv = args → (tot args < fuel)%nat → yields fuel g (scan (length args) args)) :
  ∀ g p a rest, p ≠ [] → g_place g = p → good p → drop (g_optind g) nargv = a :: rest →
    (length p + tot rest < S fuel)%nat → yields (S fuel) g (after p a rest).
Proof.
  intros g p a rest Hne Hp Hg Hd Hfuel. destruct p as [|c q]; [done|].
  pose proof (getopt_letter g c q a rest Hp Hg Hd) as Hl. cbn zeta in Hl.
  pose proof (drop_next _ _ _ Hd) as (_ & Hd' & _ & _ & _).
  apply Forall_cons in Hg as [Hc Hq]. cbn [length] in Hfuel. unfold after. cbn [cluster].
  assert (∀ g', g_optind g' = match q with [] => S (g_optind g) | _ => g_optind g end → g_place g' = q →
    yields fuel g' (after q a rest)) as Hnext.
  { intros g' Hi Hp'. destruct q as [|d q]; [|apply IHp; [done|done|done|by rewrite Hi|cbn [length] in *; lia]].
    unfold after. cbn [cluster fst snd app]. rewrite <- surjective_pairing. apply IHq; [done|by rewrite Hi|cbn in *; lia]. }
  assert (∀ g' i, g_optind g' = match q with [] => S (g_optind g) | _ => g_optind g end → g_place g' = q →
    ∀ v msg, getopt g = (v, g', msg) → v ≠ -1 → shows i (v, g_optarg g', msg) →
    yields (S fuel) g (let x := (i :: (cluster q rest).1, (cluster q rest).2) in
      match x.2 with None => (x.1, a :: rest) | Some rest' => (x.1 ++ (scan (length rest') rest').1, (scan (length rest') rest').2) end)) as Hcons.
  { intros g' i Hi Hp' v msg E Hr Hs. specialize (Hnext g' Hi Hp'). unfold after in Hnext.
    destruct (cluster q rest) as [l [rest'|]]; cbn [fst snd app] in *; by eapply yields_step. }
  destruct (letter c) as [[]|] eqn:El.
  - destruct q as [|d q]; [destruct rest as [|b rest]|].
    + destruct Hl as (g' & v & msg & E & Hv & Hs & Hi & Hp'). eapply yields_step; [exact E|done|exact Hs|].
      apply (IHq g' []); [done|by rewrite Hi|cbn in *; lia].
    + apply drop_next in Hd' as (_ & Hd2 & _ & _ & _). eapply yields_step; [exact Hl|lia|done|]. cbn [app].
      change (tot (b :: rest)) with (length b + tot rest)%nat in Hfuel.
      rewrite <- surjective_pairing. apply IHq; [done|done|cbn in *; lia].
    + eapply yields_step; [exact Hl|lia|done|]. cbn [app].
      rewrite <- surjective_pairing. apply IHq; [done|done|cbn in *; lia].
  - by eapply (Hcons (mkGopt _ None c q)); [..|exact Hl|lia|].
  - destruct (c =? 45).
    + destruct Hl as (g' & E & Hi). eapply yields_stop; [exact E|by rewrite Hi].
    + destruct Hl as (g' & v & msg & E & Hv & Hs & Hi & Hp'). by eapply Hcons.
Qed.

Lemma getopt_yields fuel : (∀ g p a rest, p ≠ [] → g_place g = p → good p → drop (g_optind g) nargv = a :: rest →
    (length p + tot rest < fuel)%nat → yields fuel g (after p a rest)) ∧
  (∀ g args, g_place g = [] → drop (g_optind g) nargv = args → (tot args < fuel)%nat → yields fuel g (scan (length args) args)).
Proof.
  induction fuel as [|fuel [IHp IHq]]; [split; intros; lia|].
  pose proof (run_letters fuel IHp IHq) as Hp. split; [exact Hp|]. clear IHp IHq.
  intros g args Hpl Hd Hfuel. destruct args as [|a rest].
  { eapply yields_stop; [|exact Hd]. unfold getopt, next_place. rewrite Hpl, drop_none by done. by destruct g; cbn in Hpl; subst. }
  pose proof (drop_next _ _ _ Hd) as (Ha & Hd' & Hlen & Hg & _).
  assert (∀ g', next_place g = inl g' → next_place g' = inl g' →
    ∀ x, yields (S fuel) g' x → yields (S fuel) g x) as Heq.
  { intros g' E1 E2 x (tr & g2 & E & Hx). exists tr, g2. split; [|done]. rewrite <- E. cbn [getopt_all]. unfold getopt. by rewrite E1, E2. }
  destruct a as [|c p].
  { eapply yields_stop; [|exact Hd]. unfold getopt, next_place. rewrite Hpl, Ha, Hlen. by destruct g; cbn in Hpl; subst. }
  apply Forall_cons in Hg as [Hc Hg].
  assert (next_place g = if negb (c =? 45) then inr (mkGopt (g_optind g) (g_optarg g) (g_optopt g) []) else
    match p with
    | [] => inl (mkGopt (g_optind g) (g_optarg g) (g_optopt g) [c])
    | d :: _ => if d =? 45 then inr (mkGopt (S (g_optind g)) (g_optarg g) (g_optopt g) [])
                else inl (mkGopt (g_optind g) (g_optarg g) (g_optopt g) p)
    end) as E.
  { unfold next_place. rewrite Hpl, Ha, Hlen. change (negb (first [] =? 0)) with false. cbn iota.
    change (first (c :: p)) with c. destruct (negb (c =? 45)); [done|]. destruct p as [|d p]; [done|].
    apply Forall_cons in Hg as [Hd0 _]. change (byte (c :: d :: p) 1) with d. by rewrite (proj2 (Z.eqb_neq d 0)) by lia. }
  change (tot ((c :: p) :: rest)) with (S (length p) + tot rest)%nat in Hfuel. cbn [length].
  destruct p as [|d p].
  - replace (scan (S (length rest)) ([c] :: rest)) with ([] : list item, [c] :: rest) by done.
    destruct (Z.eqb_spec c 45) as [->|_]; cbn [negb] in E.
    + eapply Heq; [exact E|done|].
      pose proof (getopt_letter (mkGopt (g_optind g) (g_optarg g) (g_optopt g) [45]) 45 [] [45] rest eq_refl ltac:(by constructor) Hd) as Hl.
      assert (letter 45 = None) as El.
      { unfold letter. cbn. destruct (index ostr 45) eqn:Ei; [|done]. apply index_elem in Ei; lia. }
      rewrite El in Hl. destruct Hl as (g' & E' & Hi). eapply yields_stop; [exact E'|]. by rewrite Hi.
    + eapply yields_stop; [unfold getopt; rewrite E; reflexivity|exact Hd].
  - rewrite scan_cons. destruct (negb (c =? 45)).
    { eapply yields_stop; [unfold getopt; rewrite E; reflexivity|exact Hd]. }
    destruct (d =? 45).
    { eapply yields_stop; [unfold getopt; rewrite E; reflexivity|exact Hd']. }
    apply Forall_cons in Hg as Hg'. destruct Hg' as [Hd0 _].
    eapply Heq; [exact E| |by apply Hp; cbn in *; try lia].
    unfold next_place. cbn [g_place]. change (first (d :: p)) with d. by rewrite (proj2 (Z.eqb_neq d 0)) by lia.
Qed.

(** From the start, [getopt()] returns the options of the arguments in turn,
    then -1, and leaves [optind] at the operands. *)
Lemma getopt_scans : nargv ≠ [] → yields (S (tot nargv)) getopt0 (scan (length (tail nargv)) (tail nargv)).
Proof.
  intros Hne. destruct (getopt_yields (S (tot nargv))) as [_ H]. apply H; [done| |].
  - by destruct nargv.
  - destruct nargv as [|a l]; [done|]. change (tot (a :: l)) with (length a + tot l)%nat. cbn [tail]. lia.
Qed.
End getopt.

(** Any argument that starts with two minus signs ends the options and is taken
    away, not only [--]. *)
Lemma getopt_two_minus g : g_place g = [] → g_optind g = 1%nat →
  getopt [cstring "p"; cstring "--count"; cstring "file"] true (cstring "c") g = (-1, mkGopt 2 (g_optarg g) (g_optopt g) [], []).
Proof. destruct g as [i o c p]. cbn. by intros -> ->. Qed.
