(* ===== verification/Fgrep.v ===== *)
(** * fgrep (cmds/simple/fgrep.c)

    The globals of the program are a record.  The array input_buffer has its
    BUF_SIZE + 2 bytes; a pointer into it is its distance from [buffer], so
    that [buffer[-1]] is at -1.  An access outside the array is a fault.  What
    printf() prints for %u is given.
    A file is the list of the results of read() on it, after which read()
    returns 0.  usage() and failure() end the program: they are [panic] with
    the message. *)

From S2P Require Import Prelude Bytes KstringSpec Libstring Getopt.

Definition MAX_STR_LEN : Z := 256.
Definition READ_SIZE : Z := 4096.
Definition BUF_SIZE : Z := 2 * READ_SIZE.

Record test_str := mkTs {
  ts_str : list Z;
  ts_len : Z;
  ts_table : list Z;
  ts_bufp : Z;
}.

Record flags := mkFlags {
  cflag : Z;
  hflag : Z;
  lflag : Z;
  nflag : Z;
  sflag : Z;
  vflag : Z;
}.

(** A result of [read(fd_in, bufp, READ_SIZE)]. *)
Inductive readres := Data (bs : list Z) | ReadError.

Record fg := mkFg {
  f_strings : list test_str;
  f_flags : flags;
  f_line : Z;
  f_reads : list readres;
  f_eof : bool;
  f_mem : list Z;
  f_input : Z;
  f_max : Z;
  f_end : Z;
  f_out : list Z;
}.

Definition set_strings x s := mkFg x (f_flags s) (f_line s) (f_reads s) (f_eof s) (f_mem s) (f_input s) (f_max s) (f_end s) (f_out s).
Definition set_flags x s := mkFg (f_strings s) x (f_line s) (f_reads s) (f_eof s) (f_mem s) (f_input s) (f_max s) (f_end s) (f_out s).
Definition set_line_num x s := mkFg (f_strings s) (f_flags s) x (f_reads s) (f_eof s) (f_mem s) (f_input s) (f_max s) (f_end s) (f_out s).
Definition set_reads x s := mkFg (f_strings s) (f_flags s) (f_line s) x (f_eof s) (f_mem s) (f_input s) (f_max s) (f_end s) (f_out s).
Definition set_eof x s := mkFg (f_strings s) (f_flags s) (f_line s) (f_reads s) x (f_mem s) (f_input s) (f_max s) (f_end s) (f_out s).
Definition set_mem x s := mkFg (f_strings s) (f_flags s) (f_line s) (f_reads s) (f_eof s) x (f_input s) (f_max s) (f_end s) (f_out s).
Definition set_input x s := mkFg (f_strings s) (f_flags s) (f_line s) (f_reads s) (f_eof s) (f_mem s) x (f_max s) (f_end s) (f_out s).
Definition set_max x s := mkFg (f_strings s) (f_flags s) (f_line s) (f_reads s) (f_eof s) (f_mem s) (f_input s) x (f_end s) (f_out s).
Definition set_bufend x s := mkFg (f_strings s) (f_flags s) (f_line s) (f_reads s) (f_eof s) (f_mem s) (f_input s) (f_max s) x (f_out s).
Definition set_fout x s := mkFg (f_strings s) (f_flags s) (f_line s) (f_reads s) (f_eof s) (f_mem s) (f_input s) (f_max s) (f_end s) x.

Definition print (bs : list Z) : M fg unit := modify (λ s, set_fout (f_out s ++ bs) s).

(** Accesses to input_buffer, at [buffer + p]. *)
Definition mem_ok (m : list Z) (p n : Z) : bool := (-2 <=? p) && (0 <=? n) && (p + n + 2 <=? zlen m).
Definition peekb (p : Z) : M fg Z :=
  let* m := gets f_mem in if mem_ok m p 1 then ret (byte m (p + 2)) else fault "input_buffer".
Definition pokeb (p : Z) (bs : list Z) : M fg unit :=
  let* m := gets f_mem in if mem_ok m p (zlen bs) then modify (set_mem (splice m (p + 2) bs)) else fault "input_buffer".

(** ** The strings *)

(** [for (; --len >= 0; str++) ts->table[ *str & BYTE] = len;] *)
Fixpoint fill_table (str table : list Z) : list Z :=
  match str with
  | [] => table
  | c :: str => fill_table str (<[Z.to_nat (Z.land c 255) := u8 (zlen str)]> table)
  end.

(** [mem] is whether malloc() finds memory. *)
Definition add_string (mem : bool) (str : list Z) : M fg unit :=
  let len := zlen str in
  if len =? 0 then ret tt
  else if len >? MAX_STR_LEN then panic "string too long"
  else if negb mem then panic "not enough memory"
  else
    let table := fill_table str (replicate 256 (u8 len)) in
    modify (λ s, set_strings (mkTs str len table 0 :: f_strings s) s).

(** ** The input *)

(** [reads] is what the file delivers, if it can be opened. *)
Definition file_open (reads : option (list readres)) : M fg unit :=
  match reads with
  | None => panic "can't open"
  | Some reads =>
      modify (set_reads reads) ;;
      modify (set_input 0) ;; modify (set_max 0) ;; modify (set_bufend 0) ;;
      pokeb (-1) [10] ;;
      modify (set_eof false) ;;
      modify (set_line_num 0)
  end.

(** The loop of fill_buffer(), from [bufp] on: the new bufp, or [None] to
    return 0. *)
Fixpoint read_loop (fuel : nat) (bufp : Z) : M fg (option Z) :=
  match fuel with
  | O => spin
  | S fuel =>
      let* reads := gets f_reads in
      match reads with
      | ReadError :: _ => panic "read error"
      | [] =>
          modify (set_eof true) ;;
          if bufp =? 0 then ret None else pokeb bufp [10] ;; ret (Some (bufp + 1))
      | Data bs :: reads =>
          modify (set_reads reads) ;;
          pokeb bufp bs ;;
          let bufp := bufp + zlen bs in
          let* last := peekb (bufp - 1) in
          if (bufp <? READ_SIZE) && negb (last =? 10) then read_loop fuel bufp else ret (Some bufp)
      end
  end.

(** [while ( *--bufp != '\n'); ++bufp]: the place after the last newline before
    [bufp], with [n] characters down to the sentinel. *)
Fixpoint after_newline (n : nat) (bufp : Z) : M fg Z :=
  match n with
  | O => fault "input_buffer"
  | S n => let* c := peekb (bufp - 1) in if c =? 10 then ret bufp else after_newline n (bufp - 1)
  end.

Definition fill_buffer : M fg Z :=
  let* s := gets id in
  if f_eof s then ret 0
  else
    let size := f_end s - f_max s in
    (if mem_ok (f_mem s) (f_max s) size then pokeb 0 (slice (f_mem s) (f_max s + 2) size) else fault "input_buffer") ;;
    let* r := read_loop (S (length (f_reads s))) size in
    match r with
    | None => ret 0
    | Some bufp =>
        modify (set_bufend bufp) ;;
        let* p := after_newline (Z.to_nat (bufp + 2)) bufp in
        (if p =? 0 then
           pokeb bufp [10] ;; modify (set_bufend (bufp + 1)) ;; modify (set_max (bufp + 1))
         else modify (set_max p)) ;;
        modify (set_input 0) ;;
        gets f_max
    end.

(** [1 + memchr(p, '\n', BUF_SIZE)] *)
Fixpoint line_end (n : nat) (p : Z) : M fg Z :=
  match n with
  | O => fault "memchr"
  | S n => let* c := peekb p in if c =? 10 then ret (p + 1) else line_end n (p + 1)
  end.
Definition next_line (p : Z) : M fg Z := line_end (Z.to_nat BUF_SIZE) p.

(** The bytes that the file and the buffer still hold. *)
Definition bytes_of (r : readres) : list Z := match r with Data bs => bs | ReadError => [] end.
Definition left_over (s : fg) : nat := Z.to_nat (f_end s) + length (mjoin (bytes_of <$> f_reads s)).

(** ** The search *)

(** [do { if (s == ts->str) return bufp; } while ( *--bufp == *--s);], with [k]
    characters of [str] before [s]. *)
Fixpoint compare_back (k : nat) (str : list Z) (bufp : Z) : M fg (option Z) :=
  match k with
  | O => ret (Some bufp)
  | S k => let* c := peekb (bufp - 1) in if c =? byte str (Z.of_nat k) then compare_back k str (bufp - 1) else ret None
  end.

Definition search_str (ts : test_str) : M fg Z :=
  let* s := gets id in
  loop (Z.to_nat (f_max s - f_input s) + 1) (λ bufp,
    if bufp <? f_max s then
      let* c := peekb bufp in
      let next := bufp + ts_table ts !!! Z.to_nat (Z.land c 255) in
      if next >? bufp then ret (inl next)
      else
        let* r := compare_back (Z.to_nat (ts_len ts - 1)) (ts_str ts) next in
        match r with Some p => ret (inr p) | None => ret (inl (bufp + 1)) end
    else ret (inr bufp)) (f_input s + ts_len ts - 1).

(** The loop over the strings: their new places, and [match]. *)
Fixpoint search_all (l : list test_str) (first : Z) : M fg (list test_str * Z) :=
  match l with
  | [] => ret ([], first)
  | ts :: l =>
      let* s := gets id in
      let* r :=
        (if f_input s =? 0 then
           let* p := search_str ts in ret (p, if p <? first then p else first)
         else if ts_bufp ts <? first then
           if ts_bufp ts >=? f_input s then ret (ts_bufp ts, ts_bufp ts)
           else let* p := search_str ts in ret (p, if p <? first then p else first)
         else ret (ts_bufp ts, first)) in
      let* x := search_all l r.2 in
      ret (mkTs (ts_str ts) (ts_len ts) (ts_table ts) r.1 :: x.1, x.2)
  end.

(** [for (line = match; *--line != '\n';); line++;] *)
Definition line_start (p : Z) : M fg Z := after_newline (Z.to_nat (p + 2)) p.

(** The line in which the match [first] is, or that has none: a line to return,
    or [inl] for another round. *)
Definition pick_line (first : Z) : M fg (unit + option Z) :=
  let* s := gets id in
  let fl := f_flags s in
  if negb (vflag fl =? 0) then
    modify (λ s, set_line_num (u32 (f_line s + 1)) s) ;;
    let* input := next_line (f_input s) in
    modify (set_input input) ;;
    if input <=? first then ret (inr (Some (f_input s))) else ret (inl tt)
  else if negb (nflag fl =? 0) then
    let* line := loop (Z.to_nat (f_max s) + 1) (λ line,
      modify (λ s, set_line_num (u32 (f_line s + 1)) s) ;;
      let* input := next_line line in
      modify (set_input input) ;;
      if (input <? first) || ((input =? first) && (first <? f_max s)) then ret (inl input) else ret (inr line)) (f_input s) in
    if first <? f_max s then ret (inr (Some line)) else ret (inl tt)
  else if first <? f_max s then
    let* line := line_start first in
    let* input := next_line first in
    modify (set_input input) ;;
    ret (inr (Some line))
  else modify (set_input (f_max s)) ;; ret (inl tt).

(** A round of get_line(). *)
Definition get_round : M fg (unit + option Z) :=
  let* s := gets id in
  let* n := (if f_input s >=? f_max s then fill_buffer else ret 1) in
  if n =? 0 then ret (inr None)
  else
    let* s := gets id in
    match f_strings s with
    | [] => fault "strings"
    | strings =>
        let* r := search_all strings (f_max s) in
        modify (set_strings r.1) ;;
        pick_line r.2
    end.

(** get_line(): the start of the line. *)
Definition get_line : M fg (option Z) :=
  let* n := gets left_over in
  loop (2 * n + 2) (λ _ : unit, get_round) tt.

(** -f: the strings of a file. *)
Definition string_file (mem : bool) (reads : option (list readres)) : M fg unit :=
  file_open reads ;;
  let* n := gets left_over in
  loop (2 * n + 2) (λ _ : unit,
    let* s := gets id in
    let* n := (if f_input s <? f_max s then ret 1 else fill_buffer) in
    if n >? 0 then
      let* s := gets id in
      let* p := next_line (f_input s) in
      pokeb (p - 1) [0] ;;
      if negb mem then panic "not enough memory"
      else
        let* s := gets id in
        add_string mem (cstr (slice (f_mem s) (f_input s + 2) (p - f_input s))) ;;
        modify (set_input p) ;;
        ret (inl tt)
    else ret (inr tt)) tt.

(** ** The program *)

Section main.
Context (fmt_u : Z → list Z) (mem : bool).

(** The name that is printed for a file: [optarg]. *)
Definition shown_name (name : option (list Z)) : list Z :=
  match name with None | Some [45] => [115; 116; 100; 105; 110] | Some name => name end.

Definition fd_of (name : option (list Z)) : option (list Z) :=
  match name with None | Some [45] => None | Some name => Some name end.

(** The loop over the lines of a file: the count, or [inl] to return at once. *)
Definition lines_loop (name : list Z) : M fg (Z + Z) :=
  let* n := gets left_over in
  loop (n + 1) (λ count,
    let* line := get_line in
    match line with
    | None => ret (inr (inr count))
    | Some line =>
        let count := u32 (count + 1) in
        let* s := gets id in
        let fl := f_flags s in
        if negb (sflag fl =? 0) then ret (inr (inl 0))
        else if negb (lflag fl =? 0) then print (name ++ [10]) ;; ret (inr (inr count))
        else if negb (cflag fl =? 0) then ret (inl count)
        else
          (if hflag fl =? 0 then print (name ++ [58]) else ret tt) ;;
          (if negb (nflag fl =? 0) then print (fmt_u (f_line s) ++ [58]) else ret tt) ;;
          (if mem_ok (f_mem s) line (Z.max 1 (f_input s - line))
           then print (slice (f_mem s) (line + 2) (Z.max 1 (f_input s - line))) else fault "input_buffer") ;;
          ret (inl count)
    end) 0.

(** The body of the loop over the files. *)
Definition one_file (files : option (list Z) → option (list readres)) (name : option (list Z)) : M fg (Z + Z) :=
  file_open (files (fd_of name)) ;;
  let* r := lines_loop (shown_name name) in
  match r with
  | inl v => ret (inl v)
  | inr count =>
      let* fl := gets f_flags in
      (if negb (cflag fl =? 0) then
         (if hflag fl =? 0 then print (shown_name name ++ [58; 32]) else ret tt) ;;
         print (fmt_u count ++ [10])
       else ret tt) ;;
      ret (inr count)
  end.

Fixpoint all_files (files : option (list Z) → option (list readres)) (names : list (option (list Z))) (found : Z) : M fg Z :=
  match names with
  | [] => ret (if found =? 0 then 1 else 0)
  | name :: names =>
      let* r := one_file files name in
      match r with
      | inl v => ret v
      | inr count => all_files files names (Z.lor found count)
      end
  end.

(** One option, as getopt() returns it. *)
Definition do_option (files : option (list Z) → option (list readres)) (c : Z) (optarg : option (list Z)) : M fg unit :=
  let flag f := modify (λ s, set_flags (f (f_flags s)) s) in
  if c =? 99 then flag (λ f, mkFlags (cflag f + 1) (hflag f) (lflag f) (nflag f) (sflag f) (vflag f))
  else if c =? 101 then match optarg with None => fault "optarg" | Some str => add_string mem str end
  else if c =? 102 then string_file mem (files (fd_of optarg))
  else if c =? 104 then flag (λ f, mkFlags (cflag f) (hflag f + 1) (lflag f) (nflag f) (sflag f) (vflag f))
  else if c =? 108 then flag (λ f, mkFlags (cflag f) (hflag f) (lflag f + 1) (nflag f) (sflag f) (vflag f))
  else if c =? 110 then flag (λ f, mkFlags (cflag f) (hflag f) (lflag f) (nflag f + 1) (sflag f) (vflag f))
  else if c =? 115 then flag (λ f, mkFlags (cflag f) (hflag f) (lflag f) (nflag f) (sflag f + 1) (vflag f))
  else if c =? 118 then flag (λ f, mkFlags (cflag f) (hflag f) (lflag f) (nflag f) (sflag f) (vflag f + 1))
  else panic "usage".

Definition optstring : list Z := cstring "ce:f:hlnsv".

(** The loop over getopt(): [optind]. *)
Fixpoint options (fuel : nat) (files : option (list Z) → option (list readres)) (argv : list (list Z)) (g : gopt) : M fg nat :=
  match fuel with
  | O => spin
  | S fuel =>
      let '(c, g, _) := getopt argv true optstring g in
      if c =? -1 then ret (g_optind g) else do_option files c (g_optarg g) ;; options fuel files argv g
  end.

(** main() *)
Definition fgrep (files : option (list Z) → option (list readres)) (argv : list (list Z)) : M fg Z :=
  if zlen argv =? 1 then panic "usage"
  else
    let* optind := options (S (tot argv)) files argv getopt0 in
    let args := drop optind argv in
    let* strings := gets f_strings in
    let* args :=
      match strings, args with
      | [], [] => panic "argument missing"
      | [], str :: args => add_string mem str ;; ret args
      | _, _ => ret args
      end in
    (if zlen args <? 2 then
       modify (λ s, let f := f_flags s in set_flags (mkFlags (cflag f) (hflag f + 1) (lflag f) (nflag f) (sflag f) (vflag f)) s)
     else ret tt) ;;
    all_files files (match args with [] => [None] | _ => Some <$> args end) 0.
End main.
