(* ===== verification/FgrepSpec.v ===== *)
(** * The parts of fgrep

    The search with the table finds the first occurrence of a string, the
    search for all strings the first occurrence of any, and fill_buffer() puts
    whole lines of the file in the buffer, however read() cuts it up. *)

From S2P Require Import Prelude Bytes KstringSpec Fgrep.

(** ** The table *)

(** The distance from the end of [str] at which [c] occurs last. *)
Record good_table (str table : list Z) : Prop := {
  gt_bound : ∀ c, 0 ≤ c < 256 → 0 ≤ table !!! Z.to_nat c ≤ zlen str;
  gt_skip : ∀ c i, 0 ≤ i < zlen str → byte str i = c → 0 ≤ c < 256 → table !!! Z.to_nat c ≤ zlen str - 1 - i;
  gt_last : ∀ c, 0 ≤ c < 256 → table !!! Z.to_nat c = 0 → c = byte str (zlen str - 1);
}.

Definition bytes (l : list Z) : Prop := Forall (λ c, 0 ≤ c < 256) l.

Lemma land_byte c : 0 ≤ c < 256 → Z.land c 255 = c.
Proof. intros Hc. change 255 with (Z.ones 8). rewrite Z.land_ones by lia. apply Z.mod_small. lia. Qed.

(** While the table is filled: the entries of the characters seen so far. *)
Lemma fill_table_ok pre str : ∀ table, bytes str → length table = 256%nat → zlen (pre ++ str) ≤ 255 →
  (∀ c, 0 ≤ c < 256 → 0 ≤ table !!! Z.to_nat c ≤ zlen (pre ++ str)) →
  (∀ c i, 0 ≤ i < zlen pre → byte pre i = c → 0 ≤ c < 256 → table !!! Z.to_nat c ≤ zlen (pre ++ str) - 1 - i) →
  (∀ c, 0 ≤ c < 256 → table !!! Z.to_nat c < zlen str → False) →
  (∀ c, 0 ≤ c < 256 → str = [] → table !!! Z.to_nat c = 0 → c = byte pre (zlen pre - 1)) →
  good_table (pre ++ str) (fill_table str table).
Proof.
  revert pre. induction str as [|c str IH]; intros pre table Hs Ht Hl HB HS HZ HL.
  - rewrite app_nil_r in *. cbn [fill_table]. split; [done|done|]. intros c Hc E. by apply HL.
  - inversion_clear Hs as [|? ? Hc Hs']. cbn [fill_table]. rewrite land_byte by done.
    assert (zlen (c :: str) = zlen str + 1) as Ez by (unfold zlen; simpl; lia).
    assert (zlen (pre ++ c :: str) = zlen pre + zlen str + 1) as Ep by (rewrite zlen_app; lia).
    pose proof (zlen_nonneg pre). pose proof (zlen_nonneg str). rewrite u8_small by lia.
    replace (pre ++ c :: str) with ((pre ++ [c]) ++ str) in * by by rewrite <- app_assoc.
    assert (zlen (pre ++ [c]) = zlen pre + 1) as Epc by (rewrite zlen_app; done).
    set (t' := <[Z.to_nat c := zlen str]> table).
    assert (∀ d, 0 ≤ d < 256 → t' !!! Z.to_nat d = if decide (d = c) then zlen str else table !!! Z.to_nat d) as Ht'.
    { intros d Hd. unfold t'. case_decide as E; [subst; apply list_lookup_total_insert_eq; lia|]. apply list_lookup_total_insert_ne. lia. }
    apply IH; try done.
    + unfold t'. by rewrite length_insert.
    + intros d Hd. rewrite Ht' by done. case_decide; [lia|by apply HB].
    + intros d i Hi E Hd. rewrite Ht' by done. case_decide as Ed.
      * subst d. lia.
      * destruct (decide (i < zlen pre)).
        -- apply HS; [lia| |done]. rewrite byte_app_l in E by lia. done.
        -- exfalso. apply Ed. rewrite <- E, byte_app_r by lia. by replace (i - zlen pre) with 0 by lia.
    + intros d Hd. rewrite Ht' by done. case_decide; [lia|]. intros Hlt. apply (HZ d Hd). lia.
    + intros d Hd -> E. rewrite Ht' in E by done. case_decide as Ed.
      * subst d. rewrite byte_app_r by lia. by replace (zlen (pre ++ [c]) - 1 - zlen pre) with 0 by lia.
      * exfalso. apply (HZ d Hd). lia.
Qed.

Lemma table_ok str : str ≠ [] → bytes str → zlen str ≤ 255 → good_table str (fill_table str (replicate 256 (u8 (zlen str)))).
Proof.
  intros Hne Hs Hl. pose proof (zlen_nonneg str). rewrite u8_small by lia.
  assert (∀ c, 0 ≤ c < 256 → replicate 256 (zlen str) !!! Z.to_nat c = zlen str) as Hr.
  { intros c Hc. apply list_lookup_total_correct, lookup_replicate. split; [done|lia]. }
  apply (fill_table_ok [] str); try done.
  - intros c Hc. rewrite Hr by done. simpl. lia.
  - intros c i Hi. change (zlen []) with 0 in Hi. lia.
  - intros c Hc. rewrite Hr by done. lia.
Qed.

(** A string in the list. *)
Record good_str (str : list Z) : Prop := {
  gs_some : str ≠ [];
  gs_bytes : bytes str;
  gs_line : 10 ∉ str;
  gs_len : zlen str ≤ 255;
}.
Record good_ts (ts : test_str) : Prop := {
  gd_str : good_str (ts_str ts);
  gd_len : ts_len ts = zlen (ts_str ts);
  gd_table : good_table (ts_str ts) (ts_table ts);
}.

(** ** The search *)

(** [str] is in the buffer at [p]. *)
Definition occurs (m str : list Z) (p : Z) : Prop := ∀ i, 0 ≤ i < zlen str → byte m (p + i + 2) = byte str i.

(** [p] is the first place from [a] on at which [str] is in the buffer before
    [b]; there is none if it is not before [b]. *)
Record first_at (m : list Z) (a b : Z) (str : list Z) (p : Z) : Prop := {
  fa_found : p < b → a ≤ p ∧ p + zlen str ≤ b ∧ occurs m str p;
  fa_none : ∀ q, a ≤ q < p → q + zlen str ≤ b → ¬ occurs m str q;
}.

Lemma wp_peekb p s (Q : Z → fg → Prop) : -2 ≤ p → p + 3 ≤ zlen (f_mem s) → Q (byte (f_mem s) (p + 2)) s → wp (peekb p) s Q.
Proof.
  intros H1 H2 HQ. unfold peekb. apply wp_bind, wp_gets. unfold mem_ok.
  rewrite !(proj2 (Z.leb_le _ _)) by lia. done.
Qed.

Lemma wp_pokeb p bs s (Q : unit → fg → Prop) : -2 ≤ p → p + zlen bs + 2 ≤ zlen (f_mem s) →
  Q tt (set_mem (splice (f_mem s) (p + 2) bs) s) → wp (pokeb p bs) s Q.
Proof.
  intros H1 H2 HQ. unfold pokeb. apply wp_bind, wp_gets. unfold mem_ok. pose proof (zlen_nonneg bs).
  rewrite !(proj2 (Z.leb_le _ _)) by lia. done.
Qed.

Lemma compare_back_ok k str s : ∀ bufp, Z.of_nat k ≤ bufp → bufp + 2 ≤ zlen (f_mem s) →
  wp (compare_back k str bufp) s (λ r s', s' = s ∧
    match r with
    | Some p => p = bufp - Z.of_nat k ∧ ∀ i, 0 ≤ i < Z.of_nat k → byte (f_mem s) (p + i + 2) = byte str i
    | None => ∃ i, 0 ≤ i < Z.of_nat k ∧ byte (f_mem s) (bufp - Z.of_nat k + i + 2) ≠ byte str i
    end).
Proof.
  induction k as [|k IH]; intros bufp H1 H2; cbn [compare_back].
  { apply wp_ret. split; [done|]. split; [lia|]. intros. lia. }
  apply wp_bind, wp_peekb; [lia|lia|]. destruct (Z.eqb_spec (byte (f_mem s) (bufp - 1 + 2)) (byte str (Z.of_nat k))) as [E|E].
  - eapply wp_mono; [apply IH; lia|]. intros r s' [-> Hr]. split; [done|]. destruct r as [p|].
    + destruct Hr as [-> Hr]. split; [lia|]. intros i Hi. destruct (decide (i = Z.of_nat k)) as [->|]; [rewrite <- E; f_equal; lia|]. apply Hr. lia.
    + destruct Hr as (i & Hi & Hne). exists i. split; [lia|]. by replace (bufp - Z.of_nat (S k) + i + 2) with (bufp - 1 - Z.of_nat k + i + 2) by lia.
  - apply wp_ret. split; [done|]. exists (Z.of_nat k). split; [lia|].
    by replace (bufp - Z.of_nat (S k) + Z.of_nat k + 2) with (bufp - 1 + 2) by lia.
Qed.

(** The state of the buffer that the search relies on. *)
Record window (s : fg) : Prop := {
  wi_range : 0 ≤ f_input s ≤ f_max s;
  wi_mem : f_max s + 2 ≤ zlen (f_mem s);
  wi_bytes : bytes (f_mem s);
}.

Lemma fg_byte_range m i : bytes m → 0 ≤ byte m i < 256.
Proof.
  intros Hm. unfold byte. rewrite nth_lookup. destruct (m !! Z.to_nat i) as [c|] eqn:E; simpl; [|lia].
  by eapply Forall_lookup_1 in Hm.
Qed.

Lemma search_str_ok ts s : good_ts ts → window s →
  wp (search_str ts) s (λ p s', s' = s ∧ first_at (f_mem s) (f_input s) (f_max s) (ts_str ts) p).
Proof.
  intros [[Gne Gb _ Gl] El [T1 T2 T3]] [[W0 W1] W2 W3]. set (str := ts_str ts) in *. set (m := f_mem s) in *.
  set (a := f_input s) in *. set (b := f_max s) in *. set (len := zlen str) in *.
  assert (0 < len) as Hlen by (unfold len, zlen; destruct str; [done|simpl; lia]).
  unfold search_str. apply wp_bind, wp_gets. unfold id. fold a b. rewrite El. fold len.
  apply (wp_loop _ (λ n bufp s', s' = s ∧ a + len - 1 ≤ bufp ∧ n = Z.to_nat (b - bufp) ∧
    ∀ q, a ≤ q → q + len - 1 < bufp → q + len ≤ b → ¬ occurs m str q)) with (n := Z.to_nat (b - (a + len - 1))); [|lia|].
  2:{ split_and!; [done|lia|done|]. intros. lia. }
  intros n bufp s' (-> & Hb & -> & Hno). destruct (Z.ltb_spec bufp b) as [Hlt|Hge].
  2:{ apply wp_ret. split; [done|]. split; [lia|]. intros q Hq Hf. apply Hno; lia. }
  apply wp_bind, wp_peekb; [lia|fold m; lia|]. fold m. set (c := byte m (bufp + 2)).
  pose proof (fg_byte_range m (bufp + 2) W3) as Hc. fold c in Hc. rewrite land_byte by done.
  specialize (T1 c Hc). set (sh := ts_table ts !!! Z.to_nat c) in *. fold len in T1.
  destruct (Z.gtb_spec (bufp + sh) bufp) as [Hs|Hs].
  - apply wp_ret. exists (Z.to_nat (b - (bufp + sh))). split; [lia|]. split_and!; [done|lia|done|].
    intros q Hq1 Hq2 Hq3. destruct (decide (q + len - 1 < bufp)); [by apply Hno|]. intros Ho.
    specialize (Ho (bufp - q) ltac:(fold len; lia)). replace (q + (bufp - q) + 2) with (bufp + 2) in Ho by lia. fold c in Ho.
    specialize (T2 c (bufp - q) ltac:(fold len; lia) (eq_sym Ho) Hc). fold sh len in T2. lia.
  - assert (sh = 0) as E0 by lia. rewrite E0, Z.add_0_r. specialize (T3 c Hc E0). fold len in T3.
    eapply wp_bind_mono; [apply compare_back_ok; [lia|fold m; lia]|]. intros r s' [-> Hr]. fold m in Hr.
    replace (Z.of_nat (Z.to_nat (len - 1))) with (len - 1) in Hr by lia. destruct r as [p|].
    + destruct Hr as [-> Hr]. apply wp_ret. split; [done|]. split.
      * intros _. split_and!; [lia|lia|]. intros i Hi. fold len in Hi. destruct (decide (i = len - 1)) as [->|]; [|apply Hr; lia].
        rewrite <- T3. unfold c. f_equal. lia.
      * intros q Hq Hf. apply Hno; lia.
    + destruct Hr as (i & Hi & Hne). apply wp_ret. exists (Z.to_nat (b - (bufp + 1))). split; [lia|]. split_and!; [done|lia|done|].
      intros q Hq1 Hq2 Hq3. destruct (decide (q + len - 1 < bufp)); [by apply Hno|]. intros Ho. apply Hne.
      replace (bufp - (len - 1)) with q by lia. apply Ho. fold len. lia.
Qed.

(** ** All strings *)

(** A place remembered from an earlier search is still right, or before the
    input. *)
Definition cached (s : fg) (ts : test_str) : Prop :=
  ts_bufp ts < f_input s ∨ first_at (f_mem s) (f_input s) (f_max s) (ts_str ts) (ts_bufp ts).

Definition with_bufp (ts : test_str) (p : Z) : test_str := mkTs (ts_str ts) (ts_len ts) (ts_table ts) p.

(** [p] is the first place from [a] on at which one of the strings is. *)
Record first_any (m : list Z) (a b : Z) (strs : list (list Z)) (p : Z) : Prop := {
  fy_range : a ≤ p ≤ b;
  fy_found : p < b → ∃ str, str ∈ strs ∧ p + zlen str ≤ b ∧ occurs m str p;
  fy_none : ∀ str q, str ∈ strs → a ≤ q < p → q + zlen str ≤ b → ¬ occurs m str q;
}.

(** One string: the new place and the new minimum. *)
Lemma search_one_ok ts first s strs : good_ts ts → window s → f_input s = 0 ∨ cached s ts →
  first_any (f_mem s) (f_input s) (f_max s) strs first →
  wp (if f_input s =? 0 then
        let* p := search_str ts in ret (p, if p <? first then p else first)
      else if ts_bufp ts <? first then
        if ts_bufp ts >=? f_input s then ret (ts_bufp ts, ts_bufp ts)
        else let* p := search_str ts in ret (p, if p <? first then p else first)
      else ret (ts_bufp ts, first)) s
    (λ r s', s' = s ∧ cached s (with_bufp ts r.1) ∧ first_any (f_mem s) (f_input s) (f_max s) (strs ++ [ts_str ts]) r.2).
Proof.
  intros HG HW HC [R F N]. set (m := f_mem s) in *. set (a := f_input s) in *. set (b := f_max s) in *.
  assert (∀ p, first_at m a b (ts_str ts) p → first_any m a b (strs ++ [ts_str ts]) (if p <? first then p else first)) as Hmin.
  { intros p [P1 P2]. destruct (Z.ltb_spec p first) as [Hlt|Hge].
    - destruct P1 as (P1 & P3 & P4); [lia|]. split; [lia|intros _; exists (ts_str ts); split; [apply elem_of_app; right; by left|done]|].
      intros str q [Hs|Hs%list_elem_of_singleton]%elem_of_app Hq; [apply N; [done|lia]|]. subst str. by apply P2.
    - split; [lia|intros Hf; destruct (F Hf) as (str & Hs & Hr); exists str; split; [apply elem_of_app; by left|done]|].
      intros str q [Hs|Hs%list_elem_of_singleton]%elem_of_app Hq; [by apply N|]. subst str. apply P2. lia. }
  assert (wp (let* p := search_str ts in ret (p, if p <? first then p else first)) s
    (λ r s', s' = s ∧ cached s (with_bufp ts r.1) ∧ first_any m a b (strs ++ [ts_str ts]) r.2)) as Hsearch.
  { eapply wp_bind_mono; [by apply search_str_ok|]. intros p s' [-> Hp]. apply wp_ret. split_and!; [done|by right|by apply Hmin]. }
  destruct (Z.eqb_spec a 0) as [E|E]; [done|]. destruct HC as [?|HC]; [lia|].
  destruct (Z.ltb_spec (ts_bufp ts) first) as [Hlt|Hge].
  - destruct (Z.geb_spec (ts_bufp ts) a); [|done]. apply wp_ret. destruct HC as [?|HC]; [fold a in H0; lia|].
    split_and!; [done|by right|]. specialize (Hmin _ HC). by rewrite (proj2 (Z.ltb_lt _ _) Hlt) in Hmin.
  - apply wp_ret. destruct HC as [HC|HC]; [fold a in HC; lia|]. split_and!; [done|by right|].
    specialize (Hmin _ HC). by rewrite (proj2 (Z.ltb_ge _ _) Hge) in Hmin.
Qed.

Lemma search_all_ok s l : ∀ strs first, window s → Forall good_ts l → (f_input s = 0 ∨ Forall (cached s) l) →
  first_any (f_mem s) (f_input s) (f_max s) strs first →
  wp (search_all l first) s (λ r s', s' = s ∧ Forall good_ts r.1 ∧ Forall (cached s) r.1 ∧ ts_str <$> r.1 = ts_str <$> l ∧
    first_any (f_mem s) (f_input s) (f_max s) (strs ++ (ts_str <$> l)) r.2).
Proof.
  induction l as [|ts l IH]; intros strs first HW HG HC HF; cbn [search_all].
  { apply wp_ret. rewrite fmap_nil, app_nil_r. by split_and!. }
  inversion_clear HG as [|? ? HG1 HG2]. apply wp_bind, wp_gets. unfold id.
  eapply wp_bind_mono; [apply (search_one_ok ts first s strs HG1 HW); [|done]|].
  { destruct HC as [HC|HC]; [by left|right]. by inversion_clear HC. }
  intros [p f1] s' (-> & C1 & F1). cbn [fst snd] in *. eapply wp_bind_mono; [apply (IH (strs ++ [ts_str ts]) f1 HW HG2); [|done]|].
  { destruct HC as [HC|HC]; [by left|right]. by inversion_clear HC. }
  intros [l' f2] s' (-> & G2 & C2 & E2 & F2). apply wp_ret. cbn [fst snd] in *. rewrite <- app_assoc in F2.
  split_and!; [done| |by constructor|cbn; by rewrite E2|done]. constructor; [|done]. by destruct HG1.
Qed.

(** ** Lines *)

Fixpoint cut (cur d : list Z) : list (list Z) :=
  match d with
  | [] => match cur with [] => [] | _ => [cur] end
  | c :: d => if c =? 10 then cur :: cut [] d else cut (cur ++ [c]) d
  end.

(** The lines of a file, without their newlines. *)
Definition lines (d : list Z) : list (list Z) := cut [] d.
Definition text (ws : list (list Z)) : list Z := mjoin ((λ w, w ++ [10]) <$> ws).
Definition whole (ws : list (list Z)) : Prop := Forall (λ w, 10 ∉ w) ws.

Lemma cut_word cur w d : 10 ∉ w → cut cur (w ++ d) = cut (cur ++ w) d.
Proof.
  revert cur. induction w as [|c w IH]; intros cur Hw; [by rewrite app_nil_r|]. simpl.
  apply not_elem_of_cons in Hw as [Hc Hw]. rewrite (proj2 (Z.eqb_neq _ _)) by done. rewrite IH by done. by rewrite <- app_assoc.
Qed.

Lemma lines_cons w d : 10 ∉ w → lines (w ++ 10 :: d) = w :: lines d.
Proof. intros Hw. unfold lines. by rewrite cut_word. Qed.

Lemma lines_last w : 10 ∉ w → w ≠ [] → lines w = [w].
Proof. intros Hw Hne. unfold lines. rewrite <- (app_nil_r w) at 1. rewrite cut_word by done. simpl. by destruct w. Qed.

(** The first line of a file. *)
Lemma first_line d : 10 ∉ d ∨ ∃ w d', d = w ++ 10 :: d' ∧ 10 ∉ w.
Proof.
  induction d as [|c d IH]; [left; apply not_elem_of_nil|]. destruct (decide (c = 10)) as [->|Hc].
  - right. exists [], d. split; [done|]. apply not_elem_of_nil.
  - destruct IH as [IH|(w & d' & -> & Hw)]; [left; apply not_elem_of_cons; split; [congruence|done]|].
    right. exists (c :: w), d'. split; [done|]. apply not_elem_of_cons. split; [congruence|done].
Qed.

(** The last line of a file. *)
Lemma last_line d : 10 ∉ d ∨ ∃ y w, d = (y ++ [10]) ++ w ∧ 10 ∉ w.
Proof.
  induction d as [|c d IH] using rev_ind; [left; apply not_elem_of_nil|]. destruct (decide (c = 10)) as [->|Hc].
  - right. exists d, []. rewrite app_nil_r. split; [done|]. apply not_elem_of_nil.
  - destruct IH as [IH|(y & w & -> & Hw)].
    + left. apply not_elem_of_app. split; [done|]. by apply not_elem_of_cons; split; [congruence|apply not_elem_of_nil].
    + right. exists y, (w ++ [c]). split; [by rewrite app_assoc|]. apply not_elem_of_app. split; [done|].
      by apply not_elem_of_cons; split; [congruence|apply not_elem_of_nil].
Qed.

Lemma text_cons w ws : text (w :: ws) = w ++ 10 :: text ws.
Proof. unfold text. simpl. by rewrite <- app_assoc. Qed.

Lemma text_app ws ws' : text (ws ++ ws') = text ws ++ text ws'.
Proof. unfold text. by rewrite fmap_app, join_app. Qed.

Lemma lines_text ws d : whole ws → lines (text ws ++ d) = ws ++ lines d.
Proof.
  induction 1 as [|w ws Hw Hws IH]; [done|]. rewrite text_cons, <- app_assoc. simpl. rewrite lines_cons by done. by rewrite IH.
Qed.

Lemma text_lines y : ∃ ws, y ++ [10] = text ws ∧ whole ws ∧ ws ≠ [].
Proof.
  remember (length y) as n eqn:En. revert y En. induction n as [n IH] using lt_wf_ind. intros y En. destruct (first_line y) as [Hy|(w & d & -> & Hw)].
  - exists [y]. split_and!; [by rewrite text_cons|by apply Forall_singleton|done].
  - destruct (IH (length d) ltac:(subst n; rewrite length_app; simpl; lia) d eq_refl) as (ws & E & Hws & _).
    exists (w :: ws). split_and!; [rewrite text_cons, <- E; by rewrite <- app_assoc|by constructor|done].
Qed.

Lemma lines_whole d : whole (lines d).
Proof.
  remember (length d) as n eqn:En. revert d En. induction n as [n IH] using lt_wf_ind. intros d En. destruct (first_line d) as [Hd|(w & d' & -> & Hw)].
  - destruct (decide (d = [])) as [->|]; [constructor|]. rewrite lines_last by done. by apply Forall_singleton.
  - rewrite lines_cons by done. constructor; [done|]. apply (IH (length d')); [|done]. subst n. rewrite length_app. simpl. lia.
Qed.

Lemma length_lines d : (length (lines d) ≤ length d)%nat.
Proof.
  remember (length d) as n eqn:En. revert d En. induction n as [n IH] using lt_wf_ind. intros d En. destruct (first_line d) as [Hd|(w & d' & -> & Hw)].
  - destruct d as [|c d]; [simpl; lia|]. rewrite lines_last by done. simpl in *. lia.
  - rewrite lines_cons by done. rewrite length_app in En. simpl in *. specialize (IH (length d') ltac:(lia) d' eq_refl). lia.
Qed.

Lemma length_text ws : (length ws ≤ length (text ws))%nat.
Proof. induction ws as [|w ws IH]; [done|]. rewrite text_cons, length_app. simpl. lia. Qed.

(** A file that ends without a newline has one more line than it has newlines. *)
Lemma lines_newline d : d ≠ [] → last d ≠ Some 10 → lines (d ++ [10]) = lines d.
Proof.
  intros Hne Hl. destruct (last_line d) as [Hd|(y & w & -> & Hw)].
  - rewrite lines_cons, (lines_last d) by done. done.
  - destruct (text_lines y) as (ws & E & Hws & _). rewrite E in *. assert (w ≠ []) as Hwne.
    { intros ->. apply Hl. rewrite app_nil_r, <- E. apply last_snoc. }
    rewrite <- app_assoc, !lines_text by done. rewrite lines_cons, (lines_last w) by done. done.
Qed.

(** The lines fit the buffer. *)
Definition short (d : list Z) : Prop := Forall (λ w, zlen w < READ_SIZE) (lines d).

Lemma short_start w d : short (w ++ d) → 10 ∉ w → zlen w < READ_SIZE.
Proof.
  unfold short. intros Hs Hw. destruct (first_line d) as [Hd|(v & d' & -> & Hv)].
  - destruct (decide (w ++ d = [])) as [E|E]; [apply app_eq_nil in E as [-> _]; done|].
    rewrite lines_last in Hs by (done || by apply not_elem_of_app). inversion_clear Hs. rewrite zlen_app in *.
    pose proof (zlen_nonneg d). lia.
  - rewrite app_assoc, lines_cons in Hs by by apply not_elem_of_app. inversion_clear Hs. rewrite zlen_app in *.
    pose proof (zlen_nonneg v). lia.
Qed.

(** ** The buffer and the file *)

Definition good_read (r : readres) : Prop :=
  match r with Data bs => bs ≠ [] ∧ zlen bs ≤ READ_SIZE ∧ bytes bs | ReadError => False end.
Definition unread (s : fg) : list Z := mjoin (bytes_of <$> f_reads s).

(** What the reading does not touch. *)
Record same_fg (s s' : fg) : Prop := {
  sf_strings : f_strings s' = f_strings s;
  sf_flags : f_flags s' = f_flags s;
  sf_line : f_line s' = f_line s;
  sf_out : f_out s' = f_out s;
}.

(** The memory of the buffer, with the sentinel. *)
Record buffer_ok (m : list Z) : Prop := {
  bk_size : zlen m = BUF_SIZE + 2;
  bk_bytes : bytes m;
  bk_sentinel : byte m 1 = 10;
}.

Lemma bytes_splice m p bs : bytes m → bytes bs → bytes (splice m p bs).
Proof. intros Hm Hb. unfold splice. apply Forall_app. split; [by apply Forall_take|]. apply Forall_app. split; [done|by apply Forall_drop]. Qed.

Lemma buffer_poke m p bs : buffer_ok m → 0 ≤ p → p + zlen bs ≤ BUF_SIZE → bytes bs → buffer_ok (splice m (p + 2) bs).
Proof.
  intros [B1 B2 B3] Hp Hl Hb. pose proof (zlen_nonneg bs). split; [rewrite zlen_splice; lia|by apply bytes_splice|].
  rewrite byte_splice_out by lia. done.
Qed.

(** Bytes read after the bytes that are there. *)
Lemma slice_more m n bs : buffer_ok m → 0 ≤ n → n + zlen bs ≤ BUF_SIZE →
  slice (splice m (n + 2) bs) 2 (n + zlen bs) = slice m 2 n ++ bs.
Proof.
  intros [B1 _ _] Hn Hl. pose proof (zlen_nonneg bs). assert (zlen (splice m (n + 2) bs) = zlen m) as E by (apply zlen_splice; lia).
  apply byte_ext; [rewrite zlen_app, !zlen_slice by lia; done|]. rewrite zlen_slice by lia. intros i Hi.
  rewrite byte_slice by lia. destruct (decide (i < n)).
  - rewrite byte_splice_out by lia. rewrite byte_app_l, byte_slice by (rewrite ?zlen_slice; lia). done.
  - rewrite byte_splice_in by lia. rewrite byte_app_r by (rewrite zlen_slice; lia). rewrite zlen_slice by lia. f_equal. lia.
Qed.

Lemma last_byte (x : list Z) : x ≠ [] → last x = Some (byte x (zlen x - 1)).
Proof.
  intros Hx. destruct x as [|c x _] using rev_ind; [done|]. rewrite last_snoc, byte_app_r by (rewrite zlen_app; change (zlen [c]) with 1; lia).
  rewrite zlen_app. change (zlen [c]) with 1. by replace (zlen x + 1 - 1 - zlen x) with 0 by lia.
Qed.

(** The result of the reading loop: [d] is what is still to come. *)
Definition read_post (d : list Z) (s : fg) (r : option Z) (s' : fg) : Prop :=
  same_fg s s' ∧ buffer_ok (f_mem s') ∧ Forall good_read (f_reads s') ∧ f_max s' = f_max s ∧ f_end s' = f_end s ∧ f_input s' = f_input s ∧
  match r with
  | None => d = [] ∧ f_eof s' = true ∧ f_mem s' = f_mem s
  | Some q => ∃ y, slice (f_mem s') 2 q = y ∧ zlen y = q ∧ y ≠ [] ∧ q ≤ BUF_SIZE ∧
      ((f_eof s' = false ∧ q < BUF_SIZE ∧ y ++ unread s' = d ∧ (last y = Some 10 ∨ READ_SIZE ≤ q)) ∨
       (f_eof s' = true ∧ d ≠ [] ∧ last d ≠ Some 10 ∧ y = d ++ [10]))
  end.

Lemma read_loop_ok fuel : ∀ s q x d, (length (f_reads s) < fuel)%nat → buffer_ok (f_mem s) → Forall good_read (f_reads s) → f_eof s = false →
  slice (f_mem s) 2 q = x → zlen x = q → q < READ_SIZE → last x ≠ Some 10 → x ++ unread s = d →
  wp (read_loop fuel q) s (read_post d s).
Proof.
  induction fuel as [|fuel IH]; intros s q x d Hf HB HR He Hx Hq Hs Hl Hd; [lia|]. cbn [read_loop].
  pose proof (zlen_nonneg x) as Hx0. apply wp_bind, wp_gets. unfold unread in Hd. destruct (f_reads s) as [|[bs|] reads] eqn:Er.
  - rewrite app_nil_r in Hd. subst d. apply wp_bind, wp_modify. destruct (Z.eqb_spec q 0) as [E|E].
    + apply wp_ret. cbn. assert (x = []) by (destruct x; [done|unfold zlen in Hq; simpl in Hq; lia]).
      split_and!; try done. cbn; by rewrite Er.
    + unfold READ_SIZE in *. apply wp_bind, wp_pokeb; cbn [set_eof f_mem]; [lia|change (zlen [10]) with 1; rewrite (bk_size _ HB); unfold BUF_SIZE, READ_SIZE; lia|].
      assert (bytes [10]) as Hb by by apply Forall_singleton.
      apply wp_ret. split_and!; try done; cbn [set_mem set_eof f_mem f_reads].
      * apply buffer_poke; [done|lia|change (zlen [10]) with 1; unfold BUF_SIZE, READ_SIZE; lia|done].
      * by rewrite Er.
      * exists (x ++ [10]). split_and!.
        -- change (q + 1) with (q + zlen [10]). rewrite slice_more by (done || lia || (change (zlen [10]) with 1; unfold BUF_SIZE, READ_SIZE; lia)). by rewrite Hx.
        -- rewrite zlen_app. change (zlen [10]) with 1. lia.
        -- by destruct x.
        -- unfold BUF_SIZE, READ_SIZE. lia.
        -- right. split_and!; [done| |done|done]. intros ->. by change (zlen []) with 0 in Hq.
  - inversion_clear HR as [|? ? Hg HR']. cbn [good_read] in Hg. destruct Hg as (Hne & Hlen & Hbs). apply wp_bind, wp_modify.
    assert (0 < zlen bs) as Hpos by (destruct bs; [done|unfold zlen; simpl; lia]).
    assert (q + zlen bs < BUF_SIZE) as Hfit by (unfold BUF_SIZE; lia).
    apply wp_bind, wp_pokeb; cbn [set_reads f_mem]; [lia|rewrite (bk_size _ HB); lia|].
    set (s1 := set_mem _ _). assert (buffer_ok (f_mem s1)) as HB1 by (apply buffer_poke; [done|lia|lia|done]).
    assert (slice (f_mem s1) 2 (q + zlen bs) = x ++ bs) as E1 by (cbn [s1 set_mem f_mem]; rewrite slice_more by (done || lia); by rewrite Hx).
    assert (zlen (x ++ bs) = q + zlen bs) as Ez by (rewrite zlen_app; lia).
    apply wp_bind, wp_peekb; [lia|rewrite (bk_size _ HB1); lia|].
    assert (byte (f_mem s1) (q + zlen bs - 1 + 2) = byte (x ++ bs) (zlen (x ++ bs) - 1)) as Eb.
    { rewrite <- E1 at 1. rewrite byte_slice by (rewrite ?Ez; lia). f_equal. lia. }
    assert (x ++ bs ≠ []) as Hxb by (intros [_ ->]%app_eq_nil; done). pose proof (last_byte _ Hxb) as Hlast. rewrite <- Eb in Hlast.
    assert ((x ++ bs) ++ unread s1 = d) as Ed by (unfold unread; cbn [s1 set_mem set_reads f_reads]; rewrite <- Hd, <- app_assoc; done).
    destruct ((q + zlen bs <? READ_SIZE) && negb (byte (f_mem s1) (q + zlen bs - 1 + 2) =? 10)) eqn:Ec.
    + apply andb_true_iff in Ec as [Ec1%Z.ltb_lt Ec2%negb_true_iff%Z.eqb_neq].
      eapply wp_mono; [apply (IH s1 (q + zlen bs) (x ++ bs) d); try done; [simpl in Hf; cbn; lia|rewrite Hlast; congruence]|].
      intros r s' (Sm & R). split; [by destruct Sm|]. destruct r; [exact R|]. destruct R as (_ & _ & _ & _ & _ & E & _).
      rewrite E in Ed. by apply app_eq_nil in Ed as [? _].
    + apply wp_ret. split_and!; try done. exists (x ++ bs). split_and!; try done; [lia|]. left. split_and!; [done|done|done|].
      apply andb_false_iff in Ec as [Ec%Z.ltb_ge|Ec%negb_false_iff%Z.eqb_eq]; [by right|left; rewrite Hlast; by f_equal].
  - by inversion_clear HR.
Qed.

Lemma after_newline_ok n p s : ∀ q, 0 ≤ p ≤ q → q + 2 ≤ zlen (f_mem s) → q - p < Z.of_nat n →
  byte (f_mem s) (p + 1) = 10 → (∀ i, p ≤ i < q → byte (f_mem s) (i + 2) ≠ 10) →
  wp (after_newline n q) s (λ r s', r = p ∧ s' = s).
Proof.
  induction n as [|n IH]; intros q Hp Hq Hn Hnl Hno; [lia|]. cbn [after_newline]. apply wp_bind, wp_peekb; [lia|lia|].
  destruct (decide (q = p)) as [->|].
  - replace (p - 1 + 2) with (p + 1) by lia. rewrite Hnl. by apply wp_ret.
  - rewrite (proj2 (Z.eqb_neq _ _)) by (apply Hno; lia). apply IH; try lia. intros i Hi. apply Hno. lia.
Qed.

(** The lines in the buffer, and what is still to come of the file. *)
Record stream (s : fg) (ws : list (list Z)) (d : list Z) : Prop := {
  st_buffer : buffer_ok (f_mem s);
  st_range : 0 ≤ f_input s ≤ f_max s ∧ f_max s ≤ f_end s ≤ BUF_SIZE;
  st_nl : byte (f_mem s) (f_input s + 1) = 10;
  st_lines : whole ws;
  st_text : slice (f_mem s) (f_input s + 2) (f_max s - f_input s) = text ws;
  st_reads : Forall good_read (f_reads s);
  st_rest : if f_eof s then d = []
            else (10 ∉ slice (f_mem s) (f_max s + 2) (f_end s - f_max s)) ∧ slice (f_mem s) (f_max s + 2) (f_end s - f_max s) ++ unread s = d;
  st_short : short d;
}.

Lemma stream_empty s ws d : stream s ws d → f_max s ≤ f_input s → ws = [].
Proof.
  intros HS Hm. pose proof (st_text _ _ _ HS) as E. pose proof (st_range _ _ _ HS). replace (f_max s - f_input s) with 0 in E by lia.
  destruct ws as [|w ws]; [done|]. rewrite text_cons in E. apply (f_equal length) in E. rewrite length_app in E. simpl in E. lia.
Qed.

Lemma not_in_byte (w : list Z) i : 10 ∉ w → 0 ≤ i < zlen w → byte w i ≠ 10.
Proof.
  intros Hw Hi E. apply Hw. unfold byte in E. rewrite <- E. apply list_elem_of_In, nth_In. unfold zlen in Hi. lia.
Qed.

(** The split of what was read at its last newline. *)
Lemma filled s y q : buffer_ok (f_mem s) → slice (f_mem s) 2 q = y → zlen y = q → q ≤ BUF_SIZE → 10 ∈ y →
  ∃ z w, y = (z ++ [10]) ++ w ∧ (10 ∉ w) ∧ slice (f_mem s) 2 (zlen (z ++ [10])) = z ++ [10] ∧
    slice (f_mem s) (zlen (z ++ [10]) + 2) (q - zlen (z ++ [10])) = w ∧
    wp (after_newline (Z.to_nat (q + 2)) q) s (λ r s', r = zlen (z ++ [10]) ∧ s' = s).
Proof.
  intros [B1 B2 B3] Ey Ez Hq Hin. destruct (last_line y) as [?|(z & w & E & Hw)]; [done|]. exists z, w. split_and!; [done|done|..].
  all: assert (zlen y = zlen (z ++ [10]) + zlen w) as El by (by rewrite E, zlen_app).
  all: pose proof (zlen_nonneg w); assert (1 ≤ zlen (z ++ [10])) as Hz by (rewrite zlen_app; change (zlen [10]) with 1; pose proof (zlen_nonneg z); lia).
  all: assert (∀ i, 0 ≤ i < q → byte (f_mem s) (2 + i) = byte y i) as Eb by (intros i Hi; rewrite <- Ey, byte_slice by lia; done).
  - apply byte_ext; rewrite zlen_slice by lia; [done|]. intros i Hi. rewrite byte_slice, Eb, E by lia. apply byte_app_l. lia.
  - apply byte_ext; rewrite zlen_slice by lia; [lia|]. intros i Hi. rewrite byte_slice by lia.
    replace (zlen (z ++ [10]) + 2 + i) with (2 + (zlen (z ++ [10]) + i)) by lia. rewrite Eb, E, byte_app_r by lia. f_equal. lia.
  - apply after_newline_ok; [lia|lia|lia|..].
    + replace (zlen (z ++ [10]) + 1) with (2 + (zlen (z ++ [10]) - 1)) by lia. rewrite Eb, E, byte_app_l by lia.
      rewrite zlen_app, byte_app_r by (change (zlen [10]) with 1; lia). change (zlen [10]) with 1. by replace (zlen z + 1 - 1 - zlen z) with 0 by lia.
    + intros i Hi. rewrite (Z.add_comm i), Eb, E, byte_app_r by lia. apply not_in_byte; [done|lia].
Qed.

(** The bytes [y] that a read loop leaves in the buffer. *)
Definition read_bytes (d y : list Z) (q : Z) (s : fg) : Prop :=
  (f_eof s = false ∧ q < BUF_SIZE ∧ y ++ unread s = d ∧ (last y = Some 10 ∨ READ_SIZE ≤ q)) ∨
  (f_eof s = true ∧ d ≠ [] ∧ last d ≠ Some 10 ∧ y = d ++ [10]).

Lemma read_newline d y q s : read_bytes d y q s → zlen y = q → y ≠ [] → short d → 10 ∈ y ∧ d ≠ [].
Proof.
  intros R Ezy Hyne Hsh. destruct R as [(_ & _ & Ed & Hend)|(_ & Hdn & _ & ->)].
  - split; [|intros ->; by apply app_eq_nil in Ed as [? _]]. destruct Hend as [[z ->]%last_Some|Hbig]; [apply elem_of_app; right; by left|].
    destruct (decide (10 ∈ y)) as [|Hno]; [done|]. rewrite <- Ed in Hsh. pose proof (short_start _ _ Hsh Hno). lia.
  - split; [apply elem_of_app; right; by left|done].
Qed.

(** The whole lines [ws] at the start of the bytes are lines of the file. *)
Lemma read_lines d y q s ws w : read_bytes d y q s → y = text ws ++ w → 10 ∉ w → Forall (λ v, 10 ∉ v) ws →
  ∃ d', lines d = ws ++ lines d' ∧ if f_eof s then d' = [] else w ++ unread s = d'.
Proof.
  intros R E Hw Hws. destruct R as [(He2 & _ & Ed & _)|(He2 & Hdn & Hdl & Ed)]; rewrite He2.
  - exists (w ++ unread s). split; [|done]. rewrite <- Ed, E, <- app_assoc. by apply lines_text.
  - exists []. split; [|done]. rewrite <- lines_newline by done. rewrite <- Ed, E.
    assert (w = []) as ->.
    { rewrite Ed in E. destruct w as [|c w _] using rev_ind; [done|]. rewrite app_assoc in E. apply app_inj_tail in E as [_ <-].
      exfalso. apply Hw. apply elem_of_app. right. by left. }
    rewrite app_nil_r. rewrite <- (app_nil_r (text ws)) at 1. by apply lines_text.
Qed.

Lemma fill_buffer_ok s d : stream s [] d →
  wp fill_buffer s (λ n s', same_fg s s' ∧
    if decide (d = []) then n = 0 ∧ stream s' [] []
    else 0 < n ∧ ∃ ws d', ws ≠ [] ∧ stream s' ws d' ∧ f_input s' = 0 ∧ lines d = ws ++ lines d').
Proof.
  intros [HB HR Hnl _ Ht Hrd Hrest Hsh]. unfold fill_buffer. apply wp_bind, wp_gets. unfold id. pose proof HB as [B1 B2 B3].
  destruct (f_eof s) eqn:He.
  { subst d. apply wp_ret. split; [done|]. rewrite decide_True by done. split; [done|]. split; try done; [constructor|by rewrite He]. }
  destruct Hrest as [Hlo Hd]. set (lo := slice (f_mem s) (f_max s + 2) (f_end s - f_max s)) in *.
  assert (zlen lo = f_end s - f_max s) as Elo by (apply zlen_slice; lia).
  assert (zlen lo < READ_SIZE) as Hlo2 by (rewrite <- Hd in Hsh; by eapply short_start).
  assert (bytes lo) as Hbl by (apply Forall_take, Forall_drop, B2).
  assert (mem_ok (f_mem s) (f_max s) (f_end s - f_max s) = true) as -> by (unfold mem_ok; rewrite !andb_true_iff, !Z.leb_le; lia).
  apply wp_bind, wp_pokeb; [lia|unfold BUF_SIZE in *; lia|]. set (s1 := set_mem _ s). fold lo in s1.
  assert (buffer_ok (f_mem s1)) as HB1 by (apply (buffer_poke (f_mem s) 0); [done|lia|unfold BUF_SIZE; lia|done]).
  eapply wp_bind_mono; [apply (read_loop_ok _ s1 _ lo d); try done|].
  - cbn. lia.
  - cbn [s1 set_mem f_mem]. apply slice_splice_same; [lia|unfold BUF_SIZE in *; lia|done].
  - lia.
  - intros E. apply Hlo. apply last_Some in E as [z E]. rewrite E. apply elem_of_app. right. by left.
  - intros [q|] s2 (SM & HB2 & HR2 & Em & Een & Ei & R).
    2:{ destruct R as (Hd0 & He2 & Emem). apply wp_ret. split; [by destruct SM|]. rewrite decide_True by done. split; [done|].
        assert (splice (f_mem s) 2 lo = f_mem s) as Esp.
        { rewrite Hd0 in Hd. apply app_eq_nil in Hd as [Hd _]. rewrite Hd. unfold splice. simpl. apply (take_drop 2). }
        cbn [s1 set_mem f_mem f_input f_max] in *. change (0 + 2) with 2 in *. rewrite Esp in *.
        split; rewrite ?Emem, ?Em, ?Ei, ?Een, ?He2; try done; [constructor|]. by rewrite Hd0 in Hsh. }
    destruct R as (y & Ey & Ezy & Hyne & Hq & R). apply wp_bind, wp_modify.
    destruct (read_newline d y q s2 R Ezy Hyne Hsh) as [Hin Hdne].
    destruct (filled (set_bufend q s2) y q HB2 Ey Ezy Hq Hin) as (z & w & E & Hw & Ez1 & Ez2 & Hwp).
    eapply wp_bind_mono; [exact Hwp|]. intros p s3 [-> ->]. set (n := zlen (z ++ [10])) in *.
    assert (1 ≤ n) as Hn by (unfold n; rewrite zlen_app; change (zlen [10]) with 1; pose proof (zlen_nonneg z); lia).
    assert (n ≤ q) as Hnq by (rewrite <- Ezy, E, zlen_app; pose proof (zlen_nonneg w); unfold n; lia).
    rewrite (proj2 (Z.eqb_neq n 0)) by lia. apply wp_bind, wp_modify. apply wp_bind, wp_modify. apply wp_gets.
    split; [by destruct SM|]. rewrite decide_False by done. split; [cbn; lia|].
    destruct (text_lines z) as (ws & Et & Hws & Hwne).
    rewrite Et in E. destruct (read_lines d y q s2 ws w R E Hw Hws) as (d' & El & Hd').
    exists ws, d'. split_and!; [done| |done|done].
    assert (f_eof s2 = false → d' = w ++ unread s2) as Hd2 by (intros E2; by rewrite E2 in Hd').
    split; cbn [set_input set_max set_bufend f_mem f_input f_max f_end f_reads f_eof unread]; try done.
    + lia.
    + by apply HB2.
    + rewrite Z.sub_0_r, Z.add_0_l, <- Et. exact Ez1.
    + cbn [set_bufend f_mem] in Ez2. rewrite Ez2. destruct (f_eof s2); [done|]. by split.
    + unfold short in *. rewrite El in Hsh. by apply Forall_app in Hsh as [_ ?].
Qed.
