(* ===== verification/FgrepProps.v ===== *)
(** * fgrep prints the lines that match

    get_line() returns the lines of the file in which one of the strings
    occurs, or with -v the others, in order. *)

From S2P Require Import Prelude Bytes KstringSpec Getopt Fgrep FgrepSpec.

(** ** Lines that match *)

Definition contains (str w : list Z) : bool :=
  existsb (λ k, bool_decide (take (length str) (drop k w) = str)) (seq 0 (S (length w))).
Definition matches (strs : list (list Z)) (w : list Z) : bool := existsb (λ str, contains str w) strs.

Lemma contains_spec str w : contains str w = true ↔ ∃ u v, w = u ++ str ++ v.
Proof.
  unfold contains. rewrite existsb_exists. split.
  - intros (k & Hk & E%bool_decide_eq_true). exists (take k w), (drop (length str) (drop k w)).
    rewrite <- E at 1. by rewrite take_drop, take_drop.
  - intros (u & v & ->). exists (length u). split.
    + apply in_seq. rewrite length_app. lia.
    + apply bool_decide_eq_true. by rewrite drop_app_length, take_app_length.
Qed.

(** ** A line in the buffer *)

Lemma line_end_ok n s : ∀ p e, 0 ≤ p ≤ e → e + 3 ≤ zlen (f_mem s) → e - p < Z.of_nat n →
  byte (f_mem s) (e + 2) = 10 → (∀ i, p ≤ i < e → byte (f_mem s) (i + 2) ≠ 10) →
  wp (line_end n p) s (λ r s', r = e + 1 ∧ s' = s).
Proof.
  induction n as [|n IH]; intros p e Hp He Hn Hnl Hno; [lia|]. cbn [line_end]. apply wp_bind, wp_peekb; [lia|lia|].
  destruct (decide (p = e)) as [->|].
  - rewrite Hnl. by apply wp_ret.
  - rewrite (proj2 (Z.eqb_neq _ _)) by (apply Hno; lia). apply IH; try lia; try done. intros i Hi. apply Hno. lia.
Qed.

Lemma zlen_text_cons w ws : zlen (text (w :: ws)) = zlen w + 1 + zlen (text ws).
Proof. rewrite text_cons, zlen_app. unfold zlen. simpl. lia. Qed.

Section line.
Context (s : fg) (pre : list (list Z)) (w : list Z) (post : list (list Z)) (d : list Z).
Context (HS : stream s (pre ++ w :: post) d).
Let a := f_input s.
Let b := f_max s.
Let st := a + zlen (text pre).

Lemma line_region : 0 ≤ a ∧ a ≤ st ∧ b = st + zlen w + 1 + zlen (text post) ∧ b ≤ BUF_SIZE ∧ 10 ∉ w.
Proof.
  pose proof (st_range _ _ _ HS). pose proof (st_text _ _ _ HS) as E. apply (f_equal zlen) in E.
  pose proof (bk_size _ (st_buffer _ _ _ HS)). rewrite zlen_slice in E by lia. rewrite text_app, zlen_app, zlen_text_cons in E.
  pose proof (zlen_nonneg (text pre)). pose proof (st_lines _ _ _ HS) as Hw. apply Forall_app in Hw as [_ Hw]. inversion_clear Hw.
  unfold st, a, b. split_and!; [lia..|done].
Qed.

Lemma line_bytes i : 0 ≤ i < zlen w → byte (f_mem s) (st + i + 2) = byte w i.
Proof.
  intros Hi. destruct line_region as (R1 & R2 & R3 & R4 & _). pose proof (zlen_nonneg (text post)). pose proof (zlen_nonneg (text pre)).
  assert (byte (slice (f_mem s) (f_input s + 2) (f_max s - f_input s)) (zlen (text pre) + i) = byte (text (pre ++ w :: post)) (zlen (text pre) + i)) as E
    by by rewrite (st_text _ _ _ HS).
  rewrite byte_slice in E by (unfold st, a, b in *; lia). rewrite text_app, byte_app_r in E by lia.
  replace (zlen (text pre) + i - zlen (text pre)) with i in E by lia. rewrite text_cons, byte_app_l in E by lia. rewrite <- E.
  f_equal. unfold st, a. lia.
Qed.

Lemma line_newline : byte (f_mem s) (st + zlen w + 2) = 10.
Proof.
  destruct line_region as (R1 & R2 & R3 & R4 & _). pose proof (zlen_nonneg (text post)). pose proof (zlen_nonneg (text pre)). pose proof (zlen_nonneg w).
  assert (byte (slice (f_mem s) (f_input s + 2) (f_max s - f_input s)) (zlen (text pre) + zlen w) = byte (text (pre ++ w :: post)) (zlen (text pre) + zlen w)) as E
    by by rewrite (st_text _ _ _ HS).
  rewrite byte_slice in E by (unfold st, a, b in *; lia). rewrite text_app, byte_app_r in E by lia.
  replace (zlen (text pre) + zlen w - zlen (text pre)) with (zlen w) in E by lia. rewrite text_cons, byte_app_r, Z.sub_diag in E by lia. 
  rewrite <- E at 1. f_equal. unfold st, a. lia.
Qed.

(** A line that is read to its end. *)
Lemma next_line_ok p : st ≤ p ≤ st + zlen w → wp (next_line p) s (λ r s', r = st + zlen w + 1 ∧ s' = s).
Proof.
  intros Hp. destruct line_region as (R1 & R2 & R3 & R4 & Hw). pose proof (zlen_nonneg (text post)).
  pose proof (bk_size _ (st_buffer _ _ _ HS)). unfold next_line. apply line_end_ok; [lia|lia|lia|apply line_newline|].
  intros i Hi. replace (i + 2) with (st + (i - st) + 2) by lia. rewrite line_bytes by lia. apply not_in_byte; [done|lia].
Qed.

(** An occurrence of a string of a line. *)
Lemma occ_contains str p : good_str str → st ≤ p ≤ st + zlen w → p + zlen str ≤ b → occurs (f_mem s) str p → contains str w = true.
Proof.
  intros [Gne _ Gl _] Hp Hf Ho. destruct line_region as (R1 & R2 & R3 & R4 & Hw).
  assert (p + zlen str ≤ st + zlen w) as Hin.
  { destruct (decide (p + zlen str ≤ st + zlen w)); [done|]. exfalso. specialize (Ho (st + zlen w - p) ltac:(lia)).
    replace (p + (st + zlen w - p) + 2) with (st + zlen w + 2) in Ho by lia. rewrite line_newline in Ho.
    symmetry in Ho. revert Ho. apply not_in_byte; [done|lia]. }
  apply contains_spec. pose proof (zlen_nonneg str). exists (slice w 0 (p - st)), (drop (Z.to_nat (p - st) + length str) w).
  assert (slice w (p - st) (zlen str) = str) as E.
  { apply byte_ext; rewrite zlen_slice by lia; [done|]. intros i Hi. rewrite byte_slice by lia.
    rewrite <- (Ho i Hi), <- line_bytes by lia. f_equal. lia. }
  rewrite <- E at 1. unfold slice. rewrite drop_0. unfold zlen. rewrite Nat2Z.id.
  rewrite <- drop_drop, !take_drop. done.
Qed.

Lemma contains_occ str : contains str w = true → ∃ q, st ≤ q ∧ q + zlen str ≤ st + zlen w ∧ occurs (f_mem s) str q.
Proof.
  intros (u & v & E)%contains_spec. exists (st + zlen u). pose proof (zlen_nonneg u). pose proof (zlen_nonneg v).
  assert (zlen w = zlen u + zlen str + zlen v) as Ez by (rewrite E, !zlen_app; lia). split_and!; [lia|lia|].
  intros i Hi. replace (st + zlen u + i + 2) with (st + (zlen u + i) + 2) by lia. rewrite line_bytes by lia.
  rewrite E, byte_app_r, byte_app_l by lia. f_equal. lia.
Qed.
End line.

Lemma skip_one s w post d : stream s (w :: post) d → stream (set_input (f_input s + zlen w + 1) s) post d.
Proof.
  intros HS. pose proof (line_region s [] w post d HS) as (R1 & R2 & R3 & R4 & Hw).
  pose proof (line_newline s [] w post d HS) as Hn. change (text []) with (@nil Z) in *. change (zlen []) with 0 in *. rewrite Z.add_0_r in *.
  pose proof (zlen_nonneg w). pose proof (zlen_nonneg (text post)). destruct HS as [B Rg Nl Ls Tx Rd Rs Sh]. inversion_clear Ls.
  pose proof (bk_size _ B) as Bs. split; cbn [set_input f_mem f_input f_max f_end f_reads f_eof]; try done; [lia| |].
  - rewrite <- Hn. f_equal. lia.
  - apply byte_ext; rewrite zlen_slice by lia; [lia|]. intros i Hi. rewrite byte_slice by lia.
    assert (byte (slice (f_mem s) (f_input s + 2) (f_max s - f_input s)) (zlen w + 1 + i) = byte (text (w :: post)) (zlen w + 1 + i)) as E by by rewrite Tx.
    rewrite byte_slice in E by lia. rewrite text_cons, byte_app_r in E by lia. replace (zlen w + 1 + i - zlen w) with (i + 1) in E by lia.
    assert (byte (10 :: text post) (i + 1) = byte (text post) i) as E2.
    { unfold byte. by replace (Z.to_nat (i + 1)) with (S (Z.to_nat i)) by lia. }
    rewrite <- E2, <- E. f_equal. lia.
Qed.

Lemma skip_lines pre : ∀ s post d, stream s (pre ++ post) d → stream (set_input (f_input s + zlen (text pre)) s) post d.
Proof.
  induction pre as [|w pre IH]; intros s post d HS.
  - change (zlen (text [])) with 0. rewrite Z.add_0_r. by destruct s.
  - apply skip_one in HS. apply IH in HS. rewrite zlen_text_cons.
    replace (f_input s + (zlen w + 1 + zlen (text pre))) with (f_input (set_input (f_input s + zlen w + 1) s) + zlen (text pre)) by (cbn; lia). exact HS.
Qed.

(** The line at a place of the text. *)
Lemma locate ws : ∀ k, 0 ≤ k < zlen (text ws) →
  ∃ pre w post, ws = pre ++ w :: post ∧ zlen (text pre) ≤ k ≤ zlen (text pre) + zlen w.
Proof.
  induction ws as [|w ws IH]; intros k Hk; [change (zlen (text [])) with 0 in Hk; lia|]. rewrite zlen_text_cons in Hk.
  destruct (decide (k ≤ zlen w)).
  - exists [], w, ws. split; [done|]. change (zlen (text [])) with 0. lia.
  - destruct (IH (k - (zlen w + 1))) as (pre & w' & post & -> & Hl); [lia|]. exists (w :: pre), w', post. split; [done|].
    rewrite zlen_text_cons. lia.
Qed.

(** ** The first match and the lines *)

Section first.
Context (s : fg) (strs : list (list Z)) (p : Z) (Hgood : Forall good_str strs).
Context (HF : first_any (f_mem s) (f_input s) (f_max s) strs p).

(** The lines before the first match have none. *)
Lemma unmatched pre post d : stream s (pre ++ post) d → f_input s + zlen (text pre) ≤ p → Forall (λ w, matches strs w = false) pre.
Proof.
  intros HS Hp. apply Forall_forall. intros w Hw. apply list_elem_of_split in Hw as (pre1 & pre2 & ->).
  rewrite <- app_assoc in HS. cbn [app] in HS. pose proof (line_region s pre1 w (pre2 ++ post) d HS) as (R1 & R2 & R3 & R4 & _).
  rewrite text_app, zlen_app, zlen_text_cons in Hp. pose proof (zlen_nonneg (text pre2)). pose proof (zlen_nonneg (text (pre2 ++ post))).
  apply not_true_is_false. intros (str & Hin & Hc)%existsb_exists.
  destruct (contains_occ s pre1 w (pre2 ++ post) d HS str Hc) as (q & Q1 & Q2 & Q3). pose proof (zlen_nonneg (text pre1)).
  assert (str ≠ []) as Hne by (rewrite Forall_forall in Hgood; apply Hgood; by apply list_elem_of_In).
  assert (0 < zlen str) by (destruct str; [done|unfold zlen; simpl; lia]).
  apply (fy_none _ _ _ _ _ HF str q); [by apply list_elem_of_In|lia|lia|done].
Qed.

(** The line of the first match has one. *)
Lemma matched pre w post d : stream s (pre ++ w :: post) d → f_input s + zlen (text pre) ≤ p ≤ f_input s + zlen (text pre) + zlen w →
  matches strs w = true.
Proof.
  intros HS Hp. pose proof (line_region s pre w post d HS) as (R1 & R2 & R3 & R4 & _). pose proof (zlen_nonneg (text post)).
  destruct (fy_found _ _ _ _ _ HF) as (str & Hin & Hf & Ho); [lia|]. apply existsb_exists. exists str. split; [by apply list_elem_of_In|].
  rewrite Forall_forall in Hgood. by eapply (occ_contains s pre w post d HS str p); [apply Hgood|..].
Qed.
End first.

(** ** get_line() *)

Definition on (f : Z) : bool := negb (f =? 0).
Definition wanted (fl : flags) (strs : list (list Z)) (w : list Z) : bool := xorb (on (vflag fl)) (matches strs w).
Definition counted (fl : flags) : bool := on (vflag fl) || on (nflag fl).
Definition line_after (fl : flags) (n : Z) (k : nat) : Z := if counted fl then u32 (n + Z.of_nat k) else n.

(** Between two calls. *)
Record ready (s : fg) (strs : list (list Z)) (ws : list (list Z)) (d : list Z) : Prop := {
  rd_stream : stream s ws d;
  rd_good : Forall good_ts (f_strings s);
  rd_strs : ts_str <$> f_strings s = strs;
  rd_cached : (ws = [] ∧ d = []) ∨ f_input s = 0 ∨ Forall (cached s) (f_strings s);
  rd_some : strs ≠ [];
  rd_line : f_line s = u32 (f_line s);
}.

Lemma stream_window s ws d : stream s ws d → window s.
Proof. intros [[B1 B2 B3] R _ _ _ _ _ _]. split; [lia|lia|done]. Qed.

Lemma cached_mono s p ts : f_input s ≤ p → cached s ts → cached (set_input p s) ts.
Proof.
  intros Hp [Hc|[F N]]; [left; cbn; lia|]. destruct (decide (ts_bufp ts < p)); [by left|]. right. split; cbn [set_input f_mem f_input f_max].
  - intros Hb. destruct (F Hb) as (? & ? & ?). split_and!; [lia|done|done].
  - intros q Hq. apply N. lia.
Qed.

(** Lines consumed. *)
Lemma ready_skip s strs pre post d n : stream s (pre ++ post) d → Forall good_ts (f_strings s) → ts_str <$> f_strings s = strs →
  Forall (cached s) (f_strings s) → strs ≠ [] → n = u32 n →
  ready (set_input (f_input s + zlen (text pre)) (set_line_num n s)) strs post d.
Proof.
  intros HS HG HE HC Hne Hu. pose proof (skip_lines _ _ _ _ HS) as HS'. split; try done.
  - by destruct HS'.
  - right. right. cbn. eapply Forall_impl; [exact HC|]. intros ts Hts. pose proof (zlen_nonneg (text pre)).
    by apply (cached_mono s (f_input s + zlen (text pre))); [lia|].
Qed.

Lemma u32_add n k : u32 (u32 n + k) = u32 (n + k).
Proof. unfold u32. by rewrite Zplus_mod_idemp_l. Qed.
Lemma u32_twice n : u32 (u32 n) = u32 n.
Proof. apply u32_small, u32_range. Qed.

Lemma line_after_u32 fl n k : n = u32 n → line_after fl n k = u32 (line_after fl n k).
Proof. intros Hn. unfold line_after. destruct (counted fl); [by rewrite u32_twice|done]. Qed.
Lemma line_after_add fl n j k : n = u32 n → line_after fl (line_after fl n j) k = line_after fl n (j + k).
Proof. intros Hn. unfold line_after. destruct (counted fl); [|done]. rewrite u32_add. f_equal. lia. Qed.

(** The text of the line that is returned. *)
Record at_line (s : fg) (line : Z) (w : list Z) : Prop := {
  al_start : 0 ≤ line;
  al_end : line + zlen w + 1 = f_input s;
  al_room : f_input s ≤ BUF_SIZE;
  al_text : slice (f_mem s) (line + 2) (zlen w + 1) = w ++ [10];
}.

Lemma at_line_ok s pre w post d n : stream s (pre ++ w :: post) d →
  at_line (set_input (f_input s + zlen (text (pre ++ [w]))) (set_line_num n s)) (f_input s + zlen (text pre)) w.
Proof.
  intros HS. pose proof (line_region s pre w post d HS) as (R1 & R2 & R3 & R4 & _). pose proof (zlen_nonneg (text post)). pose proof (zlen_nonneg w).
  pose proof (bk_size _ (st_buffer _ _ _ HS)). rewrite text_app, zlen_app, zlen_text_cons. change (zlen (text [])) with 0.
  split; cbn; [lia|lia|lia|]. assert (zlen (w ++ [10]) = zlen w + 1) as Ez by (rewrite zlen_app; done).
  apply byte_ext; rewrite zlen_slice by lia; [lia|]. intros i Hi. rewrite byte_slice by lia. destruct (decide (i < zlen w)).
  - rewrite byte_app_l, <- (line_bytes s pre w post d HS) by lia. f_equal. lia.
  - replace i with (zlen w) by lia. rewrite byte_app_r, Z.sub_diag by lia.
    etransitivity; [|exact (line_newline s pre w post d HS)]. f_equal. lia.
Qed.

(** What a round or a call does with the lines [ws]. *)
Definition picked (s : fg) (strs : list (list Z)) (ws : list (list Z)) (d : list Z) (r : unit + option Z) (s' : fg) : Prop :=
  let fl := f_flags s in
  f_flags s' = fl ∧ f_out s' = f_out s ∧ ∃ pre post, Forall (λ w, wanted fl strs w = false) pre ∧ ready s' strs post d ∧
  match r with
  | inl _ => ws = pre ++ post ∧ pre ≠ [] ∧ f_line s' = line_after fl (f_line s) (length pre)
  | inr None => False
  | inr (Some line) => ∃ w, ws = pre ++ w :: post ∧ wanted fl strs w = true ∧ at_line s' line w ∧
      f_line s' = line_after fl (f_line s) (length pre + 1)
  end.

Section pick.
Context (s : fg) (strs ws : list (list Z)) (d : list Z) (p : Z).
Context (HS : stream s ws d) (Hne : ws ≠ []) (HG : Forall good_ts (f_strings s)) (HE : ts_str <$> f_strings s = strs).
Context (HC : Forall (cached s) (f_strings s)) (Hsome : strs ≠ []) (Hline : f_line s = u32 (f_line s)).
Context (HF : first_any (f_mem s) (f_input s) (f_max s) strs p).

Lemma good_strs : Forall good_str strs.
Proof. rewrite <- HE. apply Forall_fmap. eapply Forall_impl; [exact HG|]. by intros ts []. Qed.

Lemma skipped pre post n : ws = pre ++ post → n = u32 n → ready (set_input (f_input s + zlen (text pre)) (set_line_num n s)) strs post d.
Proof. intros E Hn. apply ready_skip; try done. by rewrite <- E. Qed.

(** The lines before the match, and the line with it. *)
Lemma split_first : p < f_max s → ∃ pre w post, ws = pre ++ w :: post ∧ f_input s + zlen (text pre) ≤ p ≤ f_input s + zlen (text pre) + zlen w ∧
  Forall (λ w, matches strs w = false) pre ∧ matches strs w = true.
Proof.
  intros Hp. pose proof (fy_range _ _ _ _ _ HF) as R. pose proof (st_text _ _ _ HS) as E. apply (f_equal zlen) in E.
  pose proof (bk_size _ (st_buffer _ _ _ HS)). pose proof (st_range _ _ _ HS). rewrite zlen_slice in E by lia.
  destruct (locate ws (p - f_input s)) as (pre & w & post & Ew & Hl); [lia|]. exists pre, w, post. rewrite Ew in *. split_and!; [done|lia|lia|..].
  - eapply (unmatched s strs p good_strs HF pre (w :: post) d); [done|lia].
  - eapply (matched s strs p good_strs HF pre w post d); [done|lia].
Qed.

Lemma all_unmatched : f_max s ≤ p → Forall (λ w, matches strs w = false) ws ∧ f_input s + zlen (text ws) = f_max s.
Proof.
  intros Hp. pose proof (st_text _ _ _ HS) as E. apply (f_equal zlen) in E.
  pose proof (bk_size _ (st_buffer _ _ _ HS)). pose proof (st_range _ _ _ HS). rewrite zlen_slice in E by lia. split; [|lia].
  eapply (unmatched s strs p good_strs HF ws [] d); [by rewrite app_nil_r|lia].
Qed.

(** -v *)
Lemma pick_v : on (vflag (f_flags s)) = true → wp (pick_line p) s (picked s strs ws d).
Proof.
  intros Hv. unfold pick_line. apply wp_bind, wp_gets. unfold id. fold (on (vflag (f_flags s))). rewrite Hv.
  apply wp_bind, wp_modify.
  assert (∃ w post, ws = w :: post) as (w & post & Ews) by (destruct ws as [|w post]; [done|eauto]). pose proof HS as HS0. rewrite Ews in HS0. set (n := u32 (f_line s + 1)).
  assert (stream (set_line_num n s) ([] ++ w :: post) d) as HS1 by by destruct HS0.
  pose proof (zlen_nonneg w). pose proof (line_region s [] w post d HS0) as (R1 & R2 & R3 & R4 & _).
  eapply wp_bind_mono; [apply (next_line_ok _ [] w post d HS1); change (zlen (text [])) with 0; cbn [set_line_num f_input]; lia|]. change (zlen (text [])) with 0 in *. rewrite !Z.add_0_r in *. cbn.
  intros input s1 [-> ->]. apply wp_bind, wp_modify.
  assert (f_input s + zlen (text [w]) = f_input s + zlen w + 1) as Et by (rewrite zlen_text_cons; change (zlen (text [])) with 0; lia).
  assert (ready (set_input (f_input s + zlen w + 1) (set_line_num n s)) strs post d) as HR by (rewrite <- Et; apply skipped; [done|unfold n; by rewrite u32_twice]).
  assert (n = line_after (f_flags s) (f_line s) 1) as Hn by (unfold line_after, counted; by rewrite Hv).
  destruct (Z.leb_spec (f_input s + zlen w + 1) p) as [Hp|Hp]; apply wp_ret; (split_and!; [done|done|]).
  - exists [], post. split_and!; [done|done|]. exists w. split_and!; [done| | |done].
    + unfold wanted. rewrite Hv. pose proof (unmatched s strs p good_strs HF [w] post d HS0 ltac:(lia)) as Hu. inversion_clear Hu as [|? ? Hu1 _].
      by rewrite Hu1.
    + pose proof (at_line_ok s [] w post d n HS0) as Hat. cbn [app] in Hat. change (zlen (text [])) with 0 in Hat. by rewrite Z.add_0_r, Et in Hat.
  - exists [w], post. split_and!; [|done|done|done|done]. apply Forall_singleton. unfold wanted. rewrite Hv.
    rewrite (matched s strs p good_strs HF [] w post d HS0); [done|]. change (zlen (text [])) with 0. pose proof (fy_range _ _ _ _ _ HF). lia.
Qed.

(** Without -v and -n. *)
Lemma pick_plain : on (vflag (f_flags s)) = false → on (nflag (f_flags s)) = false → wp (pick_line p) s (picked s strs ws d).
Proof.
  intros Hv Hnf. unfold pick_line. apply wp_bind, wp_gets. unfold id. fold (on (vflag (f_flags s))) (on (nflag (f_flags s))). rewrite Hv, Hnf.
  assert (∀ k, line_after (f_flags s) (f_line s) k = f_line s) as Hla by (intros k; unfold line_after, counted; by rewrite Hv, Hnf).
  assert (set_line_num (f_line s) s = s) as Eln by by destruct s.
  destruct (Z.ltb_spec p (f_max s)) as [Hp|Hp].
  - destruct (split_first Hp) as (pre & w & post & E & Hl & Hpre & Hw). pose proof HS as HS0. rewrite E in HS0.
    pose proof (line_region s pre w post d HS0) as (R1 & R2 & R3 & R4 & Hnw). pose proof (zlen_nonneg (text post)).
    pose proof (bk_size _ (st_buffer _ _ _ HS)). set (st := f_input s + zlen (text pre)) in *.
    eapply wp_bind_mono; [apply (after_newline_ok _ st s p); [lia|lia|lia|..]|].
    + pose proof (st_nl _ _ _ (skip_lines _ _ _ _ HS0)) as Hnl. exact Hnl.
    + intros i Hi. replace (i + 2) with (st + (i - st) + 2) by lia. unfold st. rewrite (line_bytes s pre w post d HS0) by lia.
      apply not_in_byte; [done|lia].
    + intros line s1 [-> ->]. eapply wp_bind_mono; [apply (next_line_ok s pre w post d HS0 p Hl)|].
      intros input s1 [-> ->]. apply wp_bind, wp_modify. apply wp_ret.
      assert (f_input s + zlen (text (pre ++ [w])) = st + zlen w + 1) as Et.
      { rewrite text_app, zlen_app, zlen_text_cons. change (zlen (text [])) with 0. unfold st. lia. }
      fold st. rewrite <- Et. split_and!; [done|done|]. exists pre, post. split_and!.
      * eapply Forall_impl; [exact Hpre|]. intros x Hx. unfold wanted. by rewrite Hv, Hx.
      * pose proof (skipped (pre ++ [w]) post (f_line s)) as Hs. rewrite Eln in Hs. apply Hs; [|done]. by rewrite <- app_assoc.
      * exists w. split_and!; [done|unfold wanted; by rewrite Hv, Hw| |by rewrite Hla].
        pose proof (at_line_ok s pre w post d (f_line s) HS0) as Hat. by rewrite Eln in Hat.
  - destruct (all_unmatched Hp) as [Hu Et]. apply wp_bind, wp_modify. apply wp_ret. rewrite <- Et. split_and!; [done|done|].
    exists ws, []. split_and!; [| |by rewrite app_nil_r|done|by rewrite Hla].
    + eapply Forall_impl; [exact Hu|]. intros x Hx. unfold wanted. by rewrite Hv, Hx.
    + pose proof (skipped ws [] (f_line s)) as Hs. rewrite Eln in Hs. apply Hs; [by rewrite app_nil_r|done].
Qed.

Lemma zlen_text_snoc pre w : zlen (text (pre ++ [w])) = zlen (text pre) + zlen w + 1.
Proof. rewrite text_app, zlen_app, zlen_text_cons. change (zlen (text [])) with 0. lia. Qed.

(** The condition of the loop of -n after the line [w], at [input]. *)
Lemma count_cond pre w post : ws = pre ++ w :: post → f_input s + zlen (text pre) ≤ p →
  let input := f_input s + zlen (text pre) + zlen w + 1 in
  if (input <? p) || ((input =? p) && (p <? f_max s))
  then input ≤ p ∧ post ≠ [] ∧ Forall (λ w, matches strs w = false) (pre ++ [w])
  else (p < f_max s ∧ matches strs w = true) ∨ (f_max s ≤ p ∧ matches strs w = false ∧ post = []).
Proof.
  intros E Hlp input. pose proof HS as HS0. rewrite E in HS0. pose proof (line_region s pre w post d HS0) as (R1 & R2 & R3 & R4 & _).
  pose proof (zlen_nonneg w). pose proof (zlen_nonneg (text post)). pose proof (fy_range _ _ _ _ _ HF) as Rp.
  pose proof (zlen_text_snoc pre w) as Et.
  assert (input ≤ p → Forall (λ w, matches strs w = false) (pre ++ [w])) as Hu.
  { intros Hi. apply (unmatched s strs p good_strs HF (pre ++ [w]) post d); [by rewrite <- app_assoc|lia]. }
  destruct ((input <? p) || ((input =? p) && (p <? f_max s))) eqn:Ec.
  - assert (input ≤ p ∧ input < f_max s) as [Hi1 Hi2].
    { apply orb_true_iff in Ec as [Ec%Z.ltb_lt|Ec]; [lia|]. apply andb_true_iff in Ec as [Ec1%Z.eqb_eq Ec2%Z.ltb_lt]. lia. }
    split_and!; [lia| |by apply Hu]. intros ->. change (zlen (text [])) with 0 in R3. lia.
  - apply orb_false_iff in Ec as [Ec1%Z.ltb_ge Ec2]. destruct (decide (input = p)) as [Ei|Ei].
    + right. rewrite Ei, Z.eqb_refl in Ec2. apply Z.ltb_ge in Ec2. split_and!; [lia| |].
      * specialize (Hu ltac:(lia)). apply Forall_app in Hu as [_ Hu]. by inversion_clear Hu.
      * destruct post as [|w' post]; [done|]. rewrite zlen_text_cons in R3. pose proof (zlen_nonneg w'). pose proof (zlen_nonneg (text post)). lia.
    + left. split; [lia|]. apply (matched s strs p good_strs HF pre w post d HS0). unfold input in *. lia.
Qed.

(** -n: the lines are counted one by one. *)
Lemma pick_n : on (vflag (f_flags s)) = false → on (nflag (f_flags s)) = true → wp (pick_line p) s (picked s strs ws d).
Proof.
  intros Hv Hnf. unfold pick_line. apply wp_bind, wp_gets. unfold id. fold (on (vflag (f_flags s))) (on (nflag (f_flags s))). rewrite Hv, Hnf.
  set (num := λ k : nat, u32 (f_line s + Z.of_nat k)).
  assert (∀ k, line_after (f_flags s) (f_line s) k = num k) as Hla by (intros k; unfold line_after, counted; by rewrite Hv, Hnf).
  assert (num 0%nat = f_line s) as Hn0 by (unfold num; rewrite Z.add_0_r; done).
  assert (∀ k, u32 (num k + 1) = num (k + 1)%nat) as Hn1 by (intros k; unfold num; rewrite u32_add; f_equal; lia).
  assert (∀ pre, Forall (λ w, matches strs w = false) pre → Forall (λ w, wanted (f_flags s) strs w = false) pre) as Hunw.
  { intros pre Hp. eapply Forall_impl; [exact Hp|]. intros x Hx. unfold wanted. by rewrite Hv, Hx. }
  set (at_ := λ pre : list (list Z), set_input (f_input s + zlen (text pre)) (set_line_num (num (length pre)) s)).
  eapply (wp_bind_mono _ _ _ (λ line s', ∃ pre w post, ws = pre ++ w :: post ∧ Forall (λ w, matches strs w = false) pre ∧
    line = f_input s + zlen (text pre) ∧ s' = at_ (pre ++ [w]) ∧
    ((p < f_max s ∧ matches strs w = true) ∨ (f_max s ≤ p ∧ matches strs w = false ∧ post = [])))).
  - apply (wp_loop _ (λ n line s', ∃ pre w post, ws = pre ++ w :: post ∧ Forall (λ w, matches strs w = false) pre ∧
      line = f_input s + zlen (text pre) ∧ s' = at_ pre ∧ line ≤ p ∧ n = length post)) with (n := (length ws - 1)%nat).
    + intros n line s1 (pre & w & post & E & Hu & -> & -> & Hlp & ->). apply wp_bind, wp_modify.
      assert (stream (at_ pre) (w :: post) d) as HS1.
      { apply (skipped pre (w :: post) (num (length pre)) E). unfold num. by rewrite u32_twice. }
      pose proof (zlen_nonneg w). set (s2 := set_line_num _ (at_ pre)). assert (stream s2 ([] ++ w :: post) d) as HS2 by by destruct HS1.
      eapply wp_bind_mono; [apply (next_line_ok s2 [] w post d HS2); change (zlen (text [])) with 0; cbn [s2 at_ set_line_num set_input f_input]; lia|].
      change (zlen (text [])) with 0. rewrite Z.add_0_r. change (f_input s2) with (f_input s + zlen (text pre)). intros input s3 [-> ->].
      apply wp_bind, wp_modify.
      assert (set_input (f_input s + zlen (text pre) + zlen w + 1) s2 = at_ (pre ++ [w])) as Es.
      { unfold at_, s2. cbn. rewrite zlen_text_snoc, length_app, <- Hn1, !Z.add_assoc. done. }
      rewrite Es. pose proof (count_cond pre w post E Hlp) as Hc. cbn zeta in Hc.
      destruct ((f_input s + zlen (text pre) + zlen w + 1 <? p) || _).
      * destruct Hc as (Hi & Hpost & Hu2). destruct post as [|w' post]; [done|].
        apply wp_ret. exists (length post). split; [simpl; lia|]. exists (pre ++ [w]), w', post.
        split_and!; [by rewrite <- app_assoc|done|rewrite zlen_text_snoc; lia|done|lia|done].
      * apply wp_ret. by exists pre, w, post.
    + pose proof (length_text ws). pose proof (st_text _ _ _ HS) as E. apply (f_equal zlen) in E.
      pose proof (bk_size _ (st_buffer _ _ _ HS)). pose proof (st_range _ _ _ HS). rewrite zlen_slice in E by lia. unfold zlen in E. lia.
    + assert (∃ w post, ws = w :: post) as (w & post & Ews) by (destruct ws as [|w post]; [done|eauto]).
      exists [], w, post. rewrite Ews. change (zlen (text [])) with 0. split_and!; [done|done|lia| |apply (fy_range _ _ _ _ _ HF)|simpl; lia].
      unfold at_. change (zlen (text [])) with 0. rewrite Z.add_0_r. cbn [length]. rewrite Hn0. by destruct s.
  - intros line s' (pre & w & post & E & Hu & -> & -> & Hc). pose proof HS as HS0. rewrite E in HS0.
    assert (ready (at_ (pre ++ [w])) strs post d) as HR.
    { apply skipped; [by rewrite <- app_assoc|unfold num; by rewrite u32_twice]. }
    destruct Hc as [[Hp Hw]|(Hp & Hw & ->)].
    + rewrite (proj2 (Z.ltb_lt _ _)) by done. apply wp_ret. split_and!; [done|done|]. exists pre, post. split_and!; [by apply Hunw|done|].
      exists w. split_and!; [done|unfold wanted; by rewrite Hv, Hw|apply (at_line_ok s pre w post d _ HS0)|].
      rewrite Hla. unfold at_. cbn. by rewrite length_app.
    + rewrite (proj2 (Z.ltb_ge _ _)) by done. apply wp_ret. split_and!; [done|done|]. exists (pre ++ [w]), [].
      split_and!; [apply Hunw, Forall_app; split; [done|by apply Forall_singleton]|done|by rewrite app_nil_r|by destruct pre|by rewrite Hla].
Qed.

Lemma pick_line_ok : wp (pick_line p) s (picked s strs ws d).
Proof.
  destruct (on (vflag (f_flags s))) eqn:Hv; [by apply pick_v|]. destruct (on (nflag (f_flags s))) eqn:Hn; [by apply pick_n|by apply pick_plain].
Qed.
End pick.

(** What a round or a call does with all the lines to come. *)
Definition got (s : fg) (strs all : list (list Z)) (r : unit + option Z) (s' : fg) : Prop :=
  let fl := f_flags s in
  f_flags s' = fl ∧ f_out s' = f_out s ∧ ∃ pre ws d, Forall (λ w, wanted fl strs w = false) pre ∧ ready s' strs ws d ∧
  match r with
  | inl _ => all = pre ++ ws ++ lines d ∧ pre ≠ [] ∧ f_line s' = line_after fl (f_line s) (length pre)
  | inr None => all = pre ∧ ws ++ lines d = []
  | inr (Some line) => ∃ w, all = pre ++ w :: ws ++ lines d ∧ wanted fl strs w = true ∧ at_line s' line w ∧
      f_line s' = line_after fl (f_line s) (length pre + 1)
  end.

Lemma search_pick_ok s strs ws d : ready s strs ws d → ws ≠ [] →
  wp (match f_strings s with
      | [] => fault "strings"
      | strings => let* r := search_all strings (f_max s) in modify (set_strings r.1) ;; pick_line r.2
      end) s (λ r s', got s strs (ws ++ lines d) r s').
Proof.
  intros [HS HG HE [[? _]|HC] Hsome Hline] Hne; [done|]. destruct (f_strings s) as [|ts l] eqn:El; [by subst strs|]. rewrite <- El in *.
  assert (first_any (f_mem s) (f_input s) (f_max s) [] (f_max s)) as HF0.
  { pose proof (st_range _ _ _ HS). split; [lia|lia|]. intros str q Hin. by apply not_elem_of_nil in Hin. }
  eapply wp_bind_mono; [apply (search_all_ok s (f_strings s) [] (f_max s)); [by eapply stream_window|done|done|done]|].
  intros [strings p] s1 (-> & G1 & C1 & E1 & F1). cbn [fst snd app] in *. apply wp_bind, wp_modify. set (s1 := set_strings strings s).
  eapply wp_mono; [apply (pick_line_ok s1 strs ws d p); try done|].
  - by destruct HS.
  - cbn. by rewrite E1.
  - by rewrite <- HE.
  - intros r s' (Ef & Eo & pre & post & Hu & HR & H). split_and!; [done|done|]. exists pre, post, d. split_and!; [done|done|].
    destruct r as [[]|[line|]]; [| |done].
    + destruct H as (-> & Hp & Hl). split_and!; [by rewrite <- app_assoc|done|done].
    + destruct H as (w & -> & Hw & Ha & Hl). exists w. split_and!; [by rewrite <- app_assoc|done|done|done].
Qed.

Lemma get_round_ok s strs ws d : ready s strs ws d → wp get_round s (λ r s', got s strs (ws ++ lines d) r s').
Proof.
  intros HR. pose proof (rd_stream _ _ _ _ HR) as HS. unfold get_round. apply wp_bind, wp_gets. unfold id.
  destruct (Z.geb_spec (f_input s) (f_max s)) as [Hge|Hlt].
  - pose proof (stream_empty _ _ _ HS Hge) as ->. eapply wp_bind_mono; [by apply fill_buffer_ok|]. intros n s1 [SM R].
    assert (∀ ws' d', stream s1 ws' d' → f_input s1 = 0 → ready s1 strs ws' d') as HR1.
    { intros ws' d' HS1 Hi. destruct HR as [_ G E _ Sm L]. destruct SM as [E1 E2 E3 E4]. split; rewrite ?E1, ?E3; try done. right. by left. }
    destruct (decide (d = [])) as [->|Hd].
    + destruct R as [-> HS1]. apply wp_ret. split_and!; [apply SM|apply SM|]. exists [], [], []. split_and!; try done.
      destruct HR as [_ G E C Sm L]. destruct SM as [E1 E2 E3 E4]. split; rewrite ?E1, ?E3; try done. by left.
    + destruct R as (Hn & ws' & d' & Hne & HS1 & Hi & El). rewrite (proj2 (Z.eqb_neq _ _)) by lia. apply wp_bind, wp_gets.
      rewrite El. cbn [app]. eapply wp_mono; [apply search_pick_ok; [by apply HR1|done]|]. intros r s' (F1 & F2 & F3).
      destruct SM as [E1 E2 E3 E4]. unfold got. rewrite E2, E3, E4 in *. by split_and!.
  - apply wp_bind, wp_ret. cbn [Z.eqb]. apply wp_bind, wp_gets. apply search_pick_ok; [done|]. intros ->. pose proof (st_text _ _ _ HS) as E.
    apply (f_equal zlen) in E. pose proof (bk_size _ (st_buffer _ _ _ HS)). pose proof (st_range _ _ _ HS). rewrite zlen_slice in E by lia.
    change (zlen (text [])) with 0 in E. lia.
Qed.

Lemma left_over_lines s ws d : stream s ws d → (length (ws ++ lines d) ≤ left_over s)%nat.
Proof.
  intros HS. pose proof (st_text _ _ _ HS) as E. apply (f_equal zlen) in E. pose proof (bk_size _ (st_buffer _ _ _ HS)).
  pose proof (st_range _ _ _ HS). rewrite zlen_slice in E by lia. pose proof (length_text ws). pose proof (length_lines d).
  pose proof (st_rest _ _ _ HS) as Hd. unfold left_over. fold (unread s). rewrite length_app. unfold zlen in E.
  destruct (f_eof s); [subst d; simpl; lia|]. destruct Hd as [_ Hd]. rewrite <- Hd, length_app in H2.
  assert (zlen (slice (f_mem s) (f_max s + 2) (f_end s - f_max s)) = f_end s - f_max s) as El by (apply zlen_slice; lia).
  rewrite <- Hd. unfold zlen in El. lia.
Qed.

Lemma get_line_ok s strs ws d : ready s strs ws d → wp get_line s (λ r s', got s strs (ws ++ lines d) (inr r) s').
Proof.
  intros HR. unfold get_line. apply wp_bind, wp_gets. set (all := ws ++ lines d).
  pose proof (left_over_lines _ _ _ (rd_stream _ _ _ _ HR)) as Hfuel. fold all in Hfuel.
  apply (wp_loop _ (λ n _ s1, ∃ pre ws1 d1, all = pre ++ ws1 ++ lines d1 ∧ n = length (ws1 ++ lines d1) ∧
    Forall (λ w, wanted (f_flags s) strs w = false) pre ∧ ready s1 strs ws1 d1 ∧ f_flags s1 = f_flags s ∧ f_out s1 = f_out s ∧
    f_line s1 = line_after (f_flags s) (f_line s) (length pre))) with (n := length all); [|lia|].
  - intros n [] s1 (pre & ws1 & d1 & E & -> & Hu & HR1 & Ef & Eo & El). eapply wp_mono; [by apply get_round_ok|].
    intros r s2 (Ef2 & Eo2 & pre2 & ws2 & d2 & Hu2 & HR2 & H). rewrite Ef in *. pose proof (rd_line _ _ _ _ HR) as Hln.
    assert (Forall (λ w, wanted (f_flags s) strs w = false) (pre ++ pre2)) as Hu3 by by apply Forall_app.
    destruct r as [[]|[line|]].
    + destruct H as (E2 & Hne & El2). exists (length (ws2 ++ lines d2)). rewrite E2. split.
      * rewrite (length_app pre2). destruct pre2; [done|]. simpl. lia.
      * exists (pre ++ pre2), ws2, d2. split_and!; try done; [by rewrite E, E2, app_assoc|congruence|].
        rewrite El2, El, line_after_add by done. by rewrite length_app.
    + destruct H as (w & E2 & Hw & Ha & El2). split_and!; [done|congruence|]. exists (pre ++ pre2), ws2, d2. split_and!; [done|done|].
      exists w. split_and!; [by rewrite E, E2, <- app_assoc|done|done|]. rewrite El2, El, line_after_add by done. f_equal. rewrite length_app. lia.
    + destruct H as [E2 E3]. split_and!; [done|congruence|]. exists (pre ++ pre2), ws2, d2. split_and!; [done|done|by rewrite E, E2|done].
  - exists [], ws, d. split_and!; try done. simpl. unfold line_after. destruct (counted _); [|done].
    rewrite Z.add_0_r. apply (rd_line _ _ _ _ HR).
Qed.

(** ** What is printed *)

Section output.
Context (fmt_u : Z → list Z).

(** The lines of [ws], which follow [k] others, that are wanted. *)
Fixpoint show (fl : flags) (strs : list (list Z)) (name : list Z) (k : Z) (ws : list (list Z)) : list Z :=
  match ws with
  | [] => []
  | w :: ws =>
      (if wanted fl strs w then
         (if hflag fl =? 0 then name ++ [58] else []) ++ (if on (nflag fl) then fmt_u (u32 (k + 1)) ++ [58] else []) ++ w ++ [10]
       else []) ++ show fl strs name (k + 1) ws
  end.

Definition selected (fl : flags) (strs ws : list (list Z)) : Z := zlen (filter (λ w, wanted fl strs w = true) ws).

Definition quiet (fl : flags) : bool := on (sflag fl) || on (lflag fl) || on (cflag fl).

(** The result of the loop over the lines, and what it prints. *)
Definition lines_spec (fl : flags) (strs : list (list Z)) (name : list Z) (ws : list (list Z)) : (Z + Z) * list Z :=
  let n := selected fl strs ws in
  if on (sflag fl) then (if n =? 0 then inr 0 else inl 0, [])
  else if on (lflag fl) then (inr (if n =? 0 then 0 else 1), if n =? 0 then [] else name ++ [10])
  else (inr (u32 n), if on (cflag fl) then [] else show fl strs name 0 ws).

Lemma show_app fl strs name ws ws' : ∀ k, show fl strs name k (ws ++ ws') = show fl strs name k ws ++ show fl strs name (k + zlen ws) ws'.
Proof.
  induction ws as [|w ws IH]; intros k; [change (zlen []) with 0; by rewrite Z.add_0_r|]. cbn [show app].
  rewrite IH, <- app_assoc. do 3 f_equal. unfold zlen. simpl. lia.
Qed.

Lemma show_none fl strs name ws : Forall (λ w, wanted fl strs w = false) ws → ∀ k, show fl strs name k ws = [].
Proof. induction 1 as [|w ws Hw Hws IH]; intros k; [done|]. cbn [show]. by rewrite Hw, IH. Qed.

Lemma selected_app fl strs ws ws' : selected fl strs (ws ++ ws') = selected fl strs ws + selected fl strs ws'.
Proof. unfold selected. by rewrite filter_app, zlen_app. Qed.
Lemma selected_none fl strs ws : Forall (λ w, wanted fl strs w = false) ws → selected fl strs ws = 0.
Proof.
  unfold selected. induction 1 as [|w ws Hw Hws IH]; [done|]. rewrite filter_cons_False by congruence. done.
Qed.
Lemma selected_one fl strs w : wanted fl strs w = true → selected fl strs [w] = 1.
Proof. intros Hw. unfold selected. by rewrite filter_cons_True. Qed.
Lemma selected_nonneg fl strs ws : 0 ≤ selected fl strs ws.
Proof. apply zlen_nonneg. Qed.

(** The file read, for the next one. *)
Record idle (s : fg) (strs : list (list Z)) : Prop := {
  id_mem : zlen (f_mem s) = BUF_SIZE + 2;
  id_bytes : bytes (f_mem s);
  id_good : Forall good_ts (f_strings s);
  id_strs : ts_str <$> f_strings s = strs;
}.

Lemma ready_idle s strs ws d : ready s strs ws d → idle s strs.
Proof. intros [[[B1 B2 B3] _ _ _ _ _ _ _] G E _ _ _]. by split. Qed.

(** A wanted line printed. *)
Lemma print_line s line w name k : at_line s line w → zlen (f_mem s) = BUF_SIZE + 2 → f_line s = (if counted (f_flags s) then u32 (k + 1) else 0) →
  wp ((if hflag (f_flags s) =? 0 then print (name ++ [58]) else ret tt) ;;
      (if negb (nflag (f_flags s) =? 0) then print (fmt_u (f_line s) ++ [58]) else ret tt) ;;
      (if mem_ok (f_mem s) line (Z.max 1 (f_input s - line))
       then print (slice (f_mem s) (line + 2) (Z.max 1 (f_input s - line))) else fault "input_buffer")) s
    (λ _ s', s' = set_fout (f_out s ++ (if hflag (f_flags s) =? 0 then name ++ [58] else []) ++
      (if on (nflag (f_flags s)) then fmt_u (u32 (k + 1)) ++ [58] else []) ++ w ++ [10]) s).
Proof.
  intros [A1 A2 A3 A4] Hm Hl. pose proof (zlen_nonneg w). replace (Z.max 1 (f_input s - line)) with (zlen w + 1) by lia. rewrite A4.
  assert (mem_ok (f_mem s) line (zlen w + 1) = true) as -> by (unfold mem_ok; rewrite !andb_true_iff, !Z.leb_le; lia).
  fold (on (nflag (f_flags s))). destruct (hflag (f_flags s) =? 0), (on (nflag (f_flags s))) eqn:En.
  all: repeat (apply wp_bind; (apply wp_modify || apply wp_ret)); apply wp_modify; cbn; unfold set_fout; cbn; f_equal.
  all: rewrite <- ?app_assoc; try done.
  all: assert (counted (f_flags s) = true) as Hc by (unfold counted; rewrite En; apply orb_true_r); rewrite Hl, Hc; done.
Qed.

(** The lines [pre] are done: what the loop has counted and printed. *)
Definition lines_done (fl : flags) (strs : list (list Z)) (name out : list Z) (all pre : list (list Z)) (n : nat) (count : Z) (s : fg) : Prop :=
  ∃ ws d, all = pre ++ ws ++ lines d ∧ n = length (ws ++ lines d) ∧ ready s strs ws d ∧ f_flags s = fl ∧
    count = u32 (selected fl strs pre) ∧ (on (sflag fl) || on (lflag fl) = true → selected fl strs pre = 0) ∧
    f_out s = out ++ (if quiet fl then [] else show fl strs name 0 pre) ∧ f_line s = line_after fl 0 (length pre).

Lemma lines_next fl strs name out all pre pre2 w ws d (s s3 : fg) :
  all = pre ++ pre2 ++ w :: ws ++ lines d → Forall (λ w, wanted fl strs w = false) pre2 → wanted fl strs w = true →
  f_out s = out ++ (if quiet fl then [] else show fl strs name 0 pre) → f_line s3 = line_after fl 0 (length pre + (length pre2 + 1)) →
  on (sflag fl) = false → on (lflag fl) = false → f_flags s3 = fl → ready s3 strs ws d →
  f_out s3 = f_out s ++ (if on (cflag fl) then [] else show fl strs name (zlen (pre ++ pre2)) [w]) →
  lines_done fl strs name out all (pre ++ pre2 ++ [w]) (length (ws ++ lines d)) (u32 (u32 (selected fl strs pre) + 1)) s3.
Proof.
  intros E Hu Hw Eo El Hs Hl F1 F2 F4. exists ws, d. split_and!; try done.
  - rewrite E. by rewrite <- !app_assoc.
  - rewrite u32_add, selected_app, selected_app, (selected_none _ _ _ Hu), selected_one by done. f_equal.
  - by rewrite Hs, Hl.
  - rewrite F4, Eo. unfold quiet. rewrite Hs, Hl. cbn [orb]. destruct (on (cflag fl)); [by rewrite !app_nil_r|].
    rewrite app_assoc, show_app, <- app_assoc. f_equal. rewrite show_app, (show_none fl strs name pre2 Hu), app_nil_r. f_equal.
  - rewrite El. f_equal. rewrite !length_app. simpl. lia.
Qed.

(** No line is left that is wanted. *)
Lemma lines_end fl strs name out all pre pre2 (s : fg) :
  all = pre ++ pre2 → Forall (λ w, wanted fl strs w = false) pre2 → (on (sflag fl) || on (lflag fl) = true → selected fl strs pre = 0) →
  f_out s = out ++ (if quiet fl then [] else show fl strs name 0 pre) →
  (inr (u32 (selected fl strs pre)), f_out s) = ((lines_spec fl strs name all).1, out ++ (lines_spec fl strs name all).2).
Proof.
  intros Eall Hu Hq Eo.
  assert (selected fl strs all = selected fl strs pre) as Hsel by (rewrite Eall, selected_app, (selected_none _ _ _ Hu); lia).
  unfold lines_spec, quiet in *. rewrite Hsel, Eo.
  destruct (on (sflag fl)); cbn [orb] in *; [by rewrite Hq by done|].
  destruct (on (lflag fl)); cbn [orb] in *; [by rewrite Hq by done|]. cbn [fst snd]. f_equal.
  destruct (on (cflag fl)); [done|]. by rewrite Eall, show_app, (show_none fl strs name pre2 Hu), app_nil_r.
Qed.

Lemma lines_loop_ok s strs d name : ready s strs [] d → f_line s = 0 →
  wp (lines_loop fmt_u name) s (λ r s', idle s' strs ∧ f_flags s' = f_flags s ∧
    (r, f_out s') = ((lines_spec (f_flags s) strs name (lines d)).1, f_out s ++ (lines_spec (f_flags s) strs name (lines d)).2)).
Proof.
  intros HR Hl0. unfold lines_loop. apply wp_bind, wp_gets. set (fl := f_flags s). set (all := lines d).
  pose proof (left_over_lines _ _ _ (rd_stream _ _ _ _ HR)) as Hfuel. cbn [app] in Hfuel. fold all in Hfuel.
  apply (wp_loop _ (λ n count s1, ∃ pre, lines_done fl strs name (f_out s) all pre n count s1)) with (n := length all); [|lia|].
  2:{ exists [], [], d. split_and!; try done.
      - destruct (quiet fl); cbn; by rewrite app_nil_r.
      - rewrite Hl0. unfold line_after. by destruct (counted fl). }
  intros n count s1 (pre & ws1 & d1 & E & -> & HR1 & Ef & -> & Hq & Eo & El).
  eapply wp_bind_mono; [by apply get_line_ok|]. intros r s2 (Ef2 & Eo2 & pre2 & ws2 & d2 & Hu2 & HR2 & H). rewrite Ef in *.
  pose proof (ready_idle _ _ _ _ HR2) as HI. rewrite <- Eo2 in Eo. destruct r as [line|].
  - destruct H as (w & E2 & Hw & Ha & El2). apply wp_bind, wp_gets. unfold id. rewrite Ef2. rewrite E2 in E.
    assert ((selected fl strs all =? 0) = false) as Hnz.
    { apply Z.eqb_neq. rewrite E, !selected_app. change (w :: ws2 ++ lines d2) with ([w] ++ ws2 ++ lines d2). rewrite selected_app, selected_one by done.
      pose proof (selected_nonneg fl strs pre). pose proof (selected_nonneg fl strs pre2). pose proof (selected_nonneg fl strs (ws2 ++ lines d2)). lia. }
    unfold lines_spec. fold (on (sflag fl)) (on (lflag fl)) (on (cflag fl)). rewrite Hnz.
    destruct (on (sflag fl)) eqn:Es.
    { apply wp_ret. split_and!; [done|done|]. cbn. unfold quiet in Eo. rewrite Es in Eo. by rewrite Eo. }
    destruct (on (lflag fl)) eqn:Elf.
    { apply wp_bind, wp_modify. apply wp_ret. cbn in Hq. rewrite Hq by done. split_and!; [by destruct HI|done|].
      unfold quiet in Eo. rewrite Es, Elf in Eo. cbn in *. by rewrite Eo, app_nil_r. }
    rewrite El, line_after_add in El2 by done.
    assert (length (ws2 ++ lines d2) < length (ws1 ++ lines d1))%nat as Hlt by (rewrite E2, (length_app pre2); simpl; lia).
    destruct (on (cflag fl)) eqn:Ecf.
    + apply wp_ret. eexists. split; [exact Hlt|]. eexists. eapply lines_next; try done. by rewrite Ecf, app_nil_r.
    + apply wp_bind_assoc3. eapply wp_bind_mono.
      { rewrite <- Ef2. apply (print_line s2 line w name (zlen (pre ++ pre2)) Ha); [apply HI|].
        rewrite El2, Ef2. unfold line_after. destruct (counted fl); [|done]. f_equal. rewrite zlen_app. unfold zlen. lia. }
      intros [] s3 ->. apply wp_ret. eexists. split; [exact Hlt|]. eexists. eapply (lines_next _ _ _ _ _ _ _ _ _ _ s2); try done.
      * destruct HR2 as [S G X C Sm L]. split; try done. by destruct S.
      * rewrite Ecf. cbn. rewrite Hw, app_nil_r, Ef2. done.
  - destruct H as [E2 E3]. apply wp_ret. split_and!; [done|done|]. apply (lines_end fl strs name (f_out s) all pre pre2); [|done..].
    by rewrite E, E2.
Qed.

(** ** A file *)

Definition content (reads : list readres) : list Z := mjoin (bytes_of <$> reads).

(** A file that can be read, with lines that fit the buffer. *)
Definition good_file (r : option (list readres)) (d : list Z) : Prop :=
  ∃ reads, r = Some reads ∧ Forall good_read reads ∧ content reads = d ∧ short d.

Lemma file_open_ok s strs r d : idle s strs → strs ≠ [] → good_file r d →
  wp (file_open r) s (λ _ s', ready s' strs [] d ∧ f_line s' = 0 ∧ f_flags s' = f_flags s ∧ f_out s' = f_out s).
Proof.
  intros [M B G E] Hne (reads & -> & Hr & Hc & Hs). unfold file_open. do 4 (apply wp_bind, wp_modify).
  apply wp_bind, wp_pokeb; [lia|cbn; change (zlen [10]) with 1; rewrite M; unfold BUF_SIZE, READ_SIZE; lia|].
  apply wp_bind, wp_modify. apply wp_modify. split_and!; [|done..]. cbn. change (-1 + 2) with 1.
  assert (zlen (splice (f_mem s) 1 [10]) = zlen (f_mem s)) as Em by (apply zlen_splice; [lia|change (zlen [10]) with 1; rewrite M; unfold BUF_SIZE, READ_SIZE; lia]).
  assert (byte (splice (f_mem s) 1 [10]) 1 = 10) as E1.
  { rewrite byte_splice_in; [done|lia|change (zlen [10]) with 1; rewrite M; unfold BUF_SIZE, READ_SIZE; lia|change (zlen [10]) with 1; lia]. }
  split; cbn; try done; [|by right; left]. split; cbn; try done.
  - split; [lia|apply bytes_splice; [done|by apply Forall_singleton]|done].
  - constructor.
  - split; [apply not_elem_of_nil|]. exact Hc.
Qed.

(** What is printed for a file, and the count. *)
Definition file_spec (fl : flags) (strs : list (list Z)) (name : list Z) (d : list Z) : (Z + Z) * list Z :=
  let '(r, out) := lines_spec fl strs name (lines d) in
  match r with
  | inl v => (inl v, out)
  | inr count => (inr count, out ++ (if on (cflag fl) then (if hflag fl =? 0 then name ++ [58; 32] else []) ++ fmt_u count ++ [10] else []))
  end.

Lemma one_file_ok s strs files name d : idle s strs → strs ≠ [] → good_file (files (fd_of name)) d →
  wp (one_file fmt_u files name) s (λ r s', idle s' strs ∧ f_flags s' = f_flags s ∧
    let x := file_spec (f_flags s) strs (shown_name name) d in r = x.1 ∧ f_out s' = f_out s ++ x.2).
Proof.
  intros HI Hne Hf. unfold one_file. eapply wp_bind_mono; [by eapply file_open_ok|]. intros [] s1 (HR & Hl & Ef & Eo).
  eapply wp_bind_mono; [by apply lines_loop_ok|]. intros r s2 (HI2 & Ef2 & Er). injection Er as Er1 Er2. rewrite Ef in *. rewrite Eo in Er2.
  unfold file_spec. destruct (lines_spec (f_flags s) strs (shown_name name) (lines d)) as [x out]. cbn [fst snd] in *. subst x.
  destruct r as [v|count]; [apply wp_ret; by split_and!|]. apply wp_bind, wp_gets. rewrite Ef2. fold (on (cflag (f_flags s))).
  assert (∀ o, idle (set_fout o s2) strs) as HI3 by (intros o; by destruct HI2).
  apply wp_bind. destruct (on (cflag (f_flags s))); [destruct (hflag (f_flags s) =? 0)|].
  - apply wp_bind, wp_modify. apply wp_modify. apply wp_ret. cbn. split_and!; [apply HI3|done|done|]. rewrite Er2. by rewrite <- !app_assoc.
  - apply wp_bind, wp_ret. apply wp_modify. apply wp_ret. cbn. split_and!; [apply HI3|done|done|]. rewrite Er2. by rewrite <- app_assoc.
  - apply wp_ret. apply wp_ret. cbn. split_and!; [done|done|done|]. by rewrite app_nil_r.
Qed.

(** ** All files *)

(** The exit status and the output: a match ends the program at once with -s. *)
Fixpoint files_spec (fl : flags) (strs : list (list Z)) (files : list (list Z * list Z)) (found : Z) : Z * list Z :=
  match files with
  | [] => (if found =? 0 then 1 else 0, [])
  | (name, d) :: files =>
      let '(r, out) := file_spec fl strs name d in
      match r with
      | inl v => (v, out)
      | inr count => let '(v, out') := files_spec fl strs files (Z.lor found count) in (v, out ++ out')
      end
  end.

Lemma all_files_ok strs files names ds : strs ≠ [] → Forall2 (λ name d, good_file (files (fd_of name)) d) names ds →
  ∀ s found, idle s strs →
  wp (all_files fmt_u files names found) s (λ v s',
    (v, f_out s') = let x := files_spec (f_flags s) strs (zip (shown_name <$> names) ds) found in (x.1, f_out s ++ x.2)).
Proof.
  intros Hne. induction 1 as [|name d names ds Hf Hfs IH]; intros s found HI; cbn [all_files].
  - apply wp_ret. cbn. by rewrite app_nil_r.
  - eapply wp_bind_mono; [by eapply one_file_ok|]. intros r s1 (HI1 & Ef & -> & Eo).
    cbn [fmap list_fmap zip zip_with files_spec]. destruct (file_spec (f_flags s) strs (shown_name name) d) as [[v|count] out]; cbn [fst snd] in *.
    + apply wp_ret. by rewrite Eo.
    + eapply wp_mono; [by apply IH|]. intros v s2 E. rewrite Ef, Eo in E. change (list_fmap _ _ shown_name names) with (shown_name <$> names).
      destruct (files_spec _ _ _ _) as [v' out']. cbn [fst snd] in *. injection E as -> E. by rewrite E, app_assoc.
Qed.
End output.

(** ** The program *)

Definition no_flags : flags := mkFlags 0 0 0 0 0 0.

Definition bump (c : Z) (f : flags) : flags :=
  mkFlags (cflag f + (if c =? 99 then 1 else 0)) (hflag f + (if c =? 104 then 1 else 0)) (lflag f + (if c =? 108 then 1 else 0))
    (nflag f + (if c =? 110 then 1 else 0)) (sflag f + (if c =? 115 then 1 else 0)) (vflag f + (if c =? 118 then 1 else 0)).

(** The flags and the strings of the options. *)
Fixpoint parse (opts : list item) (fl : flags) (strs : list (list Z)) : flags * list (list Z) :=
  match opts with
  | Opt c arg :: opts => if c =? 101 then parse opts fl (default [] arg :: strs) else parse opts (bump c fl) strs
  | _ => (fl, strs)
  end.

(** The options other than -f, with strings that can be searched for. *)
Definition good_opt (o : item) : Prop :=
  match o with
  | Opt c arg => (c = 101 ∧ ∃ a, arg = Some a ∧ good_str a) ∨ c ∈ [99; 104; 108; 110; 115; 118]
  | _ => False
  end.

Lemma add_string_ok s strs str : idle s strs → good_str str →
  wp (add_string true str) s (λ _ s', idle s' (str :: strs) ∧ f_flags s' = f_flags s ∧ f_out s' = f_out s).
Proof.
  intros [M B G E] HG. pose proof HG as [Hne Hb Hl Hz]. unfold add_string.
  assert (0 < zlen str) by (destruct str; [done|unfold zlen; simpl; lia]). rewrite (proj2 (Z.eqb_neq _ _)) by lia.
  unfold MAX_STR_LEN. rewrite Z.gtb_ltb, (proj2 (Z.ltb_ge _ _)) by lia. apply wp_modify. split_and!; [|done|done].
  split; cbn; [done|done| |by rewrite <- E]. constructor; [|done]. split; [done|done|by apply table_ok].
Qed.

(** One option, whatever follows it. *)
Lemma do_option_ok files c arg s strs (Q : unit → fg → Prop) : good_opt (Opt c arg) → idle s strs →
  (∀ s', idle s' (parse [Opt c arg] (f_flags s) strs).2 → f_flags s' = (parse [Opt c arg] (f_flags s) strs).1 →
    f_out s' = f_out s → Q tt s') →
  wp (do_option true files c arg) s Q.
Proof.
  intros Ho HI HQ. destruct Ho as [(-> & a & -> & Ha)|Hc].
  - eapply wp_mono; [by apply add_string_ok|]. intros [] s1 (HI1 & Ef & Eo). by apply HQ.
  - assert (∀ f, idle (set_flags f s) strs) as HI1 by (intros f; by destruct HI).
    rewrite !elem_of_cons, elem_of_nil in Hc.
    destruct Hc as [->|[->|[->|[->|[->|[->|[]]]]]]]; (apply wp_modify, HQ; cbn; [apply HI1|unfold bump; cbn; by rewrite !Z.add_0_r|done]).
Qed.

Lemma parse_cons c arg opts fl strs :
  parse (Opt c arg :: opts) fl strs = parse opts (parse [Opt c arg] fl strs).1 (parse [Opt c arg] fl strs).2.
Proof. cbn. by destruct (c =? 101). Qed.

Lemma options_trace files argv opts : Forall good_opt opts → ∀ fuel tr g g' s strs, idle s strs →
  getopt_all argv true optstring fuel g = Some (tr, g') → Forall2 (shows argv true optstring) opts tr →
  wp (options true fuel files argv g) s (λ i s', i = g_optind g' ∧ idle s' (parse opts (f_flags s) strs).2 ∧
    f_flags s' = (parse opts (f_flags s) strs).1 ∧ f_out s' = f_out s).
Proof.
  induction 1 as [|o opts Ho Hos IH]; intros fuel tr g g' s strs HI Hall Hsh; (destruct fuel as [|fuel]; [done|]); cbn [getopt_all options] in *;
    destruct (getopt argv true optstring g) as [[c g1] msg].
  - inversion Hsh; subst. destruct (c =? -1); [injection Hall as <-; by apply wp_ret|].
    by destruct (getopt_all argv true optstring fuel g1) as [[??]|].
  - inversion Hsh as [|? r ? tr' Hr Htr]; subst. destruct (c =? -1); [done|].
    destruct (getopt_all argv true optstring fuel g1) as [[l g2]|] eqn:E; [|done]. injection Hall as <- <- <-.
    destruct o as [c' arg| |]; [|done..]. cbn in Hr. injection Hr as -> -> ->.
    apply wp_bind. eapply do_option_ok; [done|done|]. intros s1 HI1 Ef Eo. rewrite parse_cons, <- Ef.
    eapply wp_mono; [by eapply IH|]. intros i s2 (? & ? & ? & ?). split_and!; [done|done|done|congruence].
Qed.

Lemma optstring_ok : Forall (λ c, 0 < c < 128) optstring ∧ 45 ∉ optstring.
Proof. split; [by repeat constructor|]. by intros ?%(bool_decide_eq_true_2 _). Qed.

(** The options and the operands of the command line. *)
Definition command (argv : list (list Z)) : list item * list (list Z) := scan optstring (length (tail argv)) (tail argv).

Lemma options_ok files argv s strs : argv ≠ [] → Forall (Forall (λ c, 0 < c < 256)) argv → Forall good_opt (command argv).1 → idle s strs →
  wp (options true (S (tot argv)) files argv getopt0) s (λ i s', drop i argv = (command argv).2 ∧
    idle s' (parse (command argv).1 (f_flags s) strs).2 ∧ f_flags s' = (parse (command argv).1 (f_flags s) strs).1 ∧ f_out s' = f_out s).
Proof.
  intros Hne Hb Hg HI. destruct optstring_ok as [H1 H2].
  destruct (getopt_scans argv true optstring H1 H2 Hb Hne) as (tr & g' & E & Hsh & Hd).
  eapply wp_mono; [by eapply options_trace|]. intros i s' (-> & ?). by split.
Qed.

(** The strings and the names, when the first argument may be the string. *)
Definition arguments (strs args : list (list Z)) : option (list (list Z) * list (list Z)) :=
  match strs, args with
  | [], [] => None
  | [], str :: args => Some ([str], args)
  | _, _ => Some (strs, args)
  end.

Definition inputs (names : list (list Z)) : list (option (list Z)) := match names with [] => [None] | _ => Some <$> names end.
Definition final_flags (fl : flags) (names : list (list Z)) : flags := if zlen names <? 2 then bump 104 fl else fl.

(** C19.  fgrep prints, for every file in turn, the lines in which one of the
    strings occurs, or with -v those in which none does, with the name of the
    file and the number of the line as the options say; or their number with -c,
    the name of the file with -l, nothing with -s.  It exits with 0 when there
    was such a line, and with 1 otherwise.  This holds for strings of at most 255
    bytes and for files with lines of less than READ_SIZE bytes, however read()
    cuts the files up, for the options other than -f that getopt() finds in the
    arguments, and no access leaves the buffer. *)
Theorem fgrep_prints fmt_u files argv s opts args strs names ds :
  (2 ≤ length argv)%nat → Forall (Forall (λ c, 0 < c < 256)) argv → idle s [] → f_flags s = no_flags →
  command argv = (opts, args) → Forall good_opt opts → arguments (parse opts no_flags []).2 args = Some (strs, names) → Forall good_str strs →
  Forall2 (λ name d, good_file (files (fd_of name)) d) (inputs names) ds →
  wp (fgrep fmt_u true files argv) s (λ v s',
    let fl := final_flags (parse opts no_flags []).1 names in
    let x := files_spec fmt_u fl strs (zip (shown_name <$> inputs names) ds) 0 in
    v = x.1 ∧ f_out s' = f_out s ++ x.2).
Proof.
  intros Hargc Hb HI Hfl Hcmd. pose proof (options_ok files argv s [] ltac:(by intros ->; cbn in Hargc; lia) Hb) as Hok.
  rewrite Hcmd in Hok. cbn [fst snd] in Hok.
  intros Hopts Harg Hg Hfiles. unfold fgrep. rewrite (proj2 (Z.eqb_neq _ _)) by (unfold zlen; lia).
  eapply wp_bind_mono; [by apply Hok|]. intros i s1 (-> & HI1 & Ef & Eo). clear Hok. rewrite Hfl in *. set (strs0 := (parse opts no_flags []).2) in *.
  apply wp_bind, wp_gets.
  apply (wp_bind_mono _ _ _ (λ a s2, a = names ∧ idle s2 strs ∧ strs ≠ [] ∧ f_flags s2 = f_flags s1 ∧ f_out s2 = f_out s1)).
  { pose proof (id_strs _ _ HI1) as E1. destruct strs0 as [|x strs1] eqn:E0.
    - apply fmap_nil_inv in E1. rewrite E1. destruct args as [|str args]; [done|]. injection Harg as <- <-.
      inversion_clear Hg. eapply wp_bind_mono; [by apply (add_string_ok s1 [])|]. intros [] s2 (A & B & C). by apply wp_ret.
    - injection Harg as <- <-. destruct (f_strings s1) as [|ts l] eqn:El; [done|]. apply wp_ret. by destruct args; split_and!. }
  intros a s2 (-> & HI2 & Hne & Ef2 & Eo2).
  apply (wp_bind_mono _ _ _ (λ _ s3, idle s3 strs ∧ f_flags s3 = final_flags (parse opts no_flags []).1 names ∧ f_out s3 = f_out s)).
  { unfold final_flags. destruct (zlen names <? 2).
    - apply wp_modify. split_and!; [by destruct HI2| |cbn; congruence]. cbn. rewrite Ef2, Ef. unfold bump. cbn [Z.eqb Pos.eqb]. by rewrite !Z.add_0_r.
    - apply wp_ret. split_and!; [done|congruence|congruence]. }
  intros [] s3 (HI3 & Ef3 & Eo3). eapply wp_mono; [by apply (all_files_ok fmt_u strs files (inputs names) ds)|].
  intros v s4 E. rewrite Ef3, Eo3 in E. cbn [fst snd] in E. by injection E as -> ->.
Qed.

(** The state in which the program starts. *)
Definition fgrep0 : fg := mkFg [] no_flags 0 [] false (zeros (BUF_SIZE + 2)) 0 0 0 [].

(** "ab\nabc\nx\nbc", in three pieces. *)
Definition sample : list readres := [Data [97; 98; 10; 97]; Data [98; 99; 10; 120; 10]; Data [98; 99]].

(** fgrep -n bc *)
Lemma fgrep_prints_witness :
  wp (fgrep (λ n, [48 + n]) true (λ _, Some sample) [cstring "fgrep"; cstring "-n"; cstring "bc"]) fgrep0 (λ v s',
    v = 0 ∧ f_out s' = [50; 58; 97; 98; 99; 10; 52; 58; 98; 99; 10]).
Proof.
  assert (idle fgrep0 []) as HI.
  { split; [done| |constructor|done]. apply Forall_replicate. lia. }
  eapply wp_mono; [apply (fgrep_prints (λ n, [48 + n]) (λ _, Some sample) [cstring "fgrep"; cstring "-n"; cstring "bc"] fgrep0 [Opt 110 None] [[98; 99]] [[98; 99]] [] [content sample]);
    [cbn; lia|by repeat constructor|exact HI|reflexivity|reflexivity| |reflexivity| |]|].
  - apply Forall_singleton. right. cbn. set_solver.
  - apply Forall_singleton. split; [done|by repeat constructor|set_solver|done].
  - constructor; [|constructor]. exists sample. split_and!; [done| |done|by repeat constructor].
    by repeat (constructor; [split_and!; [done|done|by repeat constructor]|]).
  - intros v s' [Hv Ho]. split; [exact Hv|exact Ho].
Defined.

Lemma run_out (m : M fg Z) s v out :
  match m s with Ret v' s' => (v' =? v) && bool_decide (f_out s' = out) | _ => false end = true →
  ∃ s', m s = Ret v s' ∧ f_out s' = out.
Proof.
  destruct (m s) as [v' s'| | |]; [|done..]. intros [Hv%Z.eqb_eq Ho%bool_decide_eq_true]%andb_true_iff. exists s'. by rewrite Hv.
Qed.

Lemma contains_elem str w c : contains str w = true → c ∈ str → c ∈ w.
Proof. intros (u & v & ->)%contains_spec Hc. rewrite !elem_of_app. auto. Qed.

(** 255 times "a". *)
Definition a255 : list Z := replicate 255 97.

(** What the bounds of the last theorem exclude.  A string of 256 bytes,
    which add_string() accepts, makes the table of distances 0 for the bytes that
    are not in it, and a line is printed that does not contain it.  The empty
    string leaves the list of strings empty, and get_line() follows a NULL
    pointer.  When the part of a line that is left in the buffer, which is longer
    than READ_SIZE after a short read(), and the bytes of the next read() are more
    than BUF_SIZE together, fill_buffer() writes beyond the end of the buffer. *)
Theorem fgrep_limits :
  ((∃ s', fgrep (λ n, [48 + n]) true (λ _, Some [Data (a255 ++ [99; 10])]) [cstring "fgrep"; a255 ++ [98]] fgrep0 = Ret 0 s' ∧
     f_out s' = a255 ++ [99; 10]) ∧ contains (a255 ++ [98]) (a255 ++ [99]) = false) ∧
  fgrep (λ n, [48 + n]) true (λ _, Some sample) [cstring "fgrep"; []] fgrep0 = Fault "strings" ∧
  ∀ s bs reads, zlen (f_mem s) = BUF_SIZE + 2 → f_eof s = false → 0 ≤ f_max s ≤ f_end s → f_end s ≤ BUF_SIZE →
    f_reads s = Data bs :: reads → f_end s - f_max s + zlen bs > BUF_SIZE → fill_buffer s = Fault "input_buffer".
Proof.
  split_and!.
  - apply run_out. vm_compute. reflexivity.
  - apply not_true_is_false. intros Hc. apply (contains_elem _ _ 98) in Hc; [|apply elem_of_app; right; by left].
    apply elem_of_app in Hc as [[Hc _]%elem_of_replicate|Hc%list_elem_of_singleton]; lia.
  - vm_compute. reflexivity.
  - intros s bs reads Hm He Hr Hb Hrd Hover. pose proof (zlen_nonneg bs). unfold fill_buffer, bind, gets, id. rewrite He.
    assert (mem_ok (f_mem s) (f_max s) (f_end s - f_max s) = true) as -> by (unfold mem_ok; rewrite !andb_true_iff, !Z.leb_le; lia).
    set (lo := slice (f_mem s) (f_max s + 2) (f_end s - f_max s)).
    assert (zlen lo = f_end s - f_max s) as El by (apply zlen_slice; lia). unfold pokeb, bind, gets.
    assert (mem_ok (f_mem s) 0 (zlen lo) = true) as -> by (unfold mem_ok; rewrite !andb_true_iff, !Z.leb_le; lia).
    cbn [modify read_loop]. unfold bind, gets, modify. cbn [set_mem f_reads]. rewrite Hrd. unfold pokeb, bind, gets. cbn [set_reads set_mem f_mem].
    match goal with |- context [mem_ok ?m ?p ?n] => assert (mem_ok m p n = false) as -> end; [|done]. apply not_true_is_false.
    unfold mem_ok. rewrite zlen_splice by lia. rewrite !andb_true_iff, !Z.leb_le. lia.
Qed.
