(* ===== verification/Libvis.v ===== *)
(** * Visual encoding of characters (lib/gen/vis.c, unvis.c)

    Bytes are numbers below 256; a [char] is signed on the target, so that the
    [int] that vis() gets for a byte of a string is [schar] of it.  isgraph()
    and iscntrl() are only asked for ASCII. *)

From S2P Require Import Prelude Bytes KstringSpec.

Definition VIS_OCTAL : Z := 1.
Definition VIS_CSTYLE : Z := 2.
Definition VIS_SP : Z := 4.
Definition VIS_TAB : Z := 8.
Definition VIS_NL : Z := 16.
Definition VIS_SAFE : Z := 32.
Definition VIS_NOSLASH : Z := 64.

Definition has (flag f : Z) : bool := negb (Z.land flag f =? 0).
Definition isgraph (c : Z) : bool := (33 <=? c) && (c <=? 126).
Definition iscntrl (c : Z) : bool := (0 <=? c) && (c <=? 31) || (c =? 127).
Definition isoctal (c : Z) : bool := (48 <=? u8 c) && (u8 c <=? 55).

(** The letters of the C style. *)
Definition cstyle (c nextc : Z) : option (list Z) :=
  if c =? 10 then Some [92; 110]
  else if c =? 13 then Some [92; 114]
  else if c =? 8 then Some [92; 98]
  else if c =? 7 then Some [92; 97]
  else if c =? 11 then Some [92; 118]
  else if c =? 9 then Some [92; 116]
  else if c =? 12 then Some [92; 102]
  else if c =? 32 then Some [92; 115]
  else if c =? 0 then Some ([92; 48] ++ (if isoctal nextc then [48; 48] else []))
  else None.

(** Whether the character stands for itself. *)
Definition plain_char (c flag : Z) : bool :=
  (u32 c <=? 255) && isgraph c ||
  (negb (has flag VIS_SP) && (c =? 32)) ||
  (negb (has flag VIS_TAB) && (c =? 9)) ||
  (negb (has flag VIS_NL) && (c =? 10)) ||
  (has flag VIS_SAFE && ((c =? 8) || (c =? 7) || (c =? 13))).

Definition octal (c : Z) : list Z :=
  [92; Z.land (Z.shiftr (u8 c) 6) 7 + 48; Z.land (Z.shiftr (u8 c) 3) 7 + 48; Z.land (u8 c) 7 + 48].

Definition meta (c : Z) : list Z :=
  let m := negb (Z.land c 128 =? 0) in
  let c := if m then Z.land c 127 else c in
  (if m then [77] else []) ++
  (if iscntrl c then [94] ++ (if c =? 127 then [63] else [u8 (c + 64)]) else [45; u8 c]).

(** What vis() writes to [dst]. *)
Definition vis (c flag nextc : Z) : list Z :=
  let rest :=
    if (Z.land c 127 =? 32) || has flag VIS_OCTAL then octal c
    else (if negb (has flag VIS_NOSLASH) then [92] else []) ++ meta c in
  if plain_char c flag then u8 c :: (if (c =? 92) && negb (has flag VIS_NOSLASH) then [92] else [])
  else if has flag VIS_CSTYLE then match cstyle c nextc with Some l => l | None => rest end
  else rest.

Fixpoint strvis (src : list Z) (flag : Z) : list Z :=
  match src with
  | [] => []
  | c :: src => vis (schar c) flag (schar (byte src 0)) ++ strvis src flag
  end.

(** [len] characters to go. *)
Fixpoint strvisx (src : list Z) (len : nat) (flag : Z) : list Z :=
  match len with
  | O => []
  | S O => vis (schar (byte src 0)) flag 0
  | S len => vis (schar (byte src 0)) flag (schar (byte src 1)) ++ strvisx src len flag
  end.

(** ** unvis() *)

Definition S_GROUND : Z := 0.
Definition S_START : Z := 1.
Definition S_META : Z := 2.
Definition S_META1 : Z := 3.
Definition S_CTRL : Z := 4.
Definition S_OCTAL2 : Z := 5.
Definition S_OCTAL3 : Z := 6.

Definition UNVIS_VALID : Z := 1.
Definition UNVIS_VALIDPUSH : Z := 2.
Definition UNVIS_NOCHAR : Z := 3.
Definition UNVIS_SYNBAD : Z := -1.

(** The case S_START. *)
Definition unvis_start (cp c : Z) : Z * Z * Z :=
  let valid x := (UNVIS_VALID, x, S_GROUND) in
  if c =? 92 then valid 92
  else if (48 <=? c) && (c <=? 55) then (0, c - 48, S_OCTAL2)
  else if c =? 77 then (0, 128, S_META)
  else if c =? 94 then (0, cp, S_CTRL)
  else if c =? 110 then valid 10
  else if c =? 114 then valid 13
  else if c =? 98 then valid 8
  else if c =? 97 then valid 7
  else if c =? 118 then valid 11
  else if c =? 116 then valid 9
  else if c =? 102 then valid 12
  else if c =? 115 then valid 32
  else if c =? 69 then valid 27
  else if (c =? 10) || (c =? 36) then (UNVIS_NOCHAR, cp, S_GROUND)
  else (UNVIS_SYNBAD, cp, S_GROUND).

(** The result, [*cp] and [*astate], without UNVIS_END. *)
Definition unvis (cp c astate : Z) : Z * Z * Z :=
  if astate =? S_GROUND then if c =? 92 then (0, 0, S_START) else (UNVIS_VALID, c, S_GROUND)
  else if astate =? S_START then unvis_start cp c
  else if astate =? S_META then
    if c =? 45 then (0, cp, S_META1) else if c =? 94 then (0, cp, S_CTRL) else (UNVIS_SYNBAD, cp, S_GROUND)
  else if astate =? S_META1 then (UNVIS_VALID, Z.lor cp c, S_GROUND)
  else if astate =? S_CTRL then (UNVIS_VALID, Z.lor cp (if c =? 63 then 127 else Z.land c 31), S_GROUND)
  else if astate =? S_OCTAL2 then
    if isoctal c then (0, u8 (Z.shiftl cp 3 + (c - 48)), S_OCTAL3) else (UNVIS_VALIDPUSH, cp, S_GROUND)
  else if astate =? S_OCTAL3 then
    if isoctal c then (UNVIS_VALID, u8 (Z.shiftl cp 3 + (c - 48)), S_GROUND) else (UNVIS_VALIDPUSH, cp, S_GROUND)
  else (UNVIS_SYNBAD, cp, S_GROUND).

(** With UNVIS_END. *)
Definition unvis_end (astate : Z) : Z :=
  if (astate =? S_OCTAL2) || (astate =? S_OCTAL3) then UNVIS_VALID
  else if astate =? S_GROUND then UNVIS_NOCHAR else UNVIS_SYNBAD.

(** One character of strunvis(): the decoded bytes, or [None] for an error.  A
    character is pushed back once at most, in the state S_GROUND. *)
Definition unvis_step (c : Z) (st : Z * Z) : option (list Z * (Z * Z)) :=
  let '(cp, astate) := st in
  let '(r, cp, astate) := unvis cp c astate in
  if r =? UNVIS_VALID then Some ([cp], (cp, astate))
  else if r =? UNVIS_VALIDPUSH then
    let '(r2, cp2, astate2) := unvis cp c astate in
    if r2 =? UNVIS_VALID then Some ([cp; cp2], (cp2, astate2)) else Some ([cp], (cp2, astate2))
  else if (r =? 0) || (r =? UNVIS_NOCHAR) then Some ([], (cp, astate))
  else None.

Fixpoint strunvis_loop (src : list Z) (st : Z * Z) : option (list Z) :=
  match src with
  | [] => Some (if unvis_end st.2 =? UNVIS_VALID then [st.1] else [])
  | c :: src => '(out, st) ← unvis_step c st; rest ← strunvis_loop src st; Some (out ++ rest)
  end.

(** The bytes that strunvis() leaves in [dst], or [None] for -1. *)
Definition strunvis (src : list Z) : option (list Z) := strunvis_loop src (0, S_GROUND).

(** ** Decoding undoes encoding *)

Fixpoint unvis_run (src : list Z) (st : Z * Z) : option (list Z * (Z * Z)) :=
  match src with
  | [] => Some ([], st)
  | c :: src => '(out, st) ← unvis_step c st; '(rest, st) ← unvis_run src st; Some (out ++ rest, st)
  end.

Lemma strunvis_loop_app l src : ∀ st out st', unvis_run l st = Some (out, st') →
  strunvis_loop (l ++ src) st = rest ← strunvis_loop src st'; Some (out ++ rest).
Proof.
  induction l as [|c l IH]; intros st out st' Hr; cbn [unvis_run strunvis_loop app] in *.
  - injection Hr as <- <-. by destruct (strunvis_loop src st).
  - destruct (unvis_step c st) as [[o st1]|]; [|done]. cbn [mbind option_bind] in *.
    destruct (unvis_run l st1) as [[o2 st2]|] eqn:E; [|done]. cbn [mbind option_bind] in Hr. injection Hr as <- <-.
    rewrite (IH _ _ _ E). destruct (strunvis_loop src st2); [|done]. cbn. by rewrite app_assoc.
Qed.

(** Between two characters the byte decoded last does not matter. *)
Lemma ground_cp src cp : strunvis_loop src (cp, S_GROUND) = strunvis_loop src (0, S_GROUND).
Proof. destruct src as [|c src]; [done|]. cbn [strunvis_loop]. unfold unvis_step, unvis. by destruct (c =? 92). Qed.

Definition decodes (l : list Z) (u : Z) : bool := bool_decide (unvis_run l (0, S_GROUND) = Some ([u], (u, S_GROUND))).

(** A property of all bytes but NUL, by trying them. *)
Lemma all_bytes (P : Z → bool) : forallb (λ n, P (Z.of_nat n)) (seq 1 255) = true → ∀ u, 0 < u < 256 → P u = true.
Proof.
  intros Hall u Hu. rewrite forallb_forall in Hall. specialize (Hall (Z.to_nat u)). rewrite Z2Nat.id in Hall by lia.
  apply Hall, in_seq. lia.
Qed.

Lemma octal_decodes u : 0 < u < 256 → decodes (octal (schar u)) u = true.
Proof. apply (all_bytes (λ u, decodes (octal (schar u)) u)). vm_compute. reflexivity. Qed.

Lemma meta_decodes u : 0 < u < 256 →
  isgraph (schar u) || (Z.land (schar u) 127 =? 32) || decodes (92 :: meta (schar u)) u = true.
Proof. apply (all_bytes (λ u, isgraph (schar u) || (Z.land (schar u) 127 =? 32) || decodes (92 :: meta (schar u)) u)). vm_compute. reflexivity. Qed.

Lemma graph_small u : 0 < u < 256 → negb (isgraph (schar u)) || (u32 (schar u) <=? 255) = true.
Proof. apply (all_bytes (λ u, negb (isgraph (schar u)) || (u32 (schar u) <=? 255))). vm_compute. reflexivity. Qed.

Lemma cstyle_decodes u nextc l : 0 < u < 256 → cstyle (schar u) nextc = Some l → decodes l u = true.
Proof.
  intros Hu. unfold cstyle.
  repeat match goal with |- context [schar u =? ?k] =>
    destruct (Z.eqb_spec (schar u) k) as [E|_];
      [apply schar_eq in E; [|lia..]; subst u; first [lia|intros [= <-]; vm_compute; reflexivity]|] end.
  done.
Qed.

Lemma vis_decodes u flag nextc : 0 < u < 256 → has flag VIS_NOSLASH = false → decodes (vis (schar u) flag nextc) u = true.
Proof.
  intros Hu Hs. unfold vis. rewrite Hs. cbn [negb]. rewrite andb_true_r.
  assert (∀ x, x = (if (Z.land (schar u) 127 =? 32) || has flag VIS_OCTAL then octal (schar u) else [92] ++ meta (schar u)) →
    plain_char (schar u) flag = false → decodes x u = true) as Hrest.
  { intros x -> Hp. destruct ((Z.land (schar u) 127 =? 32) || has flag VIS_OCTAL) eqn:E; [by apply octal_decodes|].
    apply orb_false_iff in E as [E _]. pose proof (meta_decodes u Hu) as Hm. rewrite E, orb_false_r in Hm.
    apply orb_true_iff in Hm as [Hg|Hm]; [|done]. exfalso. pose proof (graph_small u Hu) as Hb. rewrite Hg in Hb. cbn [negb orb] in Hb.
    unfold plain_char in Hp. by rewrite Hb, Hg in Hp. }
  destruct (plain_char (schar u) flag) eqn:Hp.
  - rewrite schar_byte by lia. destruct (Z.eqb_spec (schar u) 92) as [E|E].
    + apply schar_eq in E; [|lia..]. by subst u.
    + unfold decodes. apply bool_decide_eq_true. cbn [unvis_run]. unfold unvis_step, unvis. cbn [Z.eqb S_GROUND].
      assert (u ≠ 92) as Hne by (intros ->; by apply E). rewrite (proj2 (Z.eqb_neq _ _) Hne). done.
  - destruct (has flag VIS_CSTYLE); [|by apply Hrest]. destruct (cstyle (schar u) nextc) as [l|] eqn:Ec; [by eapply cstyle_decodes|by apply Hrest].
Qed.

Lemma strvis_strunvis src flag : Forall (λ u, 0 < u < 256) src → has flag VIS_NOSLASH = false →
  strunvis_loop (strvis src flag) (0, S_GROUND) = Some src.
Proof.
  intros Hs Hf. induction Hs as [|u src Hu Hs IH]; [done|]. cbn [strvis].
  pose proof (vis_decodes u flag (schar (byte src 0)) Hu Hf) as Hd. apply bool_decide_eq_true in Hd.
  rewrite (strunvis_loop_app _ _ _ _ _ Hd), ground_cp, IH. done.
Qed.

(** C31.  strunvis() of what strvis() made of a string is the string, for every
    string and all flags but VIS_NOSLASH. *)
Theorem vis_roundtrip src flag : Forall (λ u, 0 < u < 256) src → has flag VIS_NOSLASH = false →
  strunvis (strvis src flag) = Some src.
Proof. apply strvis_strunvis. Qed.

Lemma vis_roundtrip_witness : strunvis (strvis [97; 1; 92; 200; 10; 255; 32; 160] 0) = Some [97; 1; 92; 200; 10; 255; 32; 160].
Proof. apply (vis_roundtrip [97; 1; 92; 200; 10; 255; 32; 160] 0); [by repeat constructor|done]. Defined.

(** strvisx() never advances [src]: it encodes the first byte [len] times. *)
Lemma strvisx_repeats : strvisx [97; 98; 99] 3 0 = [97; 97; 97].
Proof. done. Qed.
