(* ===== verification/Fnmatch.v ===== *)
(** * Matching of file names (lib/gen/fnmatch.c)

    A pattern and a string are lists of bytes without NUL; the byte at the end
    is the NUL.  A pointer into the string is the rest of the string with the
    character before it, if it is not [stringstart].  [char] is signed. *)

From S2P Require Import Prelude Bytes KstringSpec Libstring.

Definition FNM_NOESCAPE : Z := 1.
Definition FNM_PATHNAME : Z := 2.
Definition FNM_PERIOD : Z := 4.

Definition flag_on (flags f : Z) : bool := negb (Z.land flags f =? 0).

(** The loop of rangematch(): what follows the bracket, and [ok]. *)
Fixpoint range_loop (fuel : nat) (pattern : list Z) (test : Z) (noescape ok : bool) : option (list Z * bool) :=
  match fuel with
  | O => None
  | S fuel =>
      let c := first pattern in
      let pattern := tail pattern in
      if c =? 93 then Some (pattern, ok)
      else
        let '(c, pattern) := if (c =? 92) && negb noescape then (first pattern, tail pattern) else (c, pattern) in
        if c =? 0 then None
        else if (first pattern =? 45) && negb (first (tail pattern) =? 0) && negb (first (tail pattern) =? 93) then
          let c2 := first (tail pattern) in
          let pattern := tail (tail pattern) in
          let '(c2, pattern) := if (c2 =? 92) && negb noescape then (first pattern, tail pattern) else (c2, pattern) in
          if c2 =? 0 then None
          else range_loop fuel pattern test noescape (ok || ((schar c <=? schar test) && (schar test <=? schar c2)))
        else range_loop fuel pattern test noescape (ok || (c =? test))
  end.

Definition rangematch (pattern : list Z) (test flags : Z) : option (list Z) :=
  let negate := (first pattern =? 33) || (first pattern =? 94) in
  let pattern := if negate then tail pattern else pattern in
  match range_loop (S (length pattern)) pattern test (flag_on flags FNM_NOESCAPE) false with
  | None => None
  | Some (rest, ok) => if Bool.eqb ok negate then None else Some rest
  end.

(** [index(string, '/')], with the character before it. *)
Fixpoint find_slash (prev : option Z) (string : list Z) : option (option Z * list Z) :=
  match string with
  | [] => None
  | c :: rest => if c =? 47 then Some (prev, string) else find_slash (Some c) rest
  end.

Fixpoint skip_stars (pattern : list Z) : list Z :=
  match pattern with
  | c :: rest => if c =? 42 then skip_stars rest else pattern
  | [] => []
  end.

(** Whether the string is at a period that FNM_PERIOD protects. *)
Definition at_period (prev : option Z) (string : list Z) (flags : Z) : bool :=
  (first string =? 46) && flag_on flags FNM_PERIOD &&
  match prev with None => true | Some p => flag_on flags FNM_PATHNAME && (p =? 47) end.

(** The loop after a star, with the recursive call [f]. *)
Fixpoint star_loop (f : list Z → option bool) (path : bool) (string : list Z) : option bool :=
  match string with
  | [] => Some false
  | test :: rest =>
      match f string with
      | None => None
      | Some true => Some true
      | Some false => if (test =? 47) && path then Some false else star_loop f path rest
      end
  end.

(** fnmatch(), with [fuel] rounds of its loop: whether it returns 0. *)
Fixpoint fnmatch (fuel : nat) (pattern : list Z) (prev : option Z) (string : list Z) (flags : Z) : option bool :=
  match fuel with
  | O => None
  | S fuel =>
      let c := first pattern in
      let pattern := tail pattern in
      if c =? 0 then Some (first string =? 0)
      else if c =? 63 then
        if first string =? 0 then Some false
        else if (first string =? 47) && flag_on flags FNM_PATHNAME then Some false
        else if at_period prev string flags then Some false
        else fnmatch fuel pattern (Some (first string)) (tail string) flags
      else if c =? 42 then
        let pattern := skip_stars pattern in
        let c := first pattern in
        if at_period prev string flags then Some false
        else if c =? 0 then
          if flag_on flags FNM_PATHNAME then Some (match find_slash prev string with None => true | Some _ => false end) else Some true
        else if (c =? 47) && flag_on flags FNM_PATHNAME then
          match find_slash prev string with
          | None => Some false
          | Some (prev, string) => fnmatch fuel pattern prev string flags
          end
        else
          star_loop (λ string, fnmatch fuel pattern None string (Z.land flags (Z.lnot FNM_PERIOD))) (flag_on flags FNM_PATHNAME) string
      else if c =? 91 then
        if first string =? 0 then Some false
        else if (first string =? 47) && flag_on flags FNM_PATHNAME then Some false
        else
          match rangematch pattern (first string) flags with
          | None => Some false
          | Some pattern => fnmatch fuel pattern (Some (first string)) (tail string) flags
          end
      else
        let '(c, pattern) :=
          if (c =? 92) && negb (flag_on flags FNM_NOESCAPE) then
            if first pattern =? 0 then (92, pattern) else (first pattern, tail pattern)
          else (c, pattern) in
        if c =? first string then fnmatch fuel pattern (Some (first string)) (tail string) flags else Some false
  end.

(** ** What a pattern means *)

Inductive mem := One (c : Z) | Range (c c2 : Z).

Inductive tok := TLit (c : Z) | TAny | TStar | TSet (negate : bool) (l : list mem) | TBad.

Definition in_mem (test : Z) (m : mem) : bool :=
  match m with
  | One c => c =? test
  | Range c c2 => (schar c <=? schar test) && (schar test <=? schar c2)
  end.

Definition in_set (negate : bool) (l : list mem) (test : Z) : bool := xorb negate (existsb (in_mem test) l).

(** The matching of a string: with [path] only a slash in the pattern matches a
    slash; a bracket that is not closed matches nothing. *)
Inductive matched (path : bool) : list tok → list Z → Prop :=
| m_nil : matched path [] []
| m_lit c ts s : matched path ts s → matched path (TLit c :: ts) (c :: s)
| m_any c ts s : (path = true → c ≠ 47) → matched path ts s → matched path (TAny :: ts) (c :: s)
| m_set n l c ts s : in_set n l c = true → (path = true → c ≠ 47) → matched path ts s → matched path (TSet n l :: ts) (c :: s)
| m_star ts u s : (path = true → 47 ∉ u) → matched path ts s → matched path (TStar :: ts) (u ++ s).

Definition unescape (noescape : bool) (p : list Z) : option (Z * list Z) :=
  match p with
  | [] => None
  | c :: p => if (c =? 92) && negb noescape then match p with [] => None | d :: p => Some (d, p) end else Some (c, p)
  end.

(** What follows the minus sign of a range. *)
Definition range_end (p : list Z) : option (list Z) :=
  match p with
  | h :: d :: p => if (h =? 45) && negb (d =? 93) then Some (d :: p) else None
  | _ => None
  end.

Definition add_mem (m : mem) (r : option (list Z * list mem)) : option (list Z * list mem) :=
  match r with None => None | Some (rest, l) => Some (rest, m :: l) end.

(** The members of a bracket expression, and what follows it. *)
Fixpoint members (fuel : nat) (noescape : bool) (p : list Z) : option (list Z * list mem) :=
  match fuel with
  | O => None
  | S fuel =>
      if first p =? 93 then Some (tail p, [])
      else
        match unescape noescape p with
        | None => None
        | Some (c, p) =>
            match range_end p with
            | None => add_mem (One c) (members fuel noescape p)
            | Some q => match unescape noescape q with
                        | None => None
                        | Some (c2, q) => add_mem (Range c c2) (members fuel noescape q)
                        end
            end
        end
  end.

Definition negated (p : list Z) : bool := (first p =? 33) || (first p =? 94).
Definition bracket (noescape : bool) (p : list Z) : option (list Z * list mem) :=
  let p := if negated p then tail p else p in members (S (length p)) noescape p.

Fixpoint parse (fuel : nat) (noescape : bool) (p : list Z) : list tok :=
  match fuel, p with
  | O, _ => [TBad]
  | _, [] => []
  | S fuel, c :: p =>
      if c =? 63 then TAny :: parse fuel noescape p
      else if c =? 42 then TStar :: parse fuel noescape p
      else if c =? 91 then
        match bracket noescape p with
        | None => [TBad]
        | Some (rest, l) => TSet (negated p) l :: parse fuel noescape rest
        end
      else if (c =? 92) && negb noescape then
        match p with [] => [TLit 92] | d :: p => TLit d :: parse fuel noescape p end
      else TLit c :: parse fuel noescape p
  end.

Definition tokens (noescape : bool) (p : list Z) : list tok := parse (S (length p)) noescape p.

(** ** Bracket expressions *)

Abbreviation NZ := (Forall (λ c : Z, c ≠ 0)).

Lemma first_nz p : NZ p → (first p =? 0) = match p with [] => true | _ => false end.
Proof. intros [|c q Hc _]; [reflexivity|]. change (first (c :: q)) with c. lia. Qed.

Lemma unescape_suffix ne p c q : unescape ne p = Some (c, q) → ∃ pre, p = pre ++ q ∧ pre ≠ [] ∧ c ∈ pre.
Proof.
  destruct p as [|a p]; cbn; [done|]. case_match.
  - destruct p as [|d p]; intros [= <- <-]. exists [a; d]. set_solver.
  - intros [= <- <-]. exists [a]. set_solver.
Qed.

Lemma unescape_nz ne p c q : NZ p → unescape ne p = Some (c, q) → c ≠ 0 ∧ NZ q.
Proof.
  intros Hp (pre & -> & _ & Hin)%unescape_suffix. apply Forall_app in Hp as [H1 H2].
  split; [|done]. exact (proj1 (Forall_forall _ _) H1 _ Hin).
Qed.

Lemma range_end_suffix p q : range_end p = Some q → p = 45 :: q.
Proof. destruct p as [|h [|d p]]; cbn; [done..|]. case_match; [|done]. intros [= <-]. f_equal. lia. Qed.

Lemma members_suffix ne fuel : ∀ p rest l, members fuel ne p = Some (rest, l) → ∃ pre, p = pre ++ rest ∧ pre ≠ [].
Proof.
  induction fuel as [|fuel IH]; intros p rest l; cbn -[unescape range_end]; [done|].
  destruct (first p =? 93) eqn:E.
  { destruct p as [|c p]; [done|]. intros [= <- <-]. by exists [c]. }
  destruct (unescape ne p) as [[c p1]|] eqn:E1; [|done].
  apply unescape_suffix in E1 as (pre & -> & Hpre & _).
  destruct (range_end p1) as [q|] eqn:E2.
  - apply range_end_suffix in E2 as ->.
    destruct (unescape ne q) as [[c2 q1]|] eqn:E3; [|done]. apply unescape_suffix in E3 as (pre3 & -> & _ & _).
    destruct (members fuel ne q1) as [[r l1]|] eqn:E4; [|done]. intros [= <- <-].
    apply IH in E4 as (pre4 & -> & _). exists (pre ++ 45 :: pre3 ++ pre4). split; [by list_simplifier|].
    by destruct pre.
  - destruct (members fuel ne p1) as [[r l1]|] eqn:E4; [|done]. intros [= <- <-].
    apply IH in E4 as (pre4 & -> & _). exists (pre ++ pre4). split; [by list_simplifier|]. by destruct pre.
Qed.

Lemma bracket_suffix ne p rest l : bracket ne p = Some (rest, l) → ∃ pre, p = pre ++ rest ∧ pre ≠ [].
Proof.
  unfold bracket. case_match; intros (pre & E & Hpre)%members_suffix.
  - destruct p as [|c p]; [by destruct pre|]. exists (c :: pre). cbn in E |- *. by rewrite E.
  - by exists pre.
Qed.

Lemma bracket_length ne p rest l : bracket ne p = Some (rest, l) → (length rest < length p)%nat.
Proof. intros (pre & -> & Hpre)%bracket_suffix. rewrite length_app. destruct pre; [done|]. cbn. lia. Qed.

Lemma bracket_nz ne p rest l : NZ p → bracket ne p = Some (rest, l) → NZ rest.
Proof. intros Hp (pre & -> & _)%bracket_suffix. by apply Forall_app in Hp as [_ ?]. Qed.

Lemma range_cond p : NZ p →
  (first p =? 45) && negb (first (tail p) =? 0) && negb (first (tail p) =? 93) =
  match range_end p with Some _ => true | None => false end.
Proof.
  intros Hp. destruct p as [|h [|d q]]; [reflexivity|by cbn; rewrite andb_false_r|].
  apply Forall_cons in Hp as [_ [Hd _]%Forall_cons]. cbn [tail range_end].
  change (first (h :: d :: q)) with h. change (first (d :: q)) with d. destruct (h =? 45), (d =? 93); cbn; lia.
Qed.

Lemma unescape_code ne p : p ≠ [] → NZ p →
  (let '(c, q) := if (first p =? 92) && negb ne then (first (tail p), tail (tail p)) else (first p, tail p) in
   if c =? 0 then None else Some (c, q)) = unescape ne p.
Proof.
  intros Hne Hp. destruct p as [|c p]; [done|]. apply Forall_cons in Hp as [Hc Hp]. cbn [tail unescape].
  change (first (c :: p)) with c.
  destruct ((c =? 92) && negb ne).
  - destruct p as [|d p]; [done|]. apply Forall_cons in Hp as [Hd _]. change (first (d :: p)) with d. cbn [tail]. case_match; [lia|done].
  - case_match; [lia|done].
Qed.

Lemma range_loop_members test ne fuel : ∀ p ok, NZ p →
  range_loop fuel p test ne ok =
  match members fuel ne p with None => None | Some (rest, l) => Some (rest, ok || existsb (in_mem test) l) end.
Proof.
  induction fuel as [|fuel IH]; intros p ok Hp; cbn -[unescape range_end]; [done|].
  destruct p as [|c p]; [reflexivity|].
  destruct (first (c :: p) =? 93) eqn:E; [by rewrite orb_false_r|].
  pose proof (unescape_code ne (c :: p) (ltac:(done)) Hp) as Hu. cbn [tail] in Hu |- *. rewrite <- Hu.
  pose proof (unescape_nz ne (c :: p)) as Hz. rewrite <- Hu in Hz.
  destruct (if _ : bool then _ else _) as [c1 p1]. destruct (c1 =? 0); [done|].
  destruct (Hz c1 p1 Hp eq_refl) as [_ Hp1]. clear Hu Hz. rewrite range_cond by done.
  destruct (range_end p1) as [q|] eqn:E2.
  - apply range_end_suffix in E2 as E3. subst p1. apply Forall_cons in Hp1 as [_ Hq].
    destruct q as [|d q]; [done|].
    pose proof (unescape_code ne (d :: q) (ltac:(done)) Hq) as Hu. cbn [tail] in Hu |- *. rewrite <- Hu.
    pose proof (unescape_nz ne (d :: q)) as Hz. rewrite <- Hu in Hz. change (first (d :: q)) with d in *.
    destruct (if _ : bool then _ else _) as [c2 p2]. destruct (c2 =? 0); [done|].
    destruct (Hz c2 p2 Hq eq_refl) as [_ Hp2]. rewrite IH by done.
    destruct (members fuel ne p2) as [[rest l]|]; cbn; [|done]. by rewrite orb_assoc.
  - rewrite IH by done. destruct (members fuel ne p1) as [[rest l]|]; cbn; [|done]. by rewrite orb_assoc.
Qed.

Lemma rangematch_bracket p test flags : NZ p →
  rangematch p test flags =
  match bracket (flag_on flags FNM_NOESCAPE) p with
  | None => None
  | Some (rest, l) => if in_set (negated p) l test then Some rest else None
  end.
Proof.
  intros Hp. unfold rangematch, bracket. fold (negated p).
  assert (NZ (if negated p then tail p else p)) as Hq by (destruct (negated p), Hp; cbn; auto).
  rewrite range_loop_members by done. destruct (members _ _ _) as [[rest l]|]; [|done].
  unfold in_set. cbn [orb]. by destruct (negated p), (existsb _ _).
Qed.

(** ** Patterns as tokens *)

Lemma parse_fuel ne n : ∀ m p, (length p < n)%nat → (length p < m)%nat → parse n ne p = parse m ne p.
Proof.
  induction n as [|n IH]; intros m p Hn Hm; [lia|]. destruct m as [|m]; [lia|].
  destruct p as [|c p]; cbn -[bracket]; [done|]. cbn in Hn, Hm.
  assert (parse n ne p = parse m ne p) as E by (apply IH; lia).
  case_match; [by rewrite E|]. case_match; [by rewrite E|]. case_match.
  - destruct (bracket ne p) as [[rest l]|] eqn:Eb; [|done]. apply bracket_length in Eb. f_equal. apply IH; lia.
  - case_match; [|by rewrite E]. destruct p as [|d p]; [done|]. cbn in Hn, Hm. f_equal. apply IH; lia.
Qed.

Lemma tokens_cons ne c p :
  tokens ne (c :: p) =
  if c =? 63 then TAny :: tokens ne p
  else if c =? 42 then TStar :: tokens ne p
  else if c =? 91 then
    match bracket ne p with None => [TBad] | Some (rest, l) => TSet (negated p) l :: tokens ne rest end
  else if (c =? 92) && negb ne then match p with [] => [TLit 92] | d :: p => TLit d :: tokens ne p end
  else TLit c :: tokens ne p.
Proof.
  unfold tokens. cbn [length].
  assert (∀ q, (length q ≤ length p)%nat → parse (S (length p)) ne q = parse (S (length q)) ne q) as E
    by (intros; apply parse_fuel; lia).
  change (parse (S (S (length p))) ne (c :: p)) with
    (if c =? 63 then TAny :: parse (S (length p)) ne p
     else if c =? 42 then TStar :: parse (S (length p)) ne p
     else if c =? 91 then
       match bracket ne p with None => [TBad] | Some (rest, l) => TSet (negated p) l :: parse (S (length p)) ne rest end
     else if (c =? 92) && negb ne then match p with [] => [TLit 92] | d :: q => TLit d :: parse (S (length p)) ne q end
     else TLit c :: parse (S (length p)) ne p).
  destruct (bracket ne p) as [[rest l]|] eqn:Eb; [apply bracket_length in Eb; rewrite (E rest) by lia|].
  all: destruct p as [|d q]; [done|]; by rewrite (E q) by (cbn; lia).
Qed.

Lemma matched_star path ts s :
  matched path (TStar :: ts) s ↔ ∃ u s', s = u ++ s' ∧ (path = true → 47 ∉ u) ∧ matched path ts s'.
Proof.
  split.
  - inversion 1; subst. eauto.
  - intros (u & s' & -> & Hu & Hm). by constructor.
Qed.

Lemma matched_two_stars path ts s : matched path (TStar :: TStar :: ts) s ↔ matched path (TStar :: ts) s.
Proof.
  rewrite !matched_star. split.
  - intros (u & ? & -> & Hu & (u' & s' & -> & Hu' & Hm)%matched_star). exists (u ++ u'), s'.
    split; [by rewrite (assoc_L (++))|]. set_solver.
  - intros (u & s' & -> & Hu & Hm). exists u, s'. repeat split; [done|]. apply matched_star. exists [], s'. set_solver.
Qed.

Lemma matched_skip path ne p s :
  matched path (TStar :: tokens ne p) s ↔ matched path (TStar :: tokens ne (skip_stars p)) s.
Proof.
  induction p as [|c p IH]; [done|]. cbn [skip_stars]. destruct (c =? 42) eqn:E; [|done].
  assert (c = 42) as -> by lia. rewrite tokens_cons. change (42 =? 63) with false. change (42 =? 42) with true. cbn iota.
  by rewrite matched_two_stars.
Qed.

Lemma skip_stars_suffix p : ∃ pre, p = pre ++ skip_stars p.
Proof.
  induction p as [|c p [pre IH]]; [by exists []|]. cbn. case_match; [|by exists []].
  exists (c :: pre). cbn. by f_equal.
Qed.

Lemma skip_stars_head p : first (skip_stars p) ≠ 42.
Proof.
  induction p as [|c p IH]; [done|]. cbn [skip_stars]. case_match; [done|]. change (first (c :: p)) with c. lia.
Qed.

(** A pattern that starts with another character than a star does not match the
    empty string. *)
Lemma not_matched_nil path ne p : p ≠ [] → first p ≠ 42 → ¬ matched path (tokens ne p) [].
Proof.
  destruct p as [|c p]; [done|]. change (first (c :: p)) with c. intros _ Hc. rewrite tokens_cons.
  repeat case_match; subst; try lia; inversion 1.
Qed.

Lemma find_slash_none prev s : find_slash prev s = None ↔ 47 ∉ s.
Proof.
  revert prev. induction s as [|c s IH]; intros prev; cbn; [set_solver|].
  case_match; [|rewrite IH]; set_solver by lia.
Qed.

Lemma find_slash_some prev s prev' s' :
  find_slash prev s = Some (prev', s') → ∃ u r, s = u ++ s' ∧ s' = 47 :: r ∧ 47 ∉ u.
Proof.
  revert prev. induction s as [|c s IH]; intros prev; cbn; [done|]. case_match.
  - intros [= <- <-]. exists [], s. assert (c = 47) as -> by lia. set_solver.
  - intros (u & r & -> & -> & Hu)%IH. exists (c :: u), r. set_solver by lia.
Qed.

Lemma first_slash_unique u v (r t : list Z) : 47 ∉ u → 47 ∉ v → u ++ 47 :: r = v ++ 47 :: t → r = t.
Proof.
  revert v. induction u as [|a u IH]; intros [|b v] Hu Hv E; simplify_eq/=; [done|set_solver..|].
  eapply (IH v); [set_solver..|done].
Qed.

(** ** The matcher decides the matching *)

Definition decides (o : option bool) (P : Prop) : Prop := ∃ b, o = Some b ∧ (b = true ↔ P).

Lemma decides_no (P : Prop) : ¬ P → decides (Some false) P.
Proof. exists false. naive_solver. Qed.

Lemma decides_iff o (P Q : Prop) : (P ↔ Q) → decides o P → decides o Q.
Proof. intros H (b & -> & Hb). exists b. split; [done|]. by rewrite Hb. Qed.

Lemma star_loop_ok f path (P : list Z → Prop) s :
  NZ s → (∀ s, NZ s → decides (f s) (P s)) → ¬ P [] →
  decides (star_loop f path s) (∃ u s', s = u ++ s' ∧ (path = true → 47 ∉ u) ∧ P s').
Proof.
  intros Hs Hf H0. induction Hs as [|c s Hc Hs IH]; cbn.
  - apply decides_no. by intros ([|??] & [|??] & E & _ & ?).
  - destruct (Hf (c :: s)) as (b & -> & Hb); [by constructor|]. destruct b.
    + exists true. split; [done|]. split; [|done]. intros _. exists [], (c :: s). set_solver.
    + assert (¬ P (c :: s)) as Hn by naive_solver. destruct ((c =? 47) && path) eqn:E.
      * apply decides_no. intros ([|d u] & s' & E' & Hu & HP); simplify_eq/=. destruct path; [|lia].
        apply (Hu eq_refl). rewrite elem_of_cons. left. lia.
      * eapply decides_iff; [|exact IH]. split.
        -- intros (u & s' & -> & Hu & HP). exists (c :: u), s'. split; [done|]. split; [|done].
           intros ->. rewrite elem_of_cons. intros [?|?]; [lia|]. by apply Hu.
        -- intros ([|d u] & s' & E' & Hu & HP); simplify_eq/=. exists u, s'. set_solver.
Qed.

Section Matching.

Context (flags : Z) (no_period : flag_on flags FNM_PERIOD = false).

Abbreviation path := (flag_on flags FNM_PATHNAME).
Abbreviation ne := (flag_on flags FNM_NOESCAPE).

Lemma keep_flags : Z.land flags (Z.lnot FNM_PERIOD) = flags.
Proof.
  unfold flag_on in no_period. apply Z.bits_inj'. intros i Hi. rewrite Z.land_spec, Z.lnot_spec by done.
  destruct (Z.testbit flags i) eqn:E; [|done]. destruct (Z.testbit FNM_PERIOD i) eqn:E4; [|done].
  assert (Z.testbit (Z.land flags FNM_PERIOD) i = true) as Hb by by rewrite Z.land_spec, E, E4.
  assert (Z.land flags FNM_PERIOD = 0) as Hz by lia. rewrite Hz, Z.bits_0 in Hb. done.
Qed.

Lemma at_period_off prev s : at_period prev s flags = false.
Proof. unfold at_period. rewrite no_period. by rewrite andb_false_r. Qed.

Lemma slash_cond c : (c =? 47) && path = false ↔ (path = true → c ≠ 47).
Proof. destruct path; lia. Qed.

(** A token that takes one character. *)
Lemma decides_step o (t : tok) ts c s (ok : bool) :
  (∀ r, matched path (t :: ts) (c :: r) ↔ ok = true ∧ matched path ts r) →
  decides o (matched path ts s) → decides (if ok then o else Some false) (matched path (t :: ts) (c :: s)).
Proof.
  intros Ht Ho. destruct ok.
  - eapply decides_iff; [|exact Ho]. rewrite Ht. naive_solver.
  - apply decides_no. rewrite Ht. naive_solver.
Qed.

Lemma matched_lit c d ts r : matched path (TLit c :: ts) (d :: r) ↔ (c =? d) = true ∧ matched path ts r.
Proof.
  split.
  - inversion 1; subst. split; [lia|done].
  - intros [E H]. assert (c = d) as -> by lia. by constructor.
Qed.

Lemma matched_any c ts r : matched path (TAny :: ts) (c :: r) ↔ negb ((c =? 47) && path) = true ∧ matched path ts r.
Proof. rewrite negb_true_iff, slash_cond. split; [by inversion 1|]. intros [? ?]. by constructor. Qed.

Lemma matched_set n l c ts r :
  matched path (TSet n l :: ts) (c :: r) ↔ negb ((c =? 47) && path) && in_set n l c = true ∧ matched path ts r.
Proof.
  rewrite andb_true_iff, negb_true_iff, slash_cond. split; [by inversion 1|]. intros [[? ?] ?]. by constructor.
Qed.

Lemma star_ok (fuel : nat) (p : list Z) prev s :
  (∀ (p : list Z) prev s, (length p < fuel)%nat → NZ p → NZ s → decides (fnmatch fuel p prev s flags) (matched path (tokens ne p) s)) →
  (length p < fuel)%nat → NZ p → NZ s →
  decides (fnmatch (S fuel) (42 :: p) prev s flags) (matched path (tokens ne (42 :: p)) s).
Proof.
  intros IH Hlen Hp Hs. cbn [fnmatch tail]. change (first (42 :: p)) with 42. cbn [Z.eqb Pos.eqb].
  rewrite at_period_off, tokens_cons. cbn [Z.eqb Pos.eqb]. rewrite keep_flags.
  eapply decides_iff; [symmetry; apply matched_skip|].
  pose proof (skip_stars_head p) as Hh. destruct (skip_stars_suffix p) as [pre Hpre].
  assert (NZ (skip_stars p) ∧ (length (skip_stars p) < fuel)%nat) as [Hq Hl].
  { rewrite Hpre in Hp, Hlen. apply Forall_app in Hp as [_ ?]. rewrite length_app in Hlen. split; [done|lia]. }
  destruct (skip_stars p) as [|c q]; [|change (first (c :: q)) with c in *].
  - change (first [] =? 0) with true. cbn iota. exists (if path then match find_slash prev s with None => true | Some _ => false end else true).
    split; [by destruct path|]. rewrite matched_star. destruct path; [|split; [|done]; intros _; exists s, []; rewrite app_nil_r; split; [done|]; split; [done|constructor]].
    pose proof (find_slash_none prev s) as Hf. destruct (find_slash prev s) as [[??]|].
    + split; [done|]. intros (u & r & -> & Hu & Hr). inversion Hr; subst. exfalso.
      rewrite app_nil_r in Hf. naive_solver.
    + split; [|done]. intros _. exists s, []. rewrite app_nil_r. split; [done|]. split; [naive_solver|constructor].
  - assert (c ≠ 0) by by apply Forall_cons in Hq as [? _]. replace (c =? 0) with false by lia.
    destruct ((c =? 47) && path) eqn:E.
    + assert (c = 47) as -> by lia. assert (path = true) as Epath by (by destruct path; [|lia]).
      destruct (find_slash prev s) as [[prev' s']|] eqn:Ef.
      * apply find_slash_some in Ef as (u & r & -> & -> & Hu). apply Forall_app in Hs as [_ Hs].
        eapply decides_iff; [|by apply (IH (47 :: q) prev')]. rewrite matched_star. split; [by eauto 10|].
        intros (v & t & Et & Hv & Hm). rewrite tokens_cons in Hm |- *. cbn in Hm |- *. inversion Hm; subst.
        specialize (Hv Epath). by rewrite (first_slash_unique _ _ _ _ Hu Hv Et).
      * apply decides_no. apply find_slash_none in Ef. rewrite matched_star, tokens_cons. cbn.
        intros (v & t & -> & Hv & Hm). inversion Hm; subst. set_solver.
    + eapply decides_iff; [symmetry; apply matched_star|].
      apply (star_loop_ok _ path (matched path (tokens ne (c :: q)))); [done|auto|]. by apply not_matched_nil.
Qed.

Lemma fnmatch_ok fuel : ∀ (p : list Z) prev s,
  (length p < fuel)%nat → NZ p → NZ s → decides (fnmatch fuel p prev s flags) (matched path (tokens ne p) s).
Proof.
  induction fuel as [|fuel IH]; intros p prev s Hlen Hp Hs; [lia|].
  destruct p as [|c p].
  { cbn [fnmatch]. change (first []) with 0. cbn. rewrite first_nz by done. destruct s; [exists true|exists false]; (split; [done|]).
    - split; [|done]. intros _. constructor.
    - split; [done|]. by inversion 1. }
  destruct (decide (c = 42)) as [->|H42]; [apply star_ok; [done|cbn in Hlen; lia|by inversion Hp|done]|].
  apply Forall_cons in Hp as [Hc Hp]. cbn [length] in Hlen.
  cbn [fnmatch tail]. change (first (c :: p)) with c. rewrite tokens_cons, at_period_off, first_nz by done.
  replace (c =? 0) with false by lia. replace (c =? 42) with false by lia.
  destruct (c =? 63); [|destruct (c =? 91)].
  - destruct s as [|d s]; [apply decides_no; by inversion 1|]. change (first (d :: s)) with d.
    pose proof (decides_step _ TAny _ d s _ (matched_any d _) (IH p (Some d) s ltac:(lia) Hp ltac:(by inversion Hs))) as Hd.
    by destruct ((d =? 47) && path).
  - destruct s as [|d s]; [apply decides_no; repeat case_match; by inversion 1|]. change (first (d :: s)) with d.
    rewrite rangematch_bracket by done. destruct (bracket ne p) as [[rest l]|] eqn:Eb.
    + pose proof (bracket_length _ _ _ _ Eb) as Hl. apply bracket_nz in Eb; [|done].
      pose proof (decides_step _ _ _ d s _ (matched_set (negated p) l d _) (IH rest (Some d) s ltac:(lia) Eb ltac:(by inversion Hs))) as Hd.
      by destruct ((d =? 47) && path), (in_set (negated p) l d).
    + assert (decides (Some false) (matched path [TBad] (d :: s))) by (apply decides_no; by inversion 1).
      by destruct ((d =? 47) && path).
  - assert (∀ d q (Hq : (length q < fuel)%nat) (Hnz : NZ q), d ≠ 0 →
      decides (if d =? first s then fnmatch fuel q (Some (first s)) (tail s) flags else Some false)
        (matched path (TLit d :: tokens ne q) s)) as Hlit.
    { intros d q Hq Hnz Hd. destruct s as [|e s].
      - change (first []) with 0. replace (d =? 0) with false by lia. apply decides_no. by inversion 1.
      - change (first (e :: s)) with e. apply (decides_step _ _ _ e s _ (matched_lit d e _)).
        apply IH; [done|done|by inversion Hs]. }
    destruct ((c =? 92) && negb ne); [|apply Hlit; auto; lia].
    destruct p as [|d q]; [apply (Hlit 92 []); auto; cbn in *; lia|].
    apply Forall_cons in Hp as [Hd Hq]. cbn in Hlen. change (first (d :: q)) with d. replace (d =? 0) with false by lia.
    apply Hlit; auto; lia.
Qed.


End Matching.


(** What FNM_PERIOD does not stop: a bracket matches a leading period, and after
    a star that is not at the end of a component no later period is looked at. *)
Lemma fnmatch_period_missed :
  fnmatch 6 [91; 33; 120; 93; 97] None [46; 97] FNM_PERIOD = Some true ∧
  fnmatch 6 [42; 120; 47; 42] None [97; 120; 47; 46; 98] (Z.lor FNM_PERIOD FNM_PATHNAME) = Some true ∧
  fnmatch 6 [120; 47; 42] None [120; 47; 46; 98] (Z.lor FNM_PERIOD FNM_PATHNAME) = Some false.
Proof. done. Qed.

(** A right bracket at the start of a bracket expression closes it. *)
Lemma fnmatch_empty_bracket s : NZ s → fnmatch 5 [91; 93; 97; 93] None s 0 = Some false.
Proof.
  intros Hs. cbn [fnmatch tail]. change (first [91; 93; 97; 93]) with 91. cbn [Z.eqb Pos.eqb].
  destruct (first s =? 0); [done|]. by rewrite andb_false_r.
Qed.
